(* ===== verification/_CoqProject ===== *)
-Q . S2P
Prelude.v
Lists.v
Interfaces.v
Pmm.v
Strings.v
Printf.v
Rbtree.v
Kmem.v
Heap.v
Start.v
PageTables.v
Ptm.v
PtmA64.v
Vmm.v
Nodes.v
Tmpfs.v
Vfs.v
Devfs.v
Initrd.v
Resource.v
Sockets.v
Syscalls.v
Sync.v
Mutex.v
Sched.v
Proc.v
Ksym.v
Elf.v
Module.v
Exec.v
Boot.v
Archive.v
Devices.v
X86.v
Switch.v
Entry.v
Apic.v
Smp.v
Ahci.v
Graphics.v
Messages.v
Ps2kb.v
