(* ===== verification/Prelude.v ===== *)
(** * lykOS kernel: a verification development

    lykOS is a small operating system kernel in C for x86_64, with beginnings of
    an aarch64 port.  This library models its core as executable functions and
    step relations, and proves what makes the components correct.  Paths below
    are relative to src/kernel/src.

    ** The parts and the files that model them

    - Prelude.v: outcomes of C code ([Ok], [Panic] for panic and failed
      assertions, [Fault] for undefined accesses, [NoFuel] for loops out of
      fuel), machine integers as [Z] with the wrap-around written out, byte
      memory, loops; lib/math.h, common/assert.h.
    - Lists.v: lib/list.c.  Intrusive lists at the level of pointers, and the
      sequences they stand for, which the other files use.
    - Interfaces.v: type classes for what one component promises another: single
      physical pages ([PageAllocator]) and blocks of them ([PageBlocks]), address
      translation ([PageMap], [BlockMap]), heap objects ([ObjectAllocator]),
      files ([Files]).  Each has a small concrete instance for runs; Pmm.v,
      Ptm.v and Heap.v discharge those for pages, translation and objects.
    - Pmm.v: mm/pmm.c, the buddy allocator.
    - Strings.v: lib/string.c, lib/path.c, lib/hash.c on byte memory.
    - Printf.v: lib/printf.c as the kernel is built, without floating point.
    - Rbtree.v: lib/rbtree.c at the level of pointers.
    - Kmem.v, Heap.v: mm/kmem.c and mm/heap.c, slabs with magazines per
      processor, size classes.
    - Start.v: the first calls of kernel_main, the heap over the buddy allocator.
    - PageTables.v, Ptm.v, PtmA64.v: arch/x86_64/ptm.c and arch/aarch64/ptm.c
      over tables in physical pages.
    - Vmm.v: mm/vmm.c, address spaces, page faults, copies.
    - Nodes.v, Tmpfs.v, Devfs.v, Initrd.v: the file systems (fs/tmpfs.c,
      fs/devfs.c, fs/initrd.c, fs/ustar.h).
    - Vfs.v: fs/vfs.c, mounts, path resolution and page caches over any
      implementation of the vnode operations ([VnodeOps]).
    - Resource.v: sys/resource.c and syscalls/io.c, open files.
    - Sockets.v: sys/sockets/ and syscalls/socket.c, Unix sockets.
    - Syscalls.v: syscalls/mem.c.
    - Sync.v, Mutex.v: common/sync/, spin locks and mutexes as step relations
      over processors, interrupt handlers and threads.
    - Sched.v: sys/sched.c with sys/thread.h and the queue of sys/reaper.c.
    - Proc.v: sys/proc.c, sys/thread.c, sys/reaper.c, arch/x86_64/thread.c and
      arch/x86_64/abi/stack.c.
    - Ksym.v: sys/ksym.c and the writer of its table, src/tools/ksym.c.
    - Elf.v, Module.v, Exec.v: common/elf.c, sys/module.c, sys/exec.c: checks of
      headers, relocatable modules, programs.
    - Boot.v: the loops of main.c that load all modules and programs.
    - Archive.v: the ram disk from the bytes of its archive to open files, over
      Initrd.v and Vfs.v.
    - Devices.v: dev/, buses, drivers and devices, ACPI tables, PCI enumeration,
      block and character devices.
    - X86.v: arch/x86_64/tables/, int.c, syscall.c, cpuid.c, fpu.c, msr.h, the
      number check of syscall.asm: descriptor tables as bytes, interrupts.
    - Switch.v: arch/x86_64/sched.asm with arch_thread_context_switch, one
      definition per group of instructions, on a machine with registers.
    - Entry.v: arch/x86_64/syscall.asm, tables/idt.asm, userspace.S and
      syscalls/syscall.c: the ways into the kernel and back.
    - Apic.v: arch/x86_64/devices/, interrupt controllers and timers.
    - Smp.v: sys/smp.c, processors coming up as interleaved steps.
    - Ahci.v, Ps2kb.v: the drivers src/modules/ahci and src/modules/ps2kb, with
      the controllers as state machines that take steps between accesses.
    - Graphics.v: graphics/draw.c, graphics/video.c, common/log.c.
    - Messages.v: the users of Printf.v, the log (common/log.c) and the names of
      PCI devices (dev/pci.c).

    ** How they interact

    Physical pages (Pmm.v) feed the slabs (Kmem.v), whose caches are the heap
    (Heap.v), and the page tables (Ptm.v), on which address spaces are built
    (Vmm.v); Start.v puts the allocators together from the memory map of the boot
    loader on.  A log message is formatted into a buffer (Printf.v), sent to the
    serial port and drawn (Graphics.v).  Nodes of file systems and their pages come from heap and pages;
    the virtual file system (Vfs.v) calls them through their operation tables,
    system calls (Resource.v, Sockets.v, Syscalls.v) reach it through the
    resource table of the process (Proc.v).  The scheduler (Sched.v) moves
    threads between queues and processors, Switch.v exchanges their registers.  A
    program (Exec.v) is read from a file, its segments are mapped and filled
    through the address space of a new process, its thread is queued.  A module
    (Module.v) is linked against the symbols of Ksym.v; drivers meet devices on
    a bus (Devices.v).  An interrupt goes from a line through the redirection
    table (Apic.v) and the vector table (X86.v) to the handler of a driver
    (Ps2kb.v).  Hardware is not code: it is written from its specification, as
    decoders of the bytes the kernel stores (what the processor takes from a
    descriptor) or as a transition function of the device, and the theorems are
    about the kernel's side.  State that the source keeps in
    global variables is a record passed through the operations; the clients of
    an interface are proved for every implementation of its class.

    ** What the theorems show

    Allocators: every operation keeps the invariant of the data structure, an
    allocated block or object is free before and overlaps nothing that is in
    use, a release gives back exactly it, failure is a panic and only when
    nothing fits.  Put together from the memory map on, objects of the heap never
    overlap and lie in usable memory.  Lists, strings and trees: each pointer operation implements
    the operation on sequences or ordered red-black trees and touches nothing
    else.  Formatted output: the text of a format and its arguments is the one of
    a specification that places sign, prefix, digits and padding; a buffer gets
    that text cut to its size and no byte else is written; a log message reaches
    the port and the screen in this form.  Page tables and address spaces: a mapping changes the translation of
    exactly its page; segments stay sorted, disjoint and in bounds; page faults
    on anonymous memory are invisible to programs; copies write exactly their
    range.  File systems: reading through the page cache equals reading the
    file, what was written is read back, also through descriptors, created files
    are found, every entry of the archive is opened under its path and read
    exactly, descriptors are the lowest free ones.
    Sockets: the operations follow a connection protocol in which connected
    sockets are each other's peers.  Concurrency: mutual exclusion of spin locks
    and mutexes, interrupts masked in critical sections and restored after them,
    no thread on two processors or in two queues under any interleaving of
    yields and switches, first in first out.  Threads and processes: fresh
    identifiers, stacks that the first context switch takes to the entry point; a
    thread that is switched away from and back to resumes with all registers, a
    system call gives back everything but its results, an interrupt is invisible
    to what it interrupts.
    Programs and modules: every loadable segment has its bytes in memory, zeros
    behind them; symbols get the addresses of their sections or of the kernel,
    relocations the values of the ABI; a name written to the symbol table
    resolves to its address; at boot every program of the directory is loaded
    once and queued.  Hardware: descriptors decode to the intended
    segments and gates, a legacy line reaches the input and mode of the firmware
    table, a time slice is as long as asked for up to the error of the
    calibration, all processors start with distinct stacks and idle threads, a
    disk read delivers the sectors, a key press reaches its handler.

    Where the code does not do what it should, a lemma shows the behaviour on a
    general or concrete input, next to the model it is about (sections "Behaviours
    worth knowing" and the ends of the files).

    ** Fuel and bounds

    Loops whose length is data take fuel equal to a bound of it (bytes left to
    copy, pages, the length of a list plus one); the theorems show that it is
    enough, or take it as a hypothesis on the length of the strings involved.
    Integers are unbounded [Z] with [u8] ... [u64] applied where the C type is
    narrower than the value may be.  Physical addresses are below 2^46, which the
    direct map at 0xffff800000000000 has room for.  Addresses obtained from the direct map are
    physical addresses plus [HHDM].

    ** Abstractions

    A function that holds a spin lock from beginning to end is one step (Sync.v
    justifies this); the interleavings that remain visible are in Sync.v,
    Mutex.v, Sched.v and Sockets.v.  Memory is sequentially consistent.  Child
    lists, segment lists and queues are sequences, linking a linked node being
    [Fault]; page caches are finite maps by key (Rbtree.v); names are byte lists.

    ** Not modelled

    The order of initialisation in main.c and entry.c behind the allocators, but
    for the loops that load modules and programs, and the requests to the boot
    loader; the floating point conversions of lib/printf.c, which the build leaves
    out; the panic screen; the registers of the serial port; the scan of partition tables
    behind its first read, which overwrites its own buffer pointer, and
    dev/storage.c, which does not fit its header; what there is of the aarch64
    processor code; programs under src/apps. *)
From stdpp Require Import base gmap list strings fin_maps.
From Stdlib Require Import ZArith Lia.
#[global] Open Scope Z_scope.

(** ** Outcomes

    The kernel is C: a call returns, halts the processor through [panic]
    (also reached from a failing [ASSERT]), performs an access the C memory
    model does not define (a [NULL] or wild dereference, an index outside an
    array), or loops.  The four constructors keep these apart; [NoFuel] only
    appears in definitions whose loops carry a fuel argument, and the theorems
    about those definitions show that it is not reached. *)
Inductive outcome (A : Type) : Type :=
| Ok (a : A)
| Panic
| Fault
| NoFuel.
Arguments Ok {A} a.
Arguments Panic {A}.
Arguments Fault {A}.
Arguments NoFuel {A}.

#[export] Instance outcome_ret : MRet outcome := fun A a => Ok a.

#[export] Instance outcome_bind : MBind outcome := fun A B f m =>
  match m with
  | Ok a => f a
  | Panic => Panic
  | Fault => Fault
  | NoFuel => NoFuel
  end.

#[export] Instance outcome_fmap : FMap outcome := fun A B f m =>
  match m with
  | Ok a => Ok (f a)
  | Panic => Panic
  | Fault => Fault
  | NoFuel => NoFuel
  end.

#[export] Instance outcome_eq_dec `{EqDecision A} : EqDecision (outcome A).
Proof. solve_decision. Defined.

(** [ASSERT(b)] of common/assert.h: panic unless [b]. *)
Definition ASSERT (b : bool) : outcome unit := if b then Ok tt else Panic.

(** A read through a pointer or an array index: undefined when absent. *)
Definition deref {A} (o : option A) : outcome A :=
  match o with Some a => Ok a | None => Fault end.

(** An outcome that produced a value. *)
Definition returns {A} (m : outcome A) : Prop := exists a, m = Ok a.

Lemma bind_Ok {A B} (m : outcome A) (f : A -> outcome B) b :
  (m ≫= f) = Ok b <-> exists a, m = Ok a /\ f a = Ok b.
Proof. destruct m; simpl; naive_solver. Qed.

Lemma deref_Ok {A} (o : option A) a : deref o = Ok a <-> o = Some a.
Proof. destruct o; simpl; naive_solver. Qed.

Lemma ASSERT_Ok b u : ASSERT b = Ok u <-> b = true.
Proof. destruct u, b; simpl; naive_solver. Qed.

(** Decompose every [Ok] hypothesis about a bind into its steps. *)
Ltac inv_ok :=
  repeat match goal with
  | H : (_ ≫= _) = Ok _ |- _ =>
      let a := fresh "a" in let H1 := fresh "H" in
      apply bind_Ok in H; destruct H as (a & H1 & H)
  | H : deref _ = Ok _ |- _ => apply deref_Ok in H
  | H : ASSERT _ = Ok _ |- _ => apply ASSERT_Ok in H
  | H : Ok _ = Ok _ |- _ => injection H as H
  | H : Panic = Ok _ |- _ => discriminate H
  | H : Fault = Ok _ |- _ => discriminate H
  | H : NoFuel = Ok _ |- _ => discriminate H
  | H : mret _ = Ok _ |- _ => unfold mret, outcome_ret in H
  | p : (_ * _)%type |- _ => destruct p
  end; simplify_eq/=.

(** Rewrite the next step of a run with its result and go on. *)
Tactic Notation "run" uconstr(E) := rewrite E; cbn [mbind outcome_bind deref ASSERT].
Ltac go := cbn [mbind outcome_bind deref ASSERT].

(** Linear arithmetic with division by constants. *)
Ltac dlia := Z.to_euclidean_division_equations; lia.

(** ** Machine integers *)

Definition u8 (z : Z) : Z := z mod 2 ^ 8.
Definition u16 (z : Z) : Z := z mod 2 ^ 16.
Definition u32 (z : Z) : Z := z mod 2 ^ 32.
Definition u64 (z : Z) : Z := z mod 2 ^ 64.

(** [int] and [i64] values as they come out of a conversion. *)
Definition i32 (z : Z) : Z := (z + 2 ^ 31) mod 2 ^ 32 - 2 ^ 31.
Definition i64 (z : Z) : Z := (z + 2 ^ 63) mod 2 ^ 64 - 2 ^ 63.

(** [__builtin_clzll]: undefined at 0. *)
Definition clzll (x : Z) : outcome Z :=
  if x =? 0 then Fault else Ok (63 - Z.log2 x).

(** arch/types.h and lib/def.h *)
Definition ARCH_PAGE_GRAN : Z := 0x1000.
Definition BAD_ADDRESS : Z := 2 ^ 64 - 1.
Definition NULL : Z := 0.

(** lib/math.h *)
Definition CEIL (v g : Z) : Z := u64 (u64 (u64 (v + g) - 1) / g * g).
Definition FLOOR (v g : Z) : Z := v / g * g.
Definition MIN (a b : Z) : Z := if a <? b then a else b.
Definition MAX (a b : Z) : Z := if a >? b then a else b.

Lemma u64_small z : 0 <= z < 2 ^ 64 -> u64 z = z.
Proof. intros. by apply Z.mod_small. Qed.

Lemma u64_range z : 0 <= u64 z < 2 ^ 64.
Proof. by apply Z.mod_pos_bound. Qed.

Lemma u64_idemp z : u64 (u64 z) = u64 z.
Proof. apply u64_small, u64_range. Qed.

Lemma u8_small z : 0 <= z < 2 ^ 8 -> u8 z = z.
Proof. intros. by apply Z.mod_small. Qed.

Lemma u32_small z : 0 <= z < 2 ^ 32 -> u32 z = z.
Proof. intros. by apply Z.mod_small. Qed.

(** A read that misses is the undefined outcome. *)
Lemma deref_Fault {A} (o : option A) : deref o = Fault <-> o = None.
Proof. destruct o; simpl; naive_solver. Qed.

(** ** Powers of two and alignment *)

Lemma pow2_pos n : 0 <= n -> 0 < 2 ^ n.
Proof. intros. by apply Z.pow_pos_nonneg. Qed.

Lemma pow2_succ n : 0 <= n -> 2 ^ (n + 1) = 2 * 2 ^ n.
Proof. intros. rewrite Z.pow_add_r by lia. lia. Qed.

Lemma pow2_mono a b : 0 <= a <= b -> 2 ^ a <= 2 ^ b.
Proof. intros. apply Z.pow_le_mono_r; lia. Qed.

Lemma pow2_divide a b : 0 <= a <= b -> (2 ^ a | 2 ^ b).
Proof. intros. exists (2 ^ (b - a)). rewrite <- Z.pow_add_r by lia. f_equal. lia. Qed.

Lemma lxor_pow2_clear x n : 0 <= n -> Z.testbit x n = false -> Z.lxor x (2 ^ n) = x + 2 ^ n.
Proof.
  intros Hn Hb. symmetry. apply Z.add_nocarry_lxor. apply Z.bits_inj'. intros k Hk.
  rewrite Z.land_spec, Z.bits_0, Z.pow2_bits_eqb by lia.
  destruct (Z.eqb_spec n k) as [->|]; [by rewrite Hb|]. by rewrite andb_false_r.
Qed.

Lemma lxor_pow2_set x n : 0 <= n -> Z.testbit x n = true -> Z.lxor x (2 ^ n) = x - 2 ^ n.
Proof.
  intros Hn Hb. assert (Z.testbit (Z.lxor x (2 ^ n)) n = false) as Hc.
  { rewrite Z.lxor_spec, Z.pow2_bits_true, Hb by lia. done. }
  pose proof (lxor_pow2_clear _ n Hn Hc) as E.
  rewrite Z.lxor_assoc, Z.lxor_nilpotent, Z.lxor_0_r in E. lia.
Qed.

(** Bit [n] of a multiple of [2^n] is the parity of the quotient. *)
Lemma testbit_mul_pow2 k n : 0 <= n -> Z.testbit (k * 2 ^ n) n = Z.odd k.
Proof. intros. rewrite Z.mul_pow2_bits, Z.sub_diag by lia. apply Z.bit0_odd. Qed.

(** Flipping bit [n] of a multiple of [2^n] moves to the other half of the
    enclosing block of size [2^(n+1)]. *)
Lemma lxor_pow2_buddy x n : 0 <= n -> (2 ^ n | x) ->
  (exists k, x = k * 2 ^ (n + 1) /\ Z.lxor x (2 ^ n) = x + 2 ^ n) \/
  (exists k, x = k * 2 ^ (n + 1) + 2 ^ n /\ Z.lxor x (2 ^ n) = x - 2 ^ n).
Proof.
  intros Hn [k ->]. rewrite pow2_succ by done. pose proof (testbit_mul_pow2 k n Hn) as Hb.
  destruct (Z.odd k) eqn:Ho.
  - right. apply Z.odd_spec in Ho as [m ->]. exists m. split; [lia|].
    by apply lxor_pow2_set.
  - left. rewrite <- Z.negb_even in Ho. apply negb_false_iff, Z.even_spec in Ho as [m ->].
    exists m. split; [lia|]. by apply lxor_pow2_clear.
Qed.

(** Two aligned blocks that share a page are nested. *)
Lemma aligned_nested a b m n p :
  0 <= m <= n -> (2 ^ m | a) -> (2 ^ n | b) ->
  a <= p < a + 2 ^ m -> b <= p < b + 2 ^ n -> b <= a /\ a + 2 ^ m <= b + 2 ^ n.
Proof.
  intros Hmn [x ->] [y ->] Ha Hb. pose proof (pow2_pos m ltac:(lia)).
  pose proof (pow2_divide m n Hmn) as [d Hd]. rewrite Hd in *.
  set (M := 2 ^ m) in *. clearbody M.
  assert (y * d < x + 1) by (apply (Z.mul_lt_mono_pos_r M); nia).
  assert (x < (y + 1) * d) by (apply (Z.mul_lt_mono_pos_r M); nia).
  nia.
Qed.

(** ** Lists updated by index *)

Lemma elem_of_insert_inv {A} (l : list A) i x y : x ∈ <[i := y]> l -> x = y \/ x ∈ l.
Proof.
  intros [k Hk]%list_elem_of_lookup. destruct (decide (k = i)) as [->|].
  - destruct (decide (i < length l)%nat).
    + rewrite list_lookup_insert_eq in Hk by done. left. congruence.
    + rewrite list_insert_ge in Hk by lia. right. by eapply list_elem_of_lookup_2.
  - rewrite list_lookup_insert_ne in Hk by done. right. by eapply list_elem_of_lookup_2.
Qed.

(** ** Loops and byte memory *)

(** A C loop with a fuel argument: the body either goes on with a new state
    or leaves the loop with a result. *)
Fixpoint loop {S R : Type} (fuel : nat) (body : S -> outcome (S + R)) (s : S) : outcome R :=
  match fuel with
  | O => NoFuel
  | S fuel =>
      r ← body s;
      match r with
      | inl s => loop fuel body s
      | inr r => Ok r
      end
  end.

Lemma loop_unfold {S R} fuel (body : S -> outcome (S + R)) s :
  loop (Datatypes.S fuel) body s =
  (r ← body s; match r with inl s => loop fuel body s | inr r => Ok r end).
Proof. done. Qed.

Lemma loop_step {S R} fuel (body : S -> outcome (S + R)) s s' :
  body s = Ok (inl s') -> loop (Datatypes.S fuel) body s = loop fuel body s'.
Proof. intros E. simpl. by rewrite E. Qed.

Lemma loop_exit {S R} fuel (body : S -> outcome (S + R)) s r :
  body s = Ok (inr r) -> loop (Datatypes.S fuel) body s = Ok r.
Proof. intros E. simpl. by rewrite E. Qed.

Lemma loop_fault {S R} fuel (body : S -> outcome (S + R)) s :
  body s = Fault -> loop (Datatypes.S fuel) body s = Fault.
Proof. intros E. simpl. by rewrite E. Qed.

(** Mapped bytes of the kernel's address space. *)
Abbreviation mem := (gmap Z Z).

Definition load (m : mem) (p : Z) : outcome Z := deref (m !! p).
Definition store (m : mem) (p v : Z) : outcome mem :=
  deref (m !! p);; Ok (<[p := v]> m).

(** [m] holds the bytes [bs] from [p] on. *)
Definition bytes_at (m : mem) (p : Z) (bs : list Z) : Prop :=
  forall i b, bs !! i = Some b -> m !! (p + Z.of_nat i) = Some b.

(** The bytes [bs] written from [p] on. *)
Fixpoint write_bytes (m : mem) (p : Z) (bs : list Z) : mem :=
  match bs with
  | [] => m
  | b :: bs => write_bytes (<[p := b]> m) (p + 1) bs
  end.

(** Addresses [p], ..., [p + n - 1] are mapped. *)
Definition mapped (m : mem) (p : Z) (n : nat) : Prop :=
  forall i, (i < n)%nat -> is_Some (m !! (p + Z.of_nat i)).

(** The NUL-terminated string [s] at [p]. *)
Definition cstr (m : mem) (p : Z) (s : list Z) : Prop :=
  bytes_at m p (s ++ [0]) /\ Forall (fun b => b <> 0) s.

Lemma bytes_at_cons m p b bs : bytes_at m p (b :: bs) <-> m !! p = Some b /\ bytes_at m (p + 1) bs.
Proof.
  split.
  - intros H. split.
    + specialize (H 0%nat b eq_refl). by rewrite Z.add_0_r in H.
    + intros i c Hi. specialize (H (S i) c Hi). by replace (p + 1 + Z.of_nat i) with (p + Z.of_nat (S i)) by lia.
  - intros [Hp H] [|i] c Hi; simpl in Hi.
    + injection Hi as ->. by rewrite Z.add_0_r.
    + specialize (H i c Hi). by replace (p + Z.of_nat (S i)) with (p + 1 + Z.of_nat i) by lia.
Qed.

Lemma bytes_at_nil m p : bytes_at m p [].
Proof. done. Qed.

Lemma bytes_at_app m p xs ys :
  bytes_at m p (xs ++ ys) <-> bytes_at m p xs /\ bytes_at m (p + Z.of_nat (length xs)) ys.
Proof.
  revert p. induction xs as [|x xs IH]; intros p; simpl.
  - rewrite Z.add_0_r. pose proof (bytes_at_nil m p). tauto.
  - rewrite !bytes_at_cons, IH. replace (p + 1 + Z.of_nat (length xs)) with (p + Z.of_nat (S (length xs))) by lia.
    tauto.
Qed.

(** Writing outside the bytes does not disturb them. *)
Lemma bytes_at_insert m p bs a v :
  a < p \/ p + Z.of_nat (length bs) <= a -> bytes_at m p bs -> bytes_at (<[a := v]> m) p bs.
Proof.
  intros Ha H i b Hi. pose proof (lookup_lt_Some _ _ _ Hi). rewrite lookup_insert_ne by lia. by apply H.
Qed.

Lemma write_bytes_out m p bs a :
  a < p \/ p + Z.of_nat (length bs) <= a -> write_bytes m p bs !! a = m !! a.
Proof.
  revert m p. induction bs as [|b bs IH]; intros m p Ha; simpl in *; [done|].
  rewrite IH by lia. apply lookup_insert_ne. lia.
Qed.

Lemma write_bytes_at m p bs : bytes_at (write_bytes m p bs) p bs.
Proof.
  revert m p. induction bs as [|b bs IH]; intros m p; simpl; [apply bytes_at_nil|].
  rewrite bytes_at_cons. split; [|done]. rewrite write_bytes_out by lia. apply lookup_insert_eq.
Qed.

Lemma write_bytes_app m p xs ys :
  write_bytes m p (xs ++ ys) = write_bytes (write_bytes m p xs) (p + Z.of_nat (length xs)) ys.
Proof.
  revert m p. induction xs as [|x xs IH]; intros m p; simpl; [by rewrite Z.add_0_r|].
  rewrite IH. f_equal. lia.
Qed.

(** A write past the bytes commutes with them. *)
Lemma write_bytes_insert m p bs a v :
  a < p \/ p + Z.of_nat (length bs) <= a ->
  <[a := v]> (write_bytes m p bs) = write_bytes (<[a := v]> m) p bs.
Proof.
  revert m p. induction bs as [|b bs IH]; intros m p Ha; simpl in *; [done|].
  rewrite IH by lia. by rewrite insert_insert_ne by lia.
Qed.

Lemma store_Ok m p v : is_Some (m !! p) -> store m p v = Ok (<[p := v]> m).
Proof. intros [x Hx]. unfold store. by rewrite Hx. Qed.

Lemma mapped_insert m p n a v : mapped m p n -> mapped (<[a := v]> m) p n.
Proof.
  intros H i Hi. destruct (decide (a = p + Z.of_nat i)) as [->|]; [|rewrite lookup_insert_ne by done; auto].
  rewrite lookup_insert_eq. eauto.
Qed.

Lemma mapped_S m p n : mapped m p (S n) <-> is_Some (m !! p) /\ mapped m (p + 1) n.
Proof.
  split.
  - intros H. split; [specialize (H 0%nat ltac:(lia)); by rewrite Z.add_0_r in H|].
    intros i Hi. specialize (H (S i) ltac:(lia)).
    by replace (p + 1 + Z.of_nat i) with (p + Z.of_nat (S i)) by lia.
  - intros [Hp H] [|i] Hi; [by rewrite Z.add_0_r|].
    replace (p + Z.of_nat (S i)) with (p + 1 + Z.of_nat i) by lia. apply H. lia.
Qed.

Lemma bytes_mapped m p bs : bytes_at m p bs -> mapped m p (length bs).
Proof.
  intros H i Hi. destruct (lookup_lt_is_Some_2 bs i Hi) as [b Hb]. eexists. by apply H.
Qed.

(** [n] bytes read from [p] on. *)
Fixpoint kread (m : mem) (p : Z) (n : nat) : outcome (list Z) :=
  match n with
  | O => Ok []
  | S n => b ← load m p; bs ← kread m (p + 1) n; Ok (b :: bs)
  end.

Lemma kread_ok m p bs : bytes_at m p bs -> kread m p (length bs) = Ok bs.
Proof.
  revert p. induction bs as [|b bs IH]; intros p Hb; [done|]. apply bytes_at_cons in Hb as [Hb Hbs].
  cbn [kread length]. unfold load. run Hb. by run (IH _ Hbs).
Qed.

Lemma kread_total m p n : mapped m p n -> exists bs, kread m p n = Ok bs /\ length bs = n /\ bytes_at m p bs.
Proof.
  revert p. induction n as [|n IH]; intros p Hm; [by exists []|]. apply mapped_S in Hm as [[b Hb] Hm].
  destruct (IH _ Hm) as (bs & E & Hl & Hbs). exists (b :: bs). cbn [kread]. unfold load. run Hb. run E. split; [done|].
  split; [simpl; by rewrite Hl|]. by apply bytes_at_cons.
Qed.

(** [read_cstr m p]: the string at [p], without its terminator. *)
Fixpoint read_cstr (fuel : nat) (m : mem) (p : Z) : outcome (list Z) :=
  match fuel with
  | O => NoFuel
  | S fuel => b ← load m p; if b =? 0 then Ok [] else s ← read_cstr fuel m (p + 1); Ok (b :: s)
  end.

Lemma read_cstr_ok m p s fuel : cstr m p s -> (length s < fuel)%nat -> read_cstr fuel m p = Ok s.
Proof.
  revert p fuel. induction s as [|b s IH]; intros p [|fuel] [Hb Hnz] Hf; simpl in *; [lia| |lia|].
  - apply bytes_at_cons in Hb as [Hb _]. unfold load. by run Hb.
  - apply bytes_at_cons in Hb as [Hb Hs]. apply Forall_cons in Hnz as [Hnb Hnz]. unfold load. run Hb.
    rewrite (proj2 (Z.eqb_neq b 0)) by done. rewrite (IH (p + 1)); [done|by split|lia].
Qed.

#[export] Hint Resolve bytes_at_nil write_bytes_at mapped_insert bytes_mapped : bytes.

(** Little-endian integers of [n] bytes. *)
Fixpoint le_bytes (n : nat) (v : Z) : list Z :=
  match n with O => [] | S n => v mod 256 :: le_bytes n (v / 256) end.

Fixpoint le_value (bs : list Z) : Z :=
  match bs with [] => 0 | b :: bs => b + 256 * le_value bs end.

Definition le64 : Z -> list Z := le_bytes 8.

Definition byte (b : Z) : Prop := 0 <= b < 256.

Lemma le_bytes_length n v : length (le_bytes n v) = n.
Proof. revert v. induction n as [|n IH]; intros v; simpl; [done|]. by rewrite IH. Qed.

Lemma le_bytes_value n v : le_value (le_bytes n v) = v mod 2 ^ (8 * Z.of_nat n).
Proof.
  revert v. induction n as [|n IH]; intros v; simpl le_bytes; simpl le_value; [by rewrite Z.mod_1_r|].
  rewrite IH. replace (8 * Z.of_nat (S n)) with (8 * Z.of_nat n + 8) by lia. rewrite Z.pow_add_r by lia.
  change (2 ^ 8) with 256. rewrite (Z.mul_comm _ 256), Z.rem_mul_r by lia. done.
Qed.

Lemma le_value_range bs : Forall byte bs -> 0 <= le_value bs < 2 ^ (8 * Z.of_nat (length bs)).
Proof.
  induction 1 as [|b bs Hb _ IH]; simpl le_value; simpl length; [simpl; lia|].
  replace (8 * Z.of_nat (S (length bs))) with (8 * Z.of_nat (length bs) + 8) by lia. rewrite Z.pow_add_r by lia.
  unfold byte in Hb. lia.
Qed.

Lemma le_bytes_byte n v : Forall byte (le_bytes n v).
Proof. revert v. induction n as [|n IH]; intros v; constructor; [by apply Z.mod_pos_bound|done]. Qed.

Lemma le_value_bytes bs : Forall byte bs -> le_bytes (length bs) (le_value bs) = bs.
Proof.
  induction 1 as [|b bs Hb _ IH]; simpl; [done|]. unfold byte in Hb.
  assert ((b + 256 * le_value bs) mod 256 = b) as -> by dlia. assert ((b + 256 * le_value bs) / 256 = le_value bs) as -> by dlia.
  by rewrite IH.
Qed.

(** Bytes away from the addresses where two memories differ. *)
Lemma bytes_at_agree (m m' : mem) p bs (lo hi : Z) :
  (forall x, ~ lo <= x < hi -> m' !! x = m !! x) -> p + Z.of_nat (length bs) <= lo \/ hi <= p -> bytes_at m p bs -> bytes_at m' p bs.
Proof. intros Hm Hp Hb i b Hi. pose proof (lookup_lt_Some _ _ _ Hi). rewrite Hm by lia. by apply Hb. Qed.

Lemma bytes_at_slice m p bs i n : bytes_at m p bs -> bytes_at m (p + Z.of_nat i) (take n (drop i bs)).
Proof.
  intros Hb j b Hj. apply lookup_take_Some in Hj as [Hj _]. rewrite lookup_drop in Hj. apply Hb in Hj.
  by replace (p + Z.of_nat i + Z.of_nat j) with (p + Z.of_nat (i + j)) by lia.
Qed.

(** An array of [n]-byte items. *)
Lemma concat_lookup {A} (f : A -> list Z) n l i x : (forall y, length (f y) = n) -> l !! i = Some x ->
  take n (drop (n * i) (concat (f <$> l))) = f x.
Proof.
  intros Hf. revert i. induction l as [|y l IH]; intros i Hi; [done|]. destruct i as [|i]; simpl in *; [injection Hi as ->|].
  - rewrite Nat.mul_0_r, drop_0. by rewrite take_app_length' by (by rewrite Hf).
  - rewrite drop_app_ge by (rewrite Hf; lia). rewrite (Hf y). replace (n * S i - n)%nat with (n * i)%nat by lia. by apply IH.
Qed.

Lemma concat_length {A} (f : A -> list Z) n l : (forall y, length (f y) = n) -> length (concat (f <$> l)) = (n * length l)%nat.
Proof. intros Hf. induction l as [|y l IH]; [simpl; lia|]. rewrite fmap_cons. cbn [concat length].
  rewrite length_app, IH, Hf. lia. Qed.

(** [bytes_at] on closed memories, by evaluation. *)
Lemma bytes_dec m p bs : bool_decide (kread m p (length bs) = Ok bs) = true -> bytes_at m p bs.
Proof.
  intros E%bool_decide_eq_true. revert p E. induction bs as [|b bs IH]; intros p E; [apply bytes_at_nil|]. cbn [kread length] in E.
  apply bind_Ok in E as (c & Hc & E). apply bind_Ok in E as (l & Hl & E). injection E as -> ->. unfold load in Hc.
  destruct (m !! p) eqn:Em; [|done]. injection Hc as ->. apply bytes_at_cons. split; [done|by apply IH].
Qed.

(** Memories that agree on a range, and ranges that stay mapped. *)
Lemma kread_agree (m m' : mem) p n : (forall a, p <= a < p + Z.of_nat n -> m' !! a = m !! a) -> kread m' p n = kread m p n.
Proof.
  revert p. induction n as [|n IH]; intros p Hm; [done|]. cbn [kread]. unfold load. rewrite Hm by lia.
  rewrite IH; [done|]. intros a Ha. apply Hm. lia.
Qed.

Lemma write_bytes_swap m p xs q ys : p + Z.of_nat (length xs) <= q \/ q + Z.of_nat (length ys) <= p ->
  write_bytes (write_bytes m p xs) q ys = write_bytes (write_bytes m q ys) p xs.
Proof.
  revert m q. induction ys as [|y ys IH]; intros m q Hpq; [done|]. cbn [write_bytes length] in *.
  rewrite write_bytes_insert by lia. apply IH. lia.
Qed.

Lemma bytes_at_same (m m' : mem) p bs : (forall a, p <= a < p + Z.of_nat (length bs) -> m' !! a = m !! a) -> bytes_at m p bs -> bytes_at m' p bs.
Proof. intros Hm Hb i b Hi. pose proof (lookup_lt_Some _ _ _ Hi). rewrite Hm by lia. by apply Hb. Qed.

Lemma write_bytes_some m p bs (a : Z) : is_Some (m !! a) -> is_Some (write_bytes m p bs !! a).
Proof.
  revert m p. induction bs as [|b bs IH]; intros m p Ha; [done|]. cbn [write_bytes]. apply IH.
  destruct (decide (p = a)) as [->|]; [rewrite lookup_insert_eq; by eexists|by rewrite lookup_insert_ne].
Qed.

Lemma mapped_sub m p n q k : mapped m p n -> p <= q -> q + Z.of_nat k <= p + Z.of_nat n -> mapped m q k.
Proof.
  intros Hm Hq Hk i Hi. specialize (Hm (Z.to_nat (q - p) + i)%nat ltac:(lia)).
  by replace (p + Z.of_nat (Z.to_nat (q - p) + i)) with (q + Z.of_nat i) in Hm by lia.
Qed.
