(* ===== verification/Lists.v ===== *)
(** * Intrusive doubly linked lists (kernel/src/lib/list.c, list.h)

    The pointer level model: nodes live in a store from addresses to
    [list_node_t], and a [list_t] holds the length, head and tail.  The file
    then states what every client of the list relies on (a list stands for a
    sequence of distinct nodes) and proves that each operation implements the
    corresponding operation on sequences, and touches no other node. *)
From stdpp Require Import base gmap list fin_maps.
From Stdlib Require Import ZArith Lia.
From S2P Require Import Prelude.

(** list.h: the node and list structures, and their initialisers. *)
Record list_node_t := LNode { prev : Z; next : Z }.

Record list_t := MkList { length_ : Z; head : Z; tail : Z }.

Definition LIST_INIT : list_t := MkList 0 NULL NULL.
Definition LIST_NODE_INIT : list_node_t := LNode NULL NULL.

Abbreviation nodes := (gmap Z list_node_t).

(** Assignments [p->prev = v] and [p->next = v]. *)
Definition set_prev (h : nodes) (p v : Z) : outcome nodes :=
  n ← deref (h !! p); Ok (<[p := LNode v (next n)]> h).
Definition set_next (h : nodes) (p v : Z) : outcome nodes :=
  n ← deref (h !! p); Ok (<[p := LNode (prev n) v]> h).

Definition list_is_empty (l : list_t) : outcome bool :=
  ASSERT (negb (xorb (head l =? NULL) (length_ l =? 0)));;
  Ok (head l =? NULL).

Definition list_insert_after (l : list_t) (h : nodes) (pos new : Z)
    : outcome (list_t * nodes) :=
  if pos =? NULL then
    e ← list_is_empty l;
    ASSERT e;;
    h ← set_prev h new NULL;
    h ← set_next h new NULL;
    Ok (MkList (u64 (length_ l + 1)) new new, h)
  else
    h ← set_prev h new pos;
    pn ← deref (h !! pos);
    h ← set_next h new (next pn);
    nn ← deref (h !! new);
    h ← (if negb (next nn =? NULL) then set_prev h (next nn) new else Ok h);
    h ← set_next h pos new;
    let t := if tail l =? pos then new else tail l in
    Ok (MkList (u64 (length_ l + 1)) (head l) t, h).

Definition list_insert_before (l : list_t) (h : nodes) (pos new : Z)
    : outcome (list_t * nodes) :=
  if pos =? NULL then
    e ← list_is_empty l;
    ASSERT e;;
    h ← set_prev h new NULL;
    h ← set_next h new NULL;
    Ok (MkList (u64 (length_ l + 1)) new new, h)
  else
    pn ← deref (h !! pos);
    h ← set_prev h new (prev pn);
    h ← set_next h new pos;
    nn ← deref (h !! new);
    h ← (if negb (prev nn =? NULL) then set_next h (prev nn) new else Ok h);
    h ← set_prev h pos new;
    let hd := if head l =? pos then new else head l in
    Ok (MkList (u64 (length_ l + 1)) hd (tail l), h).

Definition list_append (l : list_t) (h : nodes) (node : Z) :=
  list_insert_after l h (tail l) node.

Definition list_prepend (l : list_t) (h : nodes) (node : Z) :=
  list_insert_before l h (head l) node.

Definition list_remove (l : list_t) (h : nodes) (node : Z)
    : outcome (list_t * nodes) :=
  ASSERT (negb (node =? NULL));;
  n ← deref (h !! node);
  h ← (if negb (prev n =? NULL) then set_next h (prev n) (next n) else Ok h);
  n ← deref (h !! node);
  h ← (if negb (next n =? NULL) then set_prev h (next n) (prev n) else Ok h);
  n ← deref (h !! node);
  let hd := if head l =? node then next n else head l in
  let tl := if tail l =? node then prev n else tail l in
  Ok (MkList (u64 (length_ l - 1)) hd tl, h).

Definition list_pop_head (l : list_t) (h : nodes) : outcome (Z * list_t * nodes) :=
  let node := head l in
  if negb (node =? NULL) then
    '(l, h) ← list_remove l h node; Ok (node, l, h)
  else Ok (node, l, h).

Definition list_pop_tail (l : list_t) (h : nodes) : outcome (Z * list_t * nodes) :=
  let node := tail l in
  if negb (node =? NULL) then
    '(l, h) ← list_remove l h node; Ok (node, l, h)
  else Ok (node, l, h).

(** [FOREACH(n, list)]: the nodes visited from [head] along [next]. *)
Fixpoint foreach_from (fuel : nat) (h : nodes) (p : Z) : outcome (list Z) :=
  if p =? NULL then Ok [] else
  match fuel with
  | O => NoFuel
  | S fuel =>
      n ← deref (h !! p);
      xs ← foreach_from fuel h (next n);
      Ok (p :: xs)
  end.
Definition FOREACH (fuel : nat) (h : nodes) (l : list_t) := foreach_from fuel h (head l).

(** ** What a list stands for *)

Definition hd_or (d : Z) (xs : list Z) : Z := default d (list.head xs).
Definition last_or (d : Z) (xs : list Z) : Z := default d (last xs).

(** [seg h pv xs nx]: the nodes [xs] are linked in order, the first one's
    [prev] is [pv] and the last one's [next] is [nx]. *)
Fixpoint seg (h : nodes) (pv : Z) (xs : list Z) (nx : Z) : Prop :=
  match xs with
  | [] => True
  | x :: xs' => h !! x = Some (LNode pv (hd_or nx xs')) /\ seg h x xs' nx
  end.

Record dll (h : nodes) (l : list_t) (xs : list Z) : Prop := {
  dll_seg : seg h NULL xs NULL;
  dll_nodup : NoDup xs;
  dll_nonnull : NULL ∉ xs;
  dll_head : head l = hd_or NULL xs;
  dll_tail : tail l = last_or NULL xs;
  dll_length : length_ l = Z.of_nat (length xs);
  dll_bound : Z.of_nat (length xs) < 2 ^ 64
}.

(** The nodes outside [ys] are untouched. *)
Definition frame (ys : list Z) (h h' : nodes) : Prop :=
  forall p, p ∉ ys -> h' !! p = h !! p.

(** ** Structural lemmas *)

Lemma hd_or_app d xs ys : hd_or d (xs ++ ys) = hd_or (hd_or d ys) xs.
Proof. by destruct xs. Qed.

Lemma last_or_app d xs ys : last_or d (xs ++ ys) = last_or (last_or d xs) ys.
Proof. unfold last_or. rewrite last_app. by destruct (last ys). Qed.

Lemma last_or_cons d x xs : last_or d (x :: xs) = last_or x xs.
Proof. unfold last_or. rewrite last_cons. by destruct (last xs). Qed.

Lemma last_or_snoc d xs x : last_or d (xs ++ [x]) = x.
Proof. by rewrite last_or_app. Qed.

Lemma hd_or_in d x xs : hd_or d (x :: xs) ∈ x :: xs.
Proof. left. Qed.

Lemma seg_app h pv xs ys nx :
  seg h pv (xs ++ ys) nx <-> seg h pv xs (hd_or nx ys) /\ seg h (last_or pv xs) ys nx.
Proof.
  revert pv. induction xs as [|x xs IH]; intros pv; simpl; [naive_solver|].
  rewrite IH, hd_or_app, last_or_cons. naive_solver.
Qed.

Lemma seg_ext h h' pv xs nx :
  (forall x, x ∈ xs -> h' !! x = h !! x) -> seg h pv xs nx -> seg h' pv xs nx.
Proof.
  revert pv. induction xs as [|x xs IH]; intros pv Hext; simpl; [done|].
  intros [Hx Hs]. split.
  - rewrite Hext by set_solver. done.
  - apply IH; [set_solver|done].
Qed.

Lemma seg_lookup h pv xs x ys nx :
  seg h pv (xs ++ x :: ys) nx -> h !! x = Some (LNode (last_or pv xs) (hd_or nx ys)).
Proof. rewrite seg_app. intros [_ [Hx _]]. done. Qed.

Lemma set_prev_Ok h p v n :
  h !! p = Some n -> set_prev h p v = Ok (<[p := LNode v (next n)]> h).
Proof. intros H. unfold set_prev. by rewrite H. Qed.

Lemma set_next_Ok h p v n :
  h !! p = Some n -> set_next h p v = Ok (<[p := LNode (prev n) v]> h).
Proof. intros H. unfold set_next. by rewrite H. Qed.

(** Storing into a node outside a segment keeps the segment. *)
Lemma seg_insert h pv xs nx p n : p ∉ xs -> seg h pv xs nx -> seg (<[p := n]> h) pv xs nx.
Proof.
  intros Hp. apply seg_ext. intros x Hx. rewrite lookup_insert_ne; [done|].
  intros ->. done.
Qed.

(** Redirecting the last node of a segment: its [next] becomes [v]. *)
Lemma seg_set_last h pv xs x nx v :
  NoDup (xs ++ [x]) -> seg h pv (xs ++ [x]) nx ->
  seg (<[x := LNode (last_or pv xs) v]> h) pv (xs ++ [x]) v.
Proof.
  intros Hnd [H1 [H2 _]]%seg_app. apply NoDup_app in Hnd as (_ & Hx & _).
  apply seg_app. split.
  - apply seg_insert; [set_solver|done].
  - simpl. by rewrite lookup_insert_eq.
Qed.

(** Redirecting the first node of a segment: its [prev] becomes [v]. *)
Lemma seg_set_first h pv x xs nx v :
  NoDup (x :: xs) -> seg h pv (x :: xs) nx ->
  seg (<[x := LNode v (hd_or nx xs)]> h) v (x :: xs) nx.
Proof.
  intros [Hx _]%NoDup_cons [H1 H2]. simpl. split; [by rewrite lookup_insert_eq|].
  by apply seg_insert.
Qed.

#[export] Hint Resolve seg_insert : lists.

(** The store after linking [new] between [l1] and [l2]. *)
Definition link_heap (h : nodes) (l1 : list Z) (new : Z) (l2 : list Z) : nodes :=
  let h1 := <[new := LNode (last_or NULL l1) (hd_or NULL l2)]> h in
  let h2 := match l2 with
            | [] => h1
            | y :: l2' => <[y := LNode new (hd_or NULL l2')]> h1
            end in
  match last l1 with
  | None => h2
  | Some x => <[x := LNode (last_or NULL (take (length l1 - 1) l1)) new]> h2
  end.

Lemma link_heap_seg h l1 new l2 :
  NoDup (l1 ++ l2) -> new ∉ l1 ++ l2 -> seg h NULL (l1 ++ l2) NULL ->
  seg (link_heap h l1 new l2) NULL (l1 ++ new :: l2) NULL.
Proof.
  intros (Hn1 & Hdis & Hn2)%NoDup_app Hnew [Hs1 Hs2]%seg_app.
  apply seg_app. unfold link_heap. split.
  - destruct (last l1) as [x|] eqn:Hl.
    + apply last_Some in Hl as [l1' ->]. rewrite length_app, take_app_le, take_ge by (simpl; lia).
      apply (seg_set_last _ _ _ _ (hd_or NULL l2)); [done|].
      destruct l2; repeat apply seg_insert; set_solver.
    + apply last_None in Hl as ->. done.
  - simpl. assert (Hx : last l1 = None \/ exists l1' x, l1 = l1' ++ [x] /\ last l1 = Some x).
    { destruct (last l1) eqn:Hl; [right|by left]. apply last_Some in Hl as [l1' ->]. eauto. }
    destruct l2 as [|y l2].
    { split; [|done]. destruct Hx as [->|(l1' & x & -> & ->)]; [by rewrite lookup_insert_eq|].
      rewrite lookup_insert_ne by set_solver. by rewrite lookup_insert_eq. }
    assert (Hseg : seg (<[y := LNode new (hd_or NULL l2)]>
                          (<[new := LNode (last_or NULL l1) y]> h)) new (y :: l2) NULL).
    { apply (seg_set_first _ (last_or NULL l1)); [done|]. apply seg_insert; set_solver. }
    destruct Hx as [->|(l1' & x & -> & ->)].
    + split; [|done]. rewrite lookup_insert_ne by set_solver. by rewrite lookup_insert_eq.
    + split; [|apply seg_insert; set_solver].
      rewrite !lookup_insert_ne by set_solver. by rewrite lookup_insert_eq.
Qed.

Lemma link_heap_frame h l1 new l2 : frame (l1 ++ new :: l2) h (link_heap h l1 new l2).
Proof.
  intros p Hp. unfold link_heap.
  assert (forall x, last l1 = Some x -> x ∈ l1) as Hin.
  { intros x [l1' ->]%last_Some. set_solver. }
  destruct (last l1) as [x|]; [specialize (Hin x eq_refl)|];
    destruct l2; rewrite !lookup_insert_ne by set_solver; done.
Qed.

(** A list with a node linked in stands for the longer sequence. *)
Lemma link_dll h l l1 new l2 :
  dll h l (l1 ++ l2) -> new ∉ l1 ++ l2 -> new <> NULL ->
  Z.of_nat (length (l1 ++ l2)) + 1 < 2 ^ 64 ->
  dll (link_heap h l1 new l2)
      (MkList (u64 (length_ l + 1)) (hd_or NULL (l1 ++ new :: l2))
              (last_or NULL (l1 ++ new :: l2))) (l1 ++ new :: l2).
Proof.
  intros [Hs Hnd Hnn Hh Ht Hlen Hb] Hnew Hnz Hbound.
  split; simpl; try done.
  - by apply link_heap_seg.
  - apply NoDup_app in Hnd as (?&?&?). apply NoDup_app. split_and!; [done|set_solver|].
    apply NoDup_cons. set_solver.
  - set_solver.
  - rewrite Hlen, u64_small; rewrite !length_app in *; simpl in *; lia.
  - rewrite !length_app in *; simpl in *; lia.
Qed.

(** ** Refinement: each operation implements its sequence counterpart *)

Lemma list_is_empty_spec h l xs :
  dll h l xs -> list_is_empty l = Ok (bool_decide (xs = [])).
Proof.
  intros [_ _ Hnn Hh _ Hlen _]. unfold list_is_empty. rewrite Hh, Hlen.
  destruct xs as [|x xs]; simpl; [done|].
  unfold hd_or; simpl. rewrite (proj2 (Z.eqb_neq x NULL)) by set_solver.
  done.
Qed.

Lemma insert_into_empty h l new :
  dll h l [] -> new <> NULL -> is_Some (h !! new) ->
  exists l' h',
    list_insert_after l h NULL new = Ok (l', h') /\
    list_insert_before l h NULL new = Ok (l', h') /\
    dll h' l' [new] /\ frame [new] h h'.
Proof.
  intros Hd Hnz [n Hn]. exists (MkList (u64 (length_ l + 1)) new new), (link_heap h [] new []).
  pose proof (link_dll h l [] new [] Hd) as Hlink.
  pose proof (list_is_empty_spec _ _ _ Hd) as He.
  split_and!; [| |apply Hlink; (done || set_solver)|apply (link_heap_frame h [] new [])];
    unfold list_insert_after, list_insert_before; rewrite He; simpl;
    rewrite (set_prev_Ok _ _ _ n) by done; simpl;
    rewrite (set_next_Ok _ _ _ (LNode NULL (next n))) by (by rewrite lookup_insert_eq);
    by rewrite insert_insert_eq.
Qed.

Lemma list_insert_after_link h l l1 pos new l2 :
  dll h l (l1 ++ pos :: l2) -> new ∉ l1 ++ pos :: l2 -> new <> NULL -> is_Some (h !! new) ->
  list_insert_after l h pos new =
    Ok (MkList (u64 (length_ l + 1)) (hd_or NULL ((l1 ++ [pos]) ++ new :: l2))
               (last_or NULL ((l1 ++ [pos]) ++ new :: l2)),
        link_heap h (l1 ++ [pos]) new l2).
Proof.
  intros Hd Hnew Hnz [n Hn]. pose proof (dll_seg _ _ _ Hd) as Hs.
  pose proof (dll_nonnull _ _ _ Hd) as Hnn. pose proof (dll_nodup _ _ _ Hd) as Hnd.
  assert (pos <> new) as Hpn by set_solver. assert (pos <> NULL) as Hp0 by set_solver.
  pose proof (seg_lookup _ _ _ _ _ _ Hs) as Hpos.
  unfold list_insert_after. rewrite (proj2 (Z.eqb_neq pos NULL)) by done.
  rewrite (set_prev_Ok _ _ _ n) by done; simpl. rewrite lookup_insert_ne by done. rewrite Hpos; simpl.
  rewrite (set_next_Ok _ _ _ (LNode pos (next n))) by by rewrite lookup_insert_eq.
  simpl. rewrite insert_insert_eq, lookup_insert_eq; simpl.
  assert (Htail : (if tail l =? pos then new else tail l) = last_or NULL ((l1 ++ [pos]) ++ new :: l2)).
  { rewrite (dll_tail _ _ _ Hd), !last_or_app, !last_or_cons. destruct l2 as [|y l2].
    - simpl. unfold last_or; simpl. by rewrite Z.eqb_refl.
    - rewrite !last_or_cons. apply NoDup_app in Hnd as (_ & _ & Hnd).
      apply NoDup_cons in Hnd as [Hnd _]. rewrite (proj2 (Z.eqb_neq _ _)); [done|].
      intros <-. apply Hnd. unfold last_or. destruct (last l2) eqn:E; simpl; [|set_solver].
      apply last_Some in E as [? ->]. set_solver. }
  assert (Hhead : head l = hd_or NULL ((l1 ++ [pos]) ++ new :: l2)).
  { rewrite (dll_head _ _ _ Hd). by destruct l1. }
  rewrite Htail, <- Hhead. unfold link_heap. rewrite last_snoc, length_app, take_app_le, take_ge by (simpl; lia).
  rewrite last_or_snoc. destruct l2 as [|y l2]; simpl.
  - rewrite (set_next_Ok _ _ _ (LNode (last_or NULL l1) NULL)) by by rewrite lookup_insert_ne.
    done.
  - pose proof Hs as Hs'. apply seg_app in Hs' as [_ [_ [Hy _]]].
    assert (y <> new) by set_solver. assert (y <> NULL) by set_solver.
    assert (pos <> y). { apply NoDup_app in Hnd as (_ & _ & Hnd). apply NoDup_cons in Hnd. set_solver. }
    unfold hd_or; simpl. rewrite (proj2 (Z.eqb_neq y NULL)) by done. simpl.
    rewrite (set_prev_Ok _ _ _ (LNode pos (hd_or NULL l2))) by by rewrite lookup_insert_ne.
    simpl. rewrite (set_next_Ok _ _ _ (LNode (last_or NULL l1) y)); [done|].
    by rewrite !lookup_insert_ne.
Qed.

Lemma list_insert_before_link h l l1 pos new l2 :
  dll h l (l1 ++ pos :: l2) -> new ∉ l1 ++ pos :: l2 -> new <> NULL -> is_Some (h !! new) ->
  list_insert_before l h pos new =
    Ok (MkList (u64 (length_ l + 1)) (hd_or NULL (l1 ++ new :: pos :: l2))
               (last_or NULL (l1 ++ new :: pos :: l2)),
        link_heap h l1 new (pos :: l2)).
Proof.
  intros Hd Hnew Hnz [n Hn]. pose proof (dll_seg _ _ _ Hd) as Hs.
  pose proof (dll_nonnull _ _ _ Hd) as Hnn. pose proof (dll_nodup _ _ _ Hd) as Hnd.
  assert (pos <> new) as Hpn by set_solver. assert (pos <> NULL) as Hp0 by set_solver.
  pose proof (seg_lookup _ _ _ _ _ _ Hs) as Hpos.
  unfold list_insert_before. rewrite (proj2 (Z.eqb_neq pos NULL)) by done.
  rewrite Hpos; simpl. rewrite (set_prev_Ok _ _ _ n) by done; simpl.
  rewrite (set_next_Ok _ _ _ (LNode (last_or NULL l1) (next n))) by by rewrite lookup_insert_eq.
  simpl. rewrite insert_insert_eq, lookup_insert_eq; simpl.
  assert (Htail : tail l = last_or NULL (l1 ++ new :: pos :: l2)).
  { by rewrite (dll_tail _ _ _ Hd), !last_or_app, !last_or_cons. }
  assert (Hhead : (if head l =? pos then new else head l) = hd_or NULL (l1 ++ new :: pos :: l2)).
  { rewrite (dll_head _ _ _ Hd), !hd_or_app. destruct l1 as [|x l1]; unfold hd_or; simpl.
    - by rewrite Z.eqb_refl.
    - rewrite (proj2 (Z.eqb_neq _ _)); [done|]. intros ->.
      apply NoDup_cons in Hnd. set_solver. }
  rewrite Hhead, Htail. unfold link_heap.
  destruct (last l1) as [x|] eqn:Hl; simpl.
  - pose proof Hl as [l1' ->]%last_Some. rewrite length_app, take_app_le, take_ge by (simpl; lia).
    assert (x <> NULL) by set_solver. assert (x <> new) by set_solver.
    assert (pos <> x). { apply NoDup_app in Hnd as (_ & Hdis & _). set_solver. }
    rewrite last_or_snoc.
    rewrite (proj2 (Z.eqb_neq x NULL)) by done; simpl.
    rewrite <- app_assoc in Hs. pose proof (seg_lookup _ _ _ _ _ _ Hs) as Hx; simpl in Hx.
    rewrite (set_next_Ok _ _ _ (LNode (last_or NULL l1') (hd_or NULL (pos :: l2))))
      by by rewrite lookup_insert_ne.
    simpl. rewrite (set_prev_Ok _ _ _ (LNode x (hd_or NULL l2))).
    2:{ rewrite !lookup_insert_ne by done. rewrite Hpos. f_equal.
        by rewrite last_or_snoc. }
    simpl. rewrite insert_insert_ne by done. done.
  - apply last_None in Hl as ->. unfold last_or; simpl.
    rewrite (set_prev_Ok _ _ _ (LNode NULL (hd_or NULL l2))) by by rewrite lookup_insert_ne.
    done.
Qed.

(** The store after unlinking the node between [l1] and [l2]. *)
Definition unlink_heap (h : nodes) (l1 l2 : list Z) : nodes :=
  let h1 := match last l1 with
            | None => h
            | Some x => <[x := LNode (last_or NULL (take (length l1 - 1) l1)) (hd_or NULL l2)]> h
            end in
  match l2 with
  | [] => h1
  | y :: l2' => <[y := LNode (last_or NULL l1) (hd_or NULL l2')]> h1
  end.

Lemma unlink_heap_seg h l1 node l2 :
  NoDup (l1 ++ node :: l2) -> seg h NULL (l1 ++ node :: l2) NULL ->
  seg (unlink_heap h l1 l2) NULL (l1 ++ l2) NULL.
Proof.
  intros (Hn1 & Hdis & [Hn Hn2]%NoDup_cons)%NoDup_app [Hs1 [_ Hs2]]%seg_app.
  apply seg_app. unfold unlink_heap.
  assert (Hseg1 : seg (match last l1 with
            | None => h
            | Some x => <[x := LNode (last_or NULL (take (length l1 - 1) l1)) (hd_or NULL l2)]> h
            end) NULL l1 (hd_or NULL l2)).
  { destruct (last l1) as [x|] eqn:Hl.
    - apply last_Some in Hl as [l1' ->]. rewrite length_app, take_app_le, take_ge by (simpl; lia).
      by apply (seg_set_last _ _ _ _ node).
    - by apply last_None in Hl as ->. }
  destruct l2 as [|y l2]; [split; done|]. split.
  - apply seg_insert; [set_solver|done].
  - apply (seg_set_first _ node); [done|].
    destruct (last l1) as [x|] eqn:Hl; [|done]. apply seg_insert; [|done].
    apply last_Some in Hl as [l1' ->]. set_solver.
Qed.

Lemma unlink_heap_frame h l1 l2 : frame (l1 ++ l2) h (unlink_heap h l1 l2).
Proof.
  intros p Hp. unfold unlink_heap.
  assert (forall x, last l1 = Some x -> x ∈ l1) as Hin.
  { intros x [l1' ->]%last_Some. set_solver. }
  destruct (last l1) as [x|]; [specialize (Hin x eq_refl)|];
    destruct l2; rewrite ?lookup_insert_ne by set_solver; done.
Qed.

(** Reading a node next to the one being removed. *)
Lemma node_next h l1 node y l2 :
  seg h NULL (l1 ++ node :: y :: l2) NULL -> h !! y = Some (LNode node (hd_or NULL l2)).
Proof. rewrite seg_app. intros (_ & _ & Hy & _). done. Qed.

Lemma node_prev h l1 x node l2 :
  seg h NULL ((l1 ++ [x]) ++ node :: l2) NULL -> h !! x = Some (LNode (last_or NULL l1) node).
Proof. rewrite <- app_assoc. intros Hs. exact (seg_lookup _ _ _ _ _ _ Hs). Qed.

Lemma list_remove_unlink h l l1 node l2 :
  dll h l (l1 ++ node :: l2) ->
  list_remove l h node =
    Ok (MkList (u64 (length_ l - 1)) (hd_or NULL (l1 ++ l2)) (last_or NULL (l1 ++ l2)),
        unlink_heap h l1 l2).
Proof.
  intros Hd. pose proof (dll_seg _ _ _ Hd) as Hs.
  pose proof (dll_nonnull _ _ _ Hd) as Hnn. pose proof (dll_nodup _ _ _ Hd) as Hnd.
  pose proof (seg_lookup _ _ _ _ _ _ Hs) as Hnode.
  pose proof Hnd as (Hn1 & Hdis & [Hnl2 Hn2]%NoDup_cons)%NoDup_app.
  assert (Hhead : (if head l =? node then hd_or NULL l2 else head l) = hd_or NULL (l1 ++ l2)).
  { rewrite (dll_head _ _ _ Hd), !hd_or_app. destruct l1 as [|x l1]; unfold hd_or; simpl.
    - by rewrite Z.eqb_refl.
    - rewrite (proj2 (Z.eqb_neq _ _)); [done|]. intros ->. set_solver. }
  assert (Htail : (if tail l =? node then last_or NULL l1 else tail l) = last_or NULL (l1 ++ l2)).
  { rewrite (dll_tail _ _ _ Hd), !last_or_app, last_or_cons. destruct l2 as [|y l2].
    - unfold last_or at 1; simpl. by rewrite Z.eqb_refl.
    - rewrite !last_or_cons. rewrite (proj2 (Z.eqb_neq _ _)); [done|]. intros E. apply Hnl2.
      rewrite <- E. unfold last_or. destruct (last l2) eqn:El; simpl; [|set_solver].
      apply last_Some in El as [? ->]. set_solver. }
  assert (Hres : forall h2, h2 !! node = h !! node -> h2 = unlink_heap h l1 l2 ->
    (n ← deref (h2 !! node);
     Ok (MkList (u64 (length_ l - 1)) (if head l =? node then next n else head l)
                (if tail l =? node then prev n else tail l), h2)) =
    Ok (MkList (u64 (length_ l - 1)) (hd_or NULL (l1 ++ l2)) (last_or NULL (l1 ++ l2)),
        unlink_heap h l1 l2)).
  { intros h2 E2 ->. rewrite E2, Hnode. simpl. by rewrite Hhead, Htail. }
  unfold list_remove. rewrite (proj2 (Z.eqb_neq node NULL)) by set_solver.
  simpl. rewrite Hnode. simpl.
  destruct (last l1) as [x|] eqn:Hl.
  - pose proof Hl as [l1' ->]%last_Some. rewrite last_or_snoc.
    rewrite (proj2 (Z.eqb_neq x NULL)) by set_solver. simpl.
    rewrite (set_next_Ok _ _ _ _ (node_prev _ _ _ _ _ Hs)). simpl.
    rewrite lookup_insert_ne, Hnode by set_solver. simpl. destruct l2 as [|y l2]; simpl.
    + apply Hres; [rewrite lookup_insert_ne; set_solver|]. unfold unlink_heap.
      by rewrite Hl, length_app, take_app_le, take_ge by (simpl; lia).
    + unfold hd_or; simpl. rewrite (proj2 (Z.eqb_neq y NULL)) by set_solver. simpl.
      rewrite (set_prev_Ok _ _ _ (LNode node (hd_or NULL l2))).
      2:{ rewrite lookup_insert_ne by set_solver. by eapply node_next. }
      simpl. apply Hres; [rewrite !lookup_insert_ne; set_solver|]. unfold unlink_heap.
      by rewrite Hl, length_app, take_app_le, take_ge by (simpl; lia).
  - apply last_None in Hl as ->. simpl. rewrite Hnode; simpl. destruct l2 as [|y l2]; simpl.
    + by apply Hres.
    + unfold hd_or; simpl. rewrite (proj2 (Z.eqb_neq y NULL)) by set_solver. simpl.
      rewrite (set_prev_Ok _ _ _ _ (node_next _ [] _ _ _ Hs)).
      simpl. apply Hres; [rewrite !lookup_insert_ne; set_solver|done].
Qed.

Lemma foreach_seg h ys pv fuel :
  seg h pv ys NULL -> NULL ∉ ys -> (length ys <= fuel)%nat ->
  foreach_from fuel h (hd_or NULL ys) = Ok ys.
Proof.
  revert pv fuel. induction ys as [|y ys IH]; intros pv fuel Hs Hnn Hf.
  { by destruct fuel. }
  destruct fuel as [|fuel]; [simpl in Hf; lia|]. destruct Hs as [Hy Hs].
  unfold hd_or; simpl. rewrite (proj2 (Z.eqb_neq y NULL)) by set_solver.
  rewrite Hy. simpl. rewrite (IH y); [done|done|set_solver|simpl in Hf; lia].
Qed.

Section Refinement.
Variables (h : nodes) (l : list_t) (xs : list Z).
Hypothesis Hdll : dll h l xs.

(** What a client needs of a node it links in: allocated, not yet linked
    here, and the counter does not wrap. *)
Definition linkable (new : Z) : Prop :=
  new ∉ xs /\ new <> NULL /\ is_Some (h !! new) /\ Z.of_nat (length xs) + 1 < 2 ^ 64.

Lemma insert_after_split l1 pos l2 new :
  xs = l1 ++ pos :: l2 -> linkable new ->
  exists l' h', list_insert_after l h pos new = Ok (l', h') /\
    dll h' l' (l1 ++ pos :: new :: l2) /\ frame (new :: xs) h h'.
Proof using Hdll.
  intros E (Hnew & Hnz & Hs & Hb). pose proof Hdll as Hd. rewrite E in Hd, Hnew, Hb |- *.
  do 2 eexists. split_and!.
  - by apply list_insert_after_link.
  - replace (l1 ++ pos :: new :: l2) with ((l1 ++ [pos]) ++ new :: l2) by by rewrite <- app_assoc.
    apply link_dll; rewrite <- ?app_assoc; done.
  - intros p Hp. apply link_heap_frame. set_solver.
Qed.

Lemma insert_before_split l1 pos l2 new :
  xs = l1 ++ pos :: l2 -> linkable new ->
  exists l' h', list_insert_before l h pos new = Ok (l', h') /\
    dll h' l' (l1 ++ new :: pos :: l2) /\ frame (new :: xs) h h'.
Proof using Hdll.
  intros E (Hnew & Hnz & Hs & Hb). pose proof Hdll as Hd. rewrite E in Hd, Hnew, Hb |- *.
  do 2 eexists. split_and!.
  - by apply list_insert_before_link.
  - by apply link_dll.
  - intros p Hp. apply link_heap_frame. set_solver.
Qed.

Lemma append_step new : linkable new ->
  exists l' h', list_append l h new = Ok (l', h') /\
    dll h' l' (xs ++ [new]) /\ frame (new :: xs) h h'.
Proof using Hdll.
  intros Hl. unfold list_append. rewrite (dll_tail _ _ _ Hdll).
  destruct (last xs) as [x|] eqn:E.
  - pose proof E as [l1 E']%last_Some. unfold last_or. rewrite E. simpl.
    destruct (insert_after_split l1 x [] new E' Hl) as (l' & h' & ? & ? & ?).
    exists l', h'. rewrite E', <- app_assoc. rewrite <- E'. done.
  - apply last_None in E. destruct Hl as (_ & Hnz & Hs & _).
    pose proof Hdll as Hd. rewrite E in Hd |- *.
    destruct (insert_into_empty h l new Hd Hnz Hs) as (l' & h' & ? & _ & ? & ?). eauto.
Qed.

Lemma prepend_step new : linkable new ->
  exists l' h', list_prepend l h new = Ok (l', h') /\
    dll h' l' (new :: xs) /\ frame (new :: xs) h h'.
Proof using Hdll.
  intros Hl. unfold list_prepend. rewrite (dll_head _ _ _ Hdll).
  assert (xs = [] \/ exists x ys, xs = x :: ys) as [E|(x & ys & E)] by (destruct xs; eauto).
  - pose proof Hdll as Hd. destruct Hl as (_ & Hnz & Hs & _). rewrite E in Hd |- *.
    destruct (insert_into_empty h l new Hd Hnz Hs) as (l' & h' & _ & ? & ? & ?). eauto.
  - destruct (insert_before_split [] x ys new E Hl) as (l' & h' & ? & ? & ?).
    exists l', h'. rewrite E in *. done.
Qed.

Lemma remove_split l1 node l2 :
  xs = l1 ++ node :: l2 ->
  exists l' h', list_remove l h node = Ok (l', h') /\
    dll h' l' (l1 ++ l2) /\ frame (l1 ++ l2) h h'.
Proof using Hdll.
  intros E. pose proof Hdll as Hd. rewrite E in Hd. do 2 eexists. split_and!; [by apply list_remove_unlink| |].
  - destruct Hd as [Hs Hnd Hnn Hh Ht Hlen Hb]. rewrite length_app in *; simpl in *.
    split; simpl; try done.
    + by eapply unlink_heap_seg.
    + apply NoDup_app in Hnd as (?&?&[??]%NoDup_cons). apply NoDup_app. set_solver.
    + set_solver.
    + rewrite Hlen, u64_small; rewrite ?length_app; lia.
    + rewrite length_app; lia.
  - apply unlink_heap_frame.
Qed.


End Refinement.

(** Inserting refines the sequence: [list_append] and [list_prepend] put
    the node at the end and at the front, [list_insert_after] and
    [list_insert_before] put it next to the given node of the list; the result
    is again a well-formed list (head, tail, length, both link directions) and
    no node outside the list and the new node changes. *)
Theorem list_insert_refines h l xs new :
  dll h l xs -> linkable h xs new ->
  (exists l' h', list_append l h new = Ok (l', h') /\
     dll h' l' (xs ++ [new]) /\ frame (new :: xs) h h') /\
  (exists l' h', list_prepend l h new = Ok (l', h') /\
     dll h' l' (new :: xs) /\ frame (new :: xs) h h') /\
  (forall l1 pos l2, xs = l1 ++ pos :: l2 ->
     (exists l' h', list_insert_after l h pos new = Ok (l', h') /\
        dll h' l' (l1 ++ pos :: new :: l2) /\ frame (new :: xs) h h') /\
     (exists l' h', list_insert_before l h pos new = Ok (l', h') /\
        dll h' l' (l1 ++ new :: pos :: l2) /\ frame (new :: xs) h h')).
Proof.
  intros Hd Hl. split_and!; [by apply append_step|by apply prepend_step|].
  intros l1 pos l2 E. split; [by eapply insert_after_split|by eapply insert_before_split].
Qed.

(** Removing refines the sequence: [list_remove] of a node of the list
    takes out exactly that node, [list_pop_head] and [list_pop_tail] return
    and remove the first and last node and return NULL, changing nothing, on
    an empty list. *)
Theorem list_remove_refines h l xs :
  dll h l xs ->
  (forall l1 node l2, xs = l1 ++ node :: l2 ->
     exists l' h', list_remove l h node = Ok (l', h') /\
       dll h' l' (l1 ++ l2) /\ frame (l1 ++ l2) h h') /\
  match xs with
  | [] => list_pop_head l h = Ok (NULL, l, h)
  | x :: ys => exists l' h', list_pop_head l h = Ok (x, l', h') /\ dll h' l' ys /\ frame ys h h'
  end /\
  match last xs with
  | None => list_pop_tail l h = Ok (NULL, l, h)
  | Some x => exists l' h' ys, xs = ys ++ [x] /\
      list_pop_tail l h = Ok (x, l', h') /\ dll h' l' ys /\ frame ys h h'
  end.
Proof.
  intros Hd. split_and!.
  - intros. by eapply remove_split.
  - unfold list_pop_head. rewrite (dll_head _ _ _ Hd). destruct xs as [|x ys]; [done|].
    destruct (remove_split _ _ _ Hd [] x ys eq_refl) as (l' & h' & E & ? & ?).
    unfold hd_or; simpl. pose proof (dll_nonnull _ _ _ Hd).
    rewrite (proj2 (Z.eqb_neq x NULL)) by set_solver. simpl. rewrite E. eauto.
  - unfold list_pop_tail. rewrite (dll_tail _ _ _ Hd). unfold last_or.
    destruct (last xs) as [x|] eqn:El; [|done].
    apply last_Some in El as [ys ->]. simpl.
    destruct (remove_split _ _ _ Hd ys x [] eq_refl) as (l' & h' & E & Hd' & Hf).
    pose proof (dll_nonnull _ _ _ Hd). rewrite (proj2 (Z.eqb_neq x NULL)) by set_solver.
    simpl. rewrite E. rewrite app_nil_r in Hd', Hf. exists l', h', ys. done.
Qed.

(** C40: the [FOREACH] macro terminates on every well-formed list and visits
    its nodes in order, each once. *)
Theorem FOREACH_visits h l xs fuel :
  dll h l xs -> (length xs <= fuel)%nat -> FOREACH fuel h l = Ok xs.
Proof.
  intros Hd Hf. unfold FOREACH. rewrite (dll_head _ _ _ Hd).
  eapply foreach_seg; [apply Hd|apply Hd|done].
Qed.

(** A list of two nodes in a store that also holds a third, used as the
    concrete instance. *)
Definition ex_nodes : nodes :=
  {[ 16 := LNode NULL 32; 32 := LNode 16 NULL; 48 := LNode NULL NULL ]}.
Definition ex_list : list_t := MkList 2 16 32.

Lemma ex_dll : dll ex_nodes ex_list [16; 32].
Proof.
  split; try done; [repeat constructor; set_solver|set_solver].
Qed.

Lemma list_insert_refines_witness :
  exists l' h', list_append ex_list ex_nodes 48 = Ok (l', h') /\ dll h' l' [16; 32; 48].
Proof.
  destruct (list_insert_refines ex_nodes ex_list [16; 32] 48 ex_dll) as ((l' & h' & H & D & _) & _).
  - split_and!; [set_solver|done|by eexists|done].
  - by exists l', h'.
Defined.

Lemma list_remove_refines_witness :
  exists l' h', list_pop_head ex_list ex_nodes = Ok (16, l', h') /\ dll h' l' [32].
Proof.
  destruct (list_remove_refines ex_nodes ex_list [16; 32] ex_dll) as (_ & (l' & h' & H & D & _) & _).
  by exists l', h'.
Defined.

Lemma FOREACH_visits_witness : FOREACH 5 ex_nodes ex_list = Ok [16; 32].
Proof. apply (FOREACH_visits ex_nodes ex_list [16; 32] 5 ex_dll). simpl. lia. Defined.

(** ** Sequence-level view used by the clients

    By the theorems above, a [list_t] whose links are only changed through
    list.c stands for a sequence of nodes.  The components that keep such
    lists (buddy levels, slabs, segments, run queue, ...) are modelled on the
    sequences, a node being named by its container; removing a node that is
    not linked here is the undefined outcome. *)

Fixpoint seq_remove {A} `{EqDecision A} (x : A) (xs : list A) : outcome (list A) :=
  match xs with
  | [] => Fault
  | y :: ys => if decide (x = y) then Ok ys else zs ← seq_remove x ys; Ok (y :: zs)
  end.

Lemma seq_remove_split {A} `{EqDecision A} (x : A) l1 l2 :
  x ∉ l1 -> seq_remove x (l1 ++ x :: l2) = Ok (l1 ++ l2).
Proof.
  induction l1 as [|y l1 IH]; intros Hx; simpl; [by rewrite decide_True|].
  rewrite decide_False by set_solver. by rewrite IH by set_solver.
Qed.

Lemma seq_remove_in {A} `{EqDecision A} (x : A) xs :
  x ∈ xs -> NoDup xs ->
  exists ys, seq_remove x xs = Ok ys /\ NoDup ys /\ (forall y, y ∈ ys <-> y ∈ xs /\ y <> x).
Proof.
  intros (l1 & l2 & -> & Hx)%list_elem_of_split_l Hnd. exists (l1 ++ l2).
  rewrite seq_remove_split by done. apply NoDup_app in Hnd as (?&?&[??]%NoDup_cons).
  split_and!; [done|apply NoDup_app; set_solver|]. set_solver.
Qed.

(** Link operations on sequences are what the pointer operations refine to. *)
Lemma list_remove_seq h l xs node :
  dll h l xs -> node ∈ xs ->
  exists l' h' ys, list_remove l h node = Ok (l', h') /\ seq_remove node xs = Ok ys /\ dll h' l' ys.
Proof.
  intros Hd (l1 & l2 & E & Hx)%list_elem_of_split_l.
  destruct (remove_split _ _ _ Hd l1 node l2 E) as (l' & h' & ? & ? & _).
  exists l', h', (l1 ++ l2). split_and!; [done| |done]. rewrite E. by apply seq_remove_split.
Qed.
