(* ===== verification/Interfaces.v ===== *)
(** * Interfaces between components

    What one component promises to its clients, as type classes: the clients'
    theorems are proved for every implementation of the class, and the file of
    the implementing component discharges the laws. *)
From stdpp Require Import base gmap list fin_maps.
From Stdlib Require Import ZArith Lia.
From S2P Require Import Prelude.

(** ** Single physical pages

    The slab allocator, the page tables and the address spaces only ask the
    physical memory manager for one page at a time: [pmm_alloc(0)] and
    [pmm_free].  [pa_state s G]: [s] is well formed and [G] are addresses of
    pages handed out and not given back. *)
Class PageAllocator (S : Type) := {
  page_alloc : S -> outcome (Z * S);
  page_release : Z -> S -> outcome S;
  pa_state : S -> gset Z -> Prop;
  page_alloc_spec : forall s G, pa_state s G ->
    page_alloc s = Panic \/
    exists a s', page_alloc s = Ok (a, s') /\ pa_state s' ({[a]} ∪ G) /\ a ∉ G /\
      0 <= a /\ a + ARCH_PAGE_GRAN <= 2 ^ 46 /\ (ARCH_PAGE_GRAN | a);
  page_release_spec : forall s G a, pa_state s G -> a ∈ G ->
    exists s', page_release a s = Ok s' /\ pa_state s' (G ∖ {[a]});
  pa_weaken : forall s G G', pa_state s G -> G' ⊆ G -> pa_state s G'
}.

(** A page allocator that never reuses a page and remembers what was given
    back, to run clients on concrete inputs. *)
Record bump := Bump { next_page : Z; released : list Z }.

#[export, program] Instance bump_pages : PageAllocator bump := {|
  page_alloc s := if next_page s * ARCH_PAGE_GRAN + ARCH_PAGE_GRAN <=? 2 ^ 46
                  then Ok (next_page s * ARCH_PAGE_GRAN, Bump (next_page s + 1) (released s)) else Panic;
  page_release a s := Ok (Bump (next_page s) (a :: released s));
  pa_state s G := 0 <= next_page s /\ forall a, a ∈ G -> a + ARCH_PAGE_GRAN <= next_page s * ARCH_PAGE_GRAN
|}.
Next Obligation.
  intros [n r] G [Hn HG]. simpl in *. destruct (Z.leb_spec (n * ARCH_PAGE_GRAN + ARCH_PAGE_GRAN) (2 ^ 46)); [right|by left].
  exists (n * ARCH_PAGE_GRAN), (Bump (n + 1) r). unfold ARCH_PAGE_GRAN in *. simpl. split; [done|]. split.
  { split; [lia|]. intros a [->%elem_of_singleton|Ha%HG]%elem_of_union; lia. }
  split; [intros Ha%HG; lia|]. split; [lia|]. split; [lia|]. by exists n.
Qed.
Next Obligation.
  intros s G a [Hn HG] Ha. eexists. split; [done|]. split; [done|]. intros b Hb. apply HG. set_solver.
Qed.
Next Obligation. intros s G G' [Hn HG] Hsub. split; [done|]. intros a Ha. apply HG. set_solver. Qed.

(** ** Address translation

    What the virtual memory manager asks of the page tables: pages for data,
    mappings of single pages, translation, new address spaces.  [pm_state m R D]:
    [R] are the live address spaces and [D] the live pages that hold data.  The
    laws speak of canonical addresses, those a processor translates; an address
    of the lower half belongs to one address space only. *)
Definition canonical (v : Z) : Prop := 0 <= v < 2 ^ 47 \/ 2 ^ 64 - 2 ^ 47 <= v < 2 ^ 64.
Definition user_half (v : Z) : Prop := 0 <= v < 2 ^ 47.
Definition same_page (v w : Z) : Prop := v / ARCH_PAGE_GRAN = w / ARCH_PAGE_GRAN.

#[export] Instance same_page_dec v w : Decision (same_page v w).
Proof. unfold same_page. apply _. Defined.

Definition phys_page (a : Z) : Prop := 0 <= a /\ a + ARCH_PAGE_GRAN <= 2 ^ 46 /\ (ARCH_PAGE_GRAN | a).

Class PageMap (M : Type) := {
  pm_alloc : M -> outcome (Z * M);
  pm_map : Z -> Z -> Z -> Z -> M -> outcome M;
  pm_virt_to_phys : Z -> Z -> M -> outcome Z;
  pm_new : M -> outcome (Z * M);
  pm_state : M -> gset Z -> gset Z -> Prop;
  pm_alloc_spec : forall m R D, pm_state m R D ->
    pm_alloc m = Panic \/
    exists a m', pm_alloc m = Ok (a, m') /\ pm_state m' R ({[a]} ∪ D) /\ a ∉ D /\ phys_page a /\
      forall r v, r ∈ R -> pm_virt_to_phys r v m' = pm_virt_to_phys r v m;
  pm_map_spec : forall m R D root virt phys, pm_state m R D -> root ∈ R ->
    canonical virt -> (ARCH_PAGE_GRAN | virt) -> phys_page phys ->
    pm_map root virt phys ARCH_PAGE_GRAN m = Panic \/
    exists m', pm_map root virt phys ARCH_PAGE_GRAN m = Ok m' /\ pm_state m' R D /\
      (forall v, canonical v -> same_page v virt ->
         pm_virt_to_phys root v m' = Ok (phys + v mod ARCH_PAGE_GRAN)) /\
      (forall v, canonical v -> ~ same_page v virt ->
         pm_virt_to_phys root v m' = pm_virt_to_phys root v m) /\
      (forall r v, r ∈ R -> r <> root -> user_half v ->
         pm_virt_to_phys r v m' = pm_virt_to_phys r v m);
  pm_new_spec : forall m R D, pm_state m R D ->
    pm_new m = Panic \/
    exists r m', pm_new m = Ok (r, m') /\ pm_state m' ({[r]} ∪ R) D /\ r ∉ R /\
      (forall r' v, r' ∈ R -> pm_virt_to_phys r' v m' = pm_virt_to_phys r' v m) /\
      (forall v, user_half v -> pm_virt_to_phys r v m' = Ok BAD_ADDRESS);
  pm_virt_to_phys_total : forall m R D r v, pm_state m R D -> r ∈ R ->
    exists p, pm_virt_to_phys r v m = Ok p;
  pm_same_page : forall m R D r v w p, pm_state m R D -> r ∈ R -> canonical v -> canonical w -> same_page v w ->
    pm_virt_to_phys r v m = Ok p ->
    pm_virt_to_phys r w m =
      Ok (if p =? BAD_ADDRESS then BAD_ADDRESS else p - v mod ARCH_PAGE_GRAN + w mod ARCH_PAGE_GRAN)
}.

(** ** Heap objects

    [oa_state k U]: the objects [U] are in use. *)
Class ObjectAllocator (K : Type) := {
  obj_alloc : Z -> K -> outcome (Z * K);
  obj_free : Z -> K -> outcome K;
  oa_state : K -> gset Z -> Prop;
  obj_alloc_spec : forall k U size, oa_state k U -> 0 <= size <= 1024 ->
    obj_alloc size k = Panic \/
    exists o k', obj_alloc size k = Ok (o, k') /\ oa_state k' ({[o]} ∪ U) /\ o ∉ U /\ 0 < o < 2 ^ 64;
  obj_free_spec : forall k U o, oa_state k U -> o ∈ U ->
    exists k', obj_free o k = Ok k' /\ oa_state k' (U ∖ {[o]})
}.

(** Objects numbered upwards, to run clients on concrete inputs. *)
Record fresh := Fresh { next_obj : Z; freed : list Z }.

#[export, program] Instance fresh_objects : ObjectAllocator fresh := {|
  obj_alloc size k := if (0 <? next_obj k) && (next_obj k <? 2 ^ 64)
                      then Ok (next_obj k, Fresh (next_obj k + 1024) (freed k)) else Panic;
  obj_free o k := Ok (Fresh (next_obj k) (o :: freed k));
  oa_state k U := forall o, o ∈ U -> o < next_obj k
|}.
Next Obligation.
  intros [n f] U size HU Hs. simpl in *. destruct (Z.ltb_spec 0 n), (Z.ltb_spec n (2 ^ 64)); simpl; try by left.
  right. exists n, (Fresh (n + 1024) f). split; [done|]. split; [|split; [intros Hn%HU; lia|lia]].
  intros o [->%elem_of_singleton|Ho%HU]%elem_of_union; simpl; lia.
Qed.
Next Obligation. intros k U o HU Ho. eexists. split; [done|]. intros x Hx. apply HU. set_solver. Qed.

(** ** Files

    What the virtual memory manager asks of the file system for a mapped file:
    the bytes [vfs_read] stores into its buffer, the pages of the file that are
    cached already, and the count of references. *)
Class Files (V : Type) := {
  f_read : Z -> Z -> Z -> V -> outcome (list Z * V);
  f_find_page : Z -> Z -> V -> outcome (option Z);
  f_insert_page : Z -> Z -> Z -> V -> outcome V;
  f_release : Z -> V -> outcome V;
  f_read_length : forall vn off count v bs v', 0 <= count ->
    f_read vn off count v = Ok (bs, v') -> Z.of_nat (length bs) <= count
}.

(** Files with fixed contents. *)
Record rofiles := RoFiles { contents : gmap Z (list Z); page_cache : gmap (Z * Z) Z }.

#[export, program] Instance rofiles_files : Files rofiles := {|
  f_read vn off count v :=
    bs ← deref (contents v !! vn); Ok (take (Z.to_nat count) (drop (Z.to_nat off) bs), v);
  f_find_page vn off v := Ok (page_cache v !! (vn, off));
  f_insert_page vn off p v := Ok (RoFiles (contents v) (<[(vn, off) := p]> (page_cache v)));
  f_release vn v := Ok v
|}.
Next Obligation.
  intros vn off count v bs v' Hc E. apply bind_Ok in E as (l & _ & E). injection E as <- _.
  rewrite length_take. lia.
Qed.

(** ** Blocks of pages

    The program loader borrows a block of [2^order] pages and gives it back
    before anything else is allocated: [pmm_alloc(order)] and [pmm_free].  The
    block has no page in common with the live ones. *)
Definition MAX_BLOCK_ORDER : Z := 10.
Definition block_size (order : Z) : Z := 2 ^ order * ARCH_PAGE_GRAN.
Definition block_at (a order : Z) : Prop := 0 <= a /\ a + block_size order <= 2 ^ 46 /\ (ARCH_PAGE_GRAN | a).
Definition block_apart (a order : Z) (G : gset Z) : Prop := forall g, g ∈ G -> g + ARCH_PAGE_GRAN <= a \/ a + block_size order <= g.

Class PageBlocks (S : Type) `{PageAllocator S} := {
  pb_alloc : Z -> S -> outcome (Z * S);
  pb_release : Z -> S -> outcome S;
  pb_spec : forall s G order, pa_state s G -> 0 <= order <= MAX_BLOCK_ORDER ->
    pb_alloc order s = Panic \/
    exists a s' s'', pb_alloc order s = Ok (a, s') /\ pa_state s' G /\ pb_release a s' = Ok s'' /\ pa_state s'' G /\
      block_at a order /\ block_apart a order G
}.

Class BlockMap (M : Type) `{PageMap M} := {
  bm_alloc : Z -> M -> outcome (Z * M);
  bm_release : Z -> M -> outcome M;
  bm_spec : forall m R D order, pm_state m R D -> 0 <= order <= MAX_BLOCK_ORDER ->
    bm_alloc order m = Panic \/
    exists a m' m'', bm_alloc order m = Ok (a, m') /\ pm_state m' R D /\ bm_release a m' = Ok m'' /\ pm_state m'' R D /\
      (forall r v, r ∈ R -> pm_virt_to_phys r v m' = pm_virt_to_phys r v m /\ pm_virt_to_phys r v m'' = pm_virt_to_phys r v m) /\
      block_at a order /\ block_apart a order D
}.

#[export, program] Instance bump_blocks : PageBlocks bump := {|
  pb_alloc order s := if next_page s * ARCH_PAGE_GRAN + block_size order <=? 2 ^ 46
                      then Ok (next_page s * ARCH_PAGE_GRAN, Bump (next_page s + 2 ^ order) (released s)) else Panic;
  pb_release a s := Ok (Bump (next_page s) (a :: released s))
|}.
Next Obligation.
  intros [n r] G order [Hn HG] Ho. simpl in *. destruct (Z.leb_spec (n * ARCH_PAGE_GRAN + block_size order) (2 ^ 46)); [right|by left].
  pose proof (pow2_pos order ltac:(lia)). eexists _, _, _. split; [reflexivity|]. simpl.
  assert (forall a, a ∈ G -> a + ARCH_PAGE_GRAN <= (n + 2 ^ order) * ARCH_PAGE_GRAN).
  { intros a Ha%HG. etrans; [exact Ha|]. apply Z.mul_le_mono_nonneg_r; [done|lia]. }
  split; [split; [lia|done]|]. split; [reflexivity|]. split; [split; [simpl; lia|done]|].
  split; [split; [unfold ARCH_PAGE_GRAN; lia|split; [done|by exists n]]|]. intros g Hg. left. by apply HG.
Qed.
