(* ===== verification/Pmm.v ===== *)
(** * Physical memory manager (kernel/src/mm/pmm.c, pmm.h)

    The buddy allocator: an array of block descriptors indexed by page number,
    and one list of free blocks per order.  A descriptor is named by its index
    in [blocks]; [levels] maps an order to the sequence of the blocks on that
    free list.  The descriptors of pages in the middle of a block keep stale
    contents, as in the code, so the invariant is stated against a tiling of
    the page range by blocks and says that only the first descriptor of a tile
    is meaningful. *)
From stdpp Require Import base gmap list fin_maps sorting.
From Stdlib Require Import ZArith Lia.
From S2P Require Import Prelude Lists Interfaces.

Definition PMM_MAX_ORDER : Z := 10.

Record pmm_block_t := PBlock { addr : Z; order : Z; free : bool }.

(** The static variables of pmm.c.  [blocks_ptr] is the pointer [blocks];
    [blocks] the array it points to. *)
Record pmm := MkPmm {
  blocks_ptr : Z;
  blocks : gmap Z pmm_block_t;
  block_count : Z;
  levels : gmap Z (list Z)
}.

Definition set_blocks (st : pmm) (bs : gmap Z pmm_block_t) : pmm :=
  MkPmm (blocks_ptr st) bs (block_count st) (levels st).
Definition set_levels (st : pmm) (ls : gmap Z (list Z)) : pmm :=
  MkPmm (blocks_ptr st) (blocks st) (block_count st) ls.

(** [blocks[idx].order = o; blocks[idx].free = f] *)
Definition write_block (st : pmm) (idx o : Z) (f : bool) : outcome pmm :=
  b ← deref (blocks st !! idx);
  Ok (set_blocks st (<[idx := PBlock (addr b) o f]> (blocks st))).

(** [list_append(&levels[o], &blocks[idx].list_elem)] *)
Definition level_append (st : pmm) (o idx : Z) : outcome pmm :=
  xs ← deref (levels st !! o);
  Ok (set_levels st (<[o := xs ++ [idx]]> (levels st))).

(** [list_remove(&levels[o], &blocks[idx].list_elem)] *)
Definition level_remove (st : pmm) (o idx : Z) : outcome pmm :=
  xs ← deref (levels st !! o);
  ys ← seq_remove idx xs;
  Ok (set_levels st (<[o := ys]> (levels st))).

Definition pmm_pagecount_to_order (pages : Z) : outcome Z :=
  if pages =? 1 then Ok 0
  else c ← clzll (u64 (pages - 1)); Ok (u8 (64 - c)).

Definition pmm_order_to_pagecount (order : Z) : Z := u64 (Z.shiftl 1 order).

(** The loop [while (list_is_empty(&levels[i]))] of [pmm_alloc]. *)
Fixpoint find_level (fuel : nat) (st : pmm) (i : Z) : outcome Z :=
  match fuel with
  | O => NoFuel
  | S fuel =>
      xs ← deref (levels st !! i);
      if bool_decide (xs = []) then
        let i := i + 1 in
        if i >? PMM_MAX_ORDER then Panic else find_level fuel st i
      else Ok i
  end.

(** The loop [for (; i > order; i--)], run [n] = i - order times. *)
Fixpoint split_down (n : nat) (st : pmm) (block i : Z) : outcome pmm :=
  match n with
  | O => Ok st
  | S n =>
      b ← deref (blocks st !! block);
      let r_idx := Z.lxor (addr b / ARCH_PAGE_GRAN) (pmm_order_to_pagecount (i - 1)) in
      st ← write_block st r_idx (i - 1) true;
      st ← level_append st (i - 1) r_idx;
      split_down n st block (i - 1)
  end.

Definition pmm_alloc (order : Z) (st : pmm) : outcome (Z * pmm) :=
  ASSERT (order <=? PMM_MAX_ORDER);;
  i ← find_level 12 st order;
  xs ← deref (levels st !! i);
  block ← deref (list.head xs);
  st ← level_remove st i block;
  st ← split_down (Z.to_nat (i - order)) st block i;
  st ← write_block st block order false;
  b ← deref (blocks st !! block);
  Ok (addr b, st).

(** The loop [while (i < PMM_MAX_ORDER)] of [pmm_free], run at most [n] =
    PMM_MAX_ORDER - i times.  Returns the block to put on a free list, and
    its order. *)
Fixpoint merge_up (n : nat) (st : pmm) (idx i : Z) : outcome (Z * Z * pmm) :=
  match n with
  | O => Ok (idx, i, st)
  | S n =>
      let b_idx := Z.lxor idx (pmm_order_to_pagecount i) in
      if b_idx >=? block_count st then Ok (idx, i, st)
      else
        buddy ← deref (blocks st !! b_idx);
        if free buddy && (order buddy =? i) then
          st ← level_remove st (order buddy) b_idx;
          merge_up n st (if idx <? b_idx then idx else b_idx) (i + 1)
        else Ok (idx, i, st)
  end.

Section WithHHDM.
Variable HHDM : Z.

Definition pmm_free (a : Z) (st : pmm) : outcome pmm :=
  ASSERT (a <? HHDM);;
  let idx := a / ARCH_PAGE_GRAN in
  block ← deref (blocks st !! idx);
  let i := order block in
  ASSERT (negb (free block));;
  '(idx, i, st) ← merge_up (Z.to_nat (PMM_MAX_ORDER - i)) st idx i;
  st ← write_block st idx i true;
  level_append st i idx.

(** limine.h: an entry of the bootloader's memory map. *)
Record memmap_entry := Entry { base : Z; mlength : Z; usable : bool }.

Definition sizeof_pmm_block : Z := 32.

Definition last_usable_entry (es : list memmap_entry) : option memmap_entry :=
  last (filter (fun e => usable e = true) es).

Definition blocks_entry (count : Z) (es : list memmap_entry) : option memmap_entry :=
  list.head (filter (fun e => usable e = true /\ u64 (count * sizeof_pmm_block) <= mlength e) es).

(** The initial contents of the array. *)
Definition init_blocks (count : Z) : gmap Z pmm_block_t :=
  list_to_map ((fun i => (i, PBlock (u64 (ARCH_PAGE_GRAN * i)) 0 false)) <$> seqZ 0 count).

(** The greedy loop [while (addr != e->base + e->length)]. *)
Fixpoint carve (fuel : nat) (st : pmm) (addr e_end order : Z) : outcome pmm :=
  if addr =? e_end then Ok st else
  match fuel with
  | O => NoFuel
  | S fuel =>
      if 64 <=? order then Fault else
      let span := u64 (pmm_order_to_pagecount order * ARCH_PAGE_GRAN) in
      if (u64 (addr + span) >? e_end) || negb (addr mod span =? 0)
      then carve fuel st addr e_end (u8 (order - 1))
      else
        let idx := addr / ARCH_PAGE_GRAN in
        st ← write_block st idx order true;
        st ← level_append st order idx;
        carve fuel st (u64 (addr + span)) e_end PMM_MAX_ORDER
  end.

(** Iterations that suffice for an entry: each page costs at most one visit
    per order. *)
Definition carve_fuel (e : memmap_entry) : nat :=
  Z.to_nat (11 * (mlength e / ARCH_PAGE_GRAN) + 11).

Definition init_entry (st : pmm) (e : memmap_entry) : outcome pmm :=
  if negb (usable e) then Ok st else
  let a := if base e =? u64 (blocks_ptr st - HHDM)
           then u64 (base e + u64 (u64 (block_count st * sizeof_pmm_block) + (ARCH_PAGE_GRAN - 1))
                     / ARCH_PAGE_GRAN * ARCH_PAGE_GRAN)
           else base e in
  carve (carve_fuel e) st a (u64 (base e + mlength e)) PMM_MAX_ORDER.

Fixpoint init_entries (st : pmm) (es : list memmap_entry) : outcome pmm :=
  match es with
  | [] => Ok st
  | e :: es => st ← init_entry st e; init_entries st es
  end.

Definition empty_levels : gmap Z (list Z) :=
  list_to_map ((fun i => (i, [])) <$> seqZ 0 (PMM_MAX_ORDER + 1)).

Definition pmm_init (es : list memmap_entry) : outcome pmm :=
  last_e ← deref (last_usable_entry es);
  let count := u64 (base last_e + mlength last_e) / ARCH_PAGE_GRAN in
  let ptr := match blocks_entry count es with
             | Some e => u64 (base e + HHDM)
             | None => NULL
             end in
  ASSERT (negb (ptr =? NULL));;
  init_entries (MkPmm ptr (init_blocks count) count empty_levels) es.

End WithHHDM.

(** A 4 MiB machine: page 0 reserved, the block array at page 1. *)
Definition ex_memmap : list memmap_entry :=
  [Entry 0 0x1000 false; Entry 0x1000 0x3ff000 true].

(** ** The tiling invariant *)

(** A tiling gives the blocks: where one starts, its order, whether free. *)
Definition tiling : Type := Z -> option (Z * bool).

Definition tset (T : tiling) (i : Z) (v : option (Z * bool)) : tiling :=
  fun j => if j =? i then v else T j.

(** Aligned blocks of legal order that partition the pages [0, n). *)
Record tiling_ok (n : Z) (T : tiling) : Prop := {
  tile_wf : forall i o f, T i = Some (o, f) ->
    0 <= i /\ 0 <= o <= PMM_MAX_ORDER /\ (2 ^ o | i) /\ i + 2 ^ o <= n;
  tile_cover : forall p, 0 <= p < n -> exists i o f, T i = Some (o, f) /\ i <= p < i + 2 ^ o;
  tile_disj : forall i j o o' f f', T i = Some (o, f) -> T j = Some (o', f') ->
    i < j -> i + 2 ^ o <= j
}.

(** List [o] holds exactly the free blocks of order [o]. *)
Definition levels_ok (ls : gmap Z (list Z)) (T : tiling) : Prop :=
  forall o, 0 <= o <= PMM_MAX_ORDER ->
    exists xs, ls !! o = Some xs /\ NoDup xs /\ (forall i, i ∈ xs <-> T i = Some (o, true)).

(** The state agrees with the tiling.  [hand] is the block a running operation
    has taken off the lists and whose descriptor it has not rewritten yet. *)
Record pmm_inv (st : pmm) (T : tiling) (hand : option Z) : Prop := {
  inv_tiles : tiling_ok (block_count st) T;
  inv_dom : forall i, is_Some (blocks st !! i) <-> 0 <= i < block_count st;
  inv_addr : forall i b, blocks st !! i = Some b -> addr b = i * ARCH_PAGE_GRAN;
  inv_meta : forall i o f, T i = Some (o, f) -> hand <> Some i ->
    exists b, blocks st !! i = Some b /\ order b = o /\ free b = f;
  inv_levels : levels_ok (levels st) T;
  inv_hand : forall i, hand = Some i -> exists o, T i = Some (o, false)
}.

(** Page [p] belongs to a free block. *)
Definition page_free (T : tiling) (p : Z) : Prop :=
  exists i o, T i = Some (o, true) /\ i <= p < i + 2 ^ o.

(** No two free blocks are buddies of the same order. *)
Definition coalesced (T : tiling) : Prop :=
  forall i o, T i = Some (o, true) -> o < PMM_MAX_ORDER ->
    T (Z.lxor i (2 ^ o)) <> Some (o, true).

Lemma pagecount_pow2 o : 0 <= o < 64 -> pmm_order_to_pagecount o = 2 ^ o.
Proof.
  intros. unfold pmm_order_to_pagecount. rewrite Z.shiftl_1_l. apply u64_small.
  pose proof (pow2_pos o ltac:(lia)). split; [lia|]. apply Z.pow_lt_mono_r; lia.
Qed.

Lemma tset_eq T i v : tset T i v i = v.
Proof. unfold tset. by rewrite Z.eqb_refl. Qed.

Lemma tset_ne T i v j : j <> i -> tset T i v j = T j.
Proof. intros. unfold tset. by rewrite (proj2 (Z.eqb_neq j i)). Qed.

Lemma tset_Some T i v j w :
  tset T i v j = Some w -> (j = i /\ v = Some w) \/ (j <> i /\ T j = Some w).
Proof. unfold tset. destruct (Z.eqb_spec j i); naive_solver. Qed.

Lemma NoDup_snoc {A} (xs : list A) x : NoDup xs -> x ∉ xs -> NoDup (xs ++ [x]).
Proof. intros. apply NoDup_app. split_and!; [done|set_solver|apply NoDup_singleton]. Qed.

Section Tiling.
Context {n : Z} {T : tiling}.
Hypothesis Hok : tiling_ok n T.

(** Two tiles that share a page are the same tile. *)
Lemma tile_unique i j o o' f f' p :
  T i = Some (o, f) -> T j = Some (o', f') ->
  i <= p < i + 2 ^ o -> j <= p < j + 2 ^ o' -> i = j /\ o = o' /\ f = f'.
Proof using Hok.
  intros Hi Hj ??. destruct (Z.lt_trichotomy i j) as [Hlt|[->|Hlt]].
  - pose proof (tile_disj _ _ Hok _ _ _ _ _ _ Hi Hj Hlt). lia.
  - rewrite Hi in Hj. naive_solver.
  - pose proof (tile_disj _ _ Hok _ _ _ _ _ _ Hj Hi Hlt). lia.
Qed.

Lemma tile_in i o f : T i = Some (o, f) -> i <= i < i + 2 ^ o.
Proof using Hok.
  intros H. destruct (tile_wf _ _ Hok _ _ _ H) as (_ & ? & _).
  pose proof (pow2_pos o ltac:(lia)). lia.
Qed.

(** The block at the start of an aligned region, when the region is not inside
    a larger block. *)
Lemma tile_at b m :
  0 <= b < n -> 0 <= m -> (2 ^ m | b) ->
  exists s o f, T s = Some (o, f) /\
    ((o <= m /\ s = b) \/ (m < o /\ s <= b /\ b + 2 ^ m <= s + 2 ^ o)).
Proof using Hok.
  intros Hb Hm Hdiv. destruct (tile_cover _ _ Hok b Hb) as (s & o & f & Hs & Hin).
  exists s, o, f. split; [done|].
  destruct (tile_wf _ _ Hok _ _ _ Hs) as (Hs0 & Ho & Hd & _).
  pose proof (pow2_pos m ltac:(lia)). pose proof (pow2_pos o ltac:(lia)).
  destruct (Z.le_gt_cases o m) as [Hle|Hgt].
  - left. split; [done|]. destruct (aligned_nested s b o m b) as [? _]; auto; lia.
  - right. split; [done|]. apply (aligned_nested b s m o b); auto; lia.
Qed.

(** Changing only whether a block is free. *)
Lemma tiling_retag i o f f' : T i = Some (o, f) -> tiling_ok n (tset T i (Some (o, f'))).
Proof using Hok.
  intros Hi. split.
  - intros j o' g [[-> [= <- <-]]|[? ?]]%tset_Some; by eapply tile_wf.
  - intros p Hp. destruct (tile_cover _ _ Hok p Hp) as (j & o' & g & Hj & ?).
    destruct (decide (j = i)) as [->|]; [|exists j, o', g; by rewrite tset_ne].
    rewrite Hi in Hj. injection Hj as <- <-. exists i, o, f'. by rewrite tset_eq.
  - intros j k o1 o2 f1 f2 [[-> [= <- <-]]|[? ?]]%tset_Some
      [[-> [= <- <-]]|[? ?]]%tset_Some ?; (lia || by eapply tile_disj).
Qed.

(** Halving a block. *)
Lemma tiling_split i o f f1 f2 : 0 <= o -> T i = Some (o + 1, f) ->
  tiling_ok n (tset (tset T (i + 2 ^ o) (Some (o, f1))) i (Some (o, f2))).
Proof using Hok.
  intros Ho Hi. destruct (tile_wf _ _ Hok _ _ _ Hi) as (Hi0 & Ho' & Hd & Hb).
  rewrite pow2_succ in * by done. pose proof (pow2_pos o Ho). split.
  - assert ((2 ^ o | i)) by (etrans; [|done]; by exists 2).
    intros j o' g [[-> [= <- <-]]|[? [[-> [= <- <-]]|[? ?]]%tset_Some]]%tset_Some;
      [split_and!; (done || lia)| |by eapply tile_wf].
    split_and!; [lia|lia|lia| |lia]. apply Z.divide_add_r; [done|reflexivity].
  - intros p Hp. destruct (tile_cover _ _ Hok p Hp) as (j & o' & g & Hj & ?).
    destruct (decide (j = i)) as [->|].
    + rewrite Hi in Hj. injection Hj as <- <-. rewrite pow2_succ in * by done.
      destruct (Z.lt_ge_cases p (i + 2 ^ o)).
      * exists i, o, f2. rewrite tset_eq. split; [done|lia].
      * exists (i + 2 ^ o), o, f1. rewrite tset_ne, tset_eq by lia. split; [done|lia].
    + exists j, o', g. split; [|done]. rewrite tset_ne by done. rewrite tset_ne; [done|].
      intros ->. pose proof (tile_in _ _ _ Hj).
      destruct (tile_unique i (i + 2 ^ o) (o + 1) o' f g (i + 2 ^ o)); auto;
        rewrite ?pow2_succ by done; lia.
  - assert (Hout : forall j o' g, T j = Some (o', g) -> j <> i -> j + 2 ^ o' <= i \/ i + 2 * 2 ^ o <= j).
    { intros j o' g Hj Hne. pose proof (pow2_succ o Ho).
      destruct (Z.lt_ge_cases j i) as [Hlt|Hge].
      - left. by eapply tile_disj.
      - right. rewrite <- (pow2_succ o) by done. eapply tile_disj; eauto. lia. }
    intros j k o1 o2 g1 g2 [[-> [= <- <-]]|[? [[-> [= <- <-]]|[? Hj]]%tset_Some]]%tset_Some
      [[-> [= <- <-]]|[? [[-> [= <- <-]]|[? Hk]]%tset_Some]]%tset_Some ?; try lia.
    + destruct (Hout _ _ _ Hk) as [Ht|Ht]; [done| |lia]. pose proof (tile_in _ _ _ Hk). lia.
    + destruct (Hout _ _ _ Hk) as [Ht|Ht]; [done| |lia]. pose proof (tile_in _ _ _ Hk). lia.
    + destruct (Hout _ _ _ Hj) as [Ht|Ht]; [done|lia|lia].
    + destruct (Hout _ _ _ Hj) as [Ht|Ht]; [done|lia|lia].
    + by eapply tile_disj.
Qed.

(** Fusing the two halves of a block. *)
Lemma tiling_merge i o f f1 f2 : 0 <= o < PMM_MAX_ORDER -> (2 ^ (o + 1) | i) ->
  T i = Some (o, f1) -> T (i + 2 ^ o) = Some (o, f2) ->
  tiling_ok n (tset (tset T (i + 2 ^ o) None) i (Some (o + 1, f))).
Proof using Hok.
  intros Ho Hdiv Hi Hr. pose proof (pow2_succ o ltac:(lia)) as Hp2.
  pose proof (pow2_pos o ltac:(lia)).
  pose proof (tile_wf _ _ Hok _ _ _ Hi) as (Hi0 & _ & _ & _).
  pose proof (tile_wf _ _ Hok _ _ _ Hr) as (_ & _ & _ & Hb).
  split.
  - intros j o' g [[-> [= <- <-]]|[? [[-> [=]]|[? ?]]%tset_Some]]%tset_Some; [|by eapply tile_wf].
    split_and!; [lia|lia|lia|done|lia].
  - intros p Hp. destruct (tile_cover _ _ Hok p Hp) as (j & o' & g & Hj & ?).
    destruct (decide (j = i)) as [->|]; [|destruct (decide (j = i + 2 ^ o)) as [->|]].
    + rewrite Hi in Hj. injection Hj as <- <-. exists i, (o + 1), f.
      rewrite tset_eq. split; [done|lia].
    + rewrite Hr in Hj. injection Hj as <- <-. exists i, (o + 1), f.
      rewrite tset_eq. split; [done|lia].
    + exists j, o', g. by rewrite !tset_ne.
  - intros j k o1 o2 g1 g2 [[-> [= <- <-]]|[? [[-> [=]]|[? Hj]]%tset_Some]]%tset_Some
      [[-> [= <- <-]]|[? [[-> [=]]|[? Hk]]%tset_Some]]%tset_Some ?; try lia.
    + pose proof (tile_disj _ _ Hok _ _ _ _ _ _ Hi Hk ltac:(lia)).
      pose proof (tile_disj _ _ Hok _ _ _ _ _ _ Hr Hk ltac:(lia)). lia.
    + by eapply tile_disj.
    + by eapply tile_disj.
Qed.

End Tiling.

(** ** The elementary moves of the two loops *)

Lemma inv_tile st T hand i o f : pmm_inv st T hand -> T i = Some (o, f) ->
  0 <= i /\ 0 <= o <= PMM_MAX_ORDER /\ (2 ^ o | i) /\ i + 2 ^ o <= block_count st /\
  is_Some (blocks st !! i).
Proof.
  intros I Hi. destruct (tile_wf _ _ (inv_tiles _ _ _ I) _ _ _ Hi) as (?&?&?&?).
  pose proof (pow2_pos o ltac:(lia)). split_and!; try (done || lia).
  apply (inv_dom _ _ _ I). lia.
Qed.

(** Rewriting a descriptor changes neither the array's extent nor an address. *)
Lemma write_block_frame st i o f b : blocks st !! i = Some b ->
  (forall j, is_Some (<[i := PBlock (addr b) o f]> (blocks st) !! j) <-> is_Some (blocks st !! j)) /\
  (forall (P : Z -> Z -> Prop), (forall j c, blocks st !! j = Some c -> P j (addr c)) ->
     forall j c, <[i := PBlock (addr b) o f]> (blocks st) !! j = Some c -> P j (addr c)).
Proof.
  intros Hb. split.
  - intros j. destruct (decide (i = j)) as [->|]; [|by rewrite lookup_insert_ne].
    rewrite lookup_insert_eq, Hb. split; eauto.
  - intros P HP j c [[<- <-]|[? ?]]%lookup_insert_Some; simpl; [by apply (HP i b)|by apply HP].
Qed.

(** The free lists follow the tiling when only list [o] changes. *)
Lemma levels_ok_set ls T T' o xs :
  levels_ok ls T -> NoDup xs -> (forall i, i ∈ xs <-> T' i = Some (o, true)) ->
  (forall i o', o' <> o -> T i = Some (o', true) <-> T' i = Some (o', true)) ->
  levels_ok (<[o := xs]> ls) T'.
Proof.
  intros Hl Hnd Hin Hoth o' Ho'. destruct (decide (o' = o)) as [->|Hne].
  - exists xs. by rewrite lookup_insert_eq.
  - rewrite lookup_insert_ne by done. destruct (Hl o' Ho') as (zs & ? & ? & Hz).
    exists zs. split_and!; [done|done|]. intros i. rewrite Hz. by apply Hoth.
Qed.

(** Taking a free block off its list. *)
Lemma take_step st T i o :
  pmm_inv st T None -> T i = Some (o, true) ->
  exists st', level_remove st o i = Ok st' /\
    pmm_inv st' (tset T i (Some (o, false))) (Some i) /\
    blocks st' = blocks st /\ block_count st' = block_count st.
Proof.
  intros I Hi. pose proof (inv_tile _ _ _ _ _ _ I Hi) as (H0 & Ho & Hd & Hb & _).
  destruct (inv_levels _ _ _ I o Ho) as (xs & Hxs & Hnd & Hin).
  destruct (seq_remove_in i xs) as (ys & Hys & Hnd' & Hin'); [by apply Hin|done|].
  eexists. unfold level_remove. rewrite Hxs; simpl. rewrite Hys; simpl.
  split_and!; [done| |done|done].
  destruct I as [Itil Idom Iaddr Imeta Ilev Ihand]. split; simpl; try done.
  - by eapply tiling_retag.
  - intros j o' f' [[-> _]|[? Hj]]%tset_Some ?; [done|]. by eapply Imeta.
  - apply (levels_ok_set _ T); [done|done| |].
    + intros j. rewrite Hin', Hin.
      destruct (decide (j = i)) as [->|]; [rewrite tset_eq; naive_solver|rewrite tset_ne; naive_solver].
    + intros j o' ?. destruct (decide (j = i)) as [->|]; [rewrite tset_eq; naive_solver|by rewrite tset_ne].
  - intros j [= <-]. exists o. by rewrite tset_eq.
Qed.

(** Writing the descriptor of the block in hand as allocated. *)
Lemma put_used_step st T i o :
  pmm_inv st T (Some i) -> T i = Some (o, false) ->
  exists st', write_block st i o false = Ok st' /\ pmm_inv st' T None /\
    blocks st' !! i = Some (PBlock (i * ARCH_PAGE_GRAN) o false) /\
    block_count st' = block_count st.
Proof.
  intros I Hi. pose proof (inv_tile _ _ _ _ _ _ I Hi) as (_ & _ & _ & _ & [b Hb]).
  pose proof (inv_addr _ _ _ I _ _ Hb) as Ha.
  unfold write_block. rewrite Hb; simpl. eexists. split_and!; [done| | |done].
  2:{ simpl. rewrite lookup_insert_eq. by rewrite Ha. }
  destruct (write_block_frame st i o false b Hb) as [Hf1 Hf2].
  destruct I as [Itil Idom Iaddr Imeta Ilev Ihand]. split; simpl; try done.
  - intros j. by rewrite Hf1.
  - intros j c. by apply (Hf2 (fun j a => a = j * ARCH_PAGE_GRAN)).
  - intros j o' f' Hj _. destruct (decide (i = j)) as [->|].
    + rewrite Hi in Hj. injection Hj as <- <-. rewrite lookup_insert_eq. eauto.
    + rewrite lookup_insert_ne by done. eapply Imeta; [done|congruence].
Qed.

(** Putting the block in hand on a free list. *)
Lemma put_free_step st T i o :
  pmm_inv st T (Some i) -> T i = Some (o, false) ->
  exists st1 st2, write_block st i o true = Ok st1 /\ level_append st1 o i = Ok st2 /\
    pmm_inv st2 (tset T i (Some (o, true))) None /\ block_count st2 = block_count st.
Proof.
  intros I Hi. pose proof (inv_tile _ _ _ _ _ _ I Hi) as (H0 & Ho & Hd & Hbound & [b Hb]).
  destruct (inv_levels _ _ _ I o Ho) as (xs & Hxs & Hnd & Hin).
  unfold write_block, level_append. rewrite Hb; simpl.
  do 2 eexists. split_and!; [done|simpl; rewrite Hxs; done| |done].
  destruct (write_block_frame st i o true b Hb) as [Hf1 Hf2].
  destruct I as [Itil Idom Iaddr Imeta Ilev Ihand]. split; simpl; try done.
  - by eapply tiling_retag.
  - intros j. by rewrite Hf1.
  - intros j c. by apply (Hf2 (fun j a => a = j * ARCH_PAGE_GRAN)).
  - intros j o' f' [[-> [= <- <-]]|[? Hj]]%tset_Some _.
    + rewrite lookup_insert_eq. eauto.
    + rewrite lookup_insert_ne by done. eapply Imeta; [done|congruence].
  - apply (levels_ok_set _ T); [done| | |].
    + apply NoDup_snoc; [done|]. rewrite Hin, Hi. naive_solver.
    + intros j. rewrite elem_of_app, list_elem_of_singleton, Hin.
      destruct (decide (j = i)) as [->|]; [rewrite tset_eq; naive_solver|rewrite tset_ne; naive_solver].
    + intros j o' ?. destruct (decide (j = i)) as [->|]; [rewrite tset_eq; naive_solver|by rewrite tset_ne].
Qed.

(** Splitting the block in hand: its right half goes on a free list. *)
Lemma split_step st T i o :
  pmm_inv st T (Some i) -> 0 <= o -> T i = Some (o + 1, false) ->
  let r := i + 2 ^ o in
  exists st1 st2, write_block st r o true = Ok st1 /\ level_append st1 o r = Ok st2 /\
    pmm_inv st2 (tset (tset T r (Some (o, true))) i (Some (o, false))) (Some i) /\
    block_count st2 = block_count st /\ blocks st2 !! i = blocks st !! i /\ T r = None.
Proof.
  intros I Ho Hi r. pose proof (inv_tile _ _ _ _ _ _ I Hi) as (H0 & Ho' & Hd & Hbound & _).
  pose proof (pow2_succ o Ho). pose proof (pow2_pos o Ho).
  assert (T r = None) as Hr.
  { destruct (T r) as [[o' f']|] eqn:Er; [|done]. pose proof (tile_in (inv_tiles _ _ _ I) _ _ _ Er).
    destruct (tile_unique (inv_tiles _ _ _ I) i r (o + 1) o' false f' r) as [? _]; auto; unfold r in *; lia. }
  destruct (proj2 (inv_dom _ _ _ I r)) as [b Hb]; [unfold r; lia|].
  destruct (inv_levels _ _ _ I o ltac:(lia)) as (xs & Hxs & Hnd & Hin).
  unfold write_block, level_append. rewrite Hb; simpl.
  do 2 eexists. split_and!; [done|simpl; rewrite Hxs; done| |done| |done].
  2:{ simpl. rewrite lookup_insert_ne; [done|unfold r; lia]. }
  destruct (write_block_frame st r o true b Hb) as [Hf1 Hf2].
  destruct I as [Itil Idom Iaddr Imeta Ilev Ihand]. split; simpl; try done.
  - by eapply tiling_split.
  - intros j. by rewrite Hf1.
  - intros j c. by apply (Hf2 (fun j a => a = j * ARCH_PAGE_GRAN)).
  - intros j o' f' [[-> _]|[? [[-> [= <- <-]]|[? Hj]]%tset_Some]]%tset_Some ?; [done| |].
    + rewrite lookup_insert_eq. eauto.
    + rewrite lookup_insert_ne by done. by eapply Imeta.
  - assert (r <> i) by (unfold r; lia). apply (levels_ok_set _ T); [done| | |].
    + apply NoDup_snoc; [done|]. rewrite Hin, Hr. naive_solver.
    + intros j. rewrite elem_of_app, list_elem_of_singleton, Hin. unfold tset.
      destruct (Z.eqb_spec j i), (Z.eqb_spec j r); naive_solver.
    + intros j o' ?. unfold tset. destruct (Z.eqb_spec j i), (Z.eqb_spec j r); naive_solver.
  - intros j [= <-]. exists o. by rewrite tset_eq.
Qed.

(** Merging the block in hand with its free buddy. *)
Lemma merge_step st T i b o :
  pmm_inv st T (Some i) -> 0 <= o < PMM_MAX_ORDER -> T i = Some (o, false) ->
  b = Z.lxor i (2 ^ o) -> T b = Some (o, true) ->
  let l := Z.min i b in
  exists st', level_remove st o b = Ok st' /\
    pmm_inv st' (tset (tset T (l + 2 ^ o) None) l (Some (o + 1, false))) (Some l) /\
    block_count st' = block_count st /\
    (i = l /\ b = l + 2 ^ o \/ b = l /\ i = l + 2 ^ o).
Proof.
  intros I Ho Hi -> Hb l. pose proof (inv_tile _ _ _ _ _ _ I Hi) as (H0 & _ & Hd & Hbound & _).
  pose proof (pow2_pos o ltac:(lia)).
  assert (Hbud : (2 ^ (o + 1) | l) /\ (i = l /\ Z.lxor i (2 ^ o) = l + 2 ^ o \/
                                     Z.lxor i (2 ^ o) = l /\ i = l + 2 ^ o)).
  { unfold l. destruct (lxor_pow2_buddy i o ltac:(lia) Hd) as [(k & Ek & Ex)|(k & Ek & Ex)]; rewrite Ex.
    - rewrite Z.min_l by lia. split; [by exists k|lia].
    - rewrite Z.min_r by lia. split; [exists k; lia|lia]. }
  destruct Hbud as [Hdl Hbud]. set (b := Z.lxor i (2 ^ o)) in *. clearbody b l.
  destruct (inv_levels _ _ _ I o ltac:(lia)) as (xs & Hxs & Hnd & Hin).
  destruct (seq_remove_in b xs) as (ys & Hys & Hnd' & Hin'); [by apply Hin|done|].
  eexists. unfold level_remove. rewrite Hxs; simpl. rewrite Hys; simpl.
  split_and!; [done| |done|done].
  destruct I as [Itil Idom Iaddr Imeta Ilev Ihand]. split; simpl; try done.
  - destruct Hbud as [[-> ->]|[-> ->]]; by eapply tiling_merge.
  - intros j o' f' [[-> _]|[? [[_ [=]]|[? Hj]]%tset_Some]]%tset_Some ?; [done|].
    eapply Imeta; [done|]. intros [= ->]. lia.
  - apply (levels_ok_set _ T); [done|done| |].
    + intros j. rewrite Hin', Hin. unfold tset.
      destruct (Z.eqb_spec j l), (Z.eqb_spec j (l + 2 ^ o)); destruct Hbud as [[-> ->]|[-> ->]]; naive_solver.
    + intros j o' ?. unfold tset.
      destruct (Z.eqb_spec j l), (Z.eqb_spec j (l + 2 ^ o)); destruct Hbud as [[-> ->]|[-> ->]]; naive_solver.
  - intros j [= <-]. exists (o + 1). by rewrite tset_eq.
Qed.

(** ** Free pages and coalescing under the moves *)

Definition not_free (v : option (Z * bool)) : Prop := forall o, v <> Some (o, true).

Lemma page_free_add T i o p : not_free (T i) ->
  page_free (tset T i (Some (o, true))) p <-> page_free T p \/ i <= p < i + 2 ^ o.
Proof.
  intros Hn. split.
  - intros (j & k & [[-> [= <-]]|[? ?]]%tset_Some & ?); [by right|left; by exists j, k].
  - intros [(j & k & Hj & ?)|?].
    + exists j, k. rewrite tset_ne; [done|]. intros ->. by apply (Hn k).
    + exists i, o. by rewrite tset_eq.
Qed.

Lemma page_free_same T i v p : not_free (T i) -> not_free v ->
  page_free (tset T i v) p <-> page_free T p.
Proof.
  intros Hn Hv. split; intros (j & k & Hj & ?).
  - apply tset_Some in Hj as [[-> Hj]|[? ?]]; [by apply Hv in Hj|by exists j, k].
  - exists j, k. rewrite tset_ne; [done|]. intros ->. by apply (Hn k).
Qed.

Lemma page_free_minus n T T' b o p : tiling_ok n T -> T b = Some (o, true) ->
  (forall j k, T' j = Some (k, true) <-> T j = Some (k, true) /\ j <> b) ->
  page_free T' p <-> page_free T p /\ ~ (b <= p < b + 2 ^ o).
Proof.
  intros Hok Hb HT. split.
  - intros (j & k & [Hj Hne]%HT & ?). split; [by exists j, k|]. intros Hp.
    by destruct (tile_unique Hok b j o k true true p) as [-> _].
  - intros [(j & k & Hj & ?) Hp]. exists j, k. split; [|done]. apply HT. split; [done|].
    intros ->. rewrite Hb in Hj. naive_solver.
Qed.

Lemma coalesced_shrink T T' :
  coalesced T -> (forall j o, T' j = Some (o, true) -> T j = Some (o, true)) -> coalesced T'.
Proof. intros Hc Hs j o Hj Ho Hb. by apply (Hc j o (Hs _ _ Hj) Ho), Hs. Qed.

Lemma buddy_invol i o : Z.lxor (Z.lxor i (2 ^ o)) (2 ^ o) = i.
Proof. by rewrite Z.lxor_assoc, Z.lxor_nilpotent, Z.lxor_0_r. Qed.

Lemma coalesced_add T i o : coalesced T ->
  (o < PMM_MAX_ORDER -> T (Z.lxor i (2 ^ o)) <> Some (o, true)) -> 0 <= o ->
  coalesced (tset T i (Some (o, true))).
Proof.
  intros Hc Hb Ho j k Hj Hk Hbud.
  assert (Hne : Z.lxor i (2 ^ o) <> i).
  { intros E. assert (E0 : 2 ^ o = 0).
    { rewrite <- (Z.lxor_0_l (2 ^ o)), <- (Z.lxor_nilpotent i), Z.lxor_assoc, E. done. }
    pose proof (pow2_pos o Ho). lia. }
  apply tset_Some in Hj as [[-> [= ->]]|[? Hj]].
  - apply tset_Some in Hbud as [[E _]|[_ Hbud]]; [done|by apply Hb].
  - apply tset_Some in Hbud as [[E [= ->]]|[_ Hbud]]; [|by apply (Hc j k)].
    apply Hb; [done|]. by rewrite <- E, buddy_invol.
Qed.

(** An aligned run of free pages lies in one free block when no two free
    buddies are left unmerged. *)
Lemma free_run_block st T n p :
  pmm_inv st T None -> coalesced T -> (n <= Z.to_nat PMM_MAX_ORDER)%nat ->
  (2 ^ Z.of_nat n | p) -> 0 <= p -> (forall q, p <= q < p + 2 ^ Z.of_nat n -> page_free T q) ->
  exists i o, T i = Some (o, true) /\ Z.of_nat n <= o /\ i <= p < i + 2 ^ o.
Proof.
  intros I Hc. revert p. induction n as [|n IH]; intros p Hn Hdiv Hp Hfree.
  - destruct (Hfree p) as (i & o & Hi & Hin); [simpl; lia|].
    exists i, o. split; [done|]. pose proof (inv_tile _ _ _ _ _ _ I Hi). lia.
  - set (m := Z.of_nat n) in *. replace (Z.of_nat (S n)) with (m + 1) in * by lia.
    assert (0 <= m) by lia. rewrite pow2_succ in * by done. pose proof (pow2_pos m ltac:(lia)).
    assert (Hdp : (2 ^ m | p)) by (etrans; [|done]; by exists 2).
    destruct (IH p) as (i & o & Hi & Ho & Hin); [lia|done|done|intros; apply Hfree; lia|].
    destruct (decide (m + 1 <= o)); [by exists i, o|]. assert (o = m) as -> by lia.
    pose proof (inv_tile _ _ _ _ _ _ I Hi) as (_ & Hom & Hdi & _).
    assert (i = p) as ->.
    { destruct (aligned_nested i p m m p) as [? _]; auto; lia. }
    destruct (IH (p + 2 ^ m)) as (j & k & Hj & Hk & Hinj);
      [lia|apply Z.divide_add_r; [done|reflexivity]|lia|intros; apply Hfree; lia|].
    pose proof (inv_tile _ _ _ _ _ _ I Hj) as (_ & _ & Hdj & _).
    destruct (decide (m + 1 <= k)).
    + exfalso. pose proof (pow2_succ m ltac:(lia)).
      destruct (aligned_nested p j (m + 1) k (p + 2 ^ m)) as [? ?];
        [lia|by rewrite pow2_succ|done|lia|lia|].
      destruct (tile_unique (inv_tiles _ _ _ I) p j m k true true p); auto; lia.
    + assert (k = m) as -> by lia. exfalso.
      assert (j = p + 2 ^ m) as ->.
      { destruct (aligned_nested j (p + 2 ^ m) m m (p + 2 ^ m)) as [? _]; auto; try lia.
        apply Z.divide_add_r; [done|reflexivity]. }
      apply (Hc p m Hi); [unfold PMM_MAX_ORDER in *; lia|].
      destruct Hdiv as [c Ec]. rewrite lxor_pow2_clear; [done|lia|].
      rewrite Ec. replace (c * (2 * 2 ^ m)) with ((2 * c) * 2 ^ m) by lia.
      rewrite testbit_mul_pow2 by lia. rewrite Z.odd_mul. done.
Qed.

(** ** The loops *)

(** The blocks in use, apart from the one at [i]. *)
Definition same_used (T T' : tiling) (i i' : Z) : Prop :=
  forall j k, (T' j = Some (k, false) /\ j <> i') <-> (T j = Some (k, false) /\ j <> i).

Lemma find_level_spec fuel st T i :
  pmm_inv st T None -> 0 <= i <= PMM_MAX_ORDER -> (Z.to_nat (11 - i) <= fuel)%nat ->
  (exists k x xs, find_level fuel st i = Ok k /\ i <= k <= PMM_MAX_ORDER /\
     levels st !! k = Some (x :: xs) /\ T x = Some (k, true)) \/
  (find_level fuel st i = Panic /\ forall j k, T j = Some (k, true) -> k < i).
Proof.
  intros I. revert i. induction fuel as [|fuel IH]; intros i Hi Hf; unfold PMM_MAX_ORDER in *; [lia|].
  destruct (inv_levels _ _ _ I i Hi) as (xs & Hxs & Hnd & Hin).
  simpl. rewrite Hxs; simpl. destruct xs as [|x xs].
  - rewrite bool_decide_eq_true_2 by done. unfold PMM_MAX_ORDER.
    assert (Hno : forall j k, T j = Some (k, true) -> k <> i).
    { intros j k Hj ->. apply Hin in Hj. set_solver. }
    destruct (Z.gtb_spec (i + 1) 10).
    + right. split; [done|]. intros j k Hj. pose proof (Hno _ _ Hj).
      pose proof (inv_tile _ _ _ _ _ _ I Hj). unfold PMM_MAX_ORDER in *. lia.
    + destruct (IH (i + 1)) as [(k & x & xs & ? & ? & ? & ?)|[? Hall]]; [lia|lia| |].
      * left. exists k, x, xs. split_and!; (done || lia).
      * right. split; [done|]. intros j k Hj. pose proof (Hall _ _ Hj). pose proof (Hno _ _ Hj). lia.
  - left. exists i, x, xs. rewrite bool_decide_eq_false_2 by done.
    split_and!; [done|lia|lia|done|]. apply Hin. set_solver.
Qed.

Lemma split_down_spec n st T i o :
  pmm_inv st T (Some i) -> 0 <= o -> T i = Some (o + Z.of_nat n, false) ->
  exists st' T', split_down n st i (o + Z.of_nat n) = Ok st' /\
    pmm_inv st' T' (Some i) /\ T' i = Some (o, false) /\
    (forall p, page_free T' p <-> page_free T p \/ i + 2 ^ o <= p < i + 2 ^ (o + Z.of_nat n)) /\
    same_used T T' i i /\ (coalesced T -> coalesced T').
Proof.
  revert st T. induction n as [|n IH]; intros st T I Ho Hi.
  { replace (o + Z.of_nat 0) with o in * by lia. exists st, T. split_and!; try done. intros p. split; [auto|].
    intros [?|?]; [done|lia]. }
  replace (o + Z.of_nat (S n)) with (o + Z.of_nat n + 1) in * by lia. set (k := o + Z.of_nat n) in *.
  pose proof (inv_tile _ _ _ _ _ _ I Hi) as (H0 & Hk & Hd & Hbound & [b Hb]).
  assert (Hk0 : 0 <= k) by lia. pose proof (pow2_pos k Hk0). pose proof (pow2_succ k Hk0).
  destruct (split_step _ _ _ _ I Hk0 Hi) as (st1 & st2 & E1 & E2 & I2 & Hc2 & Hb2 & Hr).
  simpl. rewrite Hb; simpl. rewrite (inv_addr _ _ _ I _ _ Hb).
  rewrite Z.div_mul by done. replace (k + 1 - 1) with k by lia.
  rewrite pagecount_pow2 by (unfold PMM_MAX_ORDER in *; lia).
  assert (Hx : Z.lxor i (2 ^ k) = i + 2 ^ k).
  { destruct Hd as [c Ec]. apply lxor_pow2_clear; [done|].
    rewrite Ec, pow2_succ by done. replace (c * (2 * 2 ^ k)) with ((2 * c) * 2 ^ k) by lia.
    rewrite testbit_mul_pow2, Z.odd_mul by done. done. }
  rewrite Hx, E1; simpl. rewrite E2; simpl.
  destruct (IH st2 _ I2 Ho) as (st' & T' & E & I' & Hi' & Hfree & Hused & Hco); [by rewrite tset_eq|].
  exists st', T'. assert (i + 2 ^ k <> i) by lia.
  assert (Hnf : not_free (T (i + 2 ^ k))) by (rewrite Hr; done).
  assert (Hnf' : not_free (tset T (i + 2 ^ k) (Some (k, true)) i)) by (rewrite tset_ne, Hi; done).
  split_and!; [done|done|done| | |].
  - intros p. rewrite Hfree, page_free_same, page_free_add by done.
    pose proof (pow2_mono o k ltac:(lia)). destruct (Z.lt_ge_cases p (i + 2 ^ k)); intuition lia.
  - intros j m. rewrite (Hused j m). unfold tset.
    destruct (Z.eqb_spec j i), (Z.eqb_spec j (i + 2 ^ k)); naive_solver.
  - intros Hc. apply Hco. apply (coalesced_shrink (tset T (i + 2 ^ k) (Some (k, true)))).
    + apply coalesced_add; [done| |done]. intros _. rewrite <- Hx, buddy_invol, Hi. congruence.
    + intros j m [[-> [=]]|[? ?]]%tset_Some. done.
Qed.

(** The descriptor the code reads for the buddy is that of a real block. *)
Lemma buddy_block st T i o :
  pmm_inv st T (Some i) -> T i = Some (o, false) -> o < PMM_MAX_ORDER ->
  let b := Z.lxor i (2 ^ o) in b < block_count st ->
  exists o' f', T b = Some (o', f') /\ blocks st !! b = Some (PBlock (b * ARCH_PAGE_GRAN) o' f') /\
    b <> i /\ 0 <= b.
Proof.
  intros I Hi Ho b Hb. pose proof (inv_tile _ _ _ _ _ _ I Hi) as (H0 & Ho' & Hd & Hbound & _).
  pose proof (pow2_pos o ltac:(lia)).
  assert (Hbud : (2 ^ o | b) /\ (b = i + 2 ^ o \/ (b = i - 2 ^ o /\ 0 <= b))).
  { unfold b. destruct (lxor_pow2_buddy i o ltac:(lia) Hd) as [(c & Ec & ->)|(c & Ec & ->)].
    - split; [|by left]. by apply Z.divide_add_r.
    - split; [by apply Z.divide_sub_r|]. right. split; [done|].
      rewrite pow2_succ in Ec by lia. destruct (Z.lt_ge_cases c 0); [|nia].
      assert (c * (2 * 2 ^ o) <= -1 * (2 * 2 ^ o)) by (apply Z.mul_le_mono_nonneg_r; lia). lia. }
  destruct Hbud as [Hdb Hbud].
  destruct (tile_at (inv_tiles _ _ _ I) b o) as (s & o' & f' & Hs & Hcase); [lia|lia|done|].
  assert (s = b /\ o' <= o) as [-> Hle].
  { destruct Hcase as [[? ?]|(Hlt & Hsb & Hend)]; [done|]. exfalso.
    pose proof (inv_tile _ _ _ _ _ _ I Hs) as (_ & _ & Hds & _).
    destruct (lxor_pow2_buddy i o ltac:(lia) Hd) as [(c & Ec & Ex)|(c & Ec & Ex)];
      fold b in Ex;
      destruct (aligned_nested (c * 2 ^ (o + 1)) s (o + 1) o' b) as [? ?];
      try (apply Z.divide_factor_r); try done; rewrite ?pow2_succ in * by lia; try lia;
      destruct (tile_unique (inv_tiles _ _ _ I) i s o o' false f' i); auto; lia. }
  assert (b <> i) by lia.
  destruct (inv_meta _ _ _ I b o' f' Hs) as (d & Hd' & <- & <-); [congruence|].
  exists (order d), (free d). split_and!; try (done || lia).
  rewrite <- (inv_addr _ _ _ I _ _ Hd'). by destruct d.
Qed.

(** Which blocks are free, and which in use, after a merge. *)
Lemma merged_tiles (T : tiling) i b l o j k f : 0 <= o ->
  T i = Some (o, false) -> T b = Some (o, true) ->
  (i = l /\ b = l + 2 ^ o) \/ (b = l /\ i = l + 2 ^ o) ->
  (tset (tset T (l + 2 ^ o) None) l (Some (o + 1, false)) j = Some (k, f) /\ (f = false -> j <> l)) <->
  (T j = Some (k, f) /\ (if f then j <> b else j <> i)).
Proof.
  intros Ho Hi Hb Hbud. pose proof (pow2_pos o Ho).
  assert (T l <> None /\ T (l + 2 ^ o) <> None).
  { destruct Hbud as [[<- <-]|[<- <-]]; rewrite Hi, Hb; done. }
  unfold tset. destruct (Z.eqb_spec j l) as [->|]; [|destruct (Z.eqb_spec j (l + 2 ^ o)) as [->|]].
  - destruct Hbud as [[-> ->]|[-> ->]]; destruct f; rewrite ?Hi, ?Hb; naive_solver.
  - destruct Hbud as [[-> ->]|[-> ->]]; destruct f; rewrite ?Hi, ?Hb; naive_solver.
  - destruct Hbud as [[-> ->]|[-> ->]]; destruct f; naive_solver.
Qed.

Lemma merge_up_spec n st T i o :
  pmm_inv st T (Some i) -> T i = Some (o, false) -> o + Z.of_nat n = PMM_MAX_ORDER ->
  exists i' o' st' T', merge_up n st i o = Ok (i', o', st') /\
    pmm_inv st' T' (Some i') /\ T' i' = Some (o', false) /\
    (forall p, page_free T' p \/ i' <= p < i' + 2 ^ o' <-> page_free T p \/ i <= p < i + 2 ^ o) /\
    same_used T T' i i' /\
    (coalesced T -> coalesced T') /\
    (o' < PMM_MAX_ORDER -> T' (Z.lxor i' (2 ^ o')) <> Some (o', true)).
Proof.
  revert st T i o. induction n as [|n IH]; intros st T i o I Hi Hn.
  { exists i, o, st, T. split_and!; try done. lia. }
  pose proof (inv_tile _ _ _ _ _ _ I Hi) as (H0 & Ho & Hd & Hbound & _).
  assert (Hlt : o < PMM_MAX_ORDER) by lia. pose proof (pow2_pos o ltac:(lia)).
  simpl. rewrite pagecount_pow2 by (unfold PMM_MAX_ORDER in *; lia).
  set (b := Z.lxor i (2 ^ o)) in *.
  assert (Hstop : T b <> Some (o, true) ->
    exists i' o' st' T', Ok (i, o, st) = Ok (i', o', st') /\
      pmm_inv st' T' (Some i') /\ T' i' = Some (o', false) /\
      (forall p, page_free T' p \/ i' <= p < i' + 2 ^ o' <-> page_free T p \/ i <= p < i + 2 ^ o) /\
      same_used T T' i i' /\ (coalesced T -> coalesced T') /\
      (o' < PMM_MAX_ORDER -> T' (Z.lxor i' (2 ^ o')) <> Some (o', true))).
  { intros Hnb. exists i, o, st, T. split_and!; done. }
  destruct (Z.geb_spec b (block_count st)) as [Hge|Hin].
  { apply Hstop. intros Hb. pose proof (inv_tile _ _ _ _ _ _ I Hb). lia. }
  destruct (buddy_block _ _ _ _ I Hi Hlt Hin) as (ob & fb & Hb & Hdesc & Hbi & Hb0).
  fold b in Hb, Hdesc. rewrite Hdesc; simpl.
  destruct (fb && (ob =? o)) eqn:Etest.
  2:{ apply Hstop. rewrite Hb. intros [= -> ->]. by rewrite Z.eqb_refl in Etest. }
  apply andb_true_iff in Etest as [-> ->%Z.eqb_eq].
  destruct (merge_step st T i b o I ltac:(lia) Hi eq_refl Hb) as (st1 & E1 & I1 & Hc1 & Hbud).
  rewrite E1; simpl. set (l := Z.min i b) in *.
  replace (if i <? b then i else b) with l by (unfold l; destruct (Z.ltb_spec i b); lia).
  destruct (IH st1 _ l (o + 1) I1) as (i' & o' & st' & T' & E & I' & Hi' & Hfree & Hused & Hco & Hfin);
    [by rewrite tset_eq|lia|].
  exists i', o', st', T'. split_and!; try done.
  - intros p. rewrite Hfree. rewrite pow2_succ by lia. clear IH Hstop E E1.
    assert (Hpf : page_free (tset (tset T (l + 2 ^ o) None) l (Some (o + 1, false))) p <->
                  page_free T p /\ ~ (b <= p < b + 2 ^ o)).
    { apply (page_free_minus (block_count st)); [apply I|done|]. intros j k.
      pose proof (merged_tiles T i b l o j k true ltac:(lia) Hi Hb Hbud) as Hm. naive_solver. }
    rewrite Hpf. assert (Hbp : b <= p < b + 2 ^ o -> page_free T p) by (intros; by exists b, o).
    destruct Hbud as [[Ei Eb]|[Eb Ei]]; destruct (decide (b <= p < b + 2 ^ o)); intuition lia.
  - intros j k. rewrite (Hused j k).
    pose proof (merged_tiles T i b l o j k false ltac:(lia) Hi Hb Hbud) as Hm. naive_solver.
  - intros Hc. apply Hco. apply (coalesced_shrink T); [done|].
    intros j k [[-> [=]]|[? [[-> [=]]|[? ?]]%tset_Some]]%tset_Some. done.
Qed.

(** ** Allocation and release *)

(** What [pmm_alloc] promises of the block it returned. *)
Record alloc_post (T T' : tiling) (i o : Z) : Prop := {
  ap_block : T' i = Some (o, false);
  ap_was_free : forall p, i <= p < i + 2 ^ o -> page_free T p;
  ap_free : forall p, page_free T' p <-> page_free T p /\ ~ (i <= p < i + 2 ^ o);
  ap_used : forall j k, T' j = Some (k, false) <-> T j = Some (k, false) \/ (j = i /\ k = o);
  ap_coalesced : coalesced T -> coalesced T'
}.

Lemma pmm_alloc_cases st T o :
  pmm_inv st T None -> 0 <= o <= PMM_MAX_ORDER ->
  (exists i st' T', pmm_alloc o st = Ok (i * ARCH_PAGE_GRAN, st') /\
     pmm_inv st' T' None /\ alloc_post T T' i o) \/
  (pmm_alloc o st = Panic /\ forall j k, T j = Some (k, true) -> k < o).
Proof.
  intros I Ho. unfold pmm_alloc. rewrite (proj2 (Z.leb_le o PMM_MAX_ORDER)) by lia. simpl ASSERT.
  destruct (find_level_spec 12 st T o I Ho) as [(k & i & xs & Ek & Hk & Hxs & Hi)|[Ep Hnone]];
    [unfold PMM_MAX_ORDER in *; lia| |].
  2:{ right. split; [|done]. go. by run Ep. }
  left. destruct (take_step _ _ _ _ I Hi) as (st1 & E1 & I1 & Hb1 & Hc1).
  set (T1 := tset T i (Some (k, false))) in *.
  set (n := Z.to_nat (k - o)). assert (Hkn : k = o + Z.of_nat n) by lia.
  destruct (split_down_spec n st1 T1 i o I1 ltac:(lia)) as (st2 & T2 & E2 & I2 & Hi2 & Hf2 & Hu2 & Hc2).
  { unfold T1. by rewrite tset_eq, Hkn. }
  destruct (put_used_step _ _ _ _ I2 Hi2) as (st3 & E3 & I3 & Hb3 & _).
  exists i, st3, T2. split_and!; [|done|].
  { go. run Ek. run Hxs. cbn [list.head]. go. run E1. fold n. rewrite Hkn at 1. run E2. run E3.
    by run Hb3. }
  pose proof (pow2_mono o k ltac:(lia)). pose proof (pow2_pos o ltac:(lia)).
  assert (Hk2 : forall p, i <= p < i + 2 ^ k -> page_free T p) by (intros; by exists i, k).
  split; [done| | | |].
  - intros p Hp. apply Hk2. lia.
  - intros p. rewrite Hf2. rewrite <- Hkn. unfold T1.
    rewrite (page_free_minus (block_count st) T _ i k p); [|apply I|done|].
    + destruct (decide (i <= p < i + 2 ^ k)) as [Hp|Hp]; [pose proof (Hk2 p Hp)|]; intuition lia.
    + intros j m. unfold tset. destruct (Z.eqb_spec j i); naive_solver.
  - intros j m. pose proof (Hu2 j m) as Hu. unfold T1, tset in Hu.
    destruct (Z.eqb_spec j i) as [->|]; [rewrite Hi2, Hi; naive_solver|naive_solver].
  - intros Hc. apply Hc2. apply (coalesced_shrink T); [done|].
    intros j m [[-> [=]]|[? ?]]%tset_Some. done.
Qed.

(** C1: [pmm_alloc] keeps the buddy invariant and is exact.  A request for
    order [o] either returns the page-aligned address of a block of exactly
    2^o pages, all of them free before, which it takes out of the free pages
    and adds to the blocks in use, changing no other block; or it panics, and
    then there was no free block of that order or above. *)
Theorem pmm_alloc_correct st T o :
  pmm_inv st T None -> 0 <= o <= PMM_MAX_ORDER ->
  (exists i st' T', pmm_alloc o st = Ok (i * ARCH_PAGE_GRAN, st') /\
     pmm_inv st' T' None /\ alloc_post T T' i o) \/
  (pmm_alloc o st = Panic /\ forall j k, T j = Some (k, true) -> k < o).
Proof. apply pmm_alloc_cases. Qed.

(** No external fragmentation beyond alignment: when no two free buddies
    are left unmerged (which allocation, release and initialisation keep), an
    aligned run of 2^o free pages is enough for a request of order [o] to
    succeed. *)
Theorem pmm_alloc_complete st T o p :
  pmm_inv st T None -> coalesced T -> 0 <= o <= PMM_MAX_ORDER ->
  0 <= p -> (2 ^ o | p) -> (forall q, p <= q < p + 2 ^ o -> page_free T q) ->
  returns (pmm_alloc o st).
Proof.
  intros I Hc Ho Hp Hd Hfree.
  destruct (pmm_alloc_cases st T o I Ho) as [(i & st' & T' & E & _)|[_ Hnone]]; [by eexists|].
  exfalso. destruct (free_run_block st T (Z.to_nat o) p I Hc) as (i & k & Hi & Hk & _);
    rewrite ?Z2Nat.id by lia; try done; [lia|].
  apply Hnone in Hi. lia.
Qed.

(** What [pmm_free] promises. *)
Record free_post (T T' : tiling) (i o : Z) : Prop := {
  fp_free : forall p, page_free T' p <-> page_free T p \/ i <= p < i + 2 ^ o;
  fp_used : forall j k, T' j = Some (k, false) <-> T j = Some (k, false) /\ j <> i;
  fp_coalesced : coalesced T -> coalesced T'
}.

Lemma pmm_inv_hand st T i o : pmm_inv st T None -> T i = Some (o, false) -> pmm_inv st T (Some i).
Proof.
  intros [Itil Idom Iaddr Imeta Ilev Ihand] Hi. split; try done.
  - intros j o' f Hj _. by eapply Imeta.
  - intros j [= <-]. eauto.
Qed.

Lemma pmm_free_step HHDM st T i o :
  pmm_inv st T None -> T i = Some (o, false) -> i * ARCH_PAGE_GRAN < HHDM ->
  exists st' T', pmm_free HHDM (i * ARCH_PAGE_GRAN) st = Ok st' /\
    pmm_inv st' T' None /\ free_post T T' i o.
Proof.
  intros I Hi Hh. pose proof (pmm_inv_hand _ _ _ _ I Hi) as I0.
  pose proof (inv_tile _ _ _ _ _ _ I Hi) as (_ & Ho & _ & _ & _).
  destruct (inv_meta _ _ _ I _ _ _ Hi) as (b & Hb & Hbo & Hbf); [done|].
  unfold pmm_free. rewrite (proj2 (Z.ltb_lt _ _)) by done. go.
  rewrite Z.div_mul by done. run Hb. rewrite Hbf, Hbo. cbn [negb]. go.
  destruct (merge_up_spec (Z.to_nat (PMM_MAX_ORDER - o)) st T i o I0 Hi ltac:(lia))
    as (i1 & o1 & st1 & T1 & E1 & I1 & Hi1 & Hf1 & Hu1 & Hc1 & Hfin1).
  run E1.
  destruct (put_free_step _ _ _ _ I1 Hi1) as (st2 & st3 & E2 & E3 & I3 & _).
  run E2. exists st3, (tset T1 i1 (Some (o1, true))).
  split_and!; [done|done|]. split.
  - intros p. rewrite page_free_add by (rewrite Hi1; done). apply Hf1.
  - intros j k. rewrite <- (Hu1 j k). unfold tset. destruct (Z.eqb_spec j i1); naive_solver.
  - intros Hc. apply coalesced_add; [by apply Hc1|done|].
    pose proof (inv_tile _ _ _ _ _ _ I1 Hi1). lia.
Qed.

(** C2: [pmm_free] of a block in use returns, keeps the buddy invariant, makes
    exactly that block's pages free and takes exactly that block off the
    blocks in use, and merges with free buddies until none is left (the
    coalescing invariant is preserved). *)
Theorem pmm_free_correct HHDM st T i o :
  pmm_inv st T None -> T i = Some (o, false) -> i * ARCH_PAGE_GRAN < HHDM ->
  exists st' T', pmm_free HHDM (i * ARCH_PAGE_GRAN) st = Ok st' /\
    pmm_inv st' T' None /\ free_post T T' i o.
Proof. apply pmm_free_step. Qed.

(** Allocating a block and releasing it gives back the same free pages and
    the same blocks in use. *)
Theorem pmm_alloc_free_roundtrip HHDM st T o a st1 :
  pmm_inv st T None -> 0 <= o <= PMM_MAX_ORDER -> pmm_alloc o st = Ok (a, st1) -> a < HHDM ->
  exists st2 T2, pmm_free HHDM a st1 = Ok st2 /\ pmm_inv st2 T2 None /\
    (forall p, page_free T2 p <-> page_free T p) /\
    (forall j k, T2 j = Some (k, false) <-> T j = Some (k, false)).
Proof.
  intros I Ho E Hh.
  destruct (pmm_alloc_cases st T o I Ho) as [(i & st' & T' & E' & I' & [Pb Pw Pf Pu Pc])|[E' _]];
    rewrite E' in E; [|done]. injection E as <- <-.
  destruct (pmm_free_step HHDM st' T' i o I' Pb Hh) as (st2 & T2 & E2 & I2 & [Ff Fu _]).
  exists st2, T2. split_and!; [done|done| |].
  - intros p. rewrite Ff, Pf. destruct (decide (i <= p < i + 2 ^ o)); [|intuition lia].
    pose proof (Pw p ltac:(lia)). intuition lia.
  - intros j k. rewrite Fu, Pu. split; [naive_solver|]. intros Hj. split; [by left|].
    intros ->. pose proof (tile_in (inv_tiles _ _ _ I) _ _ _ Hj).
    destruct (Pw i) as (m & om & Hm & Hin); [pose proof (pow2_pos o ltac:(lia)); lia|].
    destruct (tile_unique (inv_tiles _ _ _ I) i m k om false true i) as (_ & _ & ?); auto; done.
Qed.

(** C39: releasing a block that is on a free list panics instead of corrupting
    the lists. *)
Theorem pmm_double_free_panics HHDM st T i o :
  pmm_inv st T None -> T i = Some (o, true) -> pmm_free HHDM (i * ARCH_PAGE_GRAN) st = Panic.
Proof.
  intros I Hi. unfold pmm_free. destruct (i * ARCH_PAGE_GRAN <? HHDM); [|done].
  destruct (inv_meta _ _ _ I _ _ _ Hi) as (b & Hb & _ & Hbf); [done|].
  go. rewrite Z.div_mul by done. run Hb. by rewrite Hbf.
Qed.

(** ** Initialisation *)

(** Fusing single pages into one free block. *)
Definition tfuse (T : tiling) (i o : Z) : tiling := fun j =>
  if j =? i then Some (o, true) else if (i <? j) && (j <? i + 2 ^ o) then None else T j.

Lemma tfuse_Some T i o j v : tfuse T i o j = Some v ->
  (j = i /\ v = (o, true)) \/ (T j = Some v /\ j <> i /\ ~ (i <= j < i + 2 ^ o)).
Proof.
  unfold tfuse. destruct (Z.eqb_spec j i); [naive_solver|].
  destruct (Z.ltb_spec i j), (Z.ltb_spec j (i + 2 ^ o)); simpl; naive_solver lia.
Qed.

Lemma tfuse_eq T i o : tfuse T i o i = Some (o, true).
Proof. unfold tfuse. by rewrite Z.eqb_refl. Qed.

Lemma tfuse_out T i o j : 0 <= o -> ~ (i <= j < i + 2 ^ o) -> tfuse T i o j = T j.
Proof.
  intros Ho Hj. pose proof (pow2_pos o Ho). unfold tfuse. destruct (Z.eqb_spec j i); [lia|].
  destruct (Z.ltb_spec i j), (Z.ltb_spec j (i + 2 ^ o)); simpl; (done || lia).
Qed.

Section Fuse.
Context {st : pmm} {T : tiling} {i o : Z}.
Hypothesis I : pmm_inv st T None.
Hypothesis Hpages : forall p, i <= p < i + 2 ^ o -> T p = Some (0, false).
Hypothesis Ho : 0 <= o <= PMM_MAX_ORDER.
Hypothesis Hi : 0 <= i.
Hypothesis Hend : i + 2 ^ o <= block_count st.
Hypothesis Hdiv : (2 ^ o | i).

(** A block elsewhere does not reach into the fused pages. *)
Lemma fuse_outside j k f : T j = Some (k, f) -> ~ (i <= j < i + 2 ^ o) ->
  j + 2 ^ k <= i \/ i + 2 ^ o <= j.
Proof using I Hpages Ho.
  intros Hj Hout. pose proof (pow2_pos o ltac:(lia)).
  destruct (Z.lt_ge_cases j i); [left|lia].
  eapply (tile_disj _ _ (inv_tiles _ _ _ I) j i); [done|apply Hpages; lia|done].
Qed.

Lemma tiling_fuse : tiling_ok (block_count st) (tfuse T i o).
Proof using I Hpages Ho Hi Hend Hdiv.
  pose proof (pow2_pos o ltac:(lia)). pose proof (inv_tiles _ _ _ I) as Hok. split.
  - intros j k f [[-> [= -> ->]]|(Hj & _ & _)]%tfuse_Some; [done|by eapply tile_wf].
  - intros p Hp. destruct (decide (i <= p < i + 2 ^ o)) as [Hin|Hout].
    + exists i, o, true. by rewrite tfuse_eq.
    + destruct (tile_cover _ _ Hok p Hp) as (j & k & f & Hj & Hpj). exists j, k, f.
      split; [|done]. rewrite tfuse_out; [done|lia|]. intros Hjin.
      rewrite (Hpages j Hjin) in Hj. injection Hj as <- <-. simpl in Hpj. lia.
  - intros j m k k' f f' [[-> [= -> ->]]|(Hj & ? & ?)]%tfuse_Some
      [[-> [= -> ->]]|(Hm & ? & ?)]%tfuse_Some Hlt; [lia| | |by eapply tile_disj].
    + destruct (fuse_outside _ _ _ Hm); [done| |done].
      pose proof (tile_in Hok _ _ _ Hm). lia.
    + destruct (fuse_outside _ _ _ Hj); [done|done|lia].
Qed.

Lemma fuse_free p : page_free (tfuse T i o) p <-> page_free T p \/ i <= p < i + 2 ^ o.
Proof using I Hpages Ho.
  split.
  - intros (j & k & [[-> [= ->]]|(Hj & _ & _)]%tfuse_Some & ?); [by right|left; by exists j, k].
  - intros [(j & k & Hj & ?)|?]; [|exists i, o; by rewrite tfuse_eq].
    exists j, k. rewrite tfuse_out; [done|lia|]. intros Hin. by rewrite (Hpages j Hin) in Hj.
Qed.

Lemma fuse_step :
  exists st1 st2, write_block st i o true = Ok st1 /\ level_append st1 o i = Ok st2 /\
    pmm_inv st2 (tfuse T i o) None /\ block_count st2 = block_count st /\
    blocks_ptr st2 = blocks_ptr st.
Proof using I Hpages Ho Hi Hend Hdiv.
  pose proof (pow2_pos o ltac:(lia)).
  destruct (proj2 (inv_dom _ _ _ I i)) as [b Hb]; [lia|].
  destruct (inv_levels _ _ _ I o Ho) as (xs & Hxs & Hnd & Hin).
  unfold write_block, level_append. rewrite Hb; simpl.
  do 2 eexists. split_and!; [done|simpl; rewrite Hxs; done| |done|done].
  destruct (write_block_frame st i o true b Hb) as [Hf1 Hf2].
  assert (HTi : T i = Some (0, false)) by (apply Hpages; lia).
  pose proof tiling_fuse as Htil.
  destruct I as [Itil Idom Iaddr Imeta Ilev Ihand]. split; simpl; try done.
  - intros j. by rewrite Hf1.
  - intros j c. by apply (Hf2 (fun j a => a = j * ARCH_PAGE_GRAN)).
  - intros j k f [[-> [= -> ->]]|(Hj & ? & _)]%tfuse_Some _.
    + rewrite lookup_insert_eq. eauto.
    + rewrite lookup_insert_ne by done. by eapply Imeta.
  - assert (Hsame : forall j k, j <> i -> tfuse T i o j = Some (k, true) <-> T j = Some (k, true)).
    { intros j k Hne. destruct (decide (i <= j < i + 2 ^ o)) as [Hjin|]; [|by rewrite tfuse_out by lia].
      rewrite (Hpages j Hjin). split; [|done].
      intros [[-> _]|(_ & _ & ?)]%tfuse_Some; done. }
    apply (levels_ok_set _ T); [done| | |].
    + apply NoDup_snoc; [done|]. rewrite Hin, HTi. naive_solver.
    + intros j. rewrite elem_of_app, list_elem_of_singleton, Hin.
      destruct (decide (j = i)) as [->|]; [rewrite tfuse_eq; naive_solver|].
      rewrite Hsame by done. naive_solver.
    + intros j k Hk. destruct (decide (j = i)) as [->|]; [|by rewrite Hsame].
      rewrite tfuse_eq, HTi. naive_solver.
Qed.

End Fuse.

(** A block of order [k] at [j] could have been larger within [.., E). *)
Definition enlargeable (E j k : Z) : Prop := (2 ^ k | j) /\ j + 2 ^ k <= E.

(** What keeps the greedy loop coalesced: the region [B, E) is bordered by
    pages that are not free, and every block placed so far has maximal order. *)
Record greedy (T : tiling) (B A E o : Z) : Prop := {
  gr_le : B <= A;
  gr_coal : coalesced T;
  gr_left : ~ page_free T (B - 1);
  gr_right : ~ page_free T E;
  gr_max : forall j k, B <= j < A -> T j = Some (k, true) -> k < PMM_MAX_ORDER ->
    ~ enlargeable E j (k + 1);
  gr_next : forall k, o < k <= PMM_MAX_ORDER -> ~ enlargeable E A k
}.

Lemma greedy_fuse st T B A E o :
  pmm_inv st T None -> (forall p, A <= p < E -> T p = Some (0, false)) ->
  0 <= o <= PMM_MAX_ORDER -> A + 2 ^ o <= E -> (2 ^ o | A) ->
  greedy T B A E o -> greedy (tfuse T A o) B (A + 2 ^ o) E PMM_MAX_ORDER.
Proof.
  intros I Hpages Ho Hend Hdiv [Hle Hc Hl Hr Hmax Hnext].
  pose proof (pow2_pos o ltac:(lia)) as Hpos.
  assert (Hp' : forall p, A <= p < A + 2 ^ o -> T p = Some (0, false)) by (intros; apply Hpages; lia).
  split; [lia| | | | |intros; lia].
  - intros j k Hj Hk Hb.
    apply tfuse_Some in Hj as [[-> [= ->]]|(Hj & Hne & Hout)].
    + apply tfuse_Some in Hb as [[E1 _]|(Hb & _ & Hbout)].
      { destruct (lxor_pow2_buddy A o ltac:(lia) Hdiv) as [(? & _ & ?)|(? & _ & ?)]; lia. }
      destruct (lxor_pow2_buddy A o ltac:(lia) Hdiv) as [(c & Ec & Ex)|(c & Ec & Ex)]; rewrite Ex in Hb.
      * destruct (decide (A + 2 ^ o = E)) as [Ee|].
        -- apply Hr. exists (A + 2 ^ o), o. split; [done|]. lia.
        -- rewrite (Hpages (A + 2 ^ o)) in Hb by lia. done.
      * destruct (Z.lt_ge_cases (A - 2 ^ o) B).
        -- apply Hl. exists (A - 2 ^ o), o. split; [done|]. lia.
        -- apply (Hmax (A - 2 ^ o) o); [lia|done|lia|]. rewrite pow2_succ in * by lia.
           split; [exists c; rewrite pow2_succ by lia; lia|rewrite pow2_succ by lia; lia].
    + apply tfuse_Some in Hb as [[E1 [= ->]]|(Hb & _ & _)]; [|by apply (Hc j k)].
      (* the other buddy is the block just placed *)
      destruct (inv_tile _ _ _ _ _ _ I Hj) as (_ & _ & Hdj & _ & _).
      destruct (lxor_pow2_buddy j o ltac:(lia) Hdj) as [(c & Ec & Ex)|(c & Ec & Ex)]; rewrite Ex in E1.
      * destruct (Z.lt_ge_cases j B).
        -- apply Hl. exists j, o. split; [done|]. lia.
        -- apply (Hmax j o); [lia|done|lia|]. rewrite pow2_succ in * by lia.
           split; [exists c; rewrite pow2_succ by lia; lia|rewrite pow2_succ by lia; lia].
      * destruct (decide (j = E)) as [->|].
        -- apply Hr. exists E, o. split; [done|]. lia.
        -- rewrite (Hpages j) in Hj by lia. done.
  - rewrite (fuse_free I Hp' Ho). intros [?|?]; [done|lia].
  - rewrite (fuse_free I Hp' Ho). intros [?|?]; [done|lia].
  - intros j k Hj [[-> [= ->]]|(Hj' & Hne & Hout)]%tfuse_Some Hk.
    + apply Hnext. unfold PMM_MAX_ORDER in *. lia.
    + apply Hmax; [lia|done|done].
Qed.

Lemma carve_spec fuel st T A E o :
  pmm_inv st T None -> 0 <= A <= E -> E <= block_count st -> E * ARCH_PAGE_GRAN + 2 ^ 22 <= 2 ^ 64 ->
  (forall p, A <= p < E -> T p = Some (0, false)) -> 0 <= o <= PMM_MAX_ORDER ->
  (Z.to_nat (11 * (E - A) + o) <= fuel)%nat ->
  exists st' T', carve fuel st (A * ARCH_PAGE_GRAN) (E * ARCH_PAGE_GRAN) o = Ok st' /\
    pmm_inv st' T' None /\ block_count st' = block_count st /\ blocks_ptr st' = blocks_ptr st /\
    (forall p, page_free T' p <-> page_free T p \/ A <= p < E) /\
    (forall j, ~ (A <= j < E) -> T' j = T j) /\
    (forall B, greedy T B A E o -> coalesced T').
Proof.
  unfold ARCH_PAGE_GRAN, PMM_MAX_ORDER.
  revert st T A o. induction fuel as [|fuel IH]; intros st T A o I HA HE Hov Hpages Ho Hf.
  { assert (A = E) as -> by lia. exists st, T. simpl. rewrite Z.eqb_refl.
    split_and!; try done; [intros p; intuition lia|intros B G; apply G]. }
  simpl. destruct (Z.eqb_spec (A * 0x1000) (E * 0x1000)) as [Heq|Hne].
  { assert (A = E) as -> by lia. exists st, T.
    split_and!; try done; [intros p; intuition lia|intros B G; apply G]. }
  rewrite (proj2 (Z.leb_gt 64 o)) by lia. rewrite pagecount_pow2 by lia.
  pose proof (pow2_pos o ltac:(lia)). pose proof (pow2_mono o 10 ltac:(lia)).
  unfold ARCH_PAGE_GRAN. rewrite (u64_small (2 ^ o * 0x1000)) by lia.
  assert (Hmod : (A * 0x1000) mod (2 ^ o * 0x1000) = A mod 2 ^ o * 0x1000).
  { rewrite Z.mul_mod_distr_r by lia. done. }
  assert (Hsum : u64 (A * 0x1000 + 2 ^ o * 0x1000) = (A + 2 ^ o) * 0x1000).
  { rewrite u64_small; change (2 ^ 10) with 1024 in *; lia. }
  rewrite Hsum, Hmod.
  destruct ((((A + 2 ^ o) * 0x1000) >? E * 0x1000) || negb (A mod 2 ^ o * 0x1000 =? 0)) eqn:Et.
  - assert (Hfail : ~ enlargeable E A o).
    { intros [Hd%Z.mod_divide Hle]; [|lia]. rewrite Hd in Et.
      apply orb_true_iff in Et as [Et|Et]; [lia|done]. }
    assert (o <> 0). { intros ->. apply Hfail. split; [apply Z.divide_1_l|simpl; lia]. }
    rewrite (u8_small (o - 1)) by lia.
    destruct (IH st T A (o - 1)) as (st' & T' & ? & ? & ? & ? & ? & ? & Hco); try done; try lia.
    exists st', T'. split_and!; try done. intros B [G1 G2 G3 G4 G5 G6]. apply (Hco B).
    split; try done. intros k Hk. destruct (decide (k = o)) as [->|]; [done|]. apply G6.
    unfold PMM_MAX_ORDER in *. lia.
  - apply orb_false_iff in Et as [Et1 Et2]. apply negb_false_iff, Z.eqb_eq in Et2.
    assert (Hd : (2 ^ o | A)) by (apply Z.mod_divide; lia).
    assert (Hend : A + 2 ^ o <= E) by lia.
    assert (Hp' : forall p, A <= p < A + 2 ^ o -> T p = Some (0, false)) by (intros; apply Hpages; lia).
    destruct (fuse_step I Hp' Ho (proj1 HA) ltac:(lia) Hd) as (st1 & st2 & E1 & E2 & I2 & Hc2 & Hb2).
    rewrite Z.div_mul by done. run E1. run E2.
    destruct (IH st2 (tfuse T A o) (A + 2 ^ o) 10) as (st' & T' & E3 & ? & ? & ? & Hfr & Hot & Hco);
      try done; try lia.
    { intros p Hp. rewrite tfuse_out by lia. apply Hpages. lia. }
    exists st', T'. split_and!; try done; try congruence.
    + intros p. rewrite Hfr, (fuse_free I Hp' Ho). intuition lia.
    + intros j Hj. rewrite Hot by lia. apply tfuse_out; lia.
    + intros B G. apply (Hco B). eapply greedy_fuse; eauto.
Qed.

(** What the Limine protocol promises of the map the bootloader hands over:
    usable entries are page aligned, ordered and do not overlap.  The array of
    block descriptors has to fit in one of them. *)
Definition usable_entries (es : list memmap_entry) : list memmap_entry :=
  filter (fun e => usable e = true) es.

Definition entry_end (e : memmap_entry) : Z := base e + mlength e.

Definition memmap_pages (es : list memmap_entry) : Z :=
  match last_usable_entry es with Some e => entry_end e / ARCH_PAGE_GRAN | None => 0 end.

(** Pages taken by the array. *)
Definition array_pages (count : Z) : Z :=
  (count * sizeof_pmm_block + (ARCH_PAGE_GRAN - 1)) / ARCH_PAGE_GRAN.

Record memmap_ok (HHDM : Z) (es : list memmap_entry) : Prop := {
  mm_wf : forall e, e ∈ usable_entries es ->
    0 <= base e /\ 0 < mlength e /\ (ARCH_PAGE_GRAN | base e) /\ (ARCH_PAGE_GRAN | mlength e) /\
    entry_end e + 2 ^ 22 <= 2 ^ 64 /\ entry_end e + HHDM < 2 ^ 64;
  mm_sorted : StronglySorted (fun a b => entry_end a <= base b) (usable_entries es);
  mm_hhdm : 0 < HHDM;
  mm_array : exists e, e ∈ usable_entries es /\ memmap_pages es * sizeof_pmm_block <= mlength e
}.

(** Neighbouring usable entries do not touch. *)
Definition memmap_separated (es : list memmap_entry) : Prop :=
  StronglySorted (fun a b => entry_end a < base b) (usable_entries es).

(** The pages of [e] that initialisation frees; [bb] is where the array is. *)
Definition entry_start (bb arr : Z) (e : memmap_entry) : Z :=
  base e / ARCH_PAGE_GRAN + (if base e =? bb then arr else 0).

Definition entry_frees (bb arr : Z) (e : memmap_entry) (p : Z) : Prop :=
  entry_start bb arr e <= p < entry_end e / ARCH_PAGE_GRAN.

Lemma init_entry_spec HHDM st T e bb :
  let arr := array_pages (block_count st) in
  let A := entry_start bb arr e in let E := entry_end e / ARCH_PAGE_GRAN in
  pmm_inv st T None -> blocks_ptr st = bb + HHDM -> 0 <= bb -> bb + HHDM < 2 ^ 64 -> 0 < HHDM ->
  0 <= block_count st <= 2 ^ 52 ->
  usable e = true -> 0 <= base e -> 0 < mlength e ->
  (ARCH_PAGE_GRAN | base e) -> (ARCH_PAGE_GRAN | mlength e) -> entry_end e + 2 ^ 22 <= 2 ^ 64 ->
  entry_end e <= block_count st * ARCH_PAGE_GRAN ->
  (base e = bb -> block_count st * sizeof_pmm_block <= mlength e) ->
  (forall p, base e / ARCH_PAGE_GRAN <= p < E -> T p = Some (0, false)) ->
  exists st' T', init_entry HHDM st e = Ok st' /\ pmm_inv st' T' None /\
    block_count st' = block_count st /\ blocks_ptr st' = blocks_ptr st /\
    (forall p, page_free T' p <-> page_free T p \/ entry_frees bb arr e p) /\
    (forall j, ~ (base e / ARCH_PAGE_GRAN <= j < E) -> T' j = T j) /\
    (coalesced T -> ~ page_free T (base e / ARCH_PAGE_GRAN - 1) -> ~ page_free T E -> coalesced T').
Proof.
  intros arr A E I Hptr Hbb Hbbov Hh Hcnt Hus Hb0 Hlen [x Hx] [y Hy] Hov Hend Harr Hpages.
  assert (Hbase : base e / ARCH_PAGE_GRAN = x) by (rewrite Hx; by apply Z.div_mul).
  assert (HE : E = x + y).
  { unfold E, entry_end. rewrite Hx, Hy, <- Z.mul_add_distr_r. by apply Z.div_mul. }
  unfold entry_end, ARCH_PAGE_GRAN, sizeof_pmm_block in *.
  assert (Harr0 : 0 <= arr) by (unfold arr, array_pages, ARCH_PAGE_GRAN, sizeof_pmm_block; apply Z.div_pos; lia).
  assert (HA : x <= A <= E /\ A = x + (if base e =? bb then arr else 0)).
  { unfold A, entry_start, ARCH_PAGE_GRAN. rewrite Hbase. split; [|done].
    destruct (Z.eqb_spec (base e) bb) as [Hbe|]; [|lia]. specialize (Harr Hbe).
    assert (arr <= y); [|lia]. unfold arr, array_pages, ARCH_PAGE_GRAN, sizeof_pmm_block.
    apply Z.lt_succ_r, Z.div_lt_upper_bound; lia. }
  destruct HA as [HA HAeq].
  assert (Hstart : (if base e =? u64 (blocks_ptr st - HHDM)
           then u64 (base e + u64 (u64 (block_count st * sizeof_pmm_block) + (ARCH_PAGE_GRAN - 1))
                     / ARCH_PAGE_GRAN * ARCH_PAGE_GRAN)
           else base e) = A * ARCH_PAGE_GRAN).
  { rewrite Hptr, HAeq. replace (bb + HHDM - HHDM) with bb by lia. rewrite (u64_small bb) by lia.
    unfold ARCH_PAGE_GRAN, sizeof_pmm_block.
    rewrite (u64_small (block_count st * 32)) by lia.
    destruct (Z.eqb_spec (base e) bb) as [Hbe|]; [|lia]. specialize (Harr Hbe).
    rewrite (u64_small (block_count st * 32 + _)) by lia.
    change ((block_count st * 32 + (4096 - 1)) / 4096) with arr. rewrite u64_small; lia. }
  destruct (carve_spec (carve_fuel e) st T A E PMM_MAX_ORDER) as
    (st' & T' & Ec & I' & Hc' & Hp' & Hf & Ho & Hco); try done;
    unfold ARCH_PAGE_GRAN, PMM_MAX_ORDER in *; try lia.
  { intros p Hp. apply Hpages. lia. }
  { unfold carve_fuel, ARCH_PAGE_GRAN. rewrite Hy, Z.div_mul by done. lia. }
  exists st', T'. split_and!; try done.
  - unfold init_entry, ARCH_PAGE_GRAN. rewrite Hus. cbn [negb]. rewrite Hstart.
    rewrite (u64_small (base e + mlength e)) by lia.
    replace (base e + mlength e) with (E * 4096) by lia. done.
  - intros j Hj. apply Ho. lia.
  - intros Hc Hl Hr. apply (Hco x). split; try done; try lia.
    + by rewrite Hbase in Hl.
    + intros j k Hj HT. rewrite Hpages in HT by lia. done.
    + intros k. unfold PMM_MAX_ORDER. lia.
Qed.

Section InitEntries.
Variables (HHDM bb count : Z).
Hypotheses (Hh : 0 < HHDM) (Hbb : 0 <= bb) (Hbbov : bb + HHDM < 2 ^ 64)
  (Hcount : 0 <= count <= 2 ^ 52).

(** An entry the loop can process. *)
Record entry_ok (e : memmap_entry) : Prop := {
  eo_base : 0 <= base e;
  eo_len : 0 < mlength e;
  eo_dbase : (ARCH_PAGE_GRAN | base e);
  eo_dlen : (ARCH_PAGE_GRAN | mlength e);
  eo_ov : entry_end e + 2 ^ 22 <= 2 ^ 64;
  eo_end : entry_end e <= count * ARCH_PAGE_GRAN;
  eo_array : base e = bb -> count * sizeof_pmm_block <= mlength e
}.

Lemma entry_pages e : entry_ok e ->
  exists x y, base e = x * ARCH_PAGE_GRAN /\ entry_end e = y * ARCH_PAGE_GRAN /\ 0 <= x < y /\
    base e / ARCH_PAGE_GRAN = x /\ entry_end e / ARCH_PAGE_GRAN = y.
Proof using Type.
  intros [Hb Hl [x Hx] [y Hy] _ _ _]. exists x, (x + y). unfold entry_end.
  rewrite Hx, Hy, <- Z.mul_add_distr_r. rewrite !Z.div_mul by done.
  unfold ARCH_PAGE_GRAN in *. split_and!; lia.
Qed.

Lemma init_entries_spec es st T :
  let arr := array_pages count in
  pmm_inv st T None -> blocks_ptr st = bb + HHDM -> block_count st = count ->
  (forall e, e ∈ usable_entries es -> entry_ok e) ->
  StronglySorted (fun a b => entry_end a <= base b) (usable_entries es) ->
  (forall e p, e ∈ usable_entries es ->
     base e / ARCH_PAGE_GRAN <= p < entry_end e / ARCH_PAGE_GRAN -> T p = Some (0, false)) ->
  exists st' T', init_entries HHDM st es = Ok st' /\ pmm_inv st' T' None /\
    block_count st' = count /\
    (forall p, page_free T' p <->
       page_free T p \/ exists e, e ∈ usable_entries es /\ entry_frees bb arr e p) /\
    (memmap_separated es -> coalesced T ->
     (forall e p, e ∈ usable_entries es -> base e / ARCH_PAGE_GRAN - 1 <= p -> ~ page_free T p) ->
     coalesced T').
Proof using Hh Hbb Hbbov Hcount.
  intros arr. revert st T. induction es as [|e es IH]; intros st T I Hptr Hcnt Hok Hsort Hpages.
  { exists st, T. split_and!; try done. intros p. split; [by left|].
    intros [?|(? & []%not_elem_of_nil & _)]; done. }
  unfold memmap_separated in *. simpl. destruct (usable e) eqn:Hus.
  2:{ assert (Hu : usable_entries (e :: es) = usable_entries es)
        by (unfold usable_entries; rewrite filter_cons_False; [done|by rewrite Hus]).
      rewrite Hu in *. unfold init_entry. rewrite Hus. cbn [negb]. go. by apply IH. }
  assert (Hu : usable_entries (e :: es) = e :: usable_entries es)
    by (unfold usable_entries; by rewrite filter_cons_True).
  rewrite Hu in *.
  apply StronglySorted_inv in Hsort as [Hsort Hlt]. rewrite Forall_forall in Hlt.
  pose proof (Hok e ltac:(set_solver)) as He. pose proof He as [Eb El Edb Edl Eov Een Ear].
  destruct (init_entry_spec HHDM st T e bb) as (st1 & T1 & E1 & I1 & Hc1 & Hp1 & Hf1 & Ho1 & Hco1);
    rewrite ?Hcnt; try done.
  { intros p Hp. apply (Hpages e); [set_solver|done]. }
  run E1. destruct (entry_pages e He) as (x & y & Hx & Hy & Hxy & Ex & Ey).
  assert (Hlater : forall e' x', e' ∈ usable_entries es -> base e' = x' * ARCH_PAGE_GRAN -> y <= x').
  { intros e' x' He' Hx'. specialize (Hlt e' He'). rewrite Hx', Hy in Hlt.
    unfold ARCH_PAGE_GRAN in Hlt. lia. }
  destruct (IH st1 T1) as (st' & T' & E' & I' & Hc' & Hf' & Hco'); try done; try congruence.
  { intros e' He'. apply Hok. set_solver. }
  { intros e' p He' Hp. rewrite Ho1; [apply (Hpages e'); [set_solver|done]|].
    destruct (entry_pages e') as (x' & y' & Hx' & _ & _ & Ex' & _); [apply Hok; set_solver|].
    pose proof (Hlater e' x' He' Hx'). lia. }
  rewrite Hcnt in Hf1.
  exists st', T'. split_and!; try done.
  - intros p. rewrite Hf', Hf1. split.
    + intros [[?|?]|(e' & ? & ?)]; [by left|right; exists e; set_solver|right; exists e'; set_solver].
    + intros [?|(e' & [->|?]%elem_of_cons & ?)]; [by left; left|by left; right|right; by exists e'].
  - intros [Hsep Hgap]%StronglySorted_inv Hc Hnf.
    rewrite Forall_forall in Hgap.
    apply Hco'; [done| |].
    + apply Hco1; [done|apply (Hnf e); [set_solver|lia]|apply (Hnf e); [set_solver|lia]].
    + intros e' p He' Hp. rewrite Hf1. intros [Hfree|Hin].
      * apply (Hnf e' p); [set_solver|done|done].
      * unfold entry_frees in Hin. rewrite Ey in Hin.
        destruct (entry_pages e') as (x' & y' & Hx' & _ & _ & Ex' & _); [apply Hok; set_solver|].
        specialize (Hgap e' He'). rewrite Hx', Hy in Hgap. unfold ARCH_PAGE_GRAN in *. lia.
Qed.

End InitEntries.

(** The state before any page is freed: one-page blocks, all in use. *)
Definition tiling0 (count : Z) : tiling :=
  fun i => if (0 <=? i) && (i <? count) then Some (0, false) else None.

Lemma tiling0_Some count i v : tiling0 count i = Some v <-> 0 <= i < count /\ v = (0, false).
Proof.
  unfold tiling0. destruct (Z.leb_spec 0 i), (Z.ltb_spec i count); simpl; naive_solver lia.
Qed.

Lemma init_blocks_lookup count i b :
  init_blocks count !! i = Some b <-> 0 <= i < count /\ b = PBlock (u64 (ARCH_PAGE_GRAN * i)) 0 false.
Proof.
  unfold init_blocks. rewrite <- elem_of_list_to_map.
  - rewrite list_elem_of_fmap. setoid_rewrite elem_of_seqZ. naive_solver lia.
  - rewrite <- list_fmap_compose. change (_ ∘ _) with (@id Z). rewrite list_fmap_id. apply NoDup_seqZ.
Qed.

Lemma empty_levels_lookup o : 0 <= o <= PMM_MAX_ORDER -> empty_levels !! o = Some [].
Proof.
  intros Ho. unfold empty_levels. apply elem_of_list_to_map_1.
  - rewrite <- list_fmap_compose. change (_ ∘ _) with (@id Z). rewrite list_fmap_id. apply NoDup_seqZ.
  - apply list_elem_of_fmap. exists o. split; [done|]. apply elem_of_seqZ. lia.
Qed.

Lemma init_state_inv ptr count : count * ARCH_PAGE_GRAN <= 2 ^ 64 ->
  pmm_inv (MkPmm ptr (init_blocks count) count empty_levels) (tiling0 count) None.
Proof.
  intros Hc. unfold ARCH_PAGE_GRAN in Hc. split; simpl.
  - split.
    + intros i o f [? [= -> ->]]%tiling0_Some. unfold PMM_MAX_ORDER. simpl.
      split_and!; try lia. apply Z.divide_1_l.
    + intros p Hp. exists p, 0, false. rewrite tiling0_Some. split; [done|]. simpl. lia.
    + intros i j o o' f f' [? [= -> ->]]%tiling0_Some [? [= -> ->]]%tiling0_Some ?. simpl. lia.
  - intros i. split.
    + intros [b [? _]%init_blocks_lookup]. done.
    + intros ?. eexists. by apply init_blocks_lookup.
  - intros i b [? ->]%init_blocks_lookup. simpl. unfold ARCH_PAGE_GRAN. rewrite u64_small; lia.
  - intros i o f [? [= -> ->]]%tiling0_Some _. eexists. split; [by apply init_blocks_lookup|done].
  - intros o Ho. exists []. rewrite empty_levels_lookup by done. split_and!; [done|constructor|].
    intros i. split; [by intros []%not_elem_of_nil|]. intros [_ [=]]%tiling0_Some.
  - done.
Qed.

Lemma tiling0_not_free count p : ~ page_free (tiling0 count) p.
Proof. intros (i & o & [_ [=]]%tiling0_Some & _). Qed.

Lemma sorted_last (l : list memmap_entry) e le :
  StronglySorted (fun a b => entry_end a <= base b) l -> last l = Some le -> e ∈ l ->
  e = le \/ entry_end e <= base le.
Proof.
  induction l as [|a l IH]; [done|]. intros [Hs Ha]%StronglySorted_inv Hl He.
  rewrite Forall_forall in Ha. apply elem_of_cons in He as [->|He].
  - destruct l as [|b l]; [left; simpl in Hl; naive_solver|]. right. apply Ha.
    rewrite last_cons_cons in Hl. by apply last_Some_elem_of in Hl.
  - apply IH; [done| |done]. destruct l; [by apply not_elem_of_nil in He|]. done.
Qed.

Lemma sorted_base_inj (l : list memmap_entry) e1 e2 :
  StronglySorted (fun a b => entry_end a <= base b) l -> (forall e, e ∈ l -> 0 < mlength e) ->
  e1 ∈ l -> e2 ∈ l -> base e1 = base e2 -> e1 = e2.
Proof.
  unfold entry_end. induction l as [|a l IH]; [intros _ _ []%not_elem_of_nil|].
  intros [Hs Ha]%StronglySorted_inv Hl. rewrite Forall_forall in Ha.
  intros [->|H1]%elem_of_cons [->|H2]%elem_of_cons E.
  - done.
  - pose proof (Ha _ H2). pose proof (Hl a ltac:(set_solver)). lia.
  - pose proof (Ha _ H1). pose proof (Hl a ltac:(set_solver)). lia.
  - apply IH; try done. intros e He. apply Hl. set_solver.
Qed.

Lemma blocks_entry_found count es e :
  0 <= count * sizeof_pmm_block < 2 ^ 64 -> e ∈ usable_entries es ->
  count * sizeof_pmm_block <= mlength e ->
  exists eb, blocks_entry count es = Some eb /\ eb ∈ usable_entries es /\
    count * sizeof_pmm_block <= mlength eb.
Proof.
  intros Hov He Hle. unfold blocks_entry, usable_entries in *. rewrite u64_small by done.
  apply list_elem_of_filter in He as [He Hin].
  destruct (filter _ es) as [|eb l] eqn:Ef.
  - exfalso. assert (e ∈ ([] : list memmap_entry)) as []%not_elem_of_nil.
    rewrite <- Ef. apply list_elem_of_filter. done.
  - exists eb. assert (Heb : eb ∈ eb :: l) by set_solver. rewrite <- Ef in Heb.
    apply list_elem_of_filter in Heb as [[? ?] ?].
    split_and!; [done|by apply list_elem_of_filter|done].
Qed.

Lemma pmm_init_establishes HHDM es :
  memmap_ok HHDM es ->
  exists st T eb, pmm_init HHDM es = Ok st /\ pmm_inv st T None /\
    block_count st = memmap_pages es /\
    eb ∈ usable_entries es /\ block_count st * sizeof_pmm_block <= mlength eb /\
    (forall p, page_free T p <->
       exists e, e ∈ usable_entries es /\ entry_frees (base eb) (array_pages (block_count st)) e p) /\
    (memmap_separated es -> coalesced T).
Proof.
  intros [Hwf Hsort Hh (e0 & He0 & Harr0)].
  unfold memmap_pages in Harr0 |- *. unfold last_usable_entry in *.
  destruct (last (filter _ es)) as [le|] eqn:Hlast.
  2:{ exfalso. apply last_None in Hlast. unfold usable_entries in He0. rewrite Hlast in He0.
      by apply not_elem_of_nil in He0. }
  pose proof (last_Some_elem_of _ _ Hlast) as Hle.
  destruct (Hwf le Hle) as (Lb & Ll & [x Lx] & [y Ly] & Lov & Lh).
  set (count := entry_end le / ARCH_PAGE_GRAN) in *.
  assert (Hcount : entry_end le = count * ARCH_PAGE_GRAN).
  { unfold count, entry_end. rewrite Lx, Ly, <- Z.mul_add_distr_r. by rewrite Z.div_mul. }
  assert (Hc : 0 <= count <= 2 ^ 52).
  { unfold entry_end, ARCH_PAGE_GRAN in *. lia. }
  destruct (blocks_entry_found count es e0) as (eb & Eeb & Heb & Hebl); try done.
  { unfold sizeof_pmm_block. lia. }
  destruct (Hwf eb Heb) as (Bb & Bl & _ & _ & _ & Bh). unfold entry_end in Bh.
  destruct (init_entries_spec HHDM (base eb) count Hh Bb ltac:(lia) Hc es
    (MkPmm (base eb + HHDM) (init_blocks count) count empty_levels) (tiling0 count))
    as (st & T & E & I & Hcnt & Hf & Hco); try done.
  { apply init_state_inv. unfold ARCH_PAGE_GRAN. lia. }
  { intros e He. destruct (Hwf e He) as (?&?&?&?&?&?). split; try done.
    - rewrite <- Hcount. destruct (sorted_last _ _ _ Hsort Hlast He) as [->|?]; [lia|].
      unfold entry_end in *. lia.
    - intros Hb. by rewrite (sorted_base_inj _ e eb Hsort (fun e He => proj1 (proj2 (Hwf e He))) He Heb Hb). }
  { intros e p He Hp. apply tiling0_Some. split; [|done].
    destruct (Hwf e He) as (?&?&?&?&?&?). split; [etrans; [|apply Hp]; apply Z.div_pos; unfold ARCH_PAGE_GRAN; lia|].
    eapply Z.lt_le_trans; [apply Hp|]. unfold count. apply Z.div_le_mono; [done|].
    destruct (sorted_last _ _ _ Hsort Hlast He) as [->|?]; unfold entry_end in *; lia. }
  exists st, T, eb. rewrite Hcnt. split_and!; try done.
  - unfold pmm_init, last_usable_entry. rewrite Hlast. go.
    rewrite (u64_small (base le + mlength le)) by (unfold entry_end in *; lia).
    fold (entry_end le). fold count. rewrite Eeb. rewrite (u64_small (base eb + HHDM)) by lia.
    rewrite (proj2 (Z.eqb_neq _ NULL)) by (unfold NULL; lia). cbn [negb]. go. done.
  - intros p. rewrite Hf. split; [intros [?%tiling0_not_free|?]; done|by right].
  - intros Hsep. apply Hco; [done| |intros; apply tiling0_not_free].
    intros i o [_ [=]]%tiling0_Some.
Qed.

(** C37: from a memory map as the boot protocol promises it, [pmm_init]
    terminates and establishes the buddy invariant: the managed pages end with
    the last usable entry, the free pages are exactly those of the usable
    entries apart from the ones that hold the array of block descriptors
    itself, and when usable entries do not touch, free blocks are maximally
    merged. *)
Theorem pmm_init_correct HHDM es :
  memmap_ok HHDM es ->
  exists st T eb, pmm_init HHDM es = Ok st /\ pmm_inv st T None /\
    block_count st = memmap_pages es /\
    eb ∈ usable_entries es /\ block_count st * sizeof_pmm_block <= mlength eb /\
    (forall p, page_free T p <->
       exists e, e ∈ usable_entries es /\ entry_frees (base eb) (array_pages (block_count st)) e p) /\
    (memmap_separated es -> coalesced T).
Proof. apply pmm_init_establishes. Qed.

(** ** Page counts and orders *)

(** [pmm_pagecount_to_order] gives the least order whose block holds the
    requested number of pages. *)
Theorem pagecount_to_order_least pages :
  1 <= pages < 2 ^ 64 ->
  exists o, pmm_pagecount_to_order pages = Ok o /\ 0 <= o <= 64 /\
    pages <= 2 ^ o /\ (forall o', 0 <= o' < o -> 2 ^ o' < pages).
Proof.
  intros Hp. unfold pmm_pagecount_to_order. destruct (Z.eqb_spec pages 1) as [->|Hne].
  { exists 0. split_and!; try done; lia. }
  rewrite u64_small by lia. unfold clzll.
  rewrite (proj2 (Z.eqb_neq (pages - 1) 0)) by lia. go.
  pose proof (Z.log2_spec (pages - 1) ltac:(lia)) as [Hlo Hhi].
  pose proof (Z.log2_nonneg (pages - 1)). unfold Z.succ in Hhi.
  assert (Z.log2 (pages - 1) < 64) by (apply Z.log2_lt_pow2; lia).
  exists (Z.log2 (pages - 1) + 1). split_and!; [|lia|lia|lia|].
  - rewrite u8_small; f_equal; lia.
  - intros o' Ho'. pose proof (pow2_mono o' (Z.log2 (pages - 1)) ltac:(lia)). lia.
Qed.

(** ** The interface to the other memory managers *)

Section PageAllocatorInstance.
Variable HHDM : Z.
Hypothesis Hhhdm : 2 ^ 46 <= HHDM.

(** Physical addresses fit in the 52 bits of the architecture; free pages and
    pages handed out are [usable], those the memory map gives to the kernel. *)
Variable usable : Z -> Prop.

Definition pmm_pages_state (st : pmm) (G : gset Z) : Prop :=
  exists T, pmm_inv st T None /\ block_count st * ARCH_PAGE_GRAN <= 2 ^ 46 /\ (forall p, page_free T p -> usable p) /\
    forall a, a ∈ G -> exists i, a = i * ARCH_PAGE_GRAN /\ T i = Some (0, false) /\ usable i.

Lemma pmm_block_count st o a st' : pmm_alloc o st = Ok (a, st') -> block_count st' = block_count st.
Proof using Type.
  assert (Hw : forall s i p f s', write_block s i p f = Ok s' -> block_count s' = block_count s).
  { unfold write_block. intros. by inv_ok. }
  assert (Ha : forall s i p s', level_append s i p = Ok s' -> block_count s' = block_count s).
  { unfold level_append. intros. by inv_ok. }
  assert (Hs : forall n s b i s', split_down n s b i = Ok s' -> block_count s' = block_count s).
  { induction n as [|n IH]; simpl; intros; inv_ok; [done|].
    etrans; [by eapply IH|]. etrans; [by eapply Ha|]. by eapply Hw. }
  unfold pmm_alloc. intros. inv_ok. etrans; [by eapply Hw|]. etrans; [by eapply Hs|].
  match goal with H : level_remove _ _ _ = Ok _ |- _ => unfold level_remove in H end. by inv_ok.
Qed.

Lemma pmm_free_count a st st' : pmm_free HHDM a st = Ok st' -> block_count st' = block_count st.
Proof using Type.
  assert (Hm : forall n s i o i' o' s', merge_up n s i o = Ok (i', o', s') -> block_count s' = block_count s).
  { induction n as [|n IH]; simpl; intros s i o i' o' s' H; inv_ok; [done|].
    destruct (_ >=? _); inv_ok; [done|]. destruct (_ && _); inv_ok; [|done].
    etrans; [by eapply IH|].
    match goal with H : level_remove _ _ _ = Ok _ |- _ => unfold level_remove in H end. by inv_ok. }
  unfold pmm_free. intros. inv_ok.
  match goal with H : level_append _ _ _ = Ok _ |- _ => unfold level_append in H end.
  match goal with H : write_block _ _ _ _ = Ok _ |- _ => unfold write_block in H end.
  inv_ok. by eapply Hm.
Qed.

#[refine, global] Instance pmm_pages : PageAllocator pmm := {|
  page_alloc := pmm_alloc 0;
  page_release := pmm_free HHDM;
  pa_state := pmm_pages_state
|}.
Proof using Hhhdm usable.
  - intros st G (T & I & Hlim & Hus & HG).
    destruct (pmm_alloc_cases st T 0 I) as [(i & st' & T' & E & I' & [Pb Pw Pf Pu Pc])|[E _]];
      [unfold PMM_MAX_ORDER; lia| |by left].
    right. exists (i * ARCH_PAGE_GRAN), st'. pose proof (pmm_block_count _ _ _ _ E) as Hcnt.
    pose proof (inv_tile _ _ _ _ _ _ I' Pb) as (Hi0 & _ & _ & Hib & _). simpl in Hib.
    assert (Hfresh : T i <> Some (0, false)).
    { intros Hi. destruct (Pw i) as (j & k & Hj & Hin); [simpl; lia|].
      destruct (tile_unique (inv_tiles _ _ _ I) i j 0 k false true i) as (_ & _ & ?);
        [done|done|simpl; lia|done|done]. }
    unfold ARCH_PAGE_GRAN in *.
    split_and!; [done| | |lia|lia|by exists i].
    + exists T'. unfold ARCH_PAGE_GRAN. split_and!; [done|lia|by intros p [Hp _]%Pf; apply Hus|].
      intros a [->%elem_of_singleton|(j & -> & Hj & Hu)%HG]%elem_of_union.
      * exists i. split_and!; [done|done|]. apply Hus, Pw. simpl. lia.
      * exists j. split_and!; [done| |done]. apply Pu. by left.
    + intros (j & Ej & Hj & _)%HG. assert (i = j) as -> by lia. done.
  - intros st G a (T & I & Hlim & Hus & HG) Ha. destruct (HG a Ha) as (i & -> & Hi & Hui).
    pose proof (inv_tile _ _ _ _ _ _ I Hi) as (Hi0 & _ & _ & Hib & _). simpl in Hib.
    destruct (pmm_free_step HHDM st T i 0 I Hi) as (st' & T' & E & I' & [Ff Fu _]);
      [unfold ARCH_PAGE_GRAN in *; lia|].
    exists st'. split; [done|]. exists T'. rewrite (pmm_free_count _ _ _ E).
    split_and!; [done|done| |].
    { intros p [Hp|Hp]%Ff; [by apply Hus|]. simpl in Hp. by replace p with i by lia. }
    intros b [Hb Hne]%elem_of_difference.
    destruct (HG b Hb) as (j & -> & Hj & Huj). exists j. split_and!; [done| |done]. apply Fu. split; [done|].
    intros ->. set_solver.
  - intros st G G' (T & I & Hlim & Hus & HG) Hsub. exists T. split_and!; try done.
    intros a Ha. apply HG. set_solver.
Defined.

(** Blocks of every order. *)
#[refine, global] Instance pmm_blocks : PageBlocks pmm := {|
  pb_alloc := pmm_alloc;
  pb_release := pmm_free HHDM
|}.
Proof using Hhhdm usable.
  intros st G o (T & I & Hlim & Hus & HG) Ho.
  destruct (pmm_alloc_cases st T o I Ho) as [(i & st' & T' & E & I' & [Pb Pw Pf Pu Pc])|[E _]]; [right|by left].
  pose proof (inv_tile _ _ _ _ _ _ I' Pb) as (Hi0 & _ & _ & Hib & _). pose proof (pmm_block_count _ _ _ _ E) as Hcnt.
  pose proof (pow2_pos o ltac:(lia)) as Hpos. rewrite Hcnt in Hib.
  assert (Hend : (i + 2 ^ o) * ARCH_PAGE_GRAN <= 2 ^ 46) by (etrans; [|exact Hlim]; by apply Z.mul_le_mono_nonneg_r).
  assert (i * ARCH_PAGE_GRAN + block_size o <= 2 ^ 46) by (unfold block_size; rewrite <- Z.mul_add_distr_r; done).
  destruct (pmm_free_step HHDM st' T' i o I' Pb) as (st'' & T'' & E' & I'' & [Ff Fu _]).
  { assert (0 < block_size o) by (unfold block_size, ARCH_PAGE_GRAN; lia). lia. }
  exists (i * ARCH_PAGE_GRAN), st', st''.
  assert (Hout : forall j, T j = Some (0, false) -> ~ i <= j < i + 2 ^ o).
  { intros j Hj Hin. destruct (Pw j Hin) as (t & k & Ht & Hjt).
    destruct (tile_unique (inv_tiles _ _ _ I) j t 0 k false true j) as (_ & _ & ?); [done|done|simpl; lia|done|done]. }
  split; [done|]. split.
  { exists T'. rewrite Hcnt. split; [done|]. split; [done|]. split; [by intros p [Hp _]%Pf; apply Hus|].
    intros a (j & -> & Hj & Hu)%HG. exists j. split_and!; [done| |done]. apply Pu. by left. }
  split; [done|]. split.
  { exists T''. rewrite (pmm_free_count _ _ _ E'), Hcnt. split; [done|]. split; [done|]. split.
    { intros p [[Hp _]%Pf|Hp]%Ff; apply Hus; [done|by apply Pw]. }
    intros a (j & -> & Hj & Hu)%HG. exists j. split_and!; [done| |done].
    apply Fu. split; [apply Pu; by left|]. intros ->. apply (Hout i Hj). lia. }
  split; [split; [unfold ARCH_PAGE_GRAN; lia|split; [done|by exists i]]|].
  intros a (j & -> & Hj & _)%HG. pose proof (Hout j Hj). unfold block_size.
  assert (j + 1 <= i \/ i + 2 ^ o <= j) as [Hlt|Hge] by lia; [left|right].
  - replace (j * ARCH_PAGE_GRAN + ARCH_PAGE_GRAN) with ((j + 1) * ARCH_PAGE_GRAN) by lia. by apply Z.mul_le_mono_nonneg_r.
  - rewrite <- Z.mul_add_distr_r. by apply Z.mul_le_mono_nonneg_r.
Defined.

End PageAllocatorInstance.

(** ** Concrete instances *)

Definition ex_HHDM : Z := 0xffff800000000000.

Lemma ex_usable e : e ∈ usable_entries ex_memmap <-> e = Entry 0x1000 0x3ff000 true.
Proof. change (e ∈ [Entry 0x1000 0x3ff000 true] <-> e = Entry 0x1000 0x3ff000 true). set_solver. Qed.

Lemma ex_memmap_ok : memmap_ok ex_HHDM ex_memmap.
Proof.
  split.
  - intros e ->%ex_usable.
    unfold entry_end, ARCH_PAGE_GRAN, ex_HHDM; simpl. split_and!; try lia.
    + by exists 1.
    + by exists 0x3ff.
  - repeat constructor.
  - done.
  - exists (Entry 0x1000 0x3ff000 true). split; [by apply ex_usable|vm_compute; done].
Qed.

(** The allocator after [pmm_init]: pages 9 to 1023 are free. *)
Lemma ex_pmm : exists st T, pmm_init ex_HHDM ex_memmap = Ok st /\ pmm_inv st T None /\ coalesced T /\
  block_count st = 1024 /\ (forall p, page_free T p <-> 9 <= p < 1024).
Proof.
  destruct (pmm_init_establishes _ _ ex_memmap_ok) as (st & T & eb & E & I & Hc & Heb & _ & Hf & Hco).
  apply ex_usable in Heb as ->.
  exists st, T. split; [exact E|]. split; [exact I|]. split; [apply Hco; repeat constructor|].
  split; [rewrite Hc; vm_compute; reflexivity|].
  rewrite Hc in Hf. intros p. rewrite Hf. split.
  - intros (e & ->%ex_usable & Hp).
    change (9 <= p < 1024) in Hp. exact Hp.
  - intros Hp. exists (Entry 0x1000 0x3ff000 true). split; [by apply ex_usable|].
    change (9 <= p < 1024). exact Hp.
Qed.

Lemma pmm_alloc_correct_witness : exists st T,
  pmm_inv st T None /\
  ((exists i st' T', pmm_alloc 3 st = Ok (i * ARCH_PAGE_GRAN, st') /\
      pmm_inv st' T' None /\ alloc_post T T' i 3) \/
   (pmm_alloc 3 st = Panic /\ forall j k, T j = Some (k, true) -> k < 3)).
Proof.
  destruct ex_pmm as (st & T & _ & I & _). exists st, T. split; [exact I|].
  apply (pmm_alloc_correct st T 3 I). unfold PMM_MAX_ORDER. lia.
Defined.

Lemma pmm_alloc_complete_witness : exists st,
  pmm_init ex_HHDM ex_memmap = Ok st /\ returns (pmm_alloc 9 st).
Proof.
  destruct ex_pmm as (st & T & E & I & Hc & _ & Hf). exists st. split; [exact E|].
  apply (pmm_alloc_complete st T 9 512 I Hc).
  - unfold PMM_MAX_ORDER. lia.
  - lia.
  - by exists 1.
  - intros q Hq. change (2 ^ 9) with 512 in Hq. apply Hf. lia.
Defined.

(** A state with a one-page block in use at a known place. *)
Lemma ex_pmm_used : exists st T i, pmm_inv st T None /\ T i = Some (0, false) /\ i < 1024.
Proof.
  destruct ex_pmm as (st & T & _ & I & Hc & Hn & Hf).
  destruct (pmm_alloc_cases st T 0 I) as [(i & st' & T' & E' & I' & [Pb Pw Pf Pu Pc])|[_ Hnone]].
  - unfold PMM_MAX_ORDER. lia.
  - exists st', T', i. split_and!; [done|done|].
    destruct (proj1 (Hf i)) as [_ ?]; [apply Pw; simpl; lia|done].
  - exfalso. destruct (proj2 (Hf 9)) as (i & o & Hi & _); [lia|].
    pose proof (inv_tile _ _ _ _ _ _ I Hi). apply Hnone in Hi. lia.
Qed.

Lemma pmm_free_correct_witness : exists st T i,
  pmm_inv st T None /\ T i = Some (0, false) /\
  exists st' T', pmm_free ex_HHDM (i * ARCH_PAGE_GRAN) st = Ok st' /\
    pmm_inv st' T' None /\ free_post T T' i 0.
Proof.
  destruct ex_pmm_used as (st & T & i & I & Hi & Hlt). exists st, T, i.
  split; [exact I|]. split; [exact Hi|].
  apply (pmm_free_correct ex_HHDM st T i 0 I Hi). unfold ARCH_PAGE_GRAN, ex_HHDM. lia.
Defined.

Lemma pmm_alloc_free_roundtrip_witness : exists st T a st1,
  pmm_inv st T None /\ pmm_alloc 9 st = Ok (a, st1) /\
  exists st2 T2, pmm_free ex_HHDM a st1 = Ok st2 /\ pmm_inv st2 T2 None /\
    (forall p, page_free T2 p <-> page_free T p) /\
    (forall j k, T2 j = Some (k, false) <-> T j = Some (k, false)).
Proof.
  destruct ex_pmm as (st & T & _ & I & Hc & Hn & Hf).
  destruct (pmm_alloc_cases st T 9 I) as [(i & st' & T' & E' & I' & P)|[_ Hnone]].
  - unfold PMM_MAX_ORDER. lia.
  - exists st, T, (i * ARCH_PAGE_GRAN), st'. split; [exact I|]. split; [exact E'|].
    apply (pmm_alloc_free_roundtrip ex_HHDM st T 9 _ st' I); [unfold PMM_MAX_ORDER; lia|exact E'|].
    destruct (proj1 (Hf i)) as [_ ?]; [apply P; change (2 ^ 9) with 512; lia|].
    unfold ARCH_PAGE_GRAN, ex_HHDM. lia.
  - exfalso. destruct (free_run_block st T 9 512 I Hc) as (i & o & Hi & Ho & _);
      [vm_compute; lia|by exists 1|lia| |apply Hnone in Hi; lia].
    intros q Hq. change (2 ^ Z.of_nat 9) with 512 in Hq. apply Hf. lia.
Defined.

Lemma pmm_double_free_panics_witness : exists st T i o,
  pmm_inv st T None /\ T i = Some (o, true) /\ pmm_free ex_HHDM (i * ARCH_PAGE_GRAN) st = Panic.
Proof.
  destruct ex_pmm as (st & T & _ & I & Hc & Hn & Hf).
  destruct (proj2 (Hf 9)) as (i & o & Hi & _); [lia|]. exists st, T, i, o.
  split; [exact I|]. split; [exact Hi|]. exact (pmm_double_free_panics ex_HHDM st T i o I Hi).
Defined.

Lemma pmm_init_correct_witness : exists st T eb,
  pmm_init ex_HHDM ex_memmap = Ok st /\ pmm_inv st T None /\
  block_count st = memmap_pages ex_memmap /\
  eb ∈ usable_entries ex_memmap /\ block_count st * sizeof_pmm_block <= mlength eb /\
  (forall p, page_free T p <-> exists e, e ∈ usable_entries ex_memmap /\
     entry_frees (base eb) (array_pages (block_count st)) e p) /\
  (memmap_separated ex_memmap -> coalesced T).
Proof. exact (pmm_init_correct ex_HHDM ex_memmap ex_memmap_ok). Defined.

Lemma pagecount_to_order_least_witness :
  exists o, pmm_pagecount_to_order 5 = Ok o /\ 0 <= o <= 64 /\
    5 <= 2 ^ o /\ (forall o', 0 <= o' < o -> 2 ^ o' < 5).
Proof. apply (pagecount_to_order_least 5). lia. Defined.
