(* ===== verification/Strings.v ===== *)
(** * Memory and string routines (kernel/src/lib/string.c, path.c, hash.c)

    The functions work on pointers into a byte memory, as in C: reading or
    writing an unmapped address is undefined, overlap of source and
    destination is whatever the byte-by-byte loop gives.  Loops over
    NUL-terminated strings take fuel; the theorems give fuel that suffices. *)
From stdpp Require Import base gmap list fin_maps.
From Stdlib Require Import ZArith Lia.
From S2P Require Import Prelude.

(** ** Copying *)

(** The ascending byte loop of [memcpy] and [memmove]. *)
Fixpoint copy_up (n : nat) (m : mem) (dest src : Z) : outcome mem :=
  match n with
  | O => Ok m
  | S n => b ← load m src; m ← store m dest b; copy_up n m (dest + 1) (src + 1)
  end.

(** The descending loop of [memmove]. *)
Fixpoint copy_down (n : nat) (m : mem) (dest src : Z) : outcome mem :=
  match n with
  | O => Ok m
  | S n =>
      b ← load m (src + Z.of_nat n);
      m ← store m (dest + Z.of_nat n) b;
      copy_down n m dest src
  end.

Definition memcpy (m : mem) (dest src n : Z) : outcome (Z * mem) :=
  m ← copy_up (Z.to_nat n) m dest src; Ok (dest, m).

Definition memmove (m : mem) (dest src n : Z) : outcome (Z * mem) :=
  m ← (if src >? dest then copy_up (Z.to_nat n) m dest src
       else if src <? dest then copy_down (Z.to_nat n) m dest src
       else Ok m);
  Ok (dest, m).

(** The loop that copies up to and including the terminator. *)
Definition copy_string (fuel : nat) (m : mem) (dest src : Z) : outcome (mem * Z) :=
  loop fuel (fun '(m, d, s) =>
    b ← load m s; m ← store m d b;
    Ok (if b =? 0 then inr (m, d + 1) else inl (m, d + 1, s + 1))) (m, dest, src).

Definition strcpy (fuel : nat) (m : mem) (dest src : Z) : outcome (Z * mem) :=
  '(m, _) ← copy_string fuel m dest src; Ok (dest, m).

(** The two loops of [strncpy]: copy while [n] is not used up and the byte
    just copied is not the terminator ([n] is not decremented for the
    terminator), then write [n] zero bytes. *)
Fixpoint strncpy_copy (n : nat) (m : mem) (dest src : Z) : outcome (mem * Z * nat) :=
  match n with
  | O => Ok (m, dest, O)
  | S n' =>
      b ← load m src;
      m ← store m dest b;
      if b =? 0 then Ok (m, dest + 1, n) else strncpy_copy n' m (dest + 1) (src + 1)
  end.

Fixpoint strncpy_pad (n : nat) (m : mem) (dest : Z) : outcome mem :=
  match n with
  | O => Ok m
  | S n => m ← store m dest 0; strncpy_pad n m (dest + 1)
  end.

Definition strncpy (m : mem) (dest src n : Z) : outcome (Z * mem) :=
  '(m, d, n) ← strncpy_copy (Z.to_nat n) m dest src;
  m ← strncpy_pad n m d;
  Ok (dest, m).

(** ** Concatenation *)

Definition skip_to_end (fuel : nat) (m : mem) (p : Z) : outcome Z :=
  loop fuel (fun p => b ← load m p; Ok (if b =? 0 then inr p else inl (p + 1))) p.

Definition strcat (fuel : nat) (m : mem) (dest src : Z) : outcome (Z * mem) :=
  d ← skip_to_end fuel m dest;
  '(m, _) ← copy_string fuel m d src;
  Ok (dest, m).

(** ** Comparison *)

Fixpoint memcmp_from (n : nat) (m : mem) (s1 s2 : Z) : outcome Z :=
  match n with
  | O => Ok 0
  | S n =>
      a ← load m s1; b ← load m s2;
      if negb (a =? b) then Ok (if a <? b then -1 else 1)
      else memcmp_from n m (s1 + 1) (s2 + 1)
  end.

Definition memcmp (m : mem) (s1 s2 n : Z) : outcome Z := memcmp_from (Z.to_nat n) m s1 s2.

Definition strcmp (fuel : nat) (m : mem) (s1 s2 : Z) : outcome Z :=
  loop fuel (fun '(s1, s2) =>
    a ← load m s1;
    if a =? 0 then b ← load m s2; Ok (inr (a - b))
    else
      b ← load m s2;
      Ok (if a =? b then inl (s1 + 1, s2 + 1) else inr (a - b))) (s1, s2).

Fixpoint strncmp_from (n : nat) (m : mem) (s1 s2 : Z) : outcome Z :=
  match n with
  | O => Ok 0
  | S n =>
      a ← load m s1;
      if a =? 0 then b ← load m s2; Ok (a - b)
      else
        b ← load m s2;
        if a =? b then strncmp_from n m (s1 + 1) (s2 + 1) else Ok (a - b)
  end.

Definition strncmp (m : mem) (s1 s2 n : Z) : outcome Z := strncmp_from (Z.to_nat n) m s1 s2.

(** ** Searching *)

(** A byte read through a [char] pointer: [char] is signed on x86_64. *)
Definition schar (b : Z) : Z := if b <? 128 then b else b - 256.

Definition strchr (fuel : nat) (m : mem) (s c : Z) : outcome Z :=
  loop fuel (fun s =>
    b ← load m s;
    Ok (if b =? 0 then inr NULL else if schar b =? c then inr s else inl (s + 1))) s.

Definition strrchr (fuel : nat) (m : mem) (s c : Z) : outcome Z :=
  loop fuel (fun '(s, ret) =>
    b ← load m s;
    Ok (if b =? 0 then inr ret else inl (s + 1, if schar b =? c then s else ret))) (s, NULL).

(** The inner loop of [strstr]: whether the needle [n] ends at the match. *)
Definition match_here (fuel : nat) (m : mem) (h n : Z) : outcome bool :=
  loop fuel (fun '(h, n) =>
    a ← load m h;
    if a =? 0 then b ← load m n; Ok (inr (b =? 0))
    else
      b ← load m n;
      Ok (if b =? 0 then inr true else if a =? b then inl (h + 1, n + 1) else inr false)) (h, n).

Definition strstr (fuel : nat) (m : mem) (s1 s2 : Z) : outcome Z :=
  b ← load m s2;
  if b =? 0 then Ok s1 else
  loop fuel (fun s1 =>
    a ← load m s1;
    if a =? 0 then Ok (inr NULL) else
    ok ← match_here fuel m s1 s2;
    Ok (if ok : bool then inr s1 else inl (s1 + 1))) s1.

(** ** Other *)

Fixpoint fill (n : nat) (m : mem) (s c : Z) : outcome mem :=
  match n with
  | O => Ok m
  | S n => m ← store m s (u8 c); fill n m (s + 1) c
  end.

Definition memset (m : mem) (s c n : Z) : outcome (Z * mem) :=
  m ← fill (Z.to_nat n) m s c; Ok (s, m).

Definition strlen (fuel : nat) (m : mem) (s : Z) : outcome Z :=
  loop fuel (fun '(s, len) =>
    b ← load m s; Ok (if b =? 0 then inr len else inl (s + 1, u64 (len + 1)))) (s, 0).

(** [strdup] over the allocator it calls, [heap_alloc], which returns an
    address and the memory with the object mapped. *)
Definition strdup (heap_alloc : mem -> Z -> outcome (Z * mem)) (fuel : nat) (m : mem) (s : Z)
    : outcome (Z * mem) :=
  if s =? NULL then Ok (NULL, m) else
  len ← strlen fuel m s;
  '(dup, m) ← heap_alloc m (u64 (len + 1));
  if dup =? NULL then Ok (NULL, m) else
  '(_, m) ← strcpy fuel m dup s;
  Ok (dup, m).

(** ** hash.c and path.c *)

(** The sum of [hash_str] is on [unsigned int]. *)
Definition hash_str (fuel : nat) (m : mem) (str : Z) : outcome Z :=
  loop fuel (fun '(str, hash) =>
    c ← load m str;
    Ok (if c =? 0 then inr hash
        else inl (str + 1, u32 (u32 (u32 (Z.shiftl hash 5) + hash) + schar c)))) (str, 5381).

Definition SLASH : Z := 47.
Definition DOT : Z := 46.

Definition path_consume_comp (fuel : nat) (m : mem) (str out_comp : Z) : outcome (Z * mem) :=
  c ← load m str;
  let str := if c =? SLASH then str + 1 else str in
  '(m, str, out_comp) ← loop fuel (fun '(m, str, o) =>
    c ← load m str;
    if (c =? 0) || (c =? SLASH) then Ok (inr (m, str, o))
    else m ← store m o c; Ok (inl (m, str + 1, o + 1))) (m, str, out_comp);
  m ← store m out_comp 0;
  c ← load m str;
  Ok (if c =? SLASH then str + 1 else str, m).

(** Skip the slashes at [p]. *)
Definition skip_slashes (fuel : nat) (m : mem) (p : Z) : outcome Z :=
  loop fuel (fun p => c ← load m p; Ok (if c =? SLASH then inl (p + 1) else inr p)) p.

Definition path_normalize (fuel : nat) (m : mem) (path normalized : Z) : outcome mem :=
  '(m, n) ← loop fuel (fun '(m, p, n) =>
    c ← load m p;
    if c =? 0 then Ok (inr (m, n))
    else if c =? SLASH then
      m ← store m n SLASH;
      p ← skip_slashes fuel m p;
      Ok (inl (m, p, n + 1))
    else
      dot ← (if c =? DOT then
               d ← load m (p + 1); Ok ((d =? SLASH) || (d =? 0))
             else Ok false);
      if dot : bool then
        let p := p + 1 in
        d ← load m p;
        Ok (inl (m, if d =? SLASH then p + 1 else p, n))
      else
        m ← store m n c;
        Ok (inl (m, p + 1, n + 1))) (m, path, normalized);
  n ← (if n >? normalized + 1 then
         c ← load m (n - 1); Ok (if c =? SLASH then n - 1 else n)
       else Ok n);
  store m n 0.

Lemma load_Ok m p b : m !! p = Some b -> load m p = Ok b.
Proof. intros H. unfold load. by rewrite H. Qed.

(** ** Memory routines *)

Lemma copy_up_spec bs m dest src :
  bytes_at m src bs -> mapped m dest (length bs) ->
  dest <= src \/ src + Z.of_nat (length bs) <= dest ->
  copy_up (length bs) m dest src = Ok (write_bytes m dest bs).
Proof.
  revert m dest src. induction bs as [|b bs IH]; intros m dest src Hb Hm Hov; simpl; [done|].
  apply bytes_at_cons in Hb as [Hb Hbs]. simpl in Hm. apply mapped_S in Hm as [Hd Hm].
  unfold load. run Hb. rewrite store_Ok by done. go.
  apply IH; [|auto with bytes|simpl in Hov; lia].
  apply bytes_at_insert; [simpl in Hov; lia|done].
Qed.

Lemma copy_down_spec bs m dest src :
  bytes_at m src bs -> mapped m dest (length bs) -> src <= dest ->
  copy_down (length bs) m dest src = Ok (write_bytes m dest bs).
Proof.
  revert m. induction bs as [|b bs IH] using rev_ind; intros m Hb Hm Hov; simpl; [done|].
  apply bytes_at_app in Hb as [Hbs [Hb _]%bytes_at_cons].
  rewrite length_app, Nat.add_1_r in *. simpl. unfold load. run Hb.
  rewrite store_Ok by (apply Hm; lia). go. rewrite IH; [|..|done].
  - rewrite write_bytes_app. simpl. rewrite write_bytes_insert by lia. done.
  - apply bytes_at_insert; [lia|done].
  - apply mapped_insert. intros i Hi. apply Hm. lia.
Qed.

Lemma write_bytes_id m p bs : bytes_at m p bs -> write_bytes m p bs = m.
Proof.
  revert m p. induction bs as [|b bs IH]; intros m p Hb; simpl; [done|].
  apply bytes_at_cons in Hb as [Hb Hbs]. rewrite insert_id by done. by apply IH.
Qed.

Lemma fill_spec n m s c : mapped m s n -> fill n m s c = Ok (write_bytes m s (replicate n (u8 c))).
Proof.
  revert m s. induction n as [|n IH]; intros m s Hm; simpl; [done|].
  apply mapped_S in Hm as [Hs Hm]. rewrite store_Ok by done. go. apply IH. auto with bytes.
Qed.

(** [memmove] copies the original bytes whatever the overlap of the two
    regions, [memcpy] does so when the destination does not start inside the
    source, [memset] fills the region, and none of them writes outside the
    destination ([write_bytes] is the memory with exactly those bytes
    replaced). *)
Theorem memmove_correct m dest src bs c :
  bytes_at m src bs -> mapped m dest (length bs) ->
  let n := Z.of_nat (length bs) in
  memmove m dest src n = Ok (dest, write_bytes m dest bs) /\
  (dest <= src \/ src + n <= dest -> memcpy m dest src n = Ok (dest, write_bytes m dest bs)) /\
  memset m dest c n = Ok (dest, write_bytes m dest (replicate (length bs) (u8 c))) /\
  (forall a, a < dest \/ dest + n <= a -> write_bytes m dest bs !! a = m !! a).
Proof.
  intros Hb Hm n. unfold memmove, memcpy, memset, n. rewrite Nat2Z.id. split_and!.
  - destruct (Z.gtb_spec src dest).
    + run copy_up_spec; [done|done|done|lia].
    + destruct (Z.ltb_spec src dest).
      * run copy_down_spec; [done|done|done|lia].
      * assert (src = dest) as -> by lia. go. by rewrite write_bytes_id.
  - intros Hov. by run copy_up_spec.
  - by run fill_spec.
  - intros a Ha. by apply write_bytes_out.
Qed.

(** ** NUL-terminated strings *)

Lemma cstr_nil m p : cstr m p [] <-> m !! p = Some 0.
Proof.
  unfold cstr. simpl. rewrite bytes_at_cons. pose proof (bytes_at_nil m (p + 1)).
  pose proof (Forall_nil_2 (fun b : Z => b <> 0)). tauto.
Qed.

Lemma cstr_cons m p b s : cstr m p (b :: s) <-> m !! p = Some b /\ b <> 0 /\ cstr m (p + 1) s.
Proof. unfold cstr. simpl. rewrite bytes_at_cons, Forall_cons. tauto. Qed.

Lemma cstr_mapped m p s : cstr m p s -> mapped m p (S (length s)).
Proof. intros [H _]. apply bytes_mapped in H. by rewrite length_app, Nat.add_1_r in H. Qed.

Lemma cstr_insert m p s a v :
  a < p \/ p + Z.of_nat (length s) < a -> cstr m p s -> cstr (<[a := v]> m) p s.
Proof.
  intros Ha [H Hn]. split; [|done]. apply bytes_at_insert; [|done]. rewrite length_app; simpl. lia.
Qed.

(** Two bytes of strings agree on whether they are the terminator. *)
Ltac byte0 b := rewrite (proj2 (Z.eqb_neq b 0)) by done.

Lemma strlen_from s m p acc fuel :
  cstr m p s -> (length s < fuel)%nat -> 0 <= acc -> acc + Z.of_nat (length s) < 2 ^ 64 ->
  loop fuel (fun '(s, len) =>
    b ← load m s; Ok (if b =? 0 then inr len else inl (s + 1, u64 (len + 1)))) (p, acc)
  = Ok (acc + Z.of_nat (length s)).
Proof.
  revert p acc fuel. induction s as [|b s IH]; intros p acc [|fuel] Hs Hf Ha Hb; simpl in Hf; try lia.
  - apply cstr_nil in Hs. erewrite loop_exit; [|unfold load; by rewrite Hs]. f_equal. simpl. lia.
  - apply cstr_cons in Hs as (Hp & Hb0 & Hs). erewrite loop_step; [|unfold load; rewrite Hp; go; by byte0 b].
    simpl in Hb. rewrite u64_small by lia. rewrite IH by (done || lia). f_equal. simpl. lia.
Qed.

Lemma strlen_ok s m p fuel :
  cstr m p s -> (length s < fuel)%nat -> Z.of_nat (length s) < 2 ^ 64 ->
  strlen fuel m p = Ok (Z.of_nat (length s)).
Proof. intros. unfold strlen. by rewrite (strlen_from s) by (done || lia). Qed.

(** Comparison of two strings, the value the loops compute. *)
Fixpoint cmp_bytes (x y : list Z) : Z :=
  match x, y with
  | [], [] => 0
  | [], b :: _ => 0 - b
  | a :: _, [] => a
  | a :: x, b :: y => if a =? b then cmp_bytes x y else a - b
  end.

Lemma cmp_bytes_eq x y :
  Forall (fun b => b <> 0) x -> Forall (fun b => b <> 0) y -> (cmp_bytes x y = 0 <-> x = y).
Proof.
  revert y. induction x as [|a x IH]; intros [|b y]; simpl; [done| | |].
  - rewrite Forall_cons. intros _ [? _]. split; [lia|done].
  - rewrite Forall_cons. intros [? _] _. split; [lia|done].
  - rewrite !Forall_cons. intros [_ Hx] [_ Hy]. destruct (Z.eqb_spec a b) as [->|].
    + rewrite (IH y Hx Hy). naive_solver.
    + split; [lia|]. naive_solver.
Qed.

Lemma strcmp_from x y m s1 s2 fuel :
  cstr m s1 x -> cstr m s2 y -> (length x < fuel)%nat ->
  strcmp fuel m s1 s2 = Ok (cmp_bytes x y).
Proof.
  unfold strcmp. revert y s1 s2 fuel.
  induction x as [|a x IH]; intros y s1 s2 [|fuel] Hx Hy Hf; simpl in Hf; try lia; cbn [loop].
  - apply cstr_nil in Hx. unfold load. run Hx. destruct y as [|b y].
    + apply cstr_nil in Hy. by run Hy.
    + apply cstr_cons in Hy as (Hy & _ & _). by run Hy.
  - apply cstr_cons in Hx as (Hx & Ha & Hxs). unfold load. run Hx. byte0 a. destruct y as [|b y].
    + apply cstr_nil in Hy. run Hy. byte0 a. f_equal. simpl. lia.
    + apply cstr_cons in Hy as (Hy & _ & Hys). run Hy. simpl.
      destruct (Z.eqb_spec a b); [|done]. apply IH; [done|done|lia].
Qed.

Lemma strncmp_from_ok n x y m s1 s2 :
  cstr m s1 x -> cstr m s2 y -> strncmp_from n m s1 s2 = Ok (cmp_bytes (take n x) (take n y)).
Proof.
  revert x y s1 s2. induction n as [|n IH]; intros x y s1 s2 Hx Hy; simpl; [done|].
  destruct x as [|a x].
  - apply cstr_nil in Hx. unfold load. run Hx. destruct y as [|b y].
    + apply cstr_nil in Hy. by run Hy.
    + apply cstr_cons in Hy as (Hy & _ & _). by run Hy.
  - apply cstr_cons in Hx as (Hx & Ha & Hxs). unfold load. run Hx. byte0 a. destruct y as [|b y].
    + apply cstr_nil in Hy. run Hy. byte0 a. f_equal. simpl. lia.
    + apply cstr_cons in Hy as (Hy & _ & Hys). run Hy. simpl.
      destruct (Z.eqb_spec a b); [|done]. by apply IH.
Qed.

Lemma memcmp_from_ok x y m s1 s2 :
  bytes_at m s1 x -> bytes_at m s2 y -> length x = length y ->
  exists d, memcmp_from (length x) m s1 s2 = Ok d /\ (d = 0 <-> x = y) /\ -1 <= d <= 1.
Proof.
  revert y s1 s2. induction x as [|a x IH]; intros [|b y] s1 s2 Hx Hy Hl; simpl in *; try lia.
  { by exists 0. }
  apply bytes_at_cons in Hx as [Hx Hxs]. apply bytes_at_cons in Hy as [Hy Hys].
  unfold load. run Hx. run Hy. destruct (Z.eqb_spec a b) as [->|Hne]; simpl.
  - destruct (IH y (s1 + 1) (s2 + 1) Hxs Hys) as (d & -> & Hd & Hr); [lia|]. exists d.
    split_and!; try done; try lia. rewrite Hd. naive_solver.
  - exists (if a <? b then -1 else 1). split_and!; [done| |destruct (a <? b); lia..].
    split; [destruct (a <? b); lia|]. naive_solver.
Qed.

Lemma bytes_of_cstr m p s : cstr m p s -> bytes_at m p s.
Proof. intros [H _]. by apply bytes_at_app in H as [H _]. Qed.

(** On NUL-terminated strings [strlen] is the length, [strcmp] is zero
    exactly on equal strings, [strncmp] compares the first [n] bytes, and
    [memcmp] of two byte arrays is zero exactly when they are equal; fuel
    beyond the length of the first string is never used up. *)
Theorem string_compare_correct m s1 s2 x y n fuel :
  cstr m s1 x -> cstr m s2 y -> Z.of_nat (length x) < 2 ^ 64 -> 0 <= n -> (length x < fuel)%nat ->
  strlen fuel m s1 = Ok (Z.of_nat (length x)) /\
  (exists d, strcmp fuel m s1 s2 = Ok d /\ (d = 0 <-> x = y)) /\
  (exists d, strncmp m s1 s2 n = Ok d /\ (d = 0 <-> take (Z.to_nat n) x = take (Z.to_nat n) y)) /\
  (length x = length y -> exists d, memcmp m s1 s2 (Z.of_nat (length x)) = Ok d /\ (d = 0 <-> x = y)).
Proof.
  intros Hx Hy Hlen Hn Hf. pose proof (proj2 Hx) as Nx. pose proof (proj2 Hy) as Ny. split_and!.
  - by apply strlen_ok.
  - exists (cmp_bytes x y). split; [by apply strcmp_from|by apply cmp_bytes_eq].
  - eexists. split; [by apply strncmp_from_ok|]. apply cmp_bytes_eq; by apply Forall_take.
  - intros Hl. unfold memcmp. rewrite Nat2Z.id.
    destruct (memcmp_from_ok x y m s1 s2) as (d & ? & ? & _); eauto using bytes_of_cstr.
Qed.

(** ** Copying strings *)

Definition disjoint (p : Z) (n : nat) (q : Z) (k : nat) : Prop :=
  p + Z.of_nat n <= q \/ q + Z.of_nat k <= p.

Lemma copy_string_ok s m dest src fuel :
  cstr m src s -> mapped m dest (S (length s)) -> disjoint dest (S (length s)) src (S (length s)) ->
  (length s < fuel)%nat ->
  copy_string fuel m dest src = Ok (write_bytes m dest (s ++ [0]), dest + Z.of_nat (S (length s))).
Proof.
  unfold copy_string, disjoint. revert m dest src fuel.
  induction s as [|b s IH]; intros m dest src [|fuel] Hs Hm Hd Hf; simpl in Hf; try lia;
    apply mapped_S in Hm as [Hdest Hm]; cbn [loop]; unfold load.
  - apply cstr_nil in Hs. run Hs. rewrite store_Ok by done. done.
  - apply cstr_cons in Hs as (Hs & Hb & Hss). run Hs. rewrite store_Ok by done. go. byte0 b.
    simpl in Hd. fold (copy_string fuel). rewrite (IH _ (dest + 1)); simpl.
    + do 2 f_equal. lia.
    + apply cstr_insert; [lia|done].
    + auto with bytes.
    + lia.
    + lia.
Qed.

Lemma strncpy_pad_ok n m d : mapped m d n -> strncpy_pad n m d = Ok (write_bytes m d (replicate n 0)).
Proof.
  revert m d. induction n as [|n IH]; intros m d Hm; simpl; [done|].
  apply mapped_S in Hm as [Hs Hm]. rewrite store_Ok by done. go. apply IH. auto with bytes.
Qed.

Lemma strncpy_copy_ok s n m dest src :
  cstr m src s -> mapped m dest n -> disjoint dest n src (S (length s)) ->
  strncpy_copy n m dest src =
    if decide (n <= length s)%nat then Ok (write_bytes m dest (take n s), dest + Z.of_nat n, O)
    else Ok (write_bytes m dest (s ++ [0]), dest + Z.of_nat (S (length s)), (n - length s)%nat).
Proof.
  unfold disjoint. revert s m dest src. induction n as [|n IH]; intros s m dest src Hs Hm Hd.
  { simpl. by rewrite Z.add_0_r. }
  apply mapped_S in Hm as [Hdest Hm]. simpl. unfold load. destruct s as [|b s].
  - apply cstr_nil in Hs. run Hs. rewrite store_Ok by done. done.
  - apply cstr_cons in Hs as (Hs & Hb & Hss). run Hs. rewrite store_Ok by done. go. byte0 b.
    simpl in Hd. rewrite (IH s); [|apply cstr_insert; [lia|done]|auto with bytes|lia].
    destruct (decide (n <= length s)%nat), (decide (S n <= length (b :: s))%nat); simpl in *; try lia;
      do 3 f_equal; lia.
Qed.

Lemma mapped_write_bytes m q bs p n : mapped m p n -> mapped (write_bytes m q bs) p n.
Proof. revert m q. induction bs as [|b bs IH]; intros m q Hm; simpl; auto with bytes. Qed.

Lemma skip_to_end_ok s m p fuel :
  cstr m p s -> (length s < fuel)%nat -> skip_to_end fuel m p = Ok (p + Z.of_nat (length s)).
Proof.
  unfold skip_to_end. revert p fuel. induction s as [|b s IH]; intros p [|fuel] Hs Hf; simpl in Hf; try lia;
    cbn [loop]; unfold load.
  - apply cstr_nil in Hs. run Hs. f_equal. simpl. lia.
  - apply cstr_cons in Hs as (Hs & Hb & Hss). run Hs. byte0 b. rewrite IH by (done || lia). f_equal. simpl. lia.
Qed.

(** What [strncpy] leaves in memory: with a source shorter than [n] the
    terminator is not counted, so the padding runs one byte past the [n] bytes
    of the destination. *)
Definition strncpy_result (s : list Z) (n : nat) : list Z :=
  if decide (n <= length s)%nat then take n s else s ++ replicate (S n - length s) 0.

Lemma strncpy_ok s m dest src n :
  cstr m src s -> mapped m dest (S n) -> disjoint dest (S n) src (S (length s)) ->
  strncpy m dest src (Z.of_nat n) = Ok (dest, write_bytes m dest (strncpy_result s n)).
Proof.
  intros Hs Hm Hd. unfold strncpy, strncpy_result. rewrite Nat2Z.id.
  rewrite (strncpy_copy_ok s); [|done|intros i Hi; apply Hm; lia|unfold disjoint in *; lia].
  destruct (decide (n <= length s)%nat) as [|Hlt]; go; [done|].
  run strncpy_pad_ok.
  2:{ intros i Hi. replace (dest + Z.of_nat (S (length s)) + Z.of_nat i)
        with (dest + Z.of_nat (S (length s) + i)) by lia.
      apply (mapped_write_bytes _ _ _ _ (S n) Hm). lia. }
  replace (S n - length s)%nat with (1 + (n - length s))%nat by lia. simpl replicate.
  change (s ++ 0 :: replicate (n - length s) 0) with (s ++ [0] ++ replicate (n - length s) 0).
  rewrite app_assoc, (write_bytes_app m dest (s ++ [0]) _), length_app, Nat.add_1_r. done.
Qed.

(** [strcpy] copies the string and its terminator, [strcat] does so after
    the destination's string, and [strncpy] copies the first [n] bytes of a
    longer source; for a source shorter than [n] it writes n + 1 bytes: the
    byte at [dest + n], outside the n-byte destination, is set to zero. *)
Theorem string_copy_correct m dest src s n fuel :
  cstr m src s -> (length s < fuel)%nat ->
  mapped m dest (S (length s)) -> disjoint dest (S (length s)) src (S (length s)) ->
  mapped m dest (S n) -> disjoint dest (S n) src (S (length s)) ->
  strcpy fuel m dest src = Ok (dest, write_bytes m dest (s ++ [0])) /\
  (forall d, let e := dest + Z.of_nat (length d) in
     cstr m dest d -> mapped m e (S (length s)) -> disjoint e (S (length s)) src (S (length s)) ->
     (length d < fuel)%nat -> strcat fuel m dest src = Ok (dest, write_bytes m e (s ++ [0]))) /\
  (exists m', strncpy m dest src (Z.of_nat n) = Ok (dest, m') /\
     ((n <= length s)%nat -> m' = write_bytes m dest (take n s)) /\
     ((length s < n)%nat -> bytes_at m' dest (s ++ replicate (n - length s) 0) /\
                            m' !! (dest + Z.of_nat n) = Some 0)).
Proof.
  intros Hs Hf Hm Hd Hm' Hd'. split_and!.
  - unfold strcpy. by rewrite (copy_string_ok s).
  - intros d e He Hme Hde Hfe. unfold strcat. rewrite (skip_to_end_ok d) by done; go.
    fold e. by rewrite (copy_string_ok s).
  - eexists. split; [by apply strncpy_ok|]. unfold strncpy_result. split; intros Hn.
    + by rewrite decide_True.
    + rewrite decide_False by lia.
      assert (Hat := write_bytes_at m dest (s ++ replicate (S n - length s) 0)). split.
      * replace (S n - length s)%nat with ((n - length s) + 1)%nat in * by lia.
        rewrite replicate_add, app_assoc in Hat |- *. by apply bytes_at_app in Hat as [Hat _].
      * apply Hat. rewrite lookup_app_r by lia. apply lookup_replicate_2. lia.
Qed.

(** ** Searching *)

(** Position of the first, or last, byte that reads as the [char] [c]. *)
Fixpoint first_index (c : Z) (s : list Z) : option nat :=
  match s with
  | [] => None
  | b :: s => if schar b =? c then Some O else S <$> first_index c s
  end.

Fixpoint last_index (c : Z) (s : list Z) : option nat :=
  match s with
  | [] => None
  | b :: s => match last_index c s with
              | Some i => Some (S i)
              | None => if schar b =? c then Some O else None
              end
  end.

Definition ptr_at (p d : Z) (i : option nat) : Z :=
  match i with Some i => p + Z.of_nat i | None => d end.

Lemma strchr_ok s m p c fuel :
  cstr m p s -> (length s < fuel)%nat -> strchr fuel m p c = Ok (ptr_at p NULL (first_index c s)).
Proof.
  unfold strchr. revert p fuel. induction s as [|b s IH]; intros p [|fuel] Hs Hf; simpl in Hf; try lia;
    cbn [loop]; unfold load.
  - apply cstr_nil in Hs. by run Hs.
  - apply cstr_cons in Hs as (Hs & Hb & Hss). run Hs. byte0 b. simpl.
    destruct (schar b =? c); [f_equal; simpl; lia|]. rewrite IH by (done || lia).
    destruct (first_index c s); simpl; f_equal; lia.
Qed.

Lemma strrchr_from s m p c ret fuel :
  cstr m p s -> (length s < fuel)%nat ->
  loop fuel (fun '(s, ret) =>
    b ← load m s;
    Ok (if b =? 0 then inr ret else inl (s + 1, if schar b =? c then s else ret))) (p, ret)
  = Ok (ptr_at p ret (last_index c s)).
Proof.
  revert p ret fuel. induction s as [|b s IH]; intros p ret [|fuel] Hs Hf; simpl in Hf; try lia;
    cbn [loop]; unfold load.
  - apply cstr_nil in Hs. by run Hs.
  - apply cstr_cons in Hs as (Hs & Hb & Hss). run Hs. byte0 b. unfold load in IH.
    rewrite IH by (done || lia). simpl. destruct (last_index c s) as [i|]; simpl; [f_equal; lia|].
    destruct (schar b =? c); simpl; [f_equal; lia|done].
Qed.

Lemma strrchr_ok s m p c fuel :
  cstr m p s -> (length s < fuel)%nat -> strrchr fuel m p c = Ok (ptr_at p NULL (last_index c s)).
Proof. apply strrchr_from. Qed.

Lemma match_here_ok x y m h n fuel :
  cstr m h x -> cstr m n y -> (length y < fuel)%nat ->
  match_here fuel m h n = Ok (bool_decide (y `prefix_of` x)).
Proof.
  unfold match_here. revert x h n fuel.
  induction y as [|b y IH]; intros x h n [|fuel] Hx Hy Hf; simpl in Hf; try lia; cbn [loop]; unfold load.
  - apply cstr_nil in Hy. rewrite bool_decide_eq_true_2 by apply prefix_nil. destruct x as [|a x].
    + apply cstr_nil in Hx. run Hx. by run Hy.
    + apply cstr_cons in Hx as (Hx & Ha & _). run Hx. byte0 a. by run Hy.
  - apply cstr_cons in Hy as (Hy & Hb & Hys). destruct x as [|a x].
    + apply cstr_nil in Hx. run Hx. run Hy. byte0 b. by rewrite bool_decide_eq_false_2 by apply prefix_nil_not.
    + apply cstr_cons in Hx as (Hx & Ha & Hxs). run Hx. byte0 a. run Hy. byte0 b.
      destruct (Z.eqb_spec a b) as [->|Hne].
      * unfold load in IH. rewrite (IH x) by (done || lia). f_equal. apply bool_decide_ext.
        split; [apply prefix_cons|apply prefix_cons_inv_2].
      * rewrite bool_decide_eq_false_2; [done|]. intros Hp. by apply prefix_cons_inv_1 in Hp.
Qed.

(** [strchr] and [strrchr] return the first and the last occurrence of a
    byte or NULL, and [strstr] returns the first position where the needle
    occurs, NULL exactly when it occurs nowhere. *)
Theorem string_search_correct m s1 s2 x y c fuel :
  cstr m s1 x -> cstr m s2 y -> y <> [] -> (length x < fuel)%nat -> (length y < fuel)%nat ->
  strchr fuel m s1 c = Ok (ptr_at s1 NULL (first_index c x)) /\
  strrchr fuel m s1 c = Ok (ptr_at s1 NULL (last_index c x)) /\
  ((exists i, strstr fuel m s1 s2 = Ok (s1 + Z.of_nat i) /\ y `prefix_of` drop i x /\
      (forall j, (j < i)%nat -> ~ y `prefix_of` drop j x)) \/
   (strstr fuel m s1 s2 = Ok NULL /\ forall j, ~ y `prefix_of` drop j x)).
Proof.
  intros Hx Hy Hne Hfx Hfy. split_and!; [by apply strchr_ok|by apply strrchr_ok|].
  unfold strstr. destruct y as [|b y]; [done|].
  pose proof Hy as (Hb & Hb0 & _)%cstr_cons. run (load_Ok _ _ _ Hb). byte0 b. clear Hb.
  set (needle := b :: y) in *.
  assert (Hgen : forall k, (length x < k)%nat ->
    (exists i, loop k (fun s1 => a ← load m s1; if a =? 0 then Ok (inr NULL) else
        ok ← match_here fuel m s1 s2; Ok (if ok : bool then inr s1 else inl (s1 + 1))) s1
        = Ok (s1 + Z.of_nat i) /\ needle `prefix_of` drop i x /\
        (forall j, (j < i)%nat -> ~ needle `prefix_of` drop j x)) \/
    (loop k (fun s1 => a ← load m s1; if a =? 0 then Ok (inr NULL) else
        ok ← match_here fuel m s1 s2; Ok (if ok : bool then inr s1 else inl (s1 + 1))) s1
        = Ok NULL /\ forall j, ~ needle `prefix_of` drop j x)); [|by apply Hgen].
  intros k. revert s1 k Hx Hfx. induction x as [|a x IH]; intros s1 [|k] Hx Hfx Hk; simpl in Hk; try lia;
    cbn [loop].
  - right. apply cstr_nil in Hx. run (load_Ok _ _ _ Hx). split; [done|]. intros j. rewrite drop_nil. apply prefix_nil_not.
  - pose proof Hx as (Ha & Ha0 & Hxs)%cstr_cons. run (load_Ok _ _ _ Ha). byte0 a.
    rewrite (match_here_ok (a :: x) needle) by done. go.
    destruct (bool_decide_reflect (needle `prefix_of` a :: x)) as [Hp|Hnp].
    + left. exists 0%nat. rewrite Z.add_0_r. split_and!; [done|done|]. intros; lia.
    + simpl in Hfx. destruct (IH (s1 + 1) k Hxs) as [(i & Ei & Hi & Hj)|[E Hj]]; [lia|lia| |].
      * left. exists (S i). split_and!; [rewrite Ei; f_equal; lia|done|].
        intros [|j] Hlt; [done|]. apply Hj. lia.
      * right. split; [done|]. intros [|j]; [done|]. apply Hj.
Qed.

(** ** Paths *)

(** The text [path_normalize] produces before the trailing slash is dropped;
    [sl] says that the previous character was a slash already written. *)
Fixpoint norm (sl : bool) (s : list Z) : list Z :=
  match s with
  | [] => []
  | c :: s =>
      if c =? SLASH then (if sl then norm true s else SLASH :: norm true s)
      else match s with
           | [] => if c =? DOT then [] else [c]
           | d :: s' => if (c =? DOT) && (d =? SLASH) then norm false s' else c :: norm false s
           end
  end.

Definition strip (s : list Z) : list Z :=
  if (1 <? Z.of_nat (length s)) && bool_decide (last s = Some SLASH)
  then take (length s - 1) s else s.

Lemma norm_length sl s : (length (norm sl s) <= length s)%nat.
Proof.
  revert sl. induction s as [s IH] using (induction_ltof1 _ (@length Z)); unfold ltof in IH; intros sl.
  destruct s as [|c s]; simpl; [lia|]. destruct (c =? SLASH).
  - pose proof (IH s ltac:(simpl; lia) true). destruct sl; simpl; lia.
  - destruct s as [|d s']; [destruct (c =? DOT); simpl; lia|].
    destruct (_ && _); [pose proof (IH s' ltac:(simpl; lia) false); simpl; lia|].
    pose proof (IH (d :: s') ltac:(simpl; lia) false). simpl in *. lia.
Qed.

Lemma norm_nonzero sl s : Forall (fun b => b <> 0) s -> Forall (fun b => b <> 0) (norm sl s).
Proof.
  revert sl. induction s as [s IH] using (induction_ltof1 _ (@length Z)); unfold ltof in IH; intros sl Hs.
  destruct s as [|c s]; simpl; [done|]. pose proof Hs as [Hc Hs']%Forall_cons.
  destruct (Z.eqb_spec c SLASH) as [->|].
  - pose proof (IH s ltac:(simpl; lia) true Hs'). destruct sl; [done|]. by constructor.
  - destruct s as [|d s']; [destruct (c =? DOT); by repeat constructor|].
    destruct (_ && _); [apply IH; [simpl; lia|]; by apply Forall_cons in Hs' as [_ ?]|].
    constructor; [done|]. apply IH; [simpl; lia|done].
Qed.

(** The slashes a path starts with. *)
Fixpoint drop_slashes (s : list Z) : list Z :=
  match s with
  | [] => []
  | c :: s' => if c =? SLASH then drop_slashes s' else s
  end.

Lemma drop_slashes_length s : (length (drop_slashes s) <= length s)%nat.
Proof. induction s as [|c s IH]; simpl; [lia|]. destruct (c =? SLASH); simpl; lia. Qed.

Lemma norm_drop_slashes s : norm true s = norm false (drop_slashes s).
Proof.
  induction s as [|c s IH]; [done|]. cbn [drop_slashes]. destruct (Z.eqb_spec c SLASH) as [->|Hc].
  - simpl. done.
  - cbn [norm]. by rewrite (proj2 (Z.eqb_neq c SLASH)).
Qed.

Lemma skip_slashes_ok s m p fuel :
  cstr m p s -> (length s < fuel)%nat ->
  skip_slashes fuel m p = Ok (p + Z.of_nat (length s - length (drop_slashes s))) /\
  cstr m (p + Z.of_nat (length s - length (drop_slashes s))) (drop_slashes s).
Proof.
  unfold skip_slashes. revert p fuel. induction s as [|c s IH]; intros p [|fuel] Hs Hf; simpl in Hf; try lia;
    cbn [loop].
  - pose proof Hs as Hp%cstr_nil. run (load_Ok _ _ _ Hp). simpl. rewrite Z.add_0_r. done.
  - pose proof Hs as (Hp & Hc & Hss)%cstr_cons. run (load_Ok _ _ _ Hp). cbn [drop_slashes].
    destruct (c =? SLASH).
    + destruct (IH (p + 1) fuel Hss) as [-> Hr]; [lia|]. pose proof (drop_slashes_length s).
      replace (p + Z.of_nat (length (c :: s) - length (drop_slashes s)))
        with (p + 1 + Z.of_nat (length s - length (drop_slashes s))) by (simpl; lia). done.
    + rewrite Nat.sub_diag, Z.add_0_r. done.
Qed.

(** Where the writes go: at or before the read position (normalising in place
    or to the left), or past the end of the text. *)
Definition write_clear (n p : Z) (s : list Z) : Prop := n <= p \/ p + Z.of_nat (length s) < n.

(** Storing the byte just read, at or before the place it was read from. *)
Lemma cstr_store m p c s n :
  cstr m p (c :: s) -> write_clear n p (c :: s) ->
  cstr (<[n := c]> m) p (c :: s) /\ cstr (<[n := c]> m) (p + 1) s.
Proof.
  intros Hs Hw. assert (H : cstr (<[n := c]> m) p (c :: s)).
  { destruct (decide (n = p)) as [->|Hne].
    - pose proof Hs as (Hp & _)%cstr_cons. by rewrite insert_id.
    - apply cstr_insert; [|done]. destruct Hw; lia. }
  split; [done|]. by apply cstr_cons in H as (_ & _ & H).
Qed.

Definition norm_body (fuel : nat) : mem * Z * Z -> outcome ((mem * Z * Z) + (mem * Z)) :=
  fun '(m, p, n) =>
    c ← load m p;
    if c =? 0 then Ok (inr (m, n))
    else if c =? SLASH then
      m ← store m n SLASH;
      p ← skip_slashes fuel m p;
      Ok (inl (m, p, n + 1))
    else
      dot ← (if c =? DOT then
               d ← load m (p + 1); Ok ((d =? SLASH) || (d =? 0))
             else Ok false);
      if dot : bool then
        let p := p + 1 in
        d ← load m p;
        Ok (inl (m, if d =? SLASH then p + 1 else p, n))
      else
        m ← store m n c;
        Ok (inl (m, p + 1, n + 1)).

Lemma norm_loop k fuel s m p n :
  cstr m p s -> mapped m n (S (length s)) -> write_clear n p s ->
  (length s < fuel)%nat -> (length s < k)%nat ->
  loop k (norm_body fuel) (m, p, n)
  = Ok (write_bytes m n (norm false s), n + Z.of_nat (length (norm false s))).
Proof.
  revert m p n k. induction s as [s IH] using (induction_ltof1 _ (@length Z)); unfold ltof in IH.
  intros m p n [|k] Hs Hm Hw Hf Hk; [lia|]. cbn [loop].
  remember (norm_body fuel (m, p, n)) as body eqn:Eb. unfold norm_body in Eb. subst body.
  destruct s as [|c s].
  { apply cstr_nil in Hs. run (load_Ok _ _ _ Hs). simpl. by rewrite Z.add_0_r. }
  pose proof Hs as (Hp & Hc & Hss)%cstr_cons. run (load_Ok _ _ _ Hp). byte0 c.
  apply mapped_S in Hm as [Hn Hm]. destruct (Z.eqb_spec c SLASH) as [->|Hsl].
  - rewrite store_Ok by done. go.
    destruct (cstr_store _ _ _ _ _ Hs Hw) as [Hs1 _].
    destruct (skip_slashes_ok _ _ _ fuel Hs1 Hf) as [-> Hs2]. go.
    cbn [drop_slashes] in *. rewrite Z.eqb_refl in *. cbn [norm]. rewrite Z.eqb_refl, norm_drop_slashes.
    pose proof (drop_slashes_length s). simpl in Hf, Hk, Hw, Hs2. unfold write_clear in *.
    rewrite (IH (drop_slashes s)); simpl; try lia.
    + f_equal. f_equal. lia.
    + done.
    + apply mapped_insert. intros i Hi. apply Hm. simpl. lia.
    + simpl in Hw. lia.
  - unfold write_clear in Hw. simpl in Hf, Hk, Hw.
    assert (Hcopy : forall r, r = c :: norm false s ->
      loop k (norm_body fuel) (<[n := c]> m, p + 1, n + 1) = Ok (write_bytes m n r, n + Z.of_nat (length r))).
    { intros r ->. destruct (cstr_store m p c s n Hs) as [_ Hs1]; [unfold write_clear; simpl; lia|].
      rewrite (IH s); simpl; try lia; try done.
      - f_equal. f_equal. lia.
      - by apply mapped_insert.
      - unfold write_clear. lia. }
    destruct (Z.eqb_spec c DOT) as [->|Hdot].
    + destruct s as [|d s'].
      * apply cstr_nil in Hss. rewrite (load_Ok _ _ _ Hss). go.
        change ((0 =? SLASH) || (0 =? 0)) with true. cbv iota. go. change (0 =? SLASH) with false. cbv iota.
        rewrite (IH []); simpl; try lia; try done.
        -- by apply cstr_nil.
        -- intros i Hi. assert (i = 0%nat) as -> by lia. by rewrite Z.add_0_r.
        -- unfold write_clear. simpl. lia.
      * pose proof Hss as (Hd & Hd0 & Hss')%cstr_cons. run (load_Ok _ _ _ Hd). byte0 d.
        rewrite orb_false_r. cbn [norm]. rewrite (proj2 (Z.eqb_neq DOT SLASH)) by done.
        rewrite Z.eqb_refl. cbn [andb]. destruct (Z.eqb_spec d SLASH) as [->|Hds].
        -- go. try rewrite Z.eqb_refl.
           simpl in *. apply (IH s'); simpl; try lia; try done.
           ++ intros [|i] Hi; [by rewrite Z.add_0_r|]. replace (n + Z.of_nat (S i)) with (n + 1 + Z.of_nat i) by lia.
              apply Hm. lia.
           ++ unfold write_clear. lia.
        -- rewrite store_Ok by done. go. apply Hcopy. cbn [norm]. by rewrite (proj2 (Z.eqb_neq d SLASH)) by done.
    + go. rewrite store_Ok by done. go. apply Hcopy. cbn [norm].
      rewrite (proj2 (Z.eqb_neq c SLASH)), (proj2 (Z.eqb_neq c DOT)) by done. by destruct s.
Qed.

Lemma last_write m p bs c :
  last bs = Some c -> write_bytes m p bs !! (p + Z.of_nat (length bs) - 1) = Some c.
Proof.
  intros [l ->]%last_Some. rewrite length_app; simpl.
  replace (p + Z.of_nat (length l + 1) - 1) with (p + Z.of_nat (length l)) by lia.
  apply (write_bytes_at m p (l ++ [c])). by rewrite lookup_app_r, Nat.sub_diag by lia.
Qed.

Lemma cstr_of_write m p bs k :
  Forall (fun b => b <> 0) bs -> (k <= length bs)%nat ->
  cstr (<[p + Z.of_nat k := 0]> (write_bytes m p bs)) p (take k bs).
Proof.
  intros Hb Hk. split; [|by apply Forall_take]. apply bytes_at_app. rewrite length_take_le by done. split.
  - apply bytes_at_insert; [rewrite length_take_le by done; lia|].
    pose proof (write_bytes_at m p bs) as Hw. rewrite <- (take_drop k bs) in Hw at 2.
    by apply bytes_at_app in Hw as [Hw _].
  - apply bytes_at_cons. split; [apply lookup_insert_eq|apply bytes_at_nil].
Qed.

(** [path_normalize] terminates, in place or into another buffer, writes
    only inside the room of the original string, and leaves there the
    NUL-terminated text that [norm] and [strip] describe: runs of slashes
    become one, [./] is dropped, and a trailing slash is dropped unless it is
    the whole path. *)
Theorem path_normalize_correct fuel m path normalized s :
  cstr m path s -> mapped m normalized (S (length s)) -> write_clear normalized path s ->
  (length s < fuel)%nat ->
  exists m', path_normalize fuel m path normalized = Ok m' /\
    cstr m' normalized (strip (norm false s)) /\
    (forall a, a < normalized \/ normalized + Z.of_nat (length s) < a -> m' !! a = m !! a).
Proof.
  intros Hs Hm Hw Hf. unfold path_normalize. fold (norm_body fuel).
  rewrite (norm_loop fuel fuel s) by done. go. set (out := norm false s).
  pose proof (norm_length false s) as Hlen. fold out in Hlen.
  assert (Hnz : Forall (fun b => b <> 0) out) by (apply norm_nonzero, Hs).
  assert (Hfin : forall k, (k <= length out)%nat -> take k out = strip out ->
    exists m', store (write_bytes m normalized out) (normalized + Z.of_nat k) 0 = Ok m' /\
      cstr m' normalized (strip out) /\
      (forall a, a < normalized \/ normalized + Z.of_nat (length s) < a -> m' !! a = m !! a)).
  { intros k Hk <-. eexists. split; [apply store_Ok; apply (mapped_write_bytes _ _ _ _ _ Hm); lia|].
    split; [by apply cstr_of_write|]. intros a Ha. rewrite lookup_insert_ne by lia.
    apply write_bytes_out. lia. }
  destruct (Z.gtb_spec (normalized + Z.of_nat (length out)) (normalized + 1)) as [Hgt|Hle].
  - destruct (last out) as [c|] eqn:El.
    2:{ apply last_None in El. rewrite El in Hgt. simpl in Hgt. lia. }
    run (load_Ok _ _ _ (last_write m normalized out c El)).
    destruct (Z.eqb_spec c SLASH) as [->|Hc].
    + replace (normalized + Z.of_nat (length out) - 1) with (normalized + Z.of_nat (length out - 1)) by lia.
      apply Hfin; [lia|]. unfold strip. rewrite (proj2 (Z.ltb_lt _ _)) by lia.
      by rewrite El, bool_decide_eq_true_2.
    + apply Hfin; [lia|]. rewrite take_ge by lia. unfold strip.
      rewrite El, (bool_decide_eq_false_2 (Some c = Some SLASH)), andb_false_r by congruence. done.
  - go. apply Hfin; [lia|]. rewrite take_ge by lia. unfold strip.
    by rewrite (proj2 (Z.ltb_ge _ _)) by lia.
Qed.

(** The copying loop of [path_consume_comp] up to the next slash or the end. *)
Lemma comp_loop rest (Hrest : rest = [] \/ exists r, rest = SLASH :: r) (cs : list Z) k m q o :
  cstr m q (cs ++ rest) -> SLASH ∉ cs -> mapped m o (length cs) ->
  o + Z.of_nat (length cs) <= q \/ q + Z.of_nat (length (cs ++ rest)) < o -> (length cs < k)%nat ->
  loop k (fun '(m, str, o) =>
    c ← load m str;
    if (c =? 0) || (c =? SLASH) then Ok (inr (m, str, o))
    else m ← store m o c; Ok (inl (m, str + 1, o + 1))) (m, q, o)
  = Ok (write_bytes m o cs, q + Z.of_nat (length cs), o + Z.of_nat (length cs)) /\
  cstr (write_bytes m o cs) (q + Z.of_nat (length cs)) rest.
Proof.
  revert k m q o. induction cs as [|c cs IH]; intros [|k] m0 q o Hq Hn Hmo Hdis Hk; simpl in Hk; try lia; cbn [loop].
  - simpl in *. rewrite !Z.add_0_r. split; [|done]. destruct Hrest as [->|[r ->]].
    + apply cstr_nil in Hq. by run (load_Ok _ _ _ Hq).
    + apply cstr_cons in Hq as (Hq & _ & _). run (load_Ok _ _ _ Hq). by rewrite Z.eqb_refl, orb_true_r.
  - pose proof Hq as (Hq0 & Hc & Hqs)%cstr_cons. run (load_Ok _ _ _ Hq0). byte0 c.
    rewrite (proj2 (Z.eqb_neq c SLASH)) by set_solver. cbn [orb].
    simpl in Hmo, Hdis. apply mapped_S in Hmo as [Ho Hmo]. rewrite store_Ok by done. go.
    destruct (IH k (<[o := c]> m0) (q + 1) (o + 1)) as [-> Hr]; try lia.
    + apply cstr_insert; [lia|done].
    + set_solver.
    + by apply mapped_insert.
    + simpl. replace (q + 1 + Z.of_nat (length cs)) with (q + Z.of_nat (S (length cs))) in * by lia.
      split; [|done]. do 2 f_equal. lia.
Qed.

(** [path_consume_comp] takes one component off a path: after an optional
    leading slash it copies the bytes up to the next slash or the end into the
    output buffer, terminates them, and returns the rest of the path past that
    slash. *)
Theorem path_consume_comp_correct fuel m str out comp rest lead :
  let s := (if lead : bool then [SLASH] else []) ++ comp ++ rest in
  cstr m str s -> SLASH ∉ comp -> (lead = false -> list.head s <> Some SLASH) ->
  (rest = [] \/ exists r, rest = SLASH :: r) ->
  mapped m out (S (length comp)) -> disjoint out (S (length comp)) str (S (length s)) ->
  (length s < fuel)%nat ->
  exists m', path_consume_comp fuel m str out =
      Ok (str + Z.of_nat (length s - length (tail rest)), m') /\
    cstr m' out comp /\ cstr m' (str + Z.of_nat (length s - length (tail rest))) (tail rest).
Proof.
  intros s Hs Hno Hlead Hrest Hm Hd Hf. unfold path_consume_comp, disjoint in *.
  set (p := str + (if lead then 1 else 0)).
  assert (Hstart : exists c, load m str = Ok c /\ (if c =? SLASH then str + 1 else str) = p /\
                             cstr m p (comp ++ rest)).
  { unfold p, s in *. destruct lead; simpl in *.
    - pose proof Hs as (Hp & _ & Hss)%cstr_cons. exists SLASH. by rewrite (load_Ok _ _ _ Hp).
    - rewrite Z.add_0_r. destruct (comp ++ rest) as [|c l] eqn:E.
      + pose proof Hs as Hp%cstr_nil. exists 0. by rewrite (load_Ok _ _ _ Hp).
      + pose proof Hs as (Hp & _ & Hss)%cstr_cons. exists c. rewrite (load_Ok _ _ _ Hp).
        split_and!; [done| |done]. rewrite (proj2 (Z.eqb_neq c SLASH)); [done|]. intros ->. by apply Hlead. }
  destruct Hstart as (c0 & -> & Hp & Hcr). go. rewrite Hp.
  assert (Hlens : (length s = (if lead then 1 else 0) + length comp + length rest)%nat).
  { unfold s. rewrite !length_app. by destruct lead. }
  pose proof (comp_loop rest Hrest) as Hloop.
  destruct (Hloop comp fuel m p out Hcr Hno) as [-> Hr];
    [intros i Hi; apply Hm; lia|unfold p; rewrite length_app; destruct lead; lia|lia|].
  go. rewrite store_Ok by (apply (mapped_write_bytes _ _ _ _ _ Hm); lia). go.
  set (m1 := <[out + Z.of_nat (length comp) := 0]> (write_bytes m out comp)).
  assert (Hr1 : cstr m1 (p + Z.of_nat (length comp)) rest).
  { apply cstr_insert; [|done]. unfold p. destruct lead; lia. }
  assert (Hc1 : cstr m1 out comp).
  { rewrite <- (firstn_all comp) at 1. unfold m1. apply cstr_of_write; [|lia].
    destruct Hcr as [_ Hcr]. by apply Forall_app in Hcr as [? _]. }
  exists m1. destruct Hrest as [->|[r ->]]; simpl in *.
  - apply cstr_nil in Hr1 as Hr2. run (load_Ok _ _ _ Hr2). simpl.
    replace (str + Z.of_nat (length s - 0)) with (p + Z.of_nat (length comp)) by (unfold p; destruct lead; lia).
    done.
  - apply cstr_cons in Hr1 as (Hr2 & _ & Hr3). run (load_Ok _ _ _ Hr2). rewrite Z.eqb_refl.
    replace (str + Z.of_nat (length s - length r)) with (p + Z.of_nat (length comp) + 1)
      by (unfold p; destruct lead; lia).
    done.
Qed.

(** A dot at the end of a name is dropped with the slash that follows it, so
    two components run together, and [..] becomes a dot. *)
Lemma path_normalize_dots :
  strip (norm false [97; DOT; SLASH; 98]) = [97; 98] /\
  strip (norm false [DOT; DOT; SLASH; 120]) = [DOT; 120].
Proof. done. Qed.

(** ** Concrete instances *)

(** Two strings, [/a//b] at 100 and [a/] at 120, and 16 zero bytes at 200. *)
Definition ex_bytes : mem :=
  write_bytes (write_bytes (write_bytes ∅ 100 [47; 97; 47; 47; 98; 0]) 120 [97; 47; 0]) 200 (replicate 16 0).

Lemma ex_cstr1 : cstr ex_bytes 100 [47; 97; 47; 47; 98].
Proof. repeat (apply cstr_cons; split_and!; [reflexivity|lia|]). by apply cstr_nil. Qed.

Lemma ex_cstr2 : cstr ex_bytes 120 [97; 47].
Proof. repeat (apply cstr_cons; split_and!; [reflexivity|lia|]). by apply cstr_nil. Qed.

Lemma ex_room n : (n <= 16)%nat -> mapped ex_bytes 200 n.
Proof.
  intros Hn i Hi. apply (bytes_mapped ex_bytes 200 (replicate 16 0) (write_bytes_at _ _ _)).
  rewrite length_replicate. lia.
Qed.

Lemma memmove_correct_witness :
  memmove ex_bytes 101 100 5 = Ok (101, write_bytes ex_bytes 101 [47; 97; 47; 47; 98]).
Proof.
  apply (memmove_correct ex_bytes 101 100 [47; 97; 47; 47; 98] 0).
  - exact (bytes_of_cstr _ _ _ ex_cstr1).
  - exact (proj2 (proj1 (mapped_S _ _ _) (cstr_mapped _ _ _ ex_cstr1))).
Defined.

Lemma string_compare_correct_witness :
  strlen 10 ex_bytes 100 = Ok 5 /\ (exists d, strcmp 10 ex_bytes 100 120 = Ok d /\ d <> 0).
Proof.
  destruct (string_compare_correct ex_bytes 100 120 _ _ 3 10 ex_cstr1 ex_cstr2) as (H1 & (d & H2 & H3) & _).
  - done.
  - done.
  - simpl; lia.
  - split; [exact H1|]. exists d. split; [exact H2|]. rewrite H3. done.
Defined.

Lemma string_copy_correct_witness : exists m',
  strncpy ex_bytes 200 120 4 = Ok (200, m') /\ m' !! 204 = Some 0.
Proof.
  destruct (string_copy_correct ex_bytes 200 120 [97; 47] 4 10 ex_cstr2) as (_ & _ & m' & H & _ & Hlt).
  - simpl; lia.
  - apply ex_room. simpl; lia.
  - right. simpl; lia.
  - apply ex_room. lia.
  - right. simpl; lia.
  - exists m'. split; [exact H|]. apply Hlt. simpl; lia.
Defined.

Lemma string_search_correct_witness :
  strchr 10 ex_bytes 100 97 = Ok 101 /\ strrchr 10 ex_bytes 100 47 = Ok 103.
Proof.
  destruct (string_search_correct ex_bytes 100 120 _ _ 97 10 ex_cstr1 ex_cstr2) as (H1 & _ & _);
    [done|simpl; lia|simpl; lia|].
  destruct (string_search_correct ex_bytes 100 120 _ _ 47 10 ex_cstr1 ex_cstr2) as (_ & H2 & _);
    [done|simpl; lia|simpl; lia|].
  split; [exact H1|exact H2].
Defined.

Lemma path_normalize_correct_witness : exists m',
  path_normalize 10 ex_bytes 100 100 = Ok m' /\ cstr m' 100 [47; 97; 47; 98].
Proof.
  destruct (path_normalize_correct 10 ex_bytes 100 100 _ ex_cstr1) as (m' & H & Hc & _).
  - exact (cstr_mapped _ _ _ ex_cstr1).
  - left. lia.
  - simpl; lia.
  - exists m'. split; [exact H|exact Hc].
Defined.

Lemma path_consume_comp_correct_witness : exists m',
  path_consume_comp 10 ex_bytes 100 200 = Ok (103, m') /\ cstr m' 200 [97] /\ cstr m' 103 [47; 98].
Proof.
  apply (path_consume_comp_correct 10 ex_bytes 100 200 [97] [47; 47; 98] true).
  - exact ex_cstr1.
  - set_solver.
  - done.
  - right. by exists [47; 98].
  - apply ex_room. simpl; lia.
  - right. simpl; lia.
  - simpl; lia.
Defined.
