(* ===== verification/Printf.v ===== *)
(** * Formatted output (kernel/src/lib/printf.c)

    The formatter behind the log and the names of devices, as the kernel builds
    it (Makefile: without floating point conversions).  It is written in a small
    monad of printers, programs that put characters out and read memory, and is
    generic in where the characters go, like the C code in its output function.
    With the buffer as output it is the code; with a list as output it defines
    the text of a format.  The simulation between both is the correctness of the
    buffer; what the text of a number is, is proved on lists. *)
From stdpp Require Import base strings gmap list fin_maps.
From Stdlib Require Import ZArith Lia.
From S2P Require Import Prelude Strings.

(** ** Printers

    The state is the index of the next character and the state of the output. *)
Definition printer (S A : Type) : Type := Z * S -> outcome (A * (Z * S)).

#[export] Instance printer_ret S : MRet (printer S) := fun A a st => Ok (a, st).
#[export] Instance printer_bind S : MBind (printer S) := fun A B f x st => '(a, st) ← x st; f a st.

Definition lift {S A} (o : outcome A) : printer S A := fun st => a ← o; Ok (a, st).
Definition skip {S} : printer S unit := mret tt.
Definition get_idx {S} : printer S Z := fun st => Ok (st.1, st).

Definition PRINTF_NTOA_BUFFER_SIZE : Z := 32.

Definition FLAGS_ZEROPAD : Z := Z.shiftl 1 0.
Definition FLAGS_LEFT : Z := Z.shiftl 1 1.
Definition FLAGS_PLUS : Z := Z.shiftl 1 2.
Definition FLAGS_SPACE : Z := Z.shiftl 1 3.
Definition FLAGS_HASH : Z := Z.shiftl 1 4.
Definition FLAGS_UPPERCASE : Z := Z.shiftl 1 5.
Definition FLAGS_CHAR : Z := Z.shiftl 1 6.
Definition FLAGS_SHORT : Z := Z.shiftl 1 7.
Definition FLAGS_LONG : Z := Z.shiftl 1 8.
Definition FLAGS_LONG_LONG : Z := Z.shiftl 1 9.
Definition FLAGS_PRECISION : Z := Z.shiftl 1 10.

Definition flag (flags f : Z) : bool := negb (Z.land flags f =? 0).
Definition clear (flags f : Z) : Z := Z.ldiff flags f.

(** Signed values of narrower types, and [0 - value] for a negative one, which
    overflows for the least. *)
Definition i8 (v : Z) : Z := (v + 2 ^ 7) mod 2 ^ 8 - 2 ^ 7.
Definition i16 (v : Z) : Z := (v + 2 ^ 15) mod 2 ^ 16 - 2 ^ 15.
Definition magnitude (bits v : Z) : outcome Z :=
  if v =? - 2 ^ (bits - 1) then Fault else Ok (if 0 <? v then v else 0 - v).

Definition _is_digit (ch : Z) : bool := (48 <=? ch) && (ch <=? 57).

(** [buf[len++] = c] on the buffer of a conversion. *)
Definition push_buf (c : Z) (buf : list Z) : outcome (list Z) :=
  if Z.of_nat (length buf) <? PRINTF_NTOA_BUFFER_SIZE then Ok (buf ++ [c]) else Fault.

(** [while (len < limit && len < PRINTF_NTOA_BUFFER_SIZE) buf[len++] = '0'] *)
Fixpoint push_zeros (fuel : nat) (limit : Z) (buf : list Z) : outcome (list Z) :=
  if (Z.of_nat (length buf) <? limit) && (Z.of_nat (length buf) <? PRINTF_NTOA_BUFFER_SIZE) then
    match fuel with
    | O => NoFuel
    | S fuel => buf ← push_buf 48 buf; push_zeros fuel limit buf
    end
  else Ok buf.

Definition digit_char (upper : bool) (digit : Z) : Z := if digit <? 10 then 48 + digit else (if upper then 65 else 97) + digit - 10.

(** The do-while loop over the digits, the last first. *)
Fixpoint push_digits (fuel : nat) (value base : Z) (upper : bool) (buf : list Z) : outcome (list Z) :=
  match fuel with
  | O => NoFuel
  | S fuel =>
      buf ← push_buf (digit_char upper (value mod base)) buf;
      let value := value / base in
      if negb (value =? 0) && (Z.of_nat (length buf) <? PRINTF_NTOA_BUFFER_SIZE) then push_digits fuel value base upper buf else Ok buf
  end.

(** The part of [_ntoa_format] that works on the buffer: zeros, base prefix,
    sign.  The width comes back, with the place of a sign taken off. *)
Definition ntoa_buffer (buf : list Z) (negative : bool) (base prec width flags : Z) : outcome (list Z * Z) :=
  let width := if negb (flag flags FLAGS_LEFT) && (negb (width =? 0) && flag flags FLAGS_ZEROPAD && (negative || flag flags (Z.lor FLAGS_PLUS FLAGS_SPACE)))
               then width - 1 else width in
  buf ← (if negb (flag flags FLAGS_LEFT) then
           buf ← push_zeros 32 prec buf;
           if flag flags FLAGS_ZEROPAD then push_zeros 32 width buf else Ok buf
         else Ok buf);
  buf ← (if flag flags FLAGS_HASH then
           let len := Z.of_nat (length buf) in
           let buf := if negb (flag flags FLAGS_PRECISION) && negb (len =? 0) && ((len =? prec) || (len =? width)) then
                        let buf := take (length buf - 1) buf in
                        if negb (Z.of_nat (length buf) =? 0) && (base =? 16) then take (length buf - 1) buf else buf
                      else buf in
           let room := Z.of_nat (length buf) <? PRINTF_NTOA_BUFFER_SIZE in
           buf ← (if (base =? 16) && negb (flag flags FLAGS_UPPERCASE) && room then push_buf 120 buf
                  else if (base =? 16) && flag flags FLAGS_UPPERCASE && room then push_buf 88 buf
                  else if (base =? 2) && room then push_buf 98 buf
                  else Ok buf);
           if Z.of_nat (length buf) <? PRINTF_NTOA_BUFFER_SIZE then push_buf 48 buf else Ok buf
         else Ok buf);
  buf ← (if Z.of_nat (length buf) <? PRINTF_NTOA_BUFFER_SIZE then
           if negative then push_buf 45 buf
           else if flag flags FLAGS_PLUS then push_buf 43 buf
           else if flag flags FLAGS_SPACE then push_buf 32 buf
           else Ok buf
         else Ok buf);
  Ok (buf, width).

Section printf.
Context {S : Type} (getm : S -> mem) (out : Z -> Z -> Z -> Z -> S -> outcome S) (buffer maxlen : Z) (fuel : nat).
Abbreviation P := (printer S).

(** [out(c, buffer, idx++, maxlen)] and [*p]. *)
Definition putc (c : Z) : P unit := fun st => s ← out c buffer st.1 maxlen st.2; Ok (tt, (st.1 + 1, s)).
Definition getc (p : Z) : P Z := fun st => c ← load (getm st.2) p; Ok (c, st).

Fixpoint putn (n : nat) (c : Z) : P unit :=
  match n with O => skip | Datatypes.S n => putc c;; putn n c end.

(** [while (len) out(buf[--len], ...)] *)
Fixpoint put_reverse (len : nat) (buf : list Z) : P unit :=
  match len with O => skip | Datatypes.S len => c ← lift (deref (buf !! len)); putc c;; put_reverse len buf end.

Definition _out_rev (buf : list Z) (width flags : Z) : P unit :=
  start_idx ← get_idx;
  (if negb (flag flags FLAGS_LEFT) && negb (flag flags FLAGS_ZEROPAD) then putn (Z.to_nat (width - Z.of_nat (length buf))) 32 else skip);;
  put_reverse (length buf) buf;;
  (if flag flags FLAGS_LEFT then idx ← get_idx; putn (Z.to_nat (width - (idx - start_idx))) 32 else skip).

Definition _ntoa_format (buf : list Z) (negative : bool) (base prec width flags : Z) : P unit :=
  '(buf, width) ← lift (ntoa_buffer buf negative base prec width flags);
  _out_rev buf width flags.

Definition _ntoa_long (value : Z) (negative : bool) (base prec width flags : Z) : P unit :=
  let flags := if value =? 0 then clear flags FLAGS_HASH else flags in
  buf ← lift (if negb (flag flags FLAGS_PRECISION) || negb (value =? 0) then push_digits 32 value base (flag flags FLAGS_UPPERCASE) [] else Ok []);
  _ntoa_format buf negative base prec width flags.

(** The same for [unsigned long long], which has the same width. *)
Definition _ntoa_long_long (value : Z) (negative : bool) (base prec width flags : Z) : P unit := _ntoa_long value negative base prec width flags.

(** The length of the string at [s], at most [maxsize]. *)
Fixpoint strnlen_loop (n : nat) (s str maxsize : Z) : P Z :=
  match n with
  | O => lift NoFuel
  | Datatypes.S n =>
      c ← getc s;
      if (c =? 0) || (maxsize =? 0) then mret (u32 (s - str)) else strnlen_loop n (s + 1) str (maxsize - 1)
  end.
Definition _strnlen_s (str maxsize : Z) : P Z := strnlen_loop fuel str str maxsize.

Fixpoint atoi_loop (n : nat) (str i : Z) : P (Z * Z) :=
  match n with
  | O => lift NoFuel
  | Datatypes.S n =>
      c ← getc str;
      if _is_digit c then atoi_loop n (str + 1) (u32 (i * 10 + (c - 48))) else mret (i, str)
  end.
Definition _atoi (str : Z) : P (Z * Z) := atoi_loop fuel str 0.

(** [va_arg]: the words that were passed. *)
Definition va_arg (va : list Z) : P (Z * list Z) := lift (match va with v :: va => Ok (v, va) | [] => Fault end).

(** *** The parts of a conversion: values, the rest of the format, arguments *)

Definition flag_of (c : Z) : option Z :=
  if c =? 48 then Some FLAGS_ZEROPAD else if c =? 45 then Some FLAGS_LEFT else if c =? 43 then Some FLAGS_PLUS
  else if c =? 32 then Some FLAGS_SPACE else if c =? 35 then Some FLAGS_HASH else None.

Fixpoint eval_flags (n : nat) (format flags : Z) : P (Z * Z) :=
  match n with
  | O => lift NoFuel
  | Datatypes.S n =>
      c ← getc format;
      match flag_of c with Some f => eval_flags n (format + 1) (Z.lor flags f) | None => mret (flags, format) end
  end.

Definition eval_width (format flags : Z) (va : list Z) : P (Z * Z * Z * list Z) :=
  c ← getc format;
  if _is_digit c then '(width, format) ← _atoi format; mret (width, flags, format, va)
  else if c =? 42 then
    '(w, va) ← va_arg va;
    let w := i32 w in
    if w <? 0 then width ← lift (magnitude 32 w); mret (width, Z.lor flags FLAGS_LEFT, format + 1, va)
    else mret (w, flags, format + 1, va)
  else mret (0, flags, format, va).

Definition eval_precision (format flags : Z) (va : list Z) : P (Z * Z * Z * list Z) :=
  c ← getc format;
  if c =? 46 then
    let flags := Z.lor flags FLAGS_PRECISION in
    c ← getc (format + 1);
    if _is_digit c then '(prec, format) ← _atoi (format + 1); mret (prec, flags, format, va)
    else if c =? 42 then '(w, va) ← va_arg va; mret (if 0 <? i32 w then i32 w else 0, flags, format + 2, va)
    else mret (0, flags, format + 1, va)
  else mret (0, flags, format, va).

Definition eval_length (format flags : Z) : P (Z * Z) :=
  c ← getc format;
  if c =? 108 then
    d ← getc (format + 1);
    if d =? 108 then mret (Z.lor (Z.lor flags FLAGS_LONG) FLAGS_LONG_LONG, format + 2) else mret (Z.lor flags FLAGS_LONG, format + 1)
  else if c =? 104 then
    d ← getc (format + 1);
    if d =? 104 then mret (Z.lor (Z.lor flags FLAGS_SHORT) FLAGS_CHAR, format + 2) else mret (Z.lor flags FLAGS_SHORT, format + 1)
  else if (c =? 116) || (c =? 106) || (c =? 122) then mret (Z.lor flags FLAGS_LONG, format + 1)
  else mret (flags, format).

(** d, i, u, x, X, o, b *)
Definition is_integer (c : Z) : bool := existsb (Z.eqb c) [100; 105; 117; 120; 88; 111; 98].

Definition int_base (c : Z) : Z := if (c =? 120) || (c =? 88) then 16 else if c =? 111 then 8 else if c =? 98 then 2 else 10.

Definition int_flags (c flags : Z) : Z :=
  let flags := if int_base c =? 10 then clear flags FLAGS_HASH else flags in
  let flags := if c =? 88 then Z.lor flags FLAGS_UPPERCASE else flags in
  let flags := if negb (c =? 105) && negb (c =? 100) then clear flags (Z.lor FLAGS_PLUS FLAGS_SPACE) else flags in
  if flag flags FLAGS_PRECISION then clear flags FLAGS_ZEROPAD else flags.

Definition integer (c width prec flags : Z) (va : list Z) : P (list Z) :=
  let base := int_base c in
  let flags := int_flags c flags in
  '(w, va) ← va_arg va;
  (if (c =? 105) || (c =? 100) then
     if flag flags FLAGS_LONG_LONG then v ← lift (magnitude 64 (i64 w)); _ntoa_long_long v (i64 w <? 0) base prec width flags
     else if flag flags FLAGS_LONG then v ← lift (magnitude 64 (i64 w)); _ntoa_long v (i64 w <? 0) base prec width flags
     else
       let value := if flag flags FLAGS_CHAR then i8 w else if flag flags FLAGS_SHORT then i16 w else i32 w in
       v ← lift (magnitude 32 value);
       _ntoa_long v (value <? 0) base prec width flags
   else
     if flag flags FLAGS_LONG_LONG then _ntoa_long_long (u64 w) false base prec width flags
     else if flag flags FLAGS_LONG then _ntoa_long (u64 w) false base prec width flags
     else _ntoa_long (if flag flags FLAGS_CHAR then u8 w else if flag flags FLAGS_SHORT then u16 w else u32 w) false base prec width flags);;
  mret va.

Definition character (width flags : Z) (va : list Z) : P (list Z) :=
  (if negb (flag flags FLAGS_LEFT) then putn (Z.to_nat (width - 1)) 32 else skip);;
  '(w, va) ← va_arg va;
  putc (u8 w);;
  (if flag flags FLAGS_LEFT then putn (Z.to_nat (width - 1)) 32 else skip);;
  mret va.

Fixpoint put_string (n : nat) (p : Z) (limited : bool) (prec : Z) : P unit :=
  match n with
  | O => lift NoFuel
  | Datatypes.S n =>
      c ← getc p;
      if (c =? 0) || (limited && (prec =? 0)) then skip
      else putc c;; put_string n (p + 1) limited (if limited then prec - 1 else prec)
  end.

Definition string (width prec flags : Z) (va : list Z) : P (list Z) :=
  '(w, va) ← va_arg va;
  let p := u64 w in
  l ← _strnlen_s p (if prec =? 0 then u64 (-1) else prec);
  let l := if flag flags FLAGS_PRECISION then (if l <? prec then l else prec) else l in
  (if negb (flag flags FLAGS_LEFT) then putn (Z.to_nat (width - l)) 32 else skip);;
  put_string fuel p (flag flags FLAGS_PRECISION) prec;;
  (if flag flags FLAGS_LEFT then putn (Z.to_nat (width - l)) 32 else skip);;
  mret va.

Definition pointer (prec flags : Z) (va : list Z) : P (list Z) :=
  '(w, va) ← va_arg va;
  _ntoa_long_long (u64 w) false 16 prec 16 (Z.lor flags (Z.lor FLAGS_ZEROPAD FLAGS_UPPERCASE));;
  mret va.

(** The [switch] on the specifier. *)
Definition specifier (c width prec flags : Z) (va : list Z) : P (list Z) :=
  if is_integer c then integer c width prec flags va
  else if c =? 99 then character width flags va
  else if c =? 115 then string width prec flags va
  else if c =? 112 then pointer prec flags va
  else putc c;; mret va.

(** What follows a percent sign; the new place in the format and the arguments
    that are left. *)
Definition conversion (format : Z) (va : list Z) : P (Z * list Z) :=
  '(flags, format) ← eval_flags fuel format 0;
  '(width, flags, format, va) ← eval_width format flags va;
  '(prec, flags, format, va) ← eval_precision format flags va;
  '(flags, format) ← eval_length format flags;
  c ← getc format;
  va ← specifier c width prec flags va;
  mret (format + 1, va).

Fixpoint print_loop (n : nat) (format : Z) (va : list Z) : P unit :=
  match n with
  | O => lift NoFuel
  | Datatypes.S n =>
      c ← getc format;
      if c =? 0 then skip
      else if negb (c =? 37) then putc c;; print_loop n (format + 1) va
      else '(format, va) ← conversion (format + 1) va; print_loop n format va
  end.
End printf.

Definition _out_buffer (character buffer idx maxlen : Z) (m : mem) : outcome mem :=
  if idx <? maxlen then store m (buffer + idx) character else Ok m.
Definition _out_null (character buffer idx maxlen : Z) (m : mem) : outcome mem := Ok m.

Definition _vsnprintf (fuel : nat) (out : Z -> Z -> Z -> Z -> mem -> outcome mem) (buffer maxlen format : Z) (va : list Z) (m : mem) :
    outcome (Z * mem) :=
  let out := if buffer =? NULL then _out_null else out in
  '(_, (idx, m)) ← print_loop (fun m => m) out buffer maxlen fuel fuel format va (0, m);
  m ← out 0 buffer (if idx <? maxlen then idx else u64 (maxlen - 1)) maxlen m;
  Ok (i32 idx, m).

Definition sprintf_ (fuel : nat) (buffer format : Z) (va : list Z) (m : mem) : outcome (Z * mem) :=
  _vsnprintf fuel _out_buffer buffer (u64 (-1)) format va m.
Definition snprintf_ (fuel : nat) (buffer count format : Z) (va : list Z) (m : mem) : outcome (Z * mem) :=
  _vsnprintf fuel _out_buffer buffer count format va m.
Definition vsnprintf_ (fuel : nat) (buffer count format : Z) (va : list Z) (m : mem) : outcome (Z * mem) :=
  _vsnprintf fuel _out_buffer buffer count format va m.

(** ** The text of a format

    The same code with a list for its output. *)
Definition out_list (c _ _ _ : Z) (s : mem * list Z) : outcome (mem * list Z) := Ok (s.1, s.2 ++ [c]).

Definition text (fuel : nat) (m : mem) (format : Z) (va : list Z) : outcome (list Z) :=
  '(_, (_, (_, cs))) ← print_loop fst out_list 0 0 fuel fuel format va (0, (m, [])); Ok cs.

(** Strings of bytes, for examples. *)
Definition bytes (s : String.string) : list Z := (fun a => Z.of_N (Ascii.N_of_ascii a)) <$> String.list_ascii_of_string s.
Arguments bytes _%_string_scope.
Definition ex_text (f : String.string) (va : list Z) : outcome (list Z) :=
  text 100 (write_bytes (write_bytes ∅ 1000 (bytes f ++ [0])) 5000 (bytes "lyk" ++ [0])) 1000 va.
Arguments ex_text _%_string_scope.

Example text_hex : ex_text "%04X:%02X" [0x1AF; 7] = Ok (bytes "01AF:07").
Proof. vm_compute. reflexivity. Qed.
Example text_signed : ex_text "%d|%+d|%5d|%-5d|%05d" [2 ^ 32 - 42; 7; 2 ^ 32 - 42; 2 ^ 32 - 42; 2 ^ 32 - 42] = Ok (bytes "-42|+7|  -42|-42  |-0042").
Proof. vm_compute. reflexivity. Qed.
Example text_string : ex_text "%s|%6s|%-6s|%.2s|%c%%" [5000; 5000; 5000; 5000; 65] = Ok (bytes "lyk|   lyk|lyk   |ly|A%").
Proof. vm_compute. reflexivity. Qed.
Example text_long : ex_text "%llu %#llx %p %o" [2 ^ 64 - 1; 0xFFFF800000000000; 0xABC; 8] =
  Ok (bytes "18446744073709551615 0xffff800000000000 0000000000000ABC 10").
Proof. vm_compute. reflexivity. Qed.

(** ** Printing to a buffer

    The buffer has [room] bytes.  [m0] is the memory without it: what is printed
    does not depend on its bytes. *)
Section buffer.
Context (m : mem) (buffer maxlen room : Z).

Definition m0 : mem := filter (fun '(a, _) => ~ (buffer <= a < buffer + room)) m.

(** The memory when [cs] was put out, and that it does not pass the room. *)
Definition filled (cs : list Z) : mem := write_bytes m buffer (take (Z.to_nat maxlen) cs).
Definition fits (n : nat) : Prop := Z.min maxlen (Z.of_nat n) <= room.

Definition sim {A} (x : printer mem A) (y : printer (mem * list Z) A) : Prop :=
  forall cs a st, y (Z.of_nat (length cs), (m0, cs)) = Ok (a, st) ->
    exists cs', st = (Z.of_nat (length cs'), (m0, cs')) /\ (length cs <= length cs')%nat /\
      (fits (length cs') -> x (Z.of_nat (length cs), filled cs) = Ok (a, (Z.of_nat (length cs'), filled cs'))).

Lemma sim_ret {A} (a : A) : sim (mret a) (mret a).
Proof. intros cs b st E. injection E as <- <-. by exists cs. Qed.

Lemma sim_lift {A} (o : outcome A) : sim (lift o) (lift o).
Proof. intros cs a st E. unfold lift in *. apply bind_Ok in E as (b & -> & E). injection E as <- <-. by exists cs. Qed.

Lemma sim_bind {A B} (x : printer mem A) y (f : A -> printer mem B) g : sim x y -> (forall a, sim (f a) (g a)) -> sim (x ≫= f) (y ≫= g).
Proof.
  intros Hx Hf cs b st E. unfold mbind, printer_bind in *. apply bind_Ok in E as ([a st1] & E1 & E).
  destruct (Hx _ _ _ E1) as (cs1 & -> & L1 & E1'). destruct (Hf a _ _ _ E) as (cs2 & -> & L2 & E2).
  exists cs2. repeat split; [lia|]. intros Hf2. rewrite E1' by (unfold fits in *; lia). exact (E2 Hf2).
Qed.

Lemma sim_idx : sim get_idx get_idx.
Proof. intros cs a st E. injection E as <- <-. by exists cs. Qed.

Context (Hlen : 0 <= maxlen) (Hmap : mapped m buffer (Z.to_nat room)).

Lemma sim_putc c : sim (putc _out_buffer buffer maxlen c) (putc out_list 0 0 c).
Proof using Hlen Hmap.
  intros cs a st E. unfold putc in *. cbn in E. injection E as <- <-. exists (cs ++ [c]). rewrite length_app. cbn [length fst snd].
  split; [do 2 f_equal; lia|]. split; [lia|]. unfold fits, _out_buffer. intros Hf. destruct (Z.ltb_spec (Z.of_nat (length cs)) maxlen) as [Hlt|Hge].
  - assert (store (filled cs) (buffer + Z.of_nat (length cs)) c = Ok (filled (cs ++ [c]))) as ->; [|go; do 3 f_equal; lia].
    assert (is_Some (filled cs !! (buffer + Z.of_nat (length cs)))) as [v Ev] by (apply write_bytes_some, Hmap; lia).
    unfold store. run Ev. unfold filled. rewrite !take_ge by (rewrite ?length_app; cbn; lia). by rewrite write_bytes_app.
  - assert (filled (cs ++ [c]) = filled cs) as ->; [|go; do 3 f_equal; lia]. unfold filled. by rewrite take_app_le by lia.
Qed.

(** What is read outside the buffer is as before. *)
Lemma sim_getc p : sim (getc (fun m => m) p) (getc fst p).
Proof using Hlen.
  intros cs a st E. unfold getc in *. cbn [fst snd] in *. apply bind_Ok in E as (c & E & E'). injection E' as <- <-. exists cs. split; [done|].
  split; [lia|]. intros Hf. unfold load in *. apply deref_Ok in E. unfold m0 in E. apply map_lookup_filter_Some in E as [E Hout]. unfold filled.
  rewrite write_bytes_out; [by run E|]. rewrite length_take. unfold fits in Hf. lia.
Qed.

(** The functions put out the same, part by part. *)
Create HintDb printf.
Hint Resolve sim_ret sim_lift sim_idx sim_putc sim_getc : printf.

Ltac sim_step :=
  match goal with
  | |- sim (_ ≫= _) (_ ≫= _) => apply sim_bind; [|intros ?]
  | |- sim (let _ := _ in _) _ => cbv zeta
  | |- sim (match ?x with (_, _) => _ end) _ => destruct x
  | |- sim (if ?b then _ else _) _ => destruct b
  | |- sim (match ?x with Some _ => _ | None => _ end) _ => destruct x
  | |- sim skip skip => apply sim_ret
  | |- sim _ _ => solve [eauto with printf nocore]
  end.
Ltac sim_auto := cbv zeta; repeat sim_step.

Lemma sim_putn n c : sim (putn _out_buffer buffer maxlen n c) (putn out_list 0 0 n c).
Proof using Hlen Hmap. induction n as [|n IH]; cbn [putn]; sim_auto. Qed.

Lemma sim_put_reverse n buf : sim (put_reverse _out_buffer buffer maxlen n buf) (put_reverse out_list 0 0 n buf).
Proof using Hlen Hmap. induction n as [|n IH]; cbn [put_reverse]; sim_auto. Qed.
Hint Resolve sim_putn sim_put_reverse : printf.

Lemma sim_out_rev buf width flags : sim (_out_rev _out_buffer buffer maxlen buf width flags) (_out_rev out_list 0 0 buf width flags).
Proof using Hlen Hmap. unfold _out_rev. sim_auto. Qed.
Hint Resolve sim_out_rev : printf.

Lemma sim_ntoa value negative base prec width flags :
  sim (_ntoa_long _out_buffer buffer maxlen value negative base prec width flags) (_ntoa_long out_list 0 0 value negative base prec width flags).
Proof using Hlen Hmap. unfold _ntoa_long, _ntoa_format. sim_auto. Qed.
Hint Resolve sim_ntoa : printf.

Abbreviation id_mem := (fun m : mem => m).

Lemma sim_strnlen n p str k : sim (strnlen_loop id_mem n p str k) (strnlen_loop fst n p str k).
Proof using Hlen. revert p k. induction n as [|n IH]; intros p k; cbn [strnlen_loop]; sim_auto. Qed.

Lemma sim_atoi n p i : sim (atoi_loop id_mem n p i) (atoi_loop fst n p i).
Proof using Hlen. revert p i. induction n as [|n IH]; intros p i; cbn [atoi_loop]; sim_auto. Qed.

Lemma sim_eval_flags n p f : sim (eval_flags id_mem n p f) (eval_flags fst n p f).
Proof using Hlen. revert p f. induction n as [|n IH]; intros p f; cbn [eval_flags]; sim_auto. Qed.

Lemma sim_va va : sim (va_arg va) (va_arg va).
Proof. apply sim_lift. Qed.
Hint Resolve sim_strnlen sim_atoi sim_eval_flags sim_va : printf.

Lemma sim_width fuel p f va : sim (eval_width id_mem fuel p f va) (eval_width fst fuel p f va).
Proof using Hlen. unfold eval_width, _atoi. sim_auto. Qed.

Lemma sim_precision fuel p f va : sim (eval_precision id_mem fuel p f va) (eval_precision fst fuel p f va).
Proof using Hlen. unfold eval_precision, _atoi. sim_auto. Qed.

Lemma sim_length p f : sim (eval_length id_mem p f) (eval_length fst p f).
Proof using Hlen. unfold eval_length. sim_auto. Qed.

Lemma sim_integer c width prec flags va :
  sim (integer _out_buffer buffer maxlen c width prec flags va) (integer out_list 0 0 c width prec flags va).
Proof using Hlen Hmap. unfold integer, _ntoa_long_long. sim_auto. Qed.

Lemma sim_character width flags va : sim (character _out_buffer buffer maxlen width flags va) (character out_list 0 0 width flags va).
Proof using Hlen Hmap. unfold character. sim_auto. Qed.

Lemma sim_put_string n p limited prec :
  sim (put_string id_mem _out_buffer buffer maxlen n p limited prec) (put_string fst out_list 0 0 n p limited prec).
Proof using Hlen Hmap. revert p prec. induction n as [|n IH]; intros p prec; cbn [put_string]; sim_auto. Qed.
Hint Resolve sim_put_string : printf.

Lemma sim_string fuel width prec flags va :
  sim (string id_mem _out_buffer buffer maxlen fuel width prec flags va) (string fst out_list 0 0 fuel width prec flags va).
Proof using Hlen Hmap. unfold string, _strnlen_s. sim_auto. Qed.

Lemma sim_pointer prec flags va : sim (pointer _out_buffer buffer maxlen prec flags va) (pointer out_list 0 0 prec flags va).
Proof using Hlen Hmap. unfold pointer, _ntoa_long_long. sim_auto. Qed.
Hint Resolve sim_width sim_precision sim_length sim_integer sim_character sim_string sim_pointer : printf.

Lemma sim_conversion fuel p va :
  sim (conversion id_mem _out_buffer buffer maxlen fuel p va) (conversion fst out_list 0 0 fuel p va).
Proof using Hlen Hmap. unfold conversion, specifier. sim_auto. Qed.
Hint Resolve sim_conversion : printf.

Lemma sim_print_loop fuel n p va :
  sim (print_loop id_mem _out_buffer buffer maxlen fuel n p va) (print_loop fst out_list 0 0 fuel n p va).
Proof using Hlen Hmap. revert p va. induction n as [|n IH]; intros p va; cbn [print_loop]; sim_auto. Qed.
End buffer.

(** What [_vsnprintf] does with a text: the characters that fit and a
    terminator are stored. *)
Lemma vsnprintf_text fuel buffer maxlen room format va m cs : buffer <> NULL -> 0 <= maxlen < 2 ^ 64 -> mapped m buffer (Z.to_nat room) ->
  Z.min maxlen (Z.of_nat (length cs) + 1) <= room -> text fuel (m0 m buffer room) format va = Ok cs ->
  _vsnprintf fuel _out_buffer buffer maxlen format va m =
    Ok (i32 (Z.of_nat (length cs)), if maxlen =? 0 then m else write_bytes m buffer (take (Z.to_nat (maxlen - 1)) cs ++ [0])).
Proof.
  intros Hb Hc Hmap Hroom Ht. unfold _vsnprintf. rewrite (proj2 (Z.eqb_neq buffer NULL)) by done.
  unfold text in Ht. apply bind_Ok in Ht as ([[] [idx [m' cs']]] & E & Ht). injection Ht as ->.
  destruct (sim_print_loop m buffer maxlen room (proj1 Hc) Hmap fuel fuel format va [] tt _ E) as (cs2 & Est & _ & E2). injection Est as -> -> ->.
  change (filled m buffer maxlen []) with (write_bytes m buffer (take (Z.to_nat maxlen) [])) in E2. rewrite take_nil in E2. cbn [write_bytes length] in E2.
  change (Z.of_nat 0) with 0 in E2. run (E2 ltac:(unfold fits; lia)). unfold _out_buffer, filled. destruct (Z.eqb_spec maxlen 0) as [->|Hne].
  - rewrite (proj2 (Z.ltb_ge (Z.of_nat (length cs2)) 0)) by lia. reflexivity.
  - destruct (Z.to_nat maxlen) as [|n] eqn:En; [lia|]. replace (Z.to_nat (maxlen - 1)) with n by lia.
    set (i := if Z.of_nat (length cs2) <? maxlen then Z.of_nat (length cs2) else u64 (maxlen - 1)).
    assert (i = Z.of_nat (length (take n cs2)) /\ i < maxlen) as [-> Hi].
    { unfold i. rewrite length_take, (u64_small (maxlen - 1)) by lia. destruct (Z.ltb_spec (Z.of_nat (length cs2)) maxlen); lia. }
    rewrite (proj2 (Z.ltb_lt _ _) Hi). unfold store.
    destruct (write_bytes_some m buffer (take (S n) cs2) (buffer + Z.of_nat (length (take n cs2)))) as [v Ev]; [apply Hmap; rewrite length_take in *; lia|].
    run Ev. do 2 f_equal. rewrite write_bytes_app. cbn [write_bytes]. destruct (cs2 !! n) as [x|] eqn:Ex.
    + rewrite (take_S_r _ _ _ Ex), write_bytes_app. cbn [write_bytes]. by rewrite insert_insert_eq.
    + apply lookup_ge_None in Ex. by rewrite !take_ge by lia.
Qed.

(** C27: printing to a buffer stores the text and nothing else.  When the format
    and the strings it refers to lie outside the buffer, and their text is [cs],
    [vsnprintf] writes the text up to [count - 1] characters and a terminator,
    changes no other byte, whatever the length of the text, and returns that
    length. *)
Theorem vsnprintf_correct fuel buffer count format va m cs : buffer <> NULL -> 0 <= count < 2 ^ 64 -> mapped m buffer (Z.to_nat count) ->
  text fuel (m0 m buffer count) format va = Ok cs ->
  vsnprintf_ fuel buffer count format va m =
    Ok (i32 (Z.of_nat (length cs)), if count =? 0 then m else write_bytes m buffer (take (Z.to_nat (count - 1)) cs ++ [0])).
Proof. intros Hb Hc Hmap Ht. apply (vsnprintf_text _ _ _ count); [done..|lia|done]. Qed.

(** [sprintf] has no limit: the buffer must have room for the text. *)
Lemma sprintf_text fuel buffer room format va m cs : buffer <> NULL -> mapped m buffer (Z.to_nat room) -> Z.of_nat (length cs) < room < 2 ^ 64 ->
  text fuel (m0 m buffer room) format va = Ok cs ->
  sprintf_ fuel buffer format va m = Ok (i32 (Z.of_nat (length cs)), write_bytes m buffer (cs ++ [0])).
Proof.
  intros Hb Hmap Hroom Ht. unfold sprintf_. rewrite (vsnprintf_text _ _ _ room _ _ _ cs); try done; try (change (u64 (-1)) with (2 ^ 64 - 1); lia).
  change (u64 (-1)) with (2 ^ 64 - 1). cbn [Z.eqb]. rewrite (proj2 (Z.eqb_neq _ _)) by lia. by rewrite take_ge by lia.
Qed.

(** ** The text of numbers

    [prints y a cs]: with the memory [m], the printer puts out [cs] and returns
    [a]. *)
Section numbers.
Context (m : mem).
Abbreviation LP := (printer (mem * list Z)).

Definition prints {A} (y : LP A) (a : A) (cs : list Z) : Prop :=
  forall idx out, y (idx, (m, out)) = Ok (a, (idx + Z.of_nat (length cs), (m, out ++ cs))).

Lemma prints_ret {A} (a : A) : prints (mret a) a [].
Proof. intros idx out. cbn. by rewrite Z.add_0_r, app_nil_r. Qed.

Lemma prints_skip : prints skip tt [].
Proof. apply prints_ret. Qed.

Lemma prints_lift {A} (o : outcome A) a : o = Ok a -> prints (lift o) a [].
Proof. intros -> idx out. cbn. by rewrite Z.add_0_r, app_nil_r. Qed.

Lemma prints_bind {A B} (y : LP A) (g : A -> LP B) a b cs1 cs2 cs : prints y a cs1 -> prints (g a) b cs2 -> cs = cs1 ++ cs2 -> prints (y ≫= g) b cs.
Proof.
  intros H1 H2 -> idx out. unfold mbind, printer_bind. run (H1 idx out). by rewrite H2, app_assoc, length_app, Nat2Z.inj_add, Z.add_assoc.
Qed.

Lemma prints_bind_nil {A B} (y : LP A) (g : A -> LP B) a b cs : prints y a [] -> prints (g a) b cs -> prints (y ≫= g) b cs.
Proof. intros H1 H2. by eapply prints_bind. Qed.

Lemma prints_putc c : prints (putc out_list 0 0 c) tt [c].
Proof. intros idx out. reflexivity. Qed.

Lemma prints_putn n c : prints (putn out_list 0 0 n c) tt (replicate n c).
Proof. induction n as [|n IH]; cbn [putn replicate]; [apply prints_ret|]. by eapply prints_bind; [apply prints_putc|exact IH|]. Qed.

Lemma prints_reverse buf rest : prints (put_reverse out_list 0 0 (length buf) (buf ++ rest)) tt (rev buf).
Proof.
  revert rest. induction buf as [|c buf IH] using rev_ind; intros rest; [apply prints_ret|]. rewrite length_app, Nat.add_1_r. cbn [put_reverse].
  rewrite <-app_assoc. cbn [app]. eapply prints_bind_nil; [apply prints_lift; by rewrite list_lookup_middle|].
  rewrite rev_app_distr. by eapply prints_bind; [apply prints_putc|apply IH|].
Qed.

Lemma prints_get_idx {B} (g : Z -> LP B) b cs : (forall i, prints (g i) b cs) -> prints (i ← get_idx; g i) b cs.
Proof. intros Hg idx out. apply Hg. Qed.

(** Where a field starts is remembered, for the padding on its right. *)
Lemma prints_idx {B} (g : Z -> Z -> LP B) (y : LP unit) cs1 b cs : prints y tt cs1 ->
  (forall start, prints (g start (start + Z.of_nat (length cs1))) b cs) -> prints (start ← get_idx; y;; idx ← get_idx; g start idx) b (cs1 ++ cs).
Proof.
  intros Hy Hg idx out. unfold mbind, printer_bind, get_idx. go. run (Hy idx out). cbn [fst].
  by rewrite Hg, app_assoc, length_app, Nat2Z.inj_add, Z.add_assoc.
Qed.

Lemma prints_out_rev buf width flags : prints (_out_rev out_list 0 0 buf width flags) tt
  (let pad := replicate (Z.to_nat (width - Z.of_nat (length buf))) 32 in
   if flag flags FLAGS_LEFT then rev buf ++ pad else if flag flags FLAGS_ZEROPAD then rev buf else pad ++ rev buf).
Proof.
  cbv zeta. unfold _out_rev. pose proof (prints_reverse buf []) as Hr. rewrite app_nil_r in Hr. destruct (flag flags FLAGS_LEFT); cbn [negb andb].
  - apply prints_idx; [exact Hr|]. intros start. rewrite length_rev.
    replace (start + Z.of_nat (length buf) - start) with (Z.of_nat (length buf)) by lia. apply prints_putn.
  - apply prints_get_idx. intros start. destruct (flag flags FLAGS_ZEROPAD); cbn [negb].
    + eapply prints_bind_nil; [apply prints_skip|]. eapply prints_bind; [exact Hr|apply prints_skip|by rewrite app_nil_r].
    + eapply prints_bind; [apply prints_putn| |done]. eapply prints_bind; [exact Hr|apply prints_skip|by rewrite app_nil_r].
Qed.

(** The numerals of a base, the most significant digit first: what they mean,
    and which are in normal form. *)
Definition digit_val (c : Z) : Z := if c <=? 57 then c - 48 else if c <=? 70 then c - 65 + 10 else c - 97 + 10.
Definition number (base : Z) (cs : list Z) : Z := foldl (fun v c => v * base + digit_val c) 0 cs.
Definition is_digit_of (base : Z) (upper : bool) (c : Z) : Prop := exists d, 0 <= d < base /\ c = digit_char upper d.
Definition numeral (base : Z) (upper : bool) (v : Z) (cs : list Z) : Prop :=
  number base cs = v /\ Forall (is_digit_of base upper) cs /\ cs <> [] /\ (cs = [48] \/ head cs <> Some 48).

Lemma digit_val_char upper d : 0 <= d < 16 -> digit_val (digit_char upper d) = d.
Proof.
  intros Hd. unfold digit_val, digit_char. destruct (Z.ltb_spec d 10).
  - rewrite (proj2 (Z.leb_le _ _)); lia.
  - rewrite (proj2 (Z.leb_gt _ _)) by (destruct upper; lia). destruct upper; [rewrite (proj2 (Z.leb_le _ _))|rewrite (proj2 (Z.leb_gt _ _))]; lia.
Qed.

Lemma digit_char_zero upper d : 0 <= d -> digit_char upper d = 48 -> d = 0.
Proof. unfold digit_char. intros Hd. destruct (Z.ltb_spec d 10), upper; lia. Qed.

Lemma number_snoc base cs c : number base (cs ++ [c]) = number base cs * base + digit_val c.
Proof. unfold number. by rewrite foldl_app. Qed.

(** The loop appends the numeral of the value, reversed.  A value of at most as
    many digits as the buffer has room for is printed whole. *)
Lemma push_digits_correct fuel base upper : 2 <= base <= 16 -> forall v buf, 0 <= v < base ^ Z.of_nat fuel ->
  Z.of_nat (length buf) + Z.of_nat fuel = PRINTF_NTOA_BUFFER_SIZE -> (fuel > 0)%nat ->
  exists cs, push_digits fuel v base upper buf = Ok (buf ++ rev cs) /\ numeral base upper v cs /\ (length cs <= fuel)%nat.
Proof.
  intros Hb. induction fuel as [|fuel IH]; intros v buf Hv Hl Hf; [lia|]. cbn [push_digits]. unfold push_buf at 1.
  rewrite (proj2 (Z.ltb_lt _ _)) by lia. go. rewrite length_app. cbn [length].
  assert (0 <= v mod base < base) as Hd by (apply Z.mod_pos_bound; lia).
  assert (is_digit_of base upper (digit_char upper (v mod base))) as Hc by by exists (v mod base).
  assert (0 <= v / base) as Hq by (apply Z.div_pos; lia). pose proof (Z.div_mod v base ltac:(lia)) as Hdm.
  rewrite Nat2Z.inj_succ, Z.pow_succ_r in Hv by lia. assert (v / base < base ^ Z.of_nat fuel) as Hq2 by (apply Z.div_lt_upper_bound; lia).
  assert (number base [digit_char upper (v mod base)] = v mod base) as Hn by (cbn; apply digit_val_char; lia).
  destruct (Z.eqb_spec (v / base) 0) as [Hz|Hnz]; cbn [negb andb].
  - exists [digit_char upper (v mod base)]. split; [done|]. split; [|cbn; lia]. split; [lia|]. split; [by apply Forall_singleton|].
    split; [done|]. destruct (decide (digit_char upper (v mod base) = 48)) as [->|Hne]; [by left|right; cbn; congruence].
  - assert (fuel > 0)%nat as Hf' by (destruct fuel; [cbn in Hq2; lia|lia]).
    rewrite (proj2 (Z.ltb_lt _ _)) by lia. destruct (IH (v / base) (buf ++ [digit_char upper (v mod base)])) as (cs & E & (Hv' & Hall & Hne & Hnf) & Hlen);
      [lia|rewrite length_app; cbn; lia|done|].
    exists (cs ++ [digit_char upper (v mod base)]). rewrite E, rev_app_distr, <-app_assoc. split; [done|].
    split; [|rewrite length_app; cbn; lia]. split; [rewrite number_snoc, Hv', digit_val_char; lia|].
    split; [by apply Forall_app_2, Forall_singleton|]. split; [by destruct cs|]. right. destruct cs as [|c cs]; [done|].
    destruct Hnf as [Hnf|Hnf]; [|done]. rewrite Hnf in Hv'. cbn in Hv'. lia.
Qed.

(** Digit strings of one length are determined by their values, and zeros in
    front do not count. *)
Lemma number_inj base upper cs1 cs2 : 2 <= base <= 16 -> Forall (is_digit_of base upper) cs1 -> Forall (is_digit_of base upper) cs2 ->
  length cs1 = length cs2 -> number base cs1 = number base cs2 -> cs1 = cs2.
Proof.
  intros Hb. revert cs2. induction cs1 as [|c1 cs1 IH] using rev_ind; intros cs2 H1 H2 Hl Hn; [by destruct cs2|].
  destruct cs2 as [|c2 cs2 _] using rev_ind; [rewrite length_app in Hl; cbn in Hl; lia|]. rewrite !length_app in Hl. cbn in Hl.
  apply Forall_app in H1 as [H1 (d1 & Hd1 & ->)%Forall_singleton]. apply Forall_app in H2 as [H2 (d2 & Hd2 & ->)%Forall_singleton].
  rewrite !number_snoc, !digit_val_char in Hn by lia. assert (number base cs1 = number base cs2) as Hn' by nia.
  assert (d1 = d2) as -> by nia. f_equal. apply IH; [done..|lia|done].
Qed.

Lemma number_zeros base n cs : number base (replicate n 48 ++ cs) = number base cs.
Proof. induction n as [|n IH]; [done|]. cbn [replicate app]. unfold number in *. cbn [foldl]. exact IH. Qed.

Lemma zeros_digits base upper n : 2 <= base -> Forall (is_digit_of base upper) (replicate n 48).
Proof. intros Hb. apply Forall_replicate. exists 0. split; [lia|done]. Qed.

Lemma number_cons base c cs : number base (c :: cs) = digit_val c * base ^ Z.of_nat (length cs) + number base cs.
Proof.
  induction cs as [|d cs IH] using rev_ind; [cbn; lia|]. rewrite app_comm_cons, !number_snoc, IH, length_app, Nat2Z.inj_add, Z.pow_add_r by lia.
  cbn [length]. lia.
Qed.

Lemma number_bounds base upper cs : 2 <= base <= 16 -> Forall (is_digit_of base upper) cs -> 0 <= number base cs < base ^ Z.of_nat (length cs).
Proof.
  intros Hb. induction cs as [|c cs IH] using rev_ind; intros H; [cbn; lia|]. apply Forall_app in H as [H (d & Hd & ->)%Forall_singleton].
  rewrite number_snoc, digit_val_char, length_app, Nat2Z.inj_add, Z.pow_add_r by lia. specialize (IH H). cbn [length]. nia.
Qed.

(** A numeral is no longer than its value needs. *)
Lemma numeral_length base upper v cs k : 2 <= base <= 16 -> numeral base upper v cs -> v < base ^ k -> 1 <= k -> Z.of_nat (length cs) <= k.
Proof.
  intros Hb (<- & Hall & Hne & [->|Hh]) Hv Hk; [cbn; lia|]. destruct cs as [|c cs]; [done|].
  apply Forall_cons in Hall as [(d & Hd & ->) Hall]. rewrite number_cons, digit_val_char in Hv by lia.
  pose proof (number_bounds _ _ _ Hb Hall). assert (d <> 0) as Hd0 by (intros ->; by apply Hh).
  destruct (Z.le_gt_cases (Z.of_nat (length (digit_char upper d :: cs))) k) as [?|Hgt]; [done|]. cbn [length] in Hgt.
  pose proof (Z.pow_le_mono_r base k (Z.of_nat (length cs)) ltac:(lia) ltac:(lia)). nia.
Qed.

(** A number has one numeral. *)
Lemma numeral_inj base upper v cs1 cs2 : 2 <= base <= 16 -> numeral base upper v cs1 -> numeral base upper v cs2 -> cs1 = cs2.
Proof.
  intros Hb H1 H2. pose proof H1 as (E1 & F1 & N1 & _). pose proof H2 as (E2 & F2 & N2 & _).
  assert (forall x y, numeral base upper v x -> numeral base upper v y -> (length x <= length y)%nat) as Hle.
  { intros x y Hx (Ey & Fy & Ny & _). pose proof (number_bounds _ _ _ Hb Fy) as B. rewrite Ey in B.
    pose proof (numeral_length _ _ _ _ _ Hb Hx (proj2 B)) as L. destruct y; [done|]. cbn [length] in *. lia. }
  apply (number_inj base upper); [done..| |congruence]. apply Nat.le_antisymm; auto.
Qed.

(** *** Fields: sign, precision and width, as the C standard has them *)

Definition sign (negative : bool) (flags : Z) : list Z :=
  if negative then [45] else if flag flags FLAGS_PLUS then [43] else if flag flags FLAGS_SPACE then [32] else [].

Definition field (negative : bool) (prec width flags : Z) (ds : list Z) : list Z :=
  let sg := sign negative flags in
  let body := replicate (Z.to_nat (prec - Z.of_nat (length ds))) 48 ++ ds in
  let n := Z.to_nat (width - Z.of_nat (length (sg ++ body))) in
  if flag flags FLAGS_LEFT then sg ++ body ++ replicate n 32
  else if flag flags FLAGS_ZEROPAD then sg ++ replicate n 48 ++ body
  else replicate n 32 ++ sg ++ body.

Lemma push_zeros_correct fuel limit buf : Z.of_nat (length buf) <= 32 -> limit - Z.of_nat (length buf) <= Z.of_nat fuel -> limit <= 32 ->
  push_zeros fuel limit buf = Ok (buf ++ replicate (Z.to_nat (limit - Z.of_nat (length buf))) 48).
Proof.
  revert buf. induction fuel as [|fuel IH]; intros buf Hb Hf Hl; cbn [push_zeros]; unfold PRINTF_NTOA_BUFFER_SIZE.
  - rewrite (proj2 (Z.ltb_ge _ _)) by lia. replace (Z.to_nat _) with 0%nat by lia. cbn. by rewrite app_nil_r.
  - destruct (Z.ltb_spec (Z.of_nat (length buf)) limit) as [H|H]; [|replace (Z.to_nat _) with 0%nat by lia; cbn; by rewrite app_nil_r].
    rewrite (proj2 (Z.ltb_lt _ _)) by lia. cbn [andb]. unfold push_buf, PRINTF_NTOA_BUFFER_SIZE. rewrite (proj2 (Z.ltb_lt _ _)) by lia. go.
    rewrite IH by (rewrite ?length_app; cbn; lia). rewrite length_app, <-app_assoc. cbn [length app]. do 3 f_equal.
    replace (Z.to_nat (limit - Z.of_nat (length buf))) with (S (Z.to_nat (limit - Z.of_nat (length buf + 1)))) by lia. done.
Qed.

Lemma sign_flags negative flags : (negative || flag flags (Z.lor FLAGS_PLUS FLAGS_SPACE)) = match sign negative flags with [] => false | _ => true end.
Proof.
  unfold sign. destruct negative; [done|]. cbn [orb]. unfold flag. rewrite Z.land_lor_distr_r.
  destruct (Z.eqb_spec (Z.land flags FLAGS_PLUS) 0) as [->|Hp]; cbn [negb].
  - rewrite Z.lor_0_l. by destruct (Z.land flags FLAGS_SPACE =? 0).
  - rewrite (proj2 (Z.eqb_neq _ _)); [done|]. rewrite Z.lor_eq_0_iff. tauto.
Qed.

(** The end of [ntoa_buffer]: the sign. *)
Lemma push_sign negative flags buf : Z.of_nat (length buf) + Z.of_nat (length (sign negative flags)) <= 32 ->
  (if Z.of_nat (length buf) <? PRINTF_NTOA_BUFFER_SIZE then
     if negative then push_buf 45 buf
     else if flag flags FLAGS_PLUS then push_buf 43 buf
     else if flag flags FLAGS_SPACE then push_buf 32 buf
     else Ok buf
   else Ok buf) = Ok (buf ++ sign negative flags).
Proof.
  unfold sign, push_buf, PRINTF_NTOA_BUFFER_SIZE. destruct (Z.ltb_spec (Z.of_nat (length buf)) 32);
    destruct negative, (flag flags FLAGS_PLUS), (flag flags FLAGS_SPACE); cbn [length]; intros; try lia; by rewrite ?app_nil_r.
Qed.

Lemma rev_zeros n ds : rev ds ++ replicate n 48 = rev (replicate n 48 ++ ds).
Proof. rewrite rev_app_distr. f_equal. induction n as [|n IH]; [done|]. cbn [replicate rev]. rewrite <-IH. apply (replicate_cons_app n 48). Qed.

Lemma sign_length negative flags : Z.of_nat (length (sign negative flags)) <= 1.
Proof. unfold sign. repeat case_match; cbn; lia. Qed.

Lemma rev_sign negative flags : rev (sign negative flags) = sign negative flags.
Proof. unfold sign. by repeat case_match. Qed.

(** Without a base prefix, digits are formatted as the reference has it.  The
    buffer bounds what is padded with zeros; and with padding on the right a
    precision counts for nothing. *)
Lemma ntoa_format_correct ds negative base prec width flags : flag flags FLAGS_HASH = false -> 0 <= width ->
  Z.of_nat (length ds) + Z.of_nat (length (sign negative flags)) <= 32 -> prec + Z.of_nat (length (sign negative flags)) <= 32 ->
  (flag flags FLAGS_LEFT = true -> prec <= Z.of_nat (length ds)) ->
  (flag flags FLAGS_LEFT = false -> flag flags FLAGS_ZEROPAD = true -> width <= 32) ->
  prints (_ntoa_format out_list 0 0 (rev ds) negative base prec width flags) tt (field negative prec width flags ds).
Proof.
  intros Hh Hw Hd Hp Hleft Hzero. unfold _ntoa_format, ntoa_buffer, field. rewrite Hh, sign_flags. pose proof (rev_sign negative flags) as Hrs.
  pose proof (push_sign negative flags) as Hps. set (sg := sign negative flags) in *.
  assert (Z.of_nat (length sg) <= 1) as Hsg by apply sign_length.
  set (z := Z.to_nat (prec - Z.of_nat (length ds))). set (body := replicate z 48 ++ ds).
  assert (length body = (z + length ds)%nat) as Hb by (unfold body; by rewrite length_app, length_replicate).
  destruct (flag flags FLAGS_LEFT) eqn:El; cbn [negb andb].
  - specialize (Hleft eq_refl). assert (body = ds) as -> by (unfold body; by replace z with 0%nat by lia).
    eapply prints_bind_nil; [apply prints_lift; go; rewrite Hps by (rewrite length_rev; lia); reflexivity|]. cbv beta iota.
    pose proof (prints_out_rev (rev ds ++ sg) width flags) as H. cbv zeta in H.
    rewrite El, rev_app_distr, rev_involutive, Hrs, length_app, length_rev, Nat.add_comm, <-length_app, <-app_assoc in H. exact H.
  - destruct (flag flags FLAGS_ZEROPAD) eqn:Ez.
    + specialize (Hzero eq_refl eq_refl). match goal with |- context [if ?b then width - 1 else width] => set (w := if b then width - 1 else width) end.
      assert (w = width /\ (sg = [] \/ width = 0) \/ w = width - 1 /\ length sg = 1%nat) as Hw'.
      { unfold w. destruct (Z.eqb_spec width 0), sg as [|x [|]]; cbn [negb andb length] in *; tauto || lia. }
      assert (w <= 32 /\ Z.to_nat (w - Z.of_nat (length body)) = Z.to_nat (width - Z.of_nat (length (sg ++ body)))) as [Hw32 <-]
        by (rewrite length_app; destruct Hw' as [[-> [->| ->]]|[-> ->]]; cbn [length]; lia).
      eapply prints_bind_nil.
      { apply prints_lift. rewrite push_zeros_correct by (rewrite ?length_rev; lia). go. rewrite length_rev, rev_zeros. fold z body.
        rewrite push_zeros_correct by (rewrite ?length_rev; lia). go. rewrite length_rev, rev_zeros.
        rewrite Hps by (rewrite length_rev, length_app, length_replicate; destruct Hw' as [[Ew [Es|Es]]|[Ew Es]]; rewrite ?Es, ?Ew in *; cbn [length] in *; lia). reflexivity. }
      cbv beta iota. match goal with |- prints (_out_rev _ _ _ ?b _ _) _ _ => pose proof (prints_out_rev b w flags) as H end. cbv zeta in H.
      rewrite El, Ez, (rev_app_distr (rev _)), rev_involutive, Hrs in H. exact H.
    + eapply prints_bind_nil.
      { apply prints_lift. rewrite push_zeros_correct by (rewrite ?length_rev; lia). go. rewrite length_rev, rev_zeros. fold z body.
        rewrite Hps by (rewrite length_rev; lia). reflexivity. }
      cbv beta iota. rewrite andb_false_r. pose proof (prints_out_rev (rev body ++ sg) width flags) as H. cbv zeta in H.
      rewrite El, Ez, rev_app_distr, rev_involutive, Hrs, length_app, length_rev, Nat.add_comm, <-length_app in H. exact H.
Qed.

Lemma clear_absent flags f : flag flags f = false -> clear flags f = flags.
Proof. unfold flag, clear. intros H%negb_false_iff%Z.eqb_eq. rewrite <-(Z.lor_ldiff_and flags f) at 2. by rewrite H, Z.lor_0_r. Qed.

(** The digits of a conversion: none for zero with a precision. *)
Definition shown (flags v : Z) (ds : list Z) : list Z := if flag flags FLAGS_PRECISION && (v =? 0) then [] else ds.

Lemma ntoa_correct v negative base prec width flags k : 2 <= base <= 16 -> 0 <= v < base ^ k -> 1 <= k ->
  k + Z.of_nat (length (sign negative flags)) <= 32 -> flag flags FLAGS_HASH = false -> 0 <= width ->
  prec + Z.of_nat (length (sign negative flags)) <= 32 -> (flag flags FLAGS_LEFT = true -> prec <= 0) ->
  (flag flags FLAGS_LEFT = false -> flag flags FLAGS_ZEROPAD = true -> width <= 32) ->
  exists ds, numeral base (flag flags FLAGS_UPPERCASE) v ds /\
    prints (_ntoa_long out_list 0 0 v negative base prec width flags) tt (field negative prec width flags (shown flags v ds)).
Proof.
  intros Hb Hv Hk Hk2 Hh Hw Hp Hl Hz.
  destruct (push_digits_correct 32 base (flag flags FLAGS_UPPERCASE) Hb v []) as (ds & E & Hn & Hlen); [|done|lia|].
  { split; [lia|]. eapply Z.lt_le_trans; [apply Hv|]. apply Z.pow_le_mono_r; lia. }
  exists ds. split; [done|]. pose proof (numeral_length _ _ _ _ _ Hb Hn (proj2 Hv) Hk) as Hlk.
  unfold _ntoa_long. rewrite (clear_absent _ _ Hh), Tauto.if_same. eapply (prints_bind_nil _ _ (rev (shown flags v ds))).
  - apply prints_lift. unfold shown. destruct (flag flags FLAGS_PRECISION), (v =? 0); cbn [negb orb andb]; done.
  - apply ntoa_format_correct; try done; unfold shown; try (case_match; cbn [length]; lia). intros HL. specialize (Hl HL). lia.
Qed.

(** *** Parsing a conversion *)

Lemma prints_getc p c : m !! p = Some c -> prints (getc fst p) c [].
Proof. intros E idx out. unfold getc, load. cbn [fst snd]. run E. by rewrite Z.add_0_r, app_nil_r. Qed.

Definition flags_of (fl : list Z) : Z := foldr (fun c f => Z.lor (default 0 (flag_of c)) f) 0 fl.

Lemma eval_flags_correct fl x rest : forall fuel p f, bytes_at m p (fl ++ x :: rest) -> Forall (fun c => is_Some (flag_of c)) fl -> flag_of x = None ->
  (length fl < fuel)%nat -> prints (eval_flags fst fuel p f) (Z.lor f (flags_of fl), p + Z.of_nat (length fl)) [].
Proof.
  induction fl as [|c fl IH]; intros fuel p f Hb Hfl Hx Hf; (destruct fuel as [|fuel]; [cbn in Hf; lia|]); cbn [eval_flags app] in *;
    apply bytes_at_cons in Hb as [Hc Hb]; (eapply prints_bind_nil; [by apply prints_getc|]).
  - rewrite Hx. cbn. rewrite Z.lor_0_r, Z.add_0_r. apply prints_ret.
  - apply Forall_cons in Hfl as [[fc Hc'] Hfl]. rewrite Hc'. cbn [length] in *. specialize (IH fuel (p + 1) (Z.lor f fc) Hb Hfl Hx ltac:(lia)).
    cbn [flags_of foldr]. rewrite Hc'. cbn [default]. rewrite Z.lor_assoc. by replace (p + Z.of_nat (S (length fl))) with (p + 1 + Z.of_nat (length fl)) by lia.
Qed.

(** A decimal number reads back as its value. *)
Lemma atoi_correct ds x rest : forall n fuel p i, bytes_at m p (ds ++ x :: rest) -> Forall (fun c => _is_digit c) ds -> _is_digit x = false ->
  (length ds < fuel)%nat -> foldl (fun v c => v * 10 + digit_val c) i ds = n -> 0 <= i -> n < 2 ^ 32 ->
  prints (atoi_loop fst fuel p i) (n, p + Z.of_nat (length ds)) [].
Proof.
  induction ds as [|c ds IH]; intros n fuel p i Hb Hds Hx Hf Hn Hi Hlt; (destruct fuel as [|fuel]; [cbn in Hf; lia|]); cbn [atoi_loop app] in *;
    apply bytes_at_cons in Hb as [Hc Hb]; (eapply prints_bind_nil; [by apply prints_getc|]).
  - rewrite Hx. cbn in *. subst. rewrite Z.add_0_r. apply prints_ret.
  - apply Forall_cons in Hds as [Hd Hds]. rewrite (Is_true_true_1 _ Hd). cbn [foldl length] in *. 
    assert (48 <= c <= 57) as Hc48 by (unfold _is_digit in Hd; apply Is_true_true_1 in Hd; lia).
    assert (digit_val c = c - 48) as Hv by (unfold digit_val; rewrite (proj2 (Z.leb_le _ _)); lia). rewrite Hv in Hn.
    assert (forall l j, Forall (fun c => _is_digit c) l -> 0 <= j -> j <= foldl (fun v c => v * 10 + digit_val c) j l) as Hmono.
    { intros l. induction l as [|y l IHl]; intros j Hl Hj; [cbn; lia|]. apply Forall_cons in Hl as [Hy Hl]. cbn [foldl].
      assert (0 <= digit_val y) by (unfold _is_digit, digit_val in *; apply Is_true_true_1 in Hy; rewrite (proj2 (Z.leb_le _ _)); lia).
      etransitivity; [|apply IHl; [done|lia]]. lia. }
    pose proof (Hmono ds (i * 10 + (c - 48)) Hds ltac:(lia)). unfold u32. rewrite Z.mod_small by lia.
    replace (p + Z.of_nat (S (length ds))) with (p + 1 + Z.of_nat (length ds)) by lia. apply IH; try done; lia.
Qed.

Inductive len_mod := L_none | L_l | L_ll | L_h | L_hh | L_t | L_j | L_z.
Definition len_chars (l : len_mod) : list Z :=
  match l with L_none => [] | L_l => [108] | L_ll => [108; 108] | L_h => [104] | L_hh => [104; 104] | L_t => [116] | L_j => [106] | L_z => [122] end.
Definition len_flags (l : len_mod) : Z :=
  match l with
  | L_none => 0
  | L_l | L_t | L_j | L_z => FLAGS_LONG
  | L_ll => Z.lor FLAGS_LONG FLAGS_LONG_LONG
  | L_h => FLAGS_SHORT
  | L_hh => Z.lor FLAGS_SHORT FLAGS_CHAR
  end.

(** A conversion as the documentation has it: flags, width, precision, length
    and specifier. *)
Record conv := Conv { cv_flags : list Z; cv_width : list Z; cv_prec : option (list Z); cv_len : len_mod; cv_spec : Z }.

Definition prec_chars (o : option (list Z)) : list Z := match o with Some ds => 46 :: ds | None => [] end.
Definition conv_chars (v : conv) : list Z := cv_flags v ++ cv_width v ++ prec_chars (cv_prec v) ++ len_chars (cv_len v) ++ [cv_spec v].
Definition width_of (v : conv) : Z := number 10 (cv_width v).
Definition prec_of (v : conv) : Z := match cv_prec v with Some ds => number 10 ds | None => 0 end.
Definition all_flags (v : conv) : Z :=
  Z.lor (Z.lor (flags_of (cv_flags v)) (match cv_prec v with Some _ => FLAGS_PRECISION | None => 0 end)) (len_flags (cv_len v)).

(** d, i, u, x, X, o, b, c, s, p, % *)
Definition specifiers : list Z := [100; 105; 117; 120; 88; 111; 98; 99; 115; 112; 37].

Definition decimal (ds : list Z) : Prop := Forall (fun c => _is_digit c) ds /\ number 10 ds < 2 ^ 32.
Record conv_ok (v : conv) : Prop := {
  ok_flags : Forall (fun c => is_Some (flag_of c)) (cv_flags v);
  ok_width : decimal (cv_width v) /\ head (cv_width v) <> Some 48;
  ok_prec : forall ds, cv_prec v = Some ds -> decimal ds;
  ok_spec : cv_spec v ∈ specifiers;
}.

(** The character after a part belongs to none of the parts before. *)
Definition plain (c : Z) : Prop := flag_of c = None /\ _is_digit c = false /\ c <> 46 /\ c <> 42.

Lemma specifier_plain c : c ∈ specifiers -> plain c /\ c <> 0 /\ c <> 108 /\ c <> 104 /\ (c =? 116) || (c =? 106) || (c =? 122) = false.
Proof. unfold specifiers, plain. intros H. repeat (apply elem_of_cons in H as [->|H]; [repeat split; lia|]). by apply elem_of_nil in H. Qed.

Lemma length_plain v : conv_ok v -> exists x rest, len_chars (cv_len v) ++ [cv_spec v] = x :: rest /\ plain x.
Proof.
  intros Hok. pose proof (proj1 (specifier_plain _ (ok_spec _ Hok))). destruct (cv_len v); cbn [len_chars app]; eexists _, _; (split; [reflexivity|]);
    try done; repeat split; lia.
Qed.

Ltac next_char := eapply prints_bind_nil; [by apply prints_getc|].

Lemma eval_width_correct ds x rest fuel p f va : bytes_at m p (ds ++ x :: rest) -> decimal ds -> _is_digit x = false -> x <> 42 ->
  (length ds < fuel)%nat -> prints (eval_width fst fuel p f va) (number 10 ds, f, p + Z.of_nat (length ds), va) [].
Proof.
  intros Hb [Hds Hn] Hx Hx2 Hf. unfold eval_width. destruct ds as [|d ds].
  - apply bytes_at_cons in Hb as [Hc _]. next_char. rewrite Hx, (proj2 (Z.eqb_neq _ _) Hx2). rewrite Z.add_0_r. apply prints_ret.
  - pose proof (proj1 (proj1 (bytes_at_cons _ _ _ _) Hb)) as Hc. next_char. pose proof Hds as [Hd _]%Forall_cons.
    rewrite (Is_true_true_1 _ Hd). eapply prints_bind_nil; [by eapply atoi_correct; try done|]. apply prints_ret.
Qed.

Lemma eval_precision_correct o x rest fuel p f va : bytes_at m p (prec_chars o ++ x :: rest) -> (forall ds, o = Some ds -> decimal ds) -> plain x ->
  (length (prec_chars o) < fuel)%nat ->
  prints (eval_precision fst fuel p f va) (match o with Some ds => number 10 ds | None => 0 end,
    Z.lor f (match o with Some _ => FLAGS_PRECISION | None => 0 end), p + Z.of_nat (length (prec_chars o)), va) [].
Proof.
  intros Hb Ho (_ & Hx & Hx2 & Hx3) Hf. unfold eval_precision. destruct o as [ds|]; cbn [prec_chars app length] in *; apply bytes_at_cons in Hb as [Hc Hb]; next_char.
  - change (46 =? 46) with true. cbv iota. destruct (Ho ds eq_refl) as [Hds Hn]. replace (p + Z.of_nat (S (length ds))) with (p + 1 + Z.of_nat (length ds)) by lia.
    destruct ds as [|d ds]; pose proof Hb as [Hd _]%bytes_at_cons; next_char.
    + rewrite Hx, (proj2 (Z.eqb_neq _ _) Hx3), Z.add_0_r. apply prints_ret.
    + pose proof Hds as [Hd' _]%Forall_cons. rewrite (Is_true_true_1 _ Hd').
      eapply prints_bind_nil; [eapply atoi_correct; try done; cbn [length] in *; lia|]. apply prints_ret.
  - rewrite (proj2 (Z.eqb_neq _ _) Hx2), Z.lor_0_r, Z.add_0_r. apply prints_ret.
Qed.

Lemma eval_length_correct l c rest p f : bytes_at m p (len_chars l ++ c :: rest) -> c ∈ specifiers ->
  prints (eval_length fst p f) (Z.lor f (len_flags l), p + Z.of_nat (length (len_chars l))) [].
Proof.
  intros Hb Hc. apply specifier_plain in Hc as (_ & _ & H108 & H104 & Hz). unfold eval_length. destruct l; cbn [len_chars app length len_flags] in *;
    apply bytes_at_cons in Hb as [Hc Hb]; next_char; try (apply bytes_at_cons in Hb as [Hd _]).
  - rewrite (proj2 (Z.eqb_neq _ _) H108), (proj2 (Z.eqb_neq _ _) H104), Hz, Z.lor_0_r, Z.add_0_r. apply prints_ret.
  - change (108 =? 108) with true. cbv iota. next_char. rewrite (proj2 (Z.eqb_neq _ _) H108). apply prints_ret.
  - change (108 =? 108) with true. cbv iota. next_char. change (108 =? 108) with true. cbv iota. rewrite <-Z.lor_assoc. apply prints_ret.
  - change (104 =? 104) with true. change (104 =? 108) with false. cbv iota. next_char. rewrite (proj2 (Z.eqb_neq _ _) H104). apply prints_ret.
  - change (104 =? 104) with true. change (104 =? 108) with false. cbv iota. next_char. change (104 =? 104) with true. cbv iota. rewrite <-Z.lor_assoc. apply prints_ret.
  - apply prints_ret.
  - apply prints_ret.
  - apply prints_ret.
Qed.

(** A conversion is parsed to its parts: it prints what its specifier does with
    them, and the format is behind it. *)
Lemma conversion_correct v rest fuel p va va' cs : conv_ok v -> bytes_at m p (conv_chars v ++ rest) -> (length (conv_chars v) < fuel)%nat ->
  prints (specifier fst out_list 0 0 fuel (cv_spec v) (width_of v) (prec_of v) (all_flags v) va) va' cs ->
  prints (conversion fst out_list 0 0 fuel p va) (p + Z.of_nat (length (conv_chars v)), va') cs.
Proof.
  intros Hok Hb Hf Hs. unfold conversion. unfold conv_chars in *. rewrite !length_app in *. rewrite <-!app_assoc in Hb. cbn [app] in Hb.
  destruct (length_plain v Hok) as (x & r & El & Hx).
  assert (len_chars (cv_len v) ++ cv_spec v :: rest = x :: r ++ rest) as El'
    by (replace (cv_spec v :: rest) with ([cv_spec v] ++ rest) by done; rewrite app_assoc, El; done).
  assert (exists y r', prec_chars (cv_prec v) ++ len_chars (cv_len v) ++ cv_spec v :: rest = y :: r' /\ flag_of y = None /\ _is_digit y = false /\ y <> 42)
    as (y & r' & Ey & Hy1 & Hy2 & Hy3).
  { rewrite El'. destruct (cv_prec v); cbn [prec_chars app]; eexists _, _; (split; [reflexivity|]); [done|]. destruct Hx as (? & ? & ? & ?). done. }
  assert (exists z r'', cv_width v ++ prec_chars (cv_prec v) ++ len_chars (cv_len v) ++ cv_spec v :: rest = z :: r'' /\ flag_of z = None) as (z & r'' & Ez & Hz).
  { rewrite Ey. destruct (ok_width _ Hok) as [[Hds _] Hh]. destruct (cv_width v) as [|d ds]; cbn [app]; eexists _, _; (split; [reflexivity|]); [done|].
    apply Forall_cons in Hds as [Hd _]. unfold _is_digit in Hd. apply Is_true_true_1 in Hd. assert (d <> 48) by (intros ->; by apply Hh). unfold flag_of.
    rewrite !(proj2 (Z.eqb_neq _ _)) by lia. done. }
  pose proof Hb as Hbf. rewrite Ez in Hbf. apply bytes_at_app in Hb as [_ Hb]. pose proof Hb as Hbw. rewrite Ey in Hbw. apply bytes_at_app in Hb as [_ Hb].
  pose proof Hb as Hbp. rewrite El' in Hbp. apply bytes_at_app in Hb as [_ Hb]. pose proof Hb as Hbl. apply bytes_at_app in Hb as [_ Hb].
  apply bytes_at_cons in Hb as [Hc _]. cbn [length] in Hf.
  eapply prints_bind_nil; [eapply eval_flags_correct; [exact Hbf|apply Hok|done|lia]|]. cbv beta iota.
  eapply prints_bind_nil; [eapply eval_width_correct; [exact Hbw|apply Hok|done|done|lia]|]. cbv beta iota.
  eapply prints_bind_nil; [eapply eval_precision_correct; [exact Hbp|apply Hok|done|lia]|]. cbv beta iota.
  eapply prints_bind_nil; [eapply eval_length_correct; [exact Hbl|apply Hok]|]. cbv beta iota. rewrite Z.lor_0_l. next_char.
  eapply prints_bind; [exact Hs| |by rewrite app_nil_r]. cbn [length].
  match goal with |- prints _ (?a, _) _ => match goal with |- prints (mret (?b, _)) _ _ => replace a with b by lia end end. apply prints_ret.
Qed.

(** *** What a specifier prints *)

Lemma flag_lor a b f : flag (Z.lor a b) f = flag a f || flag b f.
Proof.
  unfold flag. rewrite Z.land_lor_distr_l. destruct (Z.eqb_spec (Z.land a f) 0) as [->|Ha]; cbn [negb orb]; [by rewrite Z.lor_0_l|].
  rewrite (proj2 (Z.eqb_neq _ _)); [done|]. rewrite Z.lor_eq_0_iff. tauto.
Qed.

Lemma flag_clear f g h : flag f h = false \/ Z.land h g = h -> flag (clear f g) h = false.
Proof.
  unfold flag, clear. intros H. apply negb_false_iff, Z.eqb_eq. apply Z.bits_inj'. intros n Hn. rewrite Z.land_spec, Z.ldiff_spec, Z.bits_0.
  destruct H as [H%negb_false_iff%Z.eqb_eq| <-].
  - assert (Z.testbit (Z.land f h) n = false) as E by (by rewrite H, Z.bits_0). rewrite Z.land_spec in E. by destruct (Z.testbit f n), (Z.testbit h n), (Z.testbit g n).
  - rewrite Z.land_spec. by destruct (Z.testbit f n), (Z.testbit h n), (Z.testbit g n).
Qed.

Definition signed (c : Z) : bool := (c =? 105) || (c =? 100).
Definition int_bits (flags : Z) : Z := if flag flags FLAGS_LONG_LONG || flag flags FLAGS_LONG then 64 else 32.

(** The value of an integer argument, by the length of the conversion. *)
Definition int_arg (c flags w : Z) : Z :=
  let wide := flag flags FLAGS_LONG_LONG || flag flags FLAGS_LONG in
  if signed c then if wide then i64 w else if flag flags FLAGS_CHAR then i8 w else if flag flags FLAGS_SHORT then i16 w else i32 w
  else if wide then u64 w else if flag flags FLAGS_CHAR then u8 w else if flag flags FLAGS_SHORT then u16 w else u32 w.

Lemma int_arg_bounds c flags w : (signed c = false -> 0 <= int_arg c flags w) /\ Z.abs (int_arg c flags w) < 2 ^ 64.
Proof. unfold int_arg, i64, i32, i16, i8, u64, u32, u16, u8. repeat case_match; split; intros; try done; dlia. Qed.

Lemma magnitude_ok bits v : v <> - 2 ^ (bits - 1) -> magnitude bits v = Ok (Z.abs v).
Proof. intros H. unfold magnitude. rewrite (proj2 (Z.eqb_neq _ _) H). f_equal. destruct (Z.ltb_spec 0 v); lia. Qed.

(** One call of [_ntoa_long], whatever the type of the argument. *)
Lemma integer_ntoa c width prec flags w va cs : let f := int_flags c flags in let v := int_arg c f w in
  (signed c = true -> v <> - 2 ^ (int_bits f - 1)) ->
  prints (_ntoa_long out_list 0 0 (Z.abs v) (v <? 0) (int_base c) prec width f) tt cs -> prints (integer out_list 0 0 c width prec flags (w :: va)) va cs.
Proof.
  cbv zeta. intros Hm H. unfold integer. eapply prints_bind_nil; [by apply prints_lift|]. cbv beta iota.
  eapply prints_bind; [|apply prints_ret|by rewrite app_nil_r]. pose proof (int_arg_bounds c (int_flags c flags) w) as [Hpos _].
  change ((c =? 105) || (c =? 100)) with (signed c). unfold _ntoa_long_long, int_arg, int_bits in *. destruct (signed c).
  - specialize (Hm eq_refl). destruct (flag _ FLAGS_LONG_LONG); [|destruct (flag _ FLAGS_LONG)]; cbn [orb] in *;
      (eapply prints_bind_nil; [apply prints_lift, magnitude_ok, Hm|exact H]).
  - specialize (Hpos eq_refl). rewrite (proj2 (Z.ltb_ge _ _)), Z.abs_eq in H by done. destruct (flag _ FLAGS_LONG_LONG); [exact H|]. by destruct (flag _ FLAGS_LONG).
Qed.

Lemma unsigned_sign c flags : signed c = false -> sign false (int_flags c flags) = [].
Proof.
  intros H. unfold signed in H. apply orb_false_iff in H as [H1 H2]. unfold sign, int_flags. rewrite H1, H2. cbn [negb andb].
  match goal with |- context [flag ?f FLAGS_PRECISION] => set (g := f) end.
  assert (flag g FLAGS_PLUS = false /\ flag g FLAGS_SPACE = false) as [Hp Hs] by (split; apply flag_clear; by right).
  destruct (flag g FLAGS_PRECISION); [rewrite !flag_clear by tauto|rewrite Hp, Hs]; done.
Qed.

(** The limits of the buffer of a conversion, and of the padding. *)
Record int_limits (c width prec flags v : Z) : Prop := {
  lim_hash : flag flags FLAGS_HASH = false;
  lim_least : signed c = true -> v <> - 2 ^ (int_bits flags - 1);
  lim_binary : int_base c = 2 -> v < 2 ^ 32;
  lim_width : 0 <= width;
  lim_prec : prec <= 31;
  lim_left : flag flags FLAGS_LEFT = true -> prec <= 0;
  lim_zero : flag flags FLAGS_LEFT = false -> flag flags FLAGS_ZEROPAD = true -> width <= 32;
}.

Lemma integer_correct c width prec flags w va ds : let f := int_flags c flags in let v := int_arg c f w in
  int_limits c width prec f v -> numeral (int_base c) (flag f FLAGS_UPPERCASE) (Z.abs v) ds ->
  prints (integer out_list 0 0 c width prec flags (w :: va)) va (field (v <? 0) prec width f (shown f v ds)).
Proof.
  cbv zeta. intros L Hn. pose proof (int_arg_bounds c (int_flags c flags) w) as [Hpos Hlt]. set (f := int_flags c flags) in *. set (v := int_arg c f w) in *.
  assert (exists k, 2 <= int_base c <= 16 /\ Z.abs v < int_base c ^ k /\ 1 <= k /\ k + Z.of_nat (length (sign (v <? 0) f)) <= 32) as (k & Hb & Hk & Hk1 & Hk2).
  { pose proof (sign_length (v <? 0) f).
    destruct (signed c) eqn:Es.
    - exists 20. assert (int_base c = 10) as ->; [|cbn; lia]. unfold signed in Es. unfold int_base. apply orb_true_iff in Es as [->%Z.eqb_eq| ->%Z.eqb_eq]; done.
    - specialize (Hpos eq_refl). destruct (Z.eq_dec (int_base c) 2) as [E2|E2].
      + exists 32. rewrite E2. pose proof (lim_binary _ _ _ _ _ L E2). assert (v <? 0 = false) as -> by lia.
        unfold f. rewrite unsigned_sign by done. cbn. lia.
      + exists 22. assert (8 <= int_base c <= 16) as Hb by (unfold int_base in *; repeat case_match; lia). split; [lia|]. split; [|lia].
        eapply Z.lt_le_trans; [exact Hlt|]. change (2 ^ 64) with (8 ^ 21 * 2). etransitivity; [|apply Z.pow_le_mono_l; split; [|apply Hb]; lia]. vm_compute; done. }
  apply integer_ntoa; [apply L|]. fold f v. destruct L as [Lh Ll Lb Lw Lp Lleft Lz].
  pose proof (sign_length (v <? 0) f).
  destruct (ntoa_correct (Z.abs v) (v <? 0) (int_base c) prec width f k) as (ds' & Hn' & H'); try done; try lia.
  rewrite (numeral_inj _ _ _ _ _ Hb Hn Hn'). unfold shown in *.
  by replace (v =? 0) with (Z.abs v =? 0) by lia.
Qed.

(** Characters and strings: cut to the precision, padded with spaces. *)
Definition padded (width flags : Z) (cs : list Z) : list Z :=
  let pad := replicate (Z.to_nat (width - Z.of_nat (length cs))) 32 in
  if flag flags FLAGS_LEFT then cs ++ pad else pad ++ cs.

Definition cut (prec flags : Z) (cs : list Z) : list Z := if flag flags FLAGS_PRECISION then take (Z.to_nat prec) cs else cs.

Lemma character_correct width flags w va : prints (character out_list 0 0 width flags (w :: va)) va (padded width flags [u8 w]).
Proof.
  unfold character, padded. change (Z.of_nat (length [u8 w])) with 1. destruct (flag flags FLAGS_LEFT); cbn [negb].
  - eapply prints_bind_nil; [apply prints_skip|]. eapply prints_bind_nil; [by apply prints_lift|]. cbv beta iota.
    eapply prints_bind; [apply prints_putc| |reflexivity]. by eapply prints_bind; [apply prints_putn|apply prints_ret|rewrite app_nil_r].
  - eapply prints_bind; [apply prints_putn| |reflexivity]. eapply prints_bind_nil; [by apply prints_lift|]. cbv beta iota.
    by eapply prints_bind; [apply prints_putc|eapply prints_bind_nil; [apply prints_skip|apply prints_ret]|].
Qed.

Lemma strnlen_correct s : forall fuel p str k, cstr m p s -> (length s < fuel)%nat -> 0 <= k ->
  prints (strnlen_loop fst fuel p str k) (u32 (p - str + Z.min k (Z.of_nat (length s)))) [].
Proof.
  induction s as [|c s IH]; intros fuel p str k Hs Hf Hk; (destruct fuel as [|fuel]; [cbn in Hf; lia|]); cbn [strnlen_loop length] in *.
  - apply cstr_nil in Hs. next_char. cbn [Z.eqb orb]. replace (p - str + _) with (p - str) by lia. apply prints_ret.
  - apply cstr_cons in Hs as (Hc & Hc0 & Hs). next_char. rewrite (proj2 (Z.eqb_neq _ _) Hc0). cbn [orb]. destruct (Z.eqb_spec k 0) as [->|Hk0].
    + replace (p - str + _) with (p - str) by lia. apply prints_ret.
    + replace (p - str + Z.min k (Z.of_nat (S (length s)))) with (p + 1 - str + Z.min (k - 1) (Z.of_nat (length s))) by lia. apply IH; [done|lia|lia].
Qed.

Lemma put_string_correct s : forall fuel p limited prec, cstr m p s -> (length s < fuel)%nat -> 0 <= prec ->
  prints (put_string fst out_list 0 0 fuel p limited prec) tt (if limited then take (Z.to_nat prec) s else s).
Proof.
  induction s as [|c s IH]; intros fuel p limited prec Hs Hf Hp; (destruct fuel as [|fuel]; [cbn in Hf; lia|]); cbn [put_string length] in *.
  - apply cstr_nil in Hs. next_char. cbn [Z.eqb orb]. rewrite take_nil, Tauto.if_same. apply prints_skip.
  - apply cstr_cons in Hs as (Hc & Hc0 & Hs). next_char. rewrite (proj2 (Z.eqb_neq _ _) Hc0). cbn [orb]. destruct limited; cbn [andb].
    + destruct (Z.eqb_spec prec 0) as [->|Hp0]; [apply prints_skip|].
      eapply prints_bind; [apply prints_putc|apply (IH fuel (p + 1) true (prec - 1)); [done|lia|lia]|].
      by replace (Z.to_nat prec) with (S (Z.to_nat (prec - 1))) by lia.
    + by eapply prints_bind; [apply prints_putc|apply (IH fuel (p + 1) false prec); [done|lia|lia]|].
Qed.

Lemma string_correct fuel width prec flags w va s : cstr m (u64 w) s -> (length s < fuel)%nat -> Z.of_nat (length s) < 2 ^ 32 -> 0 <= prec < 2 ^ 32 ->
  (flag flags FLAGS_PRECISION = false -> prec = 0) ->
  prints (string fst out_list 0 0 fuel width prec flags (w :: va)) va (padded width flags (cut prec flags s)).
Proof.
  intros Hs Hf Hlen Hp Hnp. unfold string. eapply prints_bind_nil; [by apply prints_lift|]. cbv beta iota zeta.
  eapply prints_bind_nil; [apply (strnlen_correct s); [done|done|case_match; [done|lia]]|]. cbv beta.
  match goal with |- context [Z.to_nat (width - ?x)] => replace x with (Z.of_nat (length (cut prec flags s))) end.
  2: { rewrite Z.sub_diag, Z.add_0_l. unfold cut, u32. assert (Z.of_nat (length s) < u64 (-1)) by (change (u64 (-1)) with (2 ^ 64 - 1); lia).
       destruct (flag flags FLAGS_PRECISION); [rewrite length_take|rewrite (Hnp eq_refl); cbn [Z.eqb]; rewrite Z.min_r, Z.mod_small by lia; lia].
       rewrite Z.mod_small by (destruct (prec =? 0); lia). destruct (Z.eqb_spec prec 0);
         match goal with |- context [if ?x <? ?y then _ else _] => destruct (Z.ltb_spec x y) end; lia. }
  pose proof (put_string_correct s fuel (u64 w) (flag flags FLAGS_PRECISION) prec Hs Hf (proj1 Hp)) as Hput. fold (cut prec flags s) in Hput.
  unfold padded. destruct (flag flags FLAGS_LEFT); cbn [negb].
  - eapply prints_bind_nil; [apply prints_skip|]. eapply prints_bind; [exact Hput| |reflexivity].
    by eapply prints_bind; [apply prints_putn|apply prints_ret|rewrite app_nil_r].
  - eapply prints_bind; [apply prints_putn| |reflexivity].
    by eapply prints_bind; [exact Hput|eapply prints_bind_nil; [apply prints_skip|apply prints_ret]|rewrite app_nil_r].
Qed.

Lemma pointer_correct prec flags w va ds : let f := Z.lor flags (Z.lor FLAGS_ZEROPAD FLAGS_UPPERCASE) in
  flag flags FLAGS_HASH = false -> prec <= 31 -> (flag flags FLAGS_LEFT = true -> prec <= 0) -> numeral 16 true (u64 w) ds ->
  prints (pointer out_list 0 0 prec flags (w :: va)) va (field false prec 16 f (shown f (u64 w) ds)).
Proof.
  cbv zeta. intros Hh Hp Hl Hn. unfold pointer, _ntoa_long_long. eapply prints_bind_nil; [by apply prints_lift|]. cbv beta iota.
  set (f := Z.lor flags _). pose proof (sign_length false f).
  assert (flag f FLAGS_HASH = false /\ flag f FLAGS_UPPERCASE = true /\ flag f FLAGS_LEFT = flag flags FLAGS_LEFT) as (Hh' & Hu & Hl')
    by (unfold f; rewrite !flag_lor, Hh; split; [done|]; split; [by rewrite orb_true_r|by rewrite !orb_false_r]).
  assert (0 <= u64 w < 2 ^ 64) as Hw by (apply Z.mod_pos_bound; lia).
  destruct (ntoa_correct (u64 w) false 16 prec 16 f 16) as (ds' & Hn' & H'); try done; try lia; [by rewrite Hl'|].
  rewrite Hu in Hn'. rewrite (numeral_inj 16 true _ _ _ ltac:(lia) Hn Hn'). eapply prints_bind; [exact H'|apply prints_ret|by rewrite app_nil_r].
Qed.

(** *** Formats

    A format is literal characters and conversions.  [shows fuel v va va' cs]: the
    conversion [v] takes [va] to [va'] and stands for [cs]. *)
Inductive shows (fuel : nat) (v : conv) : list Z -> list Z -> list Z -> Prop :=
| shows_int w va ds : is_integer (cv_spec v) = true ->
    let f := int_flags (cv_spec v) (all_flags v) in
    let x := int_arg (cv_spec v) f w in
    int_limits (cv_spec v) (width_of v) (prec_of v) f x -> numeral (int_base (cv_spec v)) (flag f FLAGS_UPPERCASE) (Z.abs x) ds ->
    shows fuel v (w :: va) va (field (x <? 0) (prec_of v) (width_of v) f (shown f x ds))
| shows_char w va : cv_spec v = 99 -> shows fuel v (w :: va) va (padded (width_of v) (all_flags v) [u8 w])
| shows_string w va s : cv_spec v = 115 -> cstr m (u64 w) s -> (length s < fuel)%nat -> Z.of_nat (length s) < 2 ^ 32 ->
    shows fuel v (w :: va) va (padded (width_of v) (all_flags v) (cut (prec_of v) (all_flags v) s))
| shows_pointer w va ds : cv_spec v = 112 ->
    let f := Z.lor (all_flags v) (Z.lor FLAGS_ZEROPAD FLAGS_UPPERCASE) in
    flag (all_flags v) FLAGS_HASH = false -> prec_of v <= 31 -> (flag (all_flags v) FLAGS_LEFT = true -> prec_of v <= 0) ->
    numeral 16 true (u64 w) ds -> shows fuel v (w :: va) va (field false (prec_of v) 16 f (shown f (u64 w) ds))
| shows_percent va : cv_spec v = 37 -> shows fuel v va va [37].

Inductive directive := Lit (c : Z) | Dir (v : conv).
Definition directive_chars (d : directive) : list Z := match d with Lit c => [c] | Dir v => 37 :: conv_chars v end.
Definition format_chars (ds : list directive) : list Z := ds ≫= directive_chars.

Inductive format_text (fuel : nat) : list directive -> list Z -> list Z -> Prop :=
| ft_nil va : format_text fuel [] va []
| ft_lit c ds va cs : c <> 0 -> c <> 37 -> format_text fuel ds va cs -> format_text fuel (Lit c :: ds) va (c :: cs)
| ft_dir v ds va va' cs cs' : conv_ok v -> shows fuel v va va' cs -> format_text fuel ds va' cs' -> format_text fuel (Dir v :: ds) va (cs ++ cs').

Lemma flags_of_precision fl : flag (flags_of fl) FLAGS_PRECISION = false.
Proof.
  induction fl as [|c fl IH]; [done|]. cbn [flags_of foldr]. rewrite flag_lor. fold (flags_of fl). rewrite IH, orb_false_r. unfold flag_of. by repeat case_match.
Qed.

Lemma prec_absent v : flag (all_flags v) FLAGS_PRECISION = false -> prec_of v = 0.
Proof.
  unfold all_flags, prec_of. rewrite !flag_lor. destruct (cv_prec v); [|done]. change (flag FLAGS_PRECISION FLAGS_PRECISION) with true. by rewrite orb_true_r.
Qed.

Lemma decimal_number ds : decimal ds -> 0 <= number 10 ds < 2 ^ 32.
Proof.
  intros [Hds Hn]. split; [|done]. apply (number_bounds 10 true); [lia|]. eapply Forall_impl; [exact Hds|]. intros c Hc%Is_true_true_1.
  unfold _is_digit in Hc. exists (c - 48). split; [lia|]. unfold digit_char. rewrite (proj2 (Z.ltb_lt _ _)); lia.
Qed.

Lemma prec_bounds v : conv_ok v -> 0 <= prec_of v < 2 ^ 32.
Proof. intros Hok. unfold prec_of. destruct (cv_prec v) as [ds|] eqn:E; [|lia]. apply decimal_number. by apply (ok_prec _ Hok). Qed.

Lemma specifier_correct fuel v va va' cs : conv_ok v -> shows fuel v va va' cs ->
  prints (specifier fst out_list 0 0 fuel (cv_spec v) (width_of v) (prec_of v) (all_flags v) va) va' cs.
Proof.
  intros Hok Hs. unfold specifier. destruct Hs as [w va ds Hi f x L Hn|w va Hc|w va s Hc Hs Hf Hl|w va ds Hc f Hh Hp Hl Hn|va Hc].
  - rewrite Hi. by apply integer_correct.
  - rewrite Hc. apply character_correct.
  - rewrite Hc. apply string_correct; try done; [by apply prec_bounds|apply prec_absent].
  - rewrite Hc. by apply pointer_correct.
  - rewrite Hc. eapply prints_bind; [apply prints_putc|apply prints_ret|done].
Qed.

Lemma print_loop_correct fuel ds va cs : format_text fuel ds va cs -> forall n p, bytes_at m p (format_chars ds ++ [0]) ->
  (length (format_chars ds) < n)%nat -> (length (format_chars ds) < fuel)%nat -> prints (print_loop fst out_list 0 0 fuel n p va) tt cs.
Proof.
  induction 1 as [va|c ds va cs Hc0 Hc37 _ IH|v ds va va' cs cs' Hok Hs _ IH]; intros n p Hb Hn Hf; (destruct n as [|n]; [lia|]); cbn [print_loop].
  - apply bytes_at_cons in Hb as [Hc _]. next_char. apply prints_skip.
  - unfold format_chars in *. rewrite bind_cons in *. cbn [directive_chars app length] in *. apply bytes_at_cons in Hb as [Hc Hb]. next_char.
    rewrite (proj2 (Z.eqb_neq _ _) Hc0), (proj2 (Z.eqb_neq _ _) Hc37). cbn [negb]. eapply prints_bind; [apply prints_putc|apply IH; [done|lia|lia]|done].
  - unfold format_chars in *. rewrite bind_cons in *. cbn [directive_chars app length] in *. rewrite length_app in *. apply bytes_at_cons in Hb as [Hc Hb].
    next_char. cbn [Z.eqb negb]. rewrite <-app_assoc in Hb. pose proof Hb as [_ Hb2]%bytes_at_app.
    eapply prints_bind; [eapply conversion_correct; [exact Hok|exact Hb|lia|by apply specifier_correct]| |reflexivity]. cbv beta iota.
    apply IH; [done|lia|lia].
Qed.

Lemma text_ok fuel ds va cs p : format_text fuel ds va cs -> bytes_at m p (format_chars ds ++ [0]) -> (length (format_chars ds) < fuel)%nat ->
  text fuel m p va = Ok cs.
Proof. intros Ht Hb Hf. unfold text. by run (print_loop_correct fuel ds va cs Ht fuel p Hb Hf Hf 0 []). Qed.
End numbers.


(** *** Behaviours worth knowing *)

(** A base prefix replaces digits when the number is as long as the field. *)
Lemma prefix_over_digits : ex_text "%#4x" [0x1234] = Ok (bytes "0x34") /\ ex_text "%#5x" [0x1234] = Ok (bytes "0x1234").
Proof. split; vm_compute; reflexivity. Qed.

(** The buffer of a conversion has no room for 64 binary digits: the high ones
    are lost. *)
Lemma binary_truncated : ex_text "%lb" [2 ^ 32] = Ok (replicate 32 48).
Proof. vm_compute. reflexivity. Qed.

(** Left-aligned numbers have no precision. *)
Lemma left_without_precision : ex_text "%-5.3d|%5.3d" [7; 7] = Ok (bytes "7    |  007").
Proof. vm_compute. reflexivity. Qed.

(** Zeros are padded up to the size of the buffer. *)
Lemma zeros_bounded : ex_text "%040u" [7] = Ok (replicate 31 48 ++ [55]).
Proof. vm_compute. reflexivity. Qed.

(** The least value has no magnitude in its type. *)
Lemma least_int : ex_text "%d" [2 ^ 31] = Fault /\ ex_text "%u" [2 ^ 31] = Ok (bytes "2147483648").
Proof. split; vm_compute; reflexivity. Qed.

(** A format that ends in a percent sign: its terminator is printed and the
    format is read on behind it. *)
Lemma percent_at_end : text 100 (write_bytes ∅ 1000 (bytes "ab%" ++ [0] ++ bytes "cd" ++ [0])) 1000 [] = Ok (bytes "ab" ++ [0] ++ bytes "cd").
Proof. vm_compute. reflexivity. Qed.

(** ** Concrete runs *)

Definition ex_conv : conv := Conv [48] [52] None L_none 88.
Definition ex_format : list directive := [Dir ex_conv; Lit 58; Dir (Conv [45] [53] None L_l 100); Dir (Conv [] [] (Some [50]) L_none 115)].
Definition ex_mem : mem := write_bytes (write_bytes (write_bytes ∅ 1000 (format_chars ex_format ++ [0])) 5000 (bytes "lyk" ++ [0])) 7000 (replicate 8 0xAA).

(** What a numeral is can be evaluated. *)
Lemma numeral_intro base upper v cs : number base cs = v -> Forall (fun c => digit_char upper (digit_val c) = c /\ 0 <= digit_val c < base) cs ->
  cs <> [] -> cs = [48] \/ head cs <> Some 48 -> numeral base upper v cs.
Proof. intros Hn Hall Hne Hh. split; [done|]. split; [|done]. eapply Forall_impl; [exact Hall|]. intros c [E Hc]. by exists (digit_val c). Qed.

Ltac eval_all tac := cbn; repeat (apply Forall_cons_2; [tac|]); apply Forall_nil_2.
Ltac eval_numeral := apply numeral_intro; [vm_compute; reflexivity|eval_all ltac:(vm_compute; done)|done|right; vm_compute; done].
Ltac eval_limits := split; vm_compute; done.
Ltac eval_decimal := split; [eval_all done|vm_compute; done].
Ltac eval_conv := split; [eval_all ltac:(eexists; reflexivity)|split; [eval_decimal|done]|intros ? [= <-]; eval_decimal|
  unfold specifiers; rewrite ?elem_of_cons; tauto].

Ltac eval_bytes := apply bytes_dec; vm_compute; reflexivity.

Lemma ex_format_text : format_text ex_mem 100 ex_format [0x1AF; 2 ^ 64 - 42; 5000] (bytes "01AF:-42  ly").
Proof.
  change (bytes "01AF:-42  ly") with (bytes "01AF" ++ 58 :: bytes "-42  " ++ bytes "ly" ++ []).
  apply (ft_dir _ _ _ _ _ [2 ^ 64 - 42; 5000]); [eval_conv| |apply ft_lit; [done|done|apply (ft_dir _ _ _ _ _ [5000]); [eval_conv| |
    apply (ft_dir _ _ _ _ _ []); [eval_conv| |apply ft_nil]]]].
  - apply (shows_int _ _ ex_conv 0x1AF _ (bytes "1AF")); [done|eval_limits|eval_numeral].
  - apply (shows_int _ _ (Conv [45] [53] None L_l 100) (2 ^ 64 - 42) _ (bytes "42")); [done|eval_limits|eval_numeral].
  - apply (shows_string _ _ (Conv [] [] (Some [50]) L_none 115) 5000 _ (bytes "lyk")); [done| |cbn; lia|cbn; lia].
    split; [eval_bytes|eval_all done].
Qed.


Lemma vsnprintf_correct_witness : vsnprintf_ 100 7000 8 1000 [0x1AF; 2 ^ 64 - 42; 5000] ex_mem =
  Ok (12, write_bytes ex_mem 7000 (bytes "01AF:-4" ++ [0])).
Proof.
  apply (vsnprintf_correct 100 7000 8 1000 _ ex_mem (bytes "01AF:-42  ly")); [done|lia| |vm_compute; reflexivity].
  intros i Hi. change (Z.to_nat 8) with 8%nat in Hi. do 8 (destruct i as [|i]; [eexists; vm_compute; reflexivity|]). lia.
Defined.
