(* ===== verification/Rbtree.v ===== *)
(** * Red-black trees (kernel/src/lib/rbtree.c, rbtree.h)

    Pointer level model: nodes with parent, left and right pointers live in a
    store; a tree is its root pointer.  Every assignment of the C code is one
    update of the store, in the same order. *)
From stdpp Require Import base gmap list fin_maps sorting.
From Stdlib Require Import ZArith Lia.
From S2P Require Import Prelude.

Record rbtree_node_t := RNode {
  key : Z; value : Z; parent : Z; left : Z; right : Z; red : bool
}.

Abbreviation rnodes := (gmap Z rbtree_node_t).

(** [rbtree_t] and the store its nodes live in. *)
Record rbtree_t := MkTree { root : Z; store_ : rnodes }.

Definition get (t : rbtree_t) (p : Z) : outcome rbtree_node_t := deref (store_ t !! p).

Definition upd (t : rbtree_t) (p : Z) (f : rbtree_node_t -> rbtree_node_t) : outcome rbtree_t :=
  n ← get t p; Ok (MkTree (root t) (<[p := f n]> (store_ t))).

Definition set_parent (t : rbtree_t) (p v : Z) :=
  upd t p (fun n => RNode (key n) (value n) v (left n) (right n) (red n)).
Definition set_left (t : rbtree_t) (p v : Z) :=
  upd t p (fun n => RNode (key n) (value n) (parent n) v (right n) (red n)).
Definition set_right (t : rbtree_t) (p v : Z) :=
  upd t p (fun n => RNode (key n) (value n) (parent n) (left n) v (red n)).
Definition set_red (t : rbtree_t) (p : Z) (c : bool) :=
  upd t p (fun n => RNode (key n) (value n) (parent n) (left n) (right n) c).
Definition set_root (t : rbtree_t) (v : Z) : rbtree_t := MkTree v (store_ t).

Definition isnull (p : Z) : bool := p =? NULL.

(** [!p || !p->red], the colour test of a possibly missing child. *)
Definition is_black (t : rbtree_t) (p : Z) : outcome bool :=
  if isnull p then Ok true else n ← get t p; Ok (negb (red n)).

Definition left_rotate (t : rbtree_t) (x : Z) : outcome rbtree_t :=
  xn ← get t x;
  let y := right xn in
  yn ← get t y;
  t ← set_right t x (left yn);
  t ← (if negb (isnull (left yn)) then set_parent t (left yn) x else Ok t);
  xn ← get t x;
  t ← set_parent t y (parent xn);
  t ← (if isnull (parent xn) then Ok (set_root t y)
       else pn ← get t (parent xn);
            if x =? left pn then set_left t (parent xn) y else set_right t (parent xn) y);
  t ← set_left t y x;
  set_parent t x y.

Definition right_rotate (t : rbtree_t) (x : Z) : outcome rbtree_t :=
  xn ← get t x;
  let y := left xn in
  yn ← get t y;
  t ← set_left t x (right yn);
  t ← (if negb (isnull (right yn)) then set_parent t (right yn) x else Ok t);
  xn ← get t x;
  t ← set_parent t y (parent xn);
  t ← (if isnull (parent xn) then Ok (set_root t y)
       else pn ← get t (parent xn);
            if x =? right pn then set_right t (parent xn) y else set_left t (parent xn) y);
  t ← set_right t y x;
  set_parent t x y.

(** One iteration of the loop of [fix_insert]; [inr] leaves the loop. *)
Definition fix_insert_step : rbtree_t * Z -> outcome ((rbtree_t * Z) + rbtree_t) := fun '(t, z) =>
  zn ← get t z;
  let p := parent zn in
  if isnull p then Ok (inr t) else
  pn ← get t p;
  if negb (red pn) then Ok (inr t) else
  let gp := parent pn in
  if isnull gp then Ok (inr t) else
  gn ← get t gp;
  if p =? left gn then
    let y := right gn in
    yred ← (if isnull y then Ok false else n ← get t y; Ok (red n));
    if yred : bool then
      t ← set_red t p false; t ← set_red t y false; t ← set_red t gp true;
      Ok (inl (t, gp))
    else
      '(t, z) ← (if z =? right pn then t ← left_rotate t p; Ok (t, p) else Ok (t, z));
      zn ← get t z;
      t ← set_red t (parent zn) false;
      t ← set_red t gp true;
      t ← right_rotate t gp;
      Ok (inl (t, z))
  else
    let y := left gn in
    yred ← (if isnull y then Ok false else n ← get t y; Ok (red n));
    if yred : bool then
      t ← set_red t p false; t ← set_red t y false; t ← set_red t gp true;
      Ok (inl (t, gp))
    else
      '(t, z) ← (if z =? left pn then t ← right_rotate t p; Ok (t, p) else Ok (t, z));
      zn ← get t z;
      t ← set_red t (parent zn) false;
      t ← set_red t gp true;
      t ← left_rotate t gp;
      Ok (inl (t, z)).

Definition fix_insert (fuel : nat) (t : rbtree_t) (z : Z) : outcome rbtree_t :=
  t ← loop fuel fix_insert_step (t, z);
  if isnull (root t) then Ok t else set_red t (root t) false.

Definition min_step (t : rbtree_t) (x : Z) : outcome (Z + Z) :=
  n ← get t x; Ok (if isnull (left n) then inr x else inl (left n)).

Definition tree_min (fuel : nat) (t : rbtree_t) (x : Z) : outcome Z :=
  if isnull x then Ok x else loop fuel (min_step t) x.

Definition transplant (t : rbtree_t) (u v : Z) : outcome rbtree_t :=
  un ← get t u;
  t ← (if isnull (parent un) then Ok (set_root t v)
       else pn ← get t (parent un);
            if u =? left pn then set_left t (parent un) v else set_right t (parent un) v);
  if isnull v then Ok t else un ← get t u; set_parent t v (parent un).

Definition find_step (t : rbtree_t) (k n : Z) : outcome (Z + Z) :=
  if isnull n then Ok (inr NULL) else
  nn ← get t n;
  Ok (if k =? key nn then inr n else if k <? key nn then inl (left nn) else inl (right nn)).

Definition rb_find (fuel : nat) (t : rbtree_t) (k : Z) : outcome Z :=
  loop fuel (find_step t k) (root t).

(** The descent of [rb_insert]: the last node visited, or [None] when the key
    is already there. *)
Definition descend_step (t : rbtree_t) (k : Z) : Z * Z -> outcome ((Z * Z) + option Z) := fun '(y, x) =>
  if isnull x then Ok (inr (Some y)) else
  xn ← get t x;
  Ok (if k =? key xn then inr None
      else if k <? key xn then inl (x, left xn) else inl (x, right xn)).

Definition insert_point (fuel : nat) (t : rbtree_t) (k : Z) : outcome (option Z) :=
  loop fuel (descend_step t k) (NULL, root t).

(** The new node becomes a red leaf below [y]. *)
Definition attach (t : rbtree_t) (z y : Z) : outcome rbtree_t :=
  t ← set_parent t z y;
  t ← set_left t z NULL;
  t ← set_right t z NULL;
  t ← set_red t z true;
  if isnull y then Ok (set_root t z)
  else zn ← get t z;
       yn ← get t y;
       if key zn <? key yn then set_left t y z else set_right t y z.

Definition rb_insert (fuel : nat) (t : rbtree_t) (z : Z) : outcome (bool * rbtree_t) :=
  zn ← get t z;
  pt ← insert_point fuel t (key zn);
  match pt with
  | None => Ok (false, t)
  | Some y =>
      t ← attach t z y;
      t ← fix_insert fuel t z;
      Ok (true, t)
  end.

(** Deletion fix-up, the case [x == x_parent->left]: first the sibling is made
    black, then recolouring moves up or at most two rotations finish. *)
Definition fix_remove_left_last (t : rbtree_t) (x_parent w : Z) : outcome rbtree_t :=
  pn ← get t x_parent;
  t ← (if isnull w then Ok t else set_red t w (red pn));
  t ← set_red t x_parent false;
  t ← (if isnull w then Ok t else
       wn ← get t w; if isnull (right wn) then Ok t else set_red t (right wn) false);
  left_rotate t x_parent.

Definition fix_remove_left_black (t : rbtree_t) (x_parent w : Z) : outcome ((rbtree_t * Z * Z) + (rbtree_t * Z)) :=
  wn ← get t w;
  lb ← is_black t (left wn);
  rb ← is_black t (right wn);
  if lb && rb then
    t ← set_red t w true;
    pn ← get t x_parent;
    Ok (inl (t, x_parent, parent pn))
  else
    '(t, w) ← (if rb : bool then
                 t ← (if isnull (left wn) then Ok t else set_red t (left wn) false);
                 t ← set_red t w true; t ← right_rotate t w;
                 pn ← get t x_parent; Ok (t, right pn)
               else Ok (t, w));
    t ← fix_remove_left_last t x_parent w;
    Ok (inr (t, root t)).

Definition fix_remove_left (t : rbtree_t) (x_parent : Z) : outcome ((rbtree_t * Z * Z) + (rbtree_t * Z)) :=
  pn ← get t x_parent;
  let w := right pn in
  wred ← (if isnull w then Ok false else n ← get t w; Ok (red n));
  '(t, w) ← (if wred : bool then
               t ← set_red t w false; t ← set_red t x_parent true; t ← left_rotate t x_parent;
               pn ← get t x_parent; Ok (t, right pn)
             else Ok (t, w));
  fix_remove_left_black t x_parent w.

(** The mirror image, [x] a right child. *)
Definition fix_remove_right_last (t : rbtree_t) (x_parent w : Z) : outcome rbtree_t :=
  pn ← get t x_parent;
  t ← (if isnull w then Ok t else set_red t w (red pn));
  t ← set_red t x_parent false;
  t ← (if isnull w then Ok t else
       wn ← get t w; if isnull (left wn) then Ok t else set_red t (left wn) false);
  right_rotate t x_parent.

Definition fix_remove_right_black (t : rbtree_t) (x_parent w : Z) : outcome ((rbtree_t * Z * Z) + (rbtree_t * Z)) :=
  wn ← get t w;
  lb ← is_black t (left wn);
  rb ← is_black t (right wn);
  if lb && rb then
    t ← set_red t w true;
    pn ← get t x_parent;
    Ok (inl (t, x_parent, parent pn))
  else
    '(t, w) ← (if lb : bool then
                 t ← (if isnull (right wn) then Ok t else set_red t (right wn) false);
                 t ← set_red t w true; t ← left_rotate t w;
                 pn ← get t x_parent; Ok (t, left pn)
               else Ok (t, w));
    t ← fix_remove_right_last t x_parent w;
    Ok (inr (t, root t)).

Definition fix_remove_right (t : rbtree_t) (x_parent : Z) : outcome ((rbtree_t * Z * Z) + (rbtree_t * Z)) :=
  pn ← get t x_parent;
  let w := left pn in
  wred ← (if isnull w then Ok false else n ← get t w; Ok (red n));
  '(t, w) ← (if wred : bool then
               t ← set_red t w false; t ← set_red t x_parent true; t ← right_rotate t x_parent;
               pn ← get t x_parent; Ok (t, left pn)
             else Ok (t, w));
  fix_remove_right_black t x_parent w.

Definition fix_remove_step : rbtree_t * Z * Z -> outcome ((rbtree_t * Z * Z) + (rbtree_t * Z)) :=
  fun '(t, x, x_parent) =>
    go ← (if x =? root t then Ok false
          else if isnull x then Ok true else n ← get t x; Ok (negb (red n)));
    if negb go then Ok (inr (t, x))
    else if isnull x_parent then Ok (inr (t, x))
    else
      pn ← get t x_parent;
      if x =? left pn then fix_remove_left t x_parent else fix_remove_right t x_parent.

Definition fix_remove (fuel : nat) (t : rbtree_t) (x x_parent : Z) : outcome rbtree_t :=
  '(t, x) ← loop fuel fix_remove_step (t, x, x_parent);
  if isnull x then Ok t else set_red t x false.

(** [y] takes the place, the left subtree and the colour of [z]. *)
Definition take_place (t : rbtree_t) (z y : Z) (zn : rbtree_node_t) : outcome rbtree_t :=
  t ← transplant t z y;
  t ← set_left t y (left zn);
  t ← (if isnull (left zn) then Ok t else set_parent t (left zn) y);
  set_red t y (red zn).

(** The unlinking part of [rb_remove]: returns the tree, whether the removed
    position was red, [x] and [x_parent]. *)
Definition unlink (fuel : nat) (t : rbtree_t) (z : Z) : outcome (rbtree_t * bool * Z * Z) :=
  zn ← get t z;
  if isnull (left zn) then
    t ← transplant t z (right zn);
    Ok (t, red zn, right zn, parent zn)
  else if isnull (right zn) then
    t ← transplant t z (left zn);
    Ok (t, red zn, left zn, parent zn)
  else
    y ← tree_min fuel t (right zn);
    yn ← get t y;
    let x := right yn in
    '(t, x_parent) ← (if parent yn =? z then
           t ← (if isnull x then Ok t else set_parent t x y); Ok (t, y)
         else
           t ← transplant t y x;
           zn ← get t z;
           t ← set_right t y (right zn);
           t ← (if isnull (right zn) then Ok t else set_parent t (right zn) y);
           yn' ← get t y;
           Ok (t, parent yn'));
    zn ← get t z;
    t ← take_place t z y zn;
    Ok (t, red yn, x, x_parent).

(** The removed node is handed back without links. *)
Definition reset_links (t : rbtree_t) (z : Z) : outcome rbtree_t :=
  t ← set_parent t z NULL;
  t ← set_left t z NULL;
  t ← set_right t z NULL;
  set_red t z false.

Definition rb_remove (fuel : nat) (t : rbtree_t) (k : Z) : outcome (Z * rbtree_t) :=
  z ← rb_find fuel t k;
  if isnull z then Ok (NULL, t) else
  '(t, y_original_red, x, x_parent) ← unlink fuel t z;
  t ← (if negb y_original_red then fix_remove fuel t x x_parent else Ok t);
  t ← reset_links t z;
  Ok (z, t).

Definition rb_first (fuel : nat) (t : rbtree_t) : outcome Z := tree_min fuel t (root t).

(** The climb of [rb_next]: up while the node is a right child. *)
Definition climb_step (t : rbtree_t) : Z * Z -> outcome ((Z * Z) + Z) := fun '(n, p) =>
  if isnull p then Ok (inr p) else
  pn ← get t p;
  Ok (if n =? right pn then inl (p, parent pn) else inr p).

Definition rb_next (fuel : nat) (t : rbtree_t) (n : Z) : outcome Z :=
  if isnull n then Ok NULL else
  nn ← get t n;
  if negb (isnull (right nn)) then tree_min fuel t (right nn)
  else loop fuel (climb_step t) (n, parent nn).

(** ** Trees and their representation

    [tree] is the abstract tree: every node keeps its address, so that the
    in-order list of addresses is a function of it.  A [ctx] is the path from
    a position up to the root (innermost frame first); [tree_at es T ctx t] says
    that the store of [T] holds [t] at that position and the path around it,
    and that the whole tree has the in-order entries [es]. *)
Inductive tree :=
| E
| N (p k v : Z) (c : bool) (l r : tree).

Inductive frame :=
| FL (p k v : Z) (c : bool) (s : tree)
| FR (p k v : Z) (c : bool) (s : tree).

#[export] Instance tree_eq_dec : EqDecision tree.
Proof. solve_decision. Defined.

Definition ptr (t : tree) : Z := match t with E => NULL | N p _ _ _ _ _ => p end.
Definition is_red (t : tree) : bool := match t with E => false | N _ _ _ c _ _ => c end.

(** In-order entries: address, key and value. *)
Fixpoint elems (t : tree) : list (Z * Z * Z) :=
  match t with E => [] | N p k v _ l r => elems l ++ (p, k, v) :: elems r end.

Definition addr (e : Z * Z * Z) : Z := e.1.1.
Definition ekey (e : Z * Z * Z) : Z := e.1.2.
Definition ptrs (t : tree) : list Z := addr <$> elems t.
Definition keys (t : tree) : list Z := ekey <$> elems t.

Definition fp (f : frame) : Z := match f with FL p _ _ _ _ | FR p _ _ _ _ => p end.
Definition fc (f : frame) : bool := match f with FL _ _ _ c _ | FR _ _ _ c _ => c end.
Definition fs (f : frame) : tree := match f with FL _ _ _ _ s | FR _ _ _ _ s => s end.
Definition plug1 (f : frame) (t : tree) : tree :=
  match f with FL p k v c s => N p k v c t s | FR p k v c s => N p k v c s t end.
Fixpoint plug (ctx : list frame) (t : tree) : tree :=
  match ctx with [] => t | f :: ctx => plug ctx (plug1 f t) end.
Definition cpar (ctx : list frame) : Z := match ctx with [] => NULL | f :: _ => fp f end.

Fixpoint rep (h : rnodes) (par : Z) (t : tree) : Prop :=
  match t with
  | E => True
  | N p k v c l r =>
      p <> NULL /\ h !! p = Some (RNode k v par (ptr l) (ptr r) c) /\ rep h p l /\ rep h p r
  end.

Definition fnode (f : frame) (par hole : Z) : rbtree_node_t :=
  match f with
  | FL p k v c s => RNode k v par hole (ptr s) c
  | FR p k v c s => RNode k v par (ptr s) hole c
  end.

Fixpoint rep_ctx (h : rnodes) (rt : Z) (ctx : list frame) (hole : Z) : Prop :=
  match ctx with
  | [] => rt = hole
  | f :: ctx =>
      fp f <> NULL /\ h !! fp f = Some (fnode f (cpar ctx) hole) /\
      rep h (fp f) (fs f) /\ rep_ctx h rt ctx (fp f)
  end.

Definition tree_at (es : list (Z * Z * Z)) (T : rbtree_t) (ctx : list frame) (t : tree) : Prop :=
  rep (store_ T) (cpar ctx) t /\ rep_ctx (store_ T) (root T) ctx (ptr t) /\
  elems (plug ctx t) = es /\ NoDup (addr <$> es).

(** Nothing outside the listed nodes changed. *)
Definition touch (es : list (Z * Z * Z)) (T T' : rbtree_t) : Prop :=
  forall q, q ∉ addr <$> es -> store_ T' !! q = store_ T !! q.

(** In-order entries left and right of a position. *)
Fixpoint cl (ctx : list frame) : list (Z * Z * Z) :=
  match ctx with
  | [] => []
  | FL _ _ _ _ _ :: ctx => cl ctx
  | FR p k v _ s :: ctx => cl ctx ++ elems s ++ [(p, k, v)]
  end.
Fixpoint cr (ctx : list frame) : list (Z * Z * Z) :=
  match ctx with
  | [] => []
  | FL p k v _ s :: ctx => (p, k, v) :: elems s ++ cr ctx
  | FR _ _ _ _ _ :: ctx => cr ctx
  end.

Lemma elems_plug ctx t : elems (plug ctx t) = cl ctx ++ elems t ++ cr ctx.
Proof.
  revert t. induction ctx as [|[] ctx IH]; intros t; simpl; [by rewrite app_nil_r| |];
    rewrite IH; simpl; by rewrite <- ?app_assoc.
Qed.

Lemma ptrs_plug ctx t : ptrs (plug ctx t) = (addr <$> cl ctx) ++ ptrs t ++ (addr <$> cr ctx).
Proof. unfold ptrs. by rewrite elems_plug, !fmap_app. Qed.

Lemma ptrs_N p k v c l r : ptrs (N p k v c l r) = ptrs l ++ p :: ptrs r.
Proof. unfold ptrs. simpl. by rewrite fmap_app. Qed.

Lemma rep_insert h par t p n : p ∉ ptrs t -> rep h par t -> rep (<[p := n]> h) par t.
Proof.
  revert par. induction t as [|q k v c l IHl r IHr]; intros par; simpl; [done|].
  rewrite ptrs_N, not_elem_of_app, not_elem_of_cons. intros (? & ? & ?) (? & ? & ? & ?).
  rewrite lookup_insert_ne by done. auto.
Qed.

Lemma rep_ctx_insert h rt ctx hole p n :
  p ∉ addr <$> cl ctx -> p ∉ addr <$> cr ctx -> rep_ctx h rt ctx hole ->
  rep_ctx (<[p := n]> h) rt ctx hole.
Proof.
  revert hole. induction ctx as [|[q k v c s|q k v c s] ctx IH]; intros hole; simpl; [done| |];
    rewrite ?fmap_app, ?fmap_cons, ?not_elem_of_app, ?not_elem_of_cons; simpl;
    rewrite ?fmap_app, ?not_elem_of_app; intros ? ? (? & ? & ? & ?); destruct_and?;
    rewrite lookup_insert_ne by done; auto using rep_insert.
Qed.

Lemma tree_at_up es T f ctx t : tree_at es T (f :: ctx) t <-> tree_at es T ctx (plug1 f t).
Proof. destruct f; unfold tree_at; simpl; tauto. Qed.

Lemma tree_at_plug es T ctx t : tree_at es T ctx t <-> tree_at es T [] (plug ctx t).
Proof. revert t. induction ctx as [|f ctx IH]; intros t; simpl; [done|]. by rewrite tree_at_up, IH. Qed.

Lemma tree_at_get es T ctx p k v c l r :
  tree_at es T ctx (N p k v c l r) ->
  p <> NULL /\ get T p = Ok (RNode k v (cpar ctx) (ptr l) (ptr r) c).
Proof. intros [(? & H & _) _]. split; [done|]. unfold get. by rewrite H. Qed.

Lemma isnull_ne p : p <> NULL -> isnull p = false.
Proof. intros. unfold isnull. by apply Z.eqb_neq. Qed.

Lemma NoDup_mid {A} (l1 l2 : list A) x :
  NoDup (l1 ++ x :: l2) <-> x ∉ l1 /\ x ∉ l2 /\ NoDup (l1 ++ l2).
Proof. rewrite <- Permutation_middle, NoDup_cons, not_elem_of_app. tauto. Qed.

(** Turn the distinctness of a tree's addresses into facts about each node
    written out in it. *)
Ltac spread :=
  simpl in *; rewrite ?ptrs_plug, ?ptrs_N in *; cbn [cl cr app fmap] in *;
  repeat match goal with
  | H : context [addr <$> (_ ++ _)] |- _ => rewrite fmap_app in H
  | H : context [addr <$> (_ :: _)] |- _ => rewrite fmap_cons in H; cbn [addr fst] in H
  | H : context [addr <$> []] |- _ => rewrite fmap_nil in H
  | H : context [addr <$> elems ?s] |- _ => change (addr <$> elems s) with (ptrs s) in H
  end;
  repeat match goal with
  | H : NoDup _ |- _ =>
      repeat (progress (repeat rewrite <- app_assoc in H; cbn [app] in H));
      repeat (repeat rewrite app_assoc in H;
              apply NoDup_mid in H; 
              let A := fresh "Ha" in let B := fresh "Hb" in destruct H as (A & B & H));
      clear H
  end;
  repeat match goal with
  | H : _ ∉ _ ++ _ |- _ => apply not_elem_of_app in H; destruct H
  | H : _ ∉ _ :: _ |- _ => apply not_elem_of_cons in H; destruct H
  | H : _ ∉ [] |- _ => clear H
  end.

Lemma ptr_neqb x s : x <> NULL -> x ∉ ptrs s -> (x =? ptr s) = false.
Proof.
  intros Hx Hs. apply Z.eqb_neq. intros ->. destruct s; [done|]. apply Hs. rewrite ptrs_N. simpl. set_solver.
Qed.

(** Read back from a store after updates. *)
Ltac lk :=
  repeat first
    [ rewrite lookup_insert_eq
    | rewrite lookup_insert_ne by congruence
    | match goal with H : ?h !! ?p = Some _ |- context [?h !! ?p] => rewrite H end ].

(** Run a straight line of reads and writes. *)
Ltac exec1 :=
  unfold set_parent, set_left, set_right, set_red, set_root, upd, get;
  repeat (cbn [mbind outcome_bind deref store_ root key value parent left right red negb ptr];
          first
            [ rewrite lookup_insert_eq
            | rewrite lookup_insert_ne by congruence
            | match goal with H : ?h !! ?p = Some _ |- context [?h !! ?p] => rewrite H end
            | rewrite isnull_ne by assumption
            | rewrite Z.eqb_refl
            | rewrite ptr_neqb by assumption
            | match goal with |- context [?x =? ?y] => rewrite (proj2 (Z.eqb_neq x y)) by congruence end
            | progress change (isnull NULL) with true ]).

(** [m] runs to a tree that holds [t] at [ctx], changing only its nodes. *)
Definition step_to es (m : outcome rbtree_t) (T : rbtree_t) (ctx : list frame) (t : tree) : Prop :=
  exists T', m = Ok T' /\ tree_at es T' ctx t /\ touch es T T'.

Lemma step_intro es m T ctx t :
  NoDup (addr <$> es) -> elems (plug ctx t) = es ->
  (NoDup (ptrs (plug ctx t)) -> exists T', m = Ok T' /\ rep (store_ T') (cpar ctx) t /\
     rep_ctx (store_ T') (root T') ctx (ptr t) /\
     (forall q, q ∉ ptrs (plug ctx t) -> store_ T' !! q = store_ T !! q)) ->
  step_to es m T ctx t.
Proof. intros Hps <- H. destruct (H Hps) as (T' & ? & ? & ? & ?). exists T'. by repeat split. Qed.

Lemma touch_refl es T : touch es T T.
Proof. done. Qed.

Lemma touch_trans es T1 T2 T3 : touch es T1 T2 -> touch es T2 T3 -> touch es T1 T3.
Proof. intros H1 H2 q Hq. by rewrite H2, H1. Qed.

Ltac flat_apps := repeat (progress (repeat rewrite <- app_assoc; cbn [app])).
Ltac same_elems :=
  repeat match goal with H : elems (plug _ _) = ?es |- _ => rewrite <- H; clear H end;
  rewrite !elems_plug; cbn [elems cl cr app]; flat_apps; reflexivity.

(** A tree is represented again after its nodes were rewritten. *)
Ltac represent :=
  repeat match goal with
  | |- _ /\ _ => split
  | |- _ <> _ => congruence
  | |- _ !! _ = Some _ => lk; reflexivity
  | |- rep _ _ _ => solve [repeat (apply rep_insert; [assumption|]); assumption]
  | |- rep_ctx _ _ _ _ => solve [repeat (apply rep_ctx_insert; [assumption|assumption|]); assumption]
  | |- _ = _ => reflexivity
  | |- True => exact I
  | |- forall q, q ∉ _ -> _ =>
      let q := fresh "q" in let Hq := fresh "Hq" in
      intros q Hq; spread; cbn [store_]; repeat rewrite lookup_insert_ne by congruence; reflexivity
  end.

Lemma left_rotate_at es T ctx x kx vx cx a y ky vy cy b c :
  tree_at es T ctx (N x kx vx cx a (N y ky vy cy b c)) ->
  step_to es (left_rotate T x) T ctx (N y ky vy cy (N x kx vx cx a b) c).
Proof.
  destruct T as [rt h]. intros (Hr & Hc & Hes & Hnd).
  apply step_intro; [exact Hnd|same_elems|clear Hnd; intros Hnd]. unfold left_rotate.
  destruct b as [|pb kb vb cb bl br];
    destruct ctx as [|[p k v cc s|p k v cc s] ctx]; simpl in Hr, Hc; destruct_and!; subst;
    spread; exec1; (eexists; split; [reflexivity|]; simpl; represent).
Qed.

Lemma right_rotate_at es T ctx x kx vx cx a y ky vy cy b c :
  tree_at es T ctx (N y ky vy cy (N x kx vx cx a b) c) ->
  step_to es (right_rotate T y) T ctx (N x kx vx cx a (N y ky vy cy b c)).
Proof.
  destruct T as [rt h]. intros (Hr & Hc & Hes & Hnd).
  apply step_intro; [exact Hnd|same_elems|clear Hnd; intros Hnd]. unfold right_rotate.
  destruct b as [|pb kb vb cb bl br];
    destruct ctx as [|[p k v cc s|p k v cc s] ctx]; simpl in Hr, Hc; destruct_and!; subst;
    spread; exec1; (eexists; split; [reflexivity|]; simpl; represent).
Qed.

Lemma set_red_at es T ctx p k v c l r c' :
  tree_at es T ctx (N p k v c l r) -> step_to es (set_red T p c') T ctx (N p k v c' l r).
Proof.
  destruct T as [rt h]. intros (Hr & Hc & Hes & Hnd).
  apply step_intro; [exact Hnd|same_elems|clear Hnd; intros Hnd].
  simpl in Hr. destruct_and!. spread. exec1. eexists. split; [reflexivity|]. simpl. represent.
Qed.

(** ** Red-black shape *)

(** No red node has a red child and every path has [n] black nodes. *)
Fixpoint rb (n : nat) (t : tree) : Prop :=
  match t with
  | E => n = 0%nat
  | N _ _ _ true l r => is_red l = false /\ is_red r = false /\ rb n l /\ rb n r
  | N _ _ _ false l r => match n with O => False | S m => rb m l /\ rb m r end
  end.

(** The parent of a position exists and is black. *)
Definition cblack (ctx : list frame) : bool :=
  match ctx with [] => false | f :: _ => negb (fc f) end.

(** A path around a subtree with [n] black nodes on every path; the root is
    black. *)
Fixpoint crb (n : nat) (ctx : list frame) : Prop :=
  match ctx with
  | [] => True
  | f :: ctx =>
      rb n (fs f) /\
      if fc f then is_red (fs f) = false /\ cblack ctx = true /\ crb n ctx else crb (S n) ctx
  end.

(** A subtree may sit at a position unless both it and the parent are red. *)
Lemma rb_plug n ctx t :
  rb n t -> crb n ctx -> (is_red t = false \/ ctx = [] \/ cblack ctx = true) ->
  exists m, rb m (plug ctx t) /\ (ctx <> [] -> is_red (plug ctx t) = false).
Proof.
  revert n t. induction ctx as [|f ctx IH]; intros n t Ht Hc Hcol; simpl; [by exists n|].
  destruct Hc as [Hs Hc]. destruct (fc f) eqn:Ef.
  - destruct Hc as (Hsb & Hb & Hc).
    destruct Hcol as [Hcol|[|Hcol]]; [|done|simpl in Hcol; by rewrite Ef in Hcol].
    destruct (IH n (plug1 f t)) as (m & Hm & Hr); [|done|by auto|].
    { destruct f; simpl in *; subst; auto. }
    exists m. split; [done|]. intros _. apply Hr. by destruct ctx.
  - destruct (IH (S n) (plug1 f t)) as (m & Hm & Hr); [|done| |].
    { destruct f; simpl in *; subst; auto. }
    { left. by destruct f; simpl in *. }
    exists m. split; [done|]. intros _. destruct ctx; [|by apply Hr]. by destruct f; simpl in *.
Qed.

Lemma rb_unplug n ctx t : rb n (plug ctx t) -> is_red (plug ctx t) = false ->
  exists m, rb m t /\ crb m ctx /\ (is_red t = false \/ cblack ctx = true).
Proof.
  revert n t. induction ctx as [|f ctx IH]; intros n t Ht Hb; simpl in *; [by eauto|].
  destruct (IH _ _ Ht Hb) as (m & Hm & Hc & Hcol).
  destruct f as [p k v [] s|p k v [] s]; simpl in *; destruct_and?.
  1,3: exists m; destruct Hcol; [done|]; by repeat split; auto.
  all: destruct m as [|m]; [done|]; exists m; destruct_and!; by repeat split; auto.
Qed.

(** ** Insertion *)

Lemma tree_at_par es T f ctx t :
  tree_at es T (f :: ctx) t -> fp f <> NULL /\ get T (fp f) = Ok (fnode f (cpar ctx) (ptr t)).
Proof. intros (_ & (? & H & _) & _). split; [done|]. unfold get. by rewrite H. Qed.

Lemma tree_at_gpar es T f g ctx t :
  tree_at es T (f :: g :: ctx) t -> fp g <> NULL /\ get T (fp g) = Ok (fnode g (cpar ctx) (fp f)).
Proof. intros (_ & (_ & _ & _ & ? & H & _) & _). split; [done|]. unfold get. by rewrite H. Qed.

Lemma ptr_neq_sib es T f ctx t :
  tree_at es T (f :: ctx) t -> ptr t <> NULL -> (ptr t =? ptr (fs f)) = false.
Proof.
  intros (_ & _ & <- & Hnd) Hz. destruct t as [|z k v c l r]; [done|]. apply ptr_neqb; [done|].
  fold (ptrs (plug (f :: ctx) (N z k v c l r))) in Hnd. destruct f; simpl; spread; assumption.
Qed.

(** The colour test of a possibly missing child. *)
Lemma red_test T par u :
  rep (store_ T) par u -> (if isnull (ptr u) then Ok false else n ← get T (ptr u); Ok (red n)) = Ok (is_red u).
Proof.
  destruct u as [|p k v c l r]; [done|]. intros (? & H & _). simpl ptr. rewrite isnull_ne by done.
  unfold get. by rewrite H.
Qed.

Lemma sib_rep es T f ctx t : tree_at es T (f :: ctx) t -> rep (store_ T) (fp f) (fs f).
Proof. intros (_ & (_ & _ & ? & _) & _). done. Qed.

(** Look at another node of the same tree. *)
Ltac refocus := match goal with
  | H : tree_at _ _ _ _ |- tree_at _ _ _ _ =>
      apply tree_at_plug; apply tree_at_plug in H; exact H end.

(** Run the next call with its lemma at a position of the current tree. *)
Ltac call L :=
  let T := fresh "T" in let E := fresh "E" in let Hat := fresh "Hat" in let Ht := fresh "Ht" in
  edestruct L as (T & E & Hat & Ht); [refocus|]; rewrite E; clear E; cbn [mbind outcome_bind];
  match goal with H : tree_at _ ?T0 _ _, H' : touch _ _ ?T0 |- _ =>
    apply (touch_trans _ _ _ _ H') in Ht; clear H H' end.

(** One iteration: red uncle. *)
Definition ins_ok n ctx t : Prop := rb n t /\ is_red t = true /\ crb n ctx.

Lemma fix_insert_exit es T ctx t :
  tree_at es T ctx t -> ptr t <> NULL -> (ctx = [] \/ cblack ctx = true) ->
  fix_insert_step (T, ptr t) = Ok (inr T).
Proof.
  intros Hat Hz Hb. unfold fix_insert_step. destruct t as [|z k v c l r]; [done|]. simpl ptr.
  run (proj2 (tree_at_get _ _ _ _ _ _ _ _ _ Hat)). cbn [parent].
  destruct ctx as [|f ctx]; [done|]. destruct Hb as [|Hb]; [done|].
  destruct (tree_at_par _ _ _ _ _ Hat) as [Hf Hp]. cbn [cpar]. rewrite isnull_ne by done.
  run Hp. replace (red _) with false; [done|]. simpl in Hb. by destruct f, c0.
Qed.

(** The state after an iteration: the violation moved up, or it is gone and
    the parent is black. *)
Definition ins_next es n T T' z' (up : list frame) : Prop :=
  touch es T T' /\
  exists t', ptr t' = z' /\ z' <> NULL /\
   ((tree_at es T' up t' /\ ins_ok (S n) up t') \/
    (exists f, tree_at es T' (f :: up) t' /\ rb n t' /\ crb n (f :: up) /\ fc f = false)).

Ltac next_up :=
  do 2 eexists; split; [reflexivity|]; split; [assumption|];
  match goal with H : tree_at _ _ _ ?t |- _ => exists t end;
  split; [reflexivity|]; split; [assumption|]; left; split; [assumption|unfold ins_ok; simpl in *; tauto].
Ltac next_done f z :=
  do 2 eexists; split; [reflexivity|]; split; [assumption|]; exists z;
  split; [reflexivity|]; split; [assumption|]; right; exists f;
  split; [refocus|simpl in *; tauto].

Lemma fix_insert_step_ok es n T f g up t :
  tree_at es T (f :: g :: up) t -> ins_ok n (f :: g :: up) t -> fc f = true ->
  exists T' z', fix_insert_step (T, ptr t) = Ok (inl (T', z')) /\ ins_next es n T T' z' up.
Proof.
  intros Hat (Hrb & Hred & Hc) Hf. destruct t as [|z k v c l r]; [done|]. simpl in Hred. subst c.
  destruct (tree_at_get _ _ _ _ _ _ _ _ _ Hat) as [Hz Gz].
  destruct (tree_at_par _ _ _ _ _ Hat) as [Hp Gp].
  destruct (tree_at_gpar _ _ _ _ _ _ Hat) as [Hg Gg].
  pose proof (ptr_neq_sib _ _ _ _ _ Hat Hz) as Nz.
  pose proof (ptr_neq_sib _ _ _ _ _ (proj1 (tree_at_up _ _ _ _ _) Hat)) as Np.
  simpl in Hc. rewrite Hf in Hc. destruct Hc as (Hs & Hsb & Hgb & Hs2 & Hup).
  apply negb_true_iff in Hgb. rewrite Hgb in Hup. pose proof (touch_refl es T) as Tt.
  destruct f as [p pk pv pc s|p pk pv pc s], g as [q qk qv qc u|q qk qv qc u];
    cbn [fp fs fc ptr fnode plug1 cpar] in *; subst pc qc; specialize (Np Hp);
    unfold fix_insert_step; run Gz; cbn [parent]; rewrite isnull_ne by done;
    run Gp; cbn [red parent left right negb]; rewrite isnull_ne by done; run Gg; cbn [left right];
    rewrite ?Z.eqb_refl, ?Np, ?Nz.
  - rewrite (red_test _ q u) by exact (sib_rep _ _ _ _ _ (proj1 (tree_at_up _ _ _ _ _) Hat)). go.
    destruct (is_red u) eqn:Eu.
    + destruct u as [|y yk yv [] ul ur]; try done. cbn [ptr] in *.
      call (set_red_at es T (FL q qk qv false (N y yk yv true ul ur) :: up) p).
      call (set_red_at es T0 (FR q qk qv false (N p pk pv false (N z k v true l r) s) :: up) y).
      call (set_red_at es T1 up q). next_up.
    + go. run Gz. cbn [parent]. call (set_red_at es T (FL q qk qv false u :: up) p).
      call (set_red_at es T0 up q).
      call (right_rotate_at es T1 up p pk pv false (N z k v true l r)).
      next_done (FL p pk pv false (N q qk qv true s u)) (N z k v true l r).
  - rewrite (red_test _ q u) by exact (sib_rep _ _ _ _ _ (proj1 (tree_at_up _ _ _ _ _) Hat)). go.
    destruct (is_red u) eqn:Eu.
    + destruct u as [|y yk yv [] ul ur]; try done. cbn [ptr] in *.
      call (set_red_at es T (FR q qk qv false (N y yk yv true ul ur) :: up) p).
      call (set_red_at es T0 (FL q qk qv false (N p pk pv false (N z k v true l r) s) :: up) y).
      call (set_red_at es T1 up q). next_up.
    + call (right_rotate_at es T (FR q qk qv false u :: up) z k v true l p pk pv true r s).
      match goal with H : tree_at _ _ _ _ |- _ =>
        apply (tree_at_up _ _ (FR z k v true l)) in H;
        run (proj2 (tree_at_get _ _ _ _ _ _ _ _ _ H)) end. cbn [parent cpar fp].
      call (set_red_at es T0 (FR q qk qv false u :: up) z).
      call (set_red_at es T1 up q).
      call (left_rotate_at es T2 up q qk qv true u z).
      next_done (FR z k v false (N q qk qv true u l)) (N p pk pv true r s).
  - rewrite (red_test _ q u) by exact (sib_rep _ _ _ _ _ (proj1 (tree_at_up _ _ _ _ _) Hat)). go.
    destruct (is_red u) eqn:Eu.
    + destruct u as [|y yk yv [] ul ur]; try done. cbn [ptr] in *.
      call (set_red_at es T (FL q qk qv false (N y yk yv true ul ur) :: up) p).
      call (set_red_at es T0 (FR q qk qv false (N p pk pv false s (N z k v true l r)) :: up) y).
      call (set_red_at es T1 up q). next_up.
    + call (left_rotate_at es T (FL q qk qv false u :: up) p pk pv true s z).
      match goal with H : tree_at _ _ _ _ |- _ =>
        apply (tree_at_up _ _ (FL z k v true r)) in H;
        run (proj2 (tree_at_get _ _ _ _ _ _ _ _ _ H)) end. cbn [parent cpar fp].
      call (set_red_at es T0 (FL q qk qv false u :: up) z).
      call (set_red_at es T1 up q).
      call (right_rotate_at es T2 up z k v false (N p pk pv true s l)).
      next_done (FL z k v false (N q qk qv true r u)) (N p pk pv true s l).
  - rewrite (red_test _ q u) by exact (sib_rep _ _ _ _ _ (proj1 (tree_at_up _ _ _ _ _) Hat)). go.
    destruct (is_red u) eqn:Eu.
    + destruct u as [|y yk yv [] ul ur]; try done. cbn [ptr] in *.
      call (set_red_at es T (FR q qk qv false (N y yk yv true ul ur) :: up) p).
      call (set_red_at es T0 (FL q qk qv false (N p pk pv false s (N z k v true l r)) :: up) y).
      call (set_red_at es T1 up q). next_up.
    + go. run Gz. cbn [parent]. call (set_red_at es T (FR q qk qv false u :: up) p).
      call (set_red_at es T0 up q).
      call (left_rotate_at es T1 up q qk qv true u p).
      next_done (FR p pk pv false (N q qk qv true u s)) (N z k v true l r).
Qed.

Lemma fix_insert_loop es len : forall fuel n T ctx t,
  (length ctx <= len)%nat -> (len + 2 <= fuel)%nat -> tree_at es T ctx t -> ins_ok n ctx t ->
  exists T' t', loop fuel fix_insert_step (T, ptr t) = Ok T' /\ tree_at es T' [] t' /\
    touch es T T' /\ exists m, rb m t'.
Proof.
  induction len as [len IH] using (well_founded_induction lt_wf). intros fuel n T ctx t Hlen Hfuel Hat Hok.
  destruct fuel as [|fuel]; [lia|]. pose proof Hok as (Hrb & Hred & Hc).
  assert (ptr t <> NULL) as Hz by (destruct t; [done|]; by destruct (tree_at_get _ _ _ _ _ _ _ _ _ Hat)).
  assert (Hexit : ctx = [] \/ cblack ctx = true ->
    exists T' t', loop (S fuel) fix_insert_step (T, ptr t) = Ok T' /\ tree_at es T' [] t' /\
      touch es T T' /\ exists m, rb m t').
  { intros Hb. exists T, (plug ctx t). rewrite (loop_exit _ _ _ T) by by apply (fix_insert_exit es _ ctx).
    destruct (rb_plug n ctx t Hrb Hc ltac:(tauto)) as (m & ? & _). rewrite <- tree_at_plug.
    split; [done|]. split; [done|]. split; [apply touch_refl|eauto]. }
  destruct ctx as [|f ctx]; [by apply Hexit; left|].
  destruct (fc f) eqn:Ef; [|apply Hexit; right; simpl; by rewrite Ef].
  destruct ctx as [|g up]; [simpl in Hc; rewrite Ef in Hc; naive_solver|].
  destruct (fix_insert_step_ok es n T f g up t Hat Hok Ef) as (T1 & z' & E & Ht & t' & <- & Hz' & Hn).
  rewrite (loop_step _ _ _ (T1, ptr t')) by exact E. simpl in Hlen.
  destruct Hn as [[Hat' Hok']|(f' & Hat' & Hrb' & Hc' & Hf')].
  - destruct (IH (len - 2)%nat ltac:(lia) fuel (S n) T1 up t') as (T2 & t2 & ? & ? & ? & ?);
      [lia|lia|done|done|]. exists T2, t2. eauto using touch_trans.
  - destruct fuel as [|fuel]; [lia|]. assert (cblack (f' :: up) = true) as Hb by (simpl; by rewrite Hf').
    exists T1, (plug (f' :: up) t').
    rewrite (loop_exit _ _ _ T1) by (eapply (fix_insert_exit es _ (f' :: up)); auto).
    destruct (rb_plug n (f' :: up) t' Hrb' Hc' ltac:(tauto)) as (m & ? & _). rewrite <- tree_at_plug.
    split; [done|]. split; [done|]. split; [done|eauto].
Qed.

Lemma rb_blacken m p k v c l r : rb m (N p k v c l r) -> exists m', rb m' (N p k v false l r).
Proof. destruct c; [intros (_ & _ & ? & ?); by exists (S m)|by exists m]. Qed.

Lemma tree_at_root es T t : tree_at es T [] t -> root T = ptr t /\ elems t = es.
Proof. by intros (_ & ? & ? & _). Qed.

Lemma fix_insert_at es fuel n T ctx t :
  (length ctx + 2 <= fuel)%nat -> tree_at es T ctx t -> ins_ok n ctx t ->
  exists T' t', fix_insert fuel T (ptr t) = Ok T' /\ tree_at es T' [] t' /\ touch es T T' /\
    (exists m, rb m t') /\ is_red t' = false.
Proof.
  intros Hf Hat Hok.
  destruct (fix_insert_loop es (length ctx) fuel n T ctx t) as (T' & t' & El & Hat' & Ht & m & Hm); [done..|].
  unfold fix_insert. run El. destruct (tree_at_root _ _ _ Hat') as [-> _].
  destruct t' as [|p k v c l r]; [exists T', E; eauto 10|]. simpl ptr.
  destruct (tree_at_get _ _ _ _ _ _ _ _ _ Hat') as [Hp _]. rewrite isnull_ne by done.
  destruct (set_red_at es T' [] p k v c l r false Hat') as (T2 & -> & Hat2 & Ht2).
  exists T2, (N p k v false l r). split; [done|]. split; [done|].
  split; [by eapply touch_trans|]. split; [by eapply rb_blacken|done].
Qed.

(** ** Height *)

Fixpoint height (t : tree) : nat :=
  match t with E => 0 | N _ _ _ _ l r => S (max (height l) (height r)) end.

Lemma height_plug ctx t : (length ctx + height t <= height (plug ctx t))%nat.
Proof.
  revert t. induction ctx as [|f ctx IH]; intros t; simpl; [lia|].
  specialize (IH (plug1 f t)). destruct f; simpl in *; lia.
Qed.

Lemma rb_height n t : rb n t -> (height t <= 2 * n + if is_red t then 1 else 0)%nat.
Proof.
  revert n. induction t as [|p k v c l IHl r IHr]; intros n; simpl; [lia|].
  destruct c.
  - intros (El & Er & Hl & Hr). apply IHl in Hl. apply IHr in Hr. rewrite El in Hl. rewrite Er in Hr. lia.
  - destruct n; [done|]. intros [Hl Hr]. apply IHl in Hl. apply IHr in Hr.
    destruct (is_red l), (is_red r); lia.
Qed.

Lemma rb_size n t : rb n t -> (2 ^ n <= length (elems t) + 1)%nat.
Proof.
  revert n. induction t as [|p k v c l IHl r IHr]; intros n; simpl; [by intros ->|].
  rewrite length_app. simpl. destruct c.
  - intros (_ & _ & Hl & Hr). apply IHl in Hl. apply IHr in Hr. lia.
  - destruct n; [done|]. intros [Hl Hr]. apply IHl in Hl. apply IHr in Hr. simpl. lia.
Qed.

(** Iterations that are enough for every loop on a tree of [n] nodes. *)
Definition rb_fuel (n : nat) : nat := 2 * Nat.log2 (n + 1) + 3.

Lemma rb_log_height n t : rb n t -> is_red t = false -> (height t <= 2 * Nat.log2 (length (elems t) + 1))%nat.
Proof.
  intros H Hb. pose proof (rb_height n t H) as Hh. rewrite Hb in Hh.
  apply rb_size in H. apply Nat.log2_le_mono in H. rewrite Nat.log2_pow2 in H by lia. lia.
Qed.

Definition sorted (es : list (Z * Z * Z)) : Prop := StronglySorted Z.lt (ekey <$> es).

(** The tree structure [T] holds [t], an ordered red-black tree. *)
Definition is_rbtree (T : rbtree_t) (t : tree) : Prop :=
  tree_at (elems t) T [] t /\ sorted (elems t) /\ (exists n, rb n t) /\ is_red t = false.

Lemma is_rbtree_height T t : is_rbtree T t -> (height t <= 2 * Nat.log2 (length (elems t) + 1))%nat.
Proof. intros (_ & _ & (n & H) & Hb). by eapply rb_log_height. Qed.

(** ** Search *)

Lemma sorted_split es l1 e l2 :
  sorted es -> es = l1 ++ e :: l2 ->
  (forall x, x ∈ l1 -> ekey x < ekey e) /\ (forall x, x ∈ l2 -> ekey e < ekey x).
Proof.
  intros Hs ->. unfold sorted in Hs. rewrite fmap_app, fmap_cons in Hs. split.
  - intros x Hx. eapply StronglySorted_app_1_elem_of; [exact Hs| |].
    + by apply list_elem_of_fmap_2.
    + apply list_elem_of_here.
  - intros x Hx. apply StronglySorted_app_1_r, StronglySorted_cons in Hs as [Hs _].
    rewrite Forall_forall in Hs. apply Hs. by apply list_elem_of_fmap_2.
Qed.

(** The keys around a position all lie on the right side of [k]. *)
Definition around (k : Z) (ctx : list frame) : Prop :=
  (forall e, e ∈ cl ctx -> ekey e < k) /\ (forall e, e ∈ cr ctx -> k < ekey e).

Lemma around_down es T ctx p k' v c l r k :
  sorted es -> tree_at es T ctx (N p k' v c l r) -> around k ctx ->
  (k < k' -> around k (FL p k' v c r :: ctx) /\ k ∉ keys r) /\
  (k' < k -> around k (FR p k' v c l :: ctx) /\ k ∉ keys l).
Proof.
  intros Hs (_ & _ & Hes & _) [Hl Hr]. rewrite elems_plug in Hes. cbn [elems] in Hes.
  destruct (sorted_split es (cl ctx ++ elems l) (p, k', v) (elems r ++ cr ctx) Hs) as [H1 H2].
  { rewrite <- Hes. by flat_apps. }
  unfold ekey in H1, H2. simpl in H1, H2. unfold around, keys. simpl. split; intros Hk.
  - split; [split; [done|]|].
    + intros e [->|[He|He]%elem_of_app]%elem_of_cons; [done| |by apply Hr].
      specialize (H2 e ltac:(set_solver)). unfold ekey. lia.
    + intros (e & -> & He)%list_elem_of_fmap. specialize (H2 e ltac:(set_solver)). unfold ekey in Hk. lia.
  - split; [split; [|done]|].
    + intros e [He|[He|He]%elem_of_app]%elem_of_app; [by apply Hl| |].
      * specialize (H1 e ltac:(set_solver)). unfold ekey. lia.
      * apply list_elem_of_singleton in He as ->. done.
    + intros (e & -> & He)%list_elem_of_fmap. specialize (H1 e ltac:(set_solver)). unfold ekey in Hk. lia.
Qed.

Lemma keys_N p k v c l r : keys (N p k v c l r) = keys l ++ k :: keys r.
Proof. unfold keys. simpl. by rewrite fmap_app. Qed.

Lemma not_in_keys x p k v c l r :
  x ∉ keys (N p k v c l r) <-> x ∉ keys l /\ x <> k /\ x ∉ keys r.
Proof. by rewrite keys_N, not_elem_of_app, not_elem_of_cons. Qed.

Lemma descend_step_at es T ctx p k v c l r x :
  tree_at es T ctx (N p k v c l r) ->
  descend_step T x (cpar ctx, ptr (N p k v c l r)) =
  Ok (if x =? k then inr None else if x <? k then inl (p, ptr l) else inl (p, ptr r)).
Proof.
  intros Hat. destruct (tree_at_get _ _ _ _ _ _ _ _ _ Hat) as [Hp G]. unfold descend_step.
  cbn [ptr]. rewrite isnull_ne by done. by run G.
Qed.

Lemma find_step_at es T ctx p k v c l r x :
  tree_at es T ctx (N p k v c l r) ->
  find_step T x (ptr (N p k v c l r)) =
  Ok (if x =? k then inr p else if x <? k then inl (ptr l) else inl (ptr r)).
Proof.
  intros Hat. destruct (tree_at_get _ _ _ _ _ _ _ _ _ Hat) as [Hp G]. unfold find_step.
  cbn [ptr]. rewrite isnull_ne by done. by run G.
Qed.

Lemma insert_point_at es T k : sorted es -> forall t ctx fuel,
  tree_at es T ctx t -> around k ctx -> (height t < fuel)%nat ->
  exists r, loop fuel (descend_step T k) (cpar ctx, ptr t) = Ok r /\
  match r with
  | None => k ∈ keys t
  | Some y => k ∉ keys t /\ exists ctx', tree_at es T ctx' E /\ y = cpar ctx' /\ around k ctx' /\
                plug ctx' E = plug ctx t
  end.
Proof.
  intros Hs. induction t as [|p k' v c l IHl r IHr]; intros ctx fuel Hat Hk Hf;
    (destruct fuel as [|fuel]; [simpl in *; lia|]).
  - exists (Some (cpar ctx)). split; [done|]. split; [apply not_elem_of_nil|]. eauto.
  - rewrite loop_unfold, (descend_step_at _ _ _ _ _ _ _ _ _ _ Hat). go.
    destruct (around_down _ _ _ _ _ _ _ _ _ k Hs Hat Hk) as [Hlt Hgt].
    simpl in Hf. destruct (Z.eqb_spec k k') as [->|]; [exists None; split; [done|]; rewrite keys_N; set_solver|].
    destruct (Z.ltb_spec k k').
    + destruct (Hlt ltac:(lia)) as [Ha Hn].
      destruct (IHl (FL p k' v c r :: ctx) fuel) as (y & Ey & Hy); [by rewrite tree_at_up|done|lia|].
      cbn [cpar fp] in Ey. rewrite Ey.
      exists y. split; [done|]. destruct y; [|rewrite keys_N; set_solver].
      destruct Hy as (? & ?). by rewrite not_in_keys.
    + destruct (Hgt ltac:(lia)) as [Ha Hn].
      destruct (IHr (FR p k' v c l :: ctx) fuel) as (y & Ey & Hy); [by rewrite tree_at_up|done|lia|].
      cbn [cpar fp] in Ey. rewrite Ey.
      exists y. split; [done|]. destruct y; [|rewrite keys_N; set_solver].
      destruct Hy as (? & ?). by rewrite not_in_keys.
Qed.

Lemma rb_find_at es T k : sorted es -> forall t ctx fuel,
  tree_at es T ctx t -> around k ctx -> (height t < fuel)%nat ->
  exists z, loop fuel (find_step T k) (ptr t) = Ok z /\
  ((z = NULL /\ k ∉ keys t) \/
   exists ctx' v c l r, tree_at es T ctx' (N z k v c l r) /\ plug ctx' (N z k v c l r) = plug ctx t).
Proof.
  intros Hs. induction t as [|p k' v c l IHl r IHr]; intros ctx fuel Hat Hk Hf;
    (destruct fuel as [|fuel]; [simpl in *; lia|]).
  - exists NULL. split; [done|]. left. split; [done|]. apply not_elem_of_nil.
  - rewrite loop_unfold, (find_step_at _ _ _ _ _ _ _ _ _ _ Hat). go.
    destruct (around_down _ _ _ _ _ _ _ _ _ k Hs Hat Hk) as [Hlt Hgt].
    simpl in Hf.
    destruct (Z.eqb_spec k k') as [->|]; [exists p; split; [done|right]; eauto 10|].
    destruct (Z.ltb_spec k k').
    + destruct (Hlt ltac:(lia)) as [Ha Hn].
      destruct (IHl (FL p k' v c r :: ctx) fuel) as (y & -> & Hy); [by rewrite tree_at_up|done|lia|].
      exists y. split; [done|]. destruct Hy as [[-> Hy]|Hy]; [left|by right].
      by rewrite not_in_keys.
    + destruct (Hgt ltac:(lia)) as [Ha Hn].
      destruct (IHr (FR p k' v c l :: ctx) fuel) as (y & -> & Hy); [by rewrite tree_at_up|done|lia|].
      exists y. split; [done|]. destruct Hy as [[-> Hy]|Hy]; [left|by right].
      by rewrite not_in_keys.
Qed.

Lemma attach_at es T ctx z zn :
  tree_at es T ctx E -> around (key zn) ctx -> store_ T !! z = Some zn -> z <> NULL -> z ∉ addr <$> es ->
  step_to (cl ctx ++ (z, key zn, value zn) :: cr ctx) (attach T z (cpar ctx)) T ctx
    (N z (key zn) (value zn) true E E).
Proof.
  destruct T as [rt h], zn as [k v zp zl zr zc]. cbn [key value store_].
  intros (_ & Hc & <- & Hnd) [Hlt Hgt] Hz Hz0 Hfr.
  rewrite elems_plug in Hnd, Hfr. simpl in Hnd, Hfr.
  apply step_intro; [|by rewrite elems_plug|clear Hnd; intros Hnd].
  { rewrite fmap_app, fmap_cons. apply NoDup_mid. rewrite fmap_app, not_elem_of_app in *. tauto. }
  unfold attach. destruct ctx as [|[p pk pv pc s|p pk pv pc s] ctx]; cbn [cpar fp] in *.
  - simpl in Hc. subst. spread. exec1. eexists. split; [reflexivity|]. simpl. represent.
  - specialize (Hgt (p, pk, pv) ltac:(simpl; set_solver)). unfold ekey in Hgt. simpl in Hgt.
    simpl in Hc. destruct_and!. spread. exec1. rewrite (proj2 (Z.ltb_lt k pk)) by done. exec1.
    eexists. split; [reflexivity|]. simpl. represent.
  - specialize (Hlt (p, pk, pv) ltac:(simpl; set_solver)). unfold ekey in Hlt. simpl in Hlt.
    simpl in Hc. destruct_and!. spread. exec1. rewrite (proj2 (Z.ltb_ge k pk)) by lia. exec1.
    eexists. split; [reflexivity|]. simpl. represent.
Qed.

Lemma sorted_insert l1 e l2 :
  sorted (l1 ++ l2) -> (forall x, x ∈ l1 -> ekey x < ekey e) -> (forall x, x ∈ l2 -> ekey e < ekey x) ->
  sorted (l1 ++ e :: l2).
Proof.
  unfold sorted. rewrite !fmap_app, fmap_cons. intros Hs H1 H2. apply StronglySorted_app. split_and!.
  - intros x y (a & -> & Ha)%list_elem_of_fmap [->|(b & -> & Hb)%list_elem_of_fmap]%elem_of_cons; [by apply H1|].
    eapply StronglySorted_app_1_elem_of; [exact Hs|by apply list_elem_of_fmap_2..].
  - by eapply StronglySorted_app_1_l.
  - apply StronglySorted_cons. split; [|by eapply StronglySorted_app_1_r].
    apply Forall_forall. intros x (b & -> & Hb)%list_elem_of_fmap. by apply H2.
Qed.

(** Insertion of a fresh node: the outcome on both branches. *)
Lemma rb_insert_spec T t z zn fuel :
  is_rbtree T t -> store_ T !! z = Some zn -> z <> NULL -> z ∉ ptrs t ->
  (rb_fuel (length (elems t)) <= fuel)%nat ->
  (key zn ∈ keys t /\ rb_insert fuel T z = Ok (false, T)) \/
  (key zn ∉ keys t /\ exists T' t' l1 l2,
     rb_insert fuel T z = Ok (true, T') /\ is_rbtree T' t' /\
     elems t = l1 ++ l2 /\ elems t' = l1 ++ (z, key zn, value zn) :: l2 /\ touch (elems t') T T').
Proof.
  intros Hr Hz Hz0 Hfr Hf. pose proof (is_rbtree_height T t Hr) as Hh. unfold rb_fuel in Hf.
  destruct Hr as (Hat & Hs & (n & Hrb) & Hb).
  destruct (insert_point_at _ T (key zn) Hs t [] fuel Hat) as (y & Ey & Hy); [|lia|].
  { split; intros e He; simpl in He; set_solver. }
  unfold rb_insert, get. rewrite Hz. go. unfold insert_point.
  destruct (tree_at_root _ _ _ Hat) as [-> _]. cbn [cpar] in Ey. run Ey.
  destruct y as [y|]; [right|by left]. destruct Hy as (Hk & ctx & Hc & -> & Har & Hp). simpl in Hp.
  split; [done|].
  destruct (attach_at _ T ctx z zn Hc Har Hz Hz0 Hfr) as (T1 & -> & Hat1 & Ht1). go.
  rewrite <- Hp in Hrb, Hb. destruct (rb_unplug n ctx E Hrb Hb) as (m & Hm & Hcm & _).
  pose proof (height_plug ctx E) as Hlen. rewrite Hp in Hlen. simpl in Hlen.
  assert (ins_ok m ctx (N z (key zn) (value zn) true E E)) as Hok by (unfold ins_ok; simpl in *; auto).
  destruct (fix_insert_at _ fuel m T1 ctx _ ltac:(lia) Hat1 Hok) as (T2 & t' & E2 & Hat2 & Ht2 & Hm' & Hb').
  cbn [ptr] in E2. run E2. exists T2, t', (cl ctx), (cr ctx). destruct (tree_at_root _ _ _ Hat2) as [_ Ees].
  assert (elems t = cl ctx ++ cr ctx) as Eold by (rewrite <- Hp, elems_plug; done).
  rewrite Ees. split; [done|]. split; [|split; [done|split; [done|by eapply touch_trans]]].
  unfold is_rbtree. rewrite Ees. split; [done|]. split; [|done].
  rewrite Eold in Hs. destruct Har. by apply sorted_insert.
Qed.

(** ** Traversal *)

Lemma plug_app f1 f2 t : plug (f1 ++ f2) t = plug f2 (plug f1 t).
Proof. revert t. induction f1 as [|f f1 IH]; intros t; simpl; [done|apply IH]. Qed.

Definition is_FL (f : frame) : Prop := match f with FL _ _ _ _ _ => True | FR _ _ _ _ _ => False end.

Lemma min_step_at es T ctx p k v c l r :
  tree_at es T ctx (N p k v c l r) ->
  min_step T p = Ok (if isnull (ptr l) then inr p else inl (ptr l)).
Proof. intros Hat. unfold min_step. by run (proj2 (tree_at_get _ _ _ _ _ _ _ _ _ Hat)). Qed.

Lemma tree_min_at es T : forall l p k v c r ctx fuel,
  tree_at es T ctx (N p k v c l r) -> (height (N p k v c l r) <= fuel)%nat ->
  exists fs y yk yv yc yr, tree_min fuel T p = Ok y /\
    plug fs (N y yk yv yc E yr) = N p k v c l r /\ Forall is_FL fs.
Proof.
  induction l as [|p' k' v' c' l IH r' _]; intros p k v c r ctx fuel Hat Hf;
    destruct (tree_at_get _ _ _ _ _ _ _ _ _ Hat) as [Hp G];
    (destruct fuel as [|fuel]; [simpl in *; lia|]);
    unfold tree_min; rewrite isnull_ne by done; rewrite loop_unfold, (min_step_at _ _ _ _ _ _ _ _ _ Hat); go; cbn [ptr].
  - exists [], p, k, v, c, r. by repeat split.
  - apply (tree_at_up _ _ (FL p k v c r)) in Hat.
    destruct (tree_at_get _ _ _ _ _ _ _ _ _ Hat) as [Hp' _]. rewrite isnull_ne by done.
    destruct (IH p' k' v' c' r' _ fuel Hat) as (fs & y & yk & yv & yc & yr & Ey & Hpl & Hfs); [simpl in *; lia|].
    unfold tree_min in Ey. rewrite isnull_ne in Ey by done.
    exists (fs ++ [FL p k v c r]), y, yk, yv, yc, yr. split; [done|]. rewrite plug_app, Hpl. split; [done|].
    apply Forall_app. by repeat constructor.
Qed.

Lemma cl_FL fs : Forall is_FL fs -> cl fs = [].
Proof. induction 1 as [|[] fs H Hfs IH]; done. Qed.

(** The minimum is the first entry in order. *)
Lemma tree_min_head es T ctx t fuel :
  tree_at es T ctx t -> (height t <= fuel)%nat ->
  tree_min fuel T (ptr t) = Ok (match elems t with [] => NULL | e :: _ => addr e end).
Proof.
  intros Hat Hf. destruct t as [|p k v c l r]; [done|].
  destruct (tree_min_at es T l p k v c r ctx fuel Hat Hf) as (fs & y & yk & yv & yc & yr & Ey & Hpl & Hfs).
  cbn [ptr]. rewrite Ey, <- Hpl, elems_plug, cl_FL by done. done.
Qed.

Lemma climb_step_at es T f ctx t :
  tree_at es T (f :: ctx) t ->
  climb_step T (ptr t, fp f) =
  Ok (if ptr t =? right (fnode f (cpar ctx) (ptr t)) then inl (fp f, cpar ctx) else inr (fp f)).
Proof.
  intros Hat. destruct (tree_at_par _ _ _ _ _ Hat) as [Hp G]. unfold climb_step.
  rewrite isnull_ne by done. run G. by destruct f.
Qed.

Lemma climb_at es T : forall ctx t fuel,
  tree_at es T ctx t -> ptr t <> NULL -> (length ctx < fuel)%nat ->
  loop fuel (climb_step T) (ptr t, cpar ctx) = Ok (match cr ctx with [] => NULL | e :: _ => addr e end).
Proof.
  induction ctx as [|f ctx IH]; intros t fuel Hat Hz Hf; (destruct fuel as [|fuel]; [simpl in *; lia|]);
    rewrite loop_unfold; [done|]. cbn [cpar]. rewrite (climb_step_at _ _ _ _ _ Hat). go.
  pose proof (ptr_neq_sib _ _ _ _ _ Hat Hz) as Hsib.
  destruct f as [p k v c s|p k v c s]; cbn [fnode fs fp right parent] in *.
  - by rewrite Hsib.
  - rewrite Z.eqb_refl. destruct (tree_at_par _ _ _ _ _ Hat) as [Hp _].
    apply tree_at_up in Hat. apply (IH _ fuel Hat); [done|simpl in *; lia].
Qed.

Lemma elems_find e t : e ∈ elems t ->
  exists ctx c l r, t = plug ctx (N e.1.1 e.1.2 e.2 c l r).
Proof.
  induction t as [|p k v c l IHl r IHr]; simpl; [by intros ?%not_elem_of_nil|].
  intros [Hl|[->|Hr]%elem_of_cons]%elem_of_app.
  - destruct (IHl Hl) as (ctx & c' & l' & r' & E). exists (ctx ++ [FL p k v c r]), c', l', r'. by rewrite plug_app, <- E.
  - by exists [], c, l, r.
  - destruct (IHr Hr) as (ctx & c' & l' & r' & E). exists (ctx ++ [FR p k v c l]), c', l', r'. by rewrite plug_app, <- E.
Qed.

Lemma NoDup_split_eq {A} (l1 l2 m1 m2 : list A) x :
  NoDup (l1 ++ x :: l2) -> l1 ++ x :: l2 = m1 ++ x :: m2 -> l1 = m1 /\ l2 = m2.
Proof.
  revert m1. induction l1 as [|a l1 IH]; intros [|b m1] Hnd Heq; simpl in *; simplify_eq/=.
  - done.
  - apply NoDup_cons in Hnd as [Hx _]. exfalso. apply Hx. set_solver.
  - apply NoDup_cons in Hnd as [Hx _]. exfalso. apply Hx. set_solver.
  - apply NoDup_cons in Hnd as [_ Hnd]. destruct (IH m1 Hnd) as [-> ->]; done.
Qed.

Lemma rb_next_spec T t l1 e l2 fuel :
  is_rbtree T t -> elems t = l1 ++ e :: l2 -> (rb_fuel (length (elems t)) <= fuel)%nat ->
  rb_next fuel T (addr e) = Ok (match l2 with [] => NULL | e' :: _ => addr e' end).
Proof.
  intros Hr He Hf. pose proof (is_rbtree_height T t Hr) as Hh. unfold rb_fuel in Hf.
  destruct Hr as (Hat & _). destruct (elems_find e t) as (ctx & c & l & r & Ht); [rewrite He; set_solver|].
  destruct e as [[n k] v]. cbn [fst snd] in *. subst t.
  assert (NoDup (elems (plug ctx (N n k v c l r)))) as Hnd by (eapply NoDup_fmap_1; apply Hat).
  rewrite elems_plug in Hnd, He. simpl in Hnd, He. 
  pose proof He as He'. rewrite He' in Hnd. rewrite <- app_assoc, app_assoc in He. cbn [app] in He.
  symmetry in He. destruct (NoDup_split_eq _ _ _ _ _ Hnd He) as [_ ->].
  pose proof (height_plug ctx (N n k v c l r)) as Hlen. 
  apply tree_at_plug in Hat. destruct (tree_at_get _ _ _ _ _ _ _ _ _ Hat) as [Hn G].
  unfold rb_next, addr. cbn [fst]. rewrite isnull_ne by done. run G. cbn [right parent].
  destruct r as [|p pk pv pc rl rr].
  - cbn [ptr isnull]. change (isnull NULL) with true. cbn [negb elems app].
    apply (climb_at _ _ _ _ _ Hat); [done|simpl in *; lia].
  - apply (tree_at_up _ _ (FR n k v c l)) in Hat. destruct (tree_at_get _ _ _ _ _ _ _ _ _ Hat) as [Hp _].
    cbn [ptr]. rewrite isnull_ne by done. cbn [negb].
    pose proof (tree_min_head _ _ _ _ fuel Hat ltac:(simpl in *; lia)) as Em. cbn [ptr] in Em. rewrite Em.
    cbn [elems]. by destruct (elems rl).
Qed.

(** ** Removal *)

Lemma is_black_at T par u : rep (store_ T) par u -> is_black T (ptr u) = Ok (negb (is_red u)).
Proof.
  destruct u as [|p k v c l r]; [done|]. intros (? & H & _). unfold is_black. simpl ptr.
  rewrite isnull_ne by done. unfold get. by rewrite H.
Qed.

Definition blacken (t : tree) : tree := match t with E => E | N p k v _ l r => N p k v false l r end.

(** A subtree one black node short of [S m]: a red one is repaired by
    painting its root. *)
Definition short (m : nat) (t : tree) : Prop := if is_red t then rb (S m) (blacken t) else rb m t.

(** What an iteration of the fix-up leaves: the missing black node one
    position further up, or a finished tree. *)
Definition rem_next es T (len : nat) (o : outcome ((rbtree_t * Z * Z) + (rbtree_t * Z))) : Prop :=
  (exists T' t' up m, o = Ok (inl (T', ptr t', cpar up)) /\ tree_at es T' up t' /\ touch es T T' /\
     short m t' /\ crb (S m) up /\ (is_red t' = true \/ (length up < len)%nat)) \/
  (exists T' t', o = Ok (inr (T', root T')) /\ tree_at es T' [] t' /\ touch es T T' /\
     (exists m, rb m t') /\ is_red t' = false).

Lemma rb_plug_root n ctx t :
  rb n t -> crb n ctx -> (is_red t = false \/ cblack ctx = true) ->
  (exists m, rb m (plug ctx t)) /\ is_red (plug ctx t) = false.
Proof.
  intros Ht Hc Hcol. destruct (rb_plug n ctx t Ht Hc ltac:(tauto)) as (m & Hm & Hr).
  split; [by eauto|]. destruct ctx; [simpl in *; by destruct Hcol|by apply Hr].
Qed.

Lemma rem_next_mono es T T' len' len o :
  touch es T T' -> (len' <= len)%nat -> rem_next es T' len' o -> rem_next es T len o.
Proof.
  intros Ht Hl [(T1 & t' & up & m & ? & ? & ? & ? & ? & Hlt)|(T1 & t' & ? & ? & ? & ? & ?)]; [left|right].
  - exists T1, t', up, m. split_and!; try done; [by eapply touch_trans|]. destruct Hlt; [by left|right; lia].
  - exists T1, t'. split_and!; try done. by eapply touch_trans.
Qed.

Lemma tree_at_focus es T ctx t ctx' t' :
  tree_at es T ctx t -> plug ctx t = plug ctx' t' -> tree_at es T ctx' t'.
Proof. intros H E. apply tree_at_plug. apply tree_at_plug in H. by rewrite <- E. Qed.

(** Read a node of the current tree, given its position. *)
Ltac nonnull C X :=
  match goal with Hat : tree_at ?es ?T _ _ |- _ =>
    let H := fresh "Hn" in
    destruct (tree_at_get _ _ _ _ _ _ _ _ _ (tree_at_focus es T _ _ C X Hat eq_refl)) as [H _];
    rewrite isnull_ne by exact H end.
Ltac look C X :=
  match goal with Hat : tree_at ?es ?T _ _ |- _ =>
    let G := fresh "Gn" in
    destruct (tree_at_get _ _ _ _ _ _ _ _ _ (tree_at_focus es T _ _ C X Hat eq_refl)) as [_ G];
    rewrite G; clear G; cbn [mbind outcome_bind key value parent left right red cpar fp ptr] end.

Lemma fix_remove_left_last_ok es n T p pk pv pc w wk wv wl q qk qv ql qr up t :
  tree_at es T (FL p pk pv pc (N w wk wv false wl (N q qk qv true ql qr)) :: up) t ->
  rb n t -> crb (S n) (FL p pk pv pc (N w wk wv false wl (N q qk qv true ql qr)) :: up) ->
  exists T' t', fix_remove_left_last T p w = Ok T' /\ tree_at es T' [] t' /\ touch es T T' /\
    (exists m, rb m t') /\ is_red t' = false.
Proof.
  intros Hat Hrb Hc. unfold fix_remove_left_last. pose proof (touch_refl es T) as Tt.
  look up (N p pk pv pc t (N w wk wv false wl (N q qk qv true ql qr))).
  nonnull (FR p pk pv pc t :: up) (N w wk wv false wl (N q qk qv true ql qr)).
  call (set_red_at es T (FR p pk pv pc t :: up) w).
  call (set_red_at es T0 up p).
  look (FR p pk pv false t :: up) (N w wk wv pc wl (N q qk qv true ql qr)).
  nonnull (FR w wk wv pc wl :: FR p pk pv false t :: up) (N q qk qv true ql qr).
  call (set_red_at es T1 (FR w wk wv pc wl :: FR p pk pv false t :: up) q).
  call (left_rotate_at es T2 up p pk pv false t w).
  do 2 eexists. split; [reflexivity|]. split; [by rewrite <- tree_at_plug|]. split; [done|].
  destruct pc; simpl in Hc.
  - apply (rb_plug_root (S n)); simpl; tauto.
  - apply (rb_plug_root (S (S n))); simpl; tauto.
Qed.

Lemma fix_remove_left_black_ok es n T p pk pv pc w wk wv wl wr up t :
  tree_at es T (FL p pk pv pc (N w wk wv false wl wr) :: up) t ->
  rb n t -> is_red t = false -> crb (S n) (FL p pk pv pc (N w wk wv false wl wr) :: up) ->
  rem_next es T (if pc then 0 else S (length up)) (fix_remove_left_black T p w).
Proof.
  intros Hat Hrb Hb Hc. unfold fix_remove_left_black. pose proof (touch_refl es T) as Tt.
  look (FR p pk pv pc t :: up) (N w wk wv false wl wr).
  pose proof (sib_rep _ _ _ _ _ Hat) as (_ & _ & Hwl & Hwr). cbn [fp] in *.
  rewrite (is_black_at _ w wl), (is_black_at _ w wr) by done. go.
  destruct (is_red wr) eqn:Er; [|destruct (is_red wl) eqn:El].
  - rewrite andb_false_r. cbn [negb]. go. destruct wr as [|q qk qv [] ql qr]; try done.
    destruct (fix_remove_left_last_ok _ _ _ _ _ _ _ _ _ _ _ _ _ _ _ _ _ _ Hat Hrb Hc) as (T' & t' & E1 & ?).
    run E1. right. eauto 10.
  - cbn [negb andb]. destruct wl as [|q qk qv [] ql qr]; try done. cbn [ptr].
    nonnull (FL w wk wv false wr :: FR p pk pv pc t :: up) (N q qk qv true ql qr).
    call (set_red_at es T (FL w wk wv false wr :: FR p pk pv pc t :: up) q).
    call (set_red_at es T0 (FR p pk pv pc t :: up) w).
    call (right_rotate_at es T1 (FR p pk pv pc t :: up) q qk qv false ql w).
    look up (N p pk pv pc t (N q qk qv false ql (N w wk wv true qr wr))).
    match goal with H : tree_at _ ?T' _ _ |- _ =>
      apply (fun a b => tree_at_focus _ _ _ _ (FL p pk pv pc (N q qk qv false ql (N w wk wv true qr wr)) :: up) t b a) in H; [|reflexivity];
      edestruct (fix_remove_left_last_ok _ n _ _ _ _ _ _ _ _ _ _ _ _ _ _ _ _ H) as (T3 & t' & E1 & ? & ? & ?)
    end; [done|simpl in *; tauto|].
    run E1. right. exists T3, t'. eauto using touch_trans.
  - cbn [negb andb]. call (set_red_at es T (FR p pk pv pc t :: up) w).
    look up (N p pk pv pc t (N w wk wv true wl wr)). left.
    match goal with H : tree_at _ ?T' _ _ |- _ => exists T', (N p pk pv pc t (N w wk wv true wl wr)), up, (if pc then n else S n); apply tree_at_up in H end.
    split; [done|]. split; [done|]. split; [done|]. 
    destruct pc; simpl in Hc |- *; [unfold short; simpl; tauto|]. unfold short. simpl. split_and!; try tauto. right. lia.
Qed.

Lemma fix_remove_right_last_ok es n T p pk pv pc w wk wv wl q qk qv ql qr up t :
  tree_at es T (FR p pk pv pc (N w wk wv false (N q qk qv true ql qr) wl) :: up) t ->
  rb n t -> crb (S n) (FR p pk pv pc (N w wk wv false (N q qk qv true ql qr) wl) :: up) ->
  exists T' t', fix_remove_right_last T p w = Ok T' /\ tree_at es T' [] t' /\ touch es T T' /\
    (exists m, rb m t') /\ is_red t' = false.
Proof.
  intros Hat Hrb Hc. unfold fix_remove_right_last. pose proof (touch_refl es T) as Tt.
  look up (N p pk pv pc (N w wk wv false (N q qk qv true ql qr) wl) t).
  nonnull (FL p pk pv pc t :: up) (N w wk wv false (N q qk qv true ql qr) wl).
  call (set_red_at es T (FL p pk pv pc t :: up) w).
  call (set_red_at es T0 up p).
  look (FL p pk pv false t :: up) (N w wk wv pc (N q qk qv true ql qr) wl).
  nonnull (FL w wk wv pc wl :: FL p pk pv false t :: up) (N q qk qv true ql qr).
  call (set_red_at es T1 (FL w wk wv pc wl :: FL p pk pv false t :: up) q).
  call (right_rotate_at es T2 up w wk wv pc (N q qk qv false ql qr) p).
  do 2 eexists. split; [reflexivity|]. split; [by rewrite <- tree_at_plug|]. split; [done|].
  destruct pc; simpl in Hc.
  - apply (rb_plug_root (S n)); simpl; tauto.
  - apply (rb_plug_root (S (S n))); simpl; tauto.
Qed.

Lemma fix_remove_right_black_ok es n T p pk pv pc w wk wv wl wr up t :
  tree_at es T (FR p pk pv pc (N w wk wv false wl wr) :: up) t ->
  rb n t -> is_red t = false -> crb (S n) (FR p pk pv pc (N w wk wv false wl wr) :: up) ->
  rem_next es T (if pc then 0 else S (length up)) (fix_remove_right_black T p w).
Proof.
  intros Hat Hrb Hb Hc. unfold fix_remove_right_black. pose proof (touch_refl es T) as Tt.
  look (FL p pk pv pc t :: up) (N w wk wv false wl wr).
  pose proof (sib_rep _ _ _ _ _ Hat) as (_ & _ & Hwl & Hwr). cbn [fp] in *.
  rewrite (is_black_at _ w wl), (is_black_at _ w wr) by done. go.
  destruct (is_red wl) eqn:Er; [|destruct (is_red wr) eqn:El].
  - rewrite andb_false_l. cbn [negb]. go. destruct wl as [|q qk qv [] ql qr]; try done.
    destruct (fix_remove_right_last_ok _ _ _ _ _ _ _ _ _ _ _ _ _ _ _ _ _ _ Hat Hrb Hc) as (T' & t' & E1 & ?).
    run E1. right. eauto 10.
  - cbn [negb andb]. destruct wr as [|q qk qv [] ql qr]; try done. cbn [ptr].
    nonnull (FR w wk wv false wl :: FL p pk pv pc t :: up) (N q qk qv true ql qr).
    call (set_red_at es T (FR w wk wv false wl :: FL p pk pv pc t :: up) q).
    call (set_red_at es T0 (FL p pk pv pc t :: up) w).
    call (left_rotate_at es T1 (FL p pk pv pc t :: up) w wk wv true wl q).
    look up (N p pk pv pc (N q qk qv false (N w wk wv true wl ql) qr) t).
    match goal with H : tree_at _ ?T' _ _ |- _ =>
      apply (fun a b => tree_at_focus _ _ _ _ (FR p pk pv pc (N q qk qv false (N w wk wv true wl ql) qr) :: up) t b a) in H; [|reflexivity];
      edestruct (fix_remove_right_last_ok _ n _ _ _ _ _ _ _ _ _ _ _ _ _ _ _ _ H) as (T3 & t' & E1 & ? & ? & ?)
    end; [done|simpl in *; tauto|].
    run E1. right. exists T3, t'. eauto using touch_trans.
  - cbn [negb andb]. call (set_red_at es T (FL p pk pv pc t :: up) w).
    look up (N p pk pv pc (N w wk wv true wl wr) t). left.
    match goal with H : tree_at _ ?T' _ _ |- _ => exists T', (N p pk pv pc (N w wk wv true wl wr) t), up, (if pc then n else S n); apply tree_at_up in H end.
    split; [done|]. split; [done|]. split; [done|]. 
    destruct pc; simpl in Hc |- *; [unfold short; simpl; tauto|]. unfold short. simpl. split_and!; try tauto. right. lia.
Qed.


Lemma fix_remove_left_ok es n T p pk pv pc s up t :
  tree_at es T (FL p pk pv pc s :: up) t ->
  rb n t -> is_red t = false -> crb (S n) (FL p pk pv pc s :: up) ->
  rem_next es T (S (length up)) (fix_remove_left T p).
Proof.
  intros Hat Hrb Hb Hc. unfold fix_remove_left. pose proof (touch_refl es T) as Tt.
  look up (N p pk pv pc t s). rewrite (red_test _ p s) by apply (sib_rep _ _ _ _ _ Hat). go.
  destruct s as [|w wk wv [] wl wr]; [by destruct Hc|..]; cbn [is_red ptr].
  - destruct pc; [simpl in Hc; naive_solver|].
    call (set_red_at es T (FR p pk pv false t :: up) w).
    call (set_red_at es T0 up p).
    call (left_rotate_at es T1 up p pk pv true t w).
    look (FL w wk wv false wr :: up) (N p pk pv true t wl).
    destruct wl as [|q qk qv [] ql qr]; [simpl in Hc; naive_solver..|]. cbn [ptr].
    match goal with H : tree_at _ _ _ _, H' : touch _ _ _ |- _ =>
      apply (fun a b => tree_at_focus _ _ _ _
        (FL p pk pv true (N q qk qv false ql qr) :: FL w wk wv false wr :: up) t b a) in H; [|reflexivity];
      apply (rem_next_mono _ _ _ 0 _ _ H'); [lia|];
      apply (fix_remove_left_black_ok _ n _ _ _ _ _ _ _ _ _ _ _ _ H); [done|done|simpl in *; tauto] end.
  - apply (rem_next_mono es T T (if pc then 0 else S (length up)) _ _ Tt)%nat; [destruct pc; lia|].
    by apply (fix_remove_left_black_ok _ n _ _ _ _ _ _ _ _ _ _ _ _ Hat).
Qed.

Lemma fix_remove_right_ok es n T p pk pv pc s up t :
  tree_at es T (FR p pk pv pc s :: up) t ->
  rb n t -> is_red t = false -> crb (S n) (FR p pk pv pc s :: up) ->
  rem_next es T (S (length up)) (fix_remove_right T p).
Proof.
  intros Hat Hrb Hb Hc. unfold fix_remove_right. pose proof (touch_refl es T) as Tt.
  look up (N p pk pv pc s t). rewrite (red_test _ p s) by apply (sib_rep _ _ _ _ _ Hat). go.
  destruct s as [|w wk wv [] wl wr]; [by destruct Hc|..]; cbn [is_red ptr].
  - destruct pc; [simpl in Hc; naive_solver|].
    call (set_red_at es T (FL p pk pv false t :: up) w).
    call (set_red_at es T0 up p).
    call (right_rotate_at es T1 up w wk wv false wl p pk pv true wr t).
    look (FR w wk wv false wl :: up) (N p pk pv true wr t).
    destruct wr as [|q qk qv [] ql qr]; [simpl in Hc; naive_solver..|]. cbn [ptr].
    match goal with H : tree_at _ _ _ _, H' : touch _ _ _ |- _ =>
      apply (fun a b => tree_at_focus _ _ _ _
        (FR p pk pv true (N q qk qv false ql qr) :: FR w wk wv false wl :: up) t b a) in H; [|reflexivity];
      apply (rem_next_mono _ _ _ 0 _ _ H'); [lia|];
      apply (fix_remove_right_black_ok _ n _ _ _ _ _ _ _ _ _ _ _ _ H); [done|done|simpl in *; tauto] end.
  - apply (rem_next_mono es T T (if pc then 0 else S (length up)) _ _ Tt)%nat; [destruct pc; lia|].
    by apply (fix_remove_right_black_ok _ n _ _ _ _ _ _ _ _ _ _ _ _ Hat).
Qed.

Lemma ptr_neq_full es T f ctx t :
  tree_at es T (f :: ctx) t -> fs f <> E -> (ptr t =? ptr (fs f)) = false.
Proof.
  intros Hat Hs. destruct (decide (ptr t = NULL)) as [E0|]; [|by eapply ptr_neq_sib].
  rewrite E0. pose proof (sib_rep _ _ _ _ _ Hat) as Hr. destruct (fs f); [done|].
  apply Z.eqb_neq. intros ?. by destruct Hr.
Qed.

Lemma rep_ctx_root h rt f ctx hole :
  rep_ctx h rt (f :: ctx) hole ->
  rt <> NULL /\ (rt ∈ addr <$> cl (f :: ctx) \/ rt ∈ addr <$> cr (f :: ctx)).
Proof.
  revert f hole. induction ctx as [|g ctx IH]; intros f hole (Hf & _ & _ & Hc).
  - simpl in Hc. subst rt. split; [done|]. destruct f; simpl; [right; set_solver|left].
    rewrite fmap_app. set_solver.
  - destruct (IH g (fp f) Hc) as [? Hin]. split; [done|].
    destruct f; simpl cl in *; simpl cr in *; rewrite ?fmap_app, ?fmap_cons, ?fmap_app; set_solver.
Qed.

Lemma root_in_ctx es T f ctx t : tree_at es T (f :: ctx) t -> (ptr t =? root T) = false.
Proof.
  intros (Hr & Hc & <- & Hnd). apply Z.eqb_neq. intros E0. apply rep_ctx_root in Hc as [Hn Hin].
  rewrite <- E0 in *. destruct t as [|p k v c l r]; [done|]. simpl ptr in *.
  change (NoDup (ptrs (plug (f :: ctx) (N p k v c l r)))) in Hnd.
  rewrite ptrs_plug, ptrs_N in Hnd. rewrite <- app_assoc, app_assoc in Hnd. cbn [app] in Hnd.
  apply NoDup_mid in Hnd. rewrite !not_elem_of_app in Hnd. tauto.
Qed.

Lemma fix_remove_step_ok es n T f up t :
  tree_at es T (f :: up) t -> rb n t -> is_red t = false -> crb (S n) (f :: up) ->
  rem_next es T (S (length up)) (fix_remove_step (T, ptr t, fp f)).
Proof.
  intros Hat Hrb Hb Hc. unfold fix_remove_step. rewrite (root_in_ctx _ _ _ _ _ Hat).
  assert ((if isnull (ptr t) then Ok true else n ← get T (ptr t); Ok (negb (red n))) = Ok true) as ->.
  { destruct t as [|p k v c l r]; [done|]. destruct (tree_at_get _ _ _ _ _ _ _ _ _ Hat) as [Hp G].
    cbn [ptr]. rewrite isnull_ne by done. run G. simpl in *. by rewrite Hb. }
  destruct (tree_at_par _ _ _ _ _ Hat) as [Hf G]. go. cbn [negb]. rewrite isnull_ne by done. run G.
  assert (fs f <> E) as Hs by (intros Hs; simpl in Hc; rewrite Hs in Hc; destruct Hc as [Hc _]; discriminate Hc).
  pose proof (ptr_neq_full _ _ _ _ _ Hat Hs) as Hne.
  destruct f; cbn [fnode left fp fs] in *.
  - rewrite Z.eqb_refl. by apply (fix_remove_left_ok _ n _ _ _ _ _ _ _ _ Hat).
  - rewrite Hne. by apply (fix_remove_right_ok _ n _ _ _ _ _ _ _ _ Hat).
Qed.

(** The fix-up leaves the loop at the root, at a red node, or after a final
    rotation. *)
Lemma fix_remove_exit es T ctx t :
  tree_at es T ctx t -> ctx = [] \/ is_red t = true ->
  fix_remove_step (T, ptr t, cpar ctx) = Ok (inr (T, ptr t)).
Proof.
  intros Hat Hx. unfold fix_remove_step. destruct ctx as [|f ctx].
  - destruct (tree_at_root _ _ _ Hat) as [-> _]. by rewrite Z.eqb_refl.
  - destruct Hx as [|Hx]; [done|]. rewrite (root_in_ctx _ _ _ _ _ Hat).
    destruct t as [|p k v c l r]; [done|]. destruct (tree_at_get _ _ _ _ _ _ _ _ _ Hat) as [Hp G].
    cbn [ptr]. rewrite (isnull_ne p) by done. run G. simpl in *. by rewrite Hx.
Qed.

(** After the loop, painting [x] black completes the tree. *)
Definition rem_done es T (o : outcome (rbtree_t * Z)) : Prop :=
  exists T' ctx t, o = Ok (T', ptr t) /\ tree_at es T' ctx t /\ touch es T T' /\
    (exists m, rb m (plug ctx (blacken t))) /\ is_red (plug ctx (blacken t)) = false.

Lemma is_red_blacken t : is_red (blacken t) = false.
Proof. by destruct t. Qed.

Lemma fix_remove_loop es len : forall fuel n T ctx t,
  (length ctx <= len)%nat -> (len + 2 <= fuel)%nat -> tree_at es T ctx t -> short n t -> crb (S n) ctx ->
  rem_done es T (loop fuel fix_remove_step (T, ptr t, cpar ctx)).
Proof.
  assert (Hexit : forall fuel n T ctx t, tree_at es T ctx t -> short n t -> crb (S n) ctx ->
    ctx = [] \/ is_red t = true -> (0 < fuel)%nat ->
    rem_done es T (loop fuel fix_remove_step (T, ptr t, cpar ctx))).
  { intros [|fuel] n T ctx t Hat Hs Hc Hx Hf; [lia|].
    rewrite (loop_exit _ _ _ (T, ptr t)) by by apply (fix_remove_exit es).
    exists T, ctx, t. split; [done|]. split; [done|]. split; [apply touch_refl|]. unfold short in Hs.
    destruct (is_red t) eqn:Er; [apply (rb_plug_root (S n)); auto using is_red_blacken|].
    destruct Hx as [->|]; [|done]. simpl. split; [|apply is_red_blacken].
    exists n. by destruct t as [|p k v [] l r]. }
  induction len as [len IH] using (well_founded_induction lt_wf). intros fuel n T ctx t Hlen Hfuel Hat Hs Hc.
  destruct ctx as [|f up]; [apply (Hexit fuel n); auto; lia|].
  destruct (is_red t) eqn:Er; [apply (Hexit fuel n); auto; lia|].
  unfold short in Hs. rewrite Er in Hs. simpl in Hlen.
  destruct (fix_remove_step_ok es n T f up t Hat Hs Er Hc)
    as [(T' & t' & up' & m & E1 & Hat' & Ht & Hs' & Hc' & Hlt)|(T' & t' & E1 & Hat' & Ht & (m & Hm) & Hb)].
  - destruct fuel as [|fuel]; [lia|]. cbn [cpar]. rewrite (loop_step _ _ _ _ E1).
    assert (rem_done es T' (loop fuel fix_remove_step (T', ptr t', cpar up'))) as Hd.
    { destruct Hlt as [Hr|Hlt]; [apply (Hexit fuel m); auto; lia|].
      apply (IH (length up') ltac:(lia) fuel m); auto. lia. }
    destruct Hd as (T2 & c2 & t2 & ? & ? & ? & ?). exists T2, c2, t2. eauto using touch_trans.
  - destruct fuel as [|fuel]; [lia|]. cbn [cpar]. rewrite (loop_exit _ _ _ _ E1).
    exists T', [], t'. destruct (tree_at_root _ _ _ Hat') as [-> _].
    split; [done|]. split; [done|]. split; [done|]. simpl. split; [|apply is_red_blacken].
    exists m. by destruct t' as [|p k v [] l r].
Qed.

Lemma fix_remove_at es fuel n T ctx t :
  (length ctx + 2 <= fuel)%nat -> tree_at es T ctx t -> short n t -> crb (S n) ctx ->
  exists T' t', fix_remove fuel T (ptr t) (cpar ctx) = Ok T' /\ tree_at es T' [] t' /\ touch es T T' /\
    (exists m, rb m t') /\ is_red t' = false.
Proof.
  intros Hf Hat Hs Hc. unfold fix_remove.
  destruct (fix_remove_loop es (length ctx) fuel n T ctx t) as (T1 & c1 & t1 & -> & Hat1 & Ht1 & Hm & Hb); [done..|].
  go. destruct t1 as [|p k v c l r].
  - exists T1, (plug c1 E). rewrite <- tree_at_plug. done.
  - destruct (tree_at_get _ _ _ _ _ _ _ _ _ Hat1) as [Hp _]. cbn [ptr]. rewrite isnull_ne by done.
    destruct (set_red_at es T1 c1 p k v c l r false Hat1) as (T2 & -> & Hat2 & Ht2).
    exists T2, (plug c1 (N p k v false l r)). rewrite <- tree_at_plug.
    split; [done|]. split; [done|]. split; [by eapply touch_trans|done].
Qed.

(** [transplant] puts a represented subtree in the place of [u]. *)
Lemma transplant_at T ctx u un q s :
  rep_ctx (store_ T) (root T) ctx u -> store_ T !! u = Some un -> parent un = cpar ctx -> u <> NULL ->
  rep (store_ T) q s -> NoDup (addr <$> cl ctx ++ elems s ++ cr ctx) ->
  u ∉ addr <$> cl ctx ++ elems s ++ cr ctx ->
  step_to (cl ctx ++ elems s ++ cr ctx) (transplant T u (ptr s)) T ctx s.
Proof.
  destruct T as [rt h], un as [uk uv up ul ur uc]. cbn [store_ root parent].
  intros Hc Hu -> Hu0 Hs Hnd Hfr.
  assert (u ∉ ptrs (plug ctx s)) as Hfr' by (unfold ptrs; by rewrite elems_plug). clear Hfr.
  apply step_intro; [done|by rewrite elems_plug|clear Hnd; intros Hnd]. unfold transplant.
  destruct s as [|p k v c l r]; destruct ctx as [|[pp pk pv pc s|pp pk pv pc s] ctx]; simpl in Hc, Hs;
    destruct_and?; simplify_eq; spread; exec1; (eexists; split; [reflexivity|]; simpl; represent).
Qed.

(** Hanging a subtree at an empty left child. *)
Lemma graft_left_at T es ctx y yk yv yc yr q l :
  tree_at es T ctx (N y yk yv yc E yr) -> rep (store_ T) q l -> l <> E ->
  NoDup (addr <$> cl ctx ++ elems l ++ (y, yk, yv) :: elems yr ++ cr ctx) ->
  step_to (cl ctx ++ elems l ++ (y, yk, yv) :: elems yr ++ cr ctx)
    (t ← set_left T y (ptr l); set_parent t (ptr l) y) T ctx (N y yk yv yc l yr).
Proof.
  destruct T as [rt h]. intros (Hr & Hc & Hes & Hnd0) Hl Hne Hnd. clear Hnd0 Hes.
  destruct l as [|p k v c ll lr]; [done|]. 
  apply step_intro; [done|rewrite elems_plug; cbn [elems]; by flat_apps|clear Hnd; intros Hnd].
  simpl in Hr, Hl. destruct_and!. spread. exec1. eexists. split; [reflexivity|]. simpl. represent.
Qed.

Lemma rep_touch es T T' par t :
  touch es T T' -> (forall p, p ∈ ptrs t -> p ∉ addr <$> es) -> rep (store_ T) par t -> rep (store_ T') par t.
Proof.
  intros Ht. revert par. induction t as [|p k v c l IHl r IHr]; intros par Hd; simpl; [done|].
  rewrite ptrs_N in Hd. intros (? & ? & ? & ?). split; [done|]. split; [rewrite Ht; [done|apply Hd; set_solver]|].
  split; [apply IHl|apply IHr]; try done; intros q Hq; apply Hd; set_solver.
Qed.

(** Taking [y] to the place of [z], with the left subtree of [z] below it. *)
Lemma take_place_at T ctx z zn y yk yv yc r q l q' :
  rep_ctx (store_ T) (root T) ctx z -> store_ T !! z = Some zn -> parent zn = cpar ctx -> z <> NULL ->
  left zn = ptr l -> rep (store_ T) q (N y yk yv yc E r) -> rep (store_ T) q' l -> l <> E ->
  NoDup (addr <$> cl ctx ++ elems l ++ (y, yk, yv) :: elems r ++ cr ctx) ->
  z ∉ addr <$> cl ctx ++ elems l ++ (y, yk, yv) :: elems r ++ cr ctx ->
  step_to (cl ctx ++ elems l ++ (y, yk, yv) :: elems r ++ cr ctx)
    (take_place T z y zn) T ctx (N y yk yv (red zn) l r).
Proof.
  intros Hc Hz Hp Hz0 Hlz Hy Hl Hne Hnd Hfr. set (es := cl ctx ++ elems l ++ _) in *.
  set (es1 := cl ctx ++ elems (N y yk yv yc E r) ++ cr ctx).
  assert (forall p, p ∈ addr <$> es1 -> p ∈ addr <$> es) as Hsub.
  { intros p. unfold es, es1. cbn [elems app]. rewrite !fmap_app. set_solver. }
  assert (forall p, p ∈ ptrs l -> p ∉ addr <$> es1) as Hdis.
  { unfold es, es1, ptrs in *. cbn [elems app] in *. rewrite !fmap_app in *.
    apply NoDup_app in Hnd as (_ & H1 & Hnd). apply NoDup_app in Hnd as (_ & H2 & _).
    intros p Hp1. rewrite fmap_cons, fmap_app in *. set_solver. }
  assert (NoDup (addr <$> es1)) as Hnd1.
  { unfold es, es1 in *. cbn [elems app] in *. rewrite !fmap_app in *.
    apply NoDup_app in Hnd as (? & H1 & Hnd). apply NoDup_app in Hnd as (_ & H2 & Hnd).
    apply NoDup_app. split; [done|]. split; [|done]. intros p Hp1 Hp2. apply (H1 p Hp1). set_solver. }
  unfold take_place. destruct (transplant_at T ctx z zn q (N y yk yv yc E r) Hc Hz Hp Hz0 Hy Hnd1)
    as (T1 & E1 & Hat1 & Ht1); [intros ?; by apply Hfr, Hsub|].
  cbn [ptr] in E1. run E1. rewrite Hlz.
  destruct (graft_left_at T1 es1 ctx y yk yv yc r q' l Hat1) as (T2 & E2 & Hat2 & Ht2);
    [by apply (rep_touch es1 T)|done|done|].
  assert (isnull (ptr l) = false) as Hl0 by (destruct l; [done|by apply isnull_ne; destruct Hl]).
  destruct (set_left T1 y (ptr l)) as [T1'| | |] eqn:E1'; cbn [mbind outcome_bind] in E2; try discriminate E2.
  go. rewrite Hl0. run E2. 
  destruct (set_red_at _ T2 ctx y yk yv yc l r (red zn) Hat2) as (T3 & E3 & Hat3 & Ht3).
  exists T3. split; [done|]. split; [done|]. eapply touch_trans; [|done]. eapply touch_trans; [|done].
  intros p Hq. apply Ht1. intros Hin. by apply Hq, Hsub.
Qed.

(** [y], out of the tree, takes the right subtree of [z] below it. *)
Lemma take_right_at es T ctx z k v zc l r y yn :
  tree_at es T ctx (N z k v zc l r) -> r <> E -> y ∉ addr <$> es -> y <> NULL ->
  store_ T !! y = Some yn -> left yn = NULL ->
  exists T', (t ← set_right T y (ptr r); set_parent t (ptr r) y) = Ok T' /\
    rep_ctx (store_ T') (root T') ctx z /\ store_ T' !! z = store_ T !! z /\ rep (store_ T') z l /\
    rep (store_ T') (parent yn) (N y (key yn) (value yn) (red yn) E r) /\
    (forall q, q <> y -> q ∉ addr <$> es -> store_ T' !! q = store_ T !! q).
Proof.
  destruct T as [rt h], yn as [yk yv yp yl yr yc]. cbn [store_ root parent left key value red].
  intros (Hr & Hc & <- & Hnd) Hne Hy Hy0 Hyn ->. destruct r as [|p pk pv pc rl rr]; [done|].
  change (NoDup (ptrs (plug ctx (N z k v zc l (N p pk pv pc rl rr))))) in Hnd.
  change (y ∉ ptrs (plug ctx (N z k v zc l (N p pk pv pc rl rr)))) in Hy.
  simpl in Hr. destruct_and!. spread. exec1. eexists. split; [reflexivity|]. simpl. represent.
  intros q0 Hq0 Hq. change (q0 ∉ ptrs (plug ctx (N z k v zc l (N p pk pv pc rl rr)))) in Hq. spread.
  by rewrite !lookup_insert_ne by congruence.
Qed.

(** The colours around the position a node with at most one child left: when
    it was red the tree is complete, otherwise one black node is missing. *)
Definition after_unlink (yred : bool) (s : tree) (ctx : list frame) : Prop :=
  exists m, if yred then rb m s /\ is_red s = false /\ crb m ctx else short m s /\ crb (S m) ctx.

Lemma short_rb m s : rb m s -> short m s.
Proof. unfold short. destruct s as [|p k v [] l r]; simpl; tauto. Qed.

Lemma after_unlink_one n ctx y k v c l r :
  rb n (plug ctx (N y k v c l r)) -> is_red (plug ctx (N y k v c l r)) = false ->
  (l = E -> after_unlink c r ctx) /\ (r = E -> after_unlink c l ctx).
Proof.
  intros Hrb Hb. destruct (rb_unplug _ _ _ Hrb Hb) as (m & Hm & Hc & Hcol).
  destruct c; simpl in Hm.
  - split; intros ->; exists m; simpl in Hm; tauto.
  - destruct m as [|m]; [done|]. split; intros ->; exists m; split; try done; apply short_rb; tauto.
Qed.

Lemma crb_swap n fs p k v c s p' k' v' ctx :
  crb n (fs ++ FR p k v c s :: ctx) <-> crb n (fs ++ FR p' k' v' c s :: ctx).
Proof.
  revert n. induction fs as [|f fs IH]; intros n; [done|]. simpl.
  pose proof (IH n). pose proof (IH (S n)).
  replace (cblack (fs ++ FR p' k' v' c s :: ctx)) with (cblack (fs ++ FR p k v c s :: ctx)); [|by destruct fs].
  destruct (fc f); tauto.
Qed.

Lemma after_unlink_swap c t fs p k v pc s p' k' v' ctx :
  after_unlink c t (fs ++ FR p k v pc s :: ctx) -> after_unlink c t (fs ++ FR p' k' v' pc s :: ctx).
Proof. intros [m H]. exists m. destruct c; by rewrite <- (crb_swap _ fs p k v). Qed.

Lemma ptr_plug fs t t' : fs <> [] -> ptr (plug fs t) = ptr (plug fs t').
Proof.
  destruct fs as [|f fs]; [done|]. intros _. revert f t t'.
  induction fs as [|g fs IH]; intros f t t'; simpl; [by destruct f|].
  change (ptr (plug (g :: fs) (plug1 f t)) = ptr (plug (g :: fs) (plug1 f t'))). apply IH.
Qed.

Lemma plug_not_E fs t : fs <> [] -> plug fs t <> E.
Proof.
  destruct fs as [|f fs]; [done|]. intros _. revert f t.
  induction fs as [|g fs IH]; intros f t; simpl; [by destruct f|]. apply IH.
Qed.

Definition remainder ctx l r : list (Z * Z * Z) := cl ctx ++ elems l ++ elems r ++ cr ctx.

Lemma remainder_ok es T ctx z k v c l r :
  tree_at es T ctx (N z k v c l r) ->
  NoDup (addr <$> remainder ctx l r) /\ z ∉ addr <$> remainder ctx l r /\
  (forall q, q ∈ addr <$> remainder ctx l r -> q ∈ addr <$> es).
Proof.
  intros (_ & _ & <- & Hnd). rewrite elems_plug in *. unfold remainder. cbn [elems] in *.
  rewrite <- app_assoc in *. cbn [app] in *. rewrite !fmap_app, fmap_cons, fmap_app in *.
  rewrite app_assoc in Hnd. apply NoDup_mid in Hnd as (H1 & H2 & Hnd). rewrite <- app_assoc in Hnd.
  split; [done|]. split; [|set_solver]. rewrite not_elem_of_app in H1. rewrite !not_elem_of_app in *. tauto.
Qed.

Lemma touch_mono es es' T T' : (forall q, q ∈ addr <$> es -> q ∈ addr <$> es') -> touch es T T' -> touch es' T T'.
Proof. intros Hs Ht q Hq. apply Ht. auto. Qed.

(** What [unlink] leaves: [z] is out of the tree, [x] and [x_parent] are the
    position where a black node may be missing. *)
Definition unlinked es T ctx z k v l r len (o : outcome (rbtree_t * bool * Z * Z)) : Prop :=
  exists T' yred s ctx', o = Ok (T', yred, ptr s, cpar ctx') /\
    tree_at (remainder ctx l r) T' ctx' s /\ touch es T T' /\ (length ctx' <= len)%nat /\
    after_unlink yred s ctx' /\
    exists n, store_ T' !! z = Some n /\ key n = k /\ value n = v.

Lemma unlink_one es T ctx z k v c l r n fuel :
  tree_at es T ctx (N z k v c l r) -> rb n (plug ctx (N z k v c l r)) ->
  is_red (plug ctx (N z k v c l r)) = false -> l = E \/ r = E ->
  unlinked es T ctx z k v l r (height (plug ctx (N z k v c l r))) (unlink fuel T z).
Proof.
  intros Hat Hrb Hb He. pose proof (height_plug ctx (N z k v c l r)) as Hh.
  destruct (after_unlink_one _ _ _ _ _ _ _ _ Hrb Hb) as [Hal Har].
  destruct (remainder_ok _ _ _ _ _ _ _ _ _ Hat) as (Hnd & Hz & Hsub).
  destruct (tree_at_get _ _ _ _ _ _ _ _ _ Hat) as [Hz0 G].
  pose proof Hat as ((_ & Gz & Hl & Hr) & Hc & _). unfold unlink. run G. cbn [left right parent red].
  destruct l as [|p pk pv pc ll lr].
  - change (isnull (ptr E)) with true. cbv iota.
    destruct (transplant_at T ctx z _ z r Hc Gz eq_refl Hz0 Hr Hnd Hz) as (T1 & E1 & Hat1 & Ht1).
    run E1. exists T1, c, r, ctx. split; [done|]. split; [done|].
    split; [by eapply touch_mono|]. split; [lia|]. split; [by apply Hal|].
    rewrite Ht1 by done. eauto.
  - destruct He as [|He]; [done|]. subst r. cbn [ptr]. pose proof Hl as [Hp _].
    rewrite isnull_ne by done. change (isnull NULL) with true. cbv iota.
    destruct (transplant_at T ctx z _ z (N p pk pv pc ll lr) Hc Gz eq_refl Hz0 Hl Hnd Hz) as (T1 & E1 & Hat1 & Ht1).
    cbn [ptr] in E1. run E1. exists T1, c, (N p pk pv pc ll lr), ctx.
    split; [done|]. split; [done|]. split; [by eapply touch_mono|]. split; [lia|].
    split; [by apply Har|]. rewrite Ht1 by done. eauto.
Qed.

Lemma unlink_next es T ctx z k v c l y yk yv yc yr n fuel :
  tree_at es T ctx (N z k v c l (N y yk yv yc E yr)) ->
  rb n (plug ctx (N z k v c l (N y yk yv yc E yr))) ->
  is_red (plug ctx (N z k v c l (N y yk yv yc E yr))) = false -> l <> E -> (0 < fuel)%nat ->
  unlinked es T ctx z k v l (N y yk yv yc E yr)
    (height (plug ctx (N z k v c l (N y yk yv yc E yr)))) (unlink fuel T z).
Proof.
  intros Hat Hrb Hb Hne Hf. pose proof (height_plug ctx (N z k v c l (N y yk yv yc E yr))) as Hh.
  destruct (after_unlink_one n (FR z k v c l :: ctx) y yk yv yc E yr Hrb Hb) as [Hal _].
  destruct (remainder_ok _ _ _ _ _ _ _ _ _ Hat) as (Hnd & Hz & Hsub).
  destruct (tree_at_get _ _ _ _ _ _ _ _ _ Hat) as [Hz0 G].
  pose proof Hat as ((_ & Gz & Hl & Hr) & Hc & _). pose proof Hr as (Hy0 & Gy & _ & Hyr).
  assert (isnull (ptr l) = false) as El by (destruct l; [done|by apply isnull_ne; destruct Hl]).
  unfold unlink. run G. cbn [left right ptr]. rewrite El, isnull_ne by done.
  assert (tree_min fuel T y = Ok y) as ->.
  { unfold tree_min. rewrite isnull_ne by done. destruct fuel; [lia|]. rewrite loop_unfold.
    rewrite (min_step_at es _ (FR z k v c l :: ctx) _ yk yv yc E yr) by by apply tree_at_up. done. }
  assert (get T y = Ok (RNode yk yv z NULL (ptr yr) yc)) as G' by (unfold get; by rewrite Gy).
  go. run G'. cbn [parent right red]. rewrite Z.eqb_refl.
  assert (exists T0, (if isnull (ptr yr) then Ok T else set_parent T (ptr yr) y) = Ok T0 /\ T0 = T) as (T0 & -> & ->).
  { destruct yr as [|p pk pv pc rl rr]; [by exists T|]. destruct Hyr as (Hp & Gp & _). cbn [ptr].
    rewrite isnull_ne by done. exists T. split; [|done]. unfold set_parent, upd, get. rewrite Gp. go.
    cbn [key value left right red]. rewrite insert_id by done. by destruct T. }
  go. run G.
  destruct (take_place_at T ctx z _ y yk yv yc yr z l z Hc Gz eq_refl Hz0 eq_refl Hr Hl Hne Hnd Hz) as (T1 & E1 & Hat1 & Ht1).
  run E1. exists T1, yc, yr, (FR y yk yv c l :: ctx).
  split; [done|]. split; [by apply tree_at_up|]. split; [by eapply touch_mono|].
  split; [simpl in *; lia|]. split; [apply (after_unlink_swap yc yr [] z k v c l); by apply Hal|].
  rewrite Ht1 by done. eauto.
Qed.

Lemma unlink_far es T ctx z k v c l fs y yk yv yc yr n fuel :
  tree_at es T ctx (N z k v c l (plug fs (N y yk yv yc E yr))) ->
  rb n (plug ctx (N z k v c l (plug fs (N y yk yv yc E yr)))) ->
  is_red (plug ctx (N z k v c l (plug fs (N y yk yv yc E yr)))) = false -> l <> E -> fs <> [] -> Forall is_FL fs ->
  tree_min fuel T (ptr (plug fs (N y yk yv yc E yr))) = Ok y -> 
  unlinked es T ctx z k v l (plug fs (N y yk yv yc E yr))
    (height (plug ctx (N z k v c l (plug fs (N y yk yv yc E yr))))) (unlink fuel T z).
Proof.
  intros Hat Hrb Hb Hne Hfs HFL Hmin. set (C := fs ++ FR z k v c l :: ctx).
  assert (plug C (N y yk yv yc E yr) = plug ctx (N z k v c l (plug fs (N y yk yv yc E yr)))) as HC.
  { unfold C. by rewrite plug_app. }
  assert (tree_at es T C (N y yk yv yc E yr)) as HatY by by apply (tree_at_focus _ _ _ _ _ _ Hat).
  pose proof (height_plug C (N y yk yv yc E yr)) as Hh. rewrite HC in Hh.
  rewrite <- HC in Hrb, Hb. destruct (after_unlink_one n C y yk yv yc E yr Hrb Hb) as [Hal _].
  destruct (remainder_ok _ _ _ _ _ _ _ _ _ Hat) as (Hnd & Hz & Hsub).
  destruct (remainder_ok _ _ _ _ _ _ _ _ _ HatY) as (HndY & HyY & HsubY).
  destruct (tree_at_get _ _ _ _ _ _ _ _ _ Hat) as [Hz0 G].
  destruct (tree_at_get _ _ _ _ _ _ _ _ _ HatY) as [Hy0 GY].
  pose proof HatY as ((_ & Gy & _ & Hyr) & HcY & _). pose proof Hat as ((_ & Gz & Hl & Hr) & Hc & _).
  assert (isnull (ptr l) = false) as El by (destruct l; [done|by apply isnull_ne; destruct Hl]).
  assert (isnull (ptr (plug fs (N y yk yv yc E yr))) = false) as Er.
  { destruct (plug fs _) eqn:Ep; [by apply plug_not_E in Ep|by apply isnull_ne; destruct Hr]. }
  unfold unlink. run G. cbn [left right]. rewrite El, Er, Hmin. go. run GY. cbn [parent right red].
  assert (remainder ctx l (plug fs (N y yk yv yc E yr)) =
          cl ctx ++ elems l ++ (y, yk, yv) :: elems (plug fs yr) ++ cr ctx) as Erem.
  { unfold remainder. rewrite !elems_plug, (cl_FL fs) by done. cbn [elems app]. by flat_apps. }
  assert ((cpar C =? z) = false) as ->.
  { apply Z.eqb_neq. intros Ez. apply Hz. rewrite <- Ez, Erem, elems_plug. unfold C.
    destruct fs as [|[] fs]; [done| |by inversion HFL]. cbn [cr app cpar fp].
    rewrite !fmap_app, fmap_cons, !fmap_app, fmap_cons. unfold addr. set_solver. }
  destruct (transplant_at T C y _ y yr HcY Gy eq_refl Hy0 Hyr HndY HyY) as (T1 & E1 & Hat1 & Ht1).
  run E1. assert (tree_at (remainder C E yr) T1 ctx (N z k v c l (plug fs yr))) as Hat2.
  { apply (tree_at_focus _ _ _ _ _ _ Hat1). unfold C. by rewrite plug_app. }
  pose proof Hat2 as ((_ & Gz1 & _) & _). destruct (tree_at_get _ _ _ _ _ _ _ _ _ Hat2) as [_ G1].
  run G1. cbn [right]. rewrite (ptr_plug fs _ yr Hfs) in Er. rewrite Er.
  assert (store_ T1 !! y = store_ T !! y) as Gy1 by by apply Ht1. rewrite Gy in Gy1.
  destruct (take_right_at _ T1 ctx z k v c l (plug fs yr) y _ Hat2 (plug_not_E fs yr Hfs) HyY Hy0 Gy1 eq_refl)
    as (T3 & E3 & Hc3 & Gz3 & Hl3 & Hy3 & Ht3). rewrite Gz1 in Gz3.
  destruct (set_right T1 y (ptr (plug fs yr))) as [T2| | |] eqn:E2; cbn [mbind outcome_bind] in E3; try discriminate E3.
  go. run E3. cbn [key value red parent] in Hy3.
  assert (get T3 y = Ok (RNode yk yv (cpar C) NULL (ptr (plug fs yr)) yc)) as G3.
  { unfold get. pose proof Hy3 as (_ & -> & _). done. }
  run G3. cbn [parent]. assert (get T3 z = Ok (RNode k v (cpar ctx) (ptr l) (ptr (plug fs yr)) c)) as G3z.
  { unfold get. by rewrite Gz3. }
  run G3z. rewrite Erem in Hnd, Hz.
  destruct (take_place_at T3 ctx z _ y yk yv yc (plug fs yr) (cpar C) l z Hc3 Gz3 eq_refl Hz0 eq_refl Hy3 Hl3 Hne Hnd Hz)
    as (T4 & E4 & Hat4 & Ht4).
  run E4. exists T4, yc, yr, (fs ++ FR y yk yv c l :: ctx). split; [|split; [|split; [|split; [|split]]]].
  - unfold C. by destruct fs.
  - rewrite Erem. apply (tree_at_focus _ _ _ _ _ _ Hat4). by rewrite plug_app.
  - rewrite Erem in Hsub. intros q Hq. rewrite Ht4 by auto.
    assert (q ∉ addr <$> remainder C E yr) by auto.
    rewrite Ht3, Ht1; [done|done| |done]. intros ->. apply Hq, Hsub.
    rewrite !fmap_app, fmap_cons. unfold addr. set_solver.
  - unfold C in Hh. rewrite length_app in *. simpl in *. lia.
  - apply (after_unlink_swap yc yr fs z k v c l). by apply Hal.
  - rewrite Ht4 by done. eauto.
Qed.

Lemma unlink_at es T ctx z k v c l r n fuel :
  tree_at es T ctx (N z k v c l r) -> rb n (plug ctx (N z k v c l r)) ->
  is_red (plug ctx (N z k v c l r)) = false -> (height r <= fuel)%nat ->
  unlinked es T ctx z k v l r (height (plug ctx (N z k v c l r))) (unlink fuel T z).
Proof.
  intros Hat Hrb Hb Hf.
  destruct (decide (l = E)) as [Hl|Hl]; [by apply (unlink_one _ _ _ _ k v c _ _ n); auto|].
  destruct r as [|p pk pv pc rl rr]; [by apply (unlink_one _ _ _ _ k v c _ _ n); auto|].
  destruct (tree_min_at es T rl p pk pv pc rr (FR z k v c l :: ctx) fuel) as (fs & y & yk & yv & yc & yr & Hm & Hp & HFL);
    [by apply tree_at_up|done|].
  change p with (ptr (N p pk pv pc rl rr)) in Hm. rewrite <- Hp in *.
  destruct fs as [|f fs]; [apply (unlink_next _ _ _ _ _ _ _ _ _ _ _ _ _ n); auto; simpl in *; lia|].
  by apply (unlink_far _ _ _ _ _ _ _ _ _ _ _ _ _ _ n).
Qed.

(** Resetting a node outside the tree. *)
Lemma reset_links_at es T t z n :
  tree_at es T [] t -> store_ T !! z = Some n -> z ∉ addr <$> es ->
  exists T', reset_links T z = Ok T' /\ tree_at es T' [] t /\
    store_ T' !! z = Some (RNode (key n) (value n) NULL NULL NULL false) /\
    forall q, q <> z -> store_ T' !! q = store_ T !! q.
Proof.
  destruct T as [rt h]. intros (Hr & Hc & <- & Hnd) Hp Hfr. simpl in Hp. unfold reset_links. exec1.
  eexists. split; [reflexivity|]. cbn [store_].
  split; [|split; [apply lookup_insert_eq|by intros; rewrite !lookup_insert_ne]].
  split; [by repeat apply rep_insert|]. done.
Qed.

Lemma sorted_remove l1 e l2 : sorted (l1 ++ e :: l2) -> sorted (l1 ++ l2).
Proof.
  unfold sorted. rewrite !fmap_app, fmap_cons. rewrite !StronglySorted_app.
  intros (H1 & H2 & H3). apply StronglySorted_cons in H3 as [_ H3]. split; [|done].
  intros x y Hx Hy. apply H1; set_solver.
Qed.

(** Removal by key, on both branches. *)
Lemma rb_remove_spec T t k fuel :
  is_rbtree T t -> (rb_fuel (length (elems t)) <= fuel)%nat ->
  (k ∉ keys t /\ rb_remove fuel T k = Ok (NULL, T)) \/
  (exists z v l1 l2 T' t',
     elems t = l1 ++ (z, k, v) :: l2 /\ rb_remove fuel T k = Ok (z, T') /\ is_rbtree T' t' /\
     elems t' = l1 ++ l2 /\ store_ T' !! z = Some (RNode k v NULL NULL NULL false) /\ touch (elems t) T T').
Proof.
  intros Hr Hf. pose proof (is_rbtree_height T t Hr) as Hh. unfold rb_fuel in Hf.
  destruct Hr as (Hat & Hs & (n & Hrb) & Hb). destruct (tree_at_root _ _ _ Hat) as [Hroot _].
  destruct (rb_find_at _ T k Hs t [] fuel Hat) as (z & Ez & Hz); [split; intros e He; simpl in He; set_solver|lia|].
  unfold rb_remove, rb_find. rewrite Hroot. run Ez.
  destruct Hz as [[-> Hk]|(ctx & v & c & l & r & Hatz & Hp)]; [by left|right]. simpl in Hp.
  destruct (tree_at_get _ _ _ _ _ _ _ _ _ Hatz) as [Hz0 _]. rewrite isnull_ne by done.
  rewrite <- Hp in Hrb, Hb. pose proof (height_plug ctx (N z k v c l r)) as Hh2. rewrite Hp in Hh2. simpl in Hh2.
  destruct (unlink_at _ T ctx z k v c l r n fuel Hatz Hrb Hb ltac:(lia))
    as (T1 & yred & s & ctx' & E1 & Hat1 & Ht1 & Hlen & [m Hau] & zn & Gz1 & Hk1 & Hv1). rewrite Hp in Hlen.
  run E1. destruct (remainder_ok _ _ _ _ _ _ _ _ _ Hatz) as (_ & Hzr & Hsub).
  assert (exists T2 t', (if negb yred then fix_remove fuel T1 (ptr s) (cpar ctx') else Ok T1) = Ok T2 /\
    tree_at (remainder ctx l r) T2 [] t' /\ touch (remainder ctx l r) T1 T2 /\
    (exists m, rb m t') /\ is_red t' = false) as (T2 & t' & E2 & Hat2 & Ht2 & Hm2 & Hb2).
  { destruct yred; cbn [negb].
    - exists T1, (plug ctx' s). rewrite <- tree_at_plug. split; [done|]. split; [done|].
      split; [apply touch_refl|]. apply (rb_plug_root m); tauto.
    - apply (fix_remove_at _ fuel m); [lia|done|tauto..]. }
  run E2. rewrite <- Ht2 in Gz1 by done.
  destruct (reset_links_at _ T2 t' z zn Hat2 Gz1 Hzr) as (T6 & E6 & Hat6 & G6 & Ht6). run E6.
  destruct (tree_at_root _ _ _ Hat6) as [_ He6].
  assert (elems t = (cl ctx ++ elems l) ++ (z, k, v) :: elems r ++ cr ctx) as Het.
  { rewrite <- Hp, elems_plug. cbn [elems]. by flat_apps. }
  assert (remainder ctx l r = (cl ctx ++ elems l) ++ elems r ++ cr ctx) as Hrem.
  { unfold remainder. by flat_apps. }
  exists z, v, (cl ctx ++ elems l), (elems r ++ cr ctx), T6, t'.
  split; [done|]. split; [done|]. split.
  { unfold is_rbtree. rewrite He6. split; [done|]. split; [|done].
    rewrite Hrem. rewrite Het in Hs. by eapply sorted_remove. }
  split; [by rewrite He6|]. split; [by rewrite G6, Hk1, Hv1|].
  intros q Hq. assert (q <> z) as Hqz.
  { intros ->. apply Hq. rewrite Het, fmap_app, fmap_cons. unfold addr. set_solver. }
  rewrite Ht6 by done. rewrite Ht2; [by apply Ht1|]. auto.
Qed.

(** ** The interface of rbtree.h *)

Definition ex_t : tree := N 2 20 200 false (N 1 10 100 true E E) (N 3 30 300 true E E).
Definition ex_T : rbtree_t := MkTree 2
  (list_to_map [(1, RNode 10 100 2 0 0 true); (2, RNode 20 200 0 1 3 false);
                (3, RNode 30 300 2 0 0 true); (4, RNode 25 250 77 88 99 false)]).

Lemma ex_ok : is_rbtree ex_T ex_t.
Proof.
  split; [|split; [|split]].
  - repeat split; try reflexivity; try discriminate. cbn. by apply (bool_decide_unpack _).
  - unfold sorted. cbn. repeat constructor.
  - exists 1%nat. simpl. by repeat split.
  - done.
Qed.

(** [rb_find] walks down an ordered red-black tree of [n] nodes in at most
    [2 * log2 (n + 1) + 1] steps; it returns the address of the node with the
    key, and [NULL] exactly when no node has it. *)
Theorem rb_find_correct T t k fuel :
  is_rbtree T t -> (rb_fuel (length (elems t)) <= fuel)%nat ->
  (forall z v, (z, k, v) ∈ elems t -> rb_find fuel T k = Ok z) /\
  (k ∉ keys t -> rb_find fuel T k = Ok NULL).
Proof.
  intros Hr Hf. pose proof (is_rbtree_height T t Hr) as Hh. unfold rb_fuel in Hf.
  destruct Hr as (Hat & Hs & _). unfold rb_find. destruct (tree_at_root _ _ _ Hat) as [-> _].
  destruct (rb_find_at _ T k Hs t [] fuel Hat) as (z & Ez & Hz); [split; intros e He; simpl in He; set_solver|lia|].
  rewrite Ez. destruct Hz as [[-> Hk]|(ctx & v & c & l & r & Hatz & Hp)].
  - split; [|done]. intros z v Hin. destruct Hk. apply list_elem_of_fmap. by exists (z, k, v).
  - assert (elems t = (cl ctx ++ elems l) ++ (z, k, v) :: elems r ++ cr ctx) as He.
    { simpl in Hp. rewrite <- Hp, elems_plug. cbn [elems]. by flat_apps. }
    destruct (sorted_split _ _ _ _ Hs He) as [H1 H2]. unfold ekey in *. simpl in *. split.
    + intros z' v'. rewrite He. intros [Hin|[Hin|Hin]%elem_of_cons]%elem_of_app; [|congruence|].
      * specialize (H1 _ Hin). simpl in *. lia.
      * specialize (H2 _ Hin). simpl in *. lia.
    + intros Hk. destruct Hk. unfold keys. rewrite He, fmap_app, fmap_cons. unfold ekey. set_solver.
Qed.

Lemma rb_find_correct_witness :
  rb_find 20 ex_T 30 = Ok 3 /\ rb_find 20 ex_T 31 = Ok NULL.
Proof.
  split.
  - apply (proj1 (rb_find_correct ex_T ex_t 30 20 ex_ok ltac:(cbn; lia)) 3 300). cbn. set_solver.
  - apply (proj2 (rb_find_correct ex_T ex_t 31 20 ex_ok ltac:(cbn; lia))). cbn. set_solver.
Defined.

(** C33: [rb_insert] of a node outside the tree: when its key is present the call
    returns [false] and changes nothing; otherwise it returns [true], the result
    is an ordered red-black tree (no red node with a red child, equal black
    heights, black root, consistent parent pointers) whose in-order entries are
    the old ones with the new node at its place, and only nodes of that tree are
    written. The loops end within a logarithmic number of steps. *)
Theorem rb_insert_correct T t z zn fuel :
  is_rbtree T t -> store_ T !! z = Some zn -> z <> NULL -> z ∉ ptrs t ->
  (rb_fuel (length (elems t)) <= fuel)%nat ->
  (key zn ∈ keys t /\ rb_insert fuel T z = Ok (false, T)) \/
  (key zn ∉ keys t /\ exists T' t' l1 l2,
     rb_insert fuel T z = Ok (true, T') /\ is_rbtree T' t' /\
     elems t = l1 ++ l2 /\ elems t' = l1 ++ (z, key zn, value zn) :: l2 /\ touch (elems t') T T').
Proof. apply rb_insert_spec. Qed.

Lemma rb_insert_correct_witness :
  exists T' t', rb_insert 20 ex_T 4 = Ok (true, T') /\ is_rbtree T' t'.
Proof.
  destruct (rb_insert_correct ex_T ex_t 4 (RNode 25 250 77 88 99 false) 20) as [[Hin _]|(_ & T' & t' & l1 & l2 & E1 & Hr & _)].
  - exact ex_ok.
  - reflexivity.
  - discriminate.
  - cbn. set_solver.
  - cbn. lia.
  - exfalso. cbn in Hin. set_solver.
  - exists T', t'. split; assumption.
Defined.

(** C9: [rb_remove] returns [NULL] and changes nothing when the key is absent;
    otherwise it returns the node that carried it, with its links reset, and what
    is left is an ordered red-black tree with exactly the other entries, in the
    same order; nodes outside the tree are not written. Neither the fix-up nor
    the descent dereferences [NULL], and both end within a logarithmic number of
    steps. *)
Theorem rb_remove_correct T t k fuel :
  is_rbtree T t -> (rb_fuel (length (elems t)) <= fuel)%nat ->
  (k ∉ keys t /\ rb_remove fuel T k = Ok (NULL, T)) \/
  (exists z v l1 l2 T' t',
     elems t = l1 ++ (z, k, v) :: l2 /\ rb_remove fuel T k = Ok (z, T') /\ is_rbtree T' t' /\
     elems t' = l1 ++ l2 /\ store_ T' !! z = Some (RNode k v NULL NULL NULL false) /\ touch (elems t) T T').
Proof. apply rb_remove_spec. Qed.

Lemma rb_remove_correct_witness :
  exists z T' t', rb_remove 20 ex_T 20 = Ok (z, T') /\ is_rbtree T' t'.
Proof.
  destruct (rb_remove_correct ex_T ex_t 20 20) as [[Hin _]|(z & v & l1 & l2 & T' & t' & _ & E1 & Hr & _)].
  - exact ex_ok.
  - cbn. lia.
  - exfalso. cbn in Hin. set_solver.
  - exists z, T', t'. split; assumption.
Defined.

(** [rb_first] is the first node in key order and [rb_next] of a node is its
    successor in key order, [NULL] after the last one, so that iterating them
    visits every node once in increasing key order. *)
Theorem rb_traversal T t fuel :
  is_rbtree T t -> (rb_fuel (length (elems t)) <= fuel)%nat ->
  rb_first fuel T = Ok (match elems t with [] => NULL | e :: _ => addr e end) /\
  forall l1 e l2, elems t = l1 ++ e :: l2 ->
    rb_next fuel T (addr e) = Ok (match l2 with [] => NULL | e' :: _ => addr e' end).
Proof.
  intros Hr Hf. split; [|by intros; eapply rb_next_spec].
  pose proof (is_rbtree_height T t Hr) as Hh. unfold rb_fuel in Hf. destruct Hr as (Hat & _).
  unfold rb_first. destruct (tree_at_root _ _ _ Hat) as [-> _]. apply (tree_min_head _ _ _ _ _ Hat). lia.
Qed.

Lemma rb_traversal_witness :
  rb_first 20 ex_T = Ok 1 /\ rb_next 20 ex_T 1 = Ok 2 /\ rb_next 20 ex_T 3 = Ok NULL.
Proof.
  destruct (rb_traversal ex_T ex_t 20 ex_ok ltac:(cbn; lia)) as [H1 H2]. split; [exact H1|]. split.
  - exact (H2 [] (1, 10, 100) [(2, 20, 200); (3, 30, 300)] eq_refl).
  - exact (H2 [(1, 10, 100); (2, 20, 200)] (3, 30, 300) [] eq_refl).
Defined.
