(* ===== verification/Kmem.v ===== *)
(** * Slab allocator (kernel/src/mm/kmem.c, kmem.h)

    Caches hand out objects of one size.  Slabs are pages of the physical
    memory manager whose free objects form a chain through their first word;
    magazines are pages holding up to [MAG_SIZE] object pointers, two of them
    per processor.  The lists of slabs and magazines are the sequences the
    linked lists of list.c refine; the chain through the objects is kept at
    word level.  Everything is parameterised by the page allocator's interface
    and the address [HHDM] of the direct map. *)
From stdpp Require Import base gmap list fin_maps.
From Stdlib Require Import ZArith Lia.
From S2P Require Import Prelude Lists Interfaces Pmm.

Definition MAG_SIZE : Z := 32.
Definition SLAB_SIZE : Z := 0x1000.
Definition MAX_CPUS : Z := 32.

Record kmem_magazine_t := Mag { count : Z; objects : list Z }.
Record kmem_cpu_cache_t := CpuCache { loaded : Z; previous : Z }.
Record kmem_cache_t := Cache {
  name : Z; object_size : Z;
  slabs_full : list Z; slabs_partial : list Z;
  magazines_full : list Z; magazines_empty : list Z;
  cpu_cache : list kmem_cpu_cache_t
}.
Record kmem_slab_t := Slab { cache_of : Z; freelist : Z }.

(** [sizeof(kmem_slab_t)]: a list node and two pointers. *)
Definition sizeof_slab : Z := 32.

(** The memory the allocator works on: the page allocator, the caches, slabs
    and magazines by address, and the first word of every object. *)
Record kmem (S : Type) := Kmem {
  pages : S; caches : gmap Z kmem_cache_t; slabs : gmap Z kmem_slab_t;
  words : gmap Z Z; mags : gmap Z kmem_magazine_t
}.
Arguments Kmem {S}. Arguments pages {S}. Arguments caches {S}. Arguments slabs {S}.
Arguments words {S}. Arguments mags {S}.

Definition set_pages {S} (p : S) (st : kmem S) := Kmem p (caches st) (slabs st) (words st) (mags st).
Definition set_cache {S} cp c (st : kmem S) := Kmem (pages st) (<[cp := c]> (caches st)) (slabs st) (words st) (mags st).
Definition set_slab {S} a s (st : kmem S) := Kmem (pages st) (caches st) (<[a := s]> (slabs st)) (words st) (mags st).
Definition set_words {S} w (st : kmem S) := Kmem (pages st) (caches st) (slabs st) w (mags st).
Definition set_mag {S} a m (st : kmem S) := Kmem (pages st) (caches st) (slabs st) (words st) (<[a := m]> (mags st)).

Definition with_slabs (f p : list Z) (c : kmem_cache_t) : kmem_cache_t :=
  Cache (name c) (object_size c) f p (magazines_full c) (magazines_empty c) (cpu_cache c).
Definition with_mags (f e : list Z) (c : kmem_cache_t) : kmem_cache_t :=
  Cache (name c) (object_size c) (slabs_full c) (slabs_partial c) f e (cpu_cache c).
Definition with_cpu (i : Z) (cc : kmem_cpu_cache_t) (c : kmem_cache_t) : kmem_cache_t :=
  Cache (name c) (object_size c) (slabs_full c) (slabs_partial c) (magazines_full c) (magazines_empty c)
    (<[Z.to_nat i := cc]> (cpu_cache c)).

(** Array accesses: an index outside the array is undefined. *)
Definition get_cpu (c : kmem_cache_t) (i : Z) : outcome kmem_cpu_cache_t :=
  if (i <? 0) then Fault else deref (cpu_cache c !! Z.to_nat i).
Definition get_object (m : kmem_magazine_t) (i : Z) : outcome Z :=
  if (i <? 0) then Fault else deref (objects m !! Z.to_nat i).
Definition put_object (m : kmem_magazine_t) (i o : Z) : outcome kmem_magazine_t :=
  if (0 <=? i) && (i <? MAG_SIZE) then Ok (Mag (count m) (<[Z.to_nat i := o]> (objects m))) else Fault.

(** The loop of [cache_make_slab]: chains [n] objects from the [i]-th on. *)
Fixpoint chain_objects (n : nat) (i slab size : Z) (w : gmap Z Z) (fl : Z) : gmap Z Z * Z :=
  match n with
  | O => (w, fl)
  | S n =>
      let obj := u64 (u64 (slab + sizeof_slab) + u64 (i * size)) in
      chain_objects n (i + 1) slab size (<[obj := fl]> w) obj
  end.

Section kmem.
Context {S : Type} `{PageAllocator S} (HHDM : Z).

Definition cache_make_slab (cp : Z) (st : kmem S) : outcome (Z * kmem S) :=
  '(a, pg) ← page_alloc (pages st);
  let st := set_pages pg st in
  let slab := u64 (a + HHDM) in
  let slab_content_size := u64 (u64 (pmm_order_to_pagecount 0 * ARCH_PAGE_GRAN) - sizeof_slab) in
  c ← deref (caches st !! cp);
  if object_size c =? 0 then Fault else
  let object_count := slab_content_size / object_size c in
  let '(w, fl) := chain_objects (Z.to_nat object_count) 0 slab (object_size c) (words st) NULL in
  Ok (slab, set_slab slab (Slab cp fl) (set_words w st)).

Definition cache_alloc_from_slabs (cp : Z) (st : kmem S) : outcome (Z * kmem S) :=
  c ← deref (caches st !! cp);
  st ← (if bool_decide (slabs_partial c = []) then
          '(s, st) ← cache_make_slab cp st;
          c ← deref (caches st !! cp);
          Ok (set_cache cp (with_slabs (slabs_full c) (slabs_partial c ++ [s]) c) st)
        else Ok st);
  c ← deref (caches st !! cp);
  slab ← deref (list.head (slabs_partial c));
  sl ← deref (slabs st !! slab);
  ASSERT (negb (freelist sl =? NULL));;
  let obj := freelist sl in
  next ← deref (words st !! obj);
  let st := set_slab slab (Slab (cache_of sl) next) st in
  st ← (if next =? NULL then
          p ← seq_remove slab (slabs_partial c);
          Ok (set_cache cp (with_slabs (slabs_full c ++ [slab]) p c) st)
        else Ok st);
  Ok (obj, st).

(** The loop that fills [mag->objects]. *)
Fixpoint fill_objects (n : nat) (i cp mag : Z) (populate : bool) (st : kmem S) : outcome (kmem S) :=
  match n with
  | O => Ok st
  | Datatypes.S n =>
      '(o, st) ← (if populate then cache_alloc_from_slabs cp st else Ok (NULL, st));
      m ← deref (mags st !! mag);
      m ← put_object m i o;
      fill_objects n (i + 1) cp mag populate (set_mag mag m st)
  end.

(** A fresh page is a magazine whose contents are not read before they are
    written; [garbage] is what the page held. *)
Definition garbage : kmem_magazine_t := Mag 0 (replicate 32 0).

Definition cache_make_magazine (cp : Z) (populate : bool) (st : kmem S) : outcome (Z * kmem S) :=
  '(a, pg) ← page_alloc (pages st);
  let mag := u64 (a + HHDM) in
  let st := set_mag mag garbage (set_pages pg st) in
  st ← fill_objects (Z.to_nat MAG_SIZE) 0 cp mag populate st;
  m ← deref (mags st !! mag);
  Ok (mag, set_mag mag (Mag (if populate then MAG_SIZE else 0) (objects m)) st).

(** The loop over the processors of [kmem_cache_intialize]. *)
Fixpoint init_cpus (n : nat) (i cp : Z) (st : kmem S) : outcome (kmem S) :=
  match n with
  | O => Ok st
  | Datatypes.S n =>
      '(l, st) ← cache_make_magazine cp true st;
      '(p, st) ← cache_make_magazine cp false st;
      c ← deref (caches st !! cp);
      init_cpus n (i + 1) cp (set_cache cp (with_cpu i (CpuCache l p) c) st)
  end.

Definition kmem_cache_intialize (cp name size : Z) (st : kmem S) : outcome (kmem S) :=
  let c := Cache name size [] [] [] [] (replicate (Z.to_nat MAX_CPUS) (CpuCache NULL NULL)) in
  init_cpus (Z.to_nat MAX_CPUS) 0 cp (set_cache cp c st).

(** [cpu_id] is the id of the executing core, 0 before the other cores run. *)
Definition kmem_alloc_cache (cp cpu_id : Z) (st : kmem S) : outcome (Z * kmem S) :=
  c ← deref (caches st !! cp);
  cc ← get_cpu c cpu_id;
  mag ← deref (mags st !! loaded cc);
  if count mag >? 0 then
    o ← get_object mag (count mag - 1);
    Ok (o, set_mag (loaded cc) (Mag (count mag - 1) (objects mag)) st)
  else
  ASSERT (negb (previous cc =? NULL));;
  prev ← deref (mags st !! previous cc);
  if count prev =? MAG_SIZE then
    let st := set_cache cp (with_cpu cpu_id (CpuCache (previous cc) (loaded cc)) c) st in
    o ← get_object prev (count prev - 1);
    Ok (o, set_mag (previous cc) (Mag (count prev - 1) (objects prev)) st)
  else
  match magazines_full c with
  | m :: rest =>
      let c := with_mags rest (magazines_empty c ++ [previous cc]) c in
      let st := set_cache cp (with_cpu cpu_id (CpuCache m (loaded cc)) c) st in
      mag ← deref (mags st !! m);
      o ← get_object mag (count mag - 1);
      Ok (o, set_mag m (Mag (count mag - 1) (objects mag)) st)
  | [] => cache_alloc_from_slabs cp st
  end.

Definition kmem_free_cache (cp cpu_id obj : Z) (st : kmem S) : outcome (kmem S) :=
  c ← deref (caches st !! cp);
  cc ← get_cpu c cpu_id;
  mag ← deref (mags st !! loaded cc);
  if count mag <? MAG_SIZE then
    mag ← put_object mag (count mag) obj;
    Ok (set_mag (loaded cc) (Mag (count mag + 1) (objects mag)) st)
  else
  prev ← deref (mags st !! previous cc);
  if count prev =? 0 then
    let st := set_cache cp (with_cpu cpu_id (CpuCache (previous cc) (loaded cc)) c) st in
    prev ← put_object prev (count prev) obj;
    Ok (set_mag (previous cc) (Mag (count prev + 1) (objects prev)) st)
  else
  let full := magazines_full c ++ [loaded cc] in
  '(new_mag, st) ← match full with
    | m :: rest => Ok (m, set_cache cp (with_mags rest (magazines_empty c) c) st)
    | [] => cache_make_magazine cp false st
    end;
  c ← deref (caches st !! cp);
  let st := set_cache cp (with_cpu cpu_id (CpuCache new_mag (loaded cc)) c) st in
  nm ← deref (mags st !! new_mag);
  nm ← put_object (Mag 0 (objects nm)) 0 obj;
  Ok (set_mag new_mag (Mag 1 (objects nm)) st).

Definition kmem_new_cache (name size : Z) (st : kmem S) : outcome (Z * kmem S) :=
  '(a, pg) ← page_alloc (pages st);
  let cp := u64 (a + HHDM) in
  st ← kmem_cache_intialize cp name size (set_pages pg st);
  Ok (cp, st).

End kmem.

(** [sizeof(kmem_cache_t)]: name, size, four lists of three words, two locks
    and the per-processor pairs; [kmem_init] checks that it fits a page. *)
Definition sizeof_cache : Z := 8 + 8 + 2 * 24 + 8 + 2 * 24 + 8 + MAX_CPUS * 16.
Definition kmem_init : outcome unit := ASSERT (sizeof_cache <=? ARCH_PAGE_GRAN).

(** ** Invariant

    Ghost state: [loc] says where each object is and [MO] which cache a
    magazine belongs to.  An object is in one place at a time, which is what
    keeps two owners from getting the same object. *)
Inductive place := InSlab (s : Z) | InMag (m : Z) | Used | Lost.

#[export] Instance place_eq_dec : EqDecision place.
Proof. solve_decision. Defined.

(** The chain of free objects starting at [p]. *)
Fixpoint chain (w : gmap Z Z) (p : Z) (objs : list Z) : Prop :=
  match objs with
  | [] => p = NULL
  | o :: os => p = o /\ o <> NULL /\ exists n, w !! o = Some n /\ chain w n os
  end.

Lemma chain_insert w p objs a v : a ∉ objs -> chain w p objs -> chain (<[a := v]> w) p objs.
Proof.
  revert p. induction objs as [|o os IH]; intros p; simpl; [done|].
  rewrite not_elem_of_cons. intros [? ?] (? & ? & n & ? & ?). split; [done|]. split; [done|].
  exists n. rewrite lookup_insert_ne by done. auto.
Qed.

Definition contents (mg : kmem_magazine_t) : list Z := take (Z.to_nat (count mg)) (objects mg).

(** A page of the direct map. *)
Definition page_ok (p : Z) : Prop := 0 < p /\ p + ARCH_PAGE_GRAN <= 2 ^ 64 /\ (ARCH_PAGE_GRAN | p).

Definition hhdm_ok (h : Z) : Prop := 2 ^ 46 <= h /\ h + 2 ^ 46 <= 2 ^ 64 /\ (ARCH_PAGE_GRAN | h).

(** Objects moved from the builder into the magazine. *)
Definition move_in (m : Z) (news : list Z) (loc : gmap Z place) : gmap Z place :=
  foldr (fun o l => <[o := InMag m]> l) loc news.

Lemma lookup_move_in m news loc x :
  move_in m news loc !! x = if decide (x ∈ news) then Some (InMag m) else loc !! x.
Proof.
  induction news as [|o news IH].
  - destruct (decide (x ∈ [])) as [Hx|]; [by apply not_elem_of_nil in Hx|done].
  - unfold move_in in *. cbn [foldr]. destruct (decide (x = o)) as [->|].
    + rewrite lookup_insert_eq. destruct (decide (o ∈ o :: news)); [done|set_solver].
    + rewrite lookup_insert_ne, IH by done. destruct (decide (x ∈ news)), (decide (x ∈ o :: news)); set_solver.
Qed.

Section proofs.
Context {S : Type} `{PageAllocator S} (HHDM : Z) (HH : hhdm_ok HHDM).
Implicit Types st : kmem S.

(** [o] is the [i]-th object of the slab [s] of cache [cp]. *)
Definition on_slab st (o s cp sz : Z) : Prop :=
  exists sl c i, slabs st !! s = Some sl /\ cache_of sl = cp /\ caches st !! cp = Some c /\
    object_size c = sz /\ 0 <= i /\ o = s + sizeof_slab + i * sz /\
    sizeof_slab + (i + 1) * sz <= SLAB_SIZE.

Definition mag_ok (loc : gmap Z place) (m : Z) (mg : kmem_magazine_t) : Prop :=
  length (objects mg) = 32%nat /\ 0 <= count mg <= MAG_SIZE /\ NoDup (contents mg) /\
  forall o, o ∈ contents mg -> loc !! o = Some (InMag m).

Definition cpu_ok st (MO : gmap Z Z) (cp : Z) (cc : kmem_cpu_cache_t) : Prop :=
  MO !! loaded cc = Some cp /\ MO !! previous cc = Some cp /\ is_Some (mags st !! loaded cc) /\
  is_Some (mags st !! previous cc) /\ loaded cc <> NULL /\ previous cc <> NULL.

Definition slab_avail st (cp s : Z) : Prop :=
  exists sl, slabs st !! s = Some sl /\ cache_of sl = cp /\ freelist sl <> NULL.

Definition cache_ok st (MO : gmap Z Z) (cp : Z) (c : kmem_cache_t) : Prop :=
  8 <= object_size c <= SLAB_SIZE - sizeof_slab /\ magazines_full c = [] /\ length (cpu_cache c) = 32%nat /\
  (forall cc, cc ∈ cpu_cache c -> cpu_ok st MO cp cc \/ cc = CpuCache NULL NULL) /\
  NoDup (slabs_partial c) /\ forall s, s ∈ slabs_partial c -> slab_avail st cp s.

Definition slab_ok st (loc : gmap Z place) (s : Z) (sl : kmem_slab_t) : Prop :=
  page_ok s /\ exists objs, chain (words st) (freelist sl) objs /\ NoDup objs /\
    forall o, o ∈ objs -> loc !! o = Some (InSlab s).

Definition held st (p : Z) : Prop :=
  is_Some (slabs st !! p) \/ is_Some (mags st !! p) \/
  (is_Some (caches st !! p) /\ HHDM <= p < HHDM + 2 ^ 46).

Record kinv st (loc : gmap Z place) (MO : gmap Z Z) : Prop := {
  k_pages : exists G, pa_state (pages st) G /\ forall p, held st p -> p - HHDM ∈ G;
  k_sep : forall p, is_Some (slabs st !! p) -> mags st !! p = None;
  k_slab : forall s sl, slabs st !! s = Some sl -> slab_ok st loc s sl;
  k_loc : forall o p, loc !! o = Some p -> exists s cp sz, on_slab st o s cp sz /\
    match p with InSlab s' => s' = s | InMag m => MO !! m = Some cp | _ => True end;
  k_mag : forall m mg, mags st !! m = Some mg -> mag_ok loc m mg;
  k_cache : forall cp c, caches st !! cp = Some c -> cache_ok st MO cp c;
  k_mo : forall m cp, MO !! m = Some cp -> is_Some (mags st !! m)
}.

(** Slabs keep their cache and caches their object size. *)
Definition grows st st' : Prop :=
  (forall s sl, slabs st !! s = Some sl -> exists sl', slabs st' !! s = Some sl' /\ cache_of sl' = cache_of sl) /\
  (forall cp c, caches st !! cp = Some c -> exists c', caches st' !! cp = Some c' /\ object_size c' = object_size c).

Lemma grows_refl st : grows st st.
Proof. split; eauto. Qed.

Lemma grows_trans st1 st2 st3 : grows st1 st2 -> grows st2 st3 -> grows st1 st3.
Proof.
  intros [A1 B1] [A2 B2]. split.
  - intros s sl Hs. destruct (A1 _ _ Hs) as (sl' & Hs' & E). destruct (A2 _ _ Hs') as (? & ? & ?). eauto with congruence.
  - intros s sl Hs. destruct (B1 _ _ Hs) as (sl' & Hs' & E). destruct (B2 _ _ Hs') as (? & ? & ?). eauto with congruence.
Qed.

Lemma on_slab_grows st st' o s cp sz : grows st st' -> on_slab st o s cp sz -> on_slab st' o s cp sz.
Proof.
  intros [A B] (sl & c & i & Hs & <- & Hc & <- & Hi & Ho & Hb).
  destruct (A _ _ Hs) as (sl' & Hs' & E). destruct (B _ _ Hc) as (c' & Hc' & Ec).
  exists sl', c', i. rewrite E, Ec. auto 10.
Qed.

Lemma take_snoc {A} (l : list A) n x :
  l !! n = Some x -> take (Datatypes.S n) l = take n l ++ [x].
Proof. apply take_S_r. Qed.

(** Replacing a magazine: only the places of its own objects and of objects
    in use may change. *)
Lemma kinv_set_mag st loc loc' MO m mg' :
  kinv st loc MO -> is_Some (mags st !! m) -> mag_ok loc' m mg' ->
  (forall x s, loc !! x = Some (InSlab s) -> loc' !! x = Some (InSlab s)) ->
  (forall x m', m' <> m -> loc !! x = Some (InMag m') -> loc' !! x = Some (InMag m')) ->
  (forall x p, loc' !! x = Some p -> loc !! x = Some p \/
     exists s cp sz, on_slab st x s cp sz /\
       match p with InSlab s' => s' = s | InMag m => MO !! m = Some cp | _ => True end) ->
  kinv (set_mag m mg' st) loc' MO.
Proof.
  intros HI [mg Hm] Hok Hsl Hmg Hloc. split; simpl.
  - destruct (k_pages _ _ _ HI) as (G & HG & Hp). exists G. split; [done|]. intros p Hh. apply Hp.
    destruct Hh as [?|[[? Hx]|?]]; [by left| |by right; right]. right; left. simpl in Hx.
    apply lookup_insert_Some in Hx as [[-> _]|[_ Hx]]; eauto.
  - intros p Hp. rewrite lookup_insert_None. split; [by apply (k_sep _ _ _ HI)|].
    intros ->. rewrite (k_sep _ _ _ HI) in Hm by done. done.
  - intros s sl Hs. destruct (k_slab _ _ _ HI _ _ Hs) as (? & objs & ? & ? & Hobj). split; [done|]. eauto 10.
  - intros x p Hx. destruct (Hloc x p Hx) as [Hx'|Hx']; [by apply (k_loc _ _ _ HI)|done].
  - intros m' mg0 [[-> <-]|[Hne Hx]]%lookup_insert_Some; [done|].
    destruct (k_mag _ _ _ HI _ _ Hx) as (? & ? & ? & Hl'). unfold mag_ok. eauto 10.
  - intros cp c Hcp. destruct (k_cache _ _ _ HI _ _ Hcp) as (? & ? & ? & Hcpu & ? & Hav).
    split; [done|]. split; [done|]. split; [done|]. split; [|split; [done|by apply Hav]].
    intros cc Hcc. destruct (Hcpu cc Hcc) as [(?&?&?&?&?&?)|]; [left|by right]. unfold cpu_ok. simpl.
    rewrite !lookup_insert_is_Some'. auto 10.
  - intros m' cp Hm'. apply (k_mo _ _ _ HI) in Hm'. rewrite lookup_insert_is_Some'. auto.
Qed.

Lemma mag_ok_empty loc m objs : length objs = 32%nat -> mag_ok loc m (Mag 0 objs).
Proof.
  intros Hl. split; [done|]. unfold MAG_SIZE. simpl. split; [lia|]. split; [apply NoDup_nil_2|].
  intros o Ho. by apply not_elem_of_nil in Ho.
Qed.

(** Taking the top object of a magazine. *)
Lemma mag_take st loc MO m mg :
  kinv st loc MO -> mags st !! m = Some mg -> 0 < count mg ->
  exists o, get_object mg (count mg - 1) = Ok o /\ loc !! o = Some (InMag m) /\
    kinv (set_mag m (Mag (count mg - 1) (objects mg)) st) (<[o := Used]> loc) MO.
Proof.
  intros HI Hm Hc. destruct (k_mag _ _ _ HI _ _ Hm) as (Hlen & Hr & Hnd & Hloc). unfold MAG_SIZE in Hr.
  destruct (lookup_lt_is_Some_2 (objects mg) (Z.to_nat (count mg - 1))) as [o Ho]; [lia|].
  unfold contents in *. replace (Z.to_nat (count mg)) with (Datatypes.S (Z.to_nat (count mg - 1))) in * by lia.
  rewrite (take_S_r _ _ o) in * by done. apply NoDup_app in Hnd as (Hnd & Hd & _).
  assert (loc !! o = Some (InMag m)) as Hlo by (apply Hloc; set_solver).
  exists o. unfold get_object. destruct (Z.ltb_spec (count mg - 1) 0); [lia|]. rewrite Ho. split; [done|].
  split; [done|]. apply (kinv_set_mag _ loc); [done|eauto| | | |].
  - unfold mag_ok, contents, MAG_SIZE. simpl. split; [done|]. split; [lia|]. split; [done|].
    intros x Hx. rewrite lookup_insert_ne; [apply Hloc; set_solver|]. intros ->. apply (Hd x Hx). set_solver.
  - intros x s Hx. rewrite lookup_insert_ne; congruence.
  - intros x m' Hne Hx. rewrite lookup_insert_ne; congruence.
  - intros x p [[-> <-]|[_ Hx]]%lookup_insert_Some; [right|by left].
    destruct (k_loc _ _ _ HI _ _ Hlo) as (s & cp & sz & Hos & _). by exists s, cp, sz.
Qed.

(** Putting an object in use on top of a magazine of its cache. *)
Lemma mag_put st loc MO m mg o s cp sz :
  kinv st loc MO -> mags st !! m = Some mg -> count mg < MAG_SIZE ->
  loc !! o = Some Used -> on_slab st o s cp sz -> MO !! m = Some cp ->
  exists mg', put_object mg (count mg) o = Ok mg' /\ count mg' = count mg /\
    kinv (set_mag m (Mag (count mg + 1) (objects mg')) st) (<[o := InMag m]> loc) MO.
Proof.
  intros HI Hm Hc Ho Hos HMO. destruct (k_mag _ _ _ HI _ _ Hm) as (Hlen & Hr & Hnd & Hloc). unfold MAG_SIZE in *.
  unfold put_object, MAG_SIZE. destruct (Z.leb_spec 0 (count mg)), (Z.ltb_spec (count mg) 32); try lia. simpl.
  eexists. split; [reflexivity|]. split; [done|]. simpl.
  assert (o ∉ contents mg) as Hnew by (intros Hin; specialize (Hloc _ Hin); congruence).
  apply (kinv_set_mag _ loc); [done|eauto| | | |].
  - unfold mag_ok, contents, MAG_SIZE in *. simpl. rewrite length_insert. split; [done|]. split; [lia|].
    replace (Z.to_nat (count mg + 1)) with (Datatypes.S (Z.to_nat (count mg))) by lia.
    rewrite (take_S_r _ _ o) by (apply list_lookup_insert_eq; lia).
    rewrite take_insert_ge by lia. split; [apply NoDup_app; split; [done|]; split; [set_solver|apply NoDup_singleton]|].
    intros x [Hx|Hx]%elem_of_app; [|apply list_elem_of_singleton in Hx as ->; apply lookup_insert_eq].
    rewrite lookup_insert_ne; [by apply Hloc|]. intros ->. done.
  - intros x s' Hx. rewrite lookup_insert_ne; congruence.
  - intros x m' Hne Hx. rewrite lookup_insert_ne; congruence.
  - intros x p [[<- <-]|[_ Hx]]%lookup_insert_Some; [right|by left]. by exists s, cp, sz.
Qed.

(** Emptying a magazine: its objects are no longer reachable. *)
Definition lose (m : Z) (loc : gmap Z place) : gmap Z place :=
  (fun p => if decide (p = InMag m) then Lost else p) <$> loc.

Lemma lookup_lose m loc x p : p <> InMag m -> loc !! x = Some p -> lose m loc !! x = Some p.
Proof. intros Hp Hx. unfold lose. rewrite lookup_fmap, Hx. simpl. by rewrite decide_False. Qed.

Lemma lose_used m loc x : lose m loc !! x = Some Used <-> loc !! x = Some Used.
Proof.
  unfold lose. rewrite lookup_fmap. destruct (loc !! x) as [p|]; simpl; [|done].
  destruct (decide (p = InMag m)) as [->|]; naive_solver.
Qed.

Lemma mag_reset st loc MO m mg :
  kinv st loc MO -> mags st !! m = Some mg ->
  kinv (set_mag m (Mag 0 (objects mg)) st) (lose m loc) MO.
Proof.
  intros HI Hm. destruct (k_mag _ _ _ HI _ _ Hm) as (Hlen & _).
  apply (kinv_set_mag _ loc); [done|eauto| | | |].
  - by apply mag_ok_empty.
  - intros. by apply lookup_lose.
  - intros. apply lookup_lose; congruence.
  - intros x p Hx. unfold lose in Hx. apply lookup_fmap_Some in Hx as (p' & Hp & Hx).
    destruct (decide (p' = InMag m)) as [->|]; [right|left; congruence]. subst p.
    destruct (k_loc _ _ _ HI _ _ Hx) as (s & cp & sz & ? & _). by exists s, cp, sz.
Qed.

(** Changing a cache without touching its object size. *)
Lemma kinv_set_cache st loc MO cp c c' :
  kinv st loc MO -> caches st !! cp = Some c -> object_size c' = object_size c -> cache_ok st MO cp c' ->
  kinv (set_cache cp c' st) loc MO.
Proof.
  intros HI Hc Hsz Hok.
  assert (grows st (set_cache cp c' st)) as Hgr.
  { split; simpl; [eauto|]. intros cp' c0 Hc0. destruct (decide (cp' = cp)) as [->|].
    - rewrite lookup_insert_eq. exists c'. split; congruence.
    - rewrite lookup_insert_ne by done. eauto. }
  split; simpl.
  - destruct (k_pages _ _ _ HI) as (G & HG & Hp). exists G. split; [done|]. intros p Hh. apply Hp.
    destruct Hh as [?|[?|[Hx ?]]]; [by left|by right; left|]. right; right. simpl in Hx. split; [|done].
    apply lookup_insert_is_Some' in Hx as [->|]; eauto.
  - apply (k_sep _ _ _ HI).
  - intros s sl Hs. destruct (k_slab _ _ _ HI _ _ Hs) as (? & objs & ? & ? & ?). split; [done|]. eauto.
  - intros o p Ho. destruct (k_loc _ _ _ HI _ _ Ho) as (s & cp' & sz & Hos & Hp).
    exists s, cp', sz. split; [|done]. by eapply on_slab_grows.
  - apply (k_mag _ _ _ HI).
  - intros cp' c0 [[-> <-]|[_ Hx]]%lookup_insert_Some; [done|]. by apply (k_cache _ _ _ HI) in Hx.
  - apply (k_mo _ _ _ HI).
Qed.

(** ** Slabs *)

Lemma chain_ext w w' p objs : (forall o, o ∈ objs -> w' !! o = w !! o) -> chain w p objs -> chain w' p objs.
Proof.
  revert p. induction objs as [|o os IH]; intros p Hw; simpl; [done|].
  intros (? & ? & n & ? & ?). split; [done|]. split; [done|]. exists n. rewrite Hw by set_solver.
  split; [done|]. apply IH; [|done]. intros; apply Hw; set_solver.
Qed.

Definition nth_obj (slab sz j : Z) : Z := slab + sizeof_slab + j * sz.

Lemma chain_objects_ok slab sz : page_ok slab -> 8 <= sz -> forall n i w fl objs,
  0 <= i -> sizeof_slab + (i + Z.of_nat n) * sz <= SLAB_SIZE ->
  chain w fl objs -> NoDup objs -> (forall o, o ∈ objs -> exists j, 0 <= j < i /\ o = nth_obj slab sz j) ->
  exists w' fl' objs', chain_objects n i slab sz w fl = (w', fl') /\ chain w' fl' objs' /\ NoDup objs' /\
    (forall o, o ∈ objs' -> exists j, 0 <= j < i + Z.of_nat n /\ o = nth_obj slab sz j) /\
    (forall a, (forall j, i <= j < i + Z.of_nat n -> a <> nth_obj slab sz j) -> w' !! a = w !! a) /\
    ((0 < n)%nat -> fl' <> NULL).
Proof.
  unfold page_ok, nth_obj, sizeof_slab, SLAB_SIZE, ARCH_PAGE_GRAN. intros (Hs0 & Hs1 & _) Hsz.
  induction n as [|n IH]; intros i w fl objs Hi Hb Hch Hnd Hin; simpl.
  - exists w, fl, objs. rewrite Z.add_0_r. split_and!; try done. lia.
  - assert (u64 (u64 (slab + sizeof_slab) + u64 (i * sz)) = slab + 32 + i * sz) as ->.
    { unfold sizeof_slab. assert (0 <= i * sz) by nia.
      assert (slab + 32 + i * sz < 2 ^ 64) by nia. rewrite !u64_small by (split; try lia; rewrite ?u64_small; lia). done. }
    assert ((slab + 32 + i * sz) ∉ objs) as Hnew.
    { intros (j & Hj & Ej)%Hin. assert (j * sz = i * sz) by lia. assert (j = i) by nia. lia. }
    destruct (IH (i + 1) (<[slab + 32 + i * sz := fl]> w) (slab + 32 + i * sz) (slab + 32 + i * sz :: objs))
      as (w' & fl' & objs' & E & Hch' & Hnd' & Hin' & Hw' & Hne).
    + lia.
    + nia.
    + simpl. split; [done|]. split; [unfold NULL; nia|]. exists fl. rewrite lookup_insert_eq. split; [done|].
      by apply chain_insert.
    + by constructor.
    + intros o [->|Ho]%elem_of_cons; [exists i; split; [lia|done]|].
      destruct (Hin o Ho) as (j & ? & ?). exists j. split; [lia|done].
    + exists w', fl', objs'. rewrite E. replace (i + Z.of_nat (Datatypes.S n)) with (i + 1 + Z.of_nat n) by lia.
      split_and!; try done.
      * intros a Ha. rewrite Hw'; [|intros j Hj; apply Ha; lia]. apply lookup_insert_ne. intros <-. by apply (Ha i); lia.
      * intros _. destruct n; [|by apply Hne; lia]. simpl in E. injection E as _ <-. unfold NULL. nia.
Qed.

Lemma on_slab_page st loc MO o s cp sz :
  kinv st loc MO -> on_slab st o s cp sz -> page_ok s /\ s < o < s + SLAB_SIZE /\ 0 < sz.
Proof.
  intros HI (sl & c & i & Hs & _ & Hc & <- & Hi & -> & Hb).
  destruct (k_slab _ _ _ HI _ _ Hs) as (Hp & _). destruct (k_cache _ _ _ HI _ _ Hc) as ((Hsz & _) & _).
  unfold sizeof_slab, SLAB_SIZE in *. split; [done|]. nia.
Qed.

Lemma page_cap p q o : (ARCH_PAGE_GRAN | p) -> (ARCH_PAGE_GRAN | q) ->
  p <= o < p + SLAB_SIZE -> q <= o < q + SLAB_SIZE -> p = q.
Proof. unfold ARCH_PAGE_GRAN, SLAB_SIZE. intros [x ->] [y ->] ? ?. lia. Qed.

(** A fresh page of the direct map. *)
Lemma fresh_page st loc MO :
  kinv st loc MO ->
  page_alloc (pages st) = Panic \/
  exists a pg, page_alloc (pages st) = Ok (a, pg) /\ u64 (a + HHDM) = a + HHDM /\ page_ok (a + HHDM) /\
    HHDM <= a + HHDM < HHDM + 2 ^ 46 /\ ~ held st (a + HHDM) /\
    exists G, pa_state pg G /\ a ∈ G /\ (forall p, held st p -> p - HHDM ∈ G).
Proof.
  intros HI. destruct (k_pages _ _ _ HI) as (G & HG & Hh). destruct HH as (H1 & H2 & H3).
  destruct (page_alloc_spec _ _ HG) as [?|(a & pg & E & Hs & Hn & Ha & Hb & Hd)]; [by left|right].
  unfold ARCH_PAGE_GRAN in *. exists a, pg. split; [done|]. split; [apply u64_small; lia|].
  split; [split; [lia|]; unfold ARCH_PAGE_GRAN; split; [lia|by apply Z.divide_add_r]|]. split; [lia|]. split.
  - intros Hx%Hh. by replace (a + HHDM - HHDM) with a in Hx by lia.
  - exists ({[a]} ∪ G). split; [done|]. split; [set_solver|]. intros p Hp. apply Hh in Hp. set_solver.
Qed.

(** The new objects of a slab get the place [InSlab]. *)
Definition add_objs (s : Z) (objs : list Z) (loc : gmap Z place) : gmap Z place :=
  foldr (fun o l => <[o := InSlab s]> l) loc objs.

Lemma lookup_add_objs s objs loc x :
  add_objs s objs loc !! x = if decide (x ∈ objs) then Some (InSlab s) else loc !! x.
Proof.
  induction objs as [|o objs IH].
  - destruct (decide (x ∈ [])) as [Hx|]; [by apply not_elem_of_nil in Hx|done].
  - unfold add_objs in *. cbn [foldr]. destruct (decide (x = o)) as [->|].
    + rewrite lookup_insert_eq. destruct (decide (o ∈ o :: objs)); [done|set_solver].
    + rewrite lookup_insert_ne, IH by done. destruct (decide (x ∈ objs)), (decide (x ∈ o :: objs)); set_solver.
Qed.

Lemma cache_make_slab_ok st loc MO cp c :
  kinv st loc MO -> caches st !! cp = Some c ->
  (cache_make_slab HHDM cp st = Panic /\ page_alloc (pages st) = Panic) \/
  exists s st' loc', cache_make_slab HHDM cp st = Ok (s, st') /\ kinv st' loc' MO /\ grows st st' /\
    caches st' = caches st /\ mags st' = mags st /\ slabs st !! s = None /\
    slab_avail st' cp s /\
    (forall x, loc' !! x = Some Used <-> loc !! x = Some Used).
Proof.
  intros HI Hc. unfold cache_make_slab.
  destruct (fresh_page _ _ _ HI) as [E|(a & pg & E & Eu & Hpg & Hwin & Hheld & G & HG & Ha & HGh)]; run E; [by left|right].
  rewrite Eu. cbn [caches set_pages]. run Hc. destruct (k_cache _ _ _ HI _ _ Hc) as ((Hsz & Hfit) & _).
  destruct (Z.eqb_spec (object_size c) 0) as [|_]; [lia|].
  replace (u64 (u64 (pmm_order_to_pagecount 0 * ARCH_PAGE_GRAN) - sizeof_slab)) with (SLAB_SIZE - sizeof_slab) by reflexivity.
  set (s := a + HHDM) in *. set (sz := object_size c) in *. set (n := (SLAB_SIZE - sizeof_slab) / sz).
  assert (0 <= n /\ n * sz <= SLAB_SIZE - sizeof_slab) as [Hn0 Hn].
  { split; [apply Z.div_pos; unfold SLAB_SIZE, sizeof_slab; lia|]. unfold n. rewrite Z.mul_comm. apply Z.mul_div_le. lia. }
  destruct (chain_objects_ok s sz Hpg Hsz (Z.to_nat n) 0 (words st) NULL [])
    as (w' & fl & objs & Ec & Hch & Hnd & Hin & Hw & Hne); [done|rewrite Z2Nat.id by done; lia|done|apply NoDup_nil_2|by intros ? ?%not_elem_of_nil|].
  cbn [words set_pages]. rewrite Ec. rewrite Z2Nat.id in Hin, Hw by done. simpl in Hin.
  assert (slabs st !! s = None /\ mags st !! s = None) as [Hs0 Hm0].
  { split; apply eq_None_not_Some; intros Hx; apply Hheld; unfold held; auto. }
  assert (Hsep : forall x p, loc !! x = Some p -> forall j, 0 <= j < n -> x <> nth_obj s sz j).
  { intros x p Hx j Hj ->. destruct (k_loc _ _ _ HI _ _ Hx) as (s' & cp' & sz' & Hos & _).
    destruct (on_slab_page _ _ _ _ _ _ _ HI Hos) as (Hp' & Hr & _). destruct Hos as (sl & _ & _ & Hs' & _).
    assert (s = s') as ->; [|congruence]. destruct Hpg as (_ & _ & Hd1), Hp' as (_ & _ & Hd2).
    apply (page_cap _ _ (nth_obj s sz j) Hd1 Hd2); [|lia]. unfold nth_obj, sizeof_slab, SLAB_SIZE in *. nia. }
  exists s. eexists. exists (add_objs s objs loc). split; [reflexivity|].
  set (st' := set_slab s (Slab cp fl) (set_words w' (set_pages pg st))).
  assert (grows st st') as Hgr.
  { split; simpl; [|eauto]. intros s' sl Hs'. rewrite lookup_insert_ne by congruence. eauto. }
  split; [split; simpl|split; [done|]; split; [done|]; split; [done|]; split; [done|]; split].
  - exists G. split; [done|]. intros p Hp. unfold held in Hp. simpl in Hp.
    destruct (decide (p = s)) as [->|]; [unfold s; by replace (a + HHDM - HHDM) with a by lia|].
    apply HGh. unfold held. rewrite lookup_insert_ne in Hp by done. done.
  - intros p Hp. apply lookup_insert_is_Some' in Hp as [<-|Hp]; [done|]. by apply (k_sep _ _ _ HI).
  - intros s' sl [[<- <-]|[Hne' Hs']]%lookup_insert_Some.
    + split; [done|]. exists objs. split; [done|]. split; [done|]. intros o Ho. by rewrite lookup_add_objs, decide_True.
    + destruct (k_slab _ _ _ HI _ _ Hs') as (? & os & Hc' & ? & Hl). split; [done|]. exists os. simpl.
      split; [|split; [done|]].
      * eapply chain_ext; [|exact Hc']. intros o Ho. apply Hw. intros j Hj. eapply Hsep; eauto.
      * intros o Ho. rewrite lookup_add_objs, decide_False; [by apply Hl|].
        intros (j & Hj & ->)%Hin. eapply (Hsep (nth_obj s sz j)); [by apply Hl|exact Hj|done].
  - intros o p. rewrite lookup_add_objs. destruct (decide (o ∈ objs)) as [Ho|Ho]; intros Hp.
    + injection Hp as <-. destruct (Hin o Ho) as (j & Hj & ->). exists s, cp, sz. split; [|done].
      exists (Slab cp fl), c, j. simpl. rewrite lookup_insert_eq. split_and!; try done; [lia|]. nia.
    + destruct (k_loc _ _ _ HI _ _ Hp) as (s' & cp' & sz' & Hos & Hpl). exists s', cp', sz'.
      split; [|done]. by eapply on_slab_grows.
  - intros m mg Hm. destruct (k_mag _ _ _ HI _ _ Hm) as (? & ? & ? & Hl). split; [done|]. split; [done|].
    split; [done|]. intros o Ho. rewrite lookup_add_objs, decide_False; [by apply Hl|].
    intros (j & Hj & ->)%Hin. eapply (Hsep (nth_obj s sz j)); [by apply Hl|exact Hj|done].
  - intros cp' c' Hc'. destruct (k_cache _ _ _ HI _ _ Hc') as (? & ? & ? & ? & ? & Hav).
    split_and!; try done; try tauto. intros s' Hs'. destruct (Hav s' Hs') as (sl & Hsl & ?). exists sl.
    simpl. rewrite lookup_insert_ne by congruence. done.
  - apply (k_mo _ _ _ HI).
  - exists (Slab cp fl). simpl. rewrite lookup_insert_eq. split_and!; try done. apply Hne.
    assert (1 <= n) by (apply Z.div_le_lower_bound; lia). lia.
  - intros x. rewrite lookup_add_objs. destruct (decide (x ∈ objs)) as [Hx|]; [|done]. split; [done|].
    intros Hu. destruct (Hin x Hx) as (j & Hj & ->). exfalso. eapply Hsep; eauto.
Qed.

(** Popping the head of a slab's chain; the cache may drop the slab from its
    partial list, and must when the chain is empty. *)
Lemma kinv_pop st loc MO cp c c' s o os n :
  kinv st loc MO -> caches st !! cp = Some c -> slabs st !! s = Some (Slab cp o) ->
  words st !! o = Some n -> chain (words st) n os -> NoDup (o :: os) ->
  (forall x, x ∈ o :: os -> loc !! x = Some (InSlab s)) ->
  object_size c' = object_size c -> cpu_cache c' = cpu_cache c -> magazines_full c' = [] ->
  NoDup (slabs_partial c') -> (forall x, x ∈ slabs_partial c' -> x ∈ slabs_partial c) ->
  (s ∈ slabs_partial c' -> n <> NULL) ->
  kinv (set_cache cp c' (set_slab s (Slab cp n) st)) (<[o := Used]> loc) MO.
Proof.
  intros HI Hc Hs Hw Hch Hnd Hin Hsz Hcpu Hmf Hnp Hsub Hne.
  apply NoDup_cons in Hnd as [Hno Hnd]. pose proof (Hin o ltac:(set_solver)) as Hlo.
  set (st' := set_cache cp c' _).
  assert (grows st st') as Hgr.
  { split; simpl.
    - intros s' sl Hs'. destruct (decide (s' = s)) as [->|]; [|rewrite lookup_insert_ne by done; eauto].
      rewrite lookup_insert_eq. exists (Slab cp n). split; [done|]. simplify_eq. done.
    - intros cp' c0 Hc0. destruct (decide (cp' = cp)) as [->|]; [|rewrite lookup_insert_ne by done; eauto].
      rewrite lookup_insert_eq. exists c'. split; congruence. }
  split; simpl.
  - destruct (k_pages _ _ _ HI) as (G & HG & Hp). exists G. split; [done|]. intros p Hh. apply Hp.
    unfold held in *. simpl in Hh. rewrite !lookup_insert_is_Some' in Hh.
    destruct Hh as [[<-|?]|[?|[[<-|?] ?]]]; eauto 10.
  - intros p Hp. apply lookup_insert_is_Some' in Hp as [<-|]; apply (k_sep _ _ _ HI); eauto.
  - intros s' sl [[<- <-]|[Hne' Hs']]%lookup_insert_Some.
    + destruct (k_slab _ _ _ HI _ _ Hs) as (? & _). split; [done|]. exists os. simpl. split; [done|]. split; [done|].
      intros x Hx. rewrite lookup_insert_ne; [apply Hin; set_solver|]. by intros ->.
    + destruct (k_slab _ _ _ HI _ _ Hs') as (? & os' & ? & ? & Hl). split; [done|]. exists os'. split; [done|].
      split; [done|]. intros x Hx. specialize (Hl x Hx). rewrite lookup_insert_ne; congruence.
  - intros x p [[<- <-]|[_ Hx]]%lookup_insert_Some.
    + destruct (k_loc _ _ _ HI _ _ Hlo) as (s' & cp' & sz & Hos & _). exists s', cp', sz. split; [|done].
      by eapply on_slab_grows.
    + destruct (k_loc _ _ _ HI _ _ Hx) as (s' & cp' & sz & Hos & Hp). exists s', cp', sz. split; [|done].
      by eapply on_slab_grows.
  - intros m mg Hm. destruct (k_mag _ _ _ HI _ _ Hm) as (? & ? & ? & Hl). split; [done|]. split; [done|].
    split; [done|]. intros x Hx. specialize (Hl x Hx). rewrite lookup_insert_ne; congruence.
  - intros cp' c0 [[<- <-]|[Hne' Hx]]%lookup_insert_Some.
    + destruct (k_cache _ _ _ HI _ _ Hc) as (? & ? & ? & ? & ? & Hav). unfold cache_ok. rewrite Hsz, Hcpu.
      split_and!; try done; try tauto. intros x Hx. unfold slab_avail. simpl.
      destruct (decide (x = s)) as [->|]; [rewrite lookup_insert_eq; eauto|].
      rewrite lookup_insert_ne by done. by apply Hav, Hsub.
    + destruct (k_cache _ _ _ HI _ _ Hx) as (? & ? & ? & ? & ? & Hav). split_and!; try done; try tauto.
      intros x Hx'. destruct (Hav x Hx') as (sl & Hsl & Ecp & ?). exists sl. simpl.
      rewrite lookup_insert_ne; [done|]. intros ->. by simplify_eq/=.
  - apply (k_mo _ _ _ HI).
Qed.

(** [o] was handed out to the client of cache [cp]. *)
Definition gave st (loc : gmap Z place) (MO : gmap Z Z) (cp o : Z) st' (loc' : gmap Z place) : Prop :=
  kinv st' loc' MO /\ loc !! o <> Some Used /\
  (forall x, loc' !! x = Some Used <-> x = o \/ loc !! x = Some Used) /\
  (exists s sz, on_slab st' o s cp sz) /\ grows st st'.

(** The caches and their processors' magazines are as before. *)
Definition cpus_kept st st' : Prop := forall cp, cpu_cache <$> caches st' !! cp = cpu_cache <$> caches st !! cp.

Lemma cpus_kept_Some st st' cp c :
  cpus_kept st st' -> caches st !! cp = Some c ->
  exists c', caches st' !! cp = Some c' /\ cpu_cache c' = cpu_cache c.
Proof.
  intros Hk Hc. specialize (Hk cp). rewrite Hc in Hk. destruct (caches st' !! cp) as [c'|]; [|done].
  exists c'. simpl in Hk. split; congruence.
Qed.

Lemma cpus_kept_None st st' cp : cpus_kept st st' -> caches st !! cp = None -> caches st' !! cp = None.
Proof. intros Hk Hc. specialize (Hk cp). rewrite Hc in Hk. by destruct (caches st' !! cp). Qed.

Lemma cpus_kept_trans st1 st2 st3 : cpus_kept st1 st2 -> cpus_kept st2 st3 -> cpus_kept st1 st3.
Proof. intros H1 H2 cp. by rewrite H2, H1. Qed.

Lemma cpus_kept_set st st' cp c c' :
  caches st !! cp = Some c -> cpu_cache c' = cpu_cache c -> caches st' = <[cp := c']> (caches st) -> cpus_kept st st'.
Proof.
  intros Hc E Es x. rewrite Es. destruct (decide (x = cp)) as [->|]; [|by rewrite lookup_insert_ne].
  rewrite lookup_insert_eq, Hc. simpl. congruence.
Qed.

Definition same_cpus st st' : Prop := mags st' = mags st /\ cpus_kept st st'.

Lemma pop_slab st loc MO cp c s rest :
  kinv st loc MO -> caches st !! cp = Some c -> slabs_partial c = s :: rest ->
  exists o st' loc',
    (sl ← deref (slabs st !! s);
     ASSERT (negb (freelist sl =? NULL));;
     let obj := freelist sl in
     next ← deref (words st !! obj);
     let st := set_slab s (Slab (cache_of sl) next) st in
     st ← (if next =? NULL then
             p ← seq_remove s (slabs_partial c);
             Ok (set_cache cp (with_slabs (slabs_full c ++ [s]) p c) st)
           else Ok st);
     Ok (obj, st)) = Ok (o, st') /\ gave st loc MO cp o st' loc' /\ same_cpus st st'.
Proof.
  intros HI Hc Hp. pose proof (k_cache _ _ _ HI _ _ Hc) as (Hsz & Hmf & Hlen & Hcpu & Hnp & Hav).
  destruct (Hav s ltac:(rewrite Hp; set_solver)) as ([cp' fl] & Hs & Ecp & Hfl). simpl in Ecp, Hfl. subst cp'.
  destruct (k_slab _ _ _ HI _ _ Hs) as (_ & objs & Hch & Hnd & Hin). simpl in Hch.
  destruct objs as [|o os]; [done|]. destruct Hch as (-> & Ho & n & Hw & Hch).
  run Hs. cbn [freelist]. rewrite (proj2 (Z.eqb_neq o NULL)) by done. go. cbn [negb]. run Hw. cbn [cache_of].
  pose proof (Hin o ltac:(set_solver)) as Hlo.
  destruct (k_loc _ _ _ HI _ _ Hlo) as (s' & cp' & sz & Hos & ->).
  assert (cp' = cp) as -> by (destruct Hos as (sl & _ & _ & Hs' & <- & _); simplify_eq; done).
  assert (Hfin : forall c', object_size c' = object_size c -> cpu_cache c' = cpu_cache c ->
    magazines_full c' = [] -> NoDup (slabs_partial c') ->
    (forall x, x ∈ slabs_partial c' -> x ∈ slabs_partial c) -> (s' ∈ slabs_partial c' -> n <> NULL) ->
    exists loc', gave st loc MO cp o (set_cache cp c' (set_slab s' (Slab cp n) st)) loc' /\
      same_cpus st (set_cache cp c' (set_slab s' (Slab cp n) st))).
  { intros c' E1 E2 E3 E4 E5 E6. exists (<[o := Used]> loc).
    assert (grows st (set_cache cp c' (set_slab s' (Slab cp n) st))) as Hgr.
    { split; simpl.
      - intros x sl Hx. destruct (decide (x = s')) as [->|]; [|rewrite lookup_insert_ne by done; eauto].
        rewrite lookup_insert_eq. exists (Slab cp n). simplify_eq. done.
      - intros x c0 Hx. destruct (decide (x = cp)) as [->|]; [|rewrite lookup_insert_ne by done; eauto].
        rewrite lookup_insert_eq. exists c'. split; congruence. }
    split.
    - split; [by apply (kinv_pop _ _ _ _ c _ _ _ os)|]. split; [congruence|]. split.
      { intros x. destruct (decide (x = o)) as [->|]; [rewrite lookup_insert_eq; tauto|].
        rewrite lookup_insert_ne by done. naive_solver. }
      split; [|done]. exists s', sz. by eapply on_slab_grows.
    - split; [done|]. by apply (cpus_kept_set _ _ cp c c'). }
  destruct (Z.eqb_spec n NULL) as [Hn|Hn].
  - destruct (seq_remove_in s' (slabs_partial c)) as (ys & E & Hnys & Hys); [rewrite Hp; set_solver|done|].
    run E. destruct (Hfin (with_slabs (slabs_full c ++ [s']) ys c)) as (loc' & Hg); try done.
    + intros x Hx. by apply Hys.
    + intros Hx. apply Hys in Hx as [_ Hx]. done.
    + exists o. eexists. exists loc'. split; [reflexivity|]. done.
  - destruct (Hfin c) as (loc' & Hg); try done. exists o. eexists. exists loc'. split; [reflexivity|].
    replace (set_slab s' (Slab cp n) st) with (set_cache cp c (set_slab s' (Slab cp n) st)); [done|].
    unfold set_cache, set_slab. simpl. by rewrite insert_id.
Qed.

Lemma alloc_from_slabs_ok st loc MO cp c :
  kinv st loc MO -> caches st !! cp = Some c ->
  (cache_alloc_from_slabs HHDM cp st = Panic /\ page_alloc (pages st) = Panic) \/
  exists o st' loc', cache_alloc_from_slabs HHDM cp st = Ok (o, st') /\ gave st loc MO cp o st' loc' /\
    same_cpus st st'.
Proof.
  intros HI Hc. unfold cache_alloc_from_slabs. run Hc.
  destruct (slabs_partial c) as [|s rest] eqn:Hp.
  - rewrite bool_decide_eq_true_2 by done.
    destruct (cache_make_slab_ok _ _ _ _ _ HI Hc) as [[E ?]|(s & st1 & loc1 & E & HI1 & Hg1 & Hcs & Hms & Hnew & Hav & Hu)];
      run E; [by left|]. rewrite <- Hcs in Hc. run Hc. rewrite Hp. cbn [app].
    set (c1 := with_slabs (slabs_full c) [s] c).
    right. destruct (k_cache _ _ _ HI1 _ _ Hc) as (? & ? & ? & ? & _ & _).
    assert (kinv (set_cache cp c1 st1) loc1 MO) as HI2.
    { apply (kinv_set_cache _ _ _ _ c); try done. unfold cache_ok. simpl. split_and!; try done; try tauto.
      - apply NoDup_singleton.
      - intros x Hx. apply list_elem_of_singleton in Hx as ->. exact Hav. }
    assert (caches (set_cache cp c1 st1) !! cp = Some c1) as Hc1 by apply lookup_insert_eq. run Hc1.
    change (slabs_partial c1) with [s]. cbn [list.head hd_error deref mbind outcome_bind].
    destruct (pop_slab _ _ _ _ _ s [] HI2 Hc1 eq_refl) as (o & st' & loc' & E' & (HI' & Hno & Hu' & Hos & Hg') & Hm' & Hcc).
    exists o, st', loc'. split; [exact E'|]. split.
    + split; [done|]. split; [by rewrite <- Hu|]. split; [intros x; by rewrite Hu', Hu|]. split; [done|].
      eapply grows_trans; [exact Hg1|]. eapply grows_trans; [|exact Hg']. split; simpl; [eauto|].
      intros x c0 Hx. destruct (decide (x = cp)) as [->|]; [|rewrite lookup_insert_ne by done; eauto].
      rewrite lookup_insert_eq. exists c1. split; [done|]. simplify_eq. done.
    + split; [by rewrite Hm'|]. eapply cpus_kept_trans; [|exact Hcc].
      apply (cpus_kept_set _ _ cp c c1); [by rewrite <- Hcs|done|]. by rewrite <- Hcs.
  - rewrite bool_decide_eq_false_2 by done. go. run Hc. rewrite Hp. cbn [list.head hd_error deref mbind outcome_bind].
    right. rewrite <- Hp. by apply (pop_slab _ _ _ _ _ s rest).
Qed.

(** ** Allocation and release *)

Definition ready st (cp : Z) : Prop :=
  exists c, caches st !! cp = Some c /\ forall cc, cc ∈ cpu_cache c -> cc <> CpuCache NULL NULL.

Lemma ready_cpu st loc MO cp cpu :
  kinv st loc MO -> ready st cp -> 0 <= cpu < MAX_CPUS ->
  exists c cc, caches st !! cp = Some c /\ get_cpu c cpu = Ok cc /\ cpu_ok st MO cp cc.
Proof.
  intros HI (c & Hc & Hr) Hcpu. unfold MAX_CPUS in Hcpu.
  destruct (k_cache _ _ _ HI _ _ Hc) as (_ & _ & Hlen & Hok & _).
  destruct (lookup_lt_is_Some_2 (cpu_cache c) (Z.to_nat cpu)) as [cc Hcc]; [lia|].
  exists c, cc. unfold get_cpu. destruct (Z.ltb_spec cpu 0); [lia|]. rewrite Hcc. split; [done|]. split; [done|].
  apply list_elem_of_lookup_2 in Hcc. destruct (Hok cc Hcc); [done|]. by destruct (Hr cc Hcc).
Qed.

Lemma cache_ok_with_cpu st MO cp c i cc :
  cache_ok st MO cp c -> cpu_ok st MO cp cc -> cache_ok st MO cp (with_cpu i cc c).
Proof.
  intros (? & ? & ? & Hcpu & ? & ?) Hcc. unfold cache_ok. simpl. rewrite length_insert. split_and!; try done; try tauto.
  intros cc' [->|Hin]%elem_of_insert_inv; [by left|by apply Hcpu].
Qed.

Lemma cpu_ok_swap st MO cp cc : cpu_ok st MO cp cc -> cpu_ok st MO cp (CpuCache (previous cc) (loaded cc)).
Proof. unfold cpu_ok. simpl. tauto. Qed.

Lemma ready_set_cache st cp c i cc :
  ready st cp -> caches st !! cp = Some c -> cc <> CpuCache NULL NULL -> forall cp', ready st cp' ->
  ready (set_cache cp (with_cpu i cc c) st) cp'.
Proof.
  intros _ Hc Hcc cp' (c1 & Hc1 & Hr1). unfold ready. simpl.
  destruct (decide (cp' = cp)) as [->|]; [|rewrite lookup_insert_ne by done; eauto].
  rewrite lookup_insert_eq. eexists. split; [reflexivity|]. simpl. assert (c1 = c) as -> by congruence.
  intros cc' [->|Hin]%elem_of_insert_inv; [done|by apply Hr1].
Qed.

Lemma grows_set_cache st cp c c' :
  caches st !! cp = Some c -> object_size c' = object_size c -> grows st (set_cache cp c' st).
Proof.
  intros Hc Hsz. split; simpl; [eauto|]. intros x c0 Hx.
  destruct (decide (x = cp)) as [->|]; [|rewrite lookup_insert_ne by done; eauto].
  rewrite lookup_insert_eq. exists c'. split; congruence.
Qed.

Lemma used_insert (loc : gmap Z place) o x :
  <[o := Used]> loc !! x = Some Used <-> x = o \/ loc !! x = Some Used.
Proof.
  destruct (decide (x = o)) as [->|]; [rewrite lookup_insert_eq; tauto|]. rewrite lookup_insert_ne by done. naive_solver.
Qed.

(** Taking an object from a magazine hands it out. *)
Lemma take_gives st0 st loc MO m mg cp :
  kinv st loc MO -> grows st0 st -> mags st !! m = Some mg -> MO !! m = Some cp -> 0 < count mg ->
  exists o, get_object mg (count mg - 1) = Ok o /\
    gave st0 loc MO cp o (set_mag m (Mag (count mg - 1) (objects mg)) st) (<[o := Used]> loc).
Proof.
  intros HI Hg Hm HMO Hc. destruct (mag_take _ _ _ _ _ HI Hm Hc) as (o & E & Hlo & HI'). exists o.
  split; [done|]. split; [done|]. split; [congruence|]. split; [intros; apply used_insert|].
  destruct (k_loc _ _ _ HI _ _ Hlo) as (s & cp' & sz & Hos & HM). simplify_eq.
  split; [by exists s, sz|]. done.
Qed.

Lemma kmem_alloc_ok st loc MO cp cpu :
  kinv st loc MO -> ready st cp -> 0 <= cpu < MAX_CPUS ->
  (kmem_alloc_cache HHDM cp cpu st = Panic /\ page_alloc (pages st) = Panic) \/
  exists o st' loc', kmem_alloc_cache HHDM cp cpu st = Ok (o, st') /\ gave st loc MO cp o st' loc' /\
    forall cp', ready st cp' -> ready st' cp'.
Proof.
  intros HI Hr Hcpu. destruct (ready_cpu _ _ _ _ _ HI Hr Hcpu) as (c & cc & Hc & Hcc & Hok).
  pose proof Hok as (HMl & HMp & [ml Hml] & [mp Hmp] & Hl0 & Hp0).
  unfold kmem_alloc_cache. run Hc. run Hcc. run Hml.
  pose proof (k_mag _ _ _ HI _ _ Hml) as (_ & Hrl & _). 
  destruct (Z.gtb_spec (count ml) 0).
  - right. destruct (take_gives st st _ _ _ _ cp HI (grows_refl st) Hml HMl) as (o & E & Hg); [lia|].
    run E. exists o. eexists _, _. split; [reflexivity|]. split; [exact Hg|]. done.
  - rewrite (proj2 (Z.eqb_neq _ NULL)) by done. go. cbn [negb]. run Hmp. 
    pose proof (k_mag _ _ _ HI _ _ Hmp) as (_ & Hrp & _).
    destruct (Z.eqb_spec (count mp) MAG_SIZE).
    + right. set (c' := with_cpu cpu _ c).
      assert (kinv (set_cache cp c' st) loc MO) as HI'.
      { apply (kinv_set_cache _ _ _ _ c); try done. apply cache_ok_with_cpu; [by apply (k_cache _ _ _ HI)|by apply cpu_ok_swap]. }
      destruct (take_gives st (set_cache cp c' st) _ _ (previous cc) mp cp HI') as (o & E & Hg);
        [by apply (grows_set_cache _ _ c)|done|done|unfold MAG_SIZE in *; lia|].
      run E. exists o. eexists _, _. split; [reflexivity|]. split; [exact Hg|].
      intros cp' Hr'. apply (ready_set_cache st cp c cpu (CpuCache (previous cc) (loaded cc))); try done. congruence.
    + destruct (k_cache _ _ _ HI _ _ Hc) as (_ & -> & _).
      destruct (alloc_from_slabs_ok _ _ _ _ _ HI Hc) as [E|(o & st' & loc' & E & Hg & Hm & Hcs)]; [by left|right].
      exists o, st', loc'. split; [done|]. split; [done|]. intros cp' (c0 & Hc0 & Hr0).
      destruct (cpus_kept_Some _ _ _ _ Hcs Hc0) as (c1 & ? & Ec). exists c1. split; [done|]. by rewrite Ec.
Qed.

(** [o] came back from the client. *)
Definition took st (loc : gmap Z place) (MO : gmap Z Z) (o : Z) st' : Prop :=
  exists loc', kinv st' loc' MO /\ (forall x, loc' !! x = Some Used <-> x <> o /\ loc !! x = Some Used) /\
    grows st st'.

Lemma put_takes st0 st loc0 loc MO m mg cp o s sz :
  kinv st loc MO -> grows st0 st -> (forall x, loc !! x = Some Used <-> loc0 !! x = Some Used) ->
  mags st !! m = Some mg -> MO !! m = Some cp -> count mg < MAG_SIZE ->
  loc !! o = Some Used -> on_slab st o s cp sz ->
  exists mg', put_object mg (count mg) o = Ok mg' /\ count mg' = count mg /\
    took st0 loc0 MO o (set_mag m (Mag (count mg + 1) (objects mg')) st).
Proof.
  intros HI Hg Hloc Hm HMO Hc Ho Hos. destruct (mag_put _ _ _ _ _ _ _ _ _ HI Hm Hc Ho Hos HMO) as (mg' & E & Ec & HI').
  exists mg'. split; [done|]. split; [done|]. exists (<[o := InMag m]> loc). split; [done|]. split; [|done].
  intros x. destruct (decide (x = o)) as [->|]; [rewrite lookup_insert_eq; naive_solver|].
  rewrite lookup_insert_ne by done. rewrite Hloc. naive_solver.
Qed.

Lemma kmem_free_ok st loc MO cp cpu o s sz :
  kinv st loc MO -> ready st cp -> 0 <= cpu < MAX_CPUS -> loc !! o = Some Used -> on_slab st o s cp sz ->
  exists st', kmem_free_cache HHDM cp cpu o st = Ok st' /\ took st loc MO o st' /\
    forall cp', ready st cp' -> ready st' cp'.
Proof.
  intros HI Hr Hcpu Ho Hos. destruct (ready_cpu _ _ _ _ _ HI Hr Hcpu) as (c & cc & Hc & Hcc & Hok).
  pose proof Hok as (HMl & HMp & [ml Hml] & [mp Hmp] & Hl0 & Hp0).
  pose proof (k_cache _ _ _ HI _ _ Hc) as Hcok. pose proof Hcok as (_ & Hmf & _).
  unfold kmem_free_cache. run Hc. run Hcc. run Hml.
  pose proof (k_mag _ _ _ HI _ _ Hml) as (_ & Hrl & _). pose proof (k_mag _ _ _ HI _ _ Hmp) as (_ & Hrp & _).
  destruct (Z.ltb_spec (count ml) MAG_SIZE).
  - destruct (put_takes st st loc loc MO (loaded cc) ml cp o s sz HI (grows_refl st)) as (mg' & E & Ec & Ht); [done..|].
    run E. rewrite Ec. eexists. split; [reflexivity|]. split; [exact Ht|]. done.
  - run Hmp. destruct (Z.eqb_spec (count mp) 0).
    + set (c' := with_cpu cpu _ c).
      assert (kinv (set_cache cp c' st) loc MO) as HI'.
      { apply (kinv_set_cache _ _ _ _ c); try done. apply cache_ok_with_cpu; [done|by apply cpu_ok_swap]. }
      assert (grows st (set_cache cp c' st)) as Hgr by by apply (grows_set_cache _ _ c).
      destruct (put_takes st (set_cache cp c' st) loc loc MO (previous cc) mp cp o s sz HI' Hgr) as (mg' & E & Ec & Ht);
        [done|done|done|unfold MAG_SIZE; lia|done|by eapply on_slab_grows|].
      run E. rewrite Ec. eexists. split; [reflexivity|]. split; [exact Ht|].
      intros cp' Hr'. apply (ready_set_cache st cp c cpu (CpuCache (previous cc) (loaded cc))); try done. congruence.
    + rewrite Hmf. cbn [app]. go. cbn [caches set_cache]. rewrite lookup_insert_eq. go.
      set (c1 := with_mags [] (magazines_empty c) c). set (st1 := set_cache cp c1 st).
      set (c2 := with_cpu cpu (CpuCache (loaded cc) (loaded cc)) c1). set (st2 := set_cache cp c2 st1).
      change (mags st2) with (mags st). run Hml.
      assert (Hc1 : caches st1 !! cp = Some c1) by apply lookup_insert_eq.
      assert (kinv st1 loc MO) as HI1.
      { apply (kinv_set_cache _ _ _ _ c); try done. destruct Hcok as (?&?&?&?&?&?). by unfold cache_ok. }
      assert (kinv st2 loc MO) as HI2.
      { apply (kinv_set_cache _ _ _ _ c1); try done.
        apply cache_ok_with_cpu; [by apply (k_cache _ _ _ HI1)|]. unfold cpu_ok. simpl. eauto 10. }
      assert (grows st st2) as Hg2.
      { eapply grows_trans; [by apply (grows_set_cache st cp c c1)|]. by apply (grows_set_cache st1 cp c1 c2). }
      pose proof (mag_reset _ _ _ _ _ HI2 Hml) as HI3. set (st3 := set_mag (loaded cc) (Mag 0 (objects ml)) st2) in *.
      destruct (put_takes st st3 loc (lose (loaded cc) loc) MO (loaded cc) (Mag 0 (objects ml)) cp o s sz HI3 Hg2)
        as (mg' & E & Ec & Ht).
      * intros x. apply lose_used.
      * apply lookup_insert_eq.
      * done.
      * done.
      * by apply lose_used.
      * by eapply on_slab_grows.
      * simpl in E. rewrite E. go. eexists. split; [reflexivity|]. split.
        { replace (set_mag (loaded cc) (Mag 1 (objects mg')) st2) with (set_mag (loaded cc) (Mag (count (Mag 0 (objects ml)) + 1) (objects mg')) st3); [done|].
          unfold set_mag, st3. simpl. by rewrite !insert_insert_eq. }
        intros cp' Hr'. assert (forall x, ready st x -> ready st1 x) as Hr1.
        { intros x (c0 & Hc0 & Hr0). unfold ready. simpl. destruct (decide (x = cp)) as [->|]; [|rewrite lookup_insert_ne by done; eauto].
          rewrite lookup_insert_eq. simplify_eq. eauto. }
        apply (ready_set_cache st1 cp c1 cpu (CpuCache (loaded cc) (loaded cc))); auto. congruence.
Qed.

(** ** Magazines and caches *)

(** A fresh page becomes an empty magazine of [cp]. *)
Lemma kinv_new_mag st loc MO cp a pg G :
  kinv st loc MO -> ~ held st (a + HHDM) -> pa_state pg G -> a ∈ G ->
  (forall p, held st p -> p - HHDM ∈ G) ->
  kinv (set_mag (a + HHDM) garbage (set_pages pg st)) loc (<[a + HHDM := cp]> MO).
Proof.
  intros HI Hheld HG Ha HGh. set (m := a + HHDM) in *.
  assert (MO !! m = None) as HM.
  { destruct (MO !! m) eqn:E; [|done]. apply (k_mo _ _ _ HI) in E. destruct Hheld. unfold held. auto. }
  assert (HMO : forall x c, MO !! x = Some c -> <[m := cp]> MO !! x = Some c).
  { intros x c Hx. rewrite lookup_insert_ne; congruence. }
  split; simpl.
  - exists G. split; [done|]. intros p Hp. unfold held in Hp. simpl in Hp.
    destruct (decide (p = m)) as [->|]; [unfold m; by replace (a + HHDM - HHDM) with a by lia|].
    apply HGh. unfold held. by rewrite lookup_insert_ne in Hp by done.
  - intros p Hp. rewrite lookup_insert_None. split; [by apply (k_sep _ _ _ HI)|]. intros ->. destruct Hheld. by left.
  - intros s sl Hs. apply (k_slab _ _ _ HI) in Hs as (? & objs & ?). split; eauto.
  - intros o p Ho. destruct (k_loc _ _ _ HI _ _ Ho) as (s & cp' & sz & ? & Hp). exists s, cp', sz. split; [done|].
    destruct p; auto.
  - intros m' mg [[<- <-]|[_ Hm]]%lookup_insert_Some; [|by apply (k_mag _ _ _ HI)].
    by apply mag_ok_empty.
  - intros cp' c Hc. destruct (k_cache _ _ _ HI _ _ Hc) as (? & ? & ? & Hcpu & ? & Hav).
    split_and!; try done; try tauto. intros cc Hcc. destruct (Hcpu cc Hcc) as [(?&?&?&?&?&?)|]; [left|by right].
    unfold cpu_ok. simpl. rewrite !lookup_insert_is_Some'. auto 10.
  - intros m' cp' Hm'. rewrite lookup_insert_is_Some'. apply lookup_insert_Some in Hm' as [[<- _]|[_ Hm']]; [by left|right].
    by apply (k_mo _ _ _ HI) in Hm'.
Qed.

(** What filling a magazine does: [news] are the objects stored in it. *)
Lemma fill_objects_ok cp mag MO : forall n i st loc objs,
  kinv st loc MO -> is_Some (caches st !! cp) -> mags st !! mag = Some (Mag 0 objs) -> 0 <= i ->
  i + Z.of_nat n <= MAG_SIZE ->
  fill_objects HHDM n i cp mag true st = Panic \/
  exists st' loc' news objs', fill_objects HHDM n i cp mag true st = Ok st' /\ kinv st' loc' MO /\
    mags st' !! mag = Some (Mag 0 objs') /\ length news = n /\ NoDup news /\
    (forall x, x ∈ news -> loc !! x <> Some Used /\ exists s sz, on_slab st' x s cp sz) /\
    (forall x, loc' !! x = Some Used <-> x ∈ news \/ loc !! x = Some Used) /\
    (forall j, (j < Z.to_nat i)%nat -> objs' !! j = objs !! j) /\
    (forall j, (j < n)%nat -> objs' !! (Z.to_nat i + j)%nat = news !! j) /\ grows st st' /\
    cpus_kept st st'.
Proof.
  induction n as [|n IH]; intros i st loc objs HI [c Hc] Hm Hi Hb.
  - right. exists st, loc, [], objs. simpl. split_and!; try done; try (intros; lia); eauto using grows_refl.
    + apply NoDup_nil_2.
    + set_solver.
    + set_solver.
  - cbn [fill_objects].
    destruct (alloc_from_slabs_ok _ _ _ _ _ HI Hc) as [[E _]|(o & st1 & loc1 & E & (HI1 & Hno & Hu & (s & sz & Hos) & Hg) & Hm1 & Hcs)];
      run E; [by left|]. rewrite <- Hm1 in Hm. run Hm.
    pose proof (k_mag _ _ _ HI1 _ _ Hm) as (Hlen & _). simpl in Hlen.
    unfold put_object. rewrite (proj2 (Z.leb_le 0 i)), (proj2 (Z.ltb_lt i MAG_SIZE)) by lia. simpl.
    set (objs1 := <[Z.to_nat i := o]> objs). set (st2 := set_mag mag (Mag 0 objs1) st1).
    assert (kinv st2 loc1 MO) as HI2.
    { apply (kinv_set_mag _ loc1); try done; eauto. apply mag_ok_empty. rewrite <- Hlen. apply length_insert. }
    destruct (cpus_kept_Some _ _ _ _ Hcs Hc) as (c1 & Hc1 & Ecpu).
    destruct (IH (i + 1) st2 loc1 objs1 HI2) as [E2|(st' & loc' & news & objs' & E2 & HI' & Hm' & Hln & Hnd & Hnew & Hu' & Hlow & Hhigh & Hg' & Hcs')];
      [by exists c1|apply lookup_insert_eq|lia|lia|by left|].
    right. rewrite E2. exists st', loc', (o :: news), objs'. unfold MAG_SIZE in Hb.
    assert (loc1 !! o = Some Used) as Hlo by (apply Hu; by left).
    split_and!; try done.
    + simpl. lia.
    + constructor; [|done]. intros Hin. by destruct (Hnew o Hin).
    + intros x [->|Hx]%elem_of_cons.
      * split; [done|]. exists s, sz. eapply on_slab_grows; [exact Hg'|]. done.
      * destruct (Hnew x Hx) as [Hx1 ?]. split; [|done]. intros Hx2. apply Hx1, Hu. by right.
    + intros x. rewrite Hu', Hu, elem_of_cons. tauto.
    + intros j Hj. rewrite Hlow by lia. apply list_lookup_insert_ne. lia.
    + intros [|j] Hj.
      * rewrite Nat.add_0_r, Hlow by lia. simpl. apply list_lookup_insert_eq. lia.
      * change ((o :: news) !! Datatypes.S j) with (news !! j). rewrite <- Hhigh by lia. f_equal. lia.
    + eapply grows_trans; [exact Hg|]. exact Hg'.
    + eapply cpus_kept_trans; [exact Hcs|]. exact Hcs'.
Qed.

Lemma fill_null_ok cp mag MO : forall n i st loc objs,
  kinv st loc MO -> mags st !! mag = Some (Mag 0 objs) -> 0 <= i -> i + Z.of_nat n <= MAG_SIZE ->
  exists objs', fill_objects HHDM n i cp mag false st = Ok (set_mag mag (Mag 0 objs') st) /\ length objs' = length objs.
Proof.
  induction n as [|n IH]; intros i st loc objs HI Hm Hi Hb; cbn [fill_objects].
  - exists objs. split; [|done]. f_equal. destruct st. unfold set_mag. simpl in *. by rewrite insert_id.
  - go. run Hm. unfold put_object. rewrite (proj2 (Z.leb_le 0 i)), (proj2 (Z.ltb_lt i MAG_SIZE)) by lia. simpl.
    pose proof (k_mag _ _ _ HI _ _ Hm) as (Hlen & _). simpl in Hlen.
    set (objs1 := <[Z.to_nat i := NULL]> objs).
    assert (length objs1 = length objs) as Hl1 by apply length_insert.
    assert (kinv (set_mag mag (Mag 0 objs1) st) loc MO) as HI2.
    { apply (kinv_set_mag _ loc); try done; eauto. apply mag_ok_empty. congruence. }
    destruct (IH (i + 1) _ loc objs1 HI2) as (objs' & E & Hl'); [apply lookup_insert_eq|lia|lia|].
    exists objs'. rewrite E. split; [|congruence]. f_equal. unfold set_mag. simpl. by rewrite insert_insert_eq.
Qed.

(** The result of [cache_make_magazine]: a new magazine of [cp]. *)
Definition made st (loc : gmap Z place) (MO : gmap Z Z) (cp m : Z) st' (loc' : gmap Z place) (MO' : gmap Z Z) : Prop :=
  kinv st' loc' MO' /\ (forall x, loc' !! x = Some Used <-> loc !! x = Some Used) /\
  MO' = <[m := cp]> MO /\
  m <> NULL /\ MO !! m = None /\ grows st st' /\
  cpus_kept st st'.

Lemma make_magazine_ok st loc MO cp populate :
  kinv st loc MO -> is_Some (caches st !! cp) ->
  cache_make_magazine HHDM cp populate st = Panic \/
  exists m st' loc' MO', cache_make_magazine HHDM cp populate st = Ok (m, st') /\ made st loc MO cp m st' loc' MO'.
Proof.
  intros HI Hc. unfold cache_make_magazine.
  destruct (fresh_page _ _ _ HI) as [E|(a & pg & E & Eu & Hpg & Hwin & Hheld & G & HG & Ha & HGh)]; run E; [by left|].
  rewrite Eu. pose proof (kinv_new_mag _ _ _ cp _ _ _ HI Hheld HG Ha HGh) as HI1. set (m := a + HHDM) in *.
  assert (MO !! m = None) as HM.
  { destruct (MO !! m) eqn:E0; [|done]. apply (k_mo _ _ _ HI) in E0. destruct Hheld. unfold held. auto. }
  set (st1 := set_mag m garbage (set_pages pg st)) in *.
  assert (mags st1 !! m = Some (Mag 0 (replicate 32 0))) as Hm1 by apply lookup_insert_eq.
  assert (m <> NULL) as Hm0 by (unfold page_ok, NULL in *; lia).
  destruct populate.
  - destruct (fill_objects_ok cp m (<[m := cp]> MO) (Z.to_nat MAG_SIZE) 0 st1 loc (replicate 32 0) HI1)
      as [E1|(st2 & loc2 & news & objs & E1 & HI2 & Hm2 & Hln & Hnd & Hnew & Hu & _ & Hobjs & Hg & Hcs)];
      [done|done|done|unfold MAG_SIZE; lia|run E1; by left|]. right. run E1. run Hm2. cbn [objects].
    assert (objs = news) as ->.
    { pose proof (k_mag _ _ _ HI2 _ _ Hm2) as (Hlo & _). simpl in Hlo. apply list_eq. intros j.
      destruct (decide (j < 32)%nat) as [Hj|Hj]; [by apply (Hobjs j)|].
      rewrite !lookup_ge_None_2; [done|..]; [unfold MAG_SIZE in Hln|]; lia. }
    exists m, (set_mag m (Mag MAG_SIZE news) st2), (move_in m news loc2), (<[m := cp]> MO). split; [done|].
    split; [|split; [|split; [done|split; [done|split; [done|split]]]]].
    + apply (kinv_set_mag _ loc2); try done; eauto.
      * split; [done|]. unfold MAG_SIZE. simpl. split; [lia|]. unfold contents. simpl.
        rewrite take_ge by (rewrite Hln; unfold MAG_SIZE; lia). split; [done|].
        intros o Ho. by rewrite lookup_move_in, decide_True.
      * intros x s Hx. rewrite lookup_move_in, decide_False; [done|]. intros Hin.
        assert (loc2 !! x = Some Used) by (apply Hu; by left). congruence.
      * intros x m' Hne Hx. rewrite lookup_move_in, decide_False; [done|]. intros Hin.
        assert (loc2 !! x = Some Used) by (apply Hu; by left). congruence.
      * intros x p. rewrite lookup_move_in. destruct (decide (x ∈ news)) as [Hin|]; [|by left]. intros [= <-]. right.
        destruct (Hnew x Hin) as (_ & s & sz & Hos). exists s, cp, sz. split; [done|apply lookup_insert_eq].
    + intros x. rewrite lookup_move_in. destruct (decide (x ∈ news)) as [Hin|Hin]; [|rewrite Hu; naive_solver].
      split; [done|]. intros Hx. by destruct (Hnew x Hin).
    + exact Hg.
    + exact Hcs.
  - destruct (fill_null_ok cp m _ (Z.to_nat MAG_SIZE) 0 st1 loc _ HI1 Hm1) as (objs & E1 & Hlo); [done|unfold MAG_SIZE; lia|].
    run E1. right. cbn [mags set_mag]. rewrite lookup_insert_eq. go. cbn [objects].
    exists m. eexists. exists loc, (<[m := cp]> MO). split; [reflexivity|].
    replace (set_mag m (Mag 0 objs) (set_mag m (Mag 0 objs) st1)) with (set_mag m (Mag 0 objs) st1)
      by (unfold set_mag; simpl; by rewrite !insert_insert_eq).
    split; [|split; [done|split; [done|split; [done|split; [done|split]]]]].
    + apply (kinv_set_mag _ loc); try done; eauto. apply mag_ok_empty. by rewrite Hlo.
    + split; simpl; eauto.
    + by intros cp0.
Qed.

(** The processors' magazines of a cache, from the [i]-th on. *)
Lemma init_cpus_ok cp : forall n i st loc MO c,
  kinv st loc MO -> caches st !! cp = Some c -> 0 <= i -> i + Z.of_nat n = MAX_CPUS ->
  (forall j cc, (j < Z.to_nat i)%nat -> cpu_cache c !! j = Some cc -> cc <> CpuCache NULL NULL) ->
  init_cpus HHDM n i cp st = Panic \/
  exists st' loc' MO', init_cpus HHDM n i cp st = Ok st' /\ kinv st' loc' MO' /\
    (forall x, loc' !! x = Some Used <-> loc !! x = Some Used) /\ ready st' cp /\ grows st st' /\
    (forall cp', cp' <> cp -> ready st cp' -> ready st' cp') /\
    (forall cp', caches st !! cp' = None -> caches st' !! cp' = None).
Proof.
  induction n as [|n IH]; intros i st loc MO c HI Hc Hi Hn Hlow; cbn [init_cpus].
  - right. exists st, loc, MO. split_and!; try done; [|apply grows_refl]. exists c. split; [done|].
    intros cc [j Hj]%list_elem_of_lookup. apply (Hlow j); [|done].
    destruct (k_cache _ _ _ HI _ _ Hc) as (_ & _ & Hlen & _). apply lookup_lt_Some in Hj.
    unfold MAX_CPUS in Hn. lia.
  - destruct (make_magazine_ok st loc MO cp true HI) as [E|(l & st1 & loc1 & MO1 & E & HI1 & Hu1 & EM1 & Hl0 & HMl & Hg1 & Hcs1)];
      [eauto|run E; by left|]. run E.
    destruct (cpus_kept_Some _ _ _ _ Hcs1 Hc) as (c1 & Hc1 & Ec1).
    destruct (make_magazine_ok st1 loc1 MO1 cp false HI1) as [E2|(p & st2 & loc2 & MO2 & E2 & HI2 & Hu2 & EM2 & Hp0 & HMp & Hg2 & Hcs2)];
      [eauto|run E2; by left|]. run E2.
    destruct (cpus_kept_Some _ _ _ _ Hcs2 Hc1) as (c2 & Hc2 & Ec2). run Hc2.
    assert (cpu_ok st2 MO2 cp (CpuCache l p)) as Hok.
    { assert (MO2 !! l = Some cp /\ MO2 !! p = Some cp) as [Hl Hp].
      { subst MO2. split; [|apply lookup_insert_eq]. rewrite lookup_insert_ne by (intros ->; subst MO1; by rewrite lookup_insert_eq in HMp).
        subst MO1. apply lookup_insert_eq. }
      split_and!; simpl; try done; by eapply (k_mo _ _ _ HI2). }
    set (c3 := with_cpu i (CpuCache l p) c2).
    assert (kinv (set_cache cp c3 st2) loc2 MO2) as HI3.
    { apply (kinv_set_cache _ _ _ _ c2); try done. apply cache_ok_with_cpu; [by apply (k_cache _ _ _ HI2)|done]. }
    assert (grows st (set_cache cp c3 st2)) as Hg3.
    { eapply grows_trans; [exact Hg1|]. eapply grows_trans; [exact Hg2|]. by apply (grows_set_cache _ _ c2). }
    destruct (IH (i + 1) _ loc2 MO2 c3 HI3) as [E3|(st' & loc' & MO' & E3 & HI' & Hu' & Hr' & Hg' & Hrr & Hnn)].
    + apply lookup_insert_eq.
    + lia.
    + lia.
    + intros j cc Hj. simpl. rewrite Ec2, Ec1. destruct (decide (j = Z.to_nat i)) as [->|].
      * intros Hcc. pose proof (lookup_lt_Some _ _ _ Hcc) as Hlt. rewrite length_insert in Hlt.
        rewrite list_lookup_insert_eq in Hcc by done. injection Hcc as <-. congruence.
      * rewrite list_lookup_insert_ne by done. apply Hlow. lia.
    + by left.
    + right. exists st', loc', MO'. split_and!; try done.
      * intros x. by rewrite Hu', Hu2, Hu1.
      * by eapply grows_trans.
      * intros cp' Hne (c0 & Hc0 & Hr0). apply Hrr; [done|]. destruct (cpus_kept_Some _ _ _ _ Hcs1 Hc0) as (c01 & Hc01 & E01).
        destruct (cpus_kept_Some _ _ _ _ Hcs2 Hc01) as (c02 & Hc02 & E02). exists c02. simpl. rewrite lookup_insert_ne by done.
        split; [done|]. intros cc. rewrite E02, E01. apply Hr0.
      * intros cp' Hx. apply Hnn. simpl. apply (cpus_kept_None _ _ _ Hcs1) in Hx. apply (cpus_kept_None _ _ _ Hcs2) in Hx.
        rewrite lookup_insert_ne; congruence.
Qed.

Lemma cache_initialize_ok st loc MO cp name size :
  kinv st loc MO -> caches st !! cp = None -> 8 <= size <= SLAB_SIZE - sizeof_slab ->
  (HHDM <= cp < HHDM + 2 ^ 46 -> exists G, pa_state (pages st) G /\ cp - HHDM ∈ G /\ forall p, held st p -> p - HHDM ∈ G) ->
  kmem_cache_intialize HHDM cp name size st = Panic \/
  exists st' loc' MO', kmem_cache_intialize HHDM cp name size st = Ok st' /\ kinv st' loc' MO' /\
    (forall x, loc' !! x = Some Used <-> loc !! x = Some Used) /\ ready st' cp /\
    (exists c, caches st' !! cp = Some c /\ object_size c = size) /\ grows st st' /\
    (forall cp', ready st cp' -> ready st' cp') /\
    (forall cp', cp' <> cp -> caches st !! cp' = None -> caches st' !! cp' = None).
Proof.
  intros HI Hnew Hsz Hpg. unfold kmem_cache_intialize. set (c := Cache name size [] [] [] [] _).
  set (st1 := set_cache cp c st).
  assert (grows st st1) as Hg1.
  { split; simpl; [eauto|]. intros x c0 Hx. rewrite lookup_insert_ne by congruence. eauto. }
  assert (kinv st1 loc MO) as HI1.
  { split; simpl.
    - destruct (decide (HHDM <= cp < HHDM + 2 ^ 46)) as [Hw|Hw].
      + destruct (Hpg Hw) as (G & HG & Hin & Hh). exists G. split; [done|]. intros p Hp.
        destruct (decide (p = cp)) as [->|]; [done|]. apply Hh. unfold held in *. simpl in Hp.
        by rewrite lookup_insert_ne in Hp by done.
      + destruct (k_pages _ _ _ HI) as (G & HG & Hh). exists G. split; [done|]. intros p Hp. apply Hh. unfold held in *.
        simpl in Hp. destruct Hp as [?|[?|[Hx ?]]]; [by left|by right; left|right; right]. split; [|done].
        apply lookup_insert_is_Some' in Hx as [->|]; done.
    - apply (k_sep _ _ _ HI).
    - intros s sl Hs. apply (k_slab _ _ _ HI) in Hs as (? & objs & ?). split; eauto.
    - intros o p Ho. destruct (k_loc _ _ _ HI _ _ Ho) as (s & cp' & sz & Hos & Hp). exists s, cp', sz.
      split; [by eapply on_slab_grows|done].
    - apply (k_mag _ _ _ HI).
    - intros cp' c0 [[<- <-]|[_ Hx]]%lookup_insert_Some; [|by apply (k_cache _ _ _ HI) in Hx].
      unfold cache_ok. simpl. split_and!; try done; try lia.
      + intros cc Hcc. right. change (cc ∈ replicate 32 (CpuCache NULL NULL)) in Hcc.
        by apply elem_of_replicate in Hcc as [-> _].
      + apply NoDup_nil_2.
      + set_solver.
    - apply (k_mo _ _ _ HI). }
  destruct (init_cpus_ok cp (Z.to_nat MAX_CPUS) 0 st1 loc MO c HI1) as [E|(st' & loc' & MO' & E & HI' & Hu & Hr & Hg & Hrr & Hnn)];
    [apply lookup_insert_eq|lia|done|intros; lia|by left|right].
  exists st', loc', MO'. split_and!; try done.
  - destruct Hg as [_ Hg]. destruct (Hg cp c) as (c' & ? & ?); [apply lookup_insert_eq|]. exists c'. done.
  - by eapply grows_trans.
  - intros cp' (c0 & Hc0 & Hr0). assert (cp' <> cp) by congruence. apply Hrr; [done|]. exists c0. simpl.
    rewrite lookup_insert_ne by done. done.
  - intros cp' Hne Hx. apply Hnn. simpl. by rewrite lookup_insert_ne.
Qed.
End proofs.

(** ** Theorems *)

Section theorems.
Context {S : Type} `{PageAllocator S} (HHDM : Z).
Implicit Types st : kmem S.

(** The allocator's state with [U] the objects in the hands of clients. *)
Definition kmem_inv st (U : gset Z) : Prop :=
  exists loc MO, kinv HHDM st loc MO /\ forall x, x ∈ U <-> loc !! x = Some Used.

(** [o] is an object of cache [cp] that spans [sz] bytes inside one page. *)
Definition object_of st (o cp sz : Z) : Prop := exists s, on_slab st o s cp sz.

Lemma objects_apart st loc MO x y cx cy sx sy :
  kinv HHDM st loc MO -> object_of st x cx sx -> object_of st y cy sy -> x <> y ->
  x + sx <= y \/ y + sy <= x.
Proof.
  intros HI (s & Hx) (s' & Hy) Hne.
  destruct (on_slab_page _ _ _ _ _ _ _ _ HI Hx) as ((_ & _ & [a Ha]) & Hbx & Hpos).
  destruct (on_slab_page _ _ _ _ _ _ _ _ HI Hy) as ((_ & _ & [b Hb]) & Hby & _).
  destruct Hx as (sl & c & i & Hs & Ec & Hc & <- & Hi & -> & Hfi), Hy as (sl' & c' & j & Hs' & Ec' & Hc' & <- & Hj & -> & Hfj).
  unfold SLAB_SIZE, ARCH_PAGE_GRAN, sizeof_slab in *.
  destruct (decide (s = s')) as [<-|Hd].
  - assert (c' = c) as -> by congruence. assert (i <> j) by (intros ->; by apply Hne).
    assert (i + 1 <= j \/ j + 1 <= i) as [Hij|Hij] by lia; [left|right];
      apply (Z.mul_le_mono_nonneg_r _ _ (object_size c)) in Hij; lia.
  - assert (a < b \/ b < a) by lia. lia.
Qed.

Lemma kmem_inv_free_object st U x : kmem_inv st U -> x ∈ U -> exists cp sz, object_of st x cp sz.
Proof.
  intros (loc & MO & HI & HU) Hx%HU. destruct (k_loc _ _ _ _ HI _ _ Hx) as (s & cp & sz & Hos & _).
  exists cp, sz. by exists s.
Qed.
End theorems.

(** C5: [kmem_alloc_cache] on a processor of an initialised cache either stops
    because the physical memory manager is out of pages, or returns an object of
    the requested cache that no client holds: it lies inside a page of the cache's
    slabs, its bytes do not overlap those of any object in use, and the
    allocator's invariant holds with the object added to those in use. *)
Theorem kmem_alloc_correct {S : Type} `{PageAllocator S} (HHDM : Z) (st : kmem S) U cp cpu :
  hhdm_ok HHDM -> kmem_inv HHDM st U -> ready st cp -> 0 <= cpu < MAX_CPUS ->
  (kmem_alloc_cache HHDM cp cpu st = Panic /\ page_alloc (pages st) = Panic) \/
  exists o st' sz, kmem_alloc_cache HHDM cp cpu st = Ok (o, st') /\ o ∉ U /\
    kmem_inv HHDM st' ({[o]} ∪ U) /\ object_of st' o cp sz /\
    (forall x cx sx, x ∈ U -> object_of st x cx sx -> o + sz <= x \/ x + sx <= o) /\
    (forall cp', ready st cp' -> ready st' cp').
Proof.
  intros HH (loc & MO & HI & HU) Hr Hcpu.
  destruct (kmem_alloc_ok HHDM HH st loc MO cp cpu HI Hr Hcpu) as [?|(o & st' & loc' & E & (HI' & Hno & Hu & (s & sz & Hos) & Hg) & Hrr)];
    [by left|right].
  exists o, st', sz. split; [done|]. split; [by rewrite HU|]. split.
  { exists loc', MO. split; [done|]. intros x. rewrite Hu, elem_of_union, elem_of_singleton, HU. done. }
  split; [by exists s|]. split; [|done]. intros x cx sx Hx [s' Hx'].
  apply (objects_apart HHDM st' loc' MO o x cp cx sz sx HI'); [by exists s|exists s'; by eapply on_slab_grows|].
  intros ->. apply HU in Hx. done.
Qed.

(** [kmem_free_cache] of an object in use by a client of the cache always
    returns, keeps the invariant, and takes exactly that object from those in
    use, whatever magazines the processor has. *)
Theorem kmem_free_correct {S : Type} `{PageAllocator S} (HHDM : Z) (st : kmem S) U cp cpu o sz :
  hhdm_ok HHDM -> kmem_inv HHDM st U -> ready st cp -> 0 <= cpu < MAX_CPUS ->
  o ∈ U -> object_of st o cp sz ->
  exists st', kmem_free_cache HHDM cp cpu o st = Ok st' /\ kmem_inv HHDM st' (U ∖ {[o]}) /\
    (forall cp', ready st cp' -> ready st' cp').
Proof.
  intros HH (loc & MO & HI & HU) Hr Hcpu Ho [s Hos]. apply HU in Ho.
  destruct (kmem_free_ok HHDM HH st loc MO cp cpu o s sz HI Hr Hcpu Ho Hos) as (st' & E & (loc' & HI' & Hu & _) & Hrr).
  exists st'. split; [done|]. split; [|done]. exists loc', MO. split; [done|].
  intros x. rewrite Hu, elem_of_difference, elem_of_singleton, HU. tauto.
Qed.

(** [kmem_new_cache] of a size that fits a slab either runs out of pages or
    builds a cache every processor can allocate from, keeps the invariant and
    hands out nothing. *)
Theorem kmem_new_cache_correct {S : Type} `{PageAllocator S} (HHDM : Z) (st : kmem S) U name size :
  hhdm_ok HHDM -> kmem_inv HHDM st U -> 8 <= size <= SLAB_SIZE - sizeof_slab ->
  kmem_new_cache HHDM name size st = Panic \/
  exists cp st', kmem_new_cache HHDM name size st = Ok (cp, st') /\ kmem_inv HHDM st' U /\ ready st' cp /\
    (exists c, caches st' !! cp = Some c /\ object_size c = size) /\
    (forall cp', ready st cp' -> ready st' cp').
Proof.
  intros HH (loc & MO & HI & HU) Hsz. unfold kmem_new_cache.
  destruct (fresh_page HHDM HH _ _ _ HI) as [E|(a & pg & E & Eu & Hpg & Hwin & Hheld & G & HG & Ha & HGh)]; run E; [by left|].
  rewrite Eu. set (st1 := set_pages pg st).
  assert (kinv HHDM st1 loc MO) as HI1.
  { destruct HI. split; try done. exists G. split; [done|]. exact HGh. }
  destruct (cache_initialize_ok HHDM HH st1 loc MO (a + HHDM) name size HI1) as [E1|(st' & loc' & MO' & E1 & HI' & Hu & Hr & Hsz' & _ & Hrr & _)].
  - apply eq_None_not_Some. intros Hx. apply Hheld. unfold held. auto.
  - done.
  - intros _. exists G. split; [done|]. split; [by replace (a + HHDM - HHDM) with a by lia|]. exact HGh.
  - run E1. by left.
  - run E1. right. exists (a + HHDM), st'. split; [done|]. split; [|done].
    exists loc', MO'. split; [done|]. intros x. by rewrite HU, Hu.
Qed.

(** When the loaded magazine of the processor is full and the previous one
    is not empty, [kmem_free_cache] takes the loaded magazine itself back as the
    new magazine: both slots of the processor name the same magazine, which now
    holds only the freed object, and the depot and the slabs are as before.  The
    [MAG_SIZE] objects it held, and those of the previous magazine, are reachable
    from nowhere: they are lost although they are free. *)
Theorem kmem_free_loses_magazine {S : Type} `{PageAllocator S} (HHDM : Z) (st : kmem S) U cp cpu o sz c cc ml mp :
  hhdm_ok HHDM -> kmem_inv HHDM st U -> ready st cp -> 0 <= cpu < MAX_CPUS -> o ∈ U -> object_of st o cp sz ->
  caches st !! cp = Some c -> get_cpu c cpu = Ok cc ->
  mags st !! loaded cc = Some ml -> mags st !! previous cc = Some mp ->
  count ml = MAG_SIZE -> count mp <> 0 ->
  exists st' c' ml', kmem_free_cache HHDM cp cpu o st = Ok st' /\ caches st' !! cp = Some c' /\
    get_cpu c' cpu = Ok (CpuCache (loaded cc) (loaded cc)) /\
    mags st' !! loaded cc = Some ml' /\ contents ml' = [o] /\
    magazines_full c' = [] /\ magazines_empty c' = magazines_empty c /\
    slabs st' = slabs st /\ words st' = words st.
Proof.
  intros HH (loc & MO & HI & HU) Hr Hcpu Ho Hos Hc Hcc Hml Hmp Hful Hne.
  pose proof (k_cache _ _ _ _ HI _ _ Hc) as (_ & Hmf & Hlen & _).
  pose proof (k_mag _ _ _ _ HI _ _ Hml) as (Hlo & _).
  unfold kmem_free_cache. run Hc. run Hcc. run Hml. rewrite Hful. cbn [Z.ltb Z.compare].
  change (MAG_SIZE <? MAG_SIZE) with false. cbv iota. run Hmp. rewrite (proj2 (Z.eqb_neq _ _) Hne).
  rewrite Hmf. cbn [app]. go. cbn [caches set_cache]. rewrite lookup_insert_eq. go.
  cbn [mags set_cache]. run Hml. change (put_object (Mag 0 (objects ml)) 0 o) with (Ok (Mag 0 (<[0%nat := o]> (objects ml)))).
  go. do 3 eexists. split; [reflexivity|]. simpl. split; [apply lookup_insert_eq|]. split.
  { unfold get_cpu. unfold MAX_CPUS in Hcpu. destruct (Z.ltb_spec cpu 0); [lia|]. simpl.
    rewrite list_lookup_insert_eq by lia. done. }
  split; [apply lookup_insert_eq|]. split; [|done]. unfold contents. simpl. destruct (objects ml); [done|]. done.
Qed.

(** ** A concrete allocator *)

Definition ex_HH : Z := 2 ^ 63.
Definition ex_m1 : Z := ex_HH + 0x1000.
Definition ex_m2 : Z := ex_HH + 0x2000.
Definition ex_slab : Z := ex_HH + 0x3000.
(** One slab of 64-byte objects whose object 40 is in use; [m1] holds objects
    0 to 31, [m2] object 32. *)
Definition ex_objs (i : Z) (n : nat) : list Z := (fun k => nth_obj ex_slab 64 (i + Z.of_nat k)) <$> seq 0 n.
Definition ex_used : Z := nth_obj ex_slab 64 40.
Definition ex_kmem : kmem bump :=
  Kmem (Bump 4 []) {[16 := Cache 0 64 [] [] [] [] (replicate 32 (CpuCache ex_m1 ex_m2))]}
    {[ex_slab := Slab 16 NULL]} ∅
    {[ex_m1 := Mag 32 (ex_objs 0 32); ex_m2 := Mag 1 (ex_objs 32 32)]}.
Definition ex_loc : gmap Z place :=
  <[ex_used := Used]> (<[nth_obj ex_slab 64 32 := InMag ex_m2]> (move_in ex_m1 (ex_objs 0 32) ∅)).

Lemma ex_hhdm : hhdm_ok ex_HH.
Proof. unfold hhdm_ok, ex_HH, ARCH_PAGE_GRAN. split; [lia|]. split; [lia|]. by exists (2 ^ 51). Qed.

Lemma ex_on_slab j : 0 <= j < 63 -> on_slab ex_kmem (nth_obj ex_slab 64 j) ex_slab 16 64.
Proof.
  intros Hj. exists (Slab 16 NULL). eexists _, j. split; [apply lookup_singleton_eq|]. split; [done|].
  split; [apply lookup_singleton_eq|]. split; [done|]. unfold nth_obj, sizeof_slab, SLAB_SIZE. lia.
Qed.

Lemma ex_in_objs x i n : x ∈ ex_objs i n -> exists k, (k < n)%nat /\ x = nth_obj ex_slab 64 (i + Z.of_nat k).
Proof. intros (k & -> & Hk%elem_of_seq)%list_elem_of_fmap. exists k. split; [lia|done]. Qed.

Lemma ex_objs_nodup i n : NoDup (ex_objs i n).
Proof.
  apply NoDup_fmap_2_strong; [|apply NoDup_seq]. intros x y _ _. unfold nth_obj. lia.
Qed.

Lemma ex_kinv : kinv ex_HH ex_kmem ex_loc {[ex_m1 := 16; ex_m2 := 16]}.
Proof.
  assert (ex_m1 <> ex_m2 /\ ex_m1 <> ex_slab /\ ex_m2 <> ex_slab) as (N1 & N2 & N3) by (unfold ex_m1, ex_m2, ex_slab; lia).
  split; simpl.
  - exists {[0x1000; 0x2000; 0x3000]}. split.
    + split; simpl; [lia|]. intros a Ha. unfold ARCH_PAGE_GRAN. rewrite !elem_of_union, !elem_of_singleton in Ha. lia.
    + intros p Hp. unfold held in Hp. simpl in Hp. rewrite !elem_of_union, !elem_of_singleton.
      destruct Hp as [Hp|[Hp|[Hp ?]]]; rewrite ?lookup_insert_is_Some', ?lookup_singleton_is_Some in Hp;
        unfold ex_m1, ex_m2, ex_slab, ex_HH in *; lia.
  - intros p Hp. rewrite lookup_singleton_is_Some in Hp. subst p. rewrite !lookup_insert_None. auto.
  - intros s sl [<- <-]%lookup_singleton_Some. split.
    + unfold page_ok, ex_slab, ex_HH, ARCH_PAGE_GRAN. split; [lia|]. split; [lia|]. by exists (2 ^ 51 + 3).
    + exists []. split; [done|]. split; [apply NoDup_nil_2|]. by intros ? ?%not_elem_of_nil.
  - unfold ex_loc. intros o p Ho. apply lookup_insert_Some in Ho as [[<- <-]|[_ Ho]].
    { exists ex_slab, 16, 64. split; [by apply ex_on_slab|done]. }
    apply lookup_insert_Some in Ho as [[<- <-]|[_ Ho]].
    { exists ex_slab, 16, 64. split; [by apply ex_on_slab|]. by rewrite lookup_insert_ne, lookup_singleton_eq by done. }
    rewrite lookup_move_in in Ho. destruct (decide (o ∈ ex_objs 0 32)) as [Hin|]; [|done]. injection Ho as <-.
    apply ex_in_objs in Hin as (k & Hk & ->). exists ex_slab, 16, 64. split; [apply ex_on_slab; lia|].
    apply lookup_insert_eq.
  - intros m mg [[<- <-]|[_ [<- <-]%lookup_singleton_Some]]%lookup_insert_Some.
    + split; [done|]. unfold MAG_SIZE. split; [done|].
      change (contents (Mag 32 (ex_objs 0 32))) with (ex_objs 0 32). split; [apply ex_objs_nodup|]. intros o Ho. pose proof Ho as (k & Hk & Eo)%ex_in_objs.
      unfold ex_loc. rewrite !lookup_insert_ne by (unfold ex_used, nth_obj in *; lia). by rewrite lookup_move_in, decide_True.
    + split; [done|]. unfold MAG_SIZE. split; [done|]. split; [apply NoDup_singleton|]. intros o Ho.
      apply list_elem_of_singleton in Ho as ->. unfold ex_loc. rewrite lookup_insert_ne by (unfold ex_used, nth_obj; lia).
      apply lookup_insert_eq.
  - intros cp c [<- <-]%lookup_singleton_Some. unfold cache_ok, SLAB_SIZE, sizeof_slab. simpl. split_and!; try done; try lia.
    + intros cc Hcc. change (cc ∈ replicate 32 (CpuCache ex_m1 ex_m2)) in Hcc.
      apply elem_of_replicate in Hcc as [-> _]. left. unfold cpu_ok. simpl. rewrite !lookup_insert_eq.
      rewrite !lookup_insert_ne by done. rewrite !lookup_singleton_eq. split_and!; done || (unfold ex_m1, ex_m2, ex_HH, NULL; lia).
    + apply NoDup_nil_2.
    + by intros ? ?%not_elem_of_nil.
  - intros m cp. rewrite !lookup_insert_is_Some', lookup_singleton_is_Some.
    intros [[-> _]|[_ [-> _]%lookup_singleton_Some]]%lookup_insert_Some; auto.
Qed.

Lemma ex_inv : kmem_inv ex_HH ex_kmem {[ex_used]}.
Proof.
  exists ex_loc, {[ex_m1 := 16; ex_m2 := 16]}. split; [exact ex_kinv|]. intros x. rewrite elem_of_singleton. unfold ex_loc.
  destruct (decide (x = ex_used)) as [->|Hx]; [by rewrite lookup_insert_eq|]. rewrite lookup_insert_ne by done.
  split; [done|]. intros [[_ ?]|[_ Hl]]%lookup_insert_Some; [done|]. rewrite lookup_move_in in Hl.
  by destruct (decide (x ∈ ex_objs 0 32)).
Qed.

Lemma ex_ready : ready ex_kmem 16.
Proof.
  eexists. split; [apply lookup_singleton_eq|]. intros cc Hcc. apply elem_of_replicate in Hcc as [-> _].
  unfold ex_m1, ex_HH, NULL. intros [= ?]; lia.
Qed.

Lemma kmem_alloc_correct_witness :
  exists o st', kmem_alloc_cache ex_HH 16 3 ex_kmem = Ok (o, st') /\ o ∉ ({[ex_used]} : gset Z).
Proof.
  destruct (kmem_alloc_correct ex_HH ex_kmem {[ex_used]} 16 3 ex_hhdm ex_inv ex_ready ltac:(unfold MAX_CPUS; lia))
    as [[_ E]|(o & st' & sz & E & Hno & _)]; [vm_compute in E; discriminate E|exists o, st'; exact (conj E Hno)].
Defined.

Lemma kmem_free_correct_witness :
  exists st', kmem_free_cache ex_HH 16 3 ex_used ex_kmem = Ok st' /\ kmem_inv ex_HH st' ({[ex_used]} ∖ {[ex_used]}).
Proof.
  destruct (kmem_free_correct ex_HH ex_kmem {[ex_used]} 16 3 ex_used 64 ex_hhdm ex_inv ex_ready) as (st' & E & HI & _).
  - unfold MAX_CPUS; lia.
  - set_solver.
  - exists ex_slab. by apply ex_on_slab.
  - exists st'. exact (conj E HI).
Defined.

Lemma kmem_new_cache_correct_witness :
  kmem_new_cache ex_HH 0 128 ex_kmem = Panic \/
  exists cp st', kmem_new_cache ex_HH 0 128 ex_kmem = Ok (cp, st') /\ ready st' cp.
Proof.
  destruct (kmem_new_cache_correct ex_HH ex_kmem {[ex_used]} 0 128 ex_hhdm ex_inv) as [E|(cp & st' & E & _ & Hr & _)].
  - unfold SLAB_SIZE, sizeof_slab; lia.
  - left; exact E.
  - right. exists cp, st'. exact (conj E Hr).
Defined.

Lemma kmem_free_loses_magazine_witness :
  exists st' ml', kmem_free_cache ex_HH 16 3 ex_used ex_kmem = Ok st' /\ mags st' !! ex_m1 = Some ml' /\ contents ml' = [ex_used].
Proof.
  destruct (kmem_free_loses_magazine ex_HH ex_kmem {[ex_used]} 16 3 ex_used 64
    (Cache 0 64 [] [] [] [] (replicate 32 (CpuCache ex_m1 ex_m2))) (CpuCache ex_m1 ex_m2)
    (Mag 32 (ex_objs 0 32)) (Mag 1 (ex_objs 32 32)) ex_hhdm ex_inv ex_ready)
    as (st' & c' & ml' & E & _ & _ & Hm & Hc & _).
  - unfold MAX_CPUS; lia.
  - set_solver.
  - exists ex_slab. by apply ex_on_slab.
  - reflexivity.
  - reflexivity.
  - reflexivity.
  - reflexivity.
  - reflexivity.
  - discriminate.
  - exists st', ml'. split; [exact E|]. split; [exact Hm|exact Hc].
Defined.
