(* ===== verification/Heap.v ===== *)
(** * Kernel heap (kernel/src/mm/heap.c)

    Eight caches of the slab allocator, for sizes 8 to 1024; a request goes to
    the smallest cache that fits.  [g_caches] is the address of the static
    array of caches. *)
From stdpp Require Import base gmap list fin_maps.
From Stdlib Require Import ZArith Lia.
From S2P Require Import Prelude Interfaces Pmm Kmem Strings.

Definition g_cache_sizes : list Z := [8; 16; 32; 64; 128; 256; 512; 1024].

(** The index computation shared by [heap_alloc] and [heap_free_size]. *)
Definition heap_order (size : Z) : outcome Z :=
  if size <=? 8 then Ok 0 else c ← clzll (u64 (size - 1)); Ok (61 - c).

Section heap.
Context {S : Type} `{PageAllocator S} (HHDM g_caches : Z).

(** [&g_caches[i]]; an index outside the array is undefined. *)
Definition cache_at (i : Z) : outcome Z :=
  if (0 <=? i) && (i <? 8) then Ok (g_caches + i * sizeof_cache) else Fault.

Definition heap_alloc (cpu size : Z) (st : kmem S) : outcome (Z * kmem S) :=
  ASSERT (size <=? 1024);;
  order ← heap_order size;
  cp ← cache_at order;
  kmem_alloc_cache HHDM cp cpu st.

Definition heap_free_size (cpu obj size : Z) (st : kmem S) : outcome (kmem S) :=
  order ← heap_order size;
  cp ← cache_at order;
  kmem_free_cache HHDM cp cpu obj st.

Definition heap_free (cpu obj : Z) (st : kmem S) : outcome (kmem S) :=
  let slab := Z.land obj (u64 (Z.lnot (SLAB_SIZE - 1))) in
  sl ← deref (slabs st !! slab);
  c ← deref (caches st !! cache_of sl);
  heap_free_size cpu obj (object_size c) st.

(** [heap_realloc] also copies bytes: the second component is the byte
    memory. *)
Definition heap_realloc (cpu obj old_size new_size : Z) (st : kmem S) (m : mem) : outcome (Z * kmem S * mem) :=
  '(new_obj, st) ← heap_alloc cpu new_size st;
  if negb (obj =? NULL) then
    '(_, m) ← memcpy m new_obj obj old_size;
    st ← heap_free_size cpu obj old_size st;
    Ok (new_obj, st, m)
  else Ok (new_obj, st, m).

(** The loop of [heap_init]; the names are the addresses of the strings. *)
Fixpoint init_caches (n : nat) (i : Z) (names : list Z) (st : kmem S) : outcome (kmem S) :=
  match n with
  | O => Ok st
  | Datatypes.S n =>
      cp ← cache_at i;
      name ← deref (names !! Z.to_nat i);
      size ← deref (g_cache_sizes !! Z.to_nat i);
      st ← kmem_cache_intialize HHDM cp name size st;
      init_caches n (i + 1) names st
  end.

Definition heap_init (names : list Z) (st : kmem S) : outcome (kmem S) := init_caches 8 0 names st.
End heap.

(** ** Size classes *)

Lemma cache_size_pow i : 0 <= i < 8 -> g_cache_sizes !! Z.to_nat i = Some (8 * 2 ^ i).
Proof.
  intros Hi. assert (i = 0 \/ i = 1 \/ i = 2 \/ i = 3 \/ i = 4 \/ i = 5 \/ i = 6 \/ i = 7) as Hc by lia.
  by destruct Hc as [->|[->|[->|[->|[->|[->|[->| ->]]]]]]].
Qed.

(** The class of a size is the least one that is large enough. *)
Lemma heap_order_least size : 0 <= size <= 1024 ->
  exists i, heap_order size = Ok i /\ 0 <= i < 8 /\ size <= 8 * 2 ^ i /\ forall j, 0 <= j < i -> 8 * 2 ^ j < size.
Proof.
  intros Hs. unfold heap_order. destruct (Z.leb_spec size 8).
  - exists 0. split; [done|]. split; [lia|]. split; [lia|]. lia.
  - rewrite u64_small by lia. unfold clzll. destruct (Z.eqb_spec (size - 1) 0); [lia|]. go.
    pose proof (Z.log2_spec (size - 1) ltac:(lia)) as [Hlo Hhi].
    set (l := Z.log2 (size - 1)) in *. replace (61 - (63 - l)) with (l - 2) by lia.
    assert (3 <= l) by (apply Z.log2_le_pow2; lia).
    assert (l < 10) by (apply Z.log2_lt_pow2; lia).
    rewrite Z.pow_succ_r in Hhi by lia.
    assert (8 * 2 ^ (l - 2) = 2 * 2 ^ l) as E.
    { replace l with (2 + (l - 2)) at 2 by lia. rewrite Z.pow_add_r by lia. lia. }
    exists (l - 2). split; [done|]. split; [lia|]. split; [lia|]. intros j Hj.
    assert (2 ^ j <= 2 ^ (l - 3)) by (apply pow2_mono; lia).
    assert (8 * 2 ^ (l - 3) = 2 ^ l) as E2; [|lia].
    replace l with (3 + (l - 3)) at 2 by lia. rewrite Z.pow_add_r by lia. lia.
Qed.

Lemma heap_order_exact i : 0 <= i < 8 -> heap_order (8 * 2 ^ i) = Ok i.
Proof.
  intros Hi. assert (i = 0 \/ i = 1 \/ i = 2 \/ i = 3 \/ i = 4 \/ i = 5 \/ i = 6 \/ i = 7) as Hc by lia.
  by destruct Hc as [->|[->|[->|[->|[->|[->|[->| ->]]]]]]].
Qed.

(** ** Theorems *)

Section proofs.
Context {S : Type} `{PageAllocator S} (HHDM g_caches : Z).
Implicit Types st : kmem S.

Definition heap_cache (i : Z) : Z := g_caches + i * sizeof_cache.

Definition size_class st (i : Z) : Prop :=
  ready st (heap_cache i) /\ exists c, caches st !! heap_cache i = Some c /\ object_size c = 8 * 2 ^ i.

(** All eight caches are initialised with their sizes. *)
Definition heap_ready st : Prop := forall i, 0 <= i < 8 -> size_class st i.

Lemma cache_at_ok i : 0 <= i < 8 -> cache_at g_caches i = Ok (heap_cache i).
Proof. intros Hi. unfold cache_at. rewrite (proj2 (Z.leb_le 0 i)), (proj2 (Z.ltb_lt i 8)) by lia. done. Qed.

Lemma object_size_of st o cp sz c :
  object_of st o cp sz -> caches st !! cp = Some c -> sz = object_size c.
Proof. intros (s & sl & c' & i & _ & _ & Hc & <- & _) Hc'. congruence. Qed.

(** Masking the low bits of an object's address gives its slab. *)
Lemma slab_mask o s : (SLAB_SIZE | s) -> 0 <= s -> s + SLAB_SIZE <= 2 ^ 64 -> s <= o < s + SLAB_SIZE ->
  Z.land o (u64 (Z.lnot (SLAB_SIZE - 1))) = s.
Proof.
  unfold SLAB_SIZE. intros [k ->] H0 H1 Ho.
  replace (u64 (Z.lnot (0x1000 - 1))) with (Z.shiftl (Z.ones 52) 12) by reflexivity.
  replace o with (k * 2 ^ 12 + (o - k * 2 ^ 12)) by lia. set (r := o - k * 2 ^ 12).
  assert (0 <= r < 2 ^ 12) as Hr by (unfold r; lia). assert (0 <= k < 2 ^ 52) by lia.
  apply Z.bits_inj'. intros n Hn. rewrite Z.land_spec, Z.shiftl_spec by lia.
  change 0x1000 with (2 ^ 12). destruct (Z.ltb_spec n 12).
  - rewrite (Z.testbit_neg_r _ (n - 12)) by lia. rewrite Z.mul_pow2_bits_low by lia. apply andb_false_r.
  - rewrite Z.mul_pow2_bits by lia.
    replace (Z.testbit (k * 2 ^ 12 + r) n) with (Z.testbit k (n - 12)).
    + destruct (Z.ltb_spec (n - 12) 52); [rewrite Z.ones_spec_low by lia; apply andb_true_r|].
      rewrite Z.ones_spec_high by lia. rewrite andb_false_r. symmetry. apply (Z.testbit_false k); [lia|].
      rewrite Z.div_small; [done|]. split; [lia|]. apply Z.lt_le_trans with (2 ^ 52); [lia|apply pow2_mono; lia].
    + symmetry.
      replace n with (n - 12 + 12) at 1 by lia. rewrite <- Z.div_pow2_bits by lia. f_equal.
      rewrite Z.add_comm, Z.div_add by lia. rewrite Z.div_small by lia. lia.
Qed.

Lemma size_class_grows st st' i :
  (forall cp, ready st cp -> ready st' cp) -> 
  (forall c, caches st !! heap_cache i = Some c -> exists c', caches st' !! heap_cache i = Some c' /\ object_size c' = object_size c) ->
  size_class st i -> size_class st' i.
Proof.
  intros Hr Hg (Hri & c & Hc & Hsz). split; [auto|]. destruct (Hg c Hc) as (c' & ? & ?). exists c'. split; congruence.
Qed.
End proofs.

(** What the heap needs survives every operation that keeps slabs and caches. *)
Lemma heap_ready_grows {S : Type} `{PageAllocator S} (g_caches : Z) (st st' : kmem S) :
  grows st st' -> (forall cp, ready st cp -> ready st' cp) -> heap_ready g_caches st -> heap_ready g_caches st'.
Proof.
  intros [_ Hg] Hr Hh i Hi. destruct (Hh i Hi) as (Hri & c & Hc & Hsz). split; [by apply Hr|].
  destruct (Hg _ _ Hc) as (c' & Hc' & E). exists c'. split; [done|]. congruence.
Qed.

Lemma heap_alloc_ok {S : Type} `{PageAllocator S} (HHDM g_caches : Z) (st : kmem S) U cpu size :
  hhdm_ok HHDM -> kmem_inv HHDM st U -> heap_ready g_caches st -> 0 <= cpu < MAX_CPUS -> 0 <= size ->
  (1024 < size /\ heap_alloc HHDM g_caches cpu size st = Panic) \/
  (heap_alloc HHDM g_caches cpu size st = Panic /\ page_alloc (pages st) = Panic) \/
  exists o st' i, heap_alloc HHDM g_caches cpu size st = Ok (o, st') /\ 0 <= i < 8 /\
    size <= 8 * 2 ^ i /\ (forall j, 0 <= j < i -> 8 * 2 ^ j < size) /\
    object_of st' o (heap_cache g_caches i) (8 * 2 ^ i) /\ o ∉ U /\ kmem_inv HHDM st' ({[o]} ∪ U) /\
    (forall x cx sx, x ∈ U -> object_of st x cx sx -> o + 8 * 2 ^ i <= x \/ x + sx <= o) /\
    heap_ready g_caches st' /\ grows st st' /\ 0 < o < 2 ^ 64.
Proof.
  intros HH HI Hrdy Hcpu Hs. unfold heap_alloc. destruct (Z.leb_spec size 1024); [|left; done]. right. go.
  destruct (heap_order_least size ltac:(lia)) as (i & E & Hi & Hfit & Hleast). run E. rewrite cache_at_ok by done. go.
  destruct (Hrdy i Hi) as (Hr & c & Hc & Hsz).
  destruct HI as (loc & MO & HI & HU).
  destruct (kmem_alloc_ok HHDM HH st loc MO (heap_cache g_caches i) cpu HI Hr Hcpu)
    as [?|(o & st' & loc' & Eo & (HI' & Hno & Hu & (s & sz & Hos) & Hg) & Hrr)]; [by left|right].
  pose proof Hg as [Hg1 Hg2]. destruct (Hg2 _ _ Hc) as (c' & Hc' & Ec').
  assert (sz = 8 * 2 ^ i) as ->.
  { rewrite <- Hsz, <- Ec'. eapply object_size_of; [|exact Hc']. exists s. exact Hos. }
  exists o, st', i. split; [done|]. split; [done|]. split; [done|]. split; [done|]. split; [by exists s|].
  split; [by rewrite HU|]. split.
  { exists loc', MO. split; [done|]. intros x. rewrite Hu, elem_of_union, elem_of_singleton, HU. done. }
  split; [|split; [by eapply heap_ready_grows|split; [done|]]].
  2: { destruct (on_slab_page _ _ _ _ _ _ _ _ HI' Hos) as ((Hs0 & Hs1 & _) & Hb & _). destruct HH as (? & ? & _). unfold ARCH_PAGE_GRAN, SLAB_SIZE in *. lia. }
  intros x cx sx Hx [s' Hx']. apply (objects_apart HHDM st' loc' MO o x (heap_cache g_caches i) cx (8 * 2 ^ i) sx HI'); [by exists s| |].
  - exists s'. eapply on_slab_grows; [|exact Hx']. by split.
  - intros ->. apply HU in Hx. done.
Qed.

Lemma heap_free_ok {S : Type} `{PageAllocator S} (HHDM g_caches : Z) (st : kmem S) U cpu o i sz :
  hhdm_ok HHDM -> kmem_inv HHDM st U -> heap_ready g_caches st -> 0 <= cpu < MAX_CPUS -> 0 <= i < 8 ->
  o ∈ U -> object_of st o (heap_cache g_caches i) sz ->
  exists st', heap_free HHDM g_caches cpu o st = Ok st' /\ kmem_inv HHDM st' (U ∖ {[o]}) /\
    heap_ready g_caches st' /\ grows st st'.
Proof.
  intros HH (loc & MO & HI & HU) Hrdy Hcpu Hi Ho [s Hos]. apply HU in Ho.
  destruct (Hrdy i Hi) as (Hr & c & Hc & Hsz).
  destruct (on_slab_page _ _ _ _ _ _ _ _ HI Hos) as ((Hs0 & Hs1 & Hsd) & Hb & _).
  unfold heap_free. rewrite (slab_mask o s) by (unfold SLAB_SIZE, ARCH_PAGE_GRAN in *; (done || lia)).
  pose proof Hos as (sl & c' & k & Hs & Ecp & _). run Hs. rewrite Ecp. run Hc. rewrite Hsz.
  unfold heap_free_size. run (heap_order_exact i Hi). rewrite cache_at_ok by done. go.
  destruct (kmem_free_ok HHDM HH st loc MO (heap_cache g_caches i) cpu o s sz HI Hr Hcpu Ho Hos) as (st' & E & (loc' & HI' & Hu & Hg) & Hrr).
  exists st'. split; [done|]. split; [|split; [by eapply heap_ready_grows|done]]. exists loc', MO. split; [done|].
  intros x. rewrite Hu, elem_of_difference, elem_of_singleton, HU. tauto.
Qed.

(** [heap_alloc] halts on sizes above 1024 and otherwise, unless the pages
    run out, returns a fresh object of the smallest size class that holds the
    request, disjoint from every object in use, and keeps the heap usable. *)
Theorem heap_alloc_correct {S : Type} `{PageAllocator S} (HHDM g_caches : Z) (st : kmem S) U cpu size :
  hhdm_ok HHDM -> kmem_inv HHDM st U -> heap_ready g_caches st -> 0 <= cpu < MAX_CPUS -> 0 <= size ->
  (1024 < size /\ heap_alloc HHDM g_caches cpu size st = Panic) \/
  (heap_alloc HHDM g_caches cpu size st = Panic /\ page_alloc (pages st) = Panic) \/
  exists o st' i, heap_alloc HHDM g_caches cpu size st = Ok (o, st') /\ 0 <= i < 8 /\
    size <= 8 * 2 ^ i /\ (forall j, 0 <= j < i -> 8 * 2 ^ j < size) /\
    object_of st' o (heap_cache g_caches i) (8 * 2 ^ i) /\ o ∉ U /\ kmem_inv HHDM st' ({[o]} ∪ U) /\
    (forall x cx sx, x ∈ U -> object_of st x cx sx -> o + 8 * 2 ^ i <= x \/ x + sx <= o).
Proof.
  intros HH HI Hrdy Hcpu Hs.
  destruct (heap_alloc_ok HHDM g_caches st U cpu size HH HI Hrdy Hcpu Hs)
    as [?|[?|(o & st' & i & E & H1 & H2 & H3 & H4 & H5 & H6 & H7 & _)]]; [by left|by right; left|right; right].
  by exists o, st', i.
Qed.

(** [heap_free] finds the cache of a heap object from its address alone, by
    the header of the page it lies in, and gives it back: exactly that object
    leaves the set of objects in use, and the call cannot fail. *)
Theorem heap_free_correct {S : Type} `{PageAllocator S} (HHDM g_caches : Z) (st : kmem S) U cpu o i sz :
  hhdm_ok HHDM -> kmem_inv HHDM st U -> heap_ready g_caches st -> 0 <= cpu < MAX_CPUS -> 0 <= i < 8 ->
  o ∈ U -> object_of st o (heap_cache g_caches i) sz ->
  exists st', heap_free HHDM g_caches cpu o st = Ok st' /\ kmem_inv HHDM st' (U ∖ {[o]}).
Proof.
  intros HH HI Hrdy Hcpu Hi Ho Hof.
  destruct (heap_free_ok HHDM g_caches st U cpu o i sz HH HI Hrdy Hcpu Hi Ho Hof) as (st' & E & HI' & _).
  by exists st'.
Qed.

(** ** The interface of heap objects *)

Definition heap_state {S : Type} `{PageAllocator S} (HHDM g_caches : Z) (st : kmem S) (U : gset Z) : Prop :=
  heap_ready g_caches st /\ exists U', kmem_inv HHDM st U' /\
  forall o, o ∈ U -> o ∈ U' /\ exists i sz, 0 <= i < 8 /\ object_of st o (heap_cache g_caches i) sz.

Lemma object_of_grows {S : Type} (st st' : kmem S) o cp sz : grows st st' -> object_of st o cp sz -> object_of st' o cp sz.
Proof. intros Hg [s Hs]. exists s. by eapply on_slab_grows. Qed.

(** The heap implements the interface on every processor. *)
#[export, program] Instance heap_objects {S : Type} `{PageAllocator S} (HHDM g_caches cpu : Z)
  (HH : hhdm_ok HHDM) (Hcpu : 0 <= cpu < MAX_CPUS) : ObjectAllocator (kmem S) := {|
  obj_alloc := heap_alloc HHDM g_caches cpu;
  obj_free := heap_free HHDM g_caches cpu;
  oa_state := heap_state HHDM g_caches
|}.
Next Obligation.
  intros S ? HHDM g_caches cpu HH Hcpu st U size (Hrdy & U' & HI & HU) Hs.
  destruct (heap_alloc_ok HHDM g_caches st U' cpu size HH HI Hrdy Hcpu (proj1 Hs))
    as [[? _]|[[E _]|(o & st' & i & E & Hi & _ & _ & Hof & Hno & HI' & _ & Hrdy' & Hg & Ho)]]; [lia|by left|right].
  exists o, st'. split; [done|]. split; [|split; [by intros [? _]%HU|done]].
  split; [done|]. exists ({[o]} ∪ U'). split; [done|]. intros x [->%elem_of_singleton|Hx]%elem_of_union.
  - split; [clear; set_solver|]. by exists i, (8 * 2 ^ i).
  - destruct (HU x Hx) as (Hx' & j & sz & Hj & Hxo). split; [clear - Hx'; set_solver|]. exists j, sz.
    split; [done|]. by eapply object_of_grows.
Qed.
Next Obligation.
  intros S ? HHDM g_caches cpu HH Hcpu st U o (Hrdy & U' & HI & HU) Ho.
  destruct (HU o Ho) as (Ho' & i & sz & Hi & Hof).
  destruct (heap_free_ok HHDM g_caches st U' cpu o i sz HH HI Hrdy Hcpu Hi Ho' Hof) as (st' & E & HI' & Hrdy' & Hg).
  exists st'. split; [done|]. split; [done|]. exists (U' ∖ {[o]}). split; [done|].
  intros x [Hx Hne]%elem_of_difference. destruct (HU x Hx) as (Hx' & j & sz' & Hj & Hxo).
  split; [clear - Hx' Hne; set_solver|]. exists j, sz'. split; [done|]. by eapply object_of_grows.
Qed.

(** ** Initialisation and a concrete heap *)

Lemma init_caches_ok {S : Type} `{PageAllocator S} (HHDM g_caches : Z) names (HH : hhdm_ok HHDM) :
  length names = 8%nat -> (g_caches + 8 * sizeof_cache <= HHDM \/ HHDM + 2 ^ 46 <= g_caches) ->
  forall n i (st : kmem S) loc MO, 0 <= i -> i + Z.of_nat n = 8 -> kinv HHDM st loc MO ->
  (forall j, i <= j < 8 -> caches st !! heap_cache g_caches j = None) ->
  (forall j, 0 <= j < i -> size_class g_caches st j) ->
  init_caches HHDM g_caches n i names st = Panic \/
  exists st' loc' MO', init_caches HHDM g_caches n i names st = Ok st' /\ kinv HHDM st' loc' MO' /\
    (forall x, loc' !! x = Some Used <-> loc !! x = Some Used) /\ heap_ready g_caches st'.
Proof.
  intros Hnames Hout. induction n as [|n IH]; intros i st loc MO Hi Hn HI Hnone Hdone; cbn [init_caches].
  - right. exists st, loc, MO. split_and!; try done. intros j Hj. apply Hdone. lia.
  - rewrite cache_at_ok by lia. go.
    destruct (lookup_lt_is_Some_2 names (Z.to_nat i) ltac:(lia)) as [nm Hnm]. run Hnm.
    run (cache_size_pow i ltac:(lia)).
    assert (8 <= 8 * 2 ^ i <= 1024) as Hsz.
    { pose proof (pow2_pos i Hi). pose proof (pow2_mono i 7 ltac:(lia)). change (2 ^ 7) with 128 in *. lia. }
    destruct (cache_initialize_ok HHDM HH st loc MO (heap_cache g_caches i) nm (8 * 2 ^ i) HI)
      as [E|(st1 & loc1 & MO1 & E & HI1 & Hu1 & Hr1 & (c1 & Hc1 & Hs1) & (_ & Hg) & Hrr & Hnn)].
    + apply Hnone. lia.
    + unfold SLAB_SIZE, sizeof_slab. lia.
    + unfold heap_cache, sizeof_cache, MAX_CPUS in *. lia.
    + run E. by left.
    + run E. destruct (IH (i + 1) st1 loc1 MO1) as [E2|(st2 & loc2 & MO2 & E2 & HI2 & Hu2 & Hr2)]; try lia; try done.
      * intros j Hj. apply Hnn; [unfold heap_cache, sizeof_cache, MAX_CPUS; lia|]. apply Hnone. lia.
      * intros j Hj. destruct (decide (j = i)) as [->|]; [split; eauto|].
        apply (size_class_grows _ st); [done| |apply Hdone; lia]. intros c Hc. by apply Hg.
      * by left.
      * right. exists st2, loc2, MO2. split_and!; try done. intros x. by rewrite Hu2, Hu1.
Qed.

(** [heap_init], run before any cache of the heap exists and with the static
    array outside the direct map, either runs out of pages or leaves all eight
    size classes initialised for every processor with no object in use added. *)
Theorem heap_init_correct {S : Type} `{PageAllocator S} (HHDM g_caches : Z) (st : kmem S) U names :
  hhdm_ok HHDM -> kmem_inv HHDM st U -> length names = 8%nat ->
  (g_caches + 8 * sizeof_cache <= HHDM \/ HHDM + 2 ^ 46 <= g_caches) ->
  (forall i, 0 <= i < 8 -> caches st !! heap_cache g_caches i = None) ->
  heap_init HHDM g_caches names st = Panic \/
  exists st', heap_init HHDM g_caches names st = Ok st' /\ kmem_inv HHDM st' U /\ heap_ready g_caches st'.
Proof.
  intros HH (loc & MO & HI & HU) Hn Hout Hnone. unfold heap_init.
  destruct (init_caches_ok HHDM g_caches names HH Hn Hout 8 0 st loc MO) as [E|(st' & loc' & MO' & E & HI' & Hu & Hr)];
    try done; [intros; lia|by left|right].
  exists st'. split; [done|]. split; [|done]. exists loc', MO'. split; [done|]. intros x. by rewrite HU, Hu.
Qed.

(** The heap after [heap_init] on an allocator with nothing allocated. *)
Definition ex_names : list Z := [100; 101; 102; 103; 104; 105; 106; 107].
Definition ex_start : kmem bump := Kmem (Bump 1 []) ∅ ∅ ∅ ∅.

Lemma ex_start_inv : kmem_inv ex_HH ex_start ∅.
Proof.
  exists ∅, ∅. split; [split|]; simpl; try (intros; by simplify_map_eq).
  exists ∅. split; [split; [simpl; lia|set_solver]|]. intros p [[? ?]|[[? ?]|[[? ?] _]]]; by simplify_map_eq.
Qed.

Lemma ex_heap_pages : exists st, heap_init ex_HH 4096 ex_names ex_start = Ok st /\ page_alloc (pages st) <> Panic.
Proof.
  assert (match heap_init ex_HH 4096 ex_names ex_start with
          | Ok st => match page_alloc (pages st) with Panic => false | _ => true end | _ => false end = true) as H
    by (vm_compute; reflexivity).
  destruct (heap_init ex_HH 4096 ex_names ex_start) as [st| | |]; try discriminate H.
  exists st. split; [reflexivity|]. intros Ep. rewrite Ep in H. discriminate H.
Qed.

Lemma ex_out : 4096 + 8 * sizeof_cache <= ex_HH \/ ex_HH + 2 ^ 46 <= 4096.
Proof. left. unfold sizeof_cache, MAX_CPUS, ex_HH. lia. Qed.

Lemma ex_heap_ready st : heap_init ex_HH 4096 ex_names ex_start = Ok st -> kmem_inv ex_HH st ∅ /\ heap_ready 4096 st.
Proof.
  destruct ex_start_inv as (loc & MO & HI & HU). unfold heap_init.
  destruct (init_caches_ok ex_HH 4096 ex_names ex_hhdm eq_refl ex_out 8 0 ex_start loc MO)
    as [->|(st' & loc' & MO' & -> & HI' & Hu & Hr)].
  - lia.
  - lia.
  - exact HI.
  - intros. apply lookup_empty.
  - intros. lia.
  - discriminate.
  - intros [= <-]. split; [|exact Hr]. exists loc', MO'. split; [exact HI'|]. intros x. by rewrite HU, Hu.
Qed.

(** A heap with one object in use. *)
Lemma ex_heap_object : exists st o i, kmem_inv ex_HH st {[o]} /\ heap_ready 4096 st /\ 0 <= i < 8 /\
  object_of st o (heap_cache 4096 i) (8 * 2 ^ i).
Proof.
  destruct ex_heap_pages as (st & E & Hp).
  destruct (ex_heap_ready st E) as [(loc & MO & HI & HU) Hr]. clear E. destruct (Hr 0 ltac:(lia)) as (Hr0 & c & Hc & Hsz).
  destruct (kmem_alloc_ok ex_HH ex_hhdm st loc MO (heap_cache 4096 0) 0 HI Hr0 ltac:(unfold MAX_CPUS; lia))
    as [[_ ?]|(o & st' & loc' & Eo & (HI' & Hno & Hu & (s & sz & Hos) & (_ & Hg)) & Hrr)]; [done|].
  exists st', o, 0. split; [|split; [|split; [lia|]]].
  - exists loc', MO. split; [done|]. intros x. rewrite elem_of_singleton, Hu, <- HU. set_solver.
  - intros i Hi. apply (size_class_grows _ st); [done|by intros c0; apply Hg|by apply Hr].
  - destruct (Hg _ _ Hc) as (c' & Hc' & Ec'). rewrite <- Hsz, <- Ec'. exists s.
    replace (object_size c') with sz; [done|]. eapply object_size_of; [|exact Hc']. exists s. exact Hos.
Qed.

Lemma heap_init_correct_witness :
  exists st, heap_init ex_HH 4096 ex_names ex_start = Ok st /\ kmem_inv ex_HH st ∅ /\ heap_ready 4096 st.
Proof.
  destruct ex_heap_pages as (st0 & E0 & _).
  destruct (heap_init_correct ex_HH 4096 ex_start ∅ ex_names ex_hhdm ex_start_inv) as [E|(st & E & HI & Hr)].
  - reflexivity.
  - left. unfold sizeof_cache, MAX_CPUS, ex_HH. lia.
  - intros; reflexivity.
  - exfalso. rewrite E0 in E. discriminate E.
  - exists st. split; [exact E|]. split; [exact HI|exact Hr].
Defined.

Lemma heap_alloc_correct_witness :
  exists st o st' i, heap_alloc ex_HH 4096 0 100 st = Ok (o, st') /\ 100 <= 8 * 2 ^ i /\
    object_of st' o (heap_cache 4096 i) (8 * 2 ^ i).
Proof.
  destruct ex_heap_pages as (st & E & Hp).
  destruct (ex_heap_ready st E) as [HI Hr]. clear E.
  destruct (heap_alloc_correct ex_HH 4096 st ∅ 0 100 ex_hhdm HI Hr) as [[? _]|[[_ E2]|(o & st' & i & E2 & _ & Hfit & _ & Ho & _)]].
  - unfold MAX_CPUS. lia.
  - lia.
  - lia.
  - contradiction.
  - exists st, o, st', i. split; [exact E2|]. split; [exact Hfit|exact Ho].
Defined.

Lemma heap_free_correct_witness :
  exists st o st', heap_free ex_HH 4096 0 o st = Ok st'.
Proof.
  destruct ex_heap_object as (st & o & i & HI & Hr & Hi & Ho).
  destruct (heap_free_correct ex_HH 4096 st {[o]} 0 o i (8 * 2 ^ i) ex_hhdm HI Hr) as (st' & E & _).
  - unfold MAX_CPUS. lia.
  - exact Hi.
  - set_solver.
  - exact Ho.
  - exists st, o, st'. exact E.
Defined.
