(* ===== verification/Start.v ===== *)
(** * Start of memory management (kernel/src/main.c)

    [kernel_main] begins with [pmm_init], [kmem_init] and [heap_init].  Here the
    three allocators are stacked on each other as in the kernel: the heap takes
    its pages from the buddy allocator that [pmm_init] built from the memory map
    of the boot loader.  The theorem follows the kernel's heap from that memory
    map through every sequence of allocations and releases. *)
From stdpp Require Import base gmap list fin_maps relations.
From Stdlib Require Import ZArith Lia.
From S2P Require Import Prelude Interfaces Pmm Kmem Heap.

Section start.
Context (HHDM : Z) (HH : hhdm_ok HHDM) (g_caches : Z).

(** The buddy allocator as the source of pages. *)
Definition pages_of (usable : Z -> Prop) : PageAllocator pmm := pmm_pages HHDM (proj1 HH) usable.
#[local] Instance kernel_pages : PageAllocator pmm := pages_of (fun _ => True).

(** The first calls of [kernel_main]. *)
Definition start_memory (es : list memmap_entry) (names : list Z) : outcome (kmem pmm) :=
  pm ← pmm_init HHDM es;
  kmem_init;;
  heap_init HHDM g_caches names (Kmem pm ∅ ∅ ∅ ∅).

(** What the kernel does with its heap from then on, on any processor: the state
    is the allocators and the objects in use, with the sizes asked for. *)
Inductive heap_step : kmem pmm * gmap Z Z -> kmem pmm * gmap Z Z -> Prop :=
| step_alloc cpu size o st st' L : 0 <= cpu < MAX_CPUS -> 0 <= size -> heap_alloc HHDM g_caches cpu size st = Ok (o, st') ->
    heap_step (st, L) (st', <[o := size]> L)
| step_free cpu o size st st' L : 0 <= cpu < MAX_CPUS -> L !! o = Some size -> heap_free HHDM g_caches cpu o st = Ok st' ->
    heap_step (st, L) (st', delete o L).

(** ** The invariant of the stack

    Proved for any set of usable pages; what the operations compute does not
    depend on it. *)
Section invariant.
Context (usable : Z -> Prop).
#[local] Instance usable_pages : PageAllocator pmm := pages_of usable.

Record stack_ok (s : kmem pmm * gmap Z Z) : Prop := {
  so_inv : kmem_inv (H := usable_pages) HHDM s.1 (dom s.2);
  so_ready : heap_ready g_caches s.1;
  so_object o size : s.2 !! o = Some size -> exists i, 0 <= i < 8 /\ size <= 8 * 2 ^ i /\ object_of s.1 o (heap_cache g_caches i) (8 * 2 ^ i);
}.

Lemma empty_kmem_inv pm : pa_state (PageAllocator := usable_pages) pm ∅ -> kmem_inv (H := usable_pages) HHDM (Kmem pm ∅ ∅ ∅ ∅) ∅.
Proof.
  intros Hp. exists ∅, ∅. split; [split|]; simpl; try (intros; by simplify_map_eq).
  exists ∅. split; [done|]. intros p [[? ?]|[[? ?]|[[? ?] _]]]; by simplify_map_eq.
Qed.

Lemma heap_step_ok s s' : stack_ok s -> heap_step s s' -> stack_ok s'.
Proof.
  intros [HI Hr Hobj] Hs. destruct Hs as [cpu size o st st' L Hcpu Hsz E|cpu o size st st' L Hcpu Ho E]; cbn [fst snd] in *.
  - change (heap_alloc (H := usable_pages) HHDM g_caches cpu size st = Ok (o, st')) in E.
    destruct (heap_alloc_ok (H := usable_pages) HHDM g_caches st (dom L) cpu size HH HI Hr Hcpu Hsz)
      as [[_ E']|[[E' _]|(o' & st1 & i & E' & Hi & Hfit & _ & Hof & Hno & HI' & _ & Hr' & Hg & _)]]; rewrite E in E'; try done.
    injection E' as <- <-. split; cbn [fst snd]; [by rewrite dom_insert_L|done|].
    intros x sz [[<- <-]|[Hne Hx]]%lookup_insert_Some; [by exists i|]. destruct (Hobj x sz Hx) as (j & Hj & Hs & Hox). exists j.
    split; [done|]. split; [done|]. by eapply object_of_grows.
  - change (heap_free (H := usable_pages) HHDM g_caches cpu o st = Ok st') in E. destruct (Hobj o size Ho) as (i & Hi & _ & Hof).
    destruct (heap_free_ok (H := usable_pages) HHDM g_caches st (dom L) cpu o i (8 * 2 ^ i) HH HI Hr Hcpu Hi ltac:(by apply elem_of_dom_2 in Ho) Hof)
      as (st1 & E' & HI' & Hr' & Hg). rewrite E in E'. injection E' as <-.
    split; cbn [fst snd]; [by rewrite dom_delete_L|done|].
    intros x sz [Hne Hx]%lookup_delete_Some. destruct (Hobj x sz Hx) as (j & Hj & Hs & Hox). exists j.
    split; [done|]. split; [done|]. by eapply object_of_grows.
Qed.

Lemma heap_reachable_ok s s' : stack_ok s -> rtc heap_step s s' -> stack_ok s'.
Proof. intros Hs Hr. induction Hr as [|s1 s2 s3 H12 _ IH]; [done|]. by eapply IH, heap_step_ok. Qed.

(** Objects in use are apart, and each lies within one usable page. *)
Lemma objects_disjoint st L x y sx sy : stack_ok (st, L) -> L !! x = Some sx -> L !! y = Some sy -> x <> y -> x + sx <= y \/ y + sy <= x.
Proof.
  intros [(loc & MO & HI & _) _ Hobj] Hx Hy Hne. cbn [fst snd] in *. destruct (Hobj x sx Hx) as (i & _ & Hsx & Hox). destruct (Hobj y sy Hy) as (j & _ & Hsy & Hoy).
  pose proof (objects_apart (H := usable_pages) HHDM st loc MO x y _ _ _ _ HI Hox Hoy Hne). lia.
Qed.

Lemma object_in_page st L x sx : stack_ok (st, L) -> L !! x = Some sx ->
  exists p, usable p /\ HHDM + p * ARCH_PAGE_GRAN < x /\ x + sx <= HHDM + (p + 1) * ARCH_PAGE_GRAN.
Proof.
  intros [(loc & MO & HI & _) _ Hobj] Hx. cbn [fst snd] in *. destruct (Hobj x sx Hx) as (i & _ & Hsx & s & Hos).
  destruct (on_slab_page (H := usable_pages) HHDM _ _ _ _ _ _ _ HI Hos) as (_ & Hb & _).
  destruct Hos as (sl & c & k & Hs & _ & _ & Hc & Hk & Ho & Hfit). destruct (k_pages _ _ _ _ HI) as (G & (T & _ & _ & _ & HG) & Hheld).
  destruct (HG (s - HHDM)) as (p & Ep & _ & Hp); [apply Hheld; left; by exists sl|]. exists p. split; [done|].
  unfold SLAB_SIZE, ARCH_PAGE_GRAN in *. nia.
Qed.

Lemma heap_total st L cpu : stack_ok (st, L) -> 0 <= cpu < MAX_CPUS ->
  (forall o, o ∈ dom L -> exists st', heap_free HHDM g_caches cpu o st = Ok st') /\
  (forall size, 0 <= size <= 1024 -> (heap_alloc HHDM g_caches cpu size st = Panic /\ pmm_alloc 0 (pages st) = Panic) \/
     exists o st', heap_alloc HHDM g_caches cpu size st = Ok (o, st')).
Proof.
  intros [HI Hr Hobj] Hcpu. cbn [fst snd] in *. split.
  - intros o Ho. pose proof Ho as [size Hs]%elem_of_dom. destruct (Hobj o size Hs) as (i & Hi & _ & Hof).
    destruct (heap_free_ok (H := usable_pages) HHDM g_caches st (dom L) cpu o i (8 * 2 ^ i) HH HI Hr Hcpu Hi Ho Hof) as (st1 & E & _). by exists st1.
  - intros size Hs. destruct (heap_alloc_ok (H := usable_pages) HHDM g_caches st (dom L) cpu size HH HI Hr Hcpu (proj1 Hs))
      as [[? _]|[E|(o & st1 & i & E & _)]]; [lia|left; exact E|right; by exists o, st1].
Qed.

Lemma init_caches_agree n i names st :
  init_caches (H := kernel_pages) HHDM g_caches n i names st = init_caches (H := usable_pages) HHDM g_caches n i names st.
Proof. reflexivity. Qed.

Lemma start_memory_ok es names pm T : pmm_init HHDM es = Ok pm -> pmm_inv pm T None -> block_count pm * ARCH_PAGE_GRAN <= 2 ^ 46 ->
  (forall p, page_free T p -> usable p) -> length names = 8%nat -> (g_caches + 8 * sizeof_cache <= HHDM \/ HHDM + 2 ^ 46 <= g_caches) ->
  start_memory es names = Panic \/ exists st, start_memory es names = Ok st /\ stack_ok (st, ∅).
Proof.
  intros E I Hlim Hus Hn Hout. unfold start_memory. run E. change (kmem_init) with (@Ok unit tt). go. unfold heap_init. rewrite init_caches_agree.
  assert (kmem_inv (H := usable_pages) HHDM (Kmem pm ∅ ∅ ∅ ∅) ∅) as HI.
  { apply empty_kmem_inv. exists T. split; [done|]. split; [done|]. split; [done|]. set_solver. }
  destruct HI as (loc & MO & HI & HU).
  destruct (init_caches_ok (H := usable_pages) HHDM g_caches names HH Hn Hout 8 0 (Kmem pm ∅ ∅ ∅ ∅) loc MO)
    as [E1|(st & loc' & MO' & E1 & HI' & Hu & Hr)]; try done; [intros; lia|left; exact E1|right].
  exists st. split; [exact E1|]. split; cbn [fst snd]; [|done|intros o size Ho; by rewrite lookup_empty in Ho].
  exists loc', MO'. split; [done|]. intros x. by rewrite dom_empty_L, HU, Hu.
Qed.
End invariant.
End start.

(** C29: the kernel's heap is safe from the memory map on.  For a memory map as the
    boot protocol promises it, the start of memory management ends, or stops for
    want of pages.  In every state reachable from there by allocations and
    releases on any processors, objects in use do not overlap; each lies in one
    page of a usable entry of the memory map outside the array of block
    descriptors; every object in use can be released; and an allocation of at
    most 1024 bytes succeeds unless the buddy allocator has no page left. *)
Theorem kernel_heap_safe HHDM (HH : hhdm_ok HHDM) g_caches es names : memmap_ok HHDM es -> memmap_pages es * ARCH_PAGE_GRAN <= 2 ^ 46 ->
  length names = 8%nat -> (g_caches + 8 * sizeof_cache <= HHDM \/ HHDM + 2 ^ 46 <= g_caches) ->
  start_memory HHDM HH g_caches es names = Panic \/
  exists st0 eb, start_memory HHDM HH g_caches es names = Ok st0 /\ eb ∈ usable_entries es /\ memmap_pages es * sizeof_pmm_block <= mlength eb /\
    forall st L, rtc (heap_step HHDM HH g_caches) (st0, ∅) (st, L) ->
      (forall x y sx sy, L !! x = Some sx -> L !! y = Some sy -> x <> y -> x + sx <= y \/ y + sy <= x) /\
      (forall x sx, L !! x = Some sx -> exists p e, e ∈ usable_entries es /\ entry_frees (base eb) (array_pages (memmap_pages es)) e p /\
         HHDM + p * ARCH_PAGE_GRAN < x /\ x + sx <= HHDM + (p + 1) * ARCH_PAGE_GRAN) /\
      (forall cpu, 0 <= cpu < MAX_CPUS ->
         (forall o, o ∈ dom L -> exists st', heap_free (H := kernel_pages HHDM HH) HHDM g_caches cpu o st = Ok st') /\
         (forall size, 0 <= size <= 1024 ->
            (heap_alloc (H := kernel_pages HHDM HH) HHDM g_caches cpu size st = Panic /\ pmm_alloc 0 (pages st) = Panic) \/
            exists o st', heap_alloc (H := kernel_pages HHDM HH) HHDM g_caches cpu size st = Ok (o, st'))).
Proof.
  intros Hm Hlim Hn Hout. destruct (pmm_init_establishes HHDM es Hm) as (pm & T & eb & E & I & Hc & Heb & Hfit & Hfree & _).
  set (usable p := exists e, e ∈ usable_entries es /\ entry_frees (base eb) (array_pages (memmap_pages es)) e p).
  destruct (start_memory_ok HHDM HH g_caches usable es names pm T E I) as [E0|(st0 & E0 & Hok)]; [by rewrite Hc|rewrite Hc in Hfree; apply Hfree|done|done|by left|].
  right. exists st0, eb. rewrite Hc in Hfit. split; [done|]. split; [done|]. split; [done|]. intros st L Hr.
  pose proof (heap_reachable_ok HHDM HH g_caches usable _ _ Hok Hr) as Hs. split; [intros x y sx sy; by apply (objects_disjoint HHDM HH g_caches usable st L)|].
  split; [|intros cpu Hcpu; by apply (heap_total HHDM HH g_caches usable)].
  intros x sx Hx. destruct (object_in_page HHDM HH g_caches usable st L x sx Hs Hx) as (p & (e & He & Hf) & Hp). by exists p, e.
Qed.

(** ** A concrete start *)

Lemma ex_kernel_hhdm : hhdm_ok Pmm.ex_HHDM.
Proof. unfold Pmm.ex_HHDM. split; [lia|]. split; [lia|]. exists (0xffff800000000000 / ARCH_PAGE_GRAN). vm_compute. reflexivity. Qed.

(** A machine of 16 MiB: page 0 reserved, the array of block descriptors from
    page 1 on. *)
Definition ex_machine : list memmap_entry := [Entry 0 0x1000 false; Entry 0x1000 0xfff000 true].

Lemma ex_machine_usable e : e ∈ usable_entries ex_machine <-> e = Entry 0x1000 0xfff000 true.
Proof. unfold usable_entries, ex_machine. cbn. apply list_elem_of_singleton. Qed.

Lemma ex_machine_ok : memmap_ok Pmm.ex_HHDM ex_machine.
Proof.
  split.
  - intros e ->%ex_machine_usable. unfold entry_end, ARCH_PAGE_GRAN, Pmm.ex_HHDM; simpl. split_and!; try lia; [by exists 1|by exists 0xfff].
  - repeat constructor.
  - done.
  - exists (Entry 0x1000 0xfff000 true). split; [by apply ex_machine_usable|vm_compute; done].
Qed.

Abbreviation ex_start_memory := (start_memory Pmm.ex_HHDM ex_kernel_hhdm 4096 ex_machine ex_names).
Abbreviation ex_heap_alloc := (heap_alloc (H := kernel_pages Pmm.ex_HHDM ex_kernel_hhdm) Pmm.ex_HHDM 4096).

(** The first object of its kernel lies within the usable entry, behind the
    array. *)
Lemma kernel_heap_safe_witness : ex_start_memory = Panic \/ exists st0, ex_start_memory = Ok st0 /\
  forall o st1, ex_heap_alloc 0 100 st0 = Ok (o, st1) -> exists p, 33 <= p < 4096 /\
    Pmm.ex_HHDM + p * ARCH_PAGE_GRAN < o /\ o + 100 <= Pmm.ex_HHDM + (p + 1) * ARCH_PAGE_GRAN.
Proof.
  destruct (kernel_heap_safe Pmm.ex_HHDM ex_kernel_hhdm 4096 ex_machine ex_names ex_machine_ok) as [E|(st0 & eb & E & Heb & _ & Hall)].
  - vm_compute. discriminate.
  - reflexivity.
  - left. unfold sizeof_cache, MAX_CPUS, Pmm.ex_HHDM. lia.
  - left. exact E.
  - right. exists st0. split; [exact E|]. intros o st1 E1. destruct (Hall st1 (<[o := 100]> ∅)) as (_ & Hpage & _).
    + apply rtc_once, (step_alloc _ _ _ 0); [unfold MAX_CPUS; lia|lia|exact E1].
    + destruct (Hpage o 100 ltac:(apply lookup_insert_eq)) as (p & e & ->%ex_machine_usable & Hf & Hp). apply ex_machine_usable in Heb as ->.
      exists p. split; [exact Hf|exact Hp].
Defined.
