(* ===== verification/PageTables.v ===== *)
(** * Four-level page tables

    The part of arch/x86_64/ptm.c and arch/aarch64/ptm.c that is the same up to
    the flag bits: the tables, the walk that finds or creates the next level,
    and what a walk means.  A table is a page of 512 entries, by the address of
    the page in the direct map.  Levels count from 0 (the table whose entries
    name pages) to 3 (the root). *)
From stdpp Require Import base gmap list fin_maps.
From Stdlib Require Import ZArith Lia.
From S2P Require Import Prelude Interfaces Kmem.

Definition PRESENT : Z := 1.
Definition PTE_GET_ADDR (v : Z) : Z := Z.land v 0x000FFFFFFFFFF000.
Definition present (e : Z) : bool := negb (Z.land e PRESENT =? 0).

(** [(virt >> 12) & 0x1FF] and so on: the index at level [k]. *)
Definition index (k : nat) (virt : Z) : Z := Z.land (Z.shiftr virt (12 + 9 * Z.of_nat k)) 0x1FF.

Record tstate (S : Type) := TState { tpages : S; tables : gmap Z (list Z) }.
Arguments TState {S}. Arguments tpages {S}. Arguments tables {S}.

(** A page of zeroes as a table. *)
Definition zero_page : list Z := replicate 512 0.

Lemma zero_page_len : length zero_page = 512%nat.
Proof. apply length_replicate. Qed.

Lemma zero_page_lookup i : (i < 512)%nat -> zero_page !! i = Some 0.
Proof. apply lookup_replicate_2. Qed.

Section walk.
Context {S : Type} `{PageAllocator S} (HHDM : Z).
Implicit Types st : tstate S.

Definition get_entry st (t i : Z) : outcome Z :=
  es ← deref (tables st !! t); deref (es !! Z.to_nat i).

Definition set_entry st (t i v : Z) : outcome (tstate S) :=
  es ← deref (tables st !! t);
  if (0 <=? i) && (i <? Z.of_nat (length es))
  then Ok (TState (tpages st) (<[t := <[Z.to_nat i := v]> es]> (tables st))) else Fault.

Definition zero_table st (t : Z) : tstate S :=
  TState (tpages st) (<[t := zero_page]> (tables st)).

(** [get_next_level] with the flag bits [tflags] of a table entry. *)
Definition next_level (tflags : Z) st (top_level idx : Z) (alloc : bool) : outcome (Z * tstate S) :=
  e ← get_entry st top_level idx;
  if present e then Ok (u64 (PTE_GET_ADDR e + HHDM), st)
  else if negb alloc then Ok (NULL, st)
  else
    '(a, pg) ← page_alloc (tpages st);
    let next := u64 (a + HHDM) in
    let st := zero_table (TState pg (tables st)) next in
    st ← set_entry st top_level idx (Z.lor (u64 (next - HHDM)) tflags);
    Ok (next, st).

(** The loop [for (i = 3; i >= 1; i--)]; it stops early at a missing table. *)
Fixpoint walk (tflags : Z) (i : nat) (virt table : Z) (alloc : bool) st : outcome (Z * tstate S) :=
  match i with
  | O => Ok (table, st)
  | Datatypes.S i' =>
      '(table, st) ← next_level tflags st table (index i virt) alloc;
      if table =? NULL then Ok (NULL, st) else walk tflags i' virt table alloc st
  end.

(** ** Meaning of the tables *)

Definition entry st (t i : Z) : option Z := es ← tables st !! t; es !! Z.to_nat i.

Definition next st (t i : Z) : option Z :=
  match entry st t i with
  | Some e => if present e then Some (PTE_GET_ADDR e + HHDM) else None
  | None => None
  end.

(** The level 0 table of an address, and the entry it names there. *)
Fixpoint reach st (n : nat) (virt t : Z) : option Z :=
  match n with
  | O => Some t
  | Datatypes.S n' => t' ← next st t (index n virt); reach st n' virt t'
  end.

Fixpoint xlate st (n : nat) (virt t : Z) : option Z :=
  match n with
  | O => match entry st t (index 0 virt) with
         | Some e => if present e then Some e else None
         | None => None
         end
  | Datatypes.S n' => t' ← next st t (index n virt); xlate st n' virt t'
  end.

(** ** Invariant

    [lvl] gives the level of every table.  Entries above level 0 name tables of
    the next level down, and no two of them name the same table, except the
    root entries [shared] between address spaces.  The pages of the tables are
    live, and are not among the live pages [D] that hold data. *)
Context (shared : Z -> bool) (D : gset Z).

Record tabs_ok st (lvl : gmap Z nat) : Prop := {
  t_pages : exists G, pa_state (tpages st) G /\ D ⊆ G /\ forall t, is_Some (lvl !! t) -> t - HHDM ∈ G /\ t - HHDM ∉ D;
  t_tab : forall t l, lvl !! t = Some l -> (l <= 3)%nat /\ HHDM <= t /\ t + ARCH_PAGE_GRAN <= HHDM + 2 ^ 46 /\
    (ARCH_PAGE_GRAN | t) /\ exists es, tables st !! t = Some es /\ length es = 512%nat;
  t_next : forall t l i t', lvl !! t = Some (Datatypes.S l) -> 0 <= i < 512 -> next st t i = Some t' ->
    lvl !! t' = Some l;
  t_uniq : forall t l i t' l' i' x, lvl !! t = Some (Datatypes.S l) -> lvl !! t' = Some (Datatypes.S l') ->
    0 <= i < 512 -> 0 <= i' < 512 ->
    next st t i = Some x -> next st t' i' = Some x ->
    (t = t' /\ i = i') \/ (l = 2%nat /\ l' = 2%nat /\ i = i' /\ shared i = true)
}.
End walk.
Arguments get_entry {S} st t i. Arguments set_entry {S} st t i v.

(** ** Entries *)

Lemma index_range k v : 0 <= index k v < 512.
Proof.
  unfold index. change 0x1FF with (Z.ones 9). rewrite Z.land_ones by lia. apply Z.mod_pos_bound. lia.
Qed.

(** Flag bits do not disturb the address of an entry. *)
Lemma pte_addr a f : 0 <= a -> a + ARCH_PAGE_GRAN <= 2 ^ 52 -> (ARCH_PAGE_GRAN | a) -> 0 <= f ->
  Z.land f 0x000FFFFFFFFFF000 = 0 -> PTE_GET_ADDR (Z.lor a f) = a.
Proof.
  unfold PTE_GET_ADDR, ARCH_PAGE_GRAN. intros Ha Hb [k ->] Hf Hm.
  rewrite Z.land_lor_distr_l, Hm, Z.lor_0_r.
  change 0x000FFFFFFFFFF000 with (Z.shiftl (Z.ones 40) 12).
  change 0x1000 with (2 ^ 12). rewrite <- Z.shiftl_mul_pow2, <- Z.shiftl_land by lia.
  rewrite Z.land_ones by lia. rewrite Z.mod_small by lia. done.
Qed.

Lemma present_lor a f : present f = true -> 0 <= a -> 0 <= f -> present (Z.lor a f) = true.
Proof.
  unfold present, PRESENT. intros Hf Ha Hf0. change 1 with (Z.ones 1) in *. rewrite !Z.land_ones in * by lia.
  apply negb_true_iff, Z.eqb_neq. apply negb_true_iff, Z.eqb_neq in Hf. change (2 ^ 1) with 2 in *.
  rewrite Zmod_odd in *. rewrite <- !Z.bit0_odd in *. rewrite Z.lor_spec.
  destruct (Z.testbit f 0); [rewrite orb_true_r; lia|lia].
Qed.

Lemma present_zero : present 0 = false.
Proof. done. Qed.

Section proofs.
Context {S : Type} `{PageAllocator S} (HHDM : Z) (HH : hhdm_ok HHDM) (shared : Z -> bool) (D : gset Z).
Implicit Types st : tstate S.
Notation tabs_ok := (tabs_ok HHDM shared D).

Lemma get_entry_ok st lvl t l i :
  tabs_ok st lvl -> lvl !! t = Some l -> 0 <= i < 512 ->
  exists e, entry st t i = Some e /\ get_entry st t i = Ok e.
Proof.
  intros HI Ht Hi. destruct (t_tab _ _ _ _ _ HI _ _ Ht) as (_ & _ & _ & _ & es & Hes & Hl).
  destruct (lookup_lt_is_Some_2 es (Z.to_nat i)) as [e He]; [lia|]. exists e. unfold entry, get_entry. rewrite Hes.
  simpl. by rewrite He.
Qed.

Lemma set_entry_ok st t i v es :
  tables st !! t = Some es -> length es = 512%nat -> 0 <= i < 512 ->
  exists st', set_entry st t i v = Ok st' /\ tpages st' = tpages st /\
    tables st' = <[t := <[Z.to_nat i := v]> es]> (tables st) /\
    forall t2 j, 0 <= j -> entry st' t2 j = if decide (t2 = t /\ j = i) then Some v else entry st t2 j.
Proof.
  intros Hes Hl Hi. unfold set_entry. run Hes. rewrite (proj2 (Z.leb_le 0 i)), (proj2 (Z.ltb_lt i _)) by lia. simpl.
  eexists. split; [reflexivity|]. split; [done|]. split; [done|]. intros t2 j Hj. unfold entry. simpl.
  destruct (decide (t2 = t)) as [->|].
  - rewrite lookup_insert_eq, Hes. simpl. destruct (decide (j = i)) as [->|].
    + rewrite list_lookup_insert_eq by lia. by rewrite decide_True.
    + rewrite list_lookup_insert_ne by lia. by rewrite decide_False by tauto.
  - rewrite lookup_insert_ne by done. by rewrite decide_False by tauto.
Qed.

Lemma addr_small a : 0 <= a -> a + ARCH_PAGE_GRAN <= 2 ^ 46 -> u64 (a + HHDM) = a + HHDM /\ u64 (a + HHDM - HHDM) = a.
Proof. destruct HH as (? & ? & ?). unfold ARCH_PAGE_GRAN. intros. replace (a + HHDM - HHDM) with a by lia.
  split; apply u64_small; lia. Qed.

(** No reference to a table of [lvl] was added. *)
Definition old_refs st st' (lvl lvl' : gmap Z nat) : Prop := forall t l i x,
  lvl' !! t = Some (Datatypes.S l) -> 0 <= i < 512 -> next HHDM st' t i = Some x -> is_Some (lvl !! x) ->
  lvl !! t = Some (Datatypes.S l) /\ next HHDM st t i = Some x.

Lemma old_refs_refl st lvl : old_refs st st lvl lvl.
Proof. by intros t l i x. Qed.

Lemma old_refs_trans st1 st2 st3 l1 l2 l3 :
  l1 ⊆ l2 -> old_refs st1 st2 l1 l2 -> old_refs st2 st3 l2 l3 -> old_refs st1 st3 l1 l3.
Proof.
  intros Hsub H12 H23 t l i x Ht Hi Hx Hl. destruct (H23 t l i x Ht Hi Hx) as [Ht2 Hx2]; [|by apply H12].
  by eapply lookup_weaken_is_Some.
Qed.

(** A fresh table in a free slot of a table above level 0. *)
Lemma add_table st st' lvl t l i a v pg G :
  tabs_ok st lvl -> lvl !! t = Some (Datatypes.S l) -> 0 <= i < 512 -> next HHDM st t i = None ->
  pa_state pg G -> D ⊆ G -> a ∈ G -> a ∉ D -> (forall x, is_Some (lvl !! x) -> x - HHDM ∈ G /\ x - HHDM ∉ D) -> lvl !! (a + HHDM) = None ->
  0 <= a -> a + ARCH_PAGE_GRAN <= 2 ^ 46 -> (ARCH_PAGE_GRAN | a) -> present v = true -> PTE_GET_ADDR v = a ->
  tpages st' = pg ->
  (forall x, is_Some (lvl !! x) \/ x = a + HHDM -> exists es, tables st' !! x = Some es /\ length es = 512%nat) ->
  (forall x j, 0 <= j < 512 -> entry st' x j =
     if decide (x = t /\ j = i) then Some v else if decide (x = a + HHDM) then Some 0 else entry st x j) ->
  tabs_ok st' (<[a + HHDM := l]> lvl) /\ old_refs st st' lvl (<[a + HHDM := l]> lvl) /\
  (forall n v2 t2, lvl !! t2 = Some n -> xlate HHDM st' n v2 t2 = xlate HHDM st n v2 t2).
Proof.
  intros HI Ht Hi Hfree HG HDG Ha HaD HGl Hnew Ha0 Ha1 Had Hpv Hav Hpg Hes Hent. set (N := a + HHDM) in *.
  assert (Hnx : forall x j, 0 <= j < 512 -> next HHDM st' x j =
    if decide (x = t /\ j = i) then Some N else if decide (x = N) then None else next HHDM st x j).
  { intros x j Hj. unfold next. rewrite (Hent x j Hj). destruct (decide (x = t /\ j = i)); [by rewrite Hpv, Hav|].
    destruct (decide (x = N)); done. }
  assert (t <> N) as HtN by congruence.
  destruct (t_tab _ _ _ _ _ HI _ _ Ht) as (Hl3 & _).
  assert (Hold : forall x lx j x', <[N := l]> lvl !! x = Some (Datatypes.S lx) -> 0 <= j < 512 ->
    next HHDM st' x j = Some x' -> (x = t /\ j = i /\ x' = N) \/
    (lvl !! x = Some (Datatypes.S lx) /\ next HHDM st x j = Some x' /\ x' <> N)).
  { intros x lx j x' Hx Hj. rewrite (Hnx x j Hj). destruct (decide (x = t /\ j = i)) as [[-> ->]|]; [intros [= <-]; by left|].
    destruct (decide (x = N)); [done|]. rewrite lookup_insert_ne in Hx by done. intros Hn. right. split_and!; try done.
    intros ->. apply (t_next _ _ _ _ _ HI _ _ _ _ Hx Hj) in Hn. congruence. }
  split; [split|split].
  - exists G. split; [by rewrite Hpg|]. split; [done|]. intros x [<-|Hx]%lookup_insert_is_Some'; [|by apply HGl].
    unfold N. by replace (a + HHDM - HHDM) with a by lia.
  - intros x lx [[<- <-]|[_ Hx]]%lookup_insert_Some.
    + split; [lia|]. split; [unfold N; lia|]. split; [unfold N; lia|]. split; [|by apply Hes; right].
      destruct HH as (_ & _ & ?). by apply Z.divide_add_r.
    + destruct (t_tab _ _ _ _ _ HI _ _ Hx) as (? & ? & ? & ? & _). split_and!; try done. apply Hes. left. eauto.
  - intros x lx j x' Hx Hj. rewrite (Hnx x j Hj). destruct (decide (x = t /\ j = i)) as [[-> ->]|].
    + intros [= <-]. rewrite lookup_insert_ne in Hx by done. rewrite lookup_insert_eq. congruence.
    + destruct (decide (x = N)); [done|]. rewrite lookup_insert_ne in Hx by done. intros Hn.
      pose proof (t_next _ _ _ _ _ HI _ _ _ _ Hx Hj Hn) as Hx'. rewrite lookup_insert_ne; congruence.
  - intros x lx j x' lx' j' y Hx Hx' Hj Hj' Hy Hy'.
    destruct (Hold _ _ _ _ Hx Hj Hy) as [(-> & -> & ->)|(Hx0 & Hy0 & Hne)],
      (Hold _ _ _ _ Hx' Hj' Hy') as [(-> & -> & ?)|(Hx0' & Hy0' & Hne')]; try done; [by left|].
    by apply (t_uniq _ _ _ _ _ HI x lx j x' lx' j' y).
  - intros x lx j y Hx Hj Hy [ly Hly]. destruct (Hold _ _ _ _ Hx Hj Hy) as [(-> & -> & ->)|(? & ? & _)]; [congruence|done].
  - induction n as [|n IH]; intros v2 t2 Ht2; simpl.
    + rewrite (Hent t2 _ (index_range 0 v2)). rewrite decide_False by (intros [-> _]; congruence).
      by rewrite decide_False by congruence.
    + rewrite (Hnx t2 _ (index_range (Datatypes.S n) v2)). rewrite (decide_False (P := t2 = N)) by congruence.
      destruct (decide (t2 = t /\ index (Datatypes.S n) v2 = i)) as [[-> Ei]|].
      * rewrite Ei, Hfree. simpl. assert (n = l) as -> by congruence.
        clear IH. assert (xlate HHDM st' l v2 N = None) as HN; [|exact HN].
        destruct l as [|l]; simpl.
        -- rewrite (Hent N _ (index_range 0 v2)), decide_False by (intros [? _]; congruence). by rewrite decide_True.
        -- rewrite (Hnx N _ (index_range (Datatypes.S l) v2)), decide_False by (intros [? _]; congruence). by rewrite decide_True.
      * destruct (next HHDM st t2 (index (Datatypes.S n) v2)) as [t'|] eqn:En; [|done]. simpl. apply IH.
        by apply (t_next _ _ _ _ _ HI _ _ _ _ Ht2 (index_range _ _) En).
Qed.

(** [get_next_level] without allocation reads the next table. *)
Lemma next_level_read tf st lvl t l virt :
  tabs_ok st lvl -> lvl !! t = Some (Datatypes.S l) ->
  next_level HHDM tf st t (index (Datatypes.S l) virt) false =
  Ok (match next HHDM st t (index (Datatypes.S l) virt) with Some t' => t' | None => NULL end, st).
Proof.
  intros HI Ht. pose proof (index_range (Datatypes.S l) virt) as Hi.
  destruct (get_entry_ok _ _ _ _ _ HI Ht Hi) as (e & He & G). unfold next_level. run G.
  pose proof (t_next _ _ _ _ _ HI _ _ _ (PTE_GET_ADDR e + HHDM) Ht Hi) as Hn. unfold next in *. rewrite He in *.
  destruct (present e); [|done]. specialize (Hn eq_refl).
  destruct (t_tab _ _ _ _ _ HI _ _ Hn) as (_ & Hlo & Hhi & _). destruct HH as (? & ? & _).
  unfold ARCH_PAGE_GRAN in *. rewrite u64_small by lia. done.
Qed.

Lemma table_not_null st lvl t l : tabs_ok st lvl -> lvl !! t = Some l -> t <> NULL.
Proof.
  intros HI Ht. destruct (t_tab _ _ _ _ _ HI _ _ Ht) as (_ & Hlo & _). destruct HH. unfold NULL. lia.
Qed.

Lemma walk_read tf st lvl virt : tabs_ok st lvl -> forall n t, lvl !! t = Some n ->
  walk HHDM tf n virt t false st = Ok (match reach HHDM st n virt t with Some t' => t' | None => NULL end, st) /\
  (forall t', reach HHDM st n virt t = Some t' -> lvl !! t' = Some 0%nat).
Proof.
  intros HI. induction n as [|n IH]; intros t Ht; cbn [walk reach].
  - split; [done|]. intros t' [= <-]. done.
  - run (next_level_read tf _ _ _ _ virt HI Ht).
    destruct (next HHDM st t (index (Datatypes.S n) virt)) as [t'|] eqn:En; simpl; [|by split].
    pose proof (t_next _ _ _ _ _ HI _ _ _ _ Ht (index_range _ _) En) as Ht'.
    rewrite (proj2 (Z.eqb_neq t' NULL)) by (by eapply table_not_null). by apply IH.
Qed.

(** Conditions on the flag bits of table entries. *)
Definition tflags_ok (f : Z) : Prop := 0 <= f /\ present f = true /\ Z.land f 0x000FFFFFFFFFF000 = 0.

(** [get_next_level] with allocation. *)
Lemma next_level_alloc tf st lvl t l virt :
  tflags_ok tf -> tabs_ok st lvl -> lvl !! t = Some (Datatypes.S l) ->
  next_level HHDM tf st t (index (Datatypes.S l) virt) true = Panic \/
  exists t' st' lvl', next_level HHDM tf st t (index (Datatypes.S l) virt) true = Ok (t', st') /\
    tabs_ok st' lvl' /\ lvl ⊆ lvl' /\ lvl' !! t' = Some l /\
    next HHDM st' t (index (Datatypes.S l) virt) = Some t' /\ old_refs st st' lvl lvl' /\
    (forall n v2 t2, lvl !! t2 = Some n -> xlate HHDM st' n v2 t2 = xlate HHDM st n v2 t2) /\
    (forall x j, 0 <= j < 512 -> (x, j) <> (t, index (Datatypes.S l) virt) -> is_Some (lvl !! x) ->
       entry st' x j = entry st x j).
Proof.
  intros (Hf0 & Hfp & Hfm) HI Ht. pose proof (index_range (Datatypes.S l) virt) as Hi. set (i := index _ virt) in *.
  destruct (get_entry_ok _ _ _ _ _ HI Ht Hi) as (e & He & G). unfold next_level. run G.
  destruct (present e) eqn:Ep.
  - right. assert (next HHDM st t i = Some (PTE_GET_ADDR e + HHDM)) as Hn by (unfold next; by rewrite He, Ep).
    pose proof (t_next _ _ _ _ _ HI _ _ _ _ Ht Hi Hn) as Hn'.
    destruct (t_tab _ _ _ _ _ HI _ _ Hn') as (_ & Hlo & Hhi & _). destruct HH as (? & ? & _).
    unfold ARCH_PAGE_GRAN in *. rewrite u64_small by lia.
    exists (PTE_GET_ADDR e + HHDM), st, lvl. split_and!; done.
  - cbn [negb]. destruct (t_pages _ _ _ _ _ HI) as (G0 & HG0 & HDG & HGl).
    destruct (page_alloc_spec _ _ HG0) as [E|(a & pg & E & Hpg & Hna & Ha0 & Ha1 & Had)]; run E; [by left|right].
    destruct (addr_small a Ha0 Ha1) as [-> ->]. assert (a + ARCH_PAGE_GRAN <= 2 ^ 52) as Ha2 by lia.
    assert (lvl !! (a + HHDM) = None) as Hnew.
    { destruct (lvl !! (a + HHDM)) eqn:El; [|done]. destruct Hna. replace a with (a + HHDM - HHDM) by lia. apply HGl. eauto. }
    assert (t <> a + HHDM) as HtN by congruence.
    destruct (t_tab _ _ _ _ _ HI _ _ Ht) as (_ & _ & _ & _ & es & Hes & Hle).
    set (st1 := zero_table (TState pg (tables st)) (a + HHDM)).
    assert (tables st1 !! t = Some es) as Hes1 by (simpl; by rewrite lookup_insert_ne).
    destruct (set_entry_ok st1 t i (Z.lor a tf) es Hes1 Hle Hi) as (st' & Es & Epg & Etab & Eent). run Es.
    destruct (add_table st st' lvl t l i a (Z.lor a tf) pg ({[a]} ∪ G0) HI Ht Hi) as (HI' & Hrefs & Hx); try done.
    + unfold next. by rewrite He, Ep.
    + set_solver.
    + set_solver.
    + intros Hd. apply Hna. set_solver.
    + intros x Hx%HGl. set_solver.
    + by apply present_lor.
    + by apply pte_addr.
    + intros x Hx. rewrite Etab. destruct (decide (x = t)) as [->|].
      { rewrite lookup_insert_eq. eexists. split; [done|]. by rewrite length_insert. }
      rewrite lookup_insert_ne by done. simpl. destruct (decide (x = a + HHDM)) as [->|].
      { rewrite lookup_insert_eq. eexists. split; [done|]. apply zero_page_len. }
      rewrite lookup_insert_ne by done. destruct Hx as [[lx Hx]|]; [|done].
      by destruct (t_tab _ _ _ _ _ HI _ _ Hx) as (_ & _ & _ & _ & ?).
    + intros x j Hj. rewrite Eent by lia. destruct (decide (x = t /\ j = i)); [done|].
      unfold entry. simpl. destruct (decide (x = a + HHDM)) as [->|]; [|by rewrite lookup_insert_ne].
      rewrite lookup_insert_eq. simpl. apply zero_page_lookup. lia.
    + exists (a + HHDM), st', (<[a + HHDM := l]> lvl). split; [done|]. split; [done|].
      split; [by apply insert_subseteq|]. split; [apply lookup_insert_eq|]. split; [|split; [done|split; [done|]]].
      * unfold next. rewrite Eent by lia. rewrite decide_True by done. rewrite present_lor, pte_addr by done. done.
      * intros x j Hj Hne [lx Hx']. rewrite Eent by lia. rewrite decide_False by (intros [-> ->]; done).
        unfold entry. simpl. by rewrite lookup_insert_ne by congruence.
Qed.

(** Reading is not disturbed by new tables. *)
Lemma reach_kept st st' lvl : tabs_ok st lvl ->
  (forall x j, 0 <= j < 512 -> is_Some (lvl !! x) -> is_Some (next HHDM st x j) -> next HHDM st' x j = next HHDM st x j) ->
  forall n v t t', lvl !! t = Some n -> reach HHDM st n v t = Some t' -> reach HHDM st' n v t = Some t'.
Proof.
  intros HI Hk. induction n as [|n IH]; intros v t t' Ht; simpl; [done|].
  destruct (next HHDM st t (index (Datatypes.S n) v)) as [x|] eqn:En; [|done]. simpl.
  rewrite Hk; [|apply index_range|by eexists|by rewrite En]. rewrite En. simpl. apply IH.
  by apply (t_next _ _ _ _ _ HI _ _ _ _ Ht (index_range _ _) En).
Qed.

(** The allocating walk ends at the level 0 table of the address and changes
    no translation. *)
Lemma walk_alloc tf virt : tflags_ok tf -> forall n st lvl t, tabs_ok st lvl -> lvl !! t = Some n ->
  walk HHDM tf n virt t true st = Panic \/
  exists t' st' lvl', walk HHDM tf n virt t true st = Ok (t', st') /\ tabs_ok st' lvl' /\ lvl ⊆ lvl' /\
    lvl' !! t' = Some 0%nat /\ reach HHDM st' n virt t = Some t' /\ old_refs st st' lvl lvl' /\
    (forall m v2 t2, lvl !! t2 = Some m -> xlate HHDM st' m v2 t2 = xlate HHDM st m v2 t2) /\
    (forall x j e, 0 <= j < 512 -> is_Some (lvl !! x) -> entry st x j = Some e -> present e = true ->
       entry st' x j = Some e).
Proof.
  intros Hf. induction n as [|n IH]; intros st lvl t HI Ht; cbn [walk].
  - right. exists t, st, lvl. split_and!; done.
  - destruct (next_level_alloc tf st lvl t n virt Hf HI Ht) as [E|(t1 & st1 & lvl1 & E & HI1 & Hsub1 & Ht1 & Hn1 & Hrf1 & Hx1 & He1)];
      run E; [by left|].
    rewrite (proj2 (Z.eqb_neq t1 NULL)) by (by eapply table_not_null).
    assert (Hkeep : forall x j e, 0 <= j < 512 -> is_Some (lvl !! x) -> entry st x j = Some e -> present e = true ->
       entry st1 x j = Some e).
    { intros x j e Hj Hx He Hp. destruct (decide ((x, j) = (t, index (Datatypes.S n) virt))) as [[= -> ->]|].
      - revert E. unfold next_level, get_entry. unfold entry in He. destruct (tables st !! t) eqn:Et; [|done]. simpl in He.
        simpl. rewrite He. simpl. rewrite Hp. intros [= _ <-]. unfold entry. by rewrite Et.
      - by rewrite He1. }
    destruct (IH st1 lvl1 t1 HI1 Ht1) as [E2|(t' & st' & lvl' & E2 & HI' & Hsub & Ht' & Hr & Hrf & Hx & He)]; [by left|right].
    exists t', st', lvl'. split; [done|]. split; [done|]. split; [by etrans|]. split; [done|]. split; [|split; [by eapply old_refs_trans|split]].
    + simpl. unfold next in Hn1 |- *. destruct (entry st1 t (index (Datatypes.S n) virt)) as [e|] eqn:Ee; [|done].
      destruct (present e) eqn:Ep; [|done]. injection Hn1 as <-.
      rewrite (He t _ e); [|apply index_range| |done|done].
      * rewrite Ep. done.
      * eapply lookup_weaken_is_Some; [|exact Hsub1]. eauto.
    + intros m v2 t2 Ht2. rewrite (Hx m v2 t2) by by eapply lookup_weaken. by apply Hx1.
    + intros x j e Hj Hlx Hee Hp. apply He; [done| |by apply Hkeep|done]. by eapply lookup_weaken_is_Some.
Qed.

(** Translation only depends on the entries of the tables in [lvl]. *)
Lemma xlate_same st st' lvl : tabs_ok st lvl ->
  (forall t j, is_Some (lvl !! t) -> 0 <= j < 512 -> entry st' t j = entry st t j) ->
  forall n v t, lvl !! t = Some n -> xlate HHDM st' n v t = xlate HHDM st n v t.
Proof.
  intros HI He. induction n as [|n IH]; intros v t Ht; cbn [xlate].
  - rewrite He; [done|by eexists|apply index_range].
  - unfold next. rewrite He; [|by eexists|apply index_range]. fold (next HHDM st t (index (Datatypes.S n) v)).
    destruct (next HHDM st t (index (Datatypes.S n) v)) as [x|] eqn:En; [|done]. simpl. apply IH.
    by apply (t_next _ _ _ _ _ HI _ _ _ _ Ht (index_range _ _) En).
Qed.

(** ** Writing an entry at level 0 *)

Lemma leaf_write st lvl t0 i0 v :
  tabs_ok st lvl -> lvl !! t0 = Some 0%nat -> 0 <= i0 < 512 ->
  exists st', set_entry st t0 i0 v = Ok st' /\ tabs_ok st' lvl /\ old_refs st st' lvl lvl /\
    (forall n v2 t, lvl !! t = Some n -> reach HHDM st' n v2 t = reach HHDM st n v2 t) /\
    (forall n v2 t, lvl !! t = Some n -> xlate HHDM st' n v2 t =
       if decide (reach HHDM st n v2 t = Some t0 /\ index 0 v2 = i0)
       then (if present v then Some v else None) else xlate HHDM st n v2 t).
Proof.
  intros HI Ht0 Hi0. destruct (t_tab _ _ _ _ _ HI _ _ Ht0) as (_ & _ & _ & _ & es & Hes & Hl).
  destruct (set_entry_ok st t0 i0 v es Hes Hl Hi0) as (st' & E & Epg & Etab & Eent).
  assert (Hnx : forall x l j, lvl !! x = Some (Datatypes.S l) -> 0 <= j -> next HHDM st' x j = next HHDM st x j).
  { intros x l j Hx Hj. unfold next. rewrite Eent by done. rewrite decide_False; [done|]. intros [-> _]. congruence. }
  exists st'. split; [done|]. split; [split|split; [|split]].
  - rewrite Epg. apply (t_pages _ _ _ _ _ HI).
  - intros x l Hx. destruct (t_tab _ _ _ _ _ HI _ _ Hx) as (? & ? & ? & ? & es' & Hes' & Hl'). split_and!; try done.
    rewrite Etab. destruct (decide (x = t0)) as [->|]; [rewrite lookup_insert_eq|rewrite lookup_insert_ne by done; eauto].
    eexists. split; [done|]. by rewrite length_insert.
  - intros x l j x' Hx Hj. rewrite (Hnx x l j Hx) by lia. by apply (t_next _ _ _ _ _ HI).
  - intros x l j x' l' j' y Hx Hx' Hj Hj'. rewrite (Hnx x l j Hx), (Hnx x' l' j' Hx') by lia. by apply (t_uniq _ _ _ _ _ HI).
  - intros x l j y Hx Hj. by rewrite (Hnx x l j Hx) by lia.
  - induction n as [|n IH]; intros v2 t Ht; simpl; [done|]. rewrite (Hnx t n) by (done || apply index_range).
    destruct (next HHDM st t (index (Datatypes.S n) v2)) as [x|] eqn:En; [|done]. simpl. apply IH.
    by apply (t_next _ _ _ _ _ HI _ _ _ _ Ht (index_range _ _) En).
  - induction n as [|n IH]; intros v2 t Ht; cbn [xlate reach].
    + rewrite Eent by apply index_range. destruct (decide (t = t0 /\ index 0 v2 = i0)) as [[-> Ei]|Hne].
      * by rewrite decide_True.
      * rewrite decide_False; [done|]. intros [[= ->] Ei]. by apply Hne.
    + rewrite (Hnx t n) by (done || apply index_range).
      destruct (next HHDM st t (index (Datatypes.S n) v2)) as [x|] eqn:En; cbn [mbind option_bind];
        [|by destruct (decide (None = Some t0 /\ index 0 v2 = i0)) as [[? _]|]].
      apply IH. by apply (t_next _ _ _ _ _ HI _ _ _ _ Ht (index_range _ _) En).
Qed.

(** Two addresses that share their level 0 table have the same indices above;
    from different roots this happens only through a shared root entry. *)
Lemma reach_inj st lvl : tabs_ok st lvl -> forall n v v' t t' x,
  lvl !! t = Some n -> lvl !! t' = Some n -> reach HHDM st n v t = Some x -> reach HHDM st n v' t' = Some x ->
  (t = t' /\ forall k, (1 <= k <= n)%nat -> index k v = index k v') \/
  (n = 3%nat /\ (forall k, (1 <= k <= n)%nat -> index k v = index k v') /\ shared (index 3 v) = true).
Proof.
  intros HI. induction n as [|n IH]; intros v v' t t' x Ht Ht'; simpl.
  - intros [= ->] [= ->]. left. split; [done|]. lia.
  - destruct (next HHDM st t (index (Datatypes.S n) v)) as [y|] eqn:Ey; [|done].
    destruct (next HHDM st t' (index (Datatypes.S n) v')) as [y'|] eqn:Ey'; [|done]. simpl. intros Hr Hr'.
    pose proof (t_next _ _ _ _ _ HI _ _ _ _ Ht (index_range _ _) Ey) as Hy.
    pose proof (t_next _ _ _ _ _ HI _ _ _ _ Ht' (index_range _ _) Ey') as Hy'.
    destruct (t_tab _ _ _ _ _ HI _ _ Ht) as (Hle & _).
    destruct (IH v v' y y' x Hy Hy' Hr Hr') as [[<- Hk]|(-> & _)]; [|lia].
    assert (Hall : index (Datatypes.S n) v = index (Datatypes.S n) v' ->
      forall k, (1 <= k <= Datatypes.S n)%nat -> index k v = index k v').
    { intros E k Hkn. destruct (decide (k = Datatypes.S n)) as [->|]; [done|]. apply Hk. lia. }
    destruct (t_uniq _ _ _ _ _ HI _ _ _ _ _ _ _ Ht Ht' (index_range _ _) (index_range _ _) Ey Ey') as [[<- E]|(-> & _ & E & Hs)].
    + left. auto.
    + right. auto.
Qed.

(** ** Mapping and unmapping a page *)

(** The 4 KiB page of a virtual address, as the four indices. *)
Definition page_of (v : Z) : Z * Z * Z * Z := (index 0 v, index 1 v, index 2 v, index 3 v).

Lemma xlate_reach st v : forall n t, xlate HHDM st n v t =
  match reach HHDM st n v t with
  | Some t0 => match entry st t0 (index 0 v) with Some e => if present e then Some e else None | None => None end
  | None => None
  end.
Proof.
  induction n as [|n IH]; intros t; cbn [xlate reach]; [done|].
  destruct (next HHDM st t (index (Datatypes.S n) v)); [apply IH|done].
Qed.

Lemma page_of_reach st v v' : page_of v = page_of v' -> forall n t, (n <= 3)%nat ->
  reach HHDM st n v t = reach HHDM st n v' t.
Proof.
  intros [= E0 E1 E2 E3]. induction n as [|n IH]; intros t Hn; cbn [reach]; [done|].
  assert (index (Datatypes.S n) v = index (Datatypes.S n) v') as ->.
  { destruct n as [|[|[|n]]]; [done|done|done|lia]. }
  destruct (next HHDM st t _); [|done]. simpl. apply IH. lia.
Qed.

(** Two addresses that reach the same entry lie on the same page. *)
Lemma same_entry_page st lvl v v' r r' t0 :
  tabs_ok st lvl -> lvl !! r = Some 3%nat -> lvl !! r' = Some 3%nat ->
  reach HHDM st 3 v r = Some t0 -> reach HHDM st 3 v' r' = Some t0 -> index 0 v = index 0 v' ->
  page_of v = page_of v' /\ (r = r' \/ shared (index 3 v) = true).
Proof.
  intros HI Hr Hr' H1 H2 H0.
  destruct (reach_inj st lvl HI 3 v v' r r' t0 Hr Hr' H1 H2) as [[-> Hk]|(_ & Hk & Hs)].
  - split; [|by left]. unfold page_of. by rewrite H0, (Hk 1%nat), (Hk 2%nat), (Hk 3%nat) by lia.
  - split; [|by right]. unfold page_of. by rewrite H0, (Hk 1%nat), (Hk 2%nat), (Hk 3%nat) by lia.
Qed.

(** The entry of a page of [root] changed to [new]; the other pages of [root],
    and the pages of other roots not under a shared entry, did not. *)
Definition only_page st st' (lvl : gmap Z nat) (root virt : Z) (new : option Z) : Prop :=
  (forall v, page_of v = page_of virt -> xlate HHDM st' 3 v root = new) /\
  (forall r v, lvl !! r = Some 3%nat -> (r = root -> page_of v <> page_of virt) ->
     (r <> root -> shared (index 3 v) = false) -> xlate HHDM st' 3 v r = xlate HHDM st 3 v r).

Lemma leaf_only_page st lvl root virt t0 v0 :
  tabs_ok st lvl -> lvl !! root = Some 3%nat -> lvl !! t0 = Some 0%nat -> reach HHDM st 3 virt root = Some t0 ->
  exists st', set_entry st t0 (index 0 virt) v0 = Ok st' /\ tabs_ok st' lvl /\ old_refs st st' lvl lvl /\
    only_page st st' lvl root virt (if present v0 then Some v0 else None).
Proof.
  intros HI Hr Ht0 Hreach. destruct (leaf_write st lvl t0 (index 0 virt) v0 HI Ht0 (index_range 0 virt)) as (st' & E & HI' & Hrf & _ & Hx).
  exists st'. split; [done|]. split; [done|]. split; [done|]. split.
  - intros v Hpg. rewrite Hx by done. rewrite decide_True; [done|]. rewrite (page_of_reach st v virt Hpg) by lia.
    split; [done|]. by injection Hpg.
  - intros r v Hlr Hsame Hother. rewrite Hx by done. rewrite decide_False; [done|]. intros [H1 H2].
    destruct (same_entry_page st lvl v virt r root t0 HI) as [Hpg [->|Hs]]; try done; [by apply Hsame|].
    destruct (decide (r = root)) as [->|Hne]; [by apply Hsame|]. rewrite Hother in Hs by done. done.
Qed.

Lemma map_entry_ok tf virt root leaf : tflags_ok tf -> forall st lvl, tabs_ok st lvl -> lvl !! root = Some 3%nat ->
  ('(table, st) ← walk HHDM tf 3 virt root true st; set_entry st table (index 0 virt) leaf) = Panic \/
  exists st' lvl', ('(table, st) ← walk HHDM tf 3 virt root true st; set_entry st table (index 0 virt) leaf) = Ok st' /\
    tabs_ok st' lvl' /\ lvl ⊆ lvl' /\ old_refs st st' lvl lvl' /\
    only_page st st' lvl root virt (if present leaf then Some leaf else None).
Proof.
  intros Hf st lvl HI Hr.
  destruct (walk_alloc tf virt Hf 3 st lvl root HI Hr) as [E|(t0 & st1 & lvl1 & E & HI1 & Hsub & Ht0 & Hreach & Hrf & Hx & _)];
    run E; [by left|right].
  assert (Hup : forall r, lvl !! r = Some 3%nat -> lvl1 !! r = Some 3%nat) by (intros r Hlr; by eapply lookup_weaken).
  destruct (leaf_only_page st1 lvl1 root virt t0 leaf HI1 (Hup _ Hr) Ht0 Hreach) as (st' & E' & HI' & Hrf' & Hin & Hout).
  exists st', lvl1. split; [done|]. split; [done|]. split; [done|]. split; [by eapply old_refs_trans|]. split; [done|].
  intros r v Hlr H1 H2. rewrite Hout by auto. by apply Hx.
Qed.

Lemma unmap_entry_ok tf virt root st lvl : tabs_ok st lvl -> lvl !! root = Some 3%nat ->
  exists st', ('(table, st) ← walk HHDM tf 3 virt root false st;
               if table =? NULL then Ok st else set_entry st table (index 0 virt) 0) = Ok st' /\
    tabs_ok st' lvl /\ old_refs st st' lvl lvl /\ only_page st st' lvl root virt None.
Proof.
  intros HI Hr. destruct (walk_read tf st lvl virt HI 3 root Hr) as [E Hlv]. run E.
  destruct (reach HHDM st 3 virt root) as [t0|] eqn:Er.
  - specialize (Hlv t0 eq_refl). rewrite (proj2 (Z.eqb_neq t0 NULL)) by (by eapply table_not_null).
    by apply (leaf_only_page st lvl root virt t0 0 HI Hr Hlv Er).
  - exists st. split; [done|]. split; [done|]. split; [apply old_refs_refl|]. split; [|done]. intros v Hpg.
    by rewrite xlate_reach, (page_of_reach st v virt Hpg), Er by lia.
Qed.
End proofs.
