(* ===== verification/Ptm.v ===== *)
(** * Page tables of x86_64 (kernel/src/arch/x86_64/ptm.c)

    An address space is the address of its root table.  The upper half of every
    root holds the same 256 entries, [higher_half_entries], so that kernel
    mappings are visible everywhere. *)
From stdpp Require Import base gmap list fin_maps.
From Stdlib Require Import ZArith Lia.
From S2P Require Import Prelude Interfaces Pmm Kmem PageTables.

Definition WRITE : Z := 2.
Definition USER : Z := 4.
Definition HUGE : Z := 128.
Definition GLOBAL : Z := 256.

(** [PRESENT | WRITE | USER], the flags of tables and pages. *)
Definition TFLAGS : Z := Z.lor PRESENT (Z.lor WRITE USER).

Section ptm.
Context {S : Type} `{PageAllocator S} (HHDM : Z).
Implicit Types st : tstate S.

Definition get_next_level st (top_level idx : Z) (alloc : bool) : outcome (Z * tstate S) :=
  next_level HHDM TFLAGS st top_level idx alloc.

(** [a % b], undefined for 0. *)
Definition umod (a b : Z) : outcome Z := if b =? 0 then Fault else Ok (a mod b).

Definition arch_ptm_map (pml4 virt phys size : Z) st : outcome (tstate S) :=
  r ← umod virt size; ASSERT (r =? 0);;
  r ← umod phys size; ASSERT (r =? 0);;
  '(table, st) ← walk HHDM TFLAGS 3 virt pml4 true st;
  set_entry st table (index 0 virt) (Z.lor phys TFLAGS).

Definition arch_ptm_unmap (pml4 virt phys size : Z) st : outcome (tstate S) :=
  r ← umod virt size; ASSERT (r =? 0);;
  r ← umod phys size; ASSERT (r =? 0);;
  '(table, st) ← walk HHDM TFLAGS 3 virt pml4 false st;
  if table =? NULL then Ok st else set_entry st table (index 0 virt) 0.

Definition arch_ptm_virt_to_phys (pml4 virt : Z) st : outcome Z :=
  '(table, st) ← walk HHDM TFLAGS 3 virt pml4 false st;
  if table =? NULL then Ok BAD_ADDRESS else
  pte ← get_entry st table (index 0 virt);
  if negb (present pte) then Ok BAD_ADDRESS
  else Ok (u64 (PTE_GET_ADDR pte + Z.land virt 0xFFF)).

(** The value loaded into cr3. *)
Definition arch_ptm_load_map (pml4 : Z) : Z := u64 (pml4 - HHDM).

(** The loop of [arch_ptm_new_map] over the higher half. *)
Fixpoint copy_higher (n : nat) (i pml4 : Z) (hh : list Z) st : outcome (tstate S) :=
  match n with
  | O => Ok st
  | Datatypes.S n =>
      e ← deref (hh !! Z.to_nat i);
      st ← set_entry st pml4 (i + 256) e;
      copy_higher n (i + 1) pml4 hh st
  end.

Definition arch_ptm_new_map (hh : list Z) st : outcome (Z * tstate S) :=
  '(a, pg) ← page_alloc (tpages st);
  let pml4 := u64 (a + HHDM) in
  let st := zero_table (TState pg (tables st)) pml4 in
  st ← copy_higher 256 0 pml4 hh st;
  Ok (pml4, st).

(** The loop of [delete_level] over the entries of a table. *)
Definition delete_entries (rec : Z -> tstate S -> outcome (tstate S)) (lvl : Z) :=
  fix go (n : nat) (i : Z) st : outcome (tstate S) :=
    match n with
    | O => Ok st
    | Datatypes.S n =>
        e ← get_entry st lvl i;
        st ← (if negb (present e) || negb (Z.land e HUGE =? 0) then Ok st
              else rec (u64 (PTE_GET_ADDR e + HHDM)) st);
        go n (i + 1) st
    end.

(** The freed table is no longer accessible as one. *)
Fixpoint delete_level (depth : nat) (lvl : Z) st : outcome (tstate S) :=
  match depth with
  | O => NoFuel
  | Datatypes.S d =>
      st ← (if bool_decide (d = O) then Ok st else delete_entries (delete_level d) lvl 512 0 st);
      pg ← page_release (u64 (lvl - HHDM)) (tpages st);
      Ok (TState pg (delete lvl (tables st)))
  end.

Definition arch_ptm_clear_map (pml4 : Z) st : outcome (tstate S) := delete_level 4 pml4 st.

(** The loop of [arch_ptm_init]: returns [higher_half_entries]. *)
Fixpoint init_higher (n : nat) st : outcome (list Z * tstate S) :=
  match n with
  | O => Ok ([], st)
  | Datatypes.S n =>
      '(phys, pg) ← page_alloc (tpages st);
      if phys =? NULL then Panic else
      let st := zero_table (TState pg (tables st)) (u64 (phys + HHDM)) in
      '(es, st) ← init_higher n st;
      Ok (Z.lor phys (Z.lor PRESENT (Z.lor WRITE GLOBAL)) :: es, st)
  end.

Definition arch_ptm_init st : outcome (list Z * tstate S) := init_higher 256 st.
End ptm.

(** ** Theorems *)

Definition higher_half (i : Z) : bool := 256 <=? i.

Lemma tflags : tflags_ok TFLAGS.
Proof. done. Qed.

Section proofs.
Context {S : Type} `{PageAllocator S} (HHDM : Z) (HH : hhdm_ok HHDM) (D : gset Z).
Implicit Types st : tstate S.

(** Translation in terms of the meaning of the tables. *)
Definition translation st (root v : Z) : Z :=
  match xlate HHDM st 3 v root with
  | Some e => u64 (PTE_GET_ADDR e + Z.land v 0xFFF)
  | None => BAD_ADDRESS
  end.

Lemma virt_to_phys_ok st lvl root v :
  tabs_ok HHDM higher_half D st lvl -> lvl !! root = Some 3%nat ->
  arch_ptm_virt_to_phys HHDM root v st = Ok (translation st root v).
Proof.
  intros HI Hr. unfold arch_ptm_virt_to_phys, translation.
  destruct (walk_read HHDM HH higher_half D TFLAGS st lvl v HI 3 root Hr) as [E Hlv]. run E. rewrite xlate_reach.
  destruct (reach HHDM st 3 v root) as [t0|] eqn:Er; [|done]. specialize (Hlv t0 eq_refl).
  rewrite (proj2 (Z.eqb_neq t0 NULL)) by (by eapply (table_not_null HHDM HH)).
  destruct (get_entry_ok HHDM higher_half D _ _ _ _ _ HI Hlv (index_range 0 v)) as (e & He & G). run G. rewrite He.
  by destruct (present e).
Qed.

(** [phys + offset] of a mapped page does not wrap. *)
Lemma leaf_addr phys v : 0 <= phys -> phys + ARCH_PAGE_GRAN <= 2 ^ 52 -> (ARCH_PAGE_GRAN | phys) ->
  u64 (PTE_GET_ADDR (Z.lor phys TFLAGS) + Z.land v 0xFFF) = phys + v mod 0x1000.
Proof.
  intros H0 H1 Hd. rewrite pte_addr by done. change 0xFFF with (Z.ones 12). rewrite Z.land_ones by lia.
  change (2 ^ 12) with 0x1000. pose proof (Z.mod_pos_bound v 0x1000 ltac:(lia)). unfold ARCH_PAGE_GRAN in *.
  apply u64_small. lia.
Qed.

End proofs.

(** [arch_ptm_map], with what it leaves of the references between tables. *)
Lemma ptm_map_ok {S : Type} `{PageAllocator S} (HHDM : Z) (D : gset Z) (st : tstate S) lvl root virt phys size :
  hhdm_ok HHDM -> tabs_ok HHDM higher_half D st lvl -> lvl !! root = Some 3%nat ->
  0 < size -> (size | virt) -> (size | phys) -> (ARCH_PAGE_GRAN | phys) -> 0 <= phys -> phys + ARCH_PAGE_GRAN <= 2 ^ 52 ->
  arch_ptm_map HHDM root virt phys size st = Panic \/
  exists st' lvl', arch_ptm_map HHDM root virt phys size st = Ok st' /\ tabs_ok HHDM higher_half D st' lvl' /\ lvl ⊆ lvl' /\ old_refs HHDM st st' lvl lvl' /\
    (forall v, page_of v = page_of virt -> arch_ptm_virt_to_phys HHDM root v st' = Ok (phys + v mod 0x1000)) /\
    (forall v, page_of v <> page_of virt ->
       arch_ptm_virt_to_phys HHDM root v st' = arch_ptm_virt_to_phys HHDM root v st) /\
    (forall root' v, lvl !! root' = Some 3%nat -> root' <> root -> index 3 v < 256 ->
       arch_ptm_virt_to_phys HHDM root' v st' = arch_ptm_virt_to_phys HHDM root' v st).
Proof.
  intros HH HI Hr Hsz Hv Hp Hpa Hp0 Hp1. unfold arch_ptm_map, umod. rewrite (proj2 (Z.eqb_neq size 0)) by lia. go.
  apply Z.mod_divide in Hv, Hp; [|lia..]. rewrite Hv, Hp. go.
  destruct (map_entry_ok HHDM HH higher_half D TFLAGS virt root (Z.lor phys TFLAGS) tflags st lvl HI Hr)
    as [E|(st' & lvl' & E & HI' & Hsub & Hrf & Hin & Hout)]; rewrite E; [by left|right].
  assert (Hup : forall r, lvl !! r = Some 3%nat -> lvl' !! r = Some 3%nat) by (intros r Hlr; by eapply lookup_weaken).
  exists st', lvl'. split; [done|]. split; [done|]. split; [done|]. split; [done|]. split; [|split].
  - intros v Hpg. rewrite (virt_to_phys_ok HHDM HH D st' lvl' root v HI') by auto. unfold translation.
    rewrite Hin by done. by rewrite present_lor, leaf_addr.
  - intros v Hpg. rewrite (virt_to_phys_ok HHDM HH D st' lvl' root v HI'), (virt_to_phys_ok HHDM HH D st lvl root v HI) by auto.
    unfold translation. by rewrite Hout.
  - intros root' v Hr' Hne Hlow.
    rewrite (virt_to_phys_ok HHDM HH D st' lvl' root' v HI'), (virt_to_phys_ok HHDM HH D st lvl root' v HI) by auto.
    unfold translation. rewrite Hout; [done|done|done|]. intros _. unfold higher_half. by apply Z.leb_gt.
Qed.


(** [arch_ptm_unmap] always returns, makes the page translate to
    [BAD_ADDRESS], changes no other page of the address space and no lower-half
    page of another one, and keeps the tables well formed. *)
Theorem ptm_unmap_correct {S : Type} `{PageAllocator S} (HHDM : Z) (D : gset Z) (st : tstate S) lvl root virt phys size :
  hhdm_ok HHDM -> tabs_ok HHDM higher_half D st lvl -> lvl !! root = Some 3%nat ->
  0 < size -> (size | virt) -> (size | phys) ->
  exists st', arch_ptm_unmap HHDM root virt phys size st = Ok st' /\ tabs_ok HHDM higher_half D st' lvl /\
    (forall v, page_of v = page_of virt -> arch_ptm_virt_to_phys HHDM root v st' = Ok BAD_ADDRESS) /\
    (forall v, page_of v <> page_of virt ->
       arch_ptm_virt_to_phys HHDM root v st' = arch_ptm_virt_to_phys HHDM root v st) /\
    (forall root' v, lvl !! root' = Some 3%nat -> root' <> root -> index 3 v < 256 ->
       arch_ptm_virt_to_phys HHDM root' v st' = arch_ptm_virt_to_phys HHDM root' v st).
Proof.
  intros HH HI Hr Hsz Hv Hp. unfold arch_ptm_unmap, umod. rewrite (proj2 (Z.eqb_neq size 0)) by lia. go.
  apply Z.mod_divide in Hv, Hp; [|lia..]. rewrite Hv, Hp. go.
  destruct (unmap_entry_ok HHDM HH higher_half D TFLAGS virt root st lvl HI Hr) as (st' & E & HI' & _ & Hin & Hout).
  exists st'. split; [done|]. split; [done|]. split; [|split].
  - intros v Hpg. rewrite (virt_to_phys_ok HHDM HH D st' lvl root v HI') by auto. unfold translation. by rewrite Hin.
  - intros v Hpg. rewrite (virt_to_phys_ok HHDM HH D st' lvl root v HI'), (virt_to_phys_ok HHDM HH D st lvl root v HI) by auto.
    unfold translation. by rewrite Hout.
  - intros root' v Hr' Hne Hlow.
    rewrite (virt_to_phys_ok HHDM HH D st' lvl root' v HI'), (virt_to_phys_ok HHDM HH D st lvl root' v HI) by auto.
    unfold translation. rewrite Hout; [done|done|done|]. intros _. unfold higher_half. by apply Z.leb_gt.
Qed.

(** ** The shared upper half *)

(** Two address spaces with the same root entry translate the addresses under
    it alike: kernel mappings made in one are seen in the other. *)
Lemma kernel_half_shared {S : Type} `{PageAllocator S} (HHDM : Z) (st : tstate S) r r' v :
  entry st r (index 3 v) = entry st r' (index 3 v) -> translation HHDM st r v = translation HHDM st r' v.
Proof. intros E. unfold translation. cbn [xlate]. unfold next. by rewrite E. Qed.

Definition ex_root : Z := ex_HH + 0x1000.
Definition ex_tabs : tstate bump := TState (Bump 2 []) {[ex_root := zero_page]}.

Lemma ex_no_next t i : 0 <= i < 512 -> next ex_HH ex_tabs t i = None.
Proof.
  intros Hi. unfold next, entry. simpl. destruct (decide (t = ex_root)) as [->|].
  - rewrite lookup_singleton_eq. simpl. by rewrite zero_page_lookup by lia.
  - by rewrite lookup_singleton_ne by done.
Qed.

Lemma ex_tabs_ok : tabs_ok ex_HH higher_half ∅ ex_tabs {[ex_root := 3%nat]}.
Proof.
  split.
  - exists {[0x1000]}. split.
    + split; simpl; [lia|]. intros a Ha%elem_of_singleton. subst. unfold ARCH_PAGE_GRAN. lia.
    + split; [set_solver|]. intros t [l [<- _]%lookup_singleton_Some]. unfold ex_root.
      replace (ex_HH + 0x1000 - ex_HH) with 0x1000 by lia. set_solver.
  - intros t l [<- <-]%lookup_singleton_Some. unfold ex_root, ARCH_PAGE_GRAN, ex_HH. split; [lia|]. split; [lia|].
    split; [lia|]. split; [by exists (2 ^ 51 + 1)|]. exists zero_page. split; [apply lookup_singleton_eq|apply zero_page_len].
  - intros t l i t' _ Hi. by rewrite ex_no_next.
  - intros t l i t' l' i' x _ _ Hi _. by rewrite ex_no_next.
Qed.


Lemma ptm_unmap_correct_witness :
  exists st', arch_ptm_unmap ex_HH ex_root 0x400000 0x7000 0x1000 ex_tabs = Ok st' /\
    arch_ptm_virt_to_phys ex_HH ex_root 0x400123 st' = Ok BAD_ADDRESS.
Proof.
  destruct (ptm_unmap_correct ex_HH ∅ ex_tabs {[ex_root := 3%nat]} ex_root 0x400000 0x7000 0x1000 ex_hhdm ex_tabs_ok)
    as (st' & E & _ & Hm & _).
  - apply lookup_singleton_eq.
  - lia.
  - by exists 0x400.
  - by exists 7.
  - exists st'. split; [exact E|]. exact (Hm 0x400123 eq_refl).
Defined.

(** [arch_ptm_clear_map] descends into the upper half as well: with one shared
    upper-half table and two address spaces, clearing the first gives back the
    page of the table the second one still refers to. *)
Lemma clear_map_frees_shared :
  match ('(es, st) ← init_higher ex_HH 1 (TState (Bump 1 []) ∅);
         let hh := es ++ replicate 255 0 in
         '(a, st) ← arch_ptm_new_map ex_HH hh st;
         '(b, st) ← arch_ptm_new_map ex_HH hh st;
         st ← arch_ptm_clear_map ex_HH a st;
         e ← get_entry st b 256;
         Ok (bool_decide (PTE_GET_ADDR e ∈ released (tpages st)), present e)) with
  | Ok (freed, still_used) => freed && still_used
  | _ => false
  end = true.
Proof. vm_compute. reflexivity. Qed.

(** ** The interface of address translation *)

Lemma index_div k v : index k v = v / ARCH_PAGE_GRAN / 2 ^ (9 * Z.of_nat k) mod 512.
Proof.
  unfold index. rewrite Z.shiftr_div_pow2 by lia. change 0x1FF with (Z.ones 9). rewrite Z.land_ones by lia.
  change (2 ^ 9) with 512. f_equal. unfold ARCH_PAGE_GRAN. change 0x1000 with (2 ^ 12).
  rewrite Z.pow_add_r by lia. rewrite Z.div_div by (try apply Z.pow_pos_nonneg; lia). done.
Qed.

(** The four indices of canonical addresses tell their pages apart. *)
Lemma canonical_page v w : canonical v -> canonical w -> page_of v = page_of w <-> same_page v w.
Proof.
  unfold canonical, page_of, same_page. intros Hv Hw. rewrite !index_div.
  assert (Hq : forall v, 0 <= v < 2 ^ 47 \/ 2 ^ 64 - 2 ^ 47 <= v < 2 ^ 64 ->
    0 <= v / ARCH_PAGE_GRAN < 2 ^ 35 \/ 2 ^ 52 - 2 ^ 35 <= v / ARCH_PAGE_GRAN < 2 ^ 52).
  { intros x Hx. unfold ARCH_PAGE_GRAN. dlia. }
  apply Hq in Hv, Hw. generalize dependent (v / ARCH_PAGE_GRAN). generalize dependent (w / ARCH_PAGE_GRAN).
  intros a Ha b Hb. split; [|by intros ->].
  intros [= E0 E1 E2 E3]. change (2 ^ (9 * Z.of_nat 0)) with 1 in *. change (2 ^ (9 * Z.of_nat 1)) with 512 in *.
  change (2 ^ (9 * Z.of_nat 2)) with 262144 in *. change (2 ^ (9 * Z.of_nat 3)) with 134217728 in *.
  rewrite !Z.div_1_r in E0.
  assert (Hx : forall x, x = 68719476736 * (x / 68719476736) + 134217728 * (x / 134217728 mod 512)
    + 262144 * (x / 262144 mod 512) + 512 * (x / 512 mod 512) + x mod 512) by (intros; dlia).
  pose proof (Hx a) as Xa. pose proof (Hx b) as Xb. rewrite E0, E1, E2, E3 in Xb. clear E0 E1 E2 E3 Hx. dlia.
Qed.

Lemma user_index v : user_half v -> index 3 v < 256.
Proof.
  unfold user_half. intros Hv. rewrite index_div. change (2 ^ (9 * Z.of_nat 3)) with 134217728. unfold ARCH_PAGE_GRAN. dlia.
Qed.

Lemma user_canonical v : user_half v -> canonical v.
Proof. by left. Qed.

Section page_map.
Context {S : Type} `{PageAllocator S} (HHDM : Z) (HH : hhdm_ok HHDM) (hh : list Z).
Implicit Types st : tstate S.

(** The entries [higher_half_entries] name tables of their own, which only root
    entries at their index refer to. *)
Definition hh_table (e : Z) : Z := PTE_GET_ADDR e + HHDM.

Definition hh_ok st (lvl : gmap Z nat) : Prop :=
  length hh = 256%nat /\
  forall j e, hh !! j = Some e -> present e = true ->
    lvl !! hh_table e = Some 2%nat /\
    (forall t l i, lvl !! t = Some (Datatypes.S l) -> 0 <= i < 512 -> next HHDM st t i = Some (hh_table e) ->
       l = 2%nat /\ i = 256 + Z.of_nat j) /\
    (forall j' e', hh !! j' = Some e' -> present e' = true -> hh_table e' = hh_table e -> j' = j).

Definition x86_state st (R D : gset Z) : Prop :=
  exists lvl, tabs_ok HHDM higher_half D st lvl /\ (forall r, r ∈ R -> lvl !! r = Some 3%nat) /\ hh_ok st lvl.

Lemma hh_ok_refs st st' lvl lvl' :
  lvl ⊆ lvl' -> old_refs HHDM st st' lvl lvl' -> hh_ok st lvl -> hh_ok st' lvl'.
Proof.
  intros Hsub Hrf [Hlen Hh]. split; [done|]. intros j e Hj Hp. destruct (Hh j e Hj Hp) as (H1 & H2 & H3).
  split; [by eapply lookup_weaken|]. split; [|done]. intros t l i Ht Hi Hn.
  destruct (Hrf t l i _ Ht Hi Hn) as [Ht0 Hn0]; [by eexists|]. by eapply H2.
Qed.

(** The loop of [arch_ptm_new_map]. *)
Lemma copy_higher_ok pml4 : length hh = 256%nat -> forall n i st es,
  0 <= i -> i + Z.of_nat n = 256 -> tables st !! pml4 = Some es -> length es = 512%nat ->
  exists st' es', copy_higher n i pml4 hh st = Ok st' /\ tpages st' = tpages st /\
    tables st' = <[pml4 := es']> (tables st) /\ length es' = 512%nat /\
    forall j, 0 <= j -> es' !! Z.to_nat j = if decide (256 + i <= j < 512) then hh !! Z.to_nat (j - 256) else es !! Z.to_nat j.
Proof.
  intros Hlen. induction n as [|n IH]; intros i st es Hi Hin Hes Hl; cbn [copy_higher].
  - exists st, es. split; [done|]. split; [done|]. split; [by rewrite insert_id|]. split; [done|].
    intros j Hj. by rewrite decide_False by lia.
  - destruct (lookup_lt_is_Some_2 hh (Z.to_nat i)) as [e He]; [lia|]. run He.
    destruct (set_entry_ok HHDM higher_half st pml4 (i + 256) e es Hes Hl ltac:(lia)) as (st1 & E & Epg & Etab & _). run E.
    destruct (IH (i + 1) st1 (<[Z.to_nat (i + 256) := e]> es)) as (st' & es' & E' & Epg' & Etab' & Hl' & Hent).
    + lia.
    + lia.
    + rewrite Etab. apply lookup_insert_eq.
    + by rewrite length_insert.
    + exists st', es'. split; [done|]. split; [congruence|]. split; [by rewrite Etab', Etab, insert_insert_eq|].
      split; [done|]. intros j Hj. rewrite Hent by done. destruct (decide (j = i + 256)) as [->|].
      * rewrite decide_False, decide_True by lia. rewrite list_lookup_insert_eq by lia.
        rewrite <- He. f_equal. lia.
      * destruct (decide (256 + (i + 1) <= j < 512)); [by rewrite decide_True by lia|].
        rewrite decide_False by lia. rewrite list_lookup_insert_ne by lia. done.
Qed.

(** A new root beside the others: its lower half is empty and its upper half
    is the shared one. *)
Lemma add_root st st' lvl D a pg G es :
  tabs_ok HHDM higher_half D st lvl -> hh_ok st lvl -> pa_state pg G -> D ⊆ G -> a ∈ G -> a ∉ D ->
  (forall x, is_Some (lvl !! x) -> x - HHDM ∈ G /\ x - HHDM ∉ D) -> lvl !! (a + HHDM) = None -> phys_page a ->
  tpages st' = pg -> tables st' = <[a + HHDM := es]> (tables st) -> length es = 512%nat ->
  (forall j, 0 <= j < 512 -> es !! Z.to_nat j = if decide (256 <= j) then hh !! Z.to_nat (j - 256) else Some 0) ->
  tabs_ok HHDM higher_half D st' (<[a + HHDM := 3%nat]> lvl) /\ hh_ok st' (<[a + HHDM := 3%nat]> lvl) /\
  (forall t j, is_Some (lvl !! t) -> entry st' t j = entry st t j).
Proof.
  intros HI [Hlen Hh] HG HDG Ha HaD HGl Hnew (Ha0 & Ha1 & Had) Hpg Htab Hl Hes. set (N := a + HHDM) in *.
  assert (Hent : forall t j, is_Some (lvl !! t) -> entry st' t j = entry st t j).
  { intros t j [l Ht]. unfold entry. rewrite Htab, lookup_insert_ne; congruence. }
  assert (HnN : forall j x, 0 <= j < 512 -> next HHDM st' N j = Some x ->
    256 <= j /\ exists e, hh !! Z.to_nat (j - 256) = Some e /\ present e = true /\ x = hh_table e).
  { intros j x Hj. unfold next, entry. rewrite Htab, lookup_insert_eq. cbn [mbind option_bind]. rewrite Hes by done.
    destruct (decide (256 <= j)); [|by rewrite present_zero].
    destruct (hh !! Z.to_nat (j - 256)) as [e|]; [|done]. destruct (present e) eqn:Ep; [|done].
    intros [= <-]. split; [done|]. by exists e. }
  assert (Hcase : forall t l j x, <[N := 3%nat]> lvl !! t = Some (Datatypes.S l) -> 0 <= j < 512 -> next HHDM st' t j = Some x ->
    (t = N /\ l = 2%nat /\ 256 <= j /\ exists e, hh !! Z.to_nat (j - 256) = Some e /\ present e = true /\ x = hh_table e) \/
    (lvl !! t = Some (Datatypes.S l) /\ next HHDM st t j = Some x)).
  { intros t l j x [[<- [= <-]]|[Hne Ht]]%lookup_insert_Some Hj Hn; [left; split; [done|]; split; [done|by apply HnN]|right].
    split; [done|]. unfold next in *. by rewrite Hent in Hn by eauto. }
  assert (HlN : forall x l, lvl !! x = Some l -> <[N := 3%nat]> lvl !! x = Some l).
  { intros x l Hx. rewrite lookup_insert_ne; [done|congruence]. }
  split; [split|split; [split; [done|]|done]].
  - exists G. split; [by rewrite Hpg|]. split; [done|]. intros x [<-|Hx]%lookup_insert_is_Some'; [|by apply HGl].
    unfold N. by replace (a + HHDM - HHDM) with a by lia.
  - intros x lx [[<- <-]|[_ Hx]]%lookup_insert_Some.
    + unfold N. destruct HH as (? & ? & ?). split; [lia|]. split; [lia|]. split; [lia|].
      split; [by apply Z.divide_add_r|]. exists es. by rewrite Htab, lookup_insert_eq.
    + destruct (t_tab _ _ _ _ _ HI _ _ Hx) as (? & ? & ? & ? & es0 & Hes0 & ?). split_and!; try done. exists es0.
      rewrite Htab, lookup_insert_ne; [done|congruence].
  - intros x l i x' Hx Hi Hn. destruct (Hcase _ _ _ _ Hx Hi Hn) as [(-> & -> & _ & e & He & Hp & ->)|[Hx0 Hn0]]; apply HlN.
    + by destruct (Hh _ _ He Hp).
    + by apply (t_next _ _ _ _ _ HI _ _ _ _ Hx0 Hi Hn0).
  - intros x l i x' l' i' y Hx Hx' Hi Hi' Hn Hn'.
    destruct (Hcase _ _ _ _ Hx Hi Hn) as [(-> & -> & Hi2 & e & He & Hp & ->)|[Hx0 Hn0]],
      (Hcase _ _ _ _ Hx' Hi' Hn') as [(-> & -> & Hi2' & e' & He' & Hp' & Ee)|[Hx0' Hn0']].
    + left. split; [done|]. destruct (Hh _ _ He Hp) as (_ & _ & Hj). specialize (Hj _ _ He' Hp' (eq_sym Ee)). lia.
    + right. destruct (Hh _ _ He Hp) as (_ & Hr & _). destruct (Hr _ _ _ Hx0' Hi' Hn0') as [-> ->].
      split_and!; [done|done|lia|]. apply Z.leb_le. lia.
    + right. subst y. destruct (Hh _ _ He' Hp') as (_ & Hr & _). destruct (Hr _ _ _ Hx0 Hi Hn0) as [-> ->].
      split_and!; [done|done|lia|]. apply Z.leb_le. lia.
    + by apply (t_uniq _ _ _ _ _ HI x l i x' l' i' y).
  - intros j e Hj Hp. destruct (Hh _ _ Hj Hp) as (H1 & H2 & H3). split; [by apply HlN|]. split; [|done].
    intros t l i Ht Hi Hn. destruct (Hcase _ _ _ _ Ht Hi Hn) as [(-> & -> & Hi2 & e' & He' & Hp' & Ee)|[Ht0 Hn0]].
    + split; [done|]. specialize (H3 _ _ He' Hp' (eq_sym Ee)). lia.
    + by eapply H2.
Qed.

Lemma new_map_ok st R D : x86_state st R D ->
  arch_ptm_new_map HHDM hh st = Panic \/
  exists r st', arch_ptm_new_map HHDM hh st = Ok (r, st') /\ x86_state st' ({[r]} ∪ R) D /\ r ∉ R /\
    (forall r' v, r' ∈ R -> arch_ptm_virt_to_phys HHDM r' v st' = arch_ptm_virt_to_phys HHDM r' v st) /\
    (forall v, user_half v -> arch_ptm_virt_to_phys HHDM r v st' = Ok BAD_ADDRESS).
Proof.
  intros (lvl & HI & HR & Hh). unfold arch_ptm_new_map. destruct (t_pages _ _ _ _ _ HI) as (G & HG & HDG & HGl).
  destruct (page_alloc_spec _ _ HG) as [E|(a & pg & E & Hpg & Hna & Ha0 & Ha1 & Had)]; run E; [by left|right].
  destruct (addr_small HHDM HH a Ha0 Ha1) as [-> _]. set (N := a + HHDM).
  assert (lvl !! N = None) as Hnew.
  { destruct (lvl !! N) eqn:El; [|done]. destruct Hna. replace a with (N - HHDM) by (unfold N; lia). apply HGl. eauto. }
  set (st1 := zero_table (TState pg (tables st)) N).
  destruct (copy_higher_ok N (proj1 Hh) 256 0 st1 zero_page) as (st' & es & E' & Epg & Etab & Hl & Hes);
    [lia|lia|apply lookup_insert_eq|apply zero_page_len|]. run E'.
  destruct (add_root st st' lvl D a pg ({[a]} ∪ G) es) as (HI' & Hh' & Hent); try done.
  - clear - HDG. set_solver.
  - clear. set_solver.
  - intros Hd. by apply Hna, HDG.
  - intros x Hx%HGl. clear - Hx. set_solver.
  - rewrite Etab. apply insert_insert_eq.
  - intros j Hj. rewrite Hes by lia. destruct (decide (256 <= j)); [by rewrite decide_True by lia|].
    rewrite decide_False by lia. apply zero_page_lookup. lia.
  - assert (lvl !! N = None -> N ∉ R) as HnR by (intros Hn Hr%HR; congruence).
    exists N, st'. split; [done|]. split; [|split; [by apply HnR|split]].
    + exists (<[N := 3%nat]> lvl). split; [done|]. split; [|done].
      intros r [->%elem_of_singleton|Hr]%elem_of_union; [apply lookup_insert_eq|].
      rewrite lookup_insert_ne; [by apply HR|]. intros <-. by apply HnR.
    + intros r v Hr. rewrite (virt_to_phys_ok HHDM HH D st lvl r v HI (HR _ Hr)).
      rewrite (virt_to_phys_ok HHDM HH D st' _ r v HI') by (rewrite lookup_insert_ne; [by apply HR|intros <-; by apply HnR]).
      unfold translation. rewrite (xlate_same HHDM higher_half D st st' lvl HI); [done| |by apply HR]. intros t j Ht _. by apply Hent.
    + intros v Hv. rewrite (virt_to_phys_ok HHDM HH D st' _ N v HI') by apply lookup_insert_eq.
      unfold translation. cbn [xlate]. unfold next, entry. rewrite Etab, lookup_insert_eq. cbn [mbind option_bind].
      pose proof (index_range 3 v). pose proof (user_index v Hv). rewrite Hes by lia. rewrite decide_False by lia.
      rewrite zero_page_lookup by lia. done.
Qed.

Lemma x86_alloc_ok st R D : x86_state st R D ->
  page_alloc (tpages st) = Panic \/
  exists a pg, page_alloc (tpages st) = Ok (a, pg) /\ x86_state (TState pg (tables st)) R ({[a]} ∪ D) /\ a ∉ D /\ phys_page a.
Proof.
  intros (lvl & HI & HR & Hh). destruct (t_pages _ _ _ _ _ HI) as (G & HG & HDG & HGl).
  destruct (page_alloc_spec _ _ HG) as [E|(a & pg & E & Hpg & Hna & Ha)]; [by left|right].
  exists a, pg. split; [done|]. split; [|split; [intros Hd; by apply Hna, HDG|done]].
  exists lvl. split; [|done]. destruct HI as [_ H2 H3 H4]. split; [|exact H2|exact H3|exact H4].
  exists ({[a]} ∪ G). split; [done|]. split; [clear - HDG; set_solver|]. intros t Ht. destruct (HGl t Ht) as [H5 H6].
  clear - H5 H6 Hna. set_solver.
Qed.

Lemma x86_map_ok st R D root virt phys :
  x86_state st R D -> root ∈ R -> canonical virt -> (ARCH_PAGE_GRAN | virt) -> phys_page phys ->
  arch_ptm_map HHDM root virt phys ARCH_PAGE_GRAN st = Panic \/
  exists st', arch_ptm_map HHDM root virt phys ARCH_PAGE_GRAN st = Ok st' /\ x86_state st' R D /\
    (forall v, canonical v -> same_page v virt -> arch_ptm_virt_to_phys HHDM root v st' = Ok (phys + v mod ARCH_PAGE_GRAN)) /\
    (forall v, canonical v -> ~ same_page v virt ->
       arch_ptm_virt_to_phys HHDM root v st' = arch_ptm_virt_to_phys HHDM root v st) /\
    (forall r v, r ∈ R -> r <> root -> user_half v ->
       arch_ptm_virt_to_phys HHDM r v st' = arch_ptm_virt_to_phys HHDM r v st).
Proof.
  intros (lvl & HI & HR & Hh) Hr Hc Hv (Hp0 & Hp1 & Hpd). assert (phys + ARCH_PAGE_GRAN <= 2 ^ 52) as Hp2 by lia.
  destruct (ptm_map_ok HHDM D st lvl root virt phys ARCH_PAGE_GRAN HH HI (HR _ Hr))
    as [E|(st' & lvl' & E & HI' & Hsub & Hrf & Hin & Hout & Hoth)]; try done; [by left|right].
  exists st'. split; [done|]. split; [|split; [|split]].
  - exists lvl'. split; [done|]. split; [|by eapply hh_ok_refs]. intros r Hr'. eapply lookup_weaken; [by apply HR|done].
  - intros v Hcv Hs. apply Hin. by apply canonical_page.
  - intros v Hcv Hs. apply Hout. by rewrite canonical_page.
  - intros r v Hr' Hne Hu. apply Hoth; [by apply HR|done|by apply user_index].
Qed.
End page_map.

(** The address in an entry is that of a page. *)
Lemma pte_addr_page e : exists k, PTE_GET_ADDR e = k * ARCH_PAGE_GRAN /\ 0 <= k < 2 ^ 40.
Proof.
  exists (Z.land (Z.shiftr e 12) (Z.ones 40)). split.
  - unfold PTE_GET_ADDR, ARCH_PAGE_GRAN. change 0x1000 with (2 ^ 12).
    change 0x000FFFFFFFFFF000 with (Z.shiftl (Z.ones 40) 12). rewrite <- Z.shiftl_mul_pow2 by lia.
    apply Z.bits_inj'. intros n Hn. rewrite Z.land_spec, !Z.shiftl_spec by lia. rewrite Z.land_spec.
    destruct (Z.ltb_spec n 12).
    + rewrite (Z.testbit_neg_r _ (n - 12)) by lia. by rewrite (Z.testbit_neg_r (Z.shiftr e 12)), andb_false_r by lia.
    + rewrite Z.shiftr_spec by lia. by replace (n - 12 + 12) with n by lia.
  - rewrite Z.land_ones by lia. apply Z.mod_pos_bound. lia.
Qed.

Lemma land_page v : Z.land v 0xFFF = v mod ARCH_PAGE_GRAN.
Proof. change 0xFFF with (Z.ones 12). by rewrite Z.land_ones by lia. Qed.

(** The x86_64 page tables implement the interface. *)
#[export, program] Instance x86_page_map {S : Type} `{PageAllocator S} (HHDM : Z) (HH : hhdm_ok HHDM) (hh : list Z) :
  PageMap (tstate S) := {|
  pm_alloc st := '(a, pg) ← page_alloc (tpages st); Ok (a, TState pg (tables st));
  pm_map := arch_ptm_map HHDM;
  pm_virt_to_phys := arch_ptm_virt_to_phys HHDM;
  pm_new := arch_ptm_new_map HHDM hh;
  pm_state := x86_state HHDM hh
|}.
Next Obligation.
  intros S ? HHDM HH hh st R D Hst. destruct (x86_alloc_ok HHDM hh st R D Hst) as [E|(a & pg & E & Hst' & Ha & Hp)]; rewrite E; [by left|right].
  exists a, (TState pg (tables st)). split; [done|]. split; [done|]. split; [done|]. split; [done|].
  intros r v Hr. destruct Hst as (lvl & HI & HR & _), Hst' as (lvl' & HI' & HR' & _).
  rewrite (virt_to_phys_ok HHDM HH _ _ lvl r v HI (HR _ Hr)), (virt_to_phys_ok HHDM HH _ _ lvl' r v HI' (HR' _ Hr)).
  unfold translation. by rewrite (xlate_same HHDM higher_half D st _ lvl HI) by (done || by apply HR).
Qed.
Next Obligation. intros S ? HHDM HH hh st R D root virt phys. by apply x86_map_ok. Qed.
Next Obligation. intros S ? HHDM HH hh st R D. by apply new_map_ok. Qed.
Next Obligation.
  intros S ? HHDM HH hh st R D r v (lvl & HI & HR & _) Hr. eexists. by apply (virt_to_phys_ok HHDM HH D st lvl r v HI), HR.
Qed.
Next Obligation.
  intros S ? HHDM HH hh st R D r v w p (lvl & HI & HR & _) Hr Hv Hw Hs.
  rewrite (virt_to_phys_ok HHDM HH D st lvl r v HI (HR _ Hr)), (virt_to_phys_ok HHDM HH D st lvl r w HI (HR _ Hr)).
  intros [= <-]. f_equal. unfold translation. apply canonical_page in Hs; [|done|done].
  rewrite !xlate_reach, (page_of_reach HHDM st v w Hs) by lia. injection Hs as -> _ _ _.
  destruct (reach HHDM st 3 w r) as [t|]; [|done]. destruct (entry st t (index 0 w)) as [e|]; [|done].
  destruct (present e); [|done]. rewrite !land_page. destruct (pte_addr_page e) as (k & -> & Hk).
  pose proof (Z.mod_pos_bound v ARCH_PAGE_GRAN eq_refl). pose proof (Z.mod_pos_bound w ARCH_PAGE_GRAN eq_refl).
  unfold BAD_ADDRESS, ARCH_PAGE_GRAN in *. rewrite !u64_small by lia. rewrite (proj2 (Z.eqb_neq _ _)) by lia. lia.
Qed.

(** Blocks come from the page allocator; the tables are not concerned. *)
#[export, program] Instance x86_block_map {S : Type} `{PageBlocks S} (HHDM : Z) (HH : hhdm_ok HHDM) (hh : list Z) :
  @BlockMap (tstate S) (x86_page_map HHDM HH hh) := {|
  bm_alloc order st := '(a, pg) ← pb_alloc order (tpages st); Ok (a, TState pg (tables st));
  bm_release a st := pg ← pb_release a (tpages st); Ok (TState pg (tables st))
|}.
Next Obligation.
  intros S Hpa Hpb HHDM HH hh st R D order Hst Ho. destruct Hst as (lvl & HI & HR & Hh). destruct (t_pages _ _ _ _ _ HI) as (G & HG & HDG & Hl).
  destruct (pb_spec _ G order HG Ho) as [E|(a & s1 & s2 & E & HG1 & E2 & HG2 & Hb & Hap)]; rewrite E; [by left|right].
  assert (Hst : forall pg, pa_state pg G -> x86_state HHDM hh (TState pg (tables st)) R D).
  { intros pg Hpg. exists lvl. split; [|done]. destruct HI as [_ ? ? ?]. split; try done. by exists G. }
  exists a, (TState s1 (tables st)), (TState s2 (tables st)). split; [done|]. split; [by apply Hst|]. cbn [tpages tables]. rewrite E2.
  split; [done|]. split; [by apply Hst|]. split; [|split; [done|intros g Hg; apply Hap; by apply HDG]].
  assert (Htr : forall pg r v, pa_state pg G -> r ∈ R ->
    arch_ptm_virt_to_phys HHDM r v (TState pg (tables st)) = arch_ptm_virt_to_phys HHDM r v st).
  { intros pg r v Hpg Hr. destruct (Hst pg Hpg) as (lvl' & HI' & HR' & _).
    rewrite (virt_to_phys_ok HHDM HH _ _ lvl r v HI (HR _ Hr)), (virt_to_phys_ok HHDM HH _ _ lvl' r v HI' (HR' _ Hr)).
    unfold translation. by rewrite (xlate_same HHDM higher_half D st _ lvl HI) by (done || by apply HR). }
  intros r v Hr. split; by apply Htr.
Qed.
