(* ===== verification/PtmA64.v ===== *)
(** * Page tables of aarch64 (kernel/src/arch/aarch64/ptm.c)

    The same walk with other flag bits and two roots: one for the lower half,
    private to the address space, and one for the upper half, common to all. *)
From stdpp Require Import base gmap list fin_maps.
From Stdlib Require Import ZArith Lia.
From S2P Require Import Prelude Interfaces Kmem PageTables Ptm.

Definition TABLE : Z := 2.
Definition PAGE_4K : Z := 2.
Definition ACCESS : Z := 1024.
Definition TABLE_FLAGS : Z := Z.lor PRESENT TABLE.
Definition PAGE_FLAGS : Z := Z.lor PRESENT (Z.lor PAGE_4K ACCESS).

Record arch_ptm_map_t := Map { pml4_low : Z; pml4_high : Z }.

(** [map->pml4[is_higher_half]] *)
Definition half (map : arch_ptm_map_t) (virt : Z) : Z :=
  if negb (Z.land virt (2 ^ 63) =? 0) then pml4_high map else pml4_low map.

Section ptm.
Context {S : Type} `{PageAllocator S} (HHDM : Z).
Implicit Types st : tstate S.

Definition get_next_level st (top_level idx : Z) (alloc : bool) : outcome (Z * tstate S) :=
  next_level HHDM TABLE_FLAGS st top_level idx alloc.

Definition arch_ptm_map map (virt phys size : Z) st : outcome (tstate S) :=
  r ← umod virt size; ASSERT (r =? 0);;
  r ← umod phys size; ASSERT (r =? 0);;
  '(table, st) ← walk HHDM TABLE_FLAGS 3 virt (half map virt) true st;
  set_entry st table (index 0 virt) (Z.lor phys PAGE_FLAGS).

Definition arch_ptm_unmap map (virt phys size : Z) st : outcome (tstate S) :=
  r ← umod virt size; ASSERT (r =? 0);;
  r ← umod phys size; ASSERT (r =? 0);;
  '(table, st) ← walk HHDM TABLE_FLAGS 3 virt (half map virt) false st;
  if table =? NULL then Ok st else set_entry st table (index 0 virt) 0.

(** A missing table is not tested for: its address is [NULL] and the access
    through it is undefined. *)
Definition arch_ptm_virt_to_phys map (virt : Z) st : outcome Z :=
  '(table, st) ← walk HHDM TABLE_FLAGS 3 virt (half map virt) false st;
  pte ← get_entry st table (index 0 virt);
  Ok (u64 (PTE_GET_ADDR pte + Z.land virt 0xFFF)).

(** The values loaded into ttbr0_el1 and ttbr1_el1. *)
Definition arch_ptm_load_map map : Z * Z := (u64 (pml4_low map - HHDM), u64 (pml4_high map - HHDM)).

Definition arch_ptm_new_map (higher_half_pml4 : Z) st : outcome (arch_ptm_map_t * tstate S) :=
  '(a, pg) ← page_alloc (tpages st);
  let low := u64 (a + HHDM) in
  Ok (Map low higher_half_pml4, zero_table (TState pg (tables st)) low).

(** The loop of [delete_level]: entries that are absent or huge are skipped. *)
Definition delete_entries (rec : Z -> tstate S -> outcome (tstate S)) (lvl : Z) :=
  fix go (n : nat) (i : Z) st : outcome (tstate S) :=
    match n with
    | O => Ok st
    | Datatypes.S n =>
        e ← get_entry st lvl i;
        st ← (if negb (present e) || (Z.land (Z.shiftr e 1) 1 =? 0) then Ok st
              else rec (u64 (PTE_GET_ADDR e + HHDM)) st);
        go n (i + 1) st
    end.

Fixpoint delete_level (depth : nat) (lvl : Z) st : outcome (tstate S) :=
  match depth with
  | O => NoFuel
  | Datatypes.S d =>
      st ← (if bool_decide (d = O) then Ok st else delete_entries (delete_level d) lvl 512 0 st);
      pg ← page_release (u64 (lvl - HHDM)) (tpages st);
      Ok (TState pg (delete lvl (tables st)))
  end.

Definition arch_ptm_clear_map map st : outcome (tstate S) := delete_level 4 (pml4_low map) st.

(** Returns [higher_half_pml4]. *)
Definition arch_ptm_init st : outcome (Z * tstate S) :=
  '(a, pg) ← page_alloc (tpages st);
  let t := u64 (a + HHDM) in
  Ok (t, zero_table (TState pg (tables st)) t).
End ptm.

(** No root entry is shared between tables. *)
Definition no_shared (i : Z) : bool := false.

Lemma table_flags : tflags_ok TABLE_FLAGS.
Proof. done. Qed.

(** Translation in terms of the meaning of the tables. *)
Lemma a64_virt_to_phys_ok {S : Type} `{PageAllocator S} (HHDM : Z) (D : gset Z) (st : tstate S) lvl map v e :
  hhdm_ok HHDM -> tabs_ok HHDM no_shared D st lvl -> lvl !! half map v = Some 3%nat ->
  xlate HHDM st 3 v (half map v) = Some e ->
  arch_ptm_virt_to_phys HHDM map v st = Ok (u64 (PTE_GET_ADDR e + Z.land v 0xFFF)).
Proof.
  intros HH HI Hr Hx. unfold arch_ptm_virt_to_phys.
  destruct (walk_read HHDM HH no_shared D TABLE_FLAGS st lvl v HI 3 _ Hr) as [E Hlv]. run E.
  rewrite xlate_reach in Hx. destruct (reach HHDM st 3 v (half map v)) as [t0|]; [|done]. specialize (Hlv t0 eq_refl).
  destruct (get_entry_ok HHDM no_shared D _ _ _ _ _ HI Hlv (index_range 0 v)) as (e' & He & G). run G. rewrite He in Hx.
  destruct (present e'); congruence.
Qed.

Lemma a64_leaf_addr phys v : 0 <= phys -> phys + ARCH_PAGE_GRAN <= 2 ^ 52 -> (ARCH_PAGE_GRAN | phys) ->
  u64 (PTE_GET_ADDR (Z.lor phys PAGE_FLAGS) + Z.land v 0xFFF) = phys + v mod 0x1000.
Proof.
  intros H0 H1 Hd. rewrite pte_addr by done. change 0xFFF with (Z.ones 12). rewrite Z.land_ones by lia.
  change (2 ^ 12) with 0x1000. pose proof (Z.mod_pos_bound v 0x1000 ltac:(lia)). unfold ARCH_PAGE_GRAN in *.
  apply u64_small. lia.
Qed.

(** On aarch64, [arch_ptm_map] of an aligned page either runs out of pages or
    makes every address of the page in that half translate to the physical page
    plus the offset, and leaves every other entry of both halves, and of every
    other address space, as it was. *)
Theorem a64_map_correct {S : Type} `{PageAllocator S} (HHDM : Z) (D : gset Z) (st : tstate S) lvl map virt phys size :
  hhdm_ok HHDM -> tabs_ok HHDM no_shared D st lvl -> lvl !! half map virt = Some 3%nat ->
  0 < size -> (size | virt) -> (size | phys) -> (ARCH_PAGE_GRAN | phys) -> 0 <= phys -> phys + ARCH_PAGE_GRAN <= 2 ^ 52 ->
  arch_ptm_map HHDM map virt phys size st = Panic \/
  exists st' lvl', arch_ptm_map HHDM map virt phys size st = Ok st' /\ tabs_ok HHDM no_shared D st' lvl' /\ lvl ⊆ lvl' /\
    (forall v, page_of v = page_of virt -> half map v = half map virt ->
       arch_ptm_virt_to_phys HHDM map v st' = Ok (phys + v mod 0x1000)) /\
    (forall r v, lvl !! r = Some 3%nat -> r <> half map virt \/ page_of v <> page_of virt ->
       xlate HHDM st' 3 v r = xlate HHDM st 3 v r).
Proof.
  intros HH HI Hr Hsz Hv Hp Hpa Hp0 Hp1. unfold arch_ptm_map, umod. rewrite (proj2 (Z.eqb_neq size 0)) by lia. go.
  apply Z.mod_divide in Hv, Hp; [|lia..]. rewrite Hv, Hp. go.
  destruct (map_entry_ok HHDM HH no_shared D TABLE_FLAGS virt (half map virt) (Z.lor phys PAGE_FLAGS) table_flags st lvl HI Hr)
    as [E|(st' & lvl' & E & HI' & Hsub & _ & Hin & Hout)]; rewrite E; [by left|right].
  exists st', lvl'. split; [done|]. split; [done|]. split; [done|]. split.
  - intros v Hpg Hh. rewrite (a64_virt_to_phys_ok HHDM D st' lvl' map v (Z.lor phys PAGE_FLAGS) HH HI').
    + by rewrite a64_leaf_addr.
    + rewrite Hh. by eapply lookup_weaken.
    + rewrite Hh, Hin by done. by rewrite present_lor.
  - intros r v Hlr Hor. apply Hout; [done| |done]. intros ->. by destruct Hor.
Qed.

Lemma ex_a64_ok : tabs_ok ex_HH no_shared ∅ ex_tabs {[ex_root := 3%nat]}.
Proof.
  destruct ex_tabs_ok as [H1 H2 H3 H4]. split; [exact H1|exact H2|exact H3|].
  intros t l i t' l' i' x _ _ Hi _. by rewrite ex_no_next.
Qed.

Lemma a64_map_correct_witness :
  arch_ptm_map ex_HH (Map ex_root 0) 0x400000 0x7000 0x1000 ex_tabs = Panic \/
  exists st', arch_ptm_map ex_HH (Map ex_root 0) 0x400000 0x7000 0x1000 ex_tabs = Ok st' /\
    arch_ptm_virt_to_phys ex_HH (Map ex_root 0) 0x400123 st' = Ok 0x7123.
Proof.
  destruct (a64_map_correct ex_HH ∅ ex_tabs {[ex_root := 3%nat]} (Map ex_root 0) 0x400000 0x7000 0x1000 ex_hhdm ex_a64_ok)
    as [E|(st' & lvl' & E & _ & _ & Hm & _)].
  - apply lookup_singleton_eq.
  - lia.
  - by exists 0x400.
  - by exists 7.
  - by exists 7.
  - lia.
  - unfold ARCH_PAGE_GRAN. lia.
  - left. exact E.
  - right. exists st'. split; [exact E|]. exact (Hm 0x400123 eq_refl eq_refl).
Defined.

(** [arch_ptm_virt_to_phys] of an address without tables dereferences [NULL]. *)
Lemma a64_virt_to_phys_unmapped : arch_ptm_virt_to_phys ex_HH (Map ex_root 0) 0x400123 ex_tabs = Fault.
Proof. vm_compute. reflexivity. Qed.
