(* ===== verification/Vmm.v ===== *)
(** * Virtual memory manager (kernel/src/mm/vmm.c, vmm.h)

    An address space is a list of segments, sorted by base, and the root of its
    page tables.  Segments are filled on demand: the page fault handler maps a
    page the first time it is touched.  The list of segments is the sequence of
    its nodes (Lists.v has the operations at pointer level); segment objects
    keep the address [kmem_alloc_cache] gave them.  The state of the page
    tables, of the object allocator and of the file system is that of any
    implementation of their interfaces.  Page contents are bytes in the direct
    map, at the physical address plus [HHDM]. *)
From stdpp Require Import base gmap list fin_maps sorting.
From Stdlib Require Import ZArith Lia.
From S2P Require Import Prelude Interfaces Pmm Kmem PageTables Ptm.

Inductive vmm_seg_type_t := VMM_SEG_VNODE | VMM_SEG_KERNEL.

Record vmm_seg_t := Seg {
  seg_obj : Z; seg_type : vmm_seg_type_t; base : Z; len : Z;
  prot : Z; flags : Z; vnode : Z; offset : Z
}.

Record vmm_addr_space_t := AddrSpace {
  segments : list vmm_seg_t; limit_low : Z; limit_high : Z; ptm_map : Z
}.

Definition VMM_PROT_FULL : Z := 7.
Definition VMM_MAP_PRIVATE : Z := 1.
Definition VMM_MAP_SHARED : Z := 2.
Definition VMM_MAP_ANON : Z := 4.
Definition VMM_MAP_FIXED : Z := 8.
Definition VMM_MAP_FIXED_NOREPLACE : Z := 16.
Definition VMM_MAP_POPULATE : Z := 32.
Definition VMM_MAP_FAILED : Z := 2 ^ 64 - 1.

(** [flags & f]. *)
Definition has_flag (flags f : Z) : bool := negb (Z.land flags f =? 0).

Definition sizeof_seg : Z := 64.
Definition sizeof_addr_space : Z := 56.
Definition sizeof_vnode_page : Z := 56.

Definition set_segments (l : list vmm_seg_t) (a : vmm_addr_space_t) : vmm_addr_space_t :=
  AddrSpace l (limit_low a) (limit_high a) (ptm_map a).

(** The loop of [vmm_insert_seg]: the number of nodes up to [pos]. *)
Fixpoint insert_pos (b : Z) (l : list vmm_seg_t) : nat :=
  match l with
  | [] => O
  | i :: l => if base i <? b then S (insert_pos b l) else O
  end.

(** [list_insert_after] behind [pos], [list_prepend] when there is none. *)
Definition vmm_insert_seg (a : vmm_addr_space_t) (seg : vmm_seg_t) : vmm_addr_space_t :=
  let pos := insert_pos (base seg) (segments a) in
  set_segments (take pos (segments a) ++ seg :: drop pos (segments a)) a.

Fixpoint find_gap (start n : Z) (l : list vmm_seg_t) : Z :=
  match l with
  | [] => start
  | seg :: l => if u64 (start + n) <? base seg then start else find_gap (u64 (base seg + len seg)) n l
  end.

Definition vmm_find_space (a : vmm_addr_space_t) (n : Z) : Z :=
  match segments a with
  | [] => limit_low a
  | _ =>
      let start := find_gap (limit_low a) n (segments a) in
      if u64 (start + n - 1) <=? limit_high a then start else 0
  end.

Definition vmm_check_collision (a : vmm_addr_space_t) (b n : Z) : bool :=
  let e := u64 (b + n - 1) in
  existsb (fun seg => (base seg <=? e) && (b <=? u64 (base seg + len seg - 1))) (segments a).

Definition vmm_is_in_bounds (a : vmm_addr_space_t) (b n : Z) : bool :=
  negb ((b <? limit_low a) || (limit_high a <? u64 (b + n))).

Definition vmm_addr_to_seg (a : vmm_addr_space_t) (addr : Z) : option vmm_seg_t :=
  List.find (fun seg => (base seg <=? addr) && (addr <? u64 (base seg + len seg))) (segments a).

Record vstate (M K V : Type) := VState { vm : M; objs : K; vmem : mem; files : V }.
Arguments VState {M K V}. Arguments vm {M K V}. Arguments objs {M K V}. Arguments vmem {M K V}. Arguments files {M K V}.

Section vmm.
Context {M K V : Type} `{PageMap M} `{ObjectAllocator K} `{Files V} (HHDM : Z).
Implicit Types st : vstate M K V.

Definition set_vm (m : M) st : vstate M K V := VState m (objs st) (vmem st) (files st).
Definition set_objs (k : K) st : vstate M K V := VState (vm st) k (vmem st) (files st).
Definition set_vmem (m : mem) st : vstate M K V := VState (vm st) (objs st) m (files st).
Definition set_files (v : V) st : vstate M K V := VState (vm st) (objs st) (vmem st) v.

(** Kernel writes of [bs] at [p].  The lower half of the address space is not
    mapped while the kernel runs on its own page tables. *)
Definition kwrite (p : Z) (bs : list Z) st : outcome (vstate M K V) :=
  match bs with
  | [] => Ok st
  | _ => if p <? HHDM then Fault else Ok (set_vmem (write_bytes (vmem st) p bs) st)
  end.

Definition zeroes (n : Z) : list Z := replicate (Z.to_nat n) 0.

(** A private page of a segment: fresh, zero or filled from the file. *)
Definition map_private (root virt flags vnode file_off : Z) st : outcome (vstate M K V) :=
  '(phys, m) ← pm_alloc (vm st);
  m ← pm_map root virt phys ARCH_PAGE_GRAN m;
  let st := set_vm m st in
  if has_flag flags VMM_MAP_ANON then kwrite (u64 (phys + HHDM)) (zeroes ARCH_PAGE_GRAN) st
  else
    '(bs, f) ← (if vnode =? NULL then Fault else f_read vnode file_off ARCH_PAGE_GRAN (files st));
    kwrite (u64 (phys + HHDM)) bs (set_files f st).

(** A page of the file's cache, read in when it is not there yet. *)
Definition map_shared (root virt vnode page_offset : Z) st : outcome (vstate M K V) :=
  found ← (if vnode =? NULL then Fault else f_find_page vnode page_offset (files st));
  '(page_addr, st) ←
    (match found with
     | Some p => Ok (p, st)
     | None =>
         '(_, k) ← obj_alloc sizeof_vnode_page (objs st);
         '(p, m) ← pm_alloc (vm st);
         let st := set_vm m (set_objs k st) in
         '(bs, f) ← f_read vnode page_offset ARCH_PAGE_GRAN (files st);
         st ← kwrite p bs (set_files f st);
         f ← f_insert_page vnode page_offset p (files st);
         Ok (p, set_files f st)
     end);
  m ← pm_map root virt page_addr ARCH_PAGE_GRAN (vm st);
  Ok (set_vm m st).

Definition vmm_pagefault_handler (a : vmm_addr_space_t) (addr : Z) st : outcome (bool * vstate M K V) :=
  match vmm_addr_to_seg a addr with
  | None => Ok (false, st)
  | Some seg =>
      match seg_type seg with
      | VMM_SEG_KERNEL => Panic
      | VMM_SEG_VNODE =>
          let virt := FLOOR addr ARCH_PAGE_GRAN in
          st ← (if has_flag (flags seg) VMM_MAP_PRIVATE
                then map_private (ptm_map a) virt (flags seg) (vnode seg) (u64 (addr - base seg + offset seg)) st
                else map_shared (ptm_map a) virt (vnode seg) (u64 (offset seg + (virt - base seg))) st);
          Ok (true, st)
      end
  end.

(** The loop of [vmm_mmap] with [VMM_MAP_POPULATE]. *)
Fixpoint populate (fuel : nat) (root virt n flags vnode off i : Z) st : outcome (vstate M K V) :=
  if i <? n then
    match fuel with
    | O => NoFuel
    | S fuel =>
        st ← (if has_flag flags VMM_MAP_PRIVATE
              then map_private root (u64 (virt + i)) flags vnode (u64 (off + i)) st
              else map_shared root (u64 (virt + i)) vnode (u64 (off + i)) st);
        populate fuel root virt n flags vnode off (u64 (i + ARCH_PAGE_GRAN)) st
    end
  else Ok st.

Definition vmm_mmap (a : vmm_addr_space_t) (virt n prot flags vnode off : Z) st :
    outcome (Z * vmm_addr_space_t * vstate M K V) :=
  ASSERT ((virt mod ARCH_PAGE_GRAN =? 0) && (n mod ARCH_PAGE_GRAN =? 0));;
  ASSERT (xorb (has_flag flags VMM_MAP_PRIVATE) (has_flag flags VMM_MAP_SHARED));;
  ASSERT (xorb (has_flag flags VMM_MAP_ANON) (negb (vnode =? NULL)));;
  let bad := vmm_check_collision a virt n || negb (vmm_is_in_bounds a virt n) in
  if bad && has_flag flags VMM_MAP_FIXED then Ok (VMM_MAP_FAILED, a, st)
  else
    let virt := if bad then vmm_find_space a n else virt in
    '(o, k) ← obj_alloc sizeof_seg (objs st);
    let a := vmm_insert_seg a (Seg o VMM_SEG_VNODE virt n prot flags vnode off) in
    let st := set_objs k st in
    if negb (has_flag flags VMM_MAP_POPULATE) then Ok (virt, a, st)
    else
      st ← populate (Z.to_nat (n / ARCH_PAGE_GRAN)) (ptm_map a) virt n flags vnode off 0 st;
      Ok (virt, a, st).

(** The loop of [vmm_map_kernel]. *)
Fixpoint map_range (fuel : nat) (root virt phys n addr : Z) (m : M) : outcome M :=
  if addr <? n then
    match fuel with
    | O => NoFuel
    | S fuel =>
        m ← pm_map root (u64 (virt + addr)) (u64 (phys + addr)) ARCH_PAGE_GRAN m;
        map_range fuel root virt phys n (u64 (addr + ARCH_PAGE_GRAN)) m
    end
  else Ok m.

Definition vmm_map_kernel (a : vmm_addr_space_t) (virt n prot phys : Z) st : outcome (vmm_addr_space_t * vstate M K V) :=
  ASSERT ((virt mod ARCH_PAGE_GRAN =? 0) && (n mod ARCH_PAGE_GRAN =? 0));;
  '(o, k) ← obj_alloc sizeof_seg (objs st);
  let a := vmm_insert_seg a (Seg o VMM_SEG_KERNEL virt n prot 0 NULL 0) in
  m ← map_range (Z.to_nat (n / ARCH_PAGE_GRAN)) (ptm_map a) virt phys n 0 (vm st);
  Ok (a, set_vm m (set_objs k st)).

Definition vmm_virt_to_phys (a : vmm_addr_space_t) (virt : Z) st : outcome Z :=
  pm_virt_to_phys (ptm_map a) virt (vm st).

(** The first component is the address of the [vmm_addr_space_t]. *)
Definition vmm_new_addr_space (low high : Z) st : outcome (Z * vmm_addr_space_t * vstate M K V) :=
  '(o, k) ← obj_alloc sizeof_addr_space (objs st);
  '(r, m) ← pm_new (vm st);
  Ok (o, AddrSpace [] low high r, set_vm m (set_objs k st)).

(** The loop of [vmm_destroy_addr_space]; the list links are read from each
    segment after it was given back to its cache, which leaves them alone until
    the object is handed out again. *)
Fixpoint destroy_segs (l : list vmm_seg_t) st : outcome (vstate M K V) :=
  match l with
  | [] => Ok st
  | seg :: l =>
      f ← (if negb (vnode seg =? NULL) then f_release (vnode seg) (files st) else Ok (files st));
      k ← obj_free (seg_obj seg) (objs st);
      destroy_segs l (set_objs k (set_files f st))
  end.

Definition vmm_destroy_addr_space (as_ptr : Z) (a : vmm_addr_space_t) st : outcome (vstate M K V) :=
  st ← destroy_segs (segments a) st;
  k ← obj_free as_ptr (objs st);
  Ok (set_objs k st).

(** One iteration of [vmm_copy_to] and [vmm_zero_out] finds the physical
    address of [addr], through the page fault handler if need be. *)
Definition fault_in (a : vmm_addr_space_t) (addr : Z) st : outcome (Z * vstate M K V) :=
  phys ← vmm_virt_to_phys a addr st;
  if phys =? BAD_ADDRESS then
    '(_, st) ← vmm_pagefault_handler a addr st;
    phys ← vmm_virt_to_phys a addr st;
    if phys =? BAD_ADDRESS then Panic else Ok (phys, st)
  else Ok (phys, st).

Fixpoint copy_loop (fuel : nat) (a : vmm_addr_space_t) (dest_addr src count i : Z) st : outcome (Z * vstate M K V) :=
  if i <? count then
    match fuel with
    | O => NoFuel
    | S fuel =>
        let off := u64 (dest_addr + i) mod ARCH_PAGE_GRAN in
        '(phys, st) ← fault_in a (u64 (dest_addr + i)) st;
        let n := MIN (count - i) (ARCH_PAGE_GRAN - off) in
        bs ← kread (vmem st) src (Z.to_nat n);
        st ← kwrite (u64 (phys + HHDM)) bs st;
        copy_loop fuel a dest_addr (src + n) count (i + n) st
    end
  else Ok (i, st).

Definition vmm_copy_to (a : vmm_addr_space_t) (dest_addr src count : Z) st : outcome (Z * vstate M K V) :=
  copy_loop (Z.to_nat count) a dest_addr src count 0 st.

Fixpoint zero_loop (fuel : nat) (a : vmm_addr_space_t) (dest_addr count i : Z) st : outcome (Z * vstate M K V) :=
  if i <? count then
    match fuel with
    | O => NoFuel
    | S fuel =>
        let off := u64 (dest_addr + i) mod ARCH_PAGE_GRAN in
        '(phys, st) ← fault_in a (u64 (dest_addr + i)) st;
        let n := MIN (count - i) (ARCH_PAGE_GRAN - off) in
        st ← kwrite (u64 (phys + HHDM)) (zeroes n) st;
        zero_loop fuel a dest_addr count (i + n) st
    end
  else Ok (i, st).

Definition vmm_zero_out (a : vmm_addr_space_t) (dest_addr count : Z) st : outcome (Z * vstate M K V) :=
  zero_loop (Z.to_nat count) a dest_addr count 0 st.

(** The entries of the memory map [vmm_init] maps, with the type of each. *)
Definition LIMINE_MEMMAP_RESERVED : Z := 1.
Definition LIMINE_MEMMAP_BAD_MEMORY : Z := 4.

Fixpoint map_memmap (entries : list (Z * Z * Z)) (a : vmm_addr_space_t) st : outcome (vmm_addr_space_t * vstate M K V) :=
  match entries with
  | [] => Ok (a, st)
  | (ty, b, l) :: entries =>
      if (ty =? LIMINE_MEMMAP_RESERVED) || (ty =? LIMINE_MEMMAP_BAD_MEMORY) then map_memmap entries a st
      else
        let base := FLOOR b ARCH_PAGE_GRAN in
        let length := u64 (CEIL (u64 (b + l)) ARCH_PAGE_GRAN - base) in
        '(a, st) ← vmm_map_kernel a (u64 (base + HHDM)) length VMM_PROT_FULL base st;
        map_memmap entries a st
  end.

Definition ARCH_KERNEL_MIN_VIRT : Z := 0xFFFF800000000000.
Definition ARCH_KERNEL_MAX_VIRT : Z := 0xFFFFFFFFFFFFFFFF.
Definition GIB : Z := 2 ^ 30.

(** [vmm_init] after [arch_ptm_init] and the creation of the segment cache,
    which belong to [vm st] and [objs st]; the memory map and the kernel's
    addresses come from the boot loader. *)
Definition vmm_init (memmap : option (list (Z * Z * Z))) (virtual_base physical_base : Z) st :
    outcome (vmm_addr_space_t * vstate M K V) :=
  match memmap with
  | None => Panic
  | Some entries =>
      '(_, a, st) ← vmm_new_addr_space ARCH_KERNEL_MIN_VIRT ARCH_KERNEL_MAX_VIRT st;
      '(a, st) ← vmm_map_kernel a HHDM (4 * GIB) VMM_PROT_FULL 0 st;
      '(a, st) ← vmm_map_kernel a virtual_base (2 * GIB) VMM_PROT_FULL physical_base st;
      map_memmap entries a st
  end.
End vmm.

(** ** Segments *)

Definition seg_ok (a : vmm_addr_space_t) (s : vmm_seg_t) : Prop :=
  limit_low a <= base s /\ base s + len s - 1 <= limit_high a /\ 0 < len s /\
  (ARCH_PAGE_GRAN | base s) /\ (ARCH_PAGE_GRAN | len s).

Definition before (s t : vmm_seg_t) : Prop := base s + len s <= base t.

(** Segments are page aligned, inside the limits, sorted and disjoint. *)
Record as_ok (a : vmm_addr_space_t) : Prop := {
  ao_low : 0 <= limit_low a /\ (ARCH_PAGE_GRAN | limit_low a);
  ao_high : limit_high a < 2 ^ 64 - 1;
  ao_segs : Forall (seg_ok a) (segments a);
  ao_sorted : StronglySorted before (segments a)
}.

(** [[b, b + n)] and the segment have no address in common. *)
Definition clear_of (b n : Z) (s : vmm_seg_t) : Prop := b + n <= base s \/ base s + len s <= b.

Definition free_range (a : vmm_addr_space_t) (b n : Z) : Prop := Forall (clear_of b n) (segments a).

Lemma seg_end a s : as_ok a -> s ∈ segments a ->
  u64 (base s + len s) = base s + len s /\ u64 (base s + len s - 1) = base s + len s - 1 /\ seg_ok a s.
Proof.
  intros [[Hl _] Hh Hs _] Hin. rewrite Forall_forall in Hs. specialize (Hs s Hin). pose proof Hs as (? & ? & ? & _).
  rewrite !u64_small by lia. done.
Qed.

Lemma check_collision_spec a b n : as_ok a -> 0 <= b -> 0 < n -> b + n <= 2 ^ 64 ->
  vmm_check_collision a b n = false <-> free_range a b n.
Proof.
  intros HI Hb Hn Hbn. unfold vmm_check_collision, free_range. rewrite u64_small by lia.
  rewrite <- not_true_iff_false, existsb_exists, Forall_forall. split.
  - intros Hno s Hs. unfold clear_of. destruct (seg_end a s HI Hs) as (_ & E & ? & ? & ? & _).
    destruct (decide (b + n <= base s)); [by left|]. destruct (decide (base s + len s <= b)); [by right|].
    destruct Hno. exists s. split; [by apply list_elem_of_In|]. rewrite E. apply andb_true_iff. split; apply Z.leb_le; lia.
  - intros Hall (s & Hs%list_elem_of_In & Hc). destruct (seg_end a s HI Hs) as (_ & E & _). rewrite E in Hc.
    apply andb_true_iff in Hc as [H1%Z.leb_le H2%Z.leb_le]. destruct (Hall s Hs); lia.
Qed.

(** The insertion keeps the order. *)
Lemma insert_sorted seg l : StronglySorted before l ->
  Forall (fun s => 0 < len s) l -> 0 < len seg -> Forall (clear_of (base seg) (len seg)) l ->
  StronglySorted before (take (insert_pos (base seg) l) l ++ seg :: drop (insert_pos (base seg) l) l).
Proof.
  intros Hs Hpos Hn Hc. induction Hs as [|s l Hs IH Hall]; simpl; [by repeat constructor|].
  apply Forall_cons in Hpos as [Hp Hpos]. apply Forall_cons in Hc as [Hc1 Hc]. destruct (Z.ltb_spec (base s) (base seg)); simpl.
  - constructor; [by apply IH|]. rewrite Forall_app, Forall_cons. split; [by apply Forall_take|].
    split; [|by apply Forall_drop]. unfold before, clear_of in *. lia.
  - constructor; [by constructor|]. assert (before seg s) as Hb by (unfold before, clear_of in *; lia).
    constructor; [done|]. eapply Forall_impl; [exact Hall|]. unfold before in *. intros t. lia.
Qed.

Lemma insert_perm {A} (seg : A) pos l : take pos l ++ seg :: drop pos l ≡ₚ seg :: l.
Proof. rewrite <- (take_drop pos l) at 3. by rewrite Permutation_middle. Qed.

Lemma insert_seg_ok a seg : as_ok a -> seg_ok a seg -> free_range a (base seg) (len seg) ->
  as_ok (vmm_insert_seg a seg) /\ segments (vmm_insert_seg a seg) ≡ₚ seg :: segments a.
Proof.
  intros [Hl Hh Hs Hsort] Hok Hfree. split; [|apply insert_perm]. split; [done|done| |].
  - simpl. rewrite insert_perm. by constructor.
  - apply insert_sorted; [done| |by destruct Hok as (_ & _ & ? & _)|done].
    eapply Forall_impl; [exact Hs|]. by intros s (_ & _ & ? & _).
Qed.

(** [find_gap] from [start], the end of the segments passed so far. *)
Lemma find_gap_ok a n l : as_ok a -> 0 < n -> limit_high a + n < 2 ^ 64 - 1 -> forall pre start,
  segments a = pre ++ l -> limit_low a <= start -> start <= limit_high a + 1 ->
  Forall (fun s => base s + len s <= start) pre -> (ARCH_PAGE_GRAN | start) ->
  let g := find_gap start n l in
  limit_low a <= g <= limit_high a + 1 /\ (ARCH_PAGE_GRAN | g) /\ free_range a g n.
Proof.
  intros HI Hn Hfit. pose proof (ao_low _ HI) as [Hl0 _]. pose proof (ao_high _ HI) as Hh0.
  induction l as [|s l IH]; intros pre start Hsegs Hlo Hhi Hpre Hal; cbn [find_gap].
  - split; [done|]. split; [done|]. unfold free_range. rewrite Hsegs, app_nil_r. eapply Forall_impl; [exact Hpre|].
    intros s Hs. by right.
  - assert (s ∈ segments a) as Hin by (rewrite Hsegs; apply elem_of_app; right; left).
    destruct (seg_end a s HI Hin) as (E & _ & Hs1 & Hs2 & Hs3 & Hs4 & Hs5). rewrite E, (u64_small (start + n)) by lia.
    pose proof (ao_sorted _ HI) as Hsort. rewrite Hsegs in Hsort.
    apply StronglySorted_app in Hsort as (Hcross & _ & Hsl). apply StronglySorted_inv in Hsl as [_ Hsl].
    destruct (Z.ltb_spec (start + n) (base s)).
    + split; [lia|]. split; [done|]. unfold free_range. rewrite Hsegs, Forall_app, Forall_cons. split; [|split].
      * eapply Forall_impl; [exact Hpre|]. intros t Ht. by right.
      * left. lia.
      * eapply Forall_impl; [exact Hsl|]. intros t Ht. unfold before in Ht. left. lia.
    + apply (IH (pre ++ [s])).
      * by rewrite <- app_assoc.
      * lia.
      * lia.
      * rewrite Forall_app, Forall_singleton. split; [|lia]. apply Forall_forall. intros t Ht.
        assert (before t s) as Hb by (apply Hcross; [done|left]). unfold before in Hb. lia.
      * by apply Z.divide_add_r.
Qed.

(** [vmm_find_space] in a non-empty address space fails or finds room. *)
Lemma find_space_ok a n : as_ok a -> 0 < n -> limit_high a + n < 2 ^ 64 - 1 -> limit_low a + n - 1 <= limit_high a ->
  vmm_find_space a n = 0 \/
  (limit_low a <= vmm_find_space a n /\ vmm_find_space a n + n - 1 <= limit_high a /\
   (ARCH_PAGE_GRAN | vmm_find_space a n) /\ free_range a (vmm_find_space a n) n).
Proof.
  intros HI Hn Hfit Hroom. pose proof (ao_low _ HI) as [Hl0 Hla]. unfold vmm_find_space.
  destruct (segments a) as [|s l] eqn:Es.
  - right. split; [lia|]. split; [lia|]. split; [done|]. unfold free_range. by rewrite Es.
  - destruct (find_gap_ok a n (segments a) HI Hn Hfit [] (limit_low a)) as (Hg & Hga & Hgf); try done; [lia..|].
    rewrite Es in Hg, Hga, Hgf. set (g := find_gap (limit_low a) n (s :: l)) in *.
    rewrite u64_small by lia. destruct (Z.leb_spec (g + n - 1) (limit_high a)); [|by left]. right. split; [lia|]. done.
Qed.

(** Every address of a segment finds that segment. *)
Lemma addr_to_seg_ok a s addr : as_ok a -> s ∈ segments a -> base s <= addr < base s + len s ->
  vmm_addr_to_seg a addr = Some s.
Proof.
  intros HI Hs Ha. unfold vmm_addr_to_seg.
  assert (Hin : forall t, t ∈ segments a -> (base t <=? addr) && (addr <? u64 (base t + len t)) = true <-> base t <= addr < base t + len t).
  { intros t Ht. destruct (seg_end a t HI Ht) as (-> & _). rewrite andb_true_iff, Z.leb_le, Z.ltb_lt. done. }
  pose proof (ao_sorted _ HI) as Hsort. revert Hs Hin Hsort. generalize (segments a). induction l as [|t l IH]; intros Hs Hin Hsort; simpl.
  - by apply elem_of_nil in Hs.
  - apply StronglySorted_inv in Hsort as [Hsort Hall]. destruct ((base t <=? addr) && _) eqn:E.
    + apply Hin in E; [|left]. apply elem_of_cons in Hs as [->|Hs]; [done|]. rewrite Forall_forall in Hall.
      specialize (Hall s Hs). unfold before in Hall. lia.
    + apply elem_of_cons in Hs as [->|Hs]; [apply Hin in Ha; [congruence|left]|]. apply IH; [done| |done].
      intros u Hu. apply Hin. by right.
Qed.

Lemma addr_to_seg_none a addr : as_ok a -> Forall (fun s => ~ base s <= addr < base s + len s) (segments a) ->
  vmm_addr_to_seg a addr = None.
Proof.
  intros HI Hall. unfold vmm_addr_to_seg. destruct (List.find _ _) as [s|] eqn:E; [|done].
  apply find_some in E as [Hs%list_elem_of_In E]. destruct (seg_end a s HI Hs) as (E' & _). rewrite E' in E.
  apply andb_true_iff in E as [H1%Z.leb_le H2%Z.ltb_lt]. rewrite Forall_forall in Hall. by destruct (Hall s Hs).
Qed.

Lemma in_bounds_spec a b n : 0 <= b -> 0 <= n -> b + n < 2 ^ 64 ->
  vmm_is_in_bounds a b n = true <-> limit_low a <= b /\ b + n <= limit_high a.
Proof.
  intros Hb Hn Hbn. unfold vmm_is_in_bounds. rewrite u64_small by lia.
  rewrite negb_true_iff, orb_false_iff, Z.ltb_ge, Z.ltb_ge. done.
Qed.

(** ** Mapping *)

Section mmap.
Context {M K V : Type} `{PageMap M} `{ObjectAllocator K} `{Files V} (HHDM : Z).
Implicit Types st : vstate M K V.

Definition mmap_flags_ok (flags vnode : Z) : Prop :=
  xorb (has_flag flags VMM_MAP_PRIVATE) (has_flag flags VMM_MAP_SHARED) = true /\
  xorb (has_flag flags VMM_MAP_ANON) (negb (vnode =? NULL)) = true.

(** Where [vmm_mmap] puts a mapping that it does not refuse. *)
Definition hint_free (a : vmm_addr_space_t) (virt n : Z) : Prop :=
  limit_low a <= virt /\ virt + n <= limit_high a /\ free_range a virt n.

Lemma hint_spec a virt n : as_ok a -> 0 <= virt -> 0 < n -> virt + n < 2 ^ 64 ->
  vmm_check_collision a virt n || negb (vmm_is_in_bounds a virt n) = false <-> hint_free a virt n.
Proof.
  intros HI Hv Hn Hvn. rewrite orb_false_iff, negb_false_iff, check_collision_spec, in_bounds_spec by (done || lia).
  unfold hint_free. tauto.
Qed.

Lemma mmap_unfold a virt n prot flags vnode off st :
  (ARCH_PAGE_GRAN | virt) -> (ARCH_PAGE_GRAN | n) -> mmap_flags_ok flags vnode ->
  vmm_mmap HHDM a virt n prot flags vnode off st =
  (let bad := vmm_check_collision a virt n || negb (vmm_is_in_bounds a virt n) in
   if bad && has_flag flags VMM_MAP_FIXED then Ok (VMM_MAP_FAILED, a, st)
   else
     let virt := if bad then vmm_find_space a n else virt in
     '(o, k) ← obj_alloc sizeof_seg (objs st);
     let a := vmm_insert_seg a (Seg o VMM_SEG_VNODE virt n prot flags vnode off) in
     let st := set_objs k st in
     if negb (has_flag flags VMM_MAP_POPULATE) then Ok (virt, a, st)
     else
       st ← populate HHDM (Z.to_nat (n / ARCH_PAGE_GRAN)) (ptm_map a) virt n flags vnode off 0 st;
       Ok (virt, a, st)).
Proof.
  intros Hv Hn [Hf1 Hf2]. unfold vmm_mmap. apply Z.mod_divide in Hv, Hn; [|done..]. rewrite Hv, Hn, Hf1, Hf2. done.
Qed.
End mmap.


(** ** Demand paging *)

Section paging.
Context {M K V : Type} `{PageMap M} `{ObjectAllocator K} `{Files V} (HHDM : Z) (HH : hhdm_ok HHDM).
Implicit Types st : vstate M K V.

Definition v2p st (root v : Z) : outcome Z := pm_virt_to_phys root v (vm st).

(** The pages of the lower half of [root] lie in frames of their own among the
    data pages [D]. *)
Record space_ok st (root : Z) (R D : gset Z) : Prop := {
  so_state : pm_state (vm st) R D;
  so_root : root ∈ R;
  so_frame : forall v p, user_half v -> v2p st root v = Ok p -> p <> BAD_ADDRESS ->
    exists f, f ∈ D /\ phys_page f /\ p = f + v mod ARCH_PAGE_GRAN;
  so_inj : forall v w f, user_half v -> user_half w -> phys_page f ->
    v2p st root v = Ok (f + v mod ARCH_PAGE_GRAN) -> v2p st root w = Ok (f + w mod ARCH_PAGE_GRAN) -> same_page v w
}.

(** What a program sees at [v] in private anonymous memory: the byte of the
    frame when the page is present, and zero before it is. *)
Definition ucontent st (root v : Z) : option Z :=
  match v2p st root v with
  | Ok p => if p =? BAD_ADDRESS then Some 0 else vmem st !! (p + HHDM)
  | _ => None
  end.

Definition page_base (v : Z) : Z := FLOOR v ARCH_PAGE_GRAN.

Lemma page_base_ok v : user_half v -> user_half (page_base v) /\ (ARCH_PAGE_GRAN | page_base v) /\
  page_base v mod ARCH_PAGE_GRAN = 0 /\ page_base v + v mod ARCH_PAGE_GRAN = v /\ same_page v (page_base v).
Proof.
  unfold user_half, page_base, FLOOR, same_page, ARCH_PAGE_GRAN. intros Hv. rewrite Z.mod_mul, Z.div_mul by lia.
  split_and!; [dlia|dlia|by apply Z.divide_factor_r|done|dlia|done].
Qed.

Lemma user_pages v w : user_half v -> same_page v w -> user_half w.
Proof. unfold user_half, same_page, ARCH_PAGE_GRAN. intros. dlia. Qed.

Lemma mod_page v : 0 <= v mod ARCH_PAGE_GRAN < ARCH_PAGE_GRAN.
Proof. by apply Z.mod_pos_bound. Qed.

Lemma frame_u64 f : phys_page f -> u64 (f + HHDM) = f + HHDM /\ HHDM <= f + HHDM.
Proof. intros (? & ? & _). destruct HH as (? & ? & _). unfold ARCH_PAGE_GRAN in *. rewrite u64_small by lia. lia. Qed.

(** Frames are apart. *)
Lemma frames_apart f g i j : phys_page f -> phys_page g -> f <> g -> 0 <= i < ARCH_PAGE_GRAN -> 0 <= j < ARCH_PAGE_GRAN ->
  f + i <> g + j.
Proof. intros (_ & _ & [k ->]) (_ & _ & [l ->]). unfold ARCH_PAGE_GRAN. lia. Qed.

Lemma kwrite_ok st p bs : HHDM <= p ->
  kwrite HHDM p bs st = Ok (set_vmem (write_bytes (vmem st) p bs) st).
Proof.
  intros Hp. unfold kwrite. destruct bs as [|b bs]; [by destruct st|].
  rewrite (proj2 (Z.ltb_ge p HHDM)) by done. done.
Qed.

Lemma zeroes_lookup n i : 0 <= i < n -> zeroes n !! Z.to_nat i = Some 0.
Proof. intros Hi. apply lookup_replicate_2. lia. Qed.

Lemma zeroes_len n : 0 <= n -> Z.of_nat (length (zeroes n)) = n.
Proof. intros. unfold zeroes. rewrite length_replicate. lia. Qed.

(** A fresh zeroed frame behind a page that was absent. *)
Lemma map_private_anon st root R D virt flags vn off :
  space_ok st root R D -> user_half virt -> (ARCH_PAGE_GRAN | virt) -> v2p st root virt = Ok BAD_ADDRESS ->
  has_flag flags VMM_MAP_ANON = true ->
  map_private HHDM root virt flags vn off st = Panic \/
  exists f st', map_private HHDM root virt flags vn off st = Ok st' /\ f ∉ D /\ phys_page f /\
    space_ok st' root R ({[f]} ∪ D) /\ objs st' = objs st /\ files st' = files st /\
    (forall v, user_half v -> same_page v virt -> v2p st' root v = Ok (f + v mod ARCH_PAGE_GRAN)) /\
    (forall v, user_half v -> ~ same_page v virt -> v2p st' root v = v2p st root v) /\
    (forall r v, r ∈ R -> r <> root -> user_half v -> v2p st' r v = v2p st r v) /\
    (forall x, ~ (f + HHDM <= x < f + HHDM + ARCH_PAGE_GRAN) -> vmem st' !! x = vmem st !! x) /\
    (forall v, user_half v -> ucontent st' root v = ucontent st root v).
Proof.
  intros [Hst Hr Hfr Hinj] Hu Hal Hbad Hanon. unfold map_private.
  destruct (pm_alloc_spec _ _ _ Hst) as [E|(f & m1 & E & Hst1 & Hf & Hp & Hsame1)]; run E; [by left|].
  destruct (pm_map_spec m1 R _ root virt f Hst1 Hr (user_canonical _ Hu) Hal Hp)
    as [E2|(m2 & E2 & Hst2 & Hin & Hout & Hoth)]; run E2; [by left|right].
  rewrite Hanon. destruct (frame_u64 f Hp) as [-> Hge]. rewrite kwrite_ok by done.
  set (st' := set_vmem _ _). exists f, st'.
  assert (Hv1 : forall v, user_half v -> same_page v virt -> v2p st' root v = Ok (f + v mod ARCH_PAGE_GRAN)).
  { intros v Hv Hs. apply Hin; [by apply user_canonical|done]. }
  assert (Hv2 : forall v, user_half v -> ~ same_page v virt -> v2p st' root v = v2p st root v).
  { intros v Hv Hs. unfold v2p. cbn. rewrite Hout by (done || by apply user_canonical). by apply Hsame1. }
  assert (Hpb : forall v, f + v mod ARCH_PAGE_GRAN <> BAD_ADDRESS).
  { intros v. pose proof (mod_page v). destruct Hp as (? & ? & _). unfold BAD_ADDRESS, ARCH_PAGE_GRAN in *. lia. }
  assert (Habs : forall v, user_half v -> same_page v virt -> v2p st root v = Ok BAD_ADDRESS).
  { intros v Hv Hs. unfold v2p in *. rewrite (pm_same_page _ _ _ root virt v BAD_ADDRESS Hst Hr); try done; by apply user_canonical. }
  assert (Hvm : forall x, ~ (f + HHDM <= x < f + HHDM + ARCH_PAGE_GRAN) -> vmem st' !! x = vmem st !! x).
  { intros x Hx. cbn. apply write_bytes_out. rewrite zeroes_len by done. lia. }
  split; [done|]. split; [done|]. split; [done|]. split; [split|].
  - exact Hst2.
  - done.
  - intros v p Hv. destruct (decide (same_page v virt)) as [Hs|Hs].
    + rewrite Hv1 by done. intros [= <-] _. exists f. split; [clear; set_solver|done].
    + rewrite Hv2 by done. intros Ep Hne. destruct (Hfr v p Hv Ep Hne) as (g & Hg & ?). exists g. split; [clear - Hg; set_solver|done].
  - intros v w g Hv Hw Hg Ev Ew.
    assert (Hmix : forall a b, user_half a -> user_half b -> same_page a virt -> ~ same_page b virt ->
      v2p st' root a = Ok (g + a mod ARCH_PAGE_GRAN) -> v2p st' root b = Ok (g + b mod ARCH_PAGE_GRAN) -> False).
    { intros a b Ha Hb Hsa Hsb Ea Eb. rewrite Hv1 in Ea by done. injection Ea as Ea. assert (g = f) as -> by lia.
      rewrite Hv2 in Eb by done. destruct (Hfr _ _ Hb Eb (Hpb b)) as (f' & Hf' & Hp' & E'). destruct (decide (f = f')) as [->|Hne]; [done|].
      by destruct (frames_apart f f' (b mod ARCH_PAGE_GRAN) (b mod ARCH_PAGE_GRAN) Hp Hp' Hne (mod_page _) (mod_page _)). }
    destruct (decide (same_page v virt)) as [Hs|Hs], (decide (same_page w virt)) as [Hs'|Hs'].
    + unfold same_page in *. congruence.
    + by destruct (Hmix v w).
    + by destruct (Hmix w v).
    + rewrite Hv2 in Ev, Ew by done. by eapply Hinj.
  - split; [done|]. split; [done|]. split; [done|]. split; [done|]. split.
    { intros r v Hr' Hne Hv. unfold v2p. cbn. rewrite Hoth by done. by apply Hsame1. }
    split; [done|]. intros v Hv. unfold ucontent. destruct (decide (same_page v virt)) as [Hs|Hs].
    + rewrite Hv1, Habs by done. rewrite (proj2 (Z.eqb_neq _ _)) by apply Hpb. rewrite Z.eqb_refl. cbn.
      pose proof (write_bytes_at (vmem st) (f + HHDM) (zeroes ARCH_PAGE_GRAN) (Z.to_nat (v mod ARCH_PAGE_GRAN)) 0) as Hw.
      pose proof (mod_page v). rewrite Z2Nat.id in Hw by lia. rewrite <- Hw by (apply zeroes_lookup; lia). f_equal. lia.
    + rewrite Hv2 by done. destruct (v2p st root v) as [p| | |] eqn:Ep; try done.
      destruct (Z.eqb_spec p BAD_ADDRESS); [done|]. apply Hvm. intros Hx.
      destruct (Hfr v p Hv Ep n) as (g & Hg & Hpg & ->). pose proof (mod_page v).
      apply (frames_apart g f (v mod ARCH_PAGE_GRAN) (g + v mod ARCH_PAGE_GRAN - f)); [done|done|by intros ->|done|lia|lia].
Qed.

(** [addr] lies in a private anonymous segment. *)
Definition anon_at (a : vmm_addr_space_t) (addr : Z) : Prop :=
  exists seg, vmm_addr_to_seg a addr = Some seg /\ seg_type seg = VMM_SEG_VNODE /\
    has_flag (flags seg) VMM_MAP_PRIVATE = true /\ has_flag (flags seg) VMM_MAP_ANON = true.

(** [x] is not a byte of a frame outside [D], so that a frame handed out later
    does not contain it. *)
Definition stable (D : gset Z) (x : Z) : Prop :=
  forall f, f ∉ D -> phys_page f -> ~ (f + HHDM <= x < f + HHDM + ARCH_PAGE_GRAN).

Lemma stable_weaken D D' x : D ⊆ D' -> stable D x -> stable D' x.
Proof. intros Hsub Hs f Hf. apply Hs. by intros Hd%Hsub. Qed.

(** From [st] to [st'] some absent pages of [root] came in, zeroed, and nothing
    else changed. *)
Record paged_in st st' (root : Z) (R D D' : gset Z) : Prop := {
  pi_space : space_ok st' root R D';
  pi_sub : D ⊆ D';
  pi_map : forall v, user_half v -> v2p st' root v = v2p st root v \/
    (v2p st root v = Ok BAD_ADDRESS /\ exists f, f ∉ D /\ phys_page f /\ v2p st' root v = Ok (f + v mod ARCH_PAGE_GRAN));
  pi_other : forall r v, r ∈ R -> r <> root -> user_half v -> v2p st' r v = v2p st r v;
  pi_mem : forall x, stable D x -> vmem st' !! x = vmem st !! x;
  pi_content : forall v, user_half v -> ucontent st' root v = ucontent st root v
}.

Lemma paged_in_refl st root R D : space_ok st root R D -> paged_in st st root R D D.
Proof. intros HI. split; try done. intros v _. by left. Qed.

(** The page fault handler on private anonymous memory. *)
Lemma pagefault_ok a st R D addr :
  space_ok st (ptm_map a) R D -> user_half addr -> anon_at a addr -> v2p st (ptm_map a) addr = Ok BAD_ADDRESS ->
  vmm_pagefault_handler HHDM a addr st = Panic \/
  exists f st', vmm_pagefault_handler HHDM a addr st = Ok (true, st') /\ phys_page f /\ f ∉ D /\
    v2p st' (ptm_map a) addr = Ok (f + addr mod ARCH_PAGE_GRAN) /\ objs st' = objs st /\ files st' = files st /\
    paged_in st st' (ptm_map a) R D ({[f]} ∪ D).
Proof.
  intros HI Hu (seg & Hseg & Hty & Hpriv & Hanon) Hbad. unfold vmm_pagefault_handler. rewrite Hseg, Hty, Hpriv.
  destruct (page_base_ok addr Hu) as (Hu' & Hal & _ & _ & Hs). fold (page_base addr).
  assert (v2p st (ptm_map a) (page_base addr) = Ok BAD_ADDRESS) as Hbad'.
  { unfold v2p in *. rewrite (pm_same_page _ _ _ _ addr (page_base addr) BAD_ADDRESS (so_state _ _ _ _ HI) (so_root _ _ _ _ HI));
      try done; by apply user_canonical. }
  destruct (map_private_anon st (ptm_map a) R D (page_base addr) (flags seg) (vnode seg) (u64 (addr - base seg + offset seg)) HI Hu' Hal Hbad' Hanon)
    as [E|(f & st' & E & Hf & Hp & HI' & Ho & Hfi & Hin & Hout & Hoth & Hmem & Hc)]; run E; [by left|right].
  exists f, st'. split; [done|]. split; [done|]. split; [done|]. split; [by apply Hin|]. split; [done|]. split; [done|].
  split; [done|clear; set_solver| |done| |done].
  - intros v Hv. destruct (decide (same_page v (page_base addr))) as [Hsv|Hsv]; [right|left; by apply Hout].
    split; [|exists f; split_and!; [done|done|by apply Hin]]. unfold v2p in *.
    rewrite (pm_same_page _ _ _ _ (page_base addr) v BAD_ADDRESS (so_state _ _ _ _ HI) (so_root _ _ _ _ HI)); try done;
      by apply user_canonical.
  - intros x Hx. apply Hmem. by apply Hx.
Qed.

Lemma fault_in_ok a st R D addr :
  space_ok st (ptm_map a) R D -> user_half addr -> (v2p st (ptm_map a) addr = Ok BAD_ADDRESS -> anon_at a addr) ->
  fault_in HHDM a addr st = Panic \/
  exists f st' D', fault_in HHDM a addr st = Ok (f + addr mod ARCH_PAGE_GRAN, st') /\ phys_page f /\ f ∈ D' /\
    v2p st' (ptm_map a) addr = Ok (f + addr mod ARCH_PAGE_GRAN) /\ paged_in st st' (ptm_map a) R D D'.
Proof.
  intros HI Hu Hanon. unfold fault_in, vmm_virt_to_phys. fold (v2p st (ptm_map a) addr).
  destruct (pm_virt_to_phys_total _ _ _ (ptm_map a) addr (so_state _ _ _ _ HI) (so_root _ _ _ _ HI)) as [p Ep].
  fold (v2p st (ptm_map a) addr) in Ep. run Ep. destruct (Z.eqb_spec p BAD_ADDRESS) as [->|Hne].
  - destruct (pagefault_ok a st R D addr HI Hu (Hanon Ep) Ep) as [E|(f & st' & E & Hp & Hf & Ev & _ & _ & Hpi)]; run E; [by left|right].
    fold (v2p st' (ptm_map a) addr). run Ev. pose proof (mod_page addr).
    rewrite (proj2 (Z.eqb_neq _ BAD_ADDRESS)) by (destruct Hp; unfold BAD_ADDRESS, ARCH_PAGE_GRAN in *; lia).
    exists f, st', ({[f]} ∪ D). split; [done|]. split; [done|]. split; [clear; set_solver|]. done.
  - right. destruct (so_frame _ _ _ _ HI addr p Hu Ep Hne) as (f & Hf & Hp & ->).
    exists f, st, D. split; [done|]. split; [done|]. split; [done|]. split; [done|]. by apply paged_in_refl.
Qed.

(** Writing inside one frame. *)
Lemma write_frame_ok st root R D addr f bs :
  space_ok st root R D -> user_half addr -> phys_page f -> v2p st root addr = Ok (f + addr mod ARCH_PAGE_GRAN) ->
  addr mod ARCH_PAGE_GRAN + Z.of_nat (length bs) <= ARCH_PAGE_GRAN ->
  exists st', kwrite HHDM (u64 (f + addr mod ARCH_PAGE_GRAN + HHDM)) bs st = Ok st' /\ space_ok st' root R D /\
    (forall r v, v2p st' r v = v2p st r v) /\
    (forall x, ~ (f + HHDM <= x < f + HHDM + ARCH_PAGE_GRAN) -> vmem st' !! x = vmem st !! x) /\
    (forall v, user_half v -> ucontent st' root v =
       if decide (addr <= v < addr + Z.of_nat (length bs)) then bs !! Z.to_nat (v - addr) else ucontent st root v).
Proof.
  intros HI Hu Hp Ev Hlen. pose proof (mod_page addr). destruct (frame_u64 f Hp) as [_ Hge].
  assert (u64 (f + addr mod ARCH_PAGE_GRAN + HHDM) = f + addr mod ARCH_PAGE_GRAN + HHDM) as ->.
  { apply u64_small. destruct Hp as (? & ? & _), HH as (? & ? & _). unfold ARCH_PAGE_GRAN in *. lia. }
  rewrite kwrite_ok by lia. set (P := f + addr mod ARCH_PAGE_GRAN + HHDM). eexists. split; [reflexivity|].
  split; [by destruct HI|]. split; [done|]. split.
  { intros x Hx. apply write_bytes_out. unfold P. lia. }
  intros v Hv. unfold ucontent. change (v2p (set_vmem _ st) root v) with (v2p st root v). cbn [vmem set_vmem].
  assert (Hmod : addr <= v < addr + Z.of_nat (length bs) -> same_page v addr /\ v mod ARCH_PAGE_GRAN = addr mod ARCH_PAGE_GRAN + (v - addr)).
  { intros Hr. clear - Hr Hlen. unfold same_page, ARCH_PAGE_GRAN in *. split; dlia. }
  destruct (decide (addr <= v < addr + Z.of_nat (length bs))) as [Hr|Hr].
  - destruct (Hmod Hr) as [Hs Em]. unfold v2p in *.
    rewrite (pm_same_page _ _ _ root addr v _ (so_state _ _ _ _ HI) (so_root _ _ _ _ HI) (user_canonical _ Hu) (user_canonical _ Hv) (eq_sym Hs) Ev).
    rewrite (proj2 (Z.eqb_neq (f + _) BAD_ADDRESS)) by (destruct Hp; unfold BAD_ADDRESS, ARCH_PAGE_GRAN in *; lia).
    rewrite (proj2 (Z.eqb_neq _ BAD_ADDRESS)) by (destruct Hp; unfold BAD_ADDRESS, ARCH_PAGE_GRAN in *; lia).
    destruct (lookup_lt_is_Some_2 bs (Z.to_nat (v - addr))) as [b Hb]; [lia|]. rewrite Hb.
    pose proof (write_bytes_at (vmem st) P bs _ _ Hb) as Hw. rewrite <- Hw. f_equal. unfold P. lia.
  - destruct (v2p st root v) as [p| | |] eqn:Ep; try done. destruct (Z.eqb_spec p BAD_ADDRESS) as [|Hne]; [done|].
    destruct (so_frame _ _ _ _ HI v p Hv Ep Hne) as (g & Hg & Hpg & ->). pose proof (mod_page v).
    apply write_bytes_out. destruct (decide (f = g)) as [->|Hfg].
    + pose proof (so_inj _ _ _ _ HI v addr g Hv Hu Hpg Ep Ev) as Hs. unfold P, same_page, ARCH_PAGE_GRAN in *. dlia.
    + unfold P. destruct Hp as (_ & _ & [k ->]), Hpg as (_ & _ & [l ->]). unfold ARCH_PAGE_GRAN in *.
      assert (k < l \/ l < k) as [?|?] by lia; [right|left]; lia.
Qed.

(** One iteration of the copy loops: bring in the page, then write. *)
Lemma store_step a st R D addr bs :
  space_ok st (ptm_map a) R D -> user_half addr -> (v2p st (ptm_map a) addr = Ok BAD_ADDRESS -> anon_at a addr) ->
  addr mod ARCH_PAGE_GRAN + Z.of_nat (length bs) <= ARCH_PAGE_GRAN ->
  fault_in HHDM a addr st = Panic \/
  exists f st1 st2 D', fault_in HHDM a addr st = Ok (f + addr mod ARCH_PAGE_GRAN, st1) /\ paged_in st st1 (ptm_map a) R D D' /\
    kwrite HHDM (u64 (f + addr mod ARCH_PAGE_GRAN + HHDM)) bs st1 = Ok st2 /\ space_ok st2 (ptm_map a) R D' /\
    v2p st1 (ptm_map a) addr = Ok (f + addr mod ARCH_PAGE_GRAN) /\ phys_page f /\
    (forall r v, v2p st2 r v = v2p st1 r v) /\
    (forall x, ~ (f + HHDM <= x < f + HHDM + ARCH_PAGE_GRAN) -> vmem st2 !! x = vmem st1 !! x) /\
    (forall v, user_half v -> ucontent st2 (ptm_map a) v =
       if decide (addr <= v < addr + Z.of_nat (length bs)) then bs !! Z.to_nat (v - addr) else ucontent st (ptm_map a) v).
Proof.
  intros HI Hu Hanon Hlen. destruct (fault_in_ok a st R D addr HI Hu Hanon) as [E|(f & st1 & D' & E & Hp & Hf & Ev & Hpi)]; [by left|right].
  destruct (write_frame_ok st1 (ptm_map a) R D' addr f bs (pi_space _ _ _ _ _ _ Hpi) Hu Hp Ev Hlen) as (st2 & E2 & HI2 & Hv2 & Hm2 & Hc2).
  exists f, st1, st2, D'. split; [done|]. split; [done|]. split; [done|]. split; [done|]. split; [done|]. split; [done|].
  split; [done|]. split; [done|]. intros v Hv. rewrite Hc2 by done. by rewrite (pi_content _ _ _ _ _ _ Hpi) by done.
Qed.

(** *** The copy loops *)

Definition covered (a : vmm_addr_space_t) st (dest count : Z) : Prop :=
  forall v, dest <= v < dest + count -> v2p st (ptm_map a) v = Ok BAD_ADDRESS -> anon_at a v.

(** The source byte at [x] is in no frame of the destination, now or later. *)
Definition src_ok st (root : Z) (D : gset Z) (dest count x : Z) : Prop :=
  stable D x /\ forall v f, dest <= v < dest + count -> phys_page f -> v2p st root v = Ok (f + v mod ARCH_PAGE_GRAN) ->
    ~ (f + HHDM <= x < f + HHDM + ARCH_PAGE_GRAN).

Lemma frame_not_bad f v : phys_page f -> f + v mod ARCH_PAGE_GRAN <> BAD_ADDRESS.
Proof. intros (? & ? & _). pose proof (mod_page v). unfold BAD_ADDRESS, ARCH_PAGE_GRAN in *. lia. Qed.

Lemma covered_paged_in a st st' R D D' dest count : 0 <= dest -> dest + count <= 2 ^ 47 ->
  paged_in st st' (ptm_map a) R D D' -> covered a st dest count -> covered a st' dest count.
Proof.
  intros Hd Hc Hpi Hcov v Hv Ebad. apply Hcov; [done|].
  destruct (pi_map _ _ _ _ _ _ Hpi v) as [<-|(? & f & _ & Hp & E)]; [unfold user_half; lia|done|done].
Qed.

Lemma src_paged_in st st' root R D D' dest count x : 0 <= dest -> dest + count <= 2 ^ 47 ->
  paged_in st st' root R D D' -> src_ok st root D dest count x -> src_ok st' root D' dest count x.
Proof.
  intros Hd Hc Hpi [Hs Hf]. split; [by eapply stable_weaken, Hs; destruct Hpi|]. intros v f Hv Hp Ev.
  destruct (pi_map _ _ _ _ _ _ Hpi v) as [E|(_ & g & Hg & Hpg & E)]; [unfold user_half; lia| |].
  - apply (Hf v f); [done|done|congruence].
  - rewrite E in Ev. injection Ev as Ev. assert (f = g) as -> by lia. by apply Hs.
Qed.

(** The part of the range one iteration covers. *)
Lemma chunk_size dest count i : 0 <= dest -> dest + count <= 2 ^ 47 -> 0 <= i < count ->
  let addr := u64 (dest + i) in let n := MIN (count - i) (ARCH_PAGE_GRAN - addr mod ARCH_PAGE_GRAN) in
  addr = dest + i /\ user_half addr /\ 0 < n <= count - i /\ addr mod ARCH_PAGE_GRAN + n <= ARCH_PAGE_GRAN.
Proof.
  intros Hd Hc Hi addr n. assert (addr = dest + i) as E by (apply u64_small; lia). pose proof (mod_page addr).
  split; [done|]. unfold user_half, n, MIN in *. destruct (Z.ltb_spec (count - i) (ARCH_PAGE_GRAN - addr mod ARCH_PAGE_GRAN)); lia.
Qed.

(** Content after one chunk and the rest of the range. *)
Lemma chunk_content (data : list Z) (n : nat) (A v : Z) (old : option Z) : (n <= length data)%nat ->
  (if decide (A + Z.of_nat n <= v < A + Z.of_nat (length data)) then drop n data !! Z.to_nat (v - (A + Z.of_nat n))
   else if decide (A <= v < A + Z.of_nat n) then take n data !! Z.to_nat (v - A) else old) =
  (if decide (A <= v < A + Z.of_nat (length data)) then data !! Z.to_nat (v - A) else old).
Proof.
  intros Hn. destruct (decide (A + Z.of_nat n <= v < _)).
  - rewrite decide_True by lia. rewrite lookup_drop. f_equal. lia.
  - destruct (decide (A <= v < A + Z.of_nat n)).
    + rewrite decide_True by lia. apply lookup_take_lt. lia.
    + by rewrite decide_False by lia.
Qed.

Lemma copy_loop_ok a R dest count : 0 <= dest -> dest + count <= 2 ^ 47 -> forall fuel i src st D data,
  space_ok st (ptm_map a) R D -> 0 <= i <= count -> count - i <= Z.of_nat fuel -> Z.of_nat (length data) = count - i ->
  bytes_at (vmem st) src data -> covered a st dest count ->
  (forall j, 0 <= j < count - i -> src_ok st (ptm_map a) D dest count (src + j)) ->
  copy_loop HHDM fuel a dest src count i st = Panic \/
  exists st' D', copy_loop HHDM fuel a dest src count i st = Ok (count, st') /\ space_ok st' (ptm_map a) R D' /\ D ⊆ D' /\
    (forall r v, r ∈ R -> r <> ptm_map a -> user_half v -> v2p st' r v = v2p st r v) /\
    (forall v, user_half v -> ucontent st' (ptm_map a) v =
       if decide (dest + i <= v < dest + i + Z.of_nat (length data)) then data !! Z.to_nat (v - (dest + i))
       else ucontent st (ptm_map a) v).
Proof.
  intros Hd Hc. induction fuel as [|fuel IH]; intros i src st D data HI Hi Hfuel Hlen Hsrc Hcov Hok; cbn [copy_loop].
  - rewrite (proj2 (Z.ltb_ge i count)) by lia. assert (i = count) as -> by lia. right. exists st, D.
    split; [done|]. split; [done|]. split; [done|]. split; [done|]. intros v _. by rewrite decide_False by lia.
  - destruct (Z.ltb_spec i count); cycle 1.
    { assert (i = count) as -> by lia. right. exists st, D. split; [done|]. split; [done|]. split; [done|]. split; [done|].
      intros v _. by rewrite decide_False by lia. }
    destruct (chunk_size dest count i Hd Hc ltac:(lia)) as (Ea & Hu & Hn & Hfit). cbv zeta in *.
    set (addr := u64 (dest + i)) in *. set (n := MIN _ _) in *. clearbody n.
    assert (Hln : Z.of_nat (length (take (Z.to_nat n) data)) = n) by (rewrite length_take; lia).
    destruct (store_step a st R D addr (take (Z.to_nat n) data) HI Hu) as
      [E|(f & st1 & st2 & D' & E & Hpi & E2 & HI2 & Ev & Hp & Hv2 & Hm2 & Hc2)];
      [intros Hb; apply Hcov; [lia|done]|lia| |]; run E; [by left|].
    assert (Hok1 : forall j, 0 <= j < count - i -> src_ok st1 (ptm_map a) D' dest count (src + j))
      by (intros j Hj; by eapply src_paged_in, Hok).
    assert (Hsrc1 : bytes_at (vmem st1) src data).
    { intros j b Hj. rewrite (pi_mem _ _ _ _ _ _ Hpi); [by apply Hsrc|]. apply lookup_lt_Some in Hj. apply Hok. lia. }
    rewrite <- (take_drop (Z.to_nat n) data) in Hsrc1. apply bytes_at_app in Hsrc1 as [Hs1 Hs2].
    rewrite Hln in Hs2. apply kread_ok in Hs1. rewrite length_take, Nat.min_l in Hs1 by lia. run Hs1. run E2.
    destruct (IH (i + n) (src + n) st2 D' (drop (Z.to_nat n) data)) as [E3|(st' & D'' & E3 & HI3 & Hsub3 & Hr3 & Hc3)].
    + done.
    + lia.
    + lia.
    + rewrite length_drop. lia.
    + intros j b Hj. rewrite Hm2; [by apply Hs2|]. apply lookup_lt_Some in Hj. rewrite length_drop in Hj.
      replace (src + n + Z.of_nat j) with (src + (n + Z.of_nat j)) by lia. apply (Hok1 (n + Z.of_nat j)) with (v := addr); [lia|lia|done|done].
    + intros v Hv Hb. rewrite Hv2 in Hb. by eapply covered_paged_in; [..|exact Hcov| |].
    + intros j Hj. destruct (Hok1 (n + j)) as [Hst Hfr]; [lia|]. rewrite Z.add_assoc in Hst, Hfr. split; [done|].
      intros v g Hv Hg Eg. rewrite Hv2 in Eg. by apply (Hfr v g).
    + by left.
    + right. exists st', D''. split; [done|]. split; [done|]. split; [etrans; [by destruct Hpi|done]|]. split.
      * intros r v Hr Hne Hv. rewrite Hr3, Hv2 by done. by apply (pi_other _ _ _ _ _ _ Hpi).
      * intros v Hv. rewrite Hc3, Hc2 by done. rewrite Hln. rewrite Ea.
        replace (dest + (i + n)) with (dest + i + Z.of_nat (Z.to_nat n)) by lia.
        replace (dest + i + n) with (dest + i + Z.of_nat (Z.to_nat n)) by lia.
        rewrite <- (chunk_content data (Z.to_nat n) (dest + i) v) by lia.
        replace (dest + i + Z.of_nat (Z.to_nat n) + Z.of_nat (length (drop (Z.to_nat n) data)))
          with (dest + i + Z.of_nat (length data)) by (rewrite length_drop; lia). done.
Qed.

Lemma zero_loop_ok a R dest count : 0 <= dest -> dest + count <= 2 ^ 47 -> forall fuel i st D,
  space_ok st (ptm_map a) R D -> 0 <= i <= count -> count - i <= Z.of_nat fuel -> covered a st dest count ->
  zero_loop HHDM fuel a dest count i st = Panic \/
  exists st' D', zero_loop HHDM fuel a dest count i st = Ok (count, st') /\ space_ok st' (ptm_map a) R D' /\ D ⊆ D' /\
    (forall r v, r ∈ R -> r <> ptm_map a -> user_half v -> v2p st' r v = v2p st r v) /\
    (forall v, user_half v -> ucontent st' (ptm_map a) v =
       if decide (dest + i <= v < dest + count) then Some 0 else ucontent st (ptm_map a) v).
Proof.
  intros Hd Hc. induction fuel as [|fuel IH]; intros i st D HI Hi Hfuel Hcov; cbn [zero_loop].
  - rewrite (proj2 (Z.ltb_ge i count)) by lia. assert (i = count) as -> by lia. right. exists st, D.
    split; [done|]. split; [done|]. split; [done|]. split; [done|]. intros v _. by rewrite decide_False by lia.
  - destruct (Z.ltb_spec i count); cycle 1.
    { assert (i = count) as -> by lia. right. exists st, D. split; [done|]. split; [done|]. split; [done|]. split; [done|].
      intros v _. by rewrite decide_False by lia. }
    destruct (chunk_size dest count i Hd Hc ltac:(lia)) as (Ea & Hu & Hn & Hfit). cbv zeta in *.
    set (addr := u64 (dest + i)) in *. set (n := MIN _ _) in *. clearbody n.
    pose proof (zeroes_len n ltac:(lia)) as Hln.
    destruct (store_step a st R D addr (zeroes n) HI Hu) as
      [E|(f & st1 & st2 & D' & E & Hpi & E2 & HI2 & Ev & Hp & Hv2 & Hm2 & Hc2)];
      [intros Hb; apply Hcov; [lia|done]|lia| |]; run E; [by left|]. run E2.
    destruct (IH (i + n) st2 D') as [E3|(st' & D'' & E3 & HI3 & Hsub3 & Hr3 & Hc3)].
    + done.
    + lia.
    + lia.
    + intros v Hv Hb. rewrite Hv2 in Hb. by eapply covered_paged_in; [..|exact Hcov| |].
    + by left.
    + right. exists st', D''. split; [done|]. split; [done|]. split; [etrans; [by destruct Hpi|done]|]. split.
      * intros r v Hr Hne Hv. rewrite Hr3, Hv2 by done. by apply (pi_other _ _ _ _ _ _ Hpi).
      * intros v Hv. rewrite Hc3, Hc2 by done. rewrite Hln, Ea.
        destruct (decide (dest + (i + n) <= v < dest + count)); [by rewrite decide_True by lia|].
        destruct (decide (dest + i <= v < dest + i + n)).
        -- rewrite decide_True by lia. apply zeroes_lookup. lia.
        -- by rewrite decide_False by lia.
Qed.

(** *** Populating a mapping *)

Lemma populate_ok root R virt n flags vn off : user_half virt -> virt + n <= 2 ^ 47 -> (ARCH_PAGE_GRAN | virt) -> (ARCH_PAGE_GRAN | n) ->
  has_flag flags VMM_MAP_PRIVATE = true -> has_flag flags VMM_MAP_ANON = true -> forall fuel i st D,
  space_ok st root R D -> 0 <= i <= n -> (ARCH_PAGE_GRAN | i) -> n - i <= Z.of_nat fuel * ARCH_PAGE_GRAN ->
  (forall v, virt + i <= v < virt + n -> v2p st root v = Ok BAD_ADDRESS) ->
  populate HHDM fuel root virt n flags vn off i st = Panic \/
  exists st' D', populate HHDM fuel root virt n flags vn off i st = Ok st' /\ paged_in st st' root R D D' /\ objs st' = objs st /\ files st' = files st /\
    (forall v, user_half v -> ~ virt + i <= v < virt + n -> v2p st' root v = v2p st root v) /\
    (forall v, virt + i <= v < virt + n -> v2p st' root v <> Ok BAD_ADDRESS).
Proof.
  intros Hu Hr Hav Han Hpriv Hanon. induction fuel as [|fuel IH]; intros i st D HI Hi Hai Hfuel Habs; cbn [populate].
  - rewrite (proj2 (Z.ltb_ge i n)) by lia. right. exists st, D. split; [done|]. split; [by apply paged_in_refl|]. split; [done|]. split; [done|]. split; [done|]. intros v Hv. lia.
  - destruct (Z.ltb_spec i n); cycle 1.
    { right. exists st, D. split; [done|]. split; [by apply paged_in_refl|]. split; [done|]. split; [done|]. split; [done|]. intros v Hv. lia. }
    unfold user_half in Hu. rewrite Hpriv, (u64_small (virt + i)) by lia.
    assert (i + ARCH_PAGE_GRAN <= n) as Hstep.
    { destruct Hai as [k ->], Han as [l ->]. unfold ARCH_PAGE_GRAN in *. lia. }
    assert (u64 (i + ARCH_PAGE_GRAN) = i + ARCH_PAGE_GRAN) as -> by (apply u64_small; unfold ARCH_PAGE_GRAN in *; lia).
    assert (user_half (virt + i)) as Hui by (unfold user_half; lia).
    assert (Hsp : forall v, same_page v (virt + i) <-> virt + i <= v < virt + i + ARCH_PAGE_GRAN).
    { intros v. destruct Hav as [k ->], Hai as [l ->]. unfold same_page, ARCH_PAGE_GRAN. clear. dlia. }
    destruct (map_private_anon st root R D (virt + i) flags vn (u64 (off + i)) HI Hui) as
      [E|(f & st1 & E & Hf & Hp & HI1 & Ho1 & Hf1 & Hin & Hout & Hoth & Hmem & Hc)];
      [by apply Z.divide_add_r|apply Habs; lia|done| |]; run E; [by left|].
    assert (Hpi : paged_in st st1 root R D ({[f]} ∪ D)).
    { split; [done|clear; set_solver| |done|intros x Hx; by apply Hmem, Hx|done]. intros v Hv.
      destruct (decide (same_page v (virt + i))) as [Hs|Hs]; [right|left; by apply Hout].
      split; [|exists f; split_and!; [done|done|by apply Hin]]. apply Habs. apply Hsp in Hs. lia. }
    destruct (IH (i + ARCH_PAGE_GRAN) st1 ({[f]} ∪ D) HI1) as [E2|(st2 & D2 & E2 & Hpi2 & Ho2 & Hf2 & Hkeep & Hpres)].
    + unfold ARCH_PAGE_GRAN in *. lia.
    + apply Z.divide_add_r; [done|by exists 1].
    + lia.
    + intros v Hv. rewrite Hout; [apply Habs; unfold ARCH_PAGE_GRAN in *; lia|unfold user_half; unfold ARCH_PAGE_GRAN in *; lia|].
      rewrite Hsp. lia.
    + by left.
    + right. exists st2, D2. split; [done|]. split; [|split; [congruence|split; [congruence|split]]].
      * split; [by destruct Hpi2|etrans; [by destruct Hpi|by destruct Hpi2]| | | |].
        -- intros v Hv. destruct (pi_map _ _ _ _ _ _ Hpi2 v Hv) as [->|(E1 & g & Hg & Hpg & E3)].
           ++ by apply (pi_map _ _ _ _ _ _ Hpi).
           ++ right. destruct (pi_map _ _ _ _ _ _ Hpi v Hv) as [<-|(_ & g' & _ & Hp' & E4)].
              ** split; [done|]. exists g. split_and!; try done. clear - Hg. set_solver.
              ** rewrite E4 in E1. injection E1 as E1. by destruct (frame_not_bad g' v Hp').
        -- intros r v Hr' Hne Hv. rewrite (pi_other _ _ _ _ _ _ Hpi2) by done. by apply Hoth.
        -- intros x Hx. rewrite (pi_mem _ _ _ _ _ _ Hpi2); [by apply Hmem, Hx|].
           eapply stable_weaken; [|exact Hx]. clear. set_solver.
        -- intros v Hv. rewrite (pi_content _ _ _ _ _ _ Hpi2) by done. by apply Hc.
      * intros v Hv Hn. rewrite Hkeep by (done || unfold ARCH_PAGE_GRAN; lia). apply Hout; [done|]. rewrite Hsp. unfold ARCH_PAGE_GRAN in *. lia.
      * intros v Hv. destruct (decide (virt + (i + ARCH_PAGE_GRAN) <= v)) as [Hge|Hlt]; [apply Hpres; lia|].
        assert (user_half v) as Huv by (unfold user_half; lia).
        assert (v2p st1 root v = Ok (f + v mod ARCH_PAGE_GRAN)) as E1 by (apply Hin; [done|apply Hsp; lia]).
        destruct (pi_map _ _ _ _ _ _ Hpi2 v Huv) as [->|(_ & g & _ & Hpg & ->)]; [rewrite E1|]; intros [= Hb];
          by eapply frame_not_bad; [|exact Hb].
Qed.

(** *** Copying to pages that are present *)

Lemma kwrite_same st p bs st' : kwrite HHDM p bs st = Ok st' -> vm st' = vm st /\ objs st' = objs st /\ files st' = files st.
Proof. unfold kwrite. destruct bs; [by intros [= <-]|]. destruct (p <? HHDM); [done|]. by intros [= <-]. Qed.

(** The byte at [x] is in no frame behind the range. *)
Definition off_range st (root dest count x : Z) : Prop := forall v f, dest <= v < dest + count -> phys_page f ->
  v2p st root v = Ok (f + v mod ARCH_PAGE_GRAN) -> ~ (f + HHDM <= x < f + HHDM + ARCH_PAGE_GRAN).

Lemma copy_present_ok a R D dest count : 0 <= dest -> dest + count <= 2 ^ 47 -> forall fuel i src st data,
  space_ok st (ptm_map a) R D -> 0 <= i <= count -> count - i <= Z.of_nat fuel -> Z.of_nat (length data) = count - i ->
  bytes_at (vmem st) src data -> (forall v, dest <= v < dest + count -> v2p st (ptm_map a) v <> Ok BAD_ADDRESS) ->
  (forall j, 0 <= j < count - i -> off_range st (ptm_map a) dest count (src + j)) ->
  exists st', copy_loop HHDM fuel a dest src count i st = Ok (count, st') /\ space_ok st' (ptm_map a) R D /\
    vm st' = vm st /\ objs st' = objs st /\ files st' = files st /\
    (forall x, off_range st (ptm_map a) dest count x -> vmem st' !! x = vmem st !! x) /\
    (forall v, user_half v -> ucontent st' (ptm_map a) v =
       if decide (dest + i <= v < dest + i + Z.of_nat (length data)) then data !! Z.to_nat (v - (dest + i))
       else ucontent st (ptm_map a) v).
Proof.
  intros Hd Hc. induction fuel as [|fuel IH]; intros i src st data HI Hi Hfuel Hlen Hsrc Hpres Hoff; cbn [copy_loop].
  - rewrite (proj2 (Z.ltb_ge i count)) by lia. assert (i = count) as -> by lia. exists st.
    split; [done|]. split; [done|]. split; [done|]. split; [done|]. split; [done|]. split; [done|]. intros v _. by rewrite decide_False by lia.
  - destruct (Z.ltb_spec i count); cycle 1.
    { assert (i = count) as -> by lia. exists st. split; [done|]. split; [done|]. split; [done|]. split; [done|]. split; [done|]. split; [done|].
      intros v _. by rewrite decide_False by lia. }
    destruct (chunk_size dest count i Hd Hc ltac:(lia)) as (Ea & Hu & Hn & Hfit). cbv zeta in *.
    set (addr := u64 (dest + i)) in *. set (n := MIN _ _) in *. clearbody n.
    assert (Hln : Z.of_nat (length (take (Z.to_nat n) data)) = n) by (rewrite length_take; lia).
    destruct (pm_virt_to_phys_total _ _ _ (ptm_map a) addr (so_state _ _ _ _ HI) (so_root _ _ _ _ HI)) as [p Ep].
    assert (p <> BAD_ADDRESS) as Hne by (intros ->; apply (Hpres addr); [lia|done]).
    destruct (so_frame _ _ _ _ HI addr p Hu Ep Hne) as (f & Hf & Hp & ->).
    unfold fault_in, vmm_virt_to_phys. run Ep. rewrite (proj2 (Z.eqb_neq _ _) Hne). go.
    pose proof Hsrc as Hs. rewrite <- (take_drop (Z.to_nat n) data) in Hs. apply bytes_at_app in Hs as [Hs1 Hs2]. rewrite Hln in Hs2.
    apply kread_ok in Hs1. rewrite length_take, Nat.min_l in Hs1 by lia. run Hs1.
    destruct (write_frame_ok st (ptm_map a) R D addr f (take (Z.to_nat n) data) HI Hu Hp Ep ltac:(lia)) as (st2 & E2 & HI2 & Hv2 & Hm2 & Hc2).
    run E2. destruct (kwrite_same _ _ _ _ E2) as (Hvm2 & Ho2 & Hf2).
    destruct (IH (i + n) (src + n) st2 (drop (Z.to_nat n) data)) as (st' & E3 & HI3 & Hvm3 & Ho3 & Hf3 & Hm3 & Hc3).
    + done.
    + lia.
    + lia.
    + rewrite length_drop. lia.
    + intros j b Hj. rewrite Hm2; [by apply Hs2|]. apply lookup_lt_Some in Hj. rewrite length_drop in Hj.
      replace (src + n + Z.of_nat j) with (src + (n + Z.of_nat j)) by lia. apply (Hoff (n + Z.of_nat j)) with (v := addr); [lia|lia|done|done].
    + intros v Hv. rewrite Hv2. by apply Hpres.
    + intros j Hj v g Hv Hg Eg. rewrite Hv2 in Eg. replace (src + n + j) with (src + (n + j)) by lia. by apply (Hoff (n + j) ltac:(lia) v g).
    + exists st'. split; [done|]. split; [done|]. split; [congruence|]. split; [congruence|]. split; [congruence|]. split.
      { intros x Hx. rewrite Hm3; [apply Hm2; by apply (Hx addr f ltac:(lia))|]. intros v g Hv Hg Eg. rewrite Hv2 in Eg. by apply (Hx v g). }
      intros v Hv. rewrite Hc3, Hc2 by done. rewrite Hln, Ea.
      replace (dest + (i + n)) with (dest + i + Z.of_nat (Z.to_nat n)) by lia.
      replace (dest + i + n) with (dest + i + Z.of_nat (Z.to_nat n)) by lia.
      rewrite <- (chunk_content data (Z.to_nat n) (dest + i) v) by lia.
      replace (dest + i + Z.of_nat (Z.to_nat n) + Z.of_nat (length (drop (Z.to_nat n) data)))
        with (dest + i + Z.of_nat (length data)) by (rewrite length_drop; lia). done.
Qed.

(** *** Kernel mappings *)

Lemma map_range_ok root R D virt phys n : canonical virt -> canonical (virt + n - 1) -> 0 <= phys -> phys + n <= 2 ^ 46 ->
  (virt < 2 ^ 47 <-> virt + n - 1 < 2 ^ 47) ->
  (ARCH_PAGE_GRAN | virt) -> (ARCH_PAGE_GRAN | phys) -> (ARCH_PAGE_GRAN | n) -> root ∈ R -> forall fuel i m,
  pm_state m R D -> 0 <= i <= n -> (ARCH_PAGE_GRAN | i) -> n - i <= Z.of_nat fuel * ARCH_PAGE_GRAN ->
  map_range fuel root virt phys n i m = Panic \/
  exists m', map_range fuel root virt phys n i m = Ok m' /\ pm_state m' R D /\
    (forall v, virt + i <= v < virt + n -> pm_virt_to_phys root v m' = Ok (phys + (v - virt))) /\
    (forall v, canonical v -> ~ (virt + i <= v < virt + n) -> pm_virt_to_phys root v m' = pm_virt_to_phys root v m).
Proof.
  intros Hc1 Hc2 Hp0 Hp1 Hhalf Hav Hap Han Hr. induction fuel as [|fuel IH]; intros i m Hst Hi Hai Hfuel; cbn [map_range].
  - rewrite (proj2 (Z.ltb_ge i n)) by lia. right. exists m. split; [done|]. split; [done|]. split; [|done]. intros v Hv. lia.
  - destruct (Z.ltb_spec i n); cycle 1.
    { right. exists m. split; [done|]. split; [done|]. split; [|done]. intros v Hv. lia. }
    assert (i + ARCH_PAGE_GRAN <= n) as Hstep.
    { destruct Hai as [k ->], Han as [l ->]. unfold ARCH_PAGE_GRAN in *. lia. }
    assert (Hcan : forall v, virt <= v < virt + n -> canonical v) by (unfold canonical in *; intros; lia).
    assert (Hcv : canonical (virt + i)) by (apply Hcan; lia).
    assert (0 <= virt + i < 2 ^ 64) as Hrng by (unfold canonical in Hcv; lia).
    rewrite (u64_small (virt + i)), (u64_small (phys + i)) by (unfold ARCH_PAGE_GRAN in *; lia).
    assert (u64 (i + ARCH_PAGE_GRAN) = i + ARCH_PAGE_GRAN) as -> by (apply u64_small; unfold ARCH_PAGE_GRAN in *; lia).
    assert (phys_page (phys + i)) as Hpp by (split; [lia|]; split; [lia|by apply Z.divide_add_r]).
    assert (Hsp : forall v, same_page v (virt + i) <-> virt + i <= v < virt + i + ARCH_PAGE_GRAN).
    { intros v. destruct Hav as [k ->], Hai as [l ->]. unfold same_page, ARCH_PAGE_GRAN. clear. dlia. }
    destruct (pm_map_spec m R D root (virt + i) (phys + i) Hst Hr Hcv) as [E|(m1 & E & Hst1 & Hin & Hout & _)];
      [by apply Z.divide_add_r|done| |]; run E; [by left|].
    destruct (IH (i + ARCH_PAGE_GRAN) m1 Hst1) as [E2|(m2 & E2 & Hst2 & Hin2 & Hout2)].
    + unfold ARCH_PAGE_GRAN in *. lia.
    + apply Z.divide_add_r; [done|by exists 1].
    + lia.
    + by left.
    + right. exists m2. split; [done|]. split; [done|]. split.
      * intros v Hv. destruct (decide (virt + (i + ARCH_PAGE_GRAN) <= v)) as [|Hlt]; [apply Hin2; lia|].
        rewrite Hout2 by (lia || (apply Hcan; lia)). rewrite Hin by (apply Hsp || apply Hcan; lia). f_equal.
        destruct Hav as [k ->], Hai as [l ->]. unfold ARCH_PAGE_GRAN in *. clear - Hv Hlt. dlia.
      * intros v Hv Hn. rewrite Hout2 by (done || (unfold ARCH_PAGE_GRAN in *; lia)). apply Hout; [done|]. rewrite Hsp. lia.
Qed.
End paging.



(** [vmm_zero_out] likewise returns the full count or runs out of pages, and
    zeroes exactly the range. *)
Theorem vmm_zero_out_correct {M K V : Type} `{PageMap M} `{ObjectAllocator K} `{Files V} (HHDM : Z)
    (a : vmm_addr_space_t) (st : vstate M K V) R D dest count :
  hhdm_ok HHDM -> space_ok st (ptm_map a) R D -> 0 <= dest -> 0 <= count -> dest + count <= 2 ^ 47 -> covered a st dest count ->
  vmm_zero_out HHDM a dest count st = Panic \/
  exists st' D', vmm_zero_out HHDM a dest count st = Ok (count, st') /\ space_ok st' (ptm_map a) R D' /\
    (forall r v, r ∈ R -> r <> ptm_map a -> user_half v -> v2p st' r v = v2p st r v) /\
    (forall v, user_half v -> ucontent HHDM st' (ptm_map a) v =
       if decide (dest <= v < dest + count) then Some 0 else ucontent HHDM st (ptm_map a) v).
Proof.
  intros HH HI Hd Hc0 Hc Hcov. unfold vmm_zero_out.
  destruct (zero_loop_ok HHDM HH a R dest count Hd Hc (Z.to_nat count) 0 st D)
    as [E|(st' & D' & E & HI' & _ & Hr & Hct)]; try done; try lia; [by left|right].
  rewrite Z.add_0_r in Hct. by exists st', D'.
Qed.

(** [vmm_map_kernel] of an aligned range either runs out of memory or records
    one kernel segment and makes exactly the range translate linearly to the
    physical range, leaving every other address of the address space as it was. *)
Theorem vmm_map_kernel_correct {M K V : Type} `{PageMap M} `{ObjectAllocator K} `{Files V}
    (a : vmm_addr_space_t) (st : vstate M K V) R D U virt n prot phys :
  pm_state (vm st) R D -> ptm_map a ∈ R -> oa_state (objs st) U ->
  0 < n -> canonical virt -> canonical (virt + n - 1) -> (virt < 2 ^ 47 <-> virt + n - 1 < 2 ^ 47) ->
  0 <= phys -> phys + n <= 2 ^ 46 ->
  (ARCH_PAGE_GRAN | virt) -> (ARCH_PAGE_GRAN | phys) -> (ARCH_PAGE_GRAN | n) ->
  vmm_map_kernel a virt n prot phys st = Panic \/
  exists o a' st', vmm_map_kernel a virt n prot phys st = Ok (a', st') /\ pm_state (vm st') R D /\ vmem st' = vmem st /\
    segments a' ≡ₚ Seg o VMM_SEG_KERNEL virt n prot 0 NULL 0 :: segments a /\ oa_state (objs st') ({[o]} ∪ U) /\ o ∉ U /\
    (forall v, virt <= v < virt + n -> vmm_virt_to_phys a' v st' = Ok (phys + (v - virt))) /\
    (forall v, canonical v -> ~ (virt <= v < virt + n) -> vmm_virt_to_phys a' v st' = vmm_virt_to_phys a v st).
Proof.
  intros Hst Hr HU Hn Hc1 Hc2 Hhalf Hp0 Hp1 Hav Hap Han. unfold vmm_map_kernel.
  pose proof Hav as Hav'. pose proof Han as Han'. apply Z.mod_divide in Hav', Han'; [|done..]. rewrite Hav', Han'. go.
  destruct (obj_alloc_spec _ U sizeof_seg HU) as [E|(o & k & E & HU' & Ho & _)]; [unfold sizeof_seg; lia| |]; run E; [by left|].
  destruct (map_range_ok (ptm_map a) R D virt phys n Hc1 Hc2 Hp0 Hp1 Hhalf Hav Hap Han Hr
    (Z.to_nat (n / ARCH_PAGE_GRAN)) 0 (vm st) Hst) as [E2|(m & E2 & Hst2 & Hin & Hout)].
  - lia.
  - apply Z.divide_0_r.
  - destruct Han as [q ->]. unfold ARCH_PAGE_GRAN in *. rewrite Z.div_mul by lia. lia.
  - cbn [ptm_map vmm_insert_seg set_segments]. run E2. by left.
  - cbn [ptm_map vmm_insert_seg set_segments]. run E2. right. rewrite Z.add_0_r in Hin, Hout.
    exists o. eexists _, _. split; [reflexivity|]. split; [done|]. split; [done|]. split; [apply insert_perm|].
    split; [done|]. split; [done|]. split; done.
Qed.

(** ** Concrete runs *)

Definition ex_higher : list Z := replicate 256 0.

#[export] Instance ex_page_map : PageMap (tstate bump) := x86_page_map ex_HH ex_hhdm ex_higher.

Lemma ex_x86_state : x86_state ex_HH ex_higher ex_tabs {[ex_root]} ∅.
Proof.
  exists {[ex_root := 3%nat]}. split; [exact ex_tabs_ok|]. split; [intros r ->%elem_of_singleton; apply lookup_singleton_eq|].
  split; [apply length_replicate|]. intros j e [-> _]%lookup_replicate Hp. done.
Qed.

(** One address space with a private anonymous segment of 16 pages, a kernel
    buffer of three bytes outside the direct map. *)
Definition ex_seg : vmm_seg_t := Seg 1024 VMM_SEG_VNODE 0x400000 0x10000 7 5 NULL 0.
Definition ex_space : vmm_addr_space_t := AddrSpace [ex_seg] 0x1000 0x7FFFFFFFEFFF ex_root.
Definition ex_buf : Z := 0xFFFFFFFF80000000.
Definition ex_vm : vstate (tstate bump) fresh rofiles :=
  VState ex_tabs (Fresh 4096 []) (write_bytes ∅ ex_buf [1; 2; 3]) (RoFiles ∅ ∅).

Lemma ex_absent v : v2p ex_vm ex_root v = Ok BAD_ADDRESS.
Proof.
  change (v2p ex_vm ex_root v) with (arch_ptm_virt_to_phys ex_HH ex_root v ex_tabs).
  rewrite (virt_to_phys_ok ex_HH ex_hhdm ∅ ex_tabs _ ex_root v ex_tabs_ok (lookup_singleton_eq _ _)).
  unfold translation. cbn [xlate]. by rewrite ex_no_next by apply index_range.
Qed.

Lemma ex_space_ok : space_ok ex_vm ex_root {[ex_root]} ∅.
Proof.
  split.
  - exact ex_x86_state.
  - by apply elem_of_singleton.
  - intros v p _ E. rewrite ex_absent in E. by injection E as <-.
  - intros v w f _ _ Hf E. rewrite ex_absent in E. injection E as E. by destruct (frame_not_bad f v Hf).
Qed.

Lemma ex_as_ok : as_ok ex_space.
Proof.
  split.
  - split; [done|by exists 1].
  - done.
  - apply Forall_singleton. split; [done|]. split; [done|]. split; [done|]. split; [by exists 0x400|by exists 0x10].
  - repeat constructor.
Qed.

Lemma ex_anon v : 0x400000 <= v < 0x410000 -> anon_at ex_space v.
Proof.
  intros Hv. exists ex_seg. split; [|done]. apply addr_to_seg_ok; [exact ex_as_ok|left|done].
Qed.

Lemma ex_covered n : n <= 0x10000 -> covered ex_space ex_vm 0x400000 n.
Proof. intros Hn v Hv _. apply ex_anon. lia. Qed.



(** Addresses past the direct map are in no frame. *)
Lemma ex_src x : ex_buf <= x -> forall dest count, src_ok ex_HH ex_vm ex_root ∅ dest count x.
Proof.
  intros Hx dest count. assert (forall f, phys_page f -> ~ (f + ex_HH <= x < f + ex_HH + ARCH_PAGE_GRAN)) as Hno.
  { intros f (? & ? & _). unfold ex_buf, ex_HH in *. lia. }
  split; [intros f _; apply Hno|]. intros v f _ Hf _. by apply Hno.
Qed.


Lemma vmm_zero_out_correct_witness :
  vmm_zero_out ex_HH ex_space 0x400FFE 3 ex_vm = Panic \/
  exists st', vmm_zero_out ex_HH ex_space 0x400FFE 3 ex_vm = Ok (3, st') /\ ucontent ex_HH st' ex_root 0x400FFF = Some 0.
Proof.
  destruct (vmm_zero_out_correct ex_HH ex_space ex_vm {[ex_root]} ∅ 0x400FFE 3 ex_hhdm ex_space_ok) as [E|(st' & D' & E & _ & _ & Hc)].
  - done.
  - done.
  - done.
  - intros v Hv _. apply ex_anon. lia.
  - by left.
  - right. exists st'. split; [exact E|]. change (ptm_map ex_space) with ex_root in Hc. clear E.
    rewrite (Hc 0x400FFF) by (unfold user_half; lia). reflexivity.
Defined.

Lemma vmm_map_kernel_correct_witness :
  vmm_map_kernel ex_space 0xFFFFFFFF80000000 0x3000 7 0x100000 ex_vm = Panic \/
  exists a' st', vmm_map_kernel ex_space 0xFFFFFFFF80000000 0x3000 7 0x100000 ex_vm = Ok (a', st') /\
    vmm_virt_to_phys a' 0xFFFFFFFF80001234 st' = Ok 0x101234.
Proof.
  destruct (vmm_map_kernel_correct ex_space ex_vm {[ex_root]} ∅ ∅ 0xFFFFFFFF80000000 0x3000 7 0x100000 (so_state _ _ _ _ ex_space_ok))
    as [E|(o & a' & st' & E & _ & _ & _ & _ & _ & Hin & _)].
  - by apply elem_of_singleton.
  - intros x Hx. by apply elem_of_empty in Hx.
  - done.
  - by right.
  - by right.
  - done.
  - done.
  - done.
  - by exists 0xFFFFFFFF80000.
  - by exists 0x100.
  - by exists 3.
  - by left.
  - right. exists a', st'. split; [exact E|]. clear E. rewrite (Hin 0xFFFFFFFF80001234) by lia. reflexivity.
Defined.

(** [vmm_mmap] does not look at the failure of [vmm_find_space]: when there is no
    room the segment is placed at address 0, outside the limits, and the call
    reports success. *)
Lemma mmap_no_space :
  let a := AddrSpace [Seg 1024 VMM_SEG_VNODE 0x1000 0x3000 7 5 NULL 0] 0x1000 0x4FFF ex_root in
  match vmm_mmap ex_HH a 0x1000 0x2000 7 5 NULL 0 ex_vm with
  | Ok (v, a', _) => (v =? 0) && (length (segments a') =? 2)%nat && negb (vmm_is_in_bounds a' v 0x2000)
  | _ => false
  end = true.
Proof. vm_compute. reflexivity. Qed.

(** A gap of exactly the requested size is not used: [start + len < seg->base]. *)
Lemma find_space_exact_gap :
  vmm_find_space (AddrSpace [Seg 1024 VMM_SEG_VNODE 0x3000 0x1000 7 5 NULL 0] 0x1000 0x9FFF ex_root) 0x2000 = 0x4000.
Proof. reflexivity. Qed.

(** A page of a shared mapping that is not cached yet is read to its physical
    address instead of its address in the direct map. *)
Lemma shared_read_faults :
  let st := VState ex_tabs (Fresh 4096 []) ∅ (RoFiles {[77 := [65; 66; 67]]} ∅) in
  let a := AddrSpace [Seg 1024 VMM_SEG_VNODE 0x400000 0x1000 7 VMM_MAP_SHARED 77 0] 0x1000 0x7FFFFFFFEFFF ex_root in
  match vmm_pagefault_handler ex_HH a 0x400000 st with Fault => true | _ => false end = true.
Proof. vm_compute. reflexivity. Qed.

(** A fault in the middle of a page of a private file mapping reads the file
    from the faulting address on, not from the start of the page. *)
Lemma private_file_fault_offset :
  let st := VState ex_tabs (Fresh 4096 []) ∅ (RoFiles {[77 := [65; 66; 67]]} ∅) in
  let a := AddrSpace [Seg 1024 VMM_SEG_VNODE 0x400000 0x1000 7 VMM_MAP_PRIVATE 77 0] 0x1000 0x7FFFFFFFEFFF ex_root in
  match vmm_pagefault_handler ex_HH a 0x400002 st with
  | Ok (_, st') => bool_decide (ucontent ex_HH st' ex_root 0x400000 = Some 67)
  | _ => false
  end = true.
Proof. vm_compute. reflexivity. Qed.
