(* ===== verification/Nodes.v ===== *)
(** * File system nodes

    The vnodes of kernel/src/fs/vfs.h and the node types the file systems embed
    them in (tmpfs_node_t, initrd_node_t, devfs_node_t), by address.  Names are C
    strings as byte lists: by Strings.string_compare_correct, [strcmp] of two
    names is 0 exactly when the lists are equal.  Child lists are the sequences
    of their nodes. *)
From stdpp Require Import base gmap list fin_maps.
From Stdlib Require Import ZArith Lia.
From S2P Require Import Prelude Interfaces.

(** lib/errno.h, the values the modelled code returns *)
Definition EOK : Z := 0.
Definition EINVAL : Z := 40.
Definition ENOENT : Z := 73.
Definition ENOMEM : Z := 79.
Definition ENOTDIR : Z := 91.
Definition ENOTSUP : Z := 99.

Definition VFS_MAX_NAME_LEN : Z := 64.

Inductive vnode_type_t := VNODE_REG | VNODE_DIR | VNODE_FIFO | VNODE_CHAR | VNODE_BLOCK | VNODE_SOCKET.

#[export] Instance vnode_type_eq_dec : EqDecision vnode_type_t.
Proof. solve_decision. Defined.

(** The operation tables there are. *)
Inductive vnode_ops_t := tmpfs_ops | ustar_file_ops | devfs_ops.

(** What follows the vnode in the node it is part of. *)
Inductive node_body :=
| BareVnode
| TmpfsNode (children pages : list Z)
| InitrdNode (children : list Z) (data : Z)
| DevfsNode (children : list Z).

Record vnode_t := Vnode {
  vn_name : list Z; vn_type : vnode_type_t; vn_size : Z; vn_ops : vnode_ops_t; ref_count : Z; body : node_body
}.

Record fs (S K : Type) := Fs { nodes : gmap Z vnode_t; fmem : mem; fpages : S; fobjs : K }.
Arguments Fs {S K}. Arguments nodes {S K}. Arguments fmem {S K}. Arguments fpages {S K}. Arguments fobjs {S K}.

Definition set_nodes {S K} (ns : gmap Z vnode_t) (st : fs S K) : fs S K := Fs ns (fmem st) (fpages st) (fobjs st).
Definition set_fmem {S K} (m : mem) (st : fs S K) : fs S K := Fs (nodes st) m (fpages st) (fobjs st).
Definition set_fpages {S K} (p : S) (st : fs S K) : fs S K := Fs (nodes st) (fmem st) p (fobjs st).
Definition set_fobjs {S K} (k : K) (st : fs S K) : fs S K := Fs (nodes st) (fmem st) (fpages st) k.

Definition set_body (b : node_body) (n : vnode_t) : vnode_t :=
  Vnode (vn_name n) (vn_type n) (vn_size n) (vn_ops n) (ref_count n) b.
Definition set_refs (r : Z) (n : vnode_t) : vnode_t :=
  Vnode (vn_name n) (vn_type n) (vn_size n) (vn_ops n) r (body n).
Definition set_size (s : Z) (n : vnode_t) : vnode_t :=
  Vnode (vn_name n) (vn_type n) s (vn_ops n) (ref_count n) (body n).

(** [((tmpfs_node_t * )self)->children] and the like: a bare vnode has no such
    field. *)
Definition children_of (n : vnode_t) : outcome (list Z) :=
  match body n with
  | BareVnode => Fault
  | TmpfsNode cs _ | InitrdNode cs _ | DevfsNode cs => Ok cs
  end.

Definition with_children (cs : list Z) (n : vnode_t) : vnode_t :=
  set_body (match body n with
            | BareVnode => BareVnode
            | TmpfsNode _ ps => TmpfsNode cs ps
            | InitrdNode _ d => InitrdNode cs d
            | DevfsNode _ => DevfsNode cs
            end) n.

(** [strcpy(vn->name, s)]: a longer string overwrites the fields behind the
    array. *)
Definition copy_name (s : list Z) : outcome (list Z) :=
  if Z.of_nat (length s) <? VFS_MAX_NAME_LEN then Ok s else Fault.

Section nodes.
Context {S K : Type}.
Implicit Types st : fs S K.

Definition VN_HOLD (vn : Z) st : outcome (fs S K) :=
  n ← deref (nodes st !! vn);
  Ok (set_nodes (<[vn := set_refs (u64 (ref_count n + 1)) n]> (nodes st)) st).

(** The loop over the children of a directory. *)
Fixpoint find_name (cs : list Z) (name : list Z) (ns : gmap Z vnode_t) : outcome (option Z) :=
  match cs with
  | [] => Ok None
  | c :: cs =>
      n ← deref (ns !! c);
      if bool_decide (vn_name n = name) then Ok (Some c) else find_name cs name ns
  end.

(** The body shared by the [open] operations: status, [*out], state. *)
Definition open_in (self : Z) (name : list Z) st : outcome (Z * Z * fs S K) :=
  n ← deref (nodes st !! self);
  if negb (bool_decide (vn_type n = VNODE_DIR)) then Ok (ENOTDIR, NULL, st)
  else
    cs ← children_of n;
    found ← find_name cs name (nodes st);
    match found with
    | Some c => st ← VN_HOLD c st; Ok (EOK, c, st)
    | None => Ok (ENOENT, NULL, st)
    end.

Definition HINT_END : Z := 0xFFFF.

(** [((list_node_t * )hint)->next] for the node of [c]. *)
Fixpoint next_sibling (cs : list Z) (c : Z) : outcome (option Z) :=
  match cs with
  | [] => Fault
  | x :: cs => if x =? c then Ok (head cs) else next_sibling cs c
  end.

(** The body shared by the [list] operations: status, [*out], [*hint].  A hint
    other than 0 and [HINT_END] stands for the node of the child with that
    address. *)
Definition list_in (self hint : Z) st : outcome (Z * option (list Z) * Z) :=
  n ← deref (nodes st !! self);
  if negb (bool_decide (vn_type n = VNODE_DIR)) then Ok (ENOTDIR, None, hint)
  else if hint =? HINT_END then Ok (EOK, None, hint)
  else
    cs ← children_of n;
    next ← (if hint =? 0 then Ok (head cs) else next_sibling cs hint);
    match next with
    | Some c => cn ← deref (nodes st !! c); Ok (EOK, Some (vn_name cn), c)
    | None => Ok (EOK, None, HINT_END)
    end.

(** The body shared by the [create] operations: a node [mk name] of [size] bytes,
    appended to the children of [self]. *)
Definition create_in `{ObjectAllocator K} (size : Z) (mk : list Z -> vnode_t) (self : Z) (name : list Z) st : outcome (Z * Z * fs S K) :=
  '(o, k) ← obj_alloc size (fobjs st);
  name ← copy_name name;
  let st := set_fobjs k (set_nodes (<[o := mk name]> (nodes st)) st) in
  n ← deref (nodes st !! self);
  cs ← children_of n;
  Ok (EOK, o, set_nodes (<[self := with_children (cs ++ [o]) n]> (nodes st)) st).

(** A client that lists a directory until no name comes back. *)
Fixpoint read_dir (fuel : nat) (self hint : Z) st : outcome (list (list Z)) :=
  match fuel with
  | O => NoFuel
  | Datatypes.S fuel =>
      '(_, out, hint) ← list_in self hint st;
      match out with
      | None => Ok []
      | Some name => names ← read_dir fuel self hint st; Ok (name :: names)
      end
  end.
End nodes.

(** ** Lemmas *)

Section proofs.
Context {S K : Type}.
Implicit Types st : fs S K.

(** [cs] are the children of the directory [d], each a node. *)
Definition is_dir st (d : Z) (cs : list Z) : Prop :=
  exists n, nodes st !! d = Some n /\ vn_type n = VNODE_DIR /\ children_of n = Ok cs /\
    Forall (fun c => is_Some (nodes st !! c)) cs.

Definition name_of st (c : Z) : list Z := match nodes st !! c with Some n => vn_name n | None => [] end.

Lemma find_name_ok st cs name : Forall (fun c => is_Some (nodes st !! c)) cs ->
  exists r, find_name cs name (nodes st) = Ok r /\
  match r with
  | Some c => exists pre post, cs = pre ++ c :: post /\ name_of st c = name /\ Forall (fun x => name_of st x <> name) pre
  | None => Forall (fun x => name_of st x <> name) cs
  end.
Proof.
  induction 1 as [|c cs [n Hc] Hcs IH]; cbn [find_name]; [by exists None|]. run Hc.
  assert (name_of st c = vn_name n) as Hn by (unfold name_of; by rewrite Hc).
  destruct (bool_decide_reflect (vn_name n = name)) as [<-|Hne].
  - exists (Some c). split; [done|]. by exists [], cs.
  - destruct IH as ([c'|] & E & Hr); rewrite E.
    + destruct Hr as (pre & post & -> & Hn' & Hpre). exists (Some c'). split; [done|]. exists (c :: pre), post.
      split; [done|]. split; [done|]. constructor; [congruence|done].
    + exists None. split; [done|]. constructor; [congruence|done].
Qed.

(** The position after the child the hint stands for. *)
Lemma next_sibling_ok pre c post : c ∉ pre -> next_sibling (pre ++ c :: post) c = Ok (head post).
Proof.
  induction pre as [|x pre IH]; intros Hc; simpl; [by rewrite Z.eqb_refl|].
  apply not_elem_of_cons in Hc as [Hx Hc]. rewrite (proj2 (Z.eqb_neq x c)) by done. by apply IH.
Qed.

(** The hint after the children [pre] leads to those that follow. *)
Lemma hint_next (pre post : list Z) hint : NoDup (pre ++ post) -> Forall (fun c => c <> 0 /\ c <> HINT_END) (pre ++ post) ->
  hint = match last pre with Some c => c | None => 0 end ->
  (hint =? HINT_END) = false /\
  (if hint =? 0 then Ok (head (pre ++ post)) else next_sibling (pre ++ post) hint) = Ok (head post).
Proof.
  intros Hnd Hval ->. destruct (last pre) as [x|] eqn:El.
  - apply last_Some in El as [l ->]. rewrite <- app_assoc in *. simpl in *.
    apply Forall_app in Hval as [_ Hval]. apply Forall_cons in Hval as [[Hx0 Hxe] _].
    rewrite (proj2 (Z.eqb_neq x HINT_END)), (proj2 (Z.eqb_neq x 0)) by done. split; [done|].
    apply NoDup_app in Hnd as (_ & Hnd & _). apply next_sibling_ok. intros Hx. apply (Hnd x Hx). left.
  - apply last_None in El as ->. done.
Qed.

(** Listing continues behind the children already returned. *)
Lemma read_dir_from st d cs : is_dir st d cs -> NoDup cs -> Forall (fun c => c <> 0 /\ c <> HINT_END) cs ->
  forall post pre hint fuel, cs = pre ++ post -> (hint = match last pre with Some c => c | None => 0 end) ->
  (length post < fuel)%nat -> read_dir fuel d hint st = Ok (name_of st <$> post).
Proof.
  intros (n & Hn & Ht & Hc & Hall) Hnd Hval. induction post as [|c post IH]; intros pre hint [|fuel] -> Hh Hf; simpl in Hf; try lia;
    cbn [read_dir]; unfold list_in; run Hn; rewrite bool_decide_true by done; cbn [negb];
    destruct (hint_next _ _ hint Hnd Hval Hh) as [-> En]; rewrite Hc; go; rewrite En; go; cbn [head].
  - done.
  - apply Forall_app in Hall as [_ Hall]. apply Forall_cons in Hall as [[cn Hcn] _]. run Hcn.
    rewrite (IH (pre ++ [c])); [|by rewrite <- app_assoc|by rewrite last_snoc|lia]. go. f_equal.
    rewrite fmap_cons. f_equal. unfold name_of. by rewrite Hcn.
Qed.
End proofs.

(** ** Creation *)

(** What [open] finds under a name, without the reference it takes. *)
Definition opened {S K} (r : outcome (Z * Z * fs S K)) : outcome (Z * Z) := '(s, o, _) ← r; Ok (s, o).

Section dirs.
Context {S K : Type} `{ObjectAllocator K}.
Implicit Types st : fs S K.

(** Looking up a name after a child was added at the end. *)
Lemma find_name_snoc (ns ns' : gmap Z vnode_t) cs o name nm no :
  Forall (fun c => vn_name <$> ns' !! c = vn_name <$> ns !! c /\ is_Some (ns !! c)) cs -> ns' !! o = Some no -> vn_name no = name ->
  find_name (cs ++ [o]) nm ns' =
    match find_name cs nm ns with
    | Ok None => Ok (if bool_decide (name = nm) then Some o else None)
    | r => r
    end.
Proof.
  intros Hcs Ho Hno. induction Hcs as [|c cs [Ec [k Hk]] Hcs IH]; cbn [find_name app].
  - run Ho. rewrite Hno. by destruct (bool_decide (name = nm)).
  - rewrite Hk in Ec. destruct (ns' !! c) as [k'|] eqn:Hk'; [|done]. injection Ec as Ec. run Hk. rewrite Ec.
    destruct (bool_decide (vn_name k = nm)); [done|]. exact IH.
Qed.
(** Opening and listing after a creation. *)
Lemma create_open_ok (st : fs S K) U d cs name size mk fuel :
  is_dir st d cs -> oa_state (fobjs st) U -> (forall a, is_Some (nodes st !! a) -> a ∈ U) ->
  NoDup cs -> Forall (fun c => c <> 0 /\ c <> HINT_END) cs ->
  Z.of_nat (length name) < VFS_MAX_NAME_LEN -> (length cs + 1 < fuel)%nat -> 0 <= size <= 1024 -> (forall s, vn_name (mk s) = s) ->
  create_in size mk d name st = Panic \/
  exists o st', create_in size mk d name st = Ok (EOK, o, st') /\ nodes st !! o = None /\ is_dir st' d (cs ++ [o]) /\
    (name ∉ name_of st <$> cs -> opened (open_in d name st') = Ok (EOK, o)) /\
    (forall nm, nm <> name -> opened (open_in d nm st') = opened (open_in d nm st)) /\
    (o <> HINT_END -> read_dir fuel d 0 st' = Ok ((name_of st <$> cs) ++ [name])).
Proof.
  intros (n & Hn & Ht & Hcs & Hall) HU Hin Hnd Hval Hlen Hfuel Hsize Hmk. unfold create_in.
  destruct (obj_alloc_spec _ U size HU Hsize) as [E|(o & k & E & _ & Ho & Ho0)]; run E; [by left|right].
  unfold copy_name. rewrite (proj2 (Z.ltb_lt _ _)) by done. go. cbn [nodes set_fobjs set_nodes].
  assert (nodes st !! o = None) as Hfresh.
  { destruct (nodes st !! o) eqn:Eo; [|done]. destruct Ho. apply Hin. by rewrite Eo. }
  assert (d <> o) as Hdo by congruence. rewrite lookup_insert_ne by done. run Hn. rewrite Hcs. go.
  set (nw := mk name).
  eexists o, _. split; [reflexivity|]. split; [done|]. set (ns' := <[d := _]> (<[o := nw]> (nodes st))).
  set (st' := set_nodes ns' _).
  assert (Hnames : forall c, c <> o -> vn_name <$> ns' !! c = vn_name <$> nodes st !! c).
  { intros c Hc. unfold ns'. destruct (decide (c = d)) as [->|]; [|by rewrite !lookup_insert_ne by done].
    rewrite lookup_insert_eq, Hn. simpl. by destruct (body n). }
  assert (Hco : forall c, c ∈ cs -> c <> o) by (intros c Hc ->; rewrite Forall_forall in Hall; destruct (Hall _ Hc); congruence).
  assert (Hdir : is_dir st' d (cs ++ [o])).
  { exists (with_children (cs ++ [o]) n). cbn. unfold ns'. rewrite lookup_insert_eq. split; [done|].
    split; [done|]. split; [unfold children_of, with_children in *; simpl; by destruct (body n)|].
    apply Forall_app. rewrite Forall_singleton. split; [|rewrite lookup_insert_ne, lookup_insert_eq by done; eauto].
    eapply Forall_impl; [exact Hall|]. intros c [kc Hkc]. destruct (decide (c = d)) as [->|]; [rewrite lookup_insert_eq; eauto|].
    rewrite lookup_insert_ne, lookup_insert_ne by congruence. eauto. }
  assert (Hfind : forall nm, find_name (cs ++ [o]) nm ns' = match find_name cs nm (nodes st) with
    | Ok None => Ok (if bool_decide (name = nm) then Some o else None) | r => r end).
  { intros nm. apply (find_name_snoc _ _ _ _ _ _ nw); [|unfold ns'; by rewrite lookup_insert_ne, lookup_insert_eq by done|apply Hmk].
    apply Forall_forall. intros c Hc. rewrite Forall_forall in Hall. split; [|by apply Hall]. by apply Hnames, Hco. }
  assert (Hopen : forall nm, opened (open_in d nm st') = match find_name cs nm (nodes st) with
    | Ok None => Ok (if bool_decide (name = nm) then (EOK, o) else (ENOENT, NULL)) | Ok (Some c) => Ok (EOK, c)
    | Panic => Panic | Fault => Fault | NoFuel => NoFuel end).
  { intros nm. unfold open_in. destruct Hdir as (n' & Hn' & Ht' & Hc' & Hall'). run Hn'.
    rewrite bool_decide_true by done. cbn [negb]. run Hc'. cbn [nodes set_nodes st']. rewrite Hfind.
    destruct (find_name_ok st cs nm Hall) as ([c|] & Ef & Hr); rewrite Ef; go.
    - destruct Hr as (pre & post & -> & _). unfold VN_HOLD. apply Forall_app in Hall' as [Hall' _].
      apply Forall_app in Hall' as [_ Hall']. apply Forall_cons in Hall' as [[kc Hkc] _]. cbn [nodes set_nodes st'] in *. by run Hkc.
    - destruct (bool_decide (name = nm)); [|done]. unfold VN_HOLD. apply Forall_app in Hall' as [_ Hall'].
      apply Forall_singleton in Hall' as [kc Hkc]. by run Hkc. }
  split; [done|]. split; [|split].
  - intros Hnew. rewrite Hopen. destruct (find_name_ok st cs name Hall) as ([c|] & Ef & Hr); rewrite Ef.
    + destruct Hr as (pre & post & -> & <- & _). destruct Hnew. apply list_elem_of_fmap. exists c. split; [done|].
      apply elem_of_app. right. left.
    + by rewrite bool_decide_true.
  - intros nm Hnm. rewrite Hopen. unfold open_in. run Hn. rewrite (bool_decide_true (vn_type n = VNODE_DIR)) by done. cbn [negb].
    run Hcs. destruct (find_name_ok st cs nm Hall) as ([c|] & Ef & Hr); rewrite Ef; go; [|by rewrite (bool_decide_false (name = nm)) by congruence].
    destruct Hr as (pre & post & -> & _). apply Forall_app in Hall as [_ Hall]. apply Forall_cons in Hall as [[kc Hkc] _].
    unfold VN_HOLD. by run Hkc.
  - intros Hoe. rewrite (read_dir_from st' d (cs ++ [o]) Hdir) with (pre := []) (post := cs ++ [o]); [|..].
    + f_equal. rewrite fmap_app. f_equal.
      * apply list_fmap_ext. intros i c Hc. apply list_elem_of_lookup_2 in Hc. specialize (Hnames c (Hco c Hc)).
        unfold name_of. cbn [nodes set_nodes st']. rewrite Forall_forall in Hall. destruct (Hall c Hc) as [kc Hkc]. rewrite Hkc in *.
        destruct (ns' !! c); [by injection Hnames|done].
      * cbn. unfold name_of. cbn [nodes set_nodes st']. unfold ns'. rewrite lookup_insert_ne, lookup_insert_eq by done. unfold nw. f_equal. apply Hmk.
    + apply NoDup_app. split; [done|]. split; [|apply NoDup_singleton]. intros c Hc ->%list_elem_of_singleton. by apply (Hco _ Hc).
    + apply Forall_app. rewrite Forall_singleton. split; [done|]. split; [lia|done].
    + done.
    + done.
    + rewrite length_app. simpl. lia.
Qed.
End dirs.

