(* ===== verification/Tmpfs.v ===== *)
(** * Memory file system (kernel/src/fs/tmpfs.c)

    A file is a list of pages in the direct map, a directory a list of nodes.
    [junk a] is what the physical page [a] holds when it is handed out. *)
From stdpp Require Import base gmap list fin_maps.
From Stdlib Require Import ZArith Lia.
From S2P Require Import Prelude Interfaces Pmm Kmem Nodes.

Definition sizeof_tmpfs_node : Z := 232.
Definition sizeof_tmpfs_page : Z := 24.
Definition sizeof_vnode : Z := 168.

Section tmpfs.
Context {S K : Type} `{PageAllocator S} `{ObjectAllocator K} (HHDM : Z) (junk : Z -> list Z).
Implicit Types st : fs S K.

(** [name] is a string here, so the assertion on its address holds. *)
Definition tmpfs_open (self : Z) (name : list Z) st : outcome (Z * Z * fs S K) := open_in self name st.

Definition tmpfs_close (self : Z) st : outcome (Z * fs S K) :=
  n ← deref (nodes st !! self);
  ASSERT (ref_count n =? 0);;
  k ← obj_free self (fobjs st);
  Ok (EOK, set_fobjs k (set_nodes (delete self (nodes st)) st)).

(** [node->pages] *)
Definition pages_of (n : vnode_t) : outcome (list Z) :=
  match body n with TmpfsNode _ ps => Ok ps | _ => Fault end.

(** The amount copied from or to the page at [page_start]. *)
Definition page_chunk (page_start copied offset count : Z) : option (Z * Z) :=
  if (page_start <=? offset) && (page_start <? u64 (offset + count)) then
    let page_offset := offset - page_start in
    Some (page_offset, MIN (u64 (ARCH_PAGE_GRAN - page_offset)) (count - copied))
  else None.

(** The loop of [tmpfs_read]: the bytes stored at the buffer. *)
Fixpoint read_pages (ps : list Z) (page_start copied offset count : Z) (m : mem) : outcome (list Z) :=
  match ps with
  | [] => Ok []
  | data :: ps =>
      match page_chunk page_start copied offset count with
      | Some (page_offset, n) =>
          bs ← kread m (data + page_offset) (Z.to_nat n);
          rest ← read_pages ps (u64 (page_start + ARCH_PAGE_GRAN)) (copied + n) offset count m;
          Ok (bs ++ rest)
      | None => read_pages ps (u64 (page_start + ARCH_PAGE_GRAN)) copied offset count m
      end
  end.

(** Status and bytes read; [*out] is their number. *)
Definition tmpfs_read (self offset count : Z) st : outcome (Z * list Z) :=
  n ← deref (nodes st !! self);
  ps ← pages_of n;
  bs ← read_pages ps 0 0 offset count (fmem st);
  Ok (EOK, bs).

(** The loop that adds pages to a file. *)
Fixpoint grow (n : nat) (st : fs S K) : outcome (list Z * fs S K) :=
  match n with
  | O => Ok ([], st)
  | Datatypes.S n =>
      '(_, k) ← obj_alloc sizeof_tmpfs_page (fobjs st);
      '(a, pg) ← page_alloc (fpages st);
      let data := u64 (a + HHDM) in
      let st := set_fobjs k (set_fpages pg (set_fmem (write_bytes (fmem st) data (junk a)) st)) in
      '(ps, st) ← grow n st;
      Ok (data :: ps, st)
  end.

(** The loop of [tmpfs_write]. *)
Fixpoint write_pages (ps : list Z) (page_start copied offset count : Z) (buffer : list Z) (m : mem) : outcome (Z * mem) :=
  match ps with
  | [] => Ok (copied, m)
  | data :: ps =>
      match page_chunk page_start copied offset count with
      | Some (page_offset, n) =>
          let m := write_bytes m (data + page_offset) (take (Z.to_nat n) (drop (Z.to_nat copied) buffer)) in
          write_pages ps (u64 (page_start + ARCH_PAGE_GRAN)) (copied + n) offset count buffer m
      | None => write_pages ps (u64 (page_start + ARCH_PAGE_GRAN)) copied offset count buffer m
      end
  end.

(** Pages a file of [size] bytes has. *)
Definition page_count (size : Z) : Z := CEIL size ARCH_PAGE_GRAN / ARCH_PAGE_GRAN.

(** Writes the [count] bytes of [buffer]: status and [*out]. *)
Definition tmpfs_write (self offset : Z) (buffer : list Z) st : outcome (Z * Z * fs S K) :=
  let count := Z.of_nat (length buffer) in
  n ← deref (nodes st !! self);
  ps ← pages_of n;
  cs ← children_of n;
  let needed := page_count (u64 (offset + count)) in
  let have := page_count (vn_size n) in
  '(new, st) ← (if have <? needed then grow (Z.to_nat (needed - have)) st else Ok ([], st));
  let ps := ps ++ new in
  '(copied, m) ← write_pages ps 0 0 offset count buffer (fmem st);
  let size := if vn_size n <? u64 (offset + copied) then u64 (offset + copied) else vn_size n in
  Ok (EOK, copied, set_fmem m (set_nodes (<[self := set_size size (set_body (TmpfsNode cs ps) n)]> (nodes st)) st)).

Definition tmpfs_list (self hint : Z) st : outcome (Z * option (list Z) * Z) := list_in self hint st.

Definition tmpfs_create (self : Z) (name : list Z) (t : vnode_type_t) st : outcome (Z * Z * fs S K) :=
  create_in sizeof_tmpfs_node (fun name => Vnode name t 0 tmpfs_ops 1 (TmpfsNode [] [])) self name st.

Definition tmpfs_ioctl (self request args : Z) : Z := ENOTSUP.

Definition tmpfs_probe (blk_dev : Z) : bool := blk_dev =? NULL.

(** The root is a bare vnode. *)
Definition tmpfs_get_root_vnode (blk_dev : Z) st : outcome (bool * Z * fs S K) :=
  '(o, k) ← obj_alloc sizeof_vnode (fobjs st);
  Ok (true, o, set_fobjs k (set_nodes (<[o := Vnode [] VNODE_DIR 0 tmpfs_ops 1 BareVnode]> (nodes st)) st)).
End tmpfs.

(** ** Invariant *)

Section proofs.
Context {S K : Type} `{PageAllocator S} `{ObjectAllocator K} (HHDM : Z) (HH : hhdm_ok HHDM) (junk : Z -> list Z)
  (Hjunk : forall a, length (junk a) = Z.to_nat ARCH_PAGE_GRAN).
Implicit Types st : fs S K.

Definition file_pages (n : vnode_t) : list Z := match body n with TmpfsNode _ ps => ps | _ => [] end.

(** [p] is the address of a page in the direct map that holds bytes. *)
Definition data_page (m : mem) (p : Z) : Prop :=
  phys_page (p - HHDM) /\ mapped m p (Z.to_nat ARCH_PAGE_GRAN).

(** Files own their pages, as many as their size needs. *)
Record tmpfs_inv st (G U : gset Z) : Prop := {
  ti_pages : pa_state (fpages st) G;
  ti_objs : oa_state (fobjs st) U;
  ti_nodes : forall a, is_Some (nodes st !! a) -> a ∈ U;
  ti_file : forall a n, nodes st !! a = Some n ->
    0 <= vn_size n < 2 ^ 63 /\ (vn_ops n = tmpfs_ops -> body n <> BareVnode -> exists cs ps, body n = TmpfsNode cs ps) /\
    (forall cs ps, body n = TmpfsNode cs ps -> Z.of_nat (length ps) = page_count (vn_size n)) /\
    NoDup (file_pages n) /\ Forall (fun p => data_page (fmem st) p /\ p - HHDM ∈ G) (file_pages n);
  ti_apart : forall a b n k p, nodes st !! a = Some n -> nodes st !! b = Some k -> p ∈ file_pages n -> p ∈ file_pages k -> a = b
}.

(** Everything a reader of [a] sees. *)
Definition same_file st st' (a : Z) : Prop :=
  nodes st' !! a = nodes st !! a /\
  forall n p x, nodes st !! a = Some n -> p ∈ file_pages n -> p <= x < p + ARCH_PAGE_GRAN -> fmem st' !! x = fmem st !! x.

Lemma page_count_val size : 0 <= size < 2 ^ 63 -> page_count size = (size + 4095) / ARCH_PAGE_GRAN.
Proof.
  intros Hs. unfold page_count, CEIL. assert (ARCH_PAGE_GRAN = 4096) as -> by done.
  rewrite (u64_small (size + 4096)), (u64_small (size + 4096 - 1)) by lia.
  replace (size + 4096 - 1) with (size + 4095) by lia.
  rewrite u64_small by dlia. apply Z.div_mul. lia.
Qed.

(** Pages behind the first are out of reach of a range inside the first. *)
Lemma no_chunk page_start copied offset count : offset < ARCH_PAGE_GRAN -> ARCH_PAGE_GRAN <= page_start ->
  page_chunk page_start copied offset count = None.
Proof. intros. unfold page_chunk. rewrite (proj2 (Z.leb_gt page_start offset)) by lia. done. Qed.

Lemma read_rest offset count m : offset < ARCH_PAGE_GRAN -> forall ps page_start copied, ARCH_PAGE_GRAN <= page_start ->
  page_start + Z.of_nat (length ps) * ARCH_PAGE_GRAN < 2 ^ 64 -> read_pages ps page_start copied offset count m = Ok [].
Proof.
  intros Ho. induction ps as [|p ps IH]; intros page_start copied Hp Hb; cbn [read_pages]; [done|].
  rewrite no_chunk by done. simpl in Hb. unfold ARCH_PAGE_GRAN in *. rewrite u64_small by lia. apply IH; lia.
Qed.

Lemma write_rest offset count buffer : offset < ARCH_PAGE_GRAN -> forall ps page_start copied m, ARCH_PAGE_GRAN <= page_start ->
  page_start + Z.of_nat (length ps) * ARCH_PAGE_GRAN < 2 ^ 64 ->
  write_pages ps page_start copied offset count buffer m = Ok (copied, m).
Proof.
  intros Ho. induction ps as [|p ps IH]; intros page_start copied m Hp Hb; cbn [write_pages]; [done|].
  rewrite no_chunk by done. simpl in Hb. unfold ARCH_PAGE_GRAN in *. rewrite u64_small by lia. apply IH; lia.
Qed.

Lemma first_chunk offset count : 0 <= offset -> 0 < count -> offset + count <= ARCH_PAGE_GRAN ->
  page_chunk 0 0 offset count = Some (offset, count).
Proof.
  unfold ARCH_PAGE_GRAN. intros Ho Hc Hb. unfold page_chunk. rewrite u64_small by lia.
  rewrite (proj2 (Z.leb_le 0 offset)), (proj2 (Z.ltb_lt 0 _)) by lia. cbn [andb]. do 2 f_equal; [lia|].
  rewrite u64_small by (unfold ARCH_PAGE_GRAN; lia). unfold MIN, ARCH_PAGE_GRAN.
  destruct (Z.ltb_spec (0x1000 - (offset - 0)) (count - 0)); lia.
Qed.

(** Reading and writing inside the first page. *)
Lemma read_first p ps offset count m bs : 0 <= offset -> 0 < count -> offset + count <= ARCH_PAGE_GRAN ->
  Z.of_nat (length ps) < 2 ^ 51 -> Z.of_nat (length bs) = count -> bytes_at m (p + offset) bs ->
  read_pages (p :: ps) 0 0 offset count m = Ok bs.
Proof.
  intros Ho Hc Hb Hps Hl Hbs. cbn [read_pages]. rewrite first_chunk by done.
  replace (Z.to_nat count) with (length bs) by lia. run (kread_ok _ _ _ Hbs).
  rewrite read_rest; [go; by rewrite app_nil_r|lia|done|]. unfold ARCH_PAGE_GRAN, u64. change (0 + 0x1000) with 4096.
  rewrite Z.mod_small by lia. lia.
Qed.

Lemma write_first p ps offset buffer m : let count := Z.of_nat (length buffer) in
  0 <= offset -> 0 < count -> offset + count <= ARCH_PAGE_GRAN -> Z.of_nat (length ps) < 2 ^ 51 ->
  write_pages (p :: ps) 0 0 offset count buffer m = Ok (count, write_bytes m (p + offset) buffer).
Proof.
  intros count Ho Hc Hb Hps. cbn [write_pages]. rewrite first_chunk by done. rewrite drop_0, firstn_all2 by lia.
  apply write_rest; [lia|done|]. unfold ARCH_PAGE_GRAN, u64. change (0 + 0x1000) with 4096.
  rewrite Z.mod_small by lia. lia.
Qed.

(** Different pages of the direct map do not meet. *)
Lemma pages_apart p q x : phys_page (p - HHDM) -> phys_page (q - HHDM) -> p <> q -> p <= x < p + ARCH_PAGE_GRAN ->
  x < q \/ q + ARCH_PAGE_GRAN <= x.
Proof.
  intros (_ & _ & [k Hk]) (_ & _ & [l Hl]) Hne Hx. unfold ARCH_PAGE_GRAN in *.
  assert (k < l \/ l < k) by (destruct (decide (k = l)); [subst; lia|lia]). lia.
Qed.

Lemma mapped_write m q bs p n : mapped m p n -> mapped (write_bytes m q bs) p n.
Proof. revert m q. induction bs as [|b bs IH]; intros m q Hm; simpl; [done|]. apply IH. by apply mapped_insert. Qed.

(** One page more. *)
Lemma grow_one st G U : tmpfs_inv st G U ->
  grow HHDM junk 1 st = Panic \/
  exists p st1 U1, grow HHDM junk 1 st = Ok ([p], st1) /\ nodes st1 = nodes st /\ p - HHDM ∉ G /\ data_page (fmem st1) p /\
    pa_state (fpages st1) ({[p - HHDM]} ∪ G) /\ oa_state (fobjs st1) U1 /\ U ⊆ U1 /\
    (forall q, data_page (fmem st) q -> data_page (fmem st1) q) /\
    (forall q x, phys_page (q - HHDM) -> q <> p -> q <= x < q + ARCH_PAGE_GRAN -> fmem st1 !! x = fmem st !! x).
Proof.
  intros HI. cbn [grow].
  destruct (obj_alloc_spec _ U sizeof_tmpfs_page (ti_objs _ _ _ HI)) as [E|(o & k & E & HU & _)]; [done| |]; run E; [by left|].
  destruct (page_alloc_spec _ _ (ti_pages _ _ _ HI)) as [E2|(a & pg & E2 & HG & Ha & Ha0 & Ha1 & Had)]; run E2; [by left|right].
  destruct HH as (HH1 & HH2 & HH3). assert (u64 (a + HHDM) = a + HHDM) as -> by (apply u64_small; unfold ARCH_PAGE_GRAN in *; lia).
  eexists (a + HHDM), _, ({[o]} ∪ U). split; [reflexivity|]. cbn. replace (a + HHDM - HHDM) with a by lia.
  split; [done|]. split; [done|]. split; [split|].
  - replace (a + HHDM - HHDM) with a by lia. done.
  - intros i Hi. rewrite <- (Hjunk a) in Hi. destruct (lookup_lt_is_Some_2 _ _ Hi) as [b Hb]. exists b. by apply write_bytes_at.
  - split; [done|]. split; [done|]. split; [clear; set_solver|]. split.
    + intros q [Hq Hm]. split; [done|]. by apply mapped_write.
    + intros q x Hq Hne Hx. apply write_bytes_out. rewrite Hjunk.
      destruct (pages_apart q (a + HHDM) x Hq) as [?|?]; [|done|done|lia|right].
      { replace (a + HHDM - HHDM) with a by lia. done. }
      unfold ARCH_PAGE_GRAN in *. lia.
Qed.

Lemma inv_size st G U a n cs ps : tmpfs_inv st G U -> nodes st !! a = Some n -> body n = TmpfsNode cs ps ->
  0 <= vn_size n < 2 ^ 63 /\ Z.of_nat (length ps) = (vn_size n + 4095) / ARCH_PAGE_GRAN /\ Z.of_nat (length ps) < 2 ^ 52.
Proof.
  intros HI Hn Hb. destruct (ti_file _ _ _ HI _ _ Hn) as (Hs & _ & Hl & _). specialize (Hl _ _ Hb).
  rewrite page_count_val in Hl by done. split; [done|]. split; [done|]. rewrite Hl. unfold ARCH_PAGE_GRAN. dlia.
Qed.

(** Writing the new node: the file grew by the pages [new] and the rest is as
    before. *)
Lemma inv_update st st1 G G1 U U1 self n cs ps new size m :
  tmpfs_inv st G U -> nodes st !! self = Some n -> body n = TmpfsNode cs ps ->
  nodes st1 = nodes st -> pa_state (fpages st1) G1 -> oa_state (fobjs st1) U1 -> G ⊆ G1 -> U ⊆ U1 ->
  NoDup (ps ++ new) -> Forall (fun p => p - HHDM ∈ G1 /\ p - HHDM ∉ G /\ phys_page (p - HHDM)) new ->
  (forall p, data_page (fmem st) p \/ p ∈ new -> mapped m p (Z.to_nat ARCH_PAGE_GRAN)) ->
  0 <= size < 2 ^ 63 -> Z.of_nat (length (ps ++ new)) = page_count size ->
  tmpfs_inv (set_fmem m (set_nodes (<[self := set_size size (set_body (TmpfsNode cs (ps ++ new)) n)]> (nodes st1)) st1)) G1 U1.
Proof.
  intros HI Hn Hb En HG HU HsubG HsubU Hnd Hnew Hm Hsz Hlen. rewrite En.
  set (n' := set_size size (set_body (TmpfsNode cs (ps ++ new)) n)).
  assert (Hfp : file_pages n = ps) by (unfold file_pages; by rewrite Hb).
  assert (Hold : forall p b k, nodes st !! b = Some k -> p ∈ file_pages k -> data_page (fmem st) p /\ p - HHDM ∈ G).
  { intros p b k Hk Hp. destruct (ti_file _ _ _ HI _ _ Hk) as (_ & _ & _ & _ & Hall). rewrite Forall_forall in Hall. by apply Hall. }
  split; cbn.
  - done.
  - done.
  - intros a [<-|Ha]%lookup_insert_is_Some'; apply HsubU, (ti_nodes _ _ _ HI); eauto.
  - intros a k [[<- <-]|[Hne Hk]]%lookup_insert_Some.
    + split; [done|]. split; [by eauto|]. split; [by intros ? ? [= <- <-]|]. split; [done|].
      change (file_pages n') with (ps ++ new). apply Forall_app. rewrite !Forall_forall. split.
      * intros p Hp. rewrite <- Hfp in Hp. destruct (Hold _ _ _ Hn Hp) as [[Hpp ?] Hg]. split; [|by apply HsubG].
        split; [done|]. apply Hm. by left.
      * intros p Hp. rewrite Forall_forall in Hnew. destruct (Hnew p Hp) as (? & _ & ?). split; [|done].
        split; [done|]. apply Hm. by right.
    + destruct (ti_file _ _ _ HI _ _ Hk) as (H1 & H2 & H3 & H4 & H5). split; [done|]. split; [done|]. split; [done|]. split; [done|].
      eapply Forall_impl; [exact H5|]. intros p [Hd Hg]. split; [|by apply HsubG]. split; [by destruct Hd|]. apply Hm. by left.
  - assert (Hx : forall b k p, self <> b -> nodes st !! b = Some k -> p ∈ ps ++ new -> p ∈ file_pages k -> False).
    { intros b k p Hne Hk Hp Hpk. destruct (Hold _ _ _ Hk Hpk) as [_ Hg]. apply elem_of_app in Hp as [Hp|Hp].
      - apply Hne. eapply (ti_apart _ _ _ HI); [exact Hn|exact Hk| |exact Hpk]. by rewrite Hfp.
      - rewrite Forall_forall in Hnew. by destruct (Hnew p Hp) as (_ & ? & _). }
    intros a b k k' p [[<- <-]|[Hne Hk]]%lookup_insert_Some [[<- <-]|[Hne' Hk']]%lookup_insert_Some Hp Hp'; [done| | |].
    + destruct (Hx b k' p); done.
    + destruct (Hx a k p); done.
    + by eapply (ti_apart _ _ _ HI).
Qed.

(** A range inside the first page: the pages of the file afterwards. *)
Lemma write_first_page st G U self n cs ps offset buffer :
  let count := Z.of_nat (length buffer) in
  tmpfs_inv st G U -> nodes st !! self = Some n -> body n = TmpfsNode cs ps ->
  0 <= offset -> 0 < count -> offset + count <= ARCH_PAGE_GRAN ->
  tmpfs_write HHDM junk self offset buffer st = Panic \/
  exists p ps' new st1 G1 U1,
    let size := if vn_size n <? offset + count then offset + count else vn_size n in
    let st' := set_fmem (write_bytes (fmem st1) (p + offset) buffer)
      (set_nodes (<[self := set_size size (set_body (TmpfsNode cs (p :: ps')) n)]> (nodes st1)) st1) in
    p :: ps' = ps ++ new /\ tmpfs_write HHDM junk self offset buffer st = Ok (EOK, count, st') /\
    tmpfs_inv st' G1 U1 /\ nodes st1 = nodes st /\ Z.of_nat (length ps') < 2 ^ 51 /\
    Forall (fun q => q - HHDM ∉ G) new /\ phys_page (p - HHDM) /\
    (forall q x, data_page (fmem st) q -> q ∉ new -> q <= x < q + ARCH_PAGE_GRAN -> fmem st1 !! x = fmem st !! x).
Proof.
  intros count HI Hn Hb Ho Hc Hoc. destruct (inv_size _ _ _ _ _ _ _ HI Hn Hb) as (Hsz & Hlen & Hmax).
  unfold tmpfs_write. fold count. unfold pages_of, children_of. run Hn. rewrite Hb. go.
  assert (ARCH_PAGE_GRAN = 4096) as EG by done.
  rewrite (u64_small (offset + count)) by lia. rewrite !page_count_val by lia.
  assert ((offset + count + 4095) / ARCH_PAGE_GRAN = 1) as En by (rewrite EG in *; dlia). rewrite En, <- Hlen.
  assert (Hnsz : let size := if vn_size n <? offset + count then offset + count else vn_size n in
    0 <= size < 2 ^ 63 /\ (size + 4095) / ARCH_PAGE_GRAN = Z.max 1 (Z.of_nat (length ps))).
  { cbv zeta. destruct (Z.ltb_spec (vn_size n) (offset + count)); rewrite Hlen, EG in *; split; [lia|dlia|lia|dlia]. }
  cbv zeta in Hnsz. set (size := if vn_size n <? offset + count then offset + count else vn_size n) in *. destruct Hnsz as [Hs1 Hs2].
  destruct ps as [|p ps'].
  - cbn [length]. change (Z.of_nat 0 <? 1) with true. cbv iota. change (Z.to_nat (1 - Z.of_nat 0)) with 1%nat.
    destruct (grow_one st G U HI) as [E|(p & st1 & U1 & E & E1 & Hpn & Hdp & HG1 & HU1 & HsubU & Hdk & Hout)]; run E; [by left|right].
    cbn [app]. pose proof (write_first p [] offset buffer (fmem st1) Ho Hc Hoc ltac:(simpl; lia)) as Ew. fold count in Ew. run Ew. rewrite (u64_small (offset + count)) by lia. fold size.
    exists p, [], [p], st1, ({[p - HHDM]} ∪ G), U1. split; [done|]. split; [done|]. split; [|split; [done|split; [done|]]].
    + apply (inv_update st st1 G _ U U1 self n cs [] [p] size); try done.
      * clear; set_solver.
      * apply NoDup_singleton.
      * apply Forall_singleton. split; [clear; set_solver|]. split; [done|by destruct Hdp].
      * intros q [Hq| ->%list_elem_of_singleton]; apply mapped_write; [by apply Hdk|by destruct Hdp].
      * rewrite page_count_val by done. by rewrite Hs2.
    + split; [by apply Forall_singleton|]. split; [by destruct Hdp|]. intros q x [Hq _] Hne Hx. apply (Hout q); [done| |done].
      intros ->. apply Hne. left.
  - rewrite (proj2 (Z.ltb_ge _ 1)) by (simpl; lia). right. go. rewrite app_nil_r.
    assert (Z.of_nat (length ps') < 2 ^ 51) as Hl51 by (simpl in Hlen; rewrite EG in *; dlia).
    pose proof (write_first p ps' offset buffer (fmem st) Ho Hc Hoc Hl51) as Ew. fold count in Ew. run Ew. rewrite (u64_small (offset + count)) by lia. fold size.
    destruct (ti_file _ _ _ HI _ _ Hn) as (_ & _ & _ & Hnd & Hall). unfold file_pages in Hnd, Hall. rewrite Hb in Hnd, Hall.
    apply Forall_cons in Hall as [[Hdp _] _].
    exists p, ps', [], st, G, U. split; [by rewrite app_nil_r|]. split; [done|]. split; [|split; [done|split]].
    + rewrite <- (app_nil_r (p :: ps')). apply (inv_update st st G _ U U self n cs (p :: ps') [] size); try done.
      * by destruct HI.
      * by destruct HI.
      * by rewrite app_nil_r.
      * intros q [Hq|Hq%elem_of_nil]; [|done]. apply mapped_write. by destruct Hq.
      * rewrite app_nil_r, page_count_val by done. rewrite Hs2. simpl. lia.
    + done.
    + split; [done|]. split; [by destruct Hdp|done].
Qed.
End proofs.

(** A write to a file that stays inside its first page either runs out of
    memory or writes everything: reading the same range gives the bytes back, the
    size covers the range, the other bytes of the page and all other files are
    unchanged, and files keep owning as many pages as their size needs. *)
Theorem tmpfs_write_read {S K : Type} `{PageAllocator S} `{ObjectAllocator K} (HHDM : Z) (junk : Z -> list Z)
    (st : fs S K) G U self n cs ps offset buffer :
  let count := Z.of_nat (length buffer) in
  hhdm_ok HHDM -> (forall a, length (junk a) = Z.to_nat ARCH_PAGE_GRAN) ->
  tmpfs_inv HHDM st G U -> nodes st !! self = Some n -> body n = TmpfsNode cs ps ->
  0 <= offset -> 0 < count -> offset + count <= ARCH_PAGE_GRAN ->
  tmpfs_write HHDM junk self offset buffer st = Panic \/
  exists st' G' U' n', tmpfs_write HHDM junk self offset buffer st = Ok (EOK, count, st') /\ tmpfs_inv HHDM st' G' U' /\
    tmpfs_read self offset count st' = Ok (EOK, buffer) /\
    nodes st' !! self = Some n' /\ vn_size n' = Z.max (vn_size n) (offset + count) /\
    (forall p x, p ∈ ps -> p <= x < p + ARCH_PAGE_GRAN -> fmem st' !! x =
       if decide (head ps = Some p /\ p + offset <= x < p + offset + count) then buffer !! Z.to_nat (x - (p + offset)) else fmem st !! x) /\
    (forall a, a <> self -> same_file st st' a).
Proof.
  intros count HH Hj HI Hn Hb Ho Hc Hoc.
  destruct (write_first_page HHDM HH junk Hj st G U self n cs ps offset buffer HI Hn Hb Ho Hc Hoc)
    as [E|(p & ps' & new & st1 & G1 & U1 & Eps & E & HI' & En & Hl & Hnew & Hp & Hout)]; [by left|right].
  cbv zeta in *. fold count in E, HI'. set (st' := set_fmem _ _) in *.
  assert (Hold : forall a k q, nodes st !! a = Some k -> q ∈ file_pages k -> data_page HHDM (fmem st) q /\ q ∉ new).
  { intros a k q Hk Hq. destruct (ti_file _ _ _ _ HI _ _ Hk) as (_ & _ & _ & _ & Hall). rewrite Forall_forall in Hall.
    destruct (Hall q Hq) as [? Hg]. split; [done|]. intros Hin. rewrite Forall_forall in Hnew. by apply (Hnew q Hin). }
  assert (Hfp : file_pages n = ps) by (unfold file_pages; by rewrite Hb).
  exists st', G1, U1. eexists. split; [done|]. split; [done|]. split; [|split; [apply lookup_insert_eq|split; [|split]]].
  - unfold tmpfs_read, st'. cbn [nodes fmem set_fmem set_nodes]. rewrite lookup_insert_eq. go. unfold pages_of. cbn [body set_size set_body]. go.
    rewrite (read_first p ps' offset count _ buffer); try done. apply write_bytes_at.
  - cbn. destruct (Z.ltb_spec (vn_size n) (offset + count)); lia.
  - intros q x Hq Hx. cbn. rewrite <- Hfp in Hq. destruct (Hold _ _ _ Hn Hq) as [Hdq Hnq].
    destruct (decide (head ps = Some q /\ p + offset <= x < p + offset + count)) as [[Hh Hr]|Hr].
    + assert (q = p) as -> by (destruct ps; simpl in *; congruence). rewrite decide_True by done.
      destruct (lookup_lt_is_Some_2 buffer (Z.to_nat (x - (p + offset)))) as [b Hbb]; [lia|]. rewrite Hbb.
      pose proof (write_bytes_at (fmem st1) (p + offset) buffer _ _ Hbb) as Hw. rewrite <- Hw. f_equal. lia.
    + assert (x < p + offset \/ p + offset + count <= x) as Hx'.
      { destruct (decide (q = p)) as [->|Hne].
        - destruct ps as [|p0 ps0]; [rewrite Hfp in Hq; by apply elem_of_nil in Hq|]. simpl in Eps. injection Eps as Ep _. subst p0.
          simpl in Hr. destruct (decide (p + offset <= x < p + offset + count)); [by destruct Hr|lia].
        - destruct (pages_apart HHDM q p x (proj1 Hdq) Hp Hne Hx); lia. }
      rewrite write_bytes_out by (unfold count in *; lia). rewrite (Hout q x Hdq Hnq Hx).
      destruct (decide (head ps = Some q /\ q + offset <= x < q + offset + count)) as [[Hh Hr2]|]; [|done].
      destruct ps as [|p0 ps0]; simpl in Hh; [done|]. injection Hh as ->. simpl in Eps. injection Eps as Ep _. subst q. by destruct Hr.
  - intros a Hne. split; [cbn; rewrite lookup_insert_ne by done; by rewrite En|]. intros k q x Hk Hq Hx. cbn.
    destruct (Hold _ _ _ Hk Hq) as [Hdq Hnq]. rewrite write_bytes_out; [by apply (Hout q)|].
    assert (q <> p) as Hqp.
    { intros ->. assert (p ∈ ps ++ new) as Hin by (rewrite <- Eps; left). apply elem_of_app in Hin as [Hin|Hin]; [|done].
      apply Hne. eapply (ti_apart _ _ _ _ HI); [exact Hk|exact Hn|exact Hq|]. by rewrite Hfp. }
    destruct (pages_apart HHDM q p x (proj1 Hdq) Hp Hqp Hx); unfold count in *; lia.
Qed.

(** ** Directories *)

(** After [tmpfs_create] in a directory, opening the name gives the new file
    (unless an older child has the same name), opening any other name gives what
    it gave before, and listing the directory from the start gives the old names
    in order, then the new one, and ends. *)
Theorem tmpfs_create_open {S K : Type} `{ObjectAllocator K} (st : fs S K) U d cs name t fuel :
  is_dir st d cs -> oa_state (fobjs st) U -> (forall a, is_Some (nodes st !! a) -> a ∈ U) ->
  NoDup cs -> Forall (fun c => c <> 0 /\ c <> HINT_END) cs ->
  Z.of_nat (length name) < VFS_MAX_NAME_LEN -> (length cs + 1 < fuel)%nat ->
  tmpfs_create d name t st = Panic \/
  exists o st', tmpfs_create d name t st = Ok (EOK, o, st') /\ nodes st !! o = None /\ is_dir st' d (cs ++ [o]) /\
    (name ∉ name_of st <$> cs -> opened (tmpfs_open d name st') = Ok (EOK, o)) /\
    (forall nm, nm <> name -> opened (tmpfs_open d nm st') = opened (tmpfs_open d nm st)) /\
    (o <> HINT_END -> read_dir fuel d 0 st' = Ok ((name_of st <$> cs) ++ [name])).
Proof.
  intros Hd HU Hin Hnd Hval Hlen Hf. unfold tmpfs_create, tmpfs_open.
  by apply (create_open_ok st U d cs name sizeof_tmpfs_node _ fuel Hd HU Hin Hnd Hval Hlen Hf).
Qed.

(** ** Concrete runs *)

Definition ex_junk (a : Z) : list Z := replicate 4096 204.

(** A directory with one empty file called "f". *)
Definition ex_file : vnode_t := Vnode [102] VNODE_REG 0 tmpfs_ops 1 (TmpfsNode [] []).
Definition ex_dir : vnode_t := Vnode [] VNODE_DIR 0 tmpfs_ops 1 (TmpfsNode [2000] []).
Definition ex_fs : fs bump fresh := Fs {[1000 := ex_dir; 2000 := ex_file]} ∅ (Bump 1 []) (Fresh 4096 []).

Lemma ex_fs_nodes a n : nodes ex_fs !! a = Some n -> (a = 1000 /\ n = ex_dir) \/ (a = 2000 /\ n = ex_file).
Proof. cbn. intros [[<- <-]|[_ [<- <-]%lookup_singleton_Some]]%lookup_insert_Some; auto. Qed.

Lemma ex_fs_live a : is_Some (nodes ex_fs !! a) -> a ∈ ({[1000; 2000]} : gset Z).
Proof. intros [n Hn]. apply ex_fs_nodes in Hn as [[-> _]|[-> _]]; set_solver. Qed.

Lemma ex_fs_objs : oa_state (fobjs ex_fs) {[1000; 2000]}.
Proof. intros o [->%elem_of_singleton| ->%elem_of_singleton]%elem_of_union; cbn; lia. Qed.

Lemma ex_fs_inv : tmpfs_inv ex_HH ex_fs ∅ {[1000; 2000]}.
Proof.
  split.
  - split; [cbn; lia|]. intros a Ha. by apply elem_of_empty in Ha.
  - exact ex_fs_objs.
  - exact ex_fs_live.
  - intros a n Hn. apply ex_fs_nodes in Hn as [[-> ->]|[-> ->]]; cbn.
    all: split; [lia|]; split; [eauto|]; split; [by intros ? ? [= <- <-]|]; split; [apply NoDup_nil_2|by constructor].
  - intros a b n k p Hn _ Hp. apply ex_fs_nodes in Hn as [[-> ->]|[-> ->]]; by apply elem_of_nil in Hp.
Qed.

Lemma tmpfs_write_read_witness :
  tmpfs_write ex_HH ex_junk 2000 10 [1; 2; 3] ex_fs = Panic \/
  exists st', tmpfs_write ex_HH ex_junk 2000 10 [1; 2; 3] ex_fs = Ok (EOK, 3, st') /\
    tmpfs_read 2000 10 3 st' = Ok (EOK, [1; 2; 3]).
Proof.
  destruct (tmpfs_write_read ex_HH ex_junk ex_fs ∅ {[1000; 2000]} 2000 ex_file [] [] 10 [1; 2; 3])
    as [E|(st' & G' & U' & n' & E & _ & Er & _)].
  - exact ex_hhdm.
  - intros a. apply length_replicate.
  - exact ex_fs_inv.
  - reflexivity.
  - reflexivity.
  - lia.
  - simpl. lia.
  - unfold ARCH_PAGE_GRAN. simpl. lia.
  - left. exact E.
  - right. exists st'. split; [exact E|exact Er].
Defined.

Lemma ex_is_dir : is_dir ex_fs 1000 [2000].
Proof. exists ex_dir. split; [done|]. split; [done|]. split; [done|]. apply Forall_singleton. by exists ex_file. Qed.

Lemma tmpfs_create_open_witness :
  tmpfs_create 1000 [103] VNODE_REG ex_fs = Panic \/
  exists o st', tmpfs_create 1000 [103] VNODE_REG ex_fs = Ok (EOK, o, st') /\ opened (tmpfs_open 1000 [103] st') = Ok (EOK, o).
Proof.
  destruct (tmpfs_create_open ex_fs {[1000; 2000]} 1000 [2000] [103] VNODE_REG 10 ex_is_dir ex_fs_objs ex_fs_live)
    as [E|(o & st' & E & _ & _ & Ho & _)].
  - apply NoDup_singleton.
  - by apply Forall_singleton.
  - simpl. unfold VFS_MAX_NAME_LEN. lia.
  - simpl. lia.
  - left. exact E.
  - right. exists o, st'. split; [exact E|]. apply Ho. apply not_elem_of_cons. split; [done|apply not_elem_of_nil].
Defined.

(** A read of more than a page stops at the end of the first page, though the
    file goes on. *)
Lemma read_stops_at_page :
  match ('(_, _, st) ← tmpfs_write ex_HH ex_junk 2000 0 (replicate 8192 65) ex_fs; tmpfs_read 2000 0 8192 st) with
  | Ok (_, bs) => (length bs =? 4096)%nat
  | _ => false
  end = true.
Proof. vm_compute. reflexivity. Qed.

(** The write itself already reports only the first page as written. *)
Lemma write_stops_at_page :
  match tmpfs_write ex_HH ex_junk 2000 0 (replicate 8192 65) ex_fs with
  | Ok (_, n, st) => n =? 4096
  | _ => false
  end = true.
Proof. vm_compute. reflexivity. Qed.

(** A write at an offset in the second page goes past the end of the first one:
    it changes the page of whichever file lies there. *)
Lemma write_second_page_out_of_bounds :
  match ('(_, o, st) ← tmpfs_create 1000 [103] VNODE_REG ex_fs;
         '(_, _, st) ← tmpfs_write ex_HH ex_junk 2000 0 (replicate 4096 65) st;
         '(_, _, st) ← tmpfs_write ex_HH ex_junk o 0 (replicate 4096 67) st;
         '(_, _, st) ← tmpfs_write ex_HH ex_junk 2000 5000 [66] st;
         tmpfs_read o 904 1 st) with
  | Ok (_, bs) => bool_decide (bs = [66])
  | _ => false
  end = true.
Proof. vm_compute. reflexivity. Qed.

(** [tmpfs_read] does not look at the size: it returns what the page held before
    the file got it. *)
Lemma read_past_end :
  match ('(_, _, st) ← tmpfs_write ex_HH ex_junk 2000 0 [65] ex_fs; tmpfs_read 2000 0 3 st) with
  | Ok (_, bs) => bool_decide (bs = [65; 204; 204])
  | _ => false
  end = true.
Proof. vm_compute. reflexivity. Qed.

(** The root of a new tmpfs has no list of children: creating a file in it
    accesses memory behind the allocated vnode. *)
Lemma tmpfs_root_too_small :
  match ('(_, r, st) ← tmpfs_get_root_vnode NULL ex_fs; tmpfs_create r [103] VNODE_REG st) with
  | Fault => true
  | _ => false
  end = true.
Proof. vm_compute. reflexivity. Qed.

(** [tmpfs_close] frees a node its parent still lists: the next lookup that
    passes over it uses freed memory. *)
Lemma close_leaves_link :
  match ('(_, o, st) ← tmpfs_create 1000 [103] VNODE_REG ex_fs;
         n ← deref (nodes st !! o);
         '(_, st) ← tmpfs_close o (set_nodes (<[o := set_refs 0 n]> (nodes st)) st);
         tmpfs_open 1000 [104] st) with
  | Fault => true
  | _ => false
  end = true.
Proof. vm_compute. reflexivity. Qed.
