(* ===== verification/Vfs.v ===== *)
(** * Virtual file system (kernel/src/fs/vfs.c)

    Mount points are a trie of path components; the layer above the vnode
    operations resolves paths and keeps the page caches of cached vnodes.  Paths
    are C strings in memory, since the code walks them by pointer; the functions
    take a fuel for the string scans.  The vnode operations are those of any
    implementation of [VnodeOps]; page caches, trees keyed by the file offset
    (Rbtree.v), are finite maps from offsets to pages. *)
From stdpp Require Import base gmap list fin_maps sorting.
From Stdlib Require Import ZArith Lia.
From S2P Require Import Prelude Interfaces Pmm Kmem Strings Nodes.

(** ** Vnode operations *)

(** [vn->ops->...], with the results the callers look at: [vo_open] gives the
    status and [*out], [vo_read] the status and the bytes stored in the buffer,
    [vo_write] the status and [*out], [vo_create] the status and [*out]; the last
    three are fields of the vnode. *)
Class VnodeOps (W : Type) := {
  vo_open : Z -> list Z -> W -> outcome (Z * Z * W);
  vo_close : Z -> W -> outcome (Z * W);
  vo_read : Z -> Z -> Z -> W -> outcome (Z * list Z * W);
  vo_write : Z -> Z -> list Z -> W -> outcome (Z * Z * W);
  vo_create : Z -> list Z -> vnode_type_t -> W -> outcome (Z * Z * W);
  vo_ioctl : Z -> Z -> Z -> W -> outcome (Z * W);
  vo_name : Z -> W -> outcome (list Z);
  vo_size : Z -> W -> outcome Z;
  vo_type : Z -> W -> outcome vnode_type_t
}.

(** ** Mount points *)

Inductive trie_node_t := Trie { comp : list Z; root_vn : Z; children : list trie_node_t }.

Definition COMP_LEN : Z := 32.
Definition MAX_CHILDREN : nat := 16.

(** [strncmp(child->comp, path, length) == 0] for the first child that has it. *)
Definition find_child (parent : trie_node_t) (path : list Z) (length : Z) : option nat :=
  (fun '(i, _) => i) <$> list_find (fun c => take (Z.to_nat length) (comp c) = take (Z.to_nat length) path) (children parent).

Definition UINT64_MAX : Z := 2 ^ 64 - 1.

Fixpoint get_mountpoint (fuel sfuel : nat) (m : mem) (current : trie_node_t) (path : Z) : outcome (Z * Z) :=
  match fuel with
  | O => NoFuel
  | S fuel =>
      c ← load m path;
      if c =? 0 then Ok (path, root_vn current)
      else
        path ← skip_slashes sfuel m path;
        s ← read_cstr sfuel m path;
        let length := match first_index SLASH s with Some i => Z.of_nat i | None => UINT64_MAX end in
        match find_child current s length with
        | Some i =>
            child ← deref (children current !! i);
            get_mountpoint fuel sfuel m child (path + Z.of_nat (List.length (comp child)))
        | None => Ok (path, root_vn current)
        end
  end.

(** The rest of the path and [*out]. *)
Definition vfs_get_mountpoint (fuel : nat) (m : mem) (g_trie_root : trie_node_t) (path : Z) : outcome (Z * Z) :=
  get_mountpoint fuel fuel m g_trie_root path.

(** A string up to its terminator. *)
Fixpoint until_nul (s : list Z) : list Z :=
  match s with
  | [] => []
  | b :: s => if b =? 0 then [] else b :: until_nul s
  end.

(** [comp] of a fresh trie node whose memory held [garbage], after
    [strncpy(comp, path, comp_len)].  A component that does not fit overwrites
    [root_vn] and [children]. *)
Definition copy_comp (garbage s : list Z) (comp_len : Z) : outcome (list Z) :=
  let bytes := take (Z.to_nat comp_len) s in
  if Z.of_nat (length bytes) <? COMP_LEN then
    Ok (if Z.of_nat (length bytes) <? comp_len then bytes
        else until_nul (bytes ++ drop (length bytes) garbage))
  else Fault.

(** The loop of [vfs_mount_vnode], from the node [current] down; the result is
    the changed node. *)
Fixpoint mount_from (fuel sfuel : nat) (m : mem) (garbage : list Z) (current : trie_node_t) (path vn : Z) : outcome trie_node_t :=
  match fuel with
  | O => NoFuel
  | S fuel =>
      let done := Ok (Trie (comp current) vn (children current)) in
      c ← load m path;
      if c =? 0 then done
      else
        path ← skip_slashes sfuel m path;
        s ← read_cstr sfuel m path;
        if bool_decide (s = []) then done
        else
          let comp_len := match first_index SLASH s with Some i => Z.of_nat i | None => VFS_MAX_NAME_LEN end in
          match find_child current s comp_len with
          | Some i =>
              child ← deref (children current !! i);
              child ← mount_from fuel sfuel m garbage child (path + comp_len) vn;
              Ok (Trie (comp current) (root_vn current) (<[i := child]> (children current)))
          | None =>
              cm ← copy_comp garbage s comp_len;
              if bool_decide (length (children current) < MAX_CHILDREN)%nat then
                child ← mount_from fuel sfuel m garbage (Trie cm NULL []) (path + comp_len) vn;
                Ok (Trie (comp current) (root_vn current) (children current ++ [child]))
              else Fault
          end
  end.

Definition vfs_mount_vnode (fuel : nat) (m : mem) (garbage : list Z) (g_trie_root : trie_node_t) (vn path : Z) : outcome trie_node_t :=
  mount_from fuel fuel m garbage g_trie_root path vn.

(** A file system type: does it know the device, and the root vnode it gives. *)
Record filesystem_type_t := FsType { probe : Z -> bool; get_root_vnode : Z -> Z }.

Definition vfs_mount (fuel : nat) (m : mem) (garbage : list Z) (g_trie_root : trie_node_t)
    (blk : Z) (fs_type : filesystem_type_t) (path : Z) : outcome (Z * trie_node_t) :=
  if probe fs_type blk then
    t ← vfs_mount_vnode fuel m garbage g_trie_root (get_root_vnode fs_type blk) path;
    Ok (EOK, t)
  else Ok (-1, g_trie_root).

(** The list of file system types. *)
Definition vfs_register_fs_type (g_fs_type_list : list filesystem_type_t) (fs_type : filesystem_type_t) : list filesystem_type_t :=
  g_fs_type_list ++ [fs_type].

Definition vfs_init : trie_node_t := Trie [SLASH] NULL [].

(** ** Veneer layer *)

(** A cached page of a vnode: its physical address and the object that
    describes it. *)
Record vnode_page_t := VnodePage { page_addr : Z; page_obj : Z }.

(** [vcached]: the page caches of the vnodes with [cached] set. *)
Record vfs_state (W S K : Type) := VfsState {
  vw : W; vcached : gmap Z (gmap Z vnode_page_t); vpages : S; vobjs : K; pmem : mem
}.
Arguments VfsState {W S K}. Arguments vw {W S K}. Arguments vcached {W S K}. Arguments vpages {W S K}.
Arguments vobjs {W S K}. Arguments pmem {W S K}.

Definition sizeof_vnode_page : Z := 56.

Section veneer.
Context {W S K : Type} `{VnodeOps W} `{PageAllocator S} `{ObjectAllocator K} (HHDM : Z) (junk : Z -> list Z).
Implicit Types st : vfs_state W S K.

Definition set_vw (w : W) st : vfs_state W S K := VfsState w (vcached st) (vpages st) (vobjs st) (pmem st).
Definition set_vcached c st : vfs_state W S K := VfsState (vw st) c (vpages st) (vobjs st) (pmem st).
Definition set_vpages (p : S) st : vfs_state W S K := VfsState (vw st) (vcached st) p (vobjs st) (pmem st).
Definition set_vobjs (k : K) st : vfs_state W S K := VfsState (vw st) (vcached st) (vpages st) k (pmem st).
Definition set_pmem (m : mem) st : vfs_state W S K := VfsState (vw st) (vcached st) (vpages st) (vobjs st) m.

(** The loop of [vfs_open]; the slash behind a component is a terminator while
    the operation runs. *)
Fixpoint open_loop (fuel sfuel : nat) (m : mem) (curr path : Z) (w : W) : outcome (Z * W) :=
  match fuel with
  | O => NoFuel
  | Datatypes.S fuel =>
      c ← load m path;
      if (curr =? NULL) || (c =? 0) then Ok (curr, w)
      else
        path ← skip_slashes sfuel m path;
        s ← read_cstr sfuel m path;
        let name := match first_index SLASH s with Some i => take i s | None => s end in
        '(_, curr, w) ← vo_open curr name w;
        nm ← (if curr =? NULL then Fault else vo_name curr w);
        open_loop fuel sfuel m curr (path + Z.of_nat (length nm)) w
  end.

Definition vfs_open (fuel : nat) (m : mem) (g_trie_root : trie_node_t) (path : Z) (w : W) : outcome (Z * Z * W) :=
  '(path, curr) ← vfs_get_mountpoint fuel m g_trie_root path;
  ASSERT (negb (curr =? NULL));;
  '(curr, w) ← open_loop fuel fuel m curr path w;
  Ok (EOK, curr, w).

(** A page for [page_off], not in the cache yet. *)
Definition new_page st : outcome (vnode_page_t * vfs_state W S K) :=
  '(o, k) ← obj_alloc sizeof_vnode_page (vobjs st);
  '(a, pg) ← page_alloc (vpages st);
  Ok (VnodePage a o, set_pmem (write_bytes (pmem st) (u64 (a + HHDM)) (junk a)) (set_vpages pg (set_vobjs k st))).

(** Offset in the page, offset of the page, bytes of it that are copied. *)
Definition split_range (offset count done : Z) : Z * Z * Z :=
  let off_in_page := u64 (offset + done) mod ARCH_PAGE_GRAN in
  let page_off := u64 (offset + done) - off_in_page in
  let to_copy := ARCH_PAGE_GRAN - off_in_page in
  (off_in_page, page_off, if count - done <? to_copy then count - done else to_copy).

Definition page_addr_in (vp : vnode_page_t) (off : Z) : Z := u64 (page_addr vp + off + HHDM).

(** One iteration of [vfs_read]: a status to return, or the bytes and [to_copy].
    The page of a failed read is not given back. *)
Definition read_step (vn : Z) (pc : gmap Z vnode_page_t) (offset count done : Z) st :
    outcome ((Z + list Z * Z * gmap Z vnode_page_t) * vfs_state W S K) :=
  let '(off_in_page, page_off, to_copy) := split_range offset count done in
  match pc !! page_off with
  | Some vp =>
      bs ← kread (pmem st) (page_addr_in vp off_in_page) (Z.to_nat to_copy);
      Ok (inr (bs, to_copy, pc), st)
  | None =>
      '(vp, st) ← new_page st;
      '(status, bs, w) ← vo_read vn page_off ARCH_PAGE_GRAN (vw st);
      let st := set_pmem (write_bytes (pmem st) (page_addr_in vp 0) bs) (set_vw w st) in
      if negb (status =? EOK) then
        k ← obj_free (page_obj vp) (vobjs st);
        Ok (inl status, set_vobjs k st)
      else
        let pc := <[page_off := vp]> pc in
        bs ← kread (pmem st) (page_addr_in vp off_in_page) (Z.to_nat to_copy);
        Ok (inr (bs, to_copy, pc), set_vcached (<[vn := pc]> (vcached st)) st)
  end.

Fixpoint read_loop (fuel : nat) (vn : Z) (pc : gmap Z vnode_page_t) (offset count done : Z) st :
    outcome (Z * list Z * vfs_state W S K) :=
  if done <? count then
    match fuel with
    | O => NoFuel
    | Datatypes.S fuel =>
        '(r, st) ← read_step vn pc offset count done st;
        match r with
        | inl status => Ok (status, [], st)
        | inr (bs, n, pc) =>
            '(status, rest, st) ← read_loop fuel vn pc offset count (done + n) st;
            Ok (status, bs ++ rest, st)
        end
    end
  else Ok (EOK, [], st).

(** Status and the bytes stored in the buffer; [*out] is their number. *)
Definition vfs_read (vn offset count : Z) st : outcome (Z * list Z * vfs_state W S K) :=
  match vcached st !! vn with
  | None => '(status, bs, w) ← vo_read vn offset count (vw st); Ok (status, bs, set_vw w st)
  | Some pc => read_loop (Z.to_nat count) vn pc offset count 0 st
  end.

(** The page of an iteration of [vfs_write], read in when it is only partly
    overwritten. *)
Definition write_page (vn : Z) (pc : gmap Z vnode_page_t) (off_in_page page_off to_copy : Z) st :
    outcome (vnode_page_t * gmap Z vnode_page_t * vfs_state W S K) :=
  match pc !! page_off with
  | Some vp => Ok (vp, pc, st)
  | None =>
      '(vp, st) ← new_page st;
      st ← (if (0 <? off_in_page) || (to_copy <? ARCH_PAGE_GRAN) then
              '(_, bs, w) ← vo_read vn page_off ARCH_PAGE_GRAN (vw st);
              Ok (set_pmem (write_bytes (pmem st) (page_addr_in vp 0) bs) (set_vw w st))
            else Ok st);
      let pc := <[page_off := vp]> pc in
      Ok (vp, pc, set_vcached (<[vn := pc]> (vcached st)) st)
  end.

Fixpoint write_loop (fuel : nat) (vn : Z) (pc : gmap Z vnode_page_t) (offset done : Z) (buffer : list Z) st :
    outcome (Z * vfs_state W S K) :=
  let count := Z.of_nat (length buffer) in
  if done <? count then
    match fuel with
    | O => NoFuel
    | Datatypes.S fuel =>
        let '(off_in_page, page_off, to_copy) := split_range offset count done in
        '(vp, pc, st) ← write_page vn pc off_in_page page_off to_copy st;
        let bs := take (Z.to_nat to_copy) (drop (Z.to_nat done) buffer) in
        let st := set_pmem (write_bytes (pmem st) (page_addr_in vp off_in_page) bs) st in
        '(status, _, w) ← vo_write vn (u64 (offset + done)) bs (vw st);
        let st := set_vw w st in
        if negb (status =? EOK) then Ok (status, st)
        else write_loop fuel vn pc offset (done + to_copy) buffer st
    end
  else Ok (EOK, st).

(** Status and what was stored in [*out], if anything. *)
Definition vfs_write (vn offset : Z) (buffer : list Z) st : outcome (Z * option Z * vfs_state W S K) :=
  match vcached st !! vn with
  | None => '(status, out, w) ← vo_write vn offset buffer (vw st); Ok (status, Some out, set_vw w st)
  | Some pc =>
      '(status, st) ← write_loop (length buffer) vn pc offset 0 buffer st;
      Ok (status, (if status =? EOK then Some (Z.of_nat (length buffer)) else None), st)
  end.

(** The loop of [vfs_close] over the cached pages in the order of their keys.
    The buffer is the physical address of the page. *)
Fixpoint flush (vn : Z) (ps : list (Z * vnode_page_t)) (pc : gmap Z vnode_page_t) st : outcome (vfs_state W S K) :=
  match ps with
  | [] => Ok st
  | (key, vp) :: ps =>
      bs ← kread (pmem st) (page_addr vp) (Z.to_nat ARCH_PAGE_GRAN);
      '(_, _, w) ← vo_write vn key bs (vw st);
      let pc := delete key pc in
      let st := set_vcached (<[vn := pc]> (vcached st)) (set_vw w st) in
      pg ← page_release (page_addr vp) (vpages st);
      k ← obj_free (page_obj vp) (vobjs st);
      flush vn ps pc (set_vpages pg (set_vobjs k st))
  end.

Definition by_key (x y : Z * vnode_page_t) : Prop := x.1 <= y.1.
#[global] Instance by_key_dec x y : Decision (by_key x y).
Proof. unfold by_key. apply _. Defined.

Definition vfs_close (vn : Z) st : outcome (Z * vfs_state W S K) :=
  st ← (match vcached st !! vn with
        | None => Ok st
        | Some pc => flush vn (merge_sort by_key (map_to_list pc)) pc st
        end);
  '(status, w) ← vo_close vn (vw st);
  Ok (status, set_vw w st).

Definition PARENT_LEN : Z := 256.

(** [frame] is the address of [parent_path] on the stack. *)
Definition vfs_create (fuel : nat) (m : mem) (frame : Z) (g_trie_root : trie_node_t) (path : Z) (t : vnode_type_t) (w : W) :
    outcome (Z * Z * W) :=
  s ← read_cstr fuel m path;
  match last_index SLASH s with
  | None => Ok (- EINVAL, NULL, w)
  | Some c =>
      let parent := take c s in
      let name := drop (Datatypes.S c) s in
      if (Z.of_nat (length parent) <? PARENT_LEN) && (Z.of_nat (length name) <? VFS_MAX_NAME_LEN) then
        '(status, node, w) ← vfs_open fuel (write_bytes m frame (parent ++ [0])) g_trie_root frame w;
        if status <? 0 then Ok (- ENOENT, NULL, w) else vo_create node name t w
      else Fault
  end.
End veneer.

(** ** Cache transparency *)

(** The bytes [f off], ..., [f (off + n - 1)]. *)
Definition cells (f : Z -> Z) (off : Z) (n : nat) : list Z := (fun i => f (off + Z.of_nat i)) <$> seq 0 n.

Lemma cells_length f off n : length (cells f off n) = n.
Proof. unfold cells. by rewrite length_fmap, length_seq. Qed.

Lemma cells_lookup f off n i : (i < n)%nat -> cells f off n !! i = Some (f (off + Z.of_nat i)).
Proof. intros Hi. unfold cells. rewrite list_lookup_fmap, lookup_seq_lt by done. done. Qed.

Lemma cells_app f off a b : cells f off (a + b) = cells f off a ++ cells f (off + Z.of_nat a) b.
Proof.
  unfold cells. rewrite seq_app, fmap_app. f_equal. rewrite Nat.add_comm, <- fmap_add_seq, <- list_fmap_compose.
  apply list_fmap_ext. intros i x _. unfold compose. f_equal. lia.
Qed.

Lemma cells_slice f off n a b : (a + b <= n)%nat -> take b (drop a (cells f off n)) = cells f (off + Z.of_nat a) b.
Proof.
  intros Hab. replace n with (a + (b + (n - a - b)))%nat by lia. rewrite !cells_app.
  rewrite drop_app_length' by (by rewrite cells_length). rewrite take_app_length' by (by rewrite cells_length). done.
Qed.

Lemma cells_ext f g off n : (forall x, off <= x < off + Z.of_nat n -> f x = g x) -> cells f off n = cells g off n.
Proof.
  intros Hfg. unfold cells. apply list_fmap_ext. intros i x Hx. apply lookup_seq in Hx as [-> Hx]. apply Hfg. lia.
Qed.

Lemma bytes_at_cells m p f off n : bytes_at m p (cells f off n) <-> forall i, 0 <= i < Z.of_nat n -> m !! (p + i) = Some (f (off + i)).
Proof.
  split.
  - intros Hb i Hi. specialize (Hb (Z.to_nat i) (f (off + i))). rewrite Z2Nat.id in Hb by lia. apply Hb.
    rewrite cells_lookup by lia. do 2 f_equal. lia.
  - intros Hm i b Hb. pose proof (lookup_lt_Some _ _ _ Hb) as Hi. rewrite cells_length in Hi. rewrite cells_lookup in Hb by done.
    injection Hb as <-. apply Hm. lia.
Qed.

(** [f] with [bs] written from [off] on. *)
Definition overwrite (f : Z -> Z) (off : Z) (bs : list Z) (x : Z) : Z :=
  if decide (off <= x < off + Z.of_nat (length bs)) then default 0 (bs !! Z.to_nat (x - off)) else f x.

(** What was written over a range is what the range holds. *)
Lemma cells_overwrite f g off bs : (forall x, g x = overwrite f off bs x) -> cells g off (length bs) = bs.
Proof.
  intros Hg. apply list_eq. intros i. destruct (decide (i < length bs)%nat) as [Hi|Hi].
  - rewrite cells_lookup by done. rewrite Hg. unfold overwrite. rewrite decide_True by lia.
    replace (Z.to_nat (off + Z.of_nat i - off)) with i by lia.
    destruct (lookup_lt_is_Some_2 bs i Hi) as [b Hb]. by rewrite Hb.
  - rewrite (proj2 (lookup_ge_None bs i)) by lia. apply lookup_ge_None. rewrite cells_length. lia.
Qed.

Section cache.
Context {W S K : Type} `{VnodeOps W} `{PageAllocator S} `{ObjectAllocator K} (HHDM : Z) (HH : hhdm_ok HHDM) (junk : Z -> list Z)
  (Hjunk : forall a, length (junk a) = Z.to_nat ARCH_PAGE_GRAN).
Context (vn : Z) (cont : W -> Z -> Z).
Implicit Types st : vfs_state W S K.

(** A vnode whose operations serve whole pages and write what they are given,
    such as one on a disk; [cont w] are its bytes. *)
Record backed : Prop := {
  bk_read : forall w off, 0 <= off -> off + ARCH_PAGE_GRAN <= 2 ^ 64 -> (ARCH_PAGE_GRAN | off) ->
    vo_read vn off ARCH_PAGE_GRAN w = Ok (EOK, cells (cont w) off (Z.to_nat ARCH_PAGE_GRAN), w);
  bk_write : forall w off bs, 0 <= off -> off + Z.of_nat (length bs) <= 2 ^ 64 ->
    exists n w', vo_write vn off bs w = Ok (EOK, n, w') /\ forall x, cont w' x = overwrite (cont w) off bs x
}.

(** Every cached page holds the bytes of the file except those in [hole], in a
    page of its own. *)
Record cached_but (hole : Z -> Prop) st (pc : gmap Z vnode_page_t) : Prop := {
  co_pc : vcached st !! vn = Some pc;
  co_alloc : exists G U, pa_state (vpages st) G /\ oa_state (vobjs st) U /\ forall k vp, pc !! k = Some vp -> page_addr vp ∈ G;
  co_page : forall k vp, pc !! k = Some vp -> 0 <= k /\ k + ARCH_PAGE_GRAN <= 2 ^ 64 /\ (ARCH_PAGE_GRAN | k) /\ phys_page (page_addr vp) /\
    forall i, 0 <= i < ARCH_PAGE_GRAN -> ~ hole (k + i) -> pmem st !! (page_addr vp + HHDM + i) = Some (cont (vw st) (k + i));
  co_inj : forall k l vp vq, pc !! k = Some vp -> pc !! l = Some vq -> page_addr vp = page_addr vq -> k = l
}.

Definition no_hole (x : Z) : Prop := False.
Definition cache_ok := cached_but no_hole.

Lemma page_addr_in_ok vp off : phys_page (page_addr vp) -> 0 <= off < ARCH_PAGE_GRAN ->
  page_addr_in HHDM vp off = page_addr vp + HHDM + off.
Proof.
  intros (? & ? & _) Ho. destruct HH as (? & ? & _). unfold page_addr_in, ARCH_PAGE_GRAN in *. rewrite u64_small by lia. lia.
Qed.

Lemma split_range_ok offset count done : 0 <= offset -> offset + count <= 2 ^ 64 -> 0 <= done < count ->
  let '(o, p, n) := split_range offset count done in
  p + o = offset + done /\ 0 <= o /\ o + n <= ARCH_PAGE_GRAN /\ 0 < n <= count - done /\
  0 <= p /\ p + ARCH_PAGE_GRAN <= 2 ^ 64 /\ (ARCH_PAGE_GRAN | p).
Proof.
  intros Ho Hc Hd. unfold split_range. rewrite u64_small by lia.
  pose proof (Z.mod_pos_bound (offset + done) ARCH_PAGE_GRAN eq_refl) as Hm.
  assert ((ARCH_PAGE_GRAN | offset + done - (offset + done) mod ARCH_PAGE_GRAN)) as [k Hk].
  { exists ((offset + done) / ARCH_PAGE_GRAN). pose proof (Z.div_mod (offset + done) ARCH_PAGE_GRAN ltac:(done)). lia. }
  assert ((ARCH_PAGE_GRAN | 2 ^ 64)) as [l Hl] by (by exists (2 ^ 52)).
  destruct (Z.ltb_spec (count - done) (ARCH_PAGE_GRAN - (offset + done) mod ARCH_PAGE_GRAN)).
  all: split_and!; [lia|lia|lia|lia|lia| | |by exists k]; unfold ARCH_PAGE_GRAN in *; lia.
Qed.

(** A page taken from the allocator is none of the cached ones. *)
Lemma new_page_ok st pc : cache_ok st pc ->
  new_page HHDM junk st = Panic \/
  exists vp st' G U, new_page HHDM junk st = Ok (vp, st') /\ vw st' = vw st /\ vcached st' = vcached st /\ phys_page (page_addr vp) /\
    pa_state (vpages st') G /\ oa_state (vobjs st') U /\ page_addr vp ∈ G /\
    (forall k vq, pc !! k = Some vq -> page_addr vq ∈ G /\ page_addr vq <> page_addr vp) /\
    (forall x, x < page_addr vp + HHDM \/ page_addr vp + HHDM + ARCH_PAGE_GRAN <= x -> pmem st' !! x = pmem st !! x).
Proof.
  intros HI. destruct (co_alloc _ _ _ HI) as (G & U & HG & HU & Hin). unfold new_page.
  destruct (obj_alloc_spec _ U sizeof_vnode_page HU) as [E|(o & k & E & HU' & _)]; [done| |]; run E; [by left|].
  destruct (page_alloc_spec _ _ HG) as [E2|(a & pg & E2 & HG' & Ha & Hp)]; run E2; [by left|right].
  eexists _, _, ({[a]} ∪ G), ({[o]} ∪ U). split; [reflexivity|]. cbn. split; [done|]. split; [done|]. split; [done|]. split; [done|].
  split; [done|]. split; [clear; set_solver|]. split.
  - intros l vq Hq. apply Hin in Hq. split; [clear - Hq; set_solver|]. intros E'. by rewrite E' in Hq.
  - intros x Hx. destruct Hp as (? & ? & _), HH as (? & ? & _). apply write_bytes_out. rewrite Hjunk.
    rewrite u64_small by (unfold ARCH_PAGE_GRAN in *; lia). rewrite Z2Nat.id by done. lia.
Qed.

(** Frames of the direct map do not meet. *)
Lemma frame_apart a b i : phys_page a -> phys_page b -> a <> b -> 0 <= i < ARCH_PAGE_GRAN ->
  a + HHDM + i < b + HHDM \/ b + HHDM + ARCH_PAGE_GRAN <= a + HHDM + i.
Proof.
  intros (_ & _ & [k ->]) (_ & _ & [l ->]) Hne Hi. unfold ARCH_PAGE_GRAN in *.
  assert (k < l \/ l < k) by (destruct (decide (k = l)); [by subst|lia]). lia.
Qed.

(** Putting a page with the bytes of the file into the cache. *)
Lemma cache_add (hole : Z -> Prop) st st' pc vp page_off G U :
  cache_ok st pc -> pc !! page_off = None -> 0 <= page_off -> page_off + ARCH_PAGE_GRAN <= 2 ^ 64 -> (ARCH_PAGE_GRAN | page_off) ->
  phys_page (page_addr vp) -> pa_state (vpages st') G -> oa_state (vobjs st') U -> page_addr vp ∈ G ->
  (forall k vq, pc !! k = Some vq -> page_addr vq ∈ G /\ page_addr vq <> page_addr vp) ->
  vcached st' !! vn = Some (<[page_off := vp]> pc) -> vw st' = vw st ->
  (forall i, 0 <= i < ARCH_PAGE_GRAN -> ~ hole (page_off + i) -> pmem st' !! (page_addr vp + HHDM + i) = Some (cont (vw st) (page_off + i))) ->
  (forall x, x < page_addr vp + HHDM \/ page_addr vp + HHDM + ARCH_PAGE_GRAN <= x -> pmem st' !! x = pmem st !! x) ->
  cached_but hole st' (<[page_off := vp]> pc).
Proof.
  intros HI Hno Hk0 Hk1 Hd Hp HG HU HpG Hold Hpc Hw Hb Hout. split.
  - exact Hpc.
  - exists G, U. split; [exact HG|]. split; [exact HU|]. intros k vq [[<- <-]|[_ Hk]]%lookup_insert_Some; [exact HpG|]. by apply (Hold k vq).
  - rewrite Hw. intros k vq [[<- <-]|[_ Hk]]%lookup_insert_Some.
    + split; [exact Hk0|]. split; [exact Hk1|]. split; [exact Hd|]. split; [exact Hp|]. exact Hb.
    + destruct (co_page _ _ _ HI k vq Hk) as (Hq0 & Hq1 & Hq2 & Hpq & Hbq).
      split; [exact Hq0|]. split; [exact Hq1|]. split; [exact Hq2|]. split; [exact Hpq|]. intros i Hi _.
      rewrite Hout by (apply (frame_apart (page_addr vq) (page_addr vp) i); [exact Hpq|exact Hp|by apply (Hold k vq)|exact Hi]).
      apply Hbq; [exact Hi|]. intros [].
  - intros k l vp' vq [[<- <-]|[Hnk Hk]]%lookup_insert_Some [[<- <-]|[Hnl Hl]]%lookup_insert_Some E; [reflexivity| | |].
    + by destruct (Hold _ _ Hl).
    + by destruct (Hold _ _ Hk).
    + by eapply (co_inj _ _ _ HI).
Qed.

(** Reading from a cached page. *)
Lemma cached_bytes st pc k vp o n : cache_ok st pc -> pc !! k = Some vp -> 0 <= o -> 0 < n -> o + n <= ARCH_PAGE_GRAN ->
  kread (pmem st) (page_addr_in HHDM vp o) (Z.to_nat n) = Ok (cells (cont (vw st)) (k + o) (Z.to_nat n)).
Proof.
  intros HI Hk Ho Hn Hon. destruct (co_page _ _ _ HI k vp Hk) as (_ & _ & _ & Hp & Hb). rewrite page_addr_in_ok by (exact Hp || lia).
  rewrite <- (cells_length (cont (vw st)) (k + o) (Z.to_nat n)) at 1. apply kread_ok. apply bytes_at_cells. intros i Hi.
  rewrite <- !Z.add_assoc. rewrite Z.add_assoc. apply Hb; [lia|]. intros [].
Qed.

Lemma pmem_set_vcached c st : pmem (set_vcached c st) = pmem st.
Proof. done. Qed.

(** The page for [page_off], whether it was cached or is read in now. *)
Lemma load_page_ok st pc page_off : backed -> cache_ok st pc -> pc !! page_off = None ->
  0 <= page_off -> page_off + ARCH_PAGE_GRAN <= 2 ^ 64 -> (ARCH_PAGE_GRAN | page_off) ->
  new_page HHDM junk st = Panic \/
  exists vp st1, new_page HHDM junk st = Ok (vp, st1) /\ vw st1 = vw st /\ vcached st1 = vcached st /\ phys_page (page_addr vp) /\
    let st2 := set_pmem (write_bytes (pmem st1) (page_addr_in HHDM vp 0) (cells (cont (vw st)) page_off (Z.to_nat ARCH_PAGE_GRAN)))
      (set_vw (vw st) st1) in
    cache_ok (set_vcached (<[vn := <[page_off := vp]> pc]> (vcached st2)) st2) (<[page_off := vp]> pc).
Proof.
  intros HB HI Hno Hp0 Hp1 Hpd.
  destruct (new_page_ok st pc HI) as [E|(vp & st1 & G & U & E & Ew & Ec & Hp & HG & HU & HpG & Hold & Hout)]; [by left|right].
  exists vp, st1. split; [exact E|]. split; [exact Ew|]. split; [exact Ec|]. split; [exact Hp|]. cbv zeta.
  rewrite page_addr_in_ok, Z.add_0_r by (exact Hp || (unfold ARCH_PAGE_GRAN; lia)).
  eapply (cache_add no_hole st); [exact HI|exact Hno|exact Hp0|exact Hp1|exact Hpd|exact Hp|exact HG|exact HU|exact HpG|exact Hold| | | |].
  - cbn. apply lookup_insert_eq.
  - reflexivity.
  - intros i Hi _. cbn [pmem set_pmem set_vcached].
    apply (proj1 (bytes_at_cells _ _ _ _ _) (write_bytes_at (pmem st1) _ _)). rewrite Z2Nat.id by lia. exact Hi.
  - intros x Hx. cbn [pmem set_pmem set_vcached]. rewrite write_bytes_out by (rewrite cells_length, Z2Nat.id by (unfold ARCH_PAGE_GRAN; lia); exact Hx).
    by apply Hout.
Qed.

Lemma read_step_ok st pc offset count dn : backed -> cache_ok st pc -> 0 <= offset -> offset + count <= 2 ^ 64 -> 0 <= dn < count ->
  read_step HHDM junk vn pc offset count dn st = Panic \/
  exists n pc' st', read_step HHDM junk vn pc offset count dn st =
      Ok (inr (cells (cont (vw st)) (offset + dn) (Z.to_nat n), n, pc'), st') /\
    0 < n <= count - dn /\ cache_ok st' pc' /\ vw st' = vw st.
Proof.
  intros HB HI Ho Hoc Hd. pose proof (split_range_ok offset count dn Ho Hoc Hd) as Hs. unfold read_step.
  destruct (split_range offset count dn) as [[o p] n]. destruct Hs as (Ep & Ho0 & Hon & Hn & Hp0 & Hp1 & Hpd). rewrite <- Ep.
  destruct (pc !! p) as [vp|] eqn:Epc.
  - right. rewrite (cached_bytes st pc p vp o n) by (done || lia). go. exists n, pc, st. split; [reflexivity|]. split; [exact Hn|]. by split.
  - destruct (load_page_ok st pc p HB HI Epc Hp0 Hp1 Hpd) as [E|(vp & st1 & E & Ew & Ec & Hp & HI')]; rewrite E; go; [by left|right].
    rewrite Ew, (bk_read HB _ _ Hp0 Hp1 Hpd). go. cbn [negb Z.eqb EOK]. cbv zeta in HI'.
    set (st2 := set_pmem _ _) in *. set (pc' := <[p := vp]> pc) in *. set (st3 := set_vcached _ st2) in *.
    pose proof (pmem_set_vcached (<[vn := pc']> (vcached st2)) st2) as Epm. fold st3 in Epm. rewrite <- Epm. clear Epm.
    rewrite (cached_bytes st3 pc' p vp o n HI') by (apply lookup_insert_eq || lia). go.
    exists n, pc', st3. split; [reflexivity|]. split; [exact Hn|]. split; [exact HI'|reflexivity].
Qed.

Lemma read_loop_ok offset count : backed -> 0 <= offset -> offset + count <= 2 ^ 64 -> forall fuel st pc dn,
  cache_ok st pc -> 0 <= dn <= count -> count - dn <= Z.of_nat fuel ->
  read_loop HHDM junk fuel vn pc offset count dn st = Panic \/
  exists pc' st', read_loop HHDM junk fuel vn pc offset count dn st =
      Ok (EOK, cells (cont (vw st)) (offset + dn) (Z.to_nat (count - dn)), st') /\
    cache_ok st' pc' /\ vw st' = vw st.
Proof.
  intros HB Ho Hoc. induction fuel as [|fuel IH]; intros st pc dn HI Hd Hf; cbn [read_loop].
  - rewrite (proj2 (Z.ltb_ge dn count)) by lia. right. exists pc, st. replace (count - dn) with 0 by lia. by split.
  - destruct (Z.ltb_spec dn count); [|right; exists pc, st; replace (count - dn) with 0 by lia; by split].
    destruct (read_step_ok st pc offset count dn HB HI Ho Hoc ltac:(lia)) as [E|(n & pc1 & st1 & E & Hn & HI1 & Ew)]; rewrite E; go; [by left|].
    destruct (IH st1 pc1 (dn + n) HI1 ltac:(lia) ltac:(lia)) as [E2|(pc2 & st2 & E2 & HI2 & Ew2)]; rewrite E2; go; [by left|right].
    exists pc2, st2. split; [|split; [exact HI2|congruence]]. do 3 f_equal. rewrite Ew.
    replace (Z.to_nat (count - dn)) with (Z.to_nat n + Z.to_nat (count - (dn + n)))%nat by lia. rewrite cells_app. do 2 f_equal. lia.
Qed.

(** *** Writing *)

(** A page of a file is found by any of its offsets. *)
Lemma same_key k p i j : (ARCH_PAGE_GRAN | k) -> (ARCH_PAGE_GRAN | p) -> 0 <= i < ARCH_PAGE_GRAN -> 0 <= j < ARCH_PAGE_GRAN ->
  k + i = p + j -> k = p.
Proof. intros [a ->] [b ->]. unfold ARCH_PAGE_GRAN. lia. Qed.

Definition in_range (off n x : Z) : Prop := off <= x < off + n.

(** Filling the hole with the bytes that are written to the file. *)
Lemma cache_fill st pc p vp o bs w' :
  cached_but (in_range (p + o) (Z.of_nat (length bs))) st pc -> pc !! p = Some vp -> 0 <= o -> o + Z.of_nat (length bs) <= ARCH_PAGE_GRAN ->
  (forall x, cont w' x = overwrite (cont (vw st)) (p + o) bs x) ->
  cache_ok (set_vw w' (set_pmem (write_bytes (pmem st) (page_addr vp + HHDM + o) bs) st)) pc.
Proof.
  intros HI Hp Ho Hn Hw. split; [by destruct HI|by destruct HI| |by destruct HI].
  intros k vq Hk. destruct (co_page _ _ _ HI k vq Hk) as (Hk0 & Hk1 & Hk2 & Hpq & Hc).
  destruct (co_page _ _ _ HI p vp Hp) as (_ & _ & Hpd & Hpp & _).
  split; [exact Hk0|]. split; [exact Hk1|]. split; [exact Hk2|]. split; [exact Hpq|]. intros i Hi _.
  cbn [pmem set_pmem set_vw vw]. rewrite Hw. unfold overwrite.
  destruct (decide (p + o <= k + i < p + o + Z.of_nat (length bs))) as [Hr|Hr].
  - assert (k = p) as -> by (apply (same_key k p i (k + i - p)); [exact Hk2|exact Hpd|exact Hi|lia|lia]).
    assert (vq = vp) as -> by congruence.
    destruct (lookup_lt_is_Some_2 bs (Z.to_nat (p + i - (p + o)))) as [b Hb]; [lia|]. rewrite Hb. change (default 0 (Some b)) with b.
    pose proof (write_bytes_at (pmem st) (page_addr vp + HHDM + o) bs _ _ Hb) as Hw'. rewrite <- Hw'. f_equal. lia.
  - rewrite write_bytes_out; [by apply Hc|]. destruct (decide (k = p)) as [->|Hne].
    + assert (vq = vp) as -> by congruence. lia.
    + assert (page_addr vq <> page_addr vp) as Hap by (intros E; apply Hne; by eapply (co_inj _ _ _ HI)).
      destruct (frame_apart (page_addr vq) (page_addr vp) i Hpq Hpp Hap Hi); lia.
Qed.

Lemma cached_but_weaken hole hole' st pc : (forall x, hole x -> hole' x) -> cached_but hole st pc -> cached_but hole' st pc.
Proof.
  intros Hh [HA HB HC HD]. split; [exact HA|exact HB| |exact HD]. intros k vp Hk. destruct (HC k vp Hk) as (? & ? & ? & ? & Hc).
  split; [done|]. split; [done|]. split; [done|]. split; [done|]. intros i Hi Hn. apply Hc; [exact Hi|]. intros Hx. by apply Hn, Hh.
Qed.

(** The page of one iteration holds the file outside the part that is about to
    be overwritten. *)
Lemma write_page_ok st pc o p n : backed -> cache_ok st pc -> 0 <= o -> o + n <= ARCH_PAGE_GRAN -> 0 < n ->
  0 <= p -> p + ARCH_PAGE_GRAN <= 2 ^ 64 -> (ARCH_PAGE_GRAN | p) ->
  write_page HHDM junk vn pc o p n st = Panic \/
  exists vp pc' st', write_page HHDM junk vn pc o p n st = Ok (vp, pc', st') /\ pc' !! p = Some vp /\ phys_page (page_addr vp) /\
    cached_but (in_range (p + o) n) st' pc' /\ vw st' = vw st.
Proof.
  intros HB HI Ho Hon Hn Hp0 Hp1 Hpd. unfold write_page. destruct (pc !! p) as [vp|] eqn:Epc.
  - right. exists vp, pc, st. split; [reflexivity|]. split; [exact Epc|]. split; [by destruct (co_page _ _ _ HI p vp Epc) as (_ & _ & _ & ? & _)|].
    split; [|reflexivity]. eapply cached_but_weaken; [|exact HI]. intros x [].
  - destruct ((0 <? o) || (n <? ARCH_PAGE_GRAN)) eqn:Epart.
    + destruct (load_page_ok st pc p HB HI Epc Hp0 Hp1 Hpd) as [E|(vp & st1 & E & Ew & Ec & Hp & HI')]; rewrite E; go; [by left|right].
      rewrite Ew, (bk_read HB _ _ Hp0 Hp1 Hpd). go. cbv zeta in HI'.
      exists vp, (<[p := vp]> pc). eexists. split; [reflexivity|]. split; [apply lookup_insert_eq|]. split; [exact Hp|]. split; [|reflexivity].
      eapply cached_but_weaken; [|exact HI']. intros x [].
    + destruct (new_page_ok st pc HI) as [E|(vp & st1 & G & U & E & Ew & Ec & Hp & HG & HU & HpG & Hold & Hout)]; rewrite E; go; [by left|right].
      apply orb_false_iff in Epart as [Hoz%Z.ltb_ge Hnz%Z.ltb_ge].
      exists vp, (<[p := vp]> pc). eexists. split; [reflexivity|]. split; [apply lookup_insert_eq|]. split; [exact Hp|]. split; [|exact Ew].
      eapply (cache_add _ st); [exact HI|exact Epc|exact Hp0|exact Hp1|exact Hpd|exact Hp|exact HG|exact HU|exact HpG|exact Hold| | | |].
      * cbn. apply lookup_insert_eq.
      * exact Ew.
      * intros i Hi Hnot. destruct Hnot. unfold in_range. lia.
      * exact Hout.
Qed.

(** The rest of the buffer after one chunk. *)
Lemma overwrite_split f g off buffer dn n x : 0 <= dn -> 0 <= n -> dn + n <= Z.of_nat (length buffer) ->
  (forall y, g y = overwrite f (off + dn) (take (Z.to_nat n) (drop (Z.to_nat dn) buffer)) y) ->
  overwrite g (off + (dn + n)) (drop (Z.to_nat (dn + n)) buffer) x = overwrite f (off + dn) (drop (Z.to_nat dn) buffer) x.
Proof.
  intros Hd Hn Hdn Hg. unfold overwrite at 1. rewrite Hg. unfold overwrite. rewrite !length_take, !length_drop, Nat.min_l by lia.
  destruct (decide (off + (dn + n) <= x < _)).
  - rewrite decide_True by lia. rewrite !lookup_drop. f_equal. f_equal. lia.
  - destruct (decide (off + dn <= x < off + dn + Z.of_nat (Z.to_nat n))).
    + rewrite decide_True by lia. rewrite lookup_take_lt by lia. done.
    + by rewrite decide_False by lia.
Qed.

Lemma write_loop_ok offset buffer : backed -> 0 <= offset -> offset + Z.of_nat (length buffer) <= 2 ^ 64 -> forall fuel st pc dn,
  cache_ok st pc -> 0 <= dn <= Z.of_nat (length buffer) -> Z.of_nat (length buffer) - dn <= Z.of_nat fuel ->
  write_loop HHDM junk fuel vn pc offset dn buffer st = Panic \/
  exists pc' st', write_loop HHDM junk fuel vn pc offset dn buffer st = Ok (EOK, st') /\ cache_ok st' pc' /\
    forall x, cont (vw st') x = overwrite (cont (vw st)) (offset + dn) (drop (Z.to_nat dn) buffer) x.
Proof.
  intros HB Ho Hoc. set (count := Z.of_nat (length buffer)) in *.
  assert (Hend : forall st pc dn, cache_ok st pc -> dn = count -> exists pc' st', Ok (EOK, st) = Ok (EOK, st') /\ cache_ok st' pc' /\
    forall x, cont (vw st') x = overwrite (cont (vw st)) (offset + dn) (drop (Z.to_nat dn) buffer) x).
  { intros st pc dn HI ->. exists pc, st. split; [reflexivity|]. split; [exact HI|]. intros x. unfold overwrite.
    rewrite decide_False; [reflexivity|]. rewrite length_drop. unfold count. lia. }
  induction fuel as [|fuel IH]; intros st pc dn HI Hd Hf; cbn [write_loop]; fold count.
  - rewrite (proj2 (Z.ltb_ge dn count)) by lia. right. apply (Hend st pc dn HI). lia.
  - destruct (Z.ltb_spec dn count); [|right; apply (Hend st pc dn HI); lia].
    pose proof (split_range_ok offset count dn Ho Hoc ltac:(lia)) as Hs.
    destruct (split_range offset count dn) as [[o p] n]. destruct Hs as (Ep & Ho0 & Hon & Hn & Hp0 & Hp1 & Hpd).
    destruct (write_page_ok st pc o p n HB HI Ho0 Hon (proj1 Hn) Hp0 Hp1 Hpd) as [E|(vp & pc1 & st1 & E & Hvp & Hpp & HI1 & Ew)]; rewrite E; go; [by left|].
    set (bs := take (Z.to_nat n) (drop (Z.to_nat dn) buffer)).
    assert (Hlb : Z.of_nat (length bs) = n) by (unfold bs; rewrite length_take, length_drop; unfold count in *; lia).
    cbn [vw set_pmem]. rewrite Ew. rewrite (u64_small (offset + dn)) by lia.
    destruct (bk_write HB (vw st) (offset + dn) bs) as (wn & w' & E2 & Hw'); [lia|lia|]. rewrite E2. go. cbn [negb Z.eqb EOK].
    rewrite page_addr_in_ok by (exact Hpp || lia).
    assert (HI2 : cache_ok (set_vw w' (set_pmem (write_bytes (pmem st1) (page_addr vp + HHDM + o) bs) st1)) pc1).
    { apply (cache_fill st1 pc1 p vp o bs w'); [by rewrite Hlb|exact Hvp|exact Ho0|lia|]. intros x. rewrite Ew, Ep. apply Hw'. }
    destruct (IH _ pc1 (dn + n) HI2 ltac:(lia) ltac:(lia)) as [E3|(pc2 & st2 & E3 & HI3 & Hc3)]; rewrite E3; [by left|right].
    exists pc2, st2. split; [reflexivity|]. split; [exact HI3|]. intros x. rewrite Hc3. cbn [vw set_vw].
    apply overwrite_split; [lia|lia|unfold count in *; lia|exact Hw'].
Qed.

Lemma vfs_read_ok st pc offset count : backed -> cache_ok st pc -> 0 <= offset -> 0 <= count -> offset + count <= 2 ^ 64 ->
  vfs_read HHDM junk vn offset count st = Panic \/
  exists pc' st', vfs_read HHDM junk vn offset count st = Ok (EOK, cells (cont (vw st)) offset (Z.to_nat count), st') /\
    cache_ok st' pc' /\ vw st' = vw st.
Proof using HH Hjunk.
  intros HB HI Ho Hc Hoc. unfold vfs_read. rewrite (co_pc _ _ _ HI).
  destruct (read_loop_ok offset count HB Ho Hoc (Z.to_nat count) st pc 0 HI) as [E|(pc' & st' & E & HI' & Ew)];
    [lia|lia|by left|right]. exists pc', st'. rewrite Z.add_0_r, Z.sub_0_r in E. by split.
Qed.

Lemma vfs_write_ok st pc offset buffer : backed -> cache_ok st pc -> 0 <= offset -> offset + Z.of_nat (length buffer) <= 2 ^ 64 ->
  vfs_write HHDM junk vn offset buffer st = Panic \/
  exists pc' st', vfs_write HHDM junk vn offset buffer st = Ok (EOK, Some (Z.of_nat (length buffer)), st') /\ cache_ok st' pc' /\
    (forall x, cont (vw st') x = overwrite (cont (vw st)) offset buffer x).
Proof using HH Hjunk.
  intros HB HI Ho Hoc. unfold vfs_write. rewrite (co_pc _ _ _ HI).
  destruct (write_loop_ok offset buffer HB Ho Hoc (length buffer) st pc 0 HI) as [E|(pc' & st' & E & HI' & Hc)];
    [lia|lia|left; by run E|right]. rewrite Z.add_0_r in Hc. rewrite drop_0 in Hc.
  exists pc', st'. by run E.
Qed.
End cache.



(** ** Resolving paths *)

Section resolve.
Context {W : Type} `{VnodeOps W}.

(** [path_of cs s]: the components of [s], each behind any number of slashes, no
    slash at the end. *)
Inductive path_of : list (list Z) -> list Z -> Prop :=
| path_nil : path_of [] []
| path_cons n c cs s : c <> [] -> first_index SLASH c = None -> head c <> Some SLASH ->
    path_of cs s -> (s = [] \/ head s = Some SLASH) ->
    path_of (c :: cs) (replicate n SLASH ++ c ++ s).

(** The vnode that opening the components one after the other leads to. *)
Inductive walks : Z -> list (list Z) -> W -> Z -> W -> Prop :=
| walks_nil vn w : walks vn [] w vn w
| walks_cons vn c cs w s vn1 w1 vn2 w2 :
    vo_open vn c w = Ok (s, vn1, w1) -> vn1 <> NULL -> vo_name vn1 w1 = Ok c -> walks vn1 cs w1 vn2 w2 ->
    walks vn (c :: cs) w vn2 w2.

Lemma first_index_app c s : first_index SLASH c = None -> s = [] \/ head s = Some SLASH ->
  match first_index SLASH (c ++ s) with Some i => take i (c ++ s) | None => c ++ s end = c.
Proof.
  intros Hc Hs. assert (first_index SLASH (c ++ s) = match s with [] => None | _ => Some (length c) end) as ->.
  { induction c as [|b c IH]; simpl in *.
    - destruct Hs as [->|Hs]; [done|]. destruct s as [|x s]; [done|]. injection Hs as ->. done.
    - destruct (schar b =? SLASH); [done|]. destruct (first_index SLASH c); [done|]. rewrite IH by done. by destruct s. }
  destruct s as [|x s]; [apply app_nil_r|]. by rewrite take_app_length.
Qed.

Lemma drop_slashes_path n c s : c <> [] -> head c <> Some SLASH -> drop_slashes (replicate n SLASH ++ c ++ s) = c ++ s.
Proof.
  intros Hc Hh. induction n as [|n IH]; simpl; [|done]. destruct c as [|b c]; [done|]. simpl in *.
  destruct (Z.eqb_spec b SLASH); [congruence|done].
Qed.

(** One round of [open_loop] on a component. *)
Lemma open_round fuel sfuel m curr p n c s w : curr <> NULL -> c <> [] -> first_index SLASH c = None -> head c <> Some SLASH ->
  (s = [] \/ head s = Some SLASH) -> let str := replicate n SLASH ++ c ++ s in
  cstr m p str -> (length str < sfuel)%nat ->
  cstr m (p + Z.of_nat (n + length c)) s /\
  open_loop (S fuel) sfuel m curr p w =
    ('(_, curr, w) ← vo_open curr c w;
     nm ← (if curr =? NULL then Fault else vo_name curr w);
     open_loop fuel sfuel m curr (p + Z.of_nat n + Z.of_nat (length nm)) w).
Proof.
  intros Hcu Hc Hi Hh Hs str Hstr Hf. cbn [open_loop].
  assert (exists b, load m p = Ok b /\ b <> 0) as (b & Eb & Hb).
  { destruct Hstr as [Hby Hnz]. destruct str as [|b str'] eqn:Estr.
    - unfold str in Estr. by destruct (app_eq_nil _ _ Estr) as [_ [? _]%app_eq_nil].
    - exists b. apply bytes_at_cons in Hby as [Hby _]. apply Forall_cons in Hnz as [Hnz _]. split; [by apply load_Ok|done]. }
  run Eb. rewrite (proj2 (Z.eqb_neq curr NULL)), (proj2 (Z.eqb_neq b 0)) by done. cbn [orb].
  destruct (skip_slashes_ok str m p sfuel Hstr Hf) as [Esk Hsk].
  assert (drop_slashes str = c ++ s) as Hds by (by apply drop_slashes_path). rewrite Hds in Esk, Hsk. run Esk.
  assert (length str - length (c ++ s) = n)%nat as En.
  { unfold str. rewrite !length_app, length_replicate. lia. } rewrite En in *.
  rewrite (read_cstr_ok m _ (c ++ s) sfuel Hsk) by (unfold str in Hf; rewrite length_app in Hf; lia). go.
  rewrite first_index_app by done. split; [|done].
  replace (p + Z.of_nat (n + length c)) with (p + Z.of_nat n + Z.of_nat (length c)) by lia.
  destruct Hsk as [Hby Hnz]. rewrite <- app_assoc in Hby. apply bytes_at_app in Hby as [_ Hby]. split; [exact Hby|].
  by apply Forall_app in Hnz as [_ Hnz].
Qed.

Lemma open_loop_ok sfuel m cs s : path_of cs s -> forall fuel curr p w vn w',
  curr <> NULL -> cstr m p s -> (length s < fuel)%nat -> (length s < sfuel)%nat -> walks curr cs w vn w' ->
  open_loop fuel sfuel m curr p w = Ok (vn, w').
Proof.
  induction 1 as [|n c cs s Hc Hi Hh Hp IH Hs]; intros [|fuel] curr p w vn w' Hcu Hstr Hf Hsf Hw; simpl in Hf; try lia.
  - inversion Hw; subst. cbn [open_loop]. destruct Hstr as [Hby _]. apply bytes_at_cons in Hby as [Hby _].
    rewrite (load_Ok _ _ _ Hby). go. by rewrite orb_true_r.
  - inversion Hw as [|? ? ? ? st vn1 w1 ? ? Eo Hn1 Hnm Hw1]; subst.
    destruct (open_round fuel sfuel m curr p n c s w Hcu Hc Hi Hh Hs Hstr Hsf) as [Hrest ->]. rewrite Eo. go.
    rewrite (proj2 (Z.eqb_neq vn1 NULL)) by done. rewrite Hnm. go.
    replace (p + Z.of_nat n + Z.of_nat (length c)) with (p + Z.of_nat (n + length c)) by lia.
    rewrite !length_app, length_replicate in Hf, Hsf. assert (0 < length c)%nat by (destruct c; simpl; [done|lia]).
    apply IH; [done|done|lia|lia|done].
Qed.

(** A component that cannot be opened, after some that can. *)
Lemma open_loop_missing sfuel m cs1 c cs2 s : path_of (cs1 ++ c :: cs2) s -> forall fuel curr p w vn w' e w'',
  curr <> NULL -> cstr m p s -> (length s < fuel)%nat -> (length s < sfuel)%nat -> walks curr cs1 w vn w' ->
  vn <> NULL -> vo_open vn c w' = Ok (e, NULL, w'') -> open_loop fuel sfuel m curr p w = Fault.
Proof.
  revert s. induction cs1 as [|c1 cs1 IH]; intros s Hp [|fuel] curr p w vn w' e w'' Hcu Hstr Hf Hsf Hw Hvn He; try lia;
    inversion Hp as [|n c' cs' s' Hc Hi Hh Hp' Hs]; subst;
    destruct (open_round fuel sfuel m curr p n _ s' w Hcu Hc Hi Hh Hs Hstr Hsf) as [Hrest ->].
  - inversion Hw; subst. rewrite He. done.
  - inversion Hw as [|? ? ? ? st vn1 w1 ? ? Eo Hn1 Hnm Hw1]; subst. rewrite Eo. go.
    rewrite (proj2 (Z.eqb_neq vn1 NULL)) by done. rewrite Hnm. go.
    replace (p + Z.of_nat n + Z.of_nat (length c1)) with (p + Z.of_nat (n + length c1)) by lia.
    rewrite !length_app, length_replicate in Hf, Hsf. assert (0 < length c1)%nat by (destruct c1; simpl; [done|lia]).
    eapply IH; [exact Hp'|done|done|lia|lia|exact Hw1|done|exact He].
Qed.
End resolve.

(** [vfs_open] on a path whose components, below the mount point, can all be
    opened returns the vnode they lead to; when a component cannot be opened the
    call dereferences the null vnode instead of returning an error. *)
Theorem vfs_open_correct {W : Type} `{VnodeOps W} fuel m t path p root cs1 cs2 s (w : W) vn w' :
  vfs_get_mountpoint fuel m t path = Ok (p, root) -> root <> NULL -> path_of (cs1 ++ cs2) s -> cstr m p s -> (length s < fuel)%nat ->
  walks root cs1 w vn w' ->
  (cs2 = [] -> vfs_open fuel m t path w = Ok (EOK, vn, w')) /\
  (forall c cs e w'', cs2 = c :: cs -> vn <> NULL -> vo_open vn c w' = Ok (e, NULL, w'') -> vfs_open fuel m t path w = Fault).
Proof.
  intros Hmp Hr Hp Hstr Hf Hw. unfold vfs_open. rewrite Hmp. go. rewrite (proj2 (Z.eqb_neq root NULL)) by done. go. split.
  - intros ->. rewrite app_nil_r in Hp. by rewrite (open_loop_ok fuel m cs1 s Hp fuel root p w vn w').
  - intros c cs e w'' -> Hvn He. by rewrite (open_loop_missing fuel m cs1 c cs s Hp fuel root p w vn w' e w'').
Qed.

(** ** Concrete runs *)

(** A store of bytes that are 0 where nothing was written, with a directory
    tree. *)
Record disk := Disk { d_bytes : gmap Z Z; d_dirs : gmap (Z * list Z) Z; d_names : gmap Z (list Z) }.

Definition d_cont (w : disk) (x : Z) : Z := default 0 (d_bytes w !! x).

#[export] Instance disk_ops : VnodeOps disk := {|
  vo_open vn name w := match d_dirs w !! (vn, name) with Some c => Ok (EOK, c, w) | None => Ok (ENOENT, NULL, w) end;
  vo_close vn w := Ok (EOK, w);
  vo_read vn off count w := Ok (EOK, cells (d_cont w) off (Z.to_nat count), w);
  vo_write vn off bs w := Ok (EOK, Z.of_nat (length bs), Disk (write_bytes (d_bytes w) off bs) (d_dirs w) (d_names w));
  vo_create vn name t w := Ok (ENOTSUP, NULL, w);
  vo_ioctl vn op arg w := Ok (ENOTSUP, w);
  vo_name vn w := deref (d_names w !! vn);
  vo_size vn w := Ok 0x10000;
  vo_type vn w := Ok VNODE_REG
|}.

Lemma disk_backed vn : backed vn d_cont.
Proof.
  split.
  - intros w off _ _ _. reflexivity.
  - intros w off bs _ _. eexists _, _. split; [reflexivity|]. intros x. unfold d_cont, overwrite. cbn.
    destruct (decide _) as [Hr|Hr]; [|rewrite write_bytes_out by lia; done].
    destruct (lookup_lt_is_Some_2 bs (Z.to_nat (x - off))) as [b Hb]; [lia|]. rewrite Hb.
    pose proof (write_bytes_at (d_bytes w) off bs _ _ Hb) as Hw. rewrite Z2Nat.id in Hw by lia.
    replace (off + (x - off)) with x in Hw by lia. by rewrite Hw.
Qed.

Definition ex_page (a : Z) : list Z := replicate (Z.to_nat ARCH_PAGE_GRAN) 204.

(** Vnode 5 is cached, with nothing in its cache yet. *)
Definition ex_vfs : vfs_state disk bump fresh :=
  VfsState (Disk ∅ {[(7, [102]) := 8]} {[8 := [102]]}) {[5 := ∅]} (Bump 1 []) (Fresh 4096 []) ∅.

Lemma ex_cache : cache_ok ex_HH 5 d_cont ex_vfs ∅.
Proof.
  split.
  - reflexivity.
  - exists ∅, ∅. split; [split; [cbn; lia|intros a Ha; by apply elem_of_empty in Ha]|]. split; [intros a Ha; by apply elem_of_empty in Ha|].
    intros k vp Hk. by rewrite lookup_empty in Hk.
  - intros k vp Hk. by rewrite lookup_empty in Hk.
  - intros k l vp vq Hk. by rewrite lookup_empty in Hk.
Qed.



(** The path "/f" at 100, the root mounted at vnode 7. *)
Definition ex_path : mem := write_bytes ∅ 100 [47; 102; 0].
Definition ex_trie : trie_node_t := Trie [SLASH] 7 [].

Lemma vfs_open_correct_witness :
  vfs_get_mountpoint 10 ex_path ex_trie 100 = Ok (101, 7) /\ vfs_open 10 ex_path ex_trie 100 (vw ex_vfs) = Ok (EOK, 8, vw ex_vfs).
Proof.
  split; [reflexivity|].
  refine (proj1 (vfs_open_correct 10 ex_path ex_trie 100 101 7 [[102]] [] [102] (vw ex_vfs) 8 (vw ex_vfs) _ _ _ _ _ _) _).
  - reflexivity.
  - done.
  - exact (path_cons 0 [102] [] [] ltac:(done) ltac:(done) ltac:(done) path_nil (or_introl eq_refl)).
  - split; [intros [|[|i]] b Hb; by inversion Hb|by repeat constructor].
  - simpl. lia.
  - by eapply (walks_cons 7 [102] [] _ EOK 8); [reflexivity|done|reflexivity|constructor].
  - reflexivity.
Defined.

(** A path that does not exist ends in a null dereference. *)
Lemma open_missing_faults :
  match vfs_open 10 (write_bytes ∅ 100 [47; 103; 0]) ex_trie 100 (vw ex_vfs) with Fault => true | _ => false end = true.
Proof. reflexivity. Qed.

(** The component "dev" finds the child "devices": [strncmp] only compares the
    length of the component. *)
Lemma find_child_prefix :
  find_child (Trie [SLASH] 7 [Trie [100; 101; 118; 105; 99; 101; 115] 9 []]) [100; 101; 118; 47; 120] 3 = Some 0%nat.
Proof. reflexivity. Qed.

(** Mounting at "/dev" goes on 64 bytes behind the start of the component: past
    the end of the string. *)
Lemma mount_reads_past_path :
  match vfs_mount_vnode 10 (write_bytes ∅ 100 [47; 100; 101; 118; 0]) [] ex_trie 9 100 with Fault => true | _ => false end = true.
Proof. reflexivity. Qed.

(** With two components the first one is stored without a terminator. *)
Lemma mount_component_unterminated :
  match vfs_mount_vnode 10 (write_bytes ∅ 100 ([47; 97; 47] ++ replicate 70 0)) [120; 121; 122; 0] ex_trie 9 100 with
  | Ok t => bool_decide (comp <$> children t = [[97; 121; 122]])
  | _ => false
  end = true.
Proof. reflexivity. Qed.

(** Flushing on close reads the page at its physical address. *)
Lemma close_faults :
  match ('(_, _, st) ← vfs_write ex_HH ex_page 5 0 [1] ex_vfs; vfs_close 5 st) with Fault => true | _ => false end = true.
Proof. vm_compute. reflexivity. Qed.
