(* ===== verification/Devfs.v ===== *)
(** * Device file system (kernel/src/fs/devfs.c)

    Directories and nodes as in tmpfs, without contents; reading and writing
    are not written yet in the source. *)
From stdpp Require Import base gmap list fin_maps.
From Stdlib Require Import ZArith Lia.
From S2P Require Import Prelude Interfaces Nodes Vfs.

Definition sizeof_devfs_node : Z := 208.

Section devfs.
Context {S K : Type} `{ObjectAllocator K}.
Implicit Types st : fs S K.

Definition devfs_open (self : Z) (name : list Z) st : outcome (Z * Z * fs S K) := open_in self name st.

Definition devfs_close (self : Z) st : outcome (Z * fs S K) :=
  n ← deref (nodes st !! self);
  ASSERT (ref_count n =? 0);;
  k ← obj_free self (fobjs st);
  Ok (EOK, set_fobjs k (set_nodes (delete self (nodes st)) st)).

(** The functions end without returning a value. *)
Definition devfs_read (self offset count : Z) st : outcome (Z * list Z) := Fault.
Definition devfs_write (self offset : Z) (buffer : list Z) st : outcome (Z * Z * fs S K) := Fault.

Definition devfs_list (self hint : Z) st : outcome (Z * option (list Z) * Z) := list_in self hint st.

Definition devfs_create (self : Z) (name : list Z) (t : vnode_type_t) st : outcome (Z * Z * fs S K) :=
  create_in sizeof_devfs_node (fun name => Vnode name t 0 devfs_ops 1 (DevfsNode [])) self name st.

Definition devfs_ioctl (self request args : Z) : Z := ENOTSUP.

Definition devfs_root_node : vnode_t := Vnode [47] VNODE_DIR 0 devfs_ops 0 (DevfsNode []).

(** [path] is the address of the string "/dev". *)
Definition devfs_init (fuel : nat) (m : mem) (garbage : list Z) (g_trie_root : trie_node_t) (root path : Z) st :
    outcome (trie_node_t * fs S K) :=
  t ← vfs_mount_vnode fuel m garbage g_trie_root root path;
  Ok (t, set_nodes (<[root := devfs_root_node]> (nodes st)) st).
End devfs.

(** Creating and opening device nodes, as in tmpfs. *)
Lemma devfs_create_open {S K : Type} `{ObjectAllocator K} (st : fs S K) U d cs name t fuel :
  is_dir st d cs -> oa_state (fobjs st) U -> (forall a, is_Some (nodes st !! a) -> a ∈ U) ->
  NoDup cs -> Forall (fun c => c <> 0 /\ c <> HINT_END) cs ->
  Z.of_nat (length name) < VFS_MAX_NAME_LEN -> (length cs + 1 < fuel)%nat ->
  devfs_create d name t st = Panic \/
  exists o st', devfs_create d name t st = Ok (EOK, o, st') /\ nodes st !! o = None /\ is_dir st' d (cs ++ [o]) /\
    (name ∉ name_of st <$> cs -> opened (devfs_open d name st') = Ok (EOK, o)) /\
    (forall nm, nm <> name -> opened (devfs_open d nm st') = opened (devfs_open d nm st)) /\
    (o <> HINT_END -> read_dir fuel d 0 st' = Ok ((name_of st <$> cs) ++ [name])).
Proof.
  intros Hd HU Hin Hnd Hval Hlen Hf. unfold devfs_create, devfs_open.
  by apply (create_open_ok st U d cs name sizeof_devfs_node _ fuel Hd HU Hin Hnd Hval Hlen Hf).
Qed.
