(* ===== verification/Initrd.v ===== *)
(** * Initial ram disk (kernel/src/fs/initrd.c, ustar.h)

    The boot loader passes a USTAR archive; every header becomes a node whose
    data stays in the archive.  The archive and the strings are bytes in memory,
    and the code changes the file names in place. *)
From stdpp Require Import base gmap list fin_maps.
From Stdlib Require Import ZArith Lia.
From S2P Require Import Prelude Interfaces Strings Nodes Vfs.

Definition USTAR_REG : Z := 48.
Definition USTAR_CHAR : Z := 51.
Definition USTAR_BLOCK : Z := 52.
Definition USTAR_DIR : Z := 53.
Definition USTAR_FIFO : Z := 54.
Definition USTAR_MAGIC : list Z := [117; 115; 116; 97; 114].

(** Offsets of the fields of [ustar_hdr_t]. *)
Definition HDR_filename : Z := 0.
Definition HDR_size : Z := 124.
Definition HDR_type : Z := 156.
Definition HDR_magic : Z := 257.

Fixpoint read_field (size : nat) (m : mem) (c n : Z) : outcome Z :=
  match size with
  | O => Ok n
  | S size =>
      b ← load m c;
      if b =? 0 then Ok n else read_field size m (c + 1) (u64 (u64 (n * 8) + (schar b - 48)))
  end.

Definition ustar_read_field (m : mem) (str size : Z) : outcome Z := read_field (Z.to_nat size) m str 0.

Definition sizeof_initrd_node : Z := 216.

Section initrd.
Context {S K : Type} `{ObjectAllocator K}.
Implicit Types st : fs S K.

Definition initrd_open (self : Z) (name : list Z) st : outcome (Z * Z * fs S K) := open_in self name st.

Definition initrd_list (self hint : Z) st : outcome (Z * option (list Z) * Z) := list_in self hint st.

(** Status and the bytes stored in the buffer. *)
Definition initrd_read (self offset size : Z) st : outcome (Z * list Z) :=
  n ← deref (nodes st !! self);
  data ← (match body n with InitrdNode _ d => Ok d | _ => Fault end);
  let file_content_size := u32 (vn_size n) in
  if file_content_size <=? offset then Ok (EOK, [])
  else
    let size := if file_content_size <=? u64 (offset + size) then file_content_size - offset else size in
    bs ← kread (fmem st) (u64 (data + offset)) (Z.to_nat size);
    Ok (EOK, bs).

Definition initrd_root_node : vnode_t := Vnode [SLASH] VNODE_DIR 0 ustar_file_ops 0 (InitrdNode [] NULL).

Definition entry_type (t : Z) : outcome vnode_type_t :=
  if t =? USTAR_REG then Ok VNODE_REG
  else if t =? USTAR_CHAR then Ok VNODE_CHAR
  else if t =? USTAR_BLOCK then Ok VNODE_BLOCK
  else if t =? USTAR_DIR then Ok VNODE_DIR
  else if t =? USTAR_FIFO then Ok VNODE_FIFO
  else Panic.

(** The walk of [process_entry] down to the parent; slashes become terminators. *)
Fixpoint find_parent (fuel sfuel : nat) (curr path : Z) st : outcome (Z * fs S K) :=
  match fuel with
  | O => NoFuel
  | Datatypes.S fuel =>
      c ← load (fmem st) path;
      if c =? 0 then Ok (curr, st)
      else
        slash ← strchr sfuel (fmem st) path SLASH;
        m ← (if negb (slash =? NULL) then store (fmem st) slash 0 else Ok (fmem st));
        let st := set_fmem m st in
        name ← read_cstr sfuel (fmem st) path;
        '(status, next, st) ← initrd_open curr name st;
        if status =? EOK then find_parent fuel sfuel next (path + Z.of_nat (length name) + 1) st
        else Ok (curr, st)
  end.

(** [root] is the address of [initrd_root_node]. *)
Definition process_entry (sfuel : nat) (root hdr : Z) st : outcome (fs S K) :=
  m ← path_normalize sfuel (fmem st) (hdr + HDR_filename) (hdr + HDR_filename);
  '(o, k) ← obj_alloc sizeof_initrd_node (fobjs st);
  let st := set_fobjs k (set_fmem m st) in
  p ← strrchr sfuel m (hdr + HDR_filename) SLASH;
  name ← read_cstr sfuel m (if negb (p =? NULL) then p + 1 else hdr + HDR_filename);
  name ← copy_name name;
  ty ← load m (hdr + HDR_type);
  t ← entry_type ty;
  size ← ustar_read_field m (hdr + HDR_size) 12;
  let st := set_nodes (<[o := Vnode name t size ustar_file_ops 0 (InitrdNode [] (u64 (hdr + 512)))]> (nodes st)) st in
  '(parent, st) ← find_parent sfuel sfuel root (hdr + HDR_filename) st;
  n ← deref (nodes st !! parent);
  cs ← children_of n;
  Ok (set_nodes (<[parent := with_children (cs ++ [o]) n]> (nodes st)) st).

(** The loop of [initrd_init] over the headers. *)
Fixpoint read_archive (fuel sfuel : nat) (root hdr : Z) st : outcome (fs S K) :=
  match fuel with
  | O => NoFuel
  | Datatypes.S fuel =>
      b ← load (fmem st) (hdr + HDR_magic);
      last ← (if b =? 0 then c ← load (fmem st) (hdr + 512 + HDR_magic); Ok (c =? 0) else Ok false);
      if last : bool then Ok st
      else
        magic ← read_cstr sfuel (fmem st) (hdr + HDR_magic);
        if negb (bool_decide (magic = USTAR_MAGIC)) then Panic
        else
          st ← process_entry sfuel root hdr st;
          file_size ← ustar_read_field (fmem st) (hdr + HDR_size) 12;
          let blocks := u32 (u32 (u32 file_size + 512) - 1) / 512 in
          read_archive fuel sfuel root (u64 (hdr + u32 ((blocks + 1) * 512))) st
  end.

(** [modules]: path and address of the files the boot loader passed; [slash] is
    the address of the string "/". *)
Definition initrd_init (fuel : nat) (garbage : list Z) (g_trie_root : trie_node_t) (modules : list (list Z * Z)) (root slash : Z) st :
    outcome (trie_node_t * fs S K) :=
  match list_find (fun x => x.1 = [47; 105; 110; 105; 116; 114; 100; 46; 116; 97; 114]) modules with
  | None => Panic
  | Some (_, (_, hdr)) =>
      st ← read_archive fuel fuel root hdr (set_nodes (<[root := initrd_root_node]> (nodes st)) st);
      t ← vfs_mount_vnode fuel (fmem st) garbage g_trie_root root slash;
      Ok (t, st)
  end.
End initrd.

(** ** Numbers in headers *)

(** The octal digits of [n], [k] of them, as characters. *)
Fixpoint octal (k : nat) (n : Z) : list Z :=
  match k with
  | O => []
  | S k => octal k (n / 8) ++ [48 + n mod 8]
  end.

Lemma octal_length k n : length (octal k n) = k.
Proof. revert n. induction k as [|k IH]; intros n; simpl; [done|]. rewrite length_app, IH. simpl. lia. Qed.

(** The value of digits read from the left. *)
Definition octal_value (acc : Z) (ds : list Z) : Z := fold_left (fun n d => n * 8 + (d - 48)) ds acc.

Lemma octal_value_octal k n acc : 0 <= n < 8 ^ Z.of_nat k -> octal_value acc (octal k n) = acc * 8 ^ Z.of_nat k + n.
Proof.
  revert n acc. induction k as [|k IH]; intros n acc Hn; [simpl in *; lia|].
  rewrite Nat2Z.inj_succ, Z.pow_succ_r in * by lia. cbn [octal]. unfold octal_value. rewrite fold_left_app. cbn [fold_left].
  fold (octal_value acc (octal k (n / 8))).
  rewrite IH by (split; [apply Z.div_pos; lia|apply Z.div_lt_upper_bound; lia]).
  pose proof (Z.div_mod n 8 ltac:(lia)). nia.
Qed.

Lemma octal_digits k n : Forall (fun d => 48 <= d < 56) (octal k n).
Proof.
  revert n. induction k as [|k IH]; intros n; simpl; [constructor|]. apply Forall_app. split; [done|].
  apply Forall_singleton. pose proof (Z.mod_pos_bound n 8). lia.
Qed.

Lemma octal_value_bounds acc ds : 0 <= acc -> Forall (fun d => 48 <= d < 56) ds -> acc <= octal_value acc ds.
Proof.
  intros Ha Hd. revert acc Ha. induction Hd as [|d ds Hd Hds IH]; intros acc Ha; [done|].
  cbn. specialize (IH (acc * 8 + (d - 48)) ltac:(lia)). unfold octal_value in *. lia.
Qed.

Lemma read_field_ok ds size m c acc : bytes_at m c (ds ++ [0]) -> Forall (fun d => 48 <= d < 56) ds ->
  0 <= acc -> octal_value acc ds < 2 ^ 64 -> (length ds <= size)%nat ->
  read_field size m c acc = Ok (octal_value acc ds).
Proof.
  revert size c acc. induction ds as [|d ds IH]; intros size c acc Hb Hd Ha Hv Hs; simpl in *.
  - destruct size; [done|]. apply bytes_at_cons in Hb as [Hb _]. cbn [read_field]. rewrite (load_Ok _ _ _ Hb). done.
  - destruct size as [|size]; [lia|]. apply bytes_at_cons in Hb as [Hb Hbs]. apply Forall_cons in Hd as [Hd0 Hd].
    cbn [read_field]. rewrite (load_Ok _ _ _ Hb). go. rewrite (proj2 (Z.eqb_neq d 0)) by lia.
    unfold schar. rewrite (proj2 (Z.ltb_lt d 128)) by lia.
    pose proof (octal_value_bounds (acc * 8 + (d - 48)) ds ltac:(lia) Hd) as Hle. unfold octal_value in *. cbn [fold_left] in *.
    rewrite (u64_small (acc * 8)) by lia. rewrite u64_small by lia. apply IH; [done|done|lia|done|lia].
Qed.

(** [ustar_read_field] reads back every number of eleven octal digits, the way
    archives store sizes. *)
Theorem ustar_field_roundtrip m c n :
  0 <= n < 8 ^ 11 -> bytes_at m c (octal 11 n ++ [0]) -> ustar_read_field m c 12 = Ok n.
Proof.
  intros Hn Hb. unfold ustar_read_field. change (Z.to_nat 12) with 12%nat.
  rewrite (read_field_ok (octal 11 n) 12 m c 0 Hb (octal_digits 11 n)).
  - by rewrite octal_value_octal.
  - lia.
  - rewrite octal_value_octal by done. lia.
  - rewrite octal_length. lia.
Qed.

Lemma ustar_field_roundtrip_witness : ustar_read_field (write_bytes ∅ 1000 (octal 11 1234 ++ [0])) 1000 12 = Ok 1234.
Proof. apply (ustar_field_roundtrip _ 1000 1234); [lia|]. apply write_bytes_at. Defined.

(** ** Reading files *)

(** Reading a file of the archive returns exactly the part of its bytes that
    the range covers: nothing from the end on, and no byte past it. *)
Theorem initrd_read_correct {S K : Type} (st : fs S K) self n cs data content offset size :
  nodes st !! self = Some n -> body n = InitrdNode cs data -> vn_size n = Z.of_nat (length content) ->
  Z.of_nat (length content) < 2 ^ 32 -> bytes_at (fmem st) data content -> 0 <= data -> data + Z.of_nat (length content) <= 2 ^ 64 ->
  0 <= offset -> 0 <= size -> offset + size < 2 ^ 64 ->
  initrd_read self offset size st = Ok (EOK, take (Z.to_nat size) (drop (Z.to_nat offset) content)).
Proof.
  intros Hn Hb Hsz Hlen Hc Hd0 Hd Ho Hs Hos. unfold initrd_read. run Hn. rewrite Hb. go. rewrite Hsz, u32_small by lia.
  destruct (Z.leb_spec (Z.of_nat (length content)) offset).
  - rewrite drop_ge by lia. by rewrite take_nil.
  - rewrite (u64_small (offset + size)), (u64_small (data + offset)) by lia.
    set (k := if Z.of_nat (length content) <=? offset + size then Z.of_nat (length content) - offset else size).
    assert (Hk : 0 <= k <= Z.of_nat (length content) - offset /\ take (Z.to_nat size) (drop (Z.to_nat offset) content) = take (Z.to_nat k) (drop (Z.to_nat offset) content)).
    { unfold k. destruct (Z.leb_spec (Z.of_nat (length content)) (offset + size)); [|split; [lia|done]]. split; [lia|].
      rewrite !take_ge; rewrite ?length_drop; [done|lia|lia]. }
    destruct Hk as [Hk ->]. set (bs := take (Z.to_nat k) (drop (Z.to_nat offset) content)).
    assert (length bs = Z.to_nat k) as Hl by (unfold bs; rewrite length_take, length_drop; lia).
    rewrite <- Hl. rewrite kread_ok; [done|]. intros i b Hi. unfold bs in Hi. pose proof (lookup_lt_Some _ _ _ Hi) as Hlt.
    fold bs in Hlt. rewrite Hl in Hlt. rewrite lookup_take_lt, lookup_drop in Hi by lia. apply Hc in Hi. rewrite <- Hi. f_equal. lia.
Qed.

Lemma initrd_read_correct_witness :
  initrd_read 5 1 10 (Fs {[5 := Vnode [102] VNODE_REG 3 ustar_file_ops 0 (InitrdNode [] 1000)]} (write_bytes ∅ 1000 [7; 8; 9]) tt tt) =
  Ok (EOK, [8; 9]).
Proof.
  apply (initrd_read_correct _ 5 (Vnode [102] VNODE_REG 3 ustar_file_ops 0 (InitrdNode [] 1000)) [] 1000 [7; 8; 9] 1 10);
    try done. apply write_bytes_at.
Defined.

(** ** A small archive *)

(** A header with the given name, type and size, padded to a block. *)
Definition pad (n : nat) (s : list Z) : list Z := s ++ replicate (n - length s) 0.
Definition header (name : list Z) (type size : Z) : list Z :=
  pad 512 (pad 124 name ++ pad 12 (octal 11 size) ++ replicate 20 0 ++ [type] ++ replicate 100 0 ++ USTAR_MAGIC ++ [0]).

(** "./d/" and "./d/f" with three bytes, the end marker, the string "/". *)
Definition ex_archive : mem :=
  write_bytes ∅ 0x10000
    (header [46; 47; 100; 47] USTAR_DIR 0 ++ header [46; 47; 100; 47; 102] USTAR_REG 3 ++ pad 512 [65; 66; 67] ++ replicate 1024 0 ++ [47; 0]).

Lemma ex_archive_tree :
  match initrd_init 200 [] (Trie [SLASH] NULL []) [([47; 105; 110; 105; 116; 114; 100; 46; 116; 97; 114], 0x10000)] 500 (0x10000 + 2560)
          (Fs ∅ ex_archive tt (Fresh 4096 [])) with
  | Ok (t, st) =>
      match ('(_, d, st) ← initrd_open 500 [100] st; '(_, f, st) ← initrd_open d [102] st; initrd_read f 0 10 st) with
      | Ok (_, bs) => bool_decide (bs = [65; 66; 67]) && (root_vn t =? 500)
      | _ => false
      end
  | _ => false
  end = true.
Proof. vm_compute. reflexivity. Qed.
