(* ===== verification/Resource.v ===== *)
(** * Open files of a process (kernel/src/sys/resource.c, syscalls/io.c)

    A resource table is an array of pointers to heap objects, one per file
    descriptor, which each hold a vnode, an offset and the mode.  The system
    calls on files go through it to the virtual file system.  A table stands for
    the sequence of its open files, [fd_view]; the theorems state the system
    calls on that sequence. *)
From stdpp Require Import base gmap list fin_maps.
From Stdlib Require Import ZArith Lia.
From S2P Require Import Prelude Interfaces Pmm Kmem Nodes Vfs.

Definition EBADF : Z := 10.
Definition EMFILE : Z := 60.

Definition RESOURCE_READ : Z := 1.
Definition RESOURCE_WRITE : Z := 2.

Record resource_t := Res { r_node : Z; r_offset : Z; r_flags : Z }.

(** [tbl_obj] is the address of the array, [resources] its entries; [length] is
    their number. *)
Record resource_table_t := Table { tbl_obj : Z; resources : list Z }.

Definition tbl_length (t : resource_table_t) : Z := Z.of_nat (length (resources t)).

Definition sizeof_ptr : Z := 8.
Definition sizeof_resource : Z := 24.

Definition resource_table_new : resource_table_t := Table NULL [].

(** [table->resources[id]]: undefined outside the array. *)
Definition slot (t : resource_table_t) (id : Z) : outcome Z :=
  if id <? 0 then Fault else deref (resources t !! Z.to_nat id).

Definition set_slot (t : resource_table_t) (id p : Z) : outcome resource_table_t :=
  slot t id;; Ok (Table (tbl_obj t) (<[Z.to_nat id := p]> (resources t))).

Definition resource_get (t : resource_table_t) (id : Z) : outcome Z :=
  if (id <? 0) || (tbl_length t <=? id) then Ok NULL else slot t id.

Section resource.
Context {K : Type} `{ObjectAllocator K}.

(** [heap_realloc] moves the entries to a new object and frees the old one. *)
Definition resource_table_expand (t : resource_table_t) (amount : nat) (k : K) : outcome (resource_table_t * K) :=
  '(o, k) ← obj_alloc ((tbl_length t + Z.of_nat amount) * sizeof_ptr) k;
  k ← (if negb (tbl_obj t =? NULL) then obj_free (tbl_obj t) k else Ok k);
  Ok (Table o (resources t ++ replicate amount NULL), k).

Definition resource_create_at (t : resource_table_t) (id node offset flags : Z) (ro : gmap Z resource_t) (k : K) :
    outcome (resource_table_t * gmap Z resource_t * K) :=
  ASSERT (id <? tbl_length t);;
  '(o, k) ← obj_alloc sizeof_resource k;
  t ← set_slot t id o;
  Ok (t, <[o := Res node offset flags]> ro, k).

(** The loop for a free entry. *)
Fixpoint first_free (ps : list Z) : option nat :=
  match ps with
  | [] => None
  | p :: ps => if p =? NULL then Some O else S <$> first_free ps
  end.

(** The descriptor, or the length of the table when it is full. *)
Definition resource_create (t : resource_table_t) (node offset flags : Z) (ro : gmap Z resource_t) (k : K) :
    outcome (Z * resource_table_t * gmap Z resource_t * K) :=
  match first_free (resources t) with
  | Some i =>
      '(t, ro, k) ← resource_create_at t (Z.of_nat i) node offset flags ro k;
      Ok (Z.of_nat i, t, ro, k)
  | None => Ok (tbl_length t, t, ro, k)
  end.
End resource.

(** ** System calls on files *)

Definition SEEK_SET : Z := 0.
Definition SEEK_CUR : Z := 1.
Definition SEEK_END : Z := 2.

(** syscall.h *)
Record sys_ret_t := SysRet { sr_value : Z; sr_error : Z }.

(** The part of the state these system calls touch: the resource table of the
    current process, the resource objects, the file system and the kernel log. *)
Record io (W S K : Type) := Io {
  table : resource_table_t; robjs : gmap Z resource_t; vfs : vfs_state W S K; klog : list (list Z)
}.
Arguments Io {W S K}. Arguments table {W S K}. Arguments robjs {W S K}. Arguments vfs {W S K}. Arguments klog {W S K}.

Section io.
Context {W S K : Type} `{VnodeOps W} `{PageAllocator S} `{ObjectAllocator K} (HHDM : Z) (junk : Z -> list Z).
(** What a local variable holds that nothing was stored in. *)
Context (uninit : Z).
Implicit Types st : io W S K.

Definition set_table t st : io W S K := Io t (robjs st) (vfs st) (klog st).
Definition set_robjs ro st : io W S K := Io (table st) ro (vfs st) (klog st).
Definition set_vfs v st : io W S K := Io (table st) (robjs st) v (klog st).

(** The entry is not checked against the length, and the object is not freed. *)
Definition syscall_close (fd : Z) st : outcome (sys_ret_t * io W S K) :=
  p ← slot (table st) fd;
  if p =? NULL then Ok (SysRet 0 EBADF, st)
  else t ← set_slot (table st) fd NULL; Ok (SysRet 0 EOK, set_table t st).

(** [resource_get] and the object behind the result; [None] stands for [NULL]. *)
Definition get_resource (fd : Z) st : outcome (option (Z * resource_t)) :=
  p ← resource_get (table st) fd;
  if p =? NULL then Ok None else r ← deref (robjs st !! p); Ok (Some (p, r)).

Definition syscall_ioctl (fd op argp : Z) st : outcome (sys_ret_t * io W S K) :=
  res ← get_resource fd st;
  match res with
  | None => Ok (SysRet 0 EBADF, st)
  | Some (_, r) =>
      if r_node r =? NULL then Ok (SysRet 0 EBADF, st)
      else
        '(e, w) ← vo_ioctl (r_node r) op argp (vw (vfs st));
        Ok (SysRet 0 e, set_vfs (set_vw w (vfs st)) st)
  end.

(** [resource_create] for the current process, with the heap of the kernel. *)
Definition create_resource (node offset flags : Z) st : outcome (Z * io W S K) :=
  '(fd, t, ro, k) ← resource_create (table st) node offset flags (robjs st) (vobjs (vfs st));
  Ok (fd, set_table t (set_robjs ro (set_vfs (set_vobjs k (vfs st)) st))).

Definition syscall_open (fuel : nat) (m : mem) (g_trie_root : trie_node_t) (path : Z) st : outcome (sys_ret_t * io W S K) :=
  '(ret, node, w) ← vfs_open fuel m g_trie_root path (vw (vfs st));
  let st := set_vfs (set_vw w (vfs st)) st in
  if negb (ret =? 0) then Ok (SysRet 0 ret, st)
  else '(fd, st) ← create_resource node 0 (Z.lor RESOURCE_READ RESOURCE_WRITE) st; Ok (SysRet fd EOK, st).

(** With the bytes stored in the buffer; the offset does not move. *)
Definition syscall_read (fd count : Z) st : outcome (sys_ret_t * list Z * io W S K) :=
  res ← get_resource fd st;
  match res with
  | None => Ok (SysRet 0 EBADF, [], st)
  | Some (_, r) =>
      if (Z.land (r_flags r) RESOURCE_READ =? 0) || (r_node r =? NULL) then Ok (SysRet 0 EBADF, [], st)
      else
        '(e, bs, v) ← vfs_read HHDM junk (r_node r) (r_offset r) count (vfs st);
        Ok (SysRet (if e =? EOK then Z.of_nat (length bs) else uninit) e, bs, set_vfs v st)
  end.

Definition syscall_seek (fd offset whence : Z) st : outcome (sys_ret_t * io W S K) :=
  if (fd =? 0) || (fd =? 1) || (fd =? 2) then Ok (SysRet offset EOK, st)
  else
    res ← get_resource fd st;
    match res with
    | None => Ok (SysRet 0 EBADF, st)
    | Some (p, r) =>
        if r_node r =? NULL then Ok (SysRet 0 EBADF, st)
        else
          size ← vo_size (r_node r) (vw (vfs st));
          let new_offset :=
            if whence =? SEEK_SET then Some offset
            else if whence =? SEEK_CUR then Some (u64 (r_offset r + offset))
            else if whence =? SEEK_END then Some (u64 (size + offset))
            else None in
          match new_offset with
          | None => Ok (SysRet 0 EINVAL, st)
          | Some n =>
              if size <? n then Ok (SysRet 0 EINVAL, st)
              else Ok (SysRet n EOK, set_robjs (<[p := Res (r_node r) n (r_flags r)]> (robjs st)) st)
          end
    end.

(** Descriptors up to 2, negative ones included, do not reach the table; for 1
    and 2 the buffer is logged, as a string. *)
Definition syscall_write (fuel : nat) (m : mem) (fd buf count : Z) st : outcome (sys_ret_t * io W S K) :=
  if fd <=? 2 then
    st ← (if (fd =? 1) || (fd =? 2) then
            s ← read_cstr fuel m buf; Ok (Io (table st) (robjs st) (vfs st) (klog st ++ [s]))
          else Ok st);
    Ok (SysRet count EOK, st)
  else
    res ← get_resource fd st;
    match res with
    | None => Ok (SysRet 0 EBADF, st)
    | Some (_, r) =>
        if (Z.land (r_flags r) RESOURCE_WRITE =? 0) || (r_node r =? NULL) then Ok (SysRet 0 EBADF, st)
        else
          bs ← kread m buf (Z.to_nat count);
          '(e, out, v) ← vfs_write HHDM junk (r_node r) (r_offset r) bs (vfs st);
          Ok (SysRet (default uninit out) e, set_vfs v st)
    end.
End io.

(** ** Tables as sequences of open files *)

Definition open_file (ro : gmap Z resource_t) (p : Z) : option resource_t :=
  if p =? NULL then None else ro !! p.

Definition fd_view (t : resource_table_t) (ro : gmap Z resource_t) : list (option resource_t) :=
  open_file ro <$> resources t.

(** Every entry that is set points to a resource object of its own, among the
    heap objects [U]. *)
Record table_ok (t : resource_table_t) (ro : gmap Z resource_t) (U : gset Z) : Prop := {
  tk_obj : forall i p, resources t !! i = Some p -> p <> NULL -> is_Some (ro !! p) /\ p ∈ U;
  tk_inj : forall i j p, resources t !! i = Some p -> resources t !! j = Some p -> p <> NULL -> i = j
}.

(** Descriptor [fd] refers to the open file [r]. *)
Definition fd_open (v : list (option resource_t)) (fd : Z) : option resource_t :=
  if fd <? 0 then None else mjoin (v !! Z.to_nat fd).

Lemma open_file_insert ro p q r : p <> q -> open_file (<[q := r]> ro) p = open_file ro p.
Proof. intros Hne. unfold open_file. destruct (p =? NULL); [done|]. by rewrite lookup_insert_ne. Qed.

Lemma first_free_Some ps i : first_free ps = Some i ->
  ps !! i = Some NULL /\ forall j p, (j < i)%nat -> ps !! j = Some p -> p <> NULL.
Proof.
  revert i. induction ps as [|p ps IH]; intros i E; simplify_eq/=. destruct (Z.eqb_spec p NULL) as [->|Hp].
  - injection E as <-. split; [done|lia].
  - apply fmap_Some in E as (k & Ek & ->). destruct (IH _ Ek) as [Hk Hj]. split; [done|].
    intros [|j] q Hjk Hq; simplify_eq/=; [done|]. apply (Hj j); [lia|done].
Qed.

Lemma first_free_None ps : first_free ps = None -> NULL ∉ ps.
Proof.
  induction ps as [|p ps IH]; intros E; simplify_eq/=; [set_solver|]. destruct (Z.eqb_spec p NULL) as [->|Hp]; [done|].
  apply fmap_None in E. apply not_elem_of_cons. auto.
Qed.

Lemma table_ok_weaken t ro U U' : U ⊆ U' -> table_ok t ro U -> table_ok t ro U'.
Proof. intros Hs [Ho Hi]. split; [|done]. intros i p Hp Hn. destruct (Ho i p Hp Hn). set_solver. Qed.

(** [resource_get] finds the open file of a descriptor, and nothing for numbers
    that are not descriptors. *)
Lemma get_resource_ok {W S K} (st : io W S K) U fd : table_ok (table st) (robjs st) U ->
  exists o, get_resource fd st = Ok o /\ snd <$> o = fd_open (fd_view (table st) (robjs st)) fd /\
    (forall p r, o = Some (p, r) -> 0 <= fd /\ resources (table st) !! Z.to_nat fd = Some p /\ p <> NULL /\ robjs st !! p = Some r).
Proof.
  intros [Ho _]. unfold get_resource, resource_get, fd_open, fd_view, slot, tbl_length.
  destruct (Z.ltb_spec fd 0) as [Hneg|Hfd]; simpl; [by exists None|]. rewrite list_lookup_fmap.
  destruct (Z.leb_spec (Z.of_nat (length (resources (table st)))) fd) as [Hl|Hl]; simpl.
  - exists None. rewrite (proj2 (lookup_ge_None _ _)) by lia. done.
  - destruct (lookup_lt_is_Some_2 (resources (table st)) (Z.to_nat fd)) as [p Hp]; [lia|]. rewrite Hp. simpl. unfold open_file.
    destruct (Z.eqb_spec p NULL) as [->|Hn]; [by exists None|]. destruct (Ho _ _ Hp Hn) as [[r Hr] _]. rewrite Hr. simpl.
    exists (Some (p, r)). split; [done|]. split; [done|]. intros q r' E. simplify_eq. done.
Qed.

(** The views after the three kinds of update. *)
Lemma view_add t ro U i o r : table_ok t ro U -> o ∉ U -> o <> NULL -> (i < length (resources t))%nat ->
  fd_view (Table (tbl_obj t) (<[i := o]> (resources t))) (<[o := r]> ro) = <[i := Some r]> (fd_view t ro) /\
  table_ok (Table (tbl_obj t) (<[i := o]> (resources t))) (<[o := r]> ro) ({[o]} ∪ U).
Proof.
  intros [Ho Hi] Hu Hn Hl.
  assert (forall j p, resources t !! j = Some p -> p <> o) as Hfresh.
  { intros j p Hj ->. destruct (Ho j o Hj Hn). done. }
  split.
  - unfold fd_view. simpl. rewrite list_fmap_insert. unfold open_file at 1. rewrite (proj2 (Z.eqb_neq o NULL) Hn), lookup_insert_eq.
    f_equal. apply list_fmap_ext. intros j p Hj. apply open_file_insert. by eapply Hfresh.
  - split; simpl.
    + intros j p Hj Hp. destruct (decide (j = i)) as [->|Hne].
      * rewrite list_lookup_insert_eq in Hj by done. injection Hj as <-. rewrite lookup_insert_eq. split; [eauto|set_solver].
      * rewrite list_lookup_insert_ne in Hj by done. rewrite lookup_insert_ne by (apply not_eq_sym; by eapply Hfresh).
        destruct (Ho j p Hj Hp). split; [done|set_solver].
    + intros j k p Hj Hk Hp. destruct (decide (j = i)) as [->|Hj1], (decide (k = i)) as [->|Hk1]; try done;
        repeat match goal with
        | H : <[i := o]> _ !! i = Some _ |- _ => rewrite list_lookup_insert_eq in H by done; injection H as <-
        | H : <[i := o]> _ !! _ = Some _ |- _ => rewrite list_lookup_insert_ne in H by done
        end; [by apply Hfresh in Hk|by apply Hfresh in Hj|by eapply Hi].
Qed.

Lemma view_close t ro U i : table_ok t ro U -> (i < length (resources t))%nat ->
  fd_view (Table (tbl_obj t) (<[i := NULL]> (resources t))) ro = <[i := None]> (fd_view t ro) /\
  table_ok (Table (tbl_obj t) (<[i := NULL]> (resources t))) ro U.
Proof.
  intros [Ho Hi] Hl. split; [by unfold fd_view; simpl; rewrite list_fmap_insert|]. split; simpl.
  - intros j p Hj Hp. destruct (decide (j = i)) as [->|Hne]; [rewrite list_lookup_insert_eq in Hj by done; congruence|].
    rewrite list_lookup_insert_ne in Hj by done. by eapply Ho.
  - intros j k p Hj Hk Hp. destruct (decide (j = i)) as [->|Hj1]; [rewrite list_lookup_insert_eq in Hj by done; congruence|].
    destruct (decide (k = i)) as [->|Hk1]; [rewrite list_lookup_insert_eq in Hk by done; congruence|].
    rewrite list_lookup_insert_ne in Hj, Hk by done. by eapply Hi.
Qed.

Lemma view_update t ro U i p r : table_ok t ro U -> resources t !! i = Some p -> p <> NULL ->
  fd_view t (<[p := r]> ro) = <[i := Some r]> (fd_view t ro) /\ table_ok t (<[p := r]> ro) U.
Proof.
  intros [Ho Hi] Hp Hn. pose proof (lookup_lt_Some _ _ _ Hp) as Hl. split.
  - apply list_eq. intros j. unfold fd_view. rewrite list_lookup_fmap. destruct (decide (j = i)) as [->|Hne].
    + rewrite list_lookup_insert_eq by (by rewrite length_fmap). rewrite Hp. simpl. unfold open_file.
      by rewrite (proj2 (Z.eqb_neq p NULL) Hn), lookup_insert_eq.
    + rewrite list_lookup_insert_ne by done. rewrite list_lookup_fmap. destruct (resources t !! j) as [q|] eqn:Hq; [|done]. simpl.
      rewrite open_file_insert; [done|]. intros ->. by apply Hne, (Hi j i p).
  - split; [|done]. intros j q Hj Hq. destruct (Ho j q Hj Hq) as [Hs Hu]. split; [|done].
    destruct (decide (p = q)) as [->|]; [rewrite lookup_insert_eq; eauto|by rewrite lookup_insert_ne].
Qed.

Lemma resource_create_ok {K} `{ObjectAllocator K} t ro (k : K) U node offset flags :
  table_ok t ro U -> oa_state k U ->
  resource_create t node offset flags ro k = Panic \/
  exists fd t' ro' k' U', resource_create t node offset flags ro k = Ok (fd, t', ro', k') /\
    table_ok t' ro' U' /\ oa_state k' U' /\ 0 <= fd <= tbl_length t /\ tbl_length t' = tbl_length t /\
    (fd < tbl_length t -> fd_view t' ro' = <[Z.to_nat fd := Some (Res node offset flags)]> (fd_view t ro) /\
       fd_open (fd_view t ro) fd = None /\ forall i, 0 <= i < fd -> fd_open (fd_view t ro) i <> None) /\
    (fd = tbl_length t -> t' = t /\ ro' = ro /\ forall i, 0 <= i < fd -> fd_open (fd_view t ro) i <> None).
Proof.
  intros Hok Hk. unfold resource_create, resource_create_at.
  assert (forall i, (i < length (resources t))%nat -> (forall p, resources t !! i = Some p -> p <> NULL) ->
    fd_open (fd_view t ro) (Z.of_nat i) <> None) as Hset.
  { intros i Hi Hp. unfold fd_open, fd_view. rewrite (proj2 (Z.ltb_ge (Z.of_nat i) 0)) by lia. rewrite Nat2Z.id, list_lookup_fmap.
    destruct (lookup_lt_is_Some_2 _ _ Hi) as [p Ep]. rewrite Ep. specialize (Hp p Ep). simpl. unfold open_file.
    rewrite (proj2 (Z.eqb_neq p NULL) Hp). destruct (tk_obj _ _ _ Hok i p Ep Hp) as [[r ->] _]. done. }
  destruct (first_free (resources t)) as [i|] eqn:Ef.
  - destruct (first_free_Some _ _ Ef) as [Hi Hb]. pose proof (lookup_lt_Some _ _ _ Hi) as Hl. unfold tbl_length.
    rewrite (proj2 (Z.ltb_lt (Z.of_nat i) (Z.of_nat (length (resources t))))) by lia. go.
    destruct (obj_alloc_spec k U sizeof_resource Hk) as [E|(o & k' & E & Hk' & Hu & Hr)]; [unfold sizeof_resource; lia|left; by run E|right].
    run E. unfold set_slot, slot. rewrite (proj2 (Z.ltb_ge (Z.of_nat i) 0)) by lia. rewrite Nat2Z.id. run Hi. go.
    destruct (view_add t ro U i o (Res node offset flags) Hok Hu ltac:(unfold NULL; lia) Hl) as [Ev Hok'].
    eexists _, _, _, _, _. split; [reflexivity|]. split; [exact Hok'|]. split; [exact Hk'|]. split; [lia|].
    split; [unfold tbl_length; simpl; by rewrite length_insert|]. split; [|lia]. intros _. rewrite Nat2Z.id. split; [exact Ev|]. split.
    + unfold fd_open, fd_view. rewrite (proj2 (Z.ltb_ge (Z.of_nat i) 0)) by lia. rewrite Nat2Z.id, list_lookup_fmap, Hi. done.
    + intros j Hj. replace j with (Z.of_nat (Z.to_nat j)) by lia. apply Hset; [lia|]. intros p Hp. apply (Hb (Z.to_nat j)); [lia|done].
  - right. eexists _, _, _, _, U. split; [reflexivity|]. split; [done|]. split; [done|]. unfold tbl_length. split; [lia|]. split; [done|].
    split; [lia|]. intros _. split; [done|]. split; [done|]. intros j Hj. replace j with (Z.of_nat (Z.to_nat j)) by lia. apply Hset; [lia|].
    intros p Hp ->. apply first_free_None in Ef. apply Ef. by eapply list_elem_of_lookup_2.
Qed.

Lemma resource_table_expand_ok {K} `{ObjectAllocator K} t ro (k : K) U amount :
  table_ok t ro U -> oa_state k U -> (tbl_obj t = NULL \/ tbl_obj t ∈ U) -> (tbl_length t + Z.of_nat amount) * sizeof_ptr <= 1024 ->
  (forall i, resources t !! i <> Some (tbl_obj t)) ->
  resource_table_expand t amount k = Panic \/
  exists t' k' U', resource_table_expand t amount k = Ok (t', k') /\ table_ok t' ro U' /\ oa_state k' U' /\
    (forall x, x ∈ U -> x <> tbl_obj t -> x ∈ U') /\ fd_view t' ro = fd_view t ro ++ replicate amount None.
Proof.
  intros Hok Hk Ho Hs Hne. unfold resource_table_expand.
  destruct (obj_alloc_spec k U ((tbl_length t + Z.of_nat amount) * sizeof_ptr) Hk) as [E|(o & k' & E & Hk' & Hu & Hr)];
    [unfold tbl_length, sizeof_ptr in *; lia|left; by run E|right]. run E.
  assert (forall U', (forall x, x ∈ U -> x <> tbl_obj t -> x ∈ U') -> table_ok (Table o (resources t ++ replicate amount NULL)) ro U') as Hok'.
  { intros U' HU. split; simpl.
    - intros i p Hi Hp. apply lookup_app_Some in Hi as [Hi|[_ Hi]]; [|apply lookup_replicate in Hi as [-> _]; done].
      destruct (tk_obj _ _ _ Hok i p Hi Hp) as [? Hin]. split; [done|]. apply HU; [done|]. intros ->. by apply (Hne i).
    - intros i j p Hi Hj Hp. apply lookup_app_Some in Hi as [Hi|[_ Hi]]; [|apply lookup_replicate in Hi as [-> _]; done].
      apply lookup_app_Some in Hj as [Hj|[_ Hj]]; [|apply lookup_replicate in Hj as [-> _]; done]. by eapply (tk_inj _ _ _ Hok). }
  assert (fd_view (Table o (resources t ++ replicate amount NULL)) ro = fd_view t ro ++ replicate amount None) as Hv.
  { unfold fd_view. simpl. by rewrite fmap_app, fmap_replicate. }
  destruct (Z.eqb_spec (tbl_obj t) NULL) as [En|Hn]; simpl.
  - eexists _, _, ({[o]} ∪ U). split; [reflexivity|]. split; [apply Hok'; set_solver|]. split; [done|]. split; [set_solver|done].
  - destruct Ho as [?|Ho]; [done|]. destruct (obj_free_spec k' ({[o]} ∪ U) (tbl_obj t) Hk') as (k2 & E2 & Hk2); [set_solver|]. run E2.
    eexists _, _, (({[o]} ∪ U) ∖ {[tbl_obj t]}). split; [reflexivity|]. split; [apply Hok'; set_solver|]. split; [done|]. split; [set_solver|done].
Qed.

(** On a well-formed table [resource_create] runs out of memory or gives the
    lowest descriptor that is not open, which then refers to the given vnode,
    offset and mode, every other descriptor being untouched; when all are open
    it changes nothing and returns the length of the table. *)
Theorem resource_create_correct {K} `{ObjectAllocator K} t ro (k : K) U node offset flags :
  table_ok t ro U -> oa_state k U ->
  resource_create t node offset flags ro k = Panic \/
  exists fd t' ro' k' U', resource_create t node offset flags ro k = Ok (fd, t', ro', k') /\
    table_ok t' ro' U' /\ oa_state k' U' /\ 0 <= fd <= tbl_length t /\ tbl_length t' = tbl_length t /\
    (fd < tbl_length t -> fd_view t' ro' = <[Z.to_nat fd := Some (Res node offset flags)]> (fd_view t ro) /\
       fd_open (fd_view t ro) fd = None /\ forall i, 0 <= i < fd -> fd_open (fd_view t ro) i <> None) /\
    (fd = tbl_length t -> t' = t /\ ro' = ro /\ forall i, 0 <= i < fd -> fd_open (fd_view t ro) i <> None).
Proof. apply resource_create_ok. Qed.

(** [close] of a descriptor inside the table. *)
Lemma syscall_close_ok {W S K} (st : io W S K) U fd :
  table_ok (table st) (robjs st) U -> 0 <= fd < tbl_length (table st) ->
  exists st', table_ok (table st') (robjs st') U /\ vfs st' = vfs st /\
    match fd_open (fd_view (table st) (robjs st)) fd with
    | Some _ => syscall_close fd st = Ok (SysRet 0 EOK, st') /\
        fd_view (table st') (robjs st') = <[Z.to_nat fd := None]> (fd_view (table st) (robjs st))
    | None => syscall_close fd st = Ok (SysRet 0 EBADF, st') /\ st' = st
    end.
Proof.
  intros Hok Hfd. unfold tbl_length in Hfd. destruct (lookup_lt_is_Some_2 (resources (table st)) (Z.to_nat fd)) as [p Hp]; [lia|].
  unfold syscall_close, set_slot, slot, fd_open, fd_view at 1. rewrite (proj2 (Z.ltb_ge fd 0)) by lia. rewrite list_lookup_fmap, Hp. simpl.
  unfold open_file. destruct (Z.eqb_spec p NULL) as [->|Hn]; [by exists st|]. destruct (tk_obj _ _ _ Hok _ _ Hp Hn) as [[r ->] _].
  destruct (view_close _ _ _ (Z.to_nat fd) Hok) as [Ev Hok']; [lia|]. eexists (set_table _ st). split; [exact Hok'|]. split; [done|].
  split; [reflexivity|exact Ev].
Qed.

(** The offset [whence] and [offset] ask for. *)
Definition seek_target (size pos offset whence : Z) : option Z :=
  if whence =? SEEK_SET then Some offset
  else if whence =? SEEK_CUR then Some (u64 (pos + offset))
  else if whence =? SEEK_END then Some (u64 (size + offset))
  else None.

(** [seek] on a descriptor above 2 fails with EBADF when nothing is open there,
    with EINVAL when [whence] is none of the three or the new offset (added with
    wrap-around at 64 bits) lies past the end of the file, and otherwise moves
    the offset of that descriptor only and returns it; the offset never passes
    the size of the file. *)
Theorem syscall_seek_correct {W S K} `{VnodeOps W} (st : io W S K) U fd offset whence :
  table_ok (table st) (robjs st) U -> 2 < fd ->
  (forall r, fd_open (fd_view (table st) (robjs st)) fd = Some r -> r_node r <> NULL -> exists n, vo_size (r_node r) (vw (vfs st)) = Ok n) ->
  exists ret st', syscall_seek fd offset whence st = Ok (ret, st') /\ table_ok (table st') (robjs st') U /\ vfs st' = vfs st /\
    match fd_open (fd_view (table st) (robjs st)) fd with
    | None => ret = SysRet 0 EBADF /\ st' = st
    | Some r =>
        if r_node r =? NULL then ret = SysRet 0 EBADF /\ st' = st
        else exists size, vo_size (r_node r) (vw (vfs st)) = Ok size /\
          match seek_target size (r_offset r) offset whence with
          | None => ret = SysRet 0 EINVAL /\ st' = st
          | Some n =>
              if size <? n then ret = SysRet 0 EINVAL /\ st' = st
              else ret = SysRet n EOK /\ n <= size /\
                fd_view (table st') (robjs st') = <[Z.to_nat fd := Some (Res (r_node r) n (r_flags r))]> (fd_view (table st) (robjs st))
          end
    end.
Proof.
  intros Hok Hfd Hsize. unfold syscall_seek. rewrite (proj2 (Z.eqb_neq fd 0)), (proj2 (Z.eqb_neq fd 1)), (proj2 (Z.eqb_neq fd 2)) by lia. simpl.
  destruct (get_resource_ok st U fd Hok) as (o & E & Eo & Hp). rewrite E. go. rewrite <- Eo in *. destruct o as [[p r]|]; simpl in *.
  2: { eexists _, _. by split. }
  destruct (Z.eqb_spec (r_node r) NULL) as [En|Hn]; [eexists _, _; by split|].
  destruct (Hsize r eq_refl Hn) as [size Es]. run Es. fold (seek_target size (r_offset r) offset whence).
  destruct (Hp p r eq_refl) as (_ & Hr & Hpn & _).
  destruct (seek_target size (r_offset r) offset whence) as [n|] eqn:Et.
  - destruct (Z.ltb_spec size n) as [Hlt|Hle].
    + eexists _, _. split; [reflexivity|]. split; [done|]. split; [done|]. exists size. split; [done|]. rewrite Et.
      by rewrite (proj2 (Z.ltb_lt size n)).
    + destruct (view_update _ _ _ _ _ (Res (r_node r) n (r_flags r)) Hok Hr Hpn) as [Ev Hok'].
      eexists _, _. split; [reflexivity|]. split; [exact Hok'|]. split; [done|]. exists size. split; [done|]. rewrite Et.
      rewrite (proj2 (Z.ltb_ge size n)) by done. by split.
  - eexists _, _. split; [reflexivity|]. split; [done|]. split; [done|]. exists size. split; [done|]. by rewrite Et.
Qed.

(** The system calls on an open file, reduced to the file system. *)
Section open_file.
Context {W S K : Type} `{VnodeOps W} `{PageAllocator S} `{ObjectAllocator K} (HHDM : Z) (junk : Z -> list Z) (uninit : Z).
Context (st : io W S K) (U : gset Z) (fd : Z) (r : resource_t).
Context (Hok : table_ok (table st) (robjs st) U) (Hopen : fd_open (fd_view (table st) (robjs st)) fd = Some r) (Hnode : r_node r <> NULL).

Lemma get_open : exists p, get_resource fd st = Ok (Some (p, r)).
Proof using Hok Hopen Hnode.
  destruct (get_resource_ok st U fd Hok) as (o & E & Eo & _). rewrite Hopen in Eo. apply fmap_Some in Eo as ([p r'] & -> & Er).
  exists p. simpl in Er. by subst.
Qed.

Lemma syscall_read_open count : Z.land (r_flags r) RESOURCE_READ <> 0 ->
  syscall_read HHDM junk uninit fd count st =
    ('(e, bs, v) ← vfs_read HHDM junk (r_node r) (r_offset r) count (vfs st);
     Ok (SysRet (if e =? EOK then Z.of_nat (length bs) else uninit) e, bs, set_vfs v st)).
Proof using Hok Hopen Hnode.
  intros Hf. destruct get_open as [p E]. unfold syscall_read. run E.
  by rewrite (proj2 (Z.eqb_neq _ _) Hf), (proj2 (Z.eqb_neq _ _) Hnode).
Qed.

Lemma syscall_write_open fuel m buf bs : 2 < fd -> Z.land (r_flags r) RESOURCE_WRITE <> 0 -> bytes_at m buf bs ->
  syscall_write HHDM junk uninit fuel m fd buf (Z.of_nat (length bs)) st =
    ('(e, out, v) ← vfs_write HHDM junk (r_node r) (r_offset r) bs (vfs st);
     Ok (SysRet (default uninit out) e, set_vfs v st)).
Proof using Hok Hopen Hnode.
  intros Hfd Hf Hb. destruct get_open as [p E]. unfold syscall_write. rewrite (proj2 (Z.leb_gt fd 2)) by lia. run E.
  rewrite (proj2 (Z.eqb_neq _ _) Hf), (proj2 (Z.eqb_neq _ _) Hnode), Nat2Z.id. by rewrite (kread_ok m buf bs Hb).
Qed.
End open_file.


(** ** Concrete runs *)

Definition ex_table : resource_table_t := Table 500 [NULL; NULL; NULL; 900; NULL].
Definition ex_robjs : gmap Z resource_t := {[ 900 := Res 5 4094 3 ]}.
Definition ex_io : io disk bump fresh := Io ex_table ex_robjs ex_vfs [].

Lemma ex_table_entry i p : resources ex_table !! i = Some p -> p <> NULL -> i = 3%nat /\ p = 900.
Proof. intros Hi Hp. do 5 (destruct i as [|i]; [simpl in Hi; injection Hi as <-; done|]). done. Qed.

Lemma ex_table_ok : table_ok ex_table ex_robjs {[900]}.
Proof.
  split.
  - intros i p Hi Hp. destruct (ex_table_entry i p Hi Hp) as [_ ->]. split; [by eexists|set_solver].
  - intros i j p Hi Hj Hp. destruct (ex_table_entry i p Hi Hp) as [-> _], (ex_table_entry j p Hj Hp) as [-> _]. done.
Qed.

Lemma resource_create_correct_witness :
  resource_create ex_table 7 0 3 ex_robjs (Fresh 1024 []) =
    Ok (0, Table 500 [1024; NULL; NULL; 900; NULL], <[1024 := Res 7 0 3]> ex_robjs, Fresh 2048 []) /\
  fd_view (Table 500 [1024; NULL; NULL; 900; NULL]) (<[1024 := Res 7 0 3]> ex_robjs) =
    <[0%nat := Some (Res 7 0 3)]> (fd_view ex_table ex_robjs).
Proof.
  split; [reflexivity|].
  destruct (resource_create_correct ex_table ex_robjs (Fresh 1024 []) {[900]} 7 0 3 ex_table_ok) as [E|(fd & t' & ro' & k' & U' & E & _ & _ & _ & _ & Hv & _)];
    [intros o ->%elem_of_singleton; simpl; lia|discriminate E|].
  vm_compute in E. injection E as <- <- <- <-. destruct (Hv ltac:(vm_compute; reflexivity)) as [Ev _]. exact Ev.
Defined.

Lemma syscall_seek_correct_witness :
  exists ret st', syscall_seek 3 0 SEEK_END ex_io = Ok (ret, st') /\ ret = SysRet 0x10000 EOK.
Proof.
  destruct (syscall_seek_correct ex_io {[900]} 3 0 SEEK_END ex_table_ok ltac:(lia)) as (ret & st' & E & _ & _ & Hm); [intros r _ _; by eexists|].
  exists ret, st'. split; [exact E|].
  assert (fd_open (fd_view (table ex_io) (robjs ex_io)) 3 = Some (Res 5 4094 3)) as Ef by reflexivity. rewrite Ef in Hm.
  cbn [r_node r_offset r_flags Z.eqb NULL] in Hm. destruct Hm as (size & Es & Hm). injection Es as <-. apply Hm.
Defined.


(** ** Behaviours worth knowing *)

(** [close] does not check its argument against the table. *)
Lemma close_unchecked {W S K} (st : io W S K) fd : fd < 0 \/ tbl_length (table st) <= fd -> syscall_close fd st = Fault.
Proof.
  unfold syscall_close, slot, tbl_length. intros [Hf|Hf].
  - by rewrite (proj2 (Z.ltb_lt fd 0)).
  - rewrite (proj2 (Z.ltb_ge fd 0)) by lia. by rewrite (proj2 (lookup_ge_None _ _)) by lia.
Qed.

(** The callers of [resource_create] take a full table for success: the result
    is never negative, which is what they test for. *)
Lemma create_full_is_success {K} `{ObjectAllocator K} t ro (k : K) node :
  first_free (resources t) = None -> resource_create t node 0 3 ro k = Ok (tbl_length t, t, ro, k) /\ 0 <= tbl_length t.
Proof. intros E. unfold resource_create. rewrite E. split; [done|unfold tbl_length; lia]. Qed.

(** [write] reports success on negative descriptors. *)
Lemma write_negative_fd {W S K} `{VnodeOps W} `{PageAllocator S} `{ObjectAllocator K} HHDM junk uninit fuel m fd buf count (st : io W S K) :
  fd < 0 -> syscall_write HHDM junk uninit fuel m fd buf count st = Ok (SysRet count EOK, st).
Proof. intros Hf. unfold syscall_write. rewrite (proj2 (Z.leb_le fd 2)), (proj2 (Z.eqb_neq fd 1)), (proj2 (Z.eqb_neq fd 2)) by lia. done. Qed.

(** [write] to 1 or 2 logs up to the first zero byte, whatever [count] is. *)
Lemma write_ignores_count :
  klog <$> (snd <$> syscall_write ex_HH ex_page 0 9 ex_path 1 100 1 ex_io) = Ok [[47; 102]].
Proof. reflexivity. Qed.
