(* ===== verification/Sockets.v ===== *)
(** * Sockets (kernel/src/sys/sockets/socket.c, unix.c, syscalls/socket.c)

    Sockets are heap objects; a bound one is found through the vnode of its
    address, an open one through the vnode its descriptor refers to.  An accept
    queue is the sequence of the sockets whose [accept_queue_node] it links.  The
    spin lock of a socket is a flag: a caller that takes a lock it holds already
    spins until the counter of [spinlock_acquire] panics (Sync.v).

    The second part is the life of sockets as a transition system. *)
From stdpp Require Import base gmap list fin_maps relations.
From Stdlib Require Import ZArith Lia.
From S2P Require Import Prelude Interfaces Pmm Kmem Nodes Vfs Resource.

Definition EADDRINUSE : Z := 3.
Definition ECONNREFUSED : Z := 23.

Definition AF_UNIX : Z := 1.

Inductive socket_state_t :=
| SOCKET_STATE_NEW | SOCKET_STATE_BOUND | SOCKET_STATE_LISTENING
| SOCKET_STATE_CONNECTING | SOCKET_STATE_CONNECTED | SOCKET_STATE_CLOSED.

#[export] Instance socket_state_eq_dec : EqDecision socket_state_t.
Proof. solve_decision. Defined.

(** [state >= SOCKET_STATE_BOUND] *)
Definition bound_or_later (s : socket_state_t) : bool :=
  match s with SOCKET_STATE_NEW => false | _ => true end.

(** [socket_t] and the [bound_vnode] of [socket_unix_t] behind it. *)
Record socket_t := Socket {
  s_family : Z; s_type : Z; s_protocol : Z; s_state : socket_state_t;
  s_peer : Z; accept_queue : list Z; s_locked : bool; bound_vnode : Z
}.

Definition sizeof_socket_unix : Z := 96.
Definition sizeof_vnode : Z := 216.

(** The functions [create_socket] of a family may point to. *)
Inductive create_fn := unix_create_socket.

Record socket_family_t := Family { family : Z; create_socket_ptr : create_fn }.

(** [handles] are the vnodes made for descriptors, [mp_data] that field of the
    vnodes that stand for sockets. *)
Record sk (W S K : Type) := Sk {
  socks : gmap Z socket_t; mp_data : gmap Z Z; handles : gset Z;
  g_socket_family_list : list socket_family_t; sio : io W S K
}.
Arguments Sk {W S K}. Arguments socks {W S K}. Arguments mp_data {W S K}. Arguments handles {W S K}.
Arguments g_socket_family_list {W S K}. Arguments sio {W S K}.

Definition set_state (x : socket_state_t) (s : socket_t) : socket_t :=
  Socket (s_family s) (s_type s) (s_protocol s) x (s_peer s) (accept_queue s) (s_locked s) (bound_vnode s).
Definition set_peer (p : Z) (s : socket_t) : socket_t :=
  Socket (s_family s) (s_type s) (s_protocol s) (s_state s) p (accept_queue s) (s_locked s) (bound_vnode s).
Definition set_queue (q : list Z) (s : socket_t) : socket_t :=
  Socket (s_family s) (s_type s) (s_protocol s) (s_state s) (s_peer s) q (s_locked s) (bound_vnode s).
Definition set_locked (b : bool) (s : socket_t) : socket_t :=
  Socket (s_family s) (s_type s) (s_protocol s) (s_state s) (s_peer s) (accept_queue s) b (bound_vnode s).
Definition set_bound (v : Z) (s : socket_t) : socket_t :=
  Socket (s_family s) (s_type s) (s_protocol s) (s_state s) (s_peer s) (accept_queue s) (s_locked s) v.

(** ** Families *)

Definition socket_register_family (fs : list socket_family_t) (f : socket_family_t) : bool * list socket_family_t :=
  if existsb (fun g => family g =? family f) fs then (false, fs) else (true, fs ++ [f]).

Definition socket_get_family (fs : list socket_family_t) (n : Z) : option socket_family_t :=
  head (filter (fun f => family f = n) fs).

Definition afunix_init (fs : list socket_family_t) : list socket_family_t :=
  (socket_register_family fs (Family AF_UNIX unix_create_socket)).2.

Section sockets.
Context {W S K : Type} `{VnodeOps W} `{PageAllocator S} `{ObjectAllocator K}.
(** Memory with the path strings, the mounts, the stack address of a buffer. *)
Context (fuel : nat) (m : mem) (g_trie_root : trie_node_t) (frame : Z).
Implicit Types st : sk W S K.

Definition set_socks ss st : sk W S K := Sk ss (mp_data st) (handles st) (g_socket_family_list st) (sio st).
Definition set_mp_data d st : sk W S K := Sk (socks st) d (handles st) (g_socket_family_list st) (sio st).
Definition set_handles hs st : sk W S K := Sk (socks st) (mp_data st) hs (g_socket_family_list st) (sio st).
Definition set_sio i st : sk W S K := Sk (socks st) (mp_data st) (handles st) (g_socket_family_list st) i.

Definition sk_w st : W := vw (vfs (sio st)).
Definition set_sk_w (w : W) st : sk W S K := set_sio (set_vfs (set_vw w (vfs (sio st))) (sio st)) st.
Definition sk_objs st : K := vobjs (vfs (sio st)).
Definition set_sk_objs (k : K) st : sk W S K := set_sio (set_vfs (set_vobjs k (vfs (sio st))) (sio st)) st.

(** An assignment to fields of the socket at [s]. *)
Definition with_socket (s : Z) (f : socket_t -> socket_t) st : outcome (sk W S K) :=
  x ← deref (socks st !! s); Ok (set_socks (<[s := f x]> (socks st)) st).

Definition lock_socket (s : Z) st : outcome (sk W S K) :=
  x ← deref (socks st !! s);
  if s_locked x then Panic else with_socket s (set_locked true) st.

Definition unlock_socket (s : Z) st : outcome (sk W S K) := with_socket s (set_locked false) st.

(** ** Unix sockets *)

Definition create_socket (type protocol : Z) st : outcome (Z * sk W S K) :=
  '(o, k) ← obj_alloc sizeof_socket_unix (sk_objs st);
  let st := set_sk_objs k st in
  if o =? NULL then Ok (NULL, st)
  else Ok (o, set_socks (<[o := Socket AF_UNIX type protocol SOCKET_STATE_NEW NULL [] false NULL]> (socks st)) st).

Definition bind (self addr : Z) st : outcome (Z * sk W S K) :=
  st ← lock_socket self st;
  x ← deref (socks st !! self);
  if bound_or_later (s_state x) then
    st ← unlock_socket self st; Ok (- EINVAL, st)
  else
    '(ret, addr_node, w) ← vfs_create fuel m frame g_trie_root addr VNODE_SOCKET (sk_w st);
    let st := set_sk_w w st in
    if ret <? 0 then st ← unlock_socket self st; Ok (- EADDRINUSE, st)
    else if addr_node =? NULL then Fault
    else
      let st := set_mp_data (<[addr_node := self]> (mp_data st)) st in
      st ← with_socket self (fun x => set_state SOCKET_STATE_BOUND (set_bound addr_node x)) st;
      st ← unlock_socket self st;
      Ok (EOK, st).

(** Linking a node that is linked somewhere already corrupts both lists. *)
Definition queued (s : Z) st : Prop := map_Exists (fun _ x => s ∈ accept_queue x) (socks st).

Definition connect (self addr : Z) st : outcome (Z * sk W S K) :=
  st ← lock_socket self st;
  '(_, target_node, w) ← vfs_open fuel m g_trie_root addr (sk_w st);
  let st := set_sk_w w st in
  is_socket ← (if target_node =? NULL then Ok false
               else t ← vo_type target_node (sk_w st); Ok (bool_decide (t = VNODE_SOCKET)));
  if negb is_socket then st ← unlock_socket self st; Ok (- ENOENT, st)
  else
    target ← deref (mp_data st !! target_node);
    st ← lock_socket target st;
    t ← deref (socks st !! target);
    if negb (bool_decide (s_state t = SOCKET_STATE_LISTENING)) then
      st ← unlock_socket target st; st ← unlock_socket self st; Ok (- ECONNREFUSED, st)
    else
      st ← with_socket self (set_state SOCKET_STATE_CONNECTING) st;
      if decide (queued self st) then Fault
      else
        st ← with_socket target (fun t => set_queue (accept_queue t ++ [self]) t) st;
        st ← unlock_socket target st; st ← unlock_socket self st;
        Ok (EOK, st).

Definition listen (self : Z) st : outcome (Z * sk W S K) :=
  st ← lock_socket self st;
  st ← with_socket self (set_state SOCKET_STATE_LISTENING) st;
  st ← unlock_socket self st;
  Ok (EOK, st).

(** One iteration of the loop of [accept]: the new socket, or another round. *)
Definition accept_round (self : Z) st : outcome (option Z * sk W S K) :=
  st ← lock_socket self st;
  x ← deref (socks st !! self);
  match accept_queue x with
  | peer :: q =>
      st ← with_socket self (set_queue q) st;
      '(o, st) ← create_socket (s_type x) (s_protocol x) st;
      st ← with_socket o (fun n => set_peer peer (set_state SOCKET_STATE_CONNECTED n)) st;
      st ← with_socket peer (fun p => set_peer o (set_state SOCKET_STATE_CONNECTED p)) st;
      st ← unlock_socket self st;
      Ok (Some o, st)
  | [] => st ← unlock_socket self st; Ok (None, st)
  end.

(** The loop, while nobody else runs. *)
Fixpoint accept (n : nat) (self : Z) st : outcome (Z * Z * sk W S K) :=
  match n with
  | O => NoFuel
  | Datatypes.S n =>
      '(r, st) ← accept_round self st;
      match r with
      | Some o => Ok (EOK, o, st)
      | None => accept n self st
      end
  end.

(** ** System calls *)

(** The checks shared by the system calls on sockets: an error to return, or the
    socket. *)
Definition fd_socket (fd : Z) st : outcome (sys_ret_t + Z) :=
  res ← get_resource fd (sio st);
  match res with
  | None => Ok (inl (SysRet 0 EBADF))
  | Some (_, r) =>
      if r_node r =? NULL then Ok (inl (SysRet 0 EBADF))
      else
        t ← (if decide (r_node r ∈ handles st) then Ok VNODE_SOCKET else vo_type (r_node r) (sk_w st));
        if negb (bool_decide (t = VNODE_SOCKET)) then Ok (inl (SysRet 0 EBADF))
        else
          let s := default NULL (mp_data st !! r_node r) in
          if s =? NULL then Ok (inl (SysRet 0 EINVAL)) else Ok (inr s)
  end.

(** A vnode for [socket] and a descriptor for the vnode. *)
Definition new_handle (handle socket : Z) st : outcome (sys_ret_t * sk W S K) :=
  let st := set_handles ({[handle]} ∪ handles st) (set_mp_data (<[handle := socket]> (mp_data st)) st) in
  '(fd, i) ← create_resource handle 0 (Z.lor RESOURCE_READ RESOURCE_WRITE) (sio st);
  let st := set_sio i st in
  if fd <? 0 then
    k ← obj_free handle (sk_objs st); Ok (SysRet 0 EMFILE, set_sk_objs k st)
  else Ok (SysRet fd EOK, st).

Definition syscall_accept (n : nat) (sockfd : Z) st : outcome (sys_ret_t * sk W S K) :=
  r ← fd_socket sockfd st;
  match r with
  | inl e => Ok (e, st)
  | inr s =>
      '(ret, new_socket, st) ← accept n s st;
      if negb (ret =? 0) then Ok (SysRet 0 ret, st)
      else
        '(handle, k) ← obj_alloc sizeof_vnode (sk_objs st);
        let st := set_sk_objs k st in
        if handle =? NULL then Ok (SysRet 0 ENOMEM, st) else new_handle handle new_socket st
  end.

Definition syscall_bind (sockfd addr : Z) st : outcome (sys_ret_t * sk W S K) :=
  r ← fd_socket sockfd st;
  match r with
  | inl e => Ok (e, st)
  | inr s => '(e, st) ← bind s addr st; Ok (SysRet 0 e, st)
  end.

Definition syscall_connect (sockfd addr : Z) st : outcome (sys_ret_t * sk W S K) :=
  r ← fd_socket sockfd st;
  match r with
  | inl e => Ok (e, st)
  | inr s => '(e, st) ← connect s addr st; Ok (SysRet 0 e, st)
  end.

Definition syscall_listen (sockfd : Z) st : outcome (sys_ret_t * sk W S K) :=
  r ← fd_socket sockfd st;
  match r with
  | inl e => Ok (e, st)
  | inr s => '(e, st) ← listen s st; Ok (SysRet 0 e, st)
  end.

Definition syscall_socket (domain type protocol : Z) st : outcome (sys_ret_t * sk W S K) :=
  match socket_get_family (g_socket_family_list st) domain with
  | None => Ok (SysRet 0 EINVAL, st)
  | Some f =>
      '(handle, k) ← obj_alloc sizeof_vnode (sk_objs st);
      let st := set_sk_objs k st in
      if handle =? NULL then Ok (SysRet 0 ENOMEM, st)
      else
        '(socket, st) ← (match create_socket_ptr f with unix_create_socket => create_socket type protocol st end);
        if socket =? NULL then
          k ← obj_free handle (sk_objs st); Ok (SysRet 0 ENOMEM, set_sk_objs k st)
        else new_handle handle socket st
  end.
End sockets.

(** ** The life of sockets *)

(** What the processes of a system do with sockets.  A client does not connect a
    socket that is connected, connecting or listening, and does not listen on
    one that is connected or connecting; the code does not check either. *)
Section life.
Context {W S K : Type} `{VnodeOps W} `{PageAllocator S} `{ObjectAllocator K} (fuel : nat) (m : mem) (g_trie_root : trie_node_t) (frame : Z).
Implicit Types st : sk W S K.

Definition in_state st (s : Z) (xs : list socket_state_t) : Prop := exists x, socks st !! s = Some x /\ s_state x ∈ xs.

Inductive sock_step : sk W S K -> sk W S K -> Prop :=
| StepSocket st type protocol o st' :
    create_socket type protocol st = Ok (o, st') -> sock_step st st'
| StepBind st s addr ret st' :
    bind fuel m g_trie_root frame s addr st = Ok (ret, st') -> sock_step st st'
| StepConnect st s addr ret st' :
    in_state st s [SOCKET_STATE_NEW; SOCKET_STATE_BOUND] ->
    connect fuel m g_trie_root s addr st = Ok (ret, st') -> sock_step st st'
| StepListen st s ret st' :
    in_state st s [SOCKET_STATE_NEW; SOCKET_STATE_BOUND; SOCKET_STATE_LISTENING] ->
    listen s st = Ok (ret, st') -> sock_step st st'
| StepAccept st s r st' :
    accept_round s st = Ok (r, st') -> sock_step st st'.

(** The implementation state between operations: no lock is held, and the heap
    knows the sockets. *)
Record sk_inv st : Prop := {
  si_unlocked : map_Forall (fun _ x => s_locked x = false) (socks st);
  si_heap : exists U, oa_state (sk_objs st) U /\ dom (socks st) ⊆ U
}.
End life.

(** ** The protocol *)

(** What the other parties see of a socket. *)
Record conn_t := Conn { c_state : socket_state_t; c_peer : Z; c_queue : list Z }.

Definition conn_of (x : socket_t) : conn_t := Conn (s_state x) (s_peer x) (accept_queue x).

Abbreviation conns := (gmap Z conn_t).

Definition view {W S K} (st : sk W S K) : conns := conn_of <$> socks st.

Inductive conn_step : conns -> conns -> Prop :=
| ConnIdle cs : conn_step cs cs
| ConnNew cs o : cs !! o = None -> conn_step cs (<[o := Conn SOCKET_STATE_NEW NULL []]> cs)
| ConnBind cs s p q :
    cs !! s = Some (Conn SOCKET_STATE_NEW p q) -> conn_step cs (<[s := Conn SOCKET_STATE_BOUND p q]> cs)
| ConnListen cs s x p q :
    cs !! s = Some (Conn x p q) -> x ∈ [SOCKET_STATE_NEW; SOCKET_STATE_BOUND; SOCKET_STATE_LISTENING] ->
    conn_step cs (<[s := Conn SOCKET_STATE_LISTENING p q]> cs)
| ConnConnect cs s t x p q p' q' :
    cs !! s = Some (Conn x p q) -> x ∈ [SOCKET_STATE_NEW; SOCKET_STATE_BOUND] ->
    cs !! t = Some (Conn SOCKET_STATE_LISTENING p' q') -> (forall l c, cs !! l = Some c -> s ∉ c_queue c) ->
    conn_step cs (<[t := Conn SOCKET_STATE_LISTENING p' (q' ++ [s])]> (<[s := Conn SOCKET_STATE_CONNECTING p q]> cs))
| ConnAccept cs l x p q s y r qs o :
    cs !! l = Some (Conn x p (s :: q)) -> cs !! s = Some (Conn y r qs) -> l <> s -> cs !! o = None ->
    conn_step cs (<[s := Conn SOCKET_STATE_CONNECTED o qs]> (<[o := Conn SOCKET_STATE_CONNECTED s []]> (<[l := Conn x p q]> cs))).

(** Waiting sockets are connecting, each in the queue of one listening socket;
    connected sockets are each other's peers. *)
Record conns_ok (cs : conns) : Prop := {
  co_listen : forall l c, cs !! l = Some c -> c_queue c <> [] -> c_state c = SOCKET_STATE_LISTENING;
  co_nodup : forall l c, cs !! l = Some c -> NoDup (c_queue c);
  co_waiting : forall l c s, cs !! l = Some c -> s ∈ c_queue c -> exists d, cs !! s = Some d /\ c_state d = SOCKET_STATE_CONNECTING;
  co_once : forall l c l' c' s, cs !! l = Some c -> cs !! l' = Some c' -> s ∈ c_queue c -> s ∈ c_queue c' -> l = l';
  co_peer : forall s c, cs !! s = Some c -> c_state c = SOCKET_STATE_CONNECTED ->
    exists d, cs !! c_peer c = Some d /\ c_state d = SOCKET_STATE_CONNECTED /\ c_peer d = s
}.

Ltac lk := repeat match goal with
  | H : <[_ := _]> _ !! _ = Some _ |- _ => apply lookup_insert_Some in H as [[? ?]|[? H]]; simplify_eq/=
  end.

(** Changing a socket that is not connecting, keeping its queue, to a state that
    is neither connected nor, with a queue, other than listening. *)
Lemma conns_set cs s x x' p q : conns_ok cs -> cs !! s = Some (Conn x p q) -> x <> SOCKET_STATE_CONNECTING -> x <> SOCKET_STATE_CONNECTED ->
  x' <> SOCKET_STATE_CONNECTED -> (q <> [] -> x' = SOCKET_STATE_LISTENING) -> conns_ok (<[s := Conn x' p q]> cs).
Proof.
  intros [Hl Hn Hw Ho Hp] E Hx1 Hx2 Hx' Hq. split.
  - intros l c Hc Hne. lk; eauto.
  - intros l c Hc. lk; [exact (Hn _ _ E)|eauto].
  - intros l c w Hc Hs. assert (exists d, cs !! w = Some d /\ c_state d = SOCKET_STATE_CONNECTING) as (d & Hd & Hst) by (lk; [exact (Hw _ _ _ E Hs)|eauto]).
    exists d. split; [|done]. rewrite lookup_insert_ne; [done|]. intros <-. simplify_eq/=.
  - intros l c l' c' w Hc Hc' Hs Hs'. lk; first [done|exact (Ho _ _ _ _ _ E Hc' Hs Hs')|exact (Ho _ _ _ _ _ Hc E Hs Hs')|eauto].
  - intros w c Hc Hst. lk. destruct (Hp _ _ Hc Hst) as (d & Hd & Hds & Hdp). exists d. split; [|done].
    rewrite lookup_insert_ne; [done|]. intros Heq. rewrite <- Heq in Hd. simplify_eq/=.
Qed.

Lemma conns_new cs o : conns_ok cs -> cs !! o = None -> conns_ok (<[o := Conn SOCKET_STATE_NEW NULL []]> cs).
Proof.
  intros [Hl Hn Hw Ho Hp] E. split.
  - intros l c Hc Hne. lk; eauto.
  - intros l c Hc. lk; [constructor|eauto].
  - intros l c s Hc Hs. lk; [set_solver|]. destruct (Hw _ _ _ Hc Hs) as (d & Hd & ?). exists d. rewrite lookup_insert_ne by congruence. done.
  - intros l c l' c' s Hc Hc' Hs Hs'. lk; [set_solver..|]. eauto.
  - intros s c Hc Hst. lk. destruct (Hp _ _ Hc Hst) as (d & Hd & ?). exists d. rewrite lookup_insert_ne by congruence. done.
Qed.

Lemma conns_connect cs s t x p q p' q' : conns_ok cs -> cs !! s = Some (Conn x p q) ->
  x ∈ [SOCKET_STATE_NEW; SOCKET_STATE_BOUND] -> cs !! t = Some (Conn SOCKET_STATE_LISTENING p' q') ->
  (forall l c, cs !! l = Some c -> s ∉ c_queue c) ->
  conns_ok (<[t := Conn SOCKET_STATE_LISTENING p' (q' ++ [s])]> (<[s := Conn SOCKET_STATE_CONNECTING p q]> cs)).
Proof.
  intros Hok E Hx Et Hq. assert (x <> SOCKET_STATE_CONNECTING /\ x <> SOCKET_STATE_CONNECTED /\ x <> SOCKET_STATE_LISTENING) as (Hx1 & Hx2 & Hx3)
    by (clear - Hx; set_solver).
  assert (s <> t) as Hst by (intros ->; simplify_eq).
  assert (q = []) as ->. { destruct q; [done|]. destruct Hx3. exact (co_listen _ Hok _ _ E ltac:(done)). }
  pose proof (conns_set _ _ _ SOCKET_STATE_CONNECTING _ _ Hok E Hx1 Hx2 ltac:(done) ltac:(done)) as Hok1.
  assert (<[s := Conn SOCKET_STATE_CONNECTING p []]> cs !! t = Some (Conn SOCKET_STATE_LISTENING p' q')) as Et1 by (by rewrite lookup_insert_ne).
  assert (forall l c, <[s := Conn SOCKET_STATE_CONNECTING p []]> cs !! l = Some c -> s ∉ c_queue c) as Hq1.
  { intros l c Hc. lk; [set_solver|eauto]. }
  assert (<[s := Conn SOCKET_STATE_CONNECTING p []]> cs !! s = Some (Conn SOCKET_STATE_CONNECTING p [])) as Es by apply lookup_insert_eq.
  revert Hok1 Et1 Hq1 Es. generalize (<[s := Conn SOCKET_STATE_CONNECTING p []]> cs). clear - Hst. intros cs [Hl Hn Hw Ho Hp] Et Hq Es. split.
  - intros l c Hc Hne. lk; eauto.
  - intros l c Hc. lk; [|eauto]. apply NoDup_app. split; [exact (Hn _ _ Et)|]. split; [|apply NoDup_singleton].
    intros w Hw' ->%list_elem_of_singleton. by apply (Hq _ _ Et).
  - intros l c w Hc Hs. assert (exists d, cs !! w = Some d /\ c_state d = SOCKET_STATE_CONNECTING) as (d & Hd & Hds).
    { lk; [|eauto]. apply elem_of_app in Hs as [Hs| ->%list_elem_of_singleton]; [exact (Hw _ _ _ Et Hs)|by eexists]. }
    exists d. split; [|done]. rewrite lookup_insert_ne; [done|]. intros <-. simplify_eq/=.
  - assert (forall l c w, cs !! l = Some c -> w ∈ c_queue c -> w ∈ q' ++ [s] -> l = t) as Ho'.
    { intros l c w Hc Hs [Hs'| ->%list_elem_of_singleton]%elem_of_app; [exact (Ho _ _ _ _ _ Hc Et Hs Hs')|by destruct (Hq _ _ Hc Hs)]. }
    intros l c l' c' w Hc Hc' Hs Hs'. lk; first [done|by symmetry; eauto|by eauto].
  - intros w c Hc Hs. lk. destruct (Hp _ _ Hc Hs) as (d & Hd & Hds & Hdp). exists d. split; [|done].
    rewrite lookup_insert_ne; [done|]. intros Heq. rewrite <- Heq in Hd. simplify_eq/=.
Qed.

Lemma conns_accept cs l x p q s y r qs o : conns_ok cs -> cs !! l = Some (Conn x p (s :: q)) -> cs !! s = Some (Conn y r qs) -> cs !! o = None ->
  conns_ok (<[s := Conn SOCKET_STATE_CONNECTED o qs]> (<[o := Conn SOCKET_STATE_CONNECTED s []]> (<[l := Conn x p q]> cs))).
Proof.
  intros [Hl Hn Hw Ho Hp] E Es Eo.
  pose proof (Hl _ _ E ltac:(done)) as Hx. destruct (Hw _ _ s E ltac:(left)) as (d & Hd & Hy). simplify_eq/=.
  assert (qs = []) as ->. { destruct qs; [done|]. by specialize (Hl _ _ Es ltac:(done)). }
  pose proof (Hn _ _ E) as [Hsq Hqn]%NoDup_cons.
  assert (l <> s) as Hls by (intros ->; simplify_eq). assert (l <> o) as Hlo by (intros ->; simplify_eq). assert (s <> o) as Hso by (intros ->; simplify_eq).
  split.
  - intros k c Hc Hne. lk; eauto.
  - intros k c Hc. lk; [constructor|constructor|done|eauto].
  - intros k c w Hc Hs. assert (w <> s /\ exists d, cs !! w = Some d /\ c_state d = SOCKET_STATE_CONNECTING) as (Hws & d & Hd & Hds).
    { lk; [set_solver|set_solver| |].
      - split; [intros ->; done|]. apply (Hw _ _ w E). by right.
      - split; [|eauto]. intros ->. rename select (l <> k) into Hlk. apply Hlk. exact (Ho _ _ _ _ s E Hc ltac:(left) Hs). }
    exists d. split; [|done]. rewrite !lookup_insert_ne; [done|..]; intros <-; simplify_eq/=.
  - assert (forall k c w, cs !! k = Some c -> w ∈ c_queue c -> w ∈ q -> l = k) as Ho'.
    { intros k c w Hc Hs Hs'. apply (Ho _ _ _ _ w E Hc); [by right|done]. }
    intros k c k' c' w Hc Hc' Hs Hs'. lk; try set_solver; eauto.
  - intros w c Hc Hst. lk.
    + eexists. split; [rewrite lookup_insert_ne by done; apply lookup_insert_eq|done].
    + eexists. split; [apply lookup_insert_eq|done].
    + destruct (Hp _ _ Hc Hst) as (d & Hd & Hds & Hdp). exists d. split; [|done]. rewrite !lookup_insert_ne; [done|..]; intros Heq; rewrite <- Heq in Hd; simplify_eq/=.
Qed.

Lemma conn_step_ok cs cs' : conn_step cs cs' -> conns_ok cs -> conns_ok cs'.
Proof.
  intros [cs0|cs0 o E|cs0 s p q E|cs0 s x p q E Hx|cs0 s t x p q p' q' E Hx Et Hq|cs0 l x p q s y r qs o E Es Hls Eo] Hok.
  - done.
  - by apply conns_new.
  - eapply conns_set; try done. intros Hq. by specialize (co_listen _ Hok _ _ E Hq).
  - eapply conns_set; try done; clear - Hx; set_solver.
  - by eapply conns_connect.
  - by eapply conns_accept.
Qed.

(** ** The implementation follows the protocol *)

Section refine.
Context {W S K : Type} `{VnodeOps W} `{PageAllocator S} `{ObjectAllocator K} (fuel : nat) (m : mem) (g_trie_root : trie_node_t) (frame : Z).
Implicit Types st : sk W S K.

Lemma with_ok s f st st' : with_socket s f st = Ok st' ->
  exists x, socks st !! s = Some x /\ st' = set_socks (<[s := f x]> (socks st)) st.
Proof. unfold with_socket. intros E. inv_ok. eauto. Qed.

Lemma lock_ok s st st' : lock_socket s st = Ok st' ->
  exists x, socks st !! s = Some x /\ s_locked x = false /\ st' = set_socks (<[s := set_locked true x]> (socks st)) st.
Proof.
  unfold lock_socket. intros E. apply bind_Ok in E as (x & Hx & E). apply deref_Ok in Hx. destruct (s_locked x) eqn:El; [done|].
  apply with_ok in E as (x' & Hx' & ->). simplify_eq. eauto.
Qed.

Lemma unlock_ok s st st' : unlock_socket s st = Ok st' ->
  exists x, socks st !! s = Some x /\ st' = set_socks (<[s := set_locked false x]> (socks st)) st.
Proof. apply with_ok. Qed.

(** A change of socket [s] that leaves it unlocked, and of nothing the protocol
    sees elsewhere. *)
Lemma one_socket st s x y (v : sk W S K) : sk_inv st -> socks st !! s = Some x -> s_locked y = false ->
  sk_objs v = sk_objs st -> socks v = <[s := y]> (socks st) ->
  view v = <[s := conn_of y]> (view st) /\ sk_inv v.
Proof.
  intros [Hu (U & HU & Hd)] Hx Hy Ek Es. split; [unfold view; by rewrite Es, fmap_insert|]. split.
  - rewrite Es. intros k z Hz. apply lookup_insert_Some in Hz as [[<- <-]|[Hne Hz]]; [done|]. by apply (Hu k z Hz).
  - exists U. rewrite Ek, Es. split; [done|]. rewrite dom_insert. apply elem_of_dom_2 in Hx. clear - Hd Hx. set_solver.
Qed.

Lemma one_socket_at st s x (v : sk W S K) y : socks v = <[s := y]> (socks st) -> sk_inv st -> socks st !! s = Some x -> s_locked y = false ->
  sk_objs v = sk_objs st -> view v = <[s := conn_of y]> (view st) /\ sk_inv v.
Proof. intros. by eapply one_socket. Qed.

Lemma one_socket_idle st s x y (v : sk W S K) : sk_inv st -> socks st !! s = Some x -> s_locked y = false -> conn_of y = conn_of x ->
  sk_objs v = sk_objs st -> socks v = <[s := y]> (socks st) -> conn_step (view st) (view v) /\ sk_inv v.
Proof.
  intros Hi Hx Hy Ec Ek Es. destruct (one_socket st s x y v Hi Hx Hy Ek Es) as [Ev Hv]. split; [|done].
  rewrite Ev, Ec. unfold view. rewrite insert_id; [constructor|]. by rewrite lookup_fmap, Hx.
Qed.

Lemma view_lookup st s x : socks st !! s = Some x -> view st !! s = Some (Conn (s_state x) (s_peer x) (accept_queue x)).
Proof. intros Hx. unfold view. by rewrite lookup_fmap, Hx. Qed.

Lemma create_socket_refines type protocol st o st' : (exists U, oa_state (sk_objs st) U /\ dom (socks st) ⊆ U) -> create_socket type protocol st = Ok (o, st') ->
  o <> NULL /\ socks st !! o = None /\
  socks st' = <[o := Socket AF_UNIX type protocol SOCKET_STATE_NEW NULL [] false NULL]> (socks st) /\
  exists U, oa_state (sk_objs st') U /\ dom (socks st') ⊆ U.
Proof.
  intros (U & HU & Hd) E. unfold create_socket in E. apply bind_Ok in E as ([o' k'] & Ea & E).
  destruct (obj_alloc_spec _ U sizeof_socket_unix HU) as [Ep|(o2 & k2 & E2 & Hk & Ho & Hr)]; [unfold sizeof_socket_unix; lia|congruence|].
  rewrite E2 in Ea. injection Ea as <- <-. cbn [fst snd] in E. rewrite (proj2 (Z.eqb_neq o2 NULL)) in E by (unfold NULL; lia). injection E as <- <-.
  split; [unfold NULL; lia|]. split; [apply not_elem_of_dom; clear - Ho Hd; set_solver|]. split; [reflexivity|].
  exists ({[o2]} ∪ U). split; [exact Hk|]. cbn [socks set_socks]. rewrite dom_insert. clear - Hd. set_solver.
Qed.

Ltac sinv := repeat (cbn [socks set_socks set_sk_w set_sio set_mp_data] in *;
  match goal with
  | E : (_ ≫= _) = Ok _ |- _ => apply bind_Ok in E as (? & ? & E)
  | E : lock_socket _ _ = Ok _ |- _ => let x := fresh "x" in apply lock_ok in E as (x & ? & ? & ->)
  | E : unlock_socket _ _ = Ok _ |- _ => let x := fresh "x" in apply unlock_ok in E as (x & ? & ->)
  | E : with_socket _ _ _ = Ok _ |- _ => let x := fresh "x" in apply with_ok in E as (x & ? & ->)
  | E : deref _ = Ok _ |- _ => apply deref_Ok in E
  | E : <[?s := _]> _ !! ?s = Some _ |- _ => rewrite lookup_insert_eq in E; injection E as <-
  | E : Ok _ = Ok _ |- _ => injection E as ? ?; subst
  | p : (_ * _)%type |- _ => destruct p
  end); cbn [socks set_socks set_sk_w set_sio set_mp_data] in *.

Lemma bind_refines s addr ret st st' : sk_inv st -> bind fuel m g_trie_root frame s addr st = Ok (ret, st') ->
  conn_step (view st) (view st') /\ sk_inv st'.
Proof.
  intros Hi E. unfold bind in E. sinv. rename select (socks st !! s = Some _) into Hx. case_match eqn:Eb; sinv.
  - eapply (one_socket_idle st s _ _ _ Hi Hx); [..|cbn [socks set_socks]; apply insert_insert_eq]; done.
  - case_match; sinv.
    + eapply (one_socket_idle st s _ _ _ Hi Hx); [..|cbn [socks set_socks set_sk_w set_sio]; apply insert_insert_eq]; done.
    + case_match; [done|]. sinv. match type of Hx with _ = Some ?y => rename y into x end.
      match goal with |- _ /\ sk_inv ?v =>
        eassert (socks v = <[s := _]> (socks st)) as Es by (cbn [socks set_socks set_sk_w set_sio set_mp_data]; rewrite !insert_insert_eq; reflexivity);
        destruct (one_socket_at st s x v _ Es Hi Hx eq_refl eq_refl) as [Ev Hv] end.
      split; [|exact Hv]. rewrite Ev. assert (s_state x = SOCKET_STATE_NEW) as Est by (destruct x as [? ? ? [] ? ? ? ?]; done).
      apply (ConnBind (view st) s (s_peer x) (accept_queue x)). rewrite (view_lookup st s x) by done. by rewrite Est.
Qed.

Lemma listen_refines s ret st st' : sk_inv st -> in_state st s [SOCKET_STATE_NEW; SOCKET_STATE_BOUND; SOCKET_STATE_LISTENING] ->
  listen s st = Ok (ret, st') -> conn_step (view st) (view st') /\ sk_inv st'.
Proof.
  intros Hi (y & Hy & Hst) E. unfold listen in E. sinv. simplify_eq.
  match goal with |- _ /\ sk_inv ?v =>
    eassert (socks v = <[s := _]> (socks st)) as Es by (cbn [socks set_socks]; rewrite !insert_insert_eq; reflexivity);
    destruct (one_socket_at st s y v _ Es Hi Hy eq_refl eq_refl) as [Ev Hv] end.
  split; [|exact Hv]. rewrite Ev. eapply (ConnListen (view st) s (s_state y) (s_peer y) (accept_queue y)); [by apply view_lookup|done].
Qed.

(** Changes of two sockets. *)
Lemma two_sockets st s t x y (v : sk W S K) x' y' : socks v = <[t := y']> (<[s := x']> (socks st)) ->
  sk_inv st -> socks st !! s = Some x -> socks st !! t = Some y -> s_locked x' = false -> s_locked y' = false ->
  sk_objs v = sk_objs st -> view v = <[t := conn_of y']> (<[s := conn_of x']> (view st)) /\ sk_inv v.
Proof.
  intros Es [Hu (U & HU & Hd)] Hx Hy Hlx Hly Ek. split; [unfold view; by rewrite Es, !fmap_insert|]. split.
  - rewrite Es. intros k w Hw. apply lookup_insert_Some in Hw as [[<- <-]|[_ Hw]]; [done|].
    apply lookup_insert_Some in Hw as [[<- <-]|[_ Hw]]; [done|]. by apply (Hu k w Hw).
  - exists U. rewrite Ek, Es. split; [done|]. rewrite !dom_insert. apply elem_of_dom_2 in Hx, Hy. clear - Hd Hx Hy. set_solver.
Qed.

Ltac look := repeat first [rewrite lookup_insert_eq | rewrite lookup_insert_ne by congruence].

(** Equality of stores of sockets that differ from one in [s] and [t]. *)
Ltac same_store s t :=
  cbn [socks set_socks set_sk_w set_sio set_mp_data]; apply map_eq; intros k;
  destruct (decide (k = s)) as [->|]; [|destruct (decide (k = t)) as [->|]]; look; reflexivity.

Lemma connect_refines s addr ret st st' : sk_inv st -> in_state st s [SOCKET_STATE_NEW; SOCKET_STATE_BOUND] ->
  connect fuel m g_trie_root s addr st = Ok (ret, st') -> conn_step (view st) (view st') /\ sk_inv st'.
Proof.
  intros Hi (x & Hx & Hst) E. unfold connect in E. sinv. simplify_eq.
  match goal with b : bool |- _ => destruct b end; cbn [negb] in E.
  2: { sinv. eapply (one_socket_idle st s _ _ _ Hi Hx); [..|cbn [socks set_socks set_sk_w set_sio]; apply insert_insert_eq]; done. }
  sinv. rename select (<[s := _]> _ !! _ = Some _) into Ht. match type of Ht with _ !! ?t = Some ?y => rename t into tg, y into y0 end.
  assert (s <> tg) as Hne by (intros ->; rewrite lookup_insert_eq in Ht; by simplify_eq/=).
  rewrite lookup_insert_ne in Ht by done. case_bool_decide as Hl; cbn [negb] in E.
  - sinv. rename select (<[tg := _]> _ !! s = Some _) into Hs. rewrite lookup_insert_ne, lookup_insert_eq in Hs by done. injection Hs as <-.
    case_decide as Hq; [done|]. sinv.
    repeat match goal with E : _ !! _ = Some _ |- _ => progress (repeat first [rewrite lookup_insert_eq in E | rewrite lookup_insert_ne in E by congruence]); try (injection E as <-) end.
    match goal with |- _ /\ sk_inv ?v =>
      destruct (two_sockets st s tg x y0 v (set_locked false (set_state SOCKET_STATE_CONNECTING (set_locked true x)))
        (set_locked false (set_queue (accept_queue y0 ++ [s]) (set_locked true y0)))) as [Ev Hv] end; try done.
    { same_store s tg. }
    split; [|exact Hv]. rewrite Ev. cbn in Hl. unfold conn_of. cbn. rewrite Hl.
    apply (ConnConnect (view st) s tg (s_state x) (s_peer x) (accept_queue x) (s_peer y0) (accept_queue y0)); [by apply view_lookup|done| |].
    + by rewrite (view_lookup st tg y0 Ht), Hl.
    + intros l c Hc Hin. unfold view in Hc. rewrite lookup_fmap in Hc. apply fmap_Some in Hc as (u & Hu & ->). apply Hq. simpl in Hin.
      exists l. destruct (decide (l = s)) as [->|]; [|destruct (decide (l = tg)) as [->|]]; simplify_eq; cbn [socks set_socks set_sk_w set_sio]; eexists; look; done.
  - sinv.
    repeat match goal with E : _ !! _ = Some _ |- _ => progress (repeat first [rewrite lookup_insert_eq in E | rewrite lookup_insert_ne in E by congruence]); try (injection E as <-) end.
    match goal with |- _ /\ sk_inv ?v =>
      destruct (two_sockets st s tg x y0 v (set_locked false (set_locked true x)) (set_locked false (set_locked true y0))) as [Ev Hv] end; try done.
    { same_store s tg. }
    split; [|exact Hv]. rewrite Ev. replace (<[tg := _]> _) with (view st); [constructor|].
    unfold view. rewrite <- !fmap_insert. apply map_eq. intros k. rewrite !lookup_fmap.
    destruct (decide (k = tg)) as [->|]; [|destruct (decide (k = s)) as [->|]]; look; rewrite ?Hx, ?Ht; done.
Qed.

Lemma accept_refines s r st st' : sk_inv st -> conns_ok (view st) -> accept_round s st = Ok (r, st') ->
  conn_step (view st) (view st') /\ sk_inv st'.
Proof.
  intros Hi Hok E. unfold accept_round in E. sinv. rename select (socks st !! s = Some _) into Hx.
  match type of Hx with _ = Some ?y => rename y into x end. change (accept_queue (set_locked true x)) with (accept_queue x) in E.
  destruct (accept_queue x) as [|p q] eqn:Eq.
  { sinv. eapply (one_socket_idle st s _ _ _ Hi Hx); [..|cbn [socks set_socks]; apply insert_insert_eq]; done. }
  pose proof (view_lookup st s x Hx) as Hv. rewrite Eq in Hv.
  destruct (co_waiting _ Hok _ _ p Hv ltac:(left)) as (d & Hd & Hds). pose proof (co_listen _ Hok _ _ Hv ltac:(done)) as Hls. cbn in Hls.
  assert (s <> p) as Hsp by (intros ->; rewrite Hv in Hd; injection Hd as <-; simpl in Hds; congruence).
  unfold view in Hd. rewrite lookup_fmap in Hd. apply fmap_Some in Hd as (y & Hy & ->).
  apply bind_Ok in E as (st1 & E1 & E). apply with_ok in E1 as (x1 & Hx1 & ->). cbn [socks set_socks] in Hx1.
  rewrite lookup_insert_eq in Hx1. injection Hx1 as <-. apply bind_Ok in E as ([o st2] & E2 & E).
  destruct (si_heap _ Hi) as (U & HU & Hdom). pose proof (elem_of_dom_2 _ _ _ Hx) as Hdx.
  apply create_socket_refines in E2 as (Hon & Ho & Es2 & Hheap).
  2: { exists U. split; [exact HU|]. cbn [socks set_socks]. rewrite !dom_insert. clear - Hdom Hdx. set_solver. }
  cbn [socks set_socks] in Ho, Es2. rewrite insert_insert_eq in Ho, Es2.
  apply lookup_insert_None in Ho as [Ho Hos]. assert (o <> p) as Hop by congruence.
  apply bind_Ok in E as (st3 & E3 & E). apply with_ok in E3 as (x3 & Hx3 & ->). rewrite Es2, lookup_insert_eq in Hx3. injection Hx3 as <-.
  apply bind_Ok in E as (st4 & E4 & E). apply with_ok in E4 as (x4 & Hx4 & ->). cbn [socks set_socks] in Hx4.
  rewrite Es2, !lookup_insert_ne in Hx4 by congruence. rewrite Hy in Hx4. injection Hx4 as <-.
  apply bind_Ok in E as (st5 & E5 & E). injection E as <- <-. apply unlock_ok in E5 as (x5 & Hx5 & ->). cbn [socks set_socks] in Hx5.
  rewrite Es2, !lookup_insert_ne, lookup_insert_eq in Hx5 by congruence. injection Hx5 as <-.
  match goal with |- _ /\ sk_inv ?v => assert (socks v = <[p := set_peer o (set_state SOCKET_STATE_CONNECTED y)]>
      (<[o := set_peer p (set_state SOCKET_STATE_CONNECTED (Socket AF_UNIX (s_type x) (s_protocol x) SOCKET_STATE_NEW NULL [] false NULL))]>
      (<[s := set_locked false (set_queue q (set_locked true x))]> (socks st)))) as Es;
      [|remember v as st' eqn:Est; assert (sk_objs st' = sk_objs st2) as Ek by (by subst st'); clear Est] end.
  { cbn [socks set_socks]. rewrite Es2. apply map_eq. intros k. destruct (decide (k = s)) as [->|]; [look; reflexivity|].
    destruct (decide (k = p)) as [->|]; [look; reflexivity|]. destruct (decide (k = o)) as [->|]; look; reflexivity. }
  split.
  - unfold view at 2. rewrite Es, !fmap_insert. fold (view st).
    apply (ConnAccept (view st) s (s_state x) (s_peer x) q p (s_state y) (s_peer y) (accept_queue y) o); [done|by apply view_lookup|done|].
    unfold view. by rewrite lookup_fmap, Ho.
  - split.
    + rewrite Es. intros k w Hw. pose proof (si_unlocked _ Hi) as Hu. apply lookup_insert_Some in Hw as [[<- <-]|[_ Hw]]; [exact (Hu _ _ Hy)|].
      apply lookup_insert_Some in Hw as [[<- <-]|[_ Hw]]; [done|]. apply lookup_insert_Some in Hw as [[<- <-]|[_ Hw]]; [done|]. exact (Hu _ _ Hw).
    + destruct Hheap as (U' & HU' & Hd'). exists U'. rewrite Ek. split; [done|]. rewrite Es, Es2 in *. rewrite !dom_insert in *.
      apply elem_of_dom_2 in Hy. clear - Hd' Hy. set_solver.
Qed.

Lemma sock_step_refines st st' : sk_inv st -> conns_ok (view st) -> sock_step fuel m g_trie_root frame st st' ->
  conn_step (view st) (view st') /\ sk_inv st'.
Proof.
  intros Hi Hok Hs. destruct Hs as [st type protocol o st' E|st s addr ret st' E|st s addr ret st' Hst E|st s ret st' Hst E|st s r st' E].
  - apply create_socket_refines in E as (_ & Ho & Es & Hh); [|apply Hi]. split.
    + unfold view at 2. rewrite Es, fmap_insert. apply ConnNew. unfold view. by rewrite lookup_fmap, Ho.
    + split; [|done]. rewrite Es. intros k w Hw. apply lookup_insert_Some in Hw as [[<- <-]|[_ Hw]]; [done|]. exact (si_unlocked _ Hi _ _ Hw).
  - by eapply bind_refines.
  - by eapply connect_refines.
  - by eapply listen_refines.
  - by eapply accept_refines.
Qed.
End refine.

Lemma sock_steps_refine {W S K : Type} `{VnodeOps W} `{PageAllocator S} `{ObjectAllocator K} fuel m g_trie_root frame (st st' : sk W S K) :
  sk_inv st -> conns_ok (view st) -> rtc (sock_step fuel m g_trie_root frame) st st' ->
  rtc conn_step (view st) (view st') /\ sk_inv st' /\ conns_ok (view st').
Proof.
  intros Hi Hok Hs. induction Hs as [st|st st1 st2 Hs _ IH]; [done|].
  destruct (sock_step_refines fuel m g_trie_root frame st st1 Hi Hok Hs) as [Hc Hi1].
  destruct (IH Hi1 (conn_step_ok _ _ Hc Hok)) as (Hr & Hi2 & Hok2). split; [|done]. by eapply rtc_l.
Qed.



(** ** Concrete runs *)

(** A file system with one directory, node 7, whose files are all sockets. *)
Record names := Names { n_nodes : gmap (list Z) Z; n_names : gmap Z (list Z); n_next : Z }.

#[export] Instance names_ops : VnodeOps names := {|
  vo_open vn name w := match n_nodes w !! name with Some c => Ok (EOK, c, w) | None => Ok (ENOENT, NULL, w) end;
  vo_close vn w := Ok (EOK, w);
  vo_read vn off count w := Ok (EOK, [], w);
  vo_write vn off bs w := Ok (EOK, 0, w);
  vo_create vn name t w :=
    Ok (EOK, n_next w, Names (<[name := n_next w]> (n_nodes w)) (<[n_next w := name]> (n_names w)) (n_next w + 1));
  vo_ioctl vn op arg w := Ok (ENOTSUP, w);
  vo_name vn w := deref (n_names w !! vn);
  vo_size vn w := Ok 0;
  vo_type vn w := Ok (if vn =? 7 then VNODE_DIR else VNODE_SOCKET)
|}.

Definition ex_sk : sk names bump fresh :=
  Sk ∅ ∅ ∅ (afunix_init []) (Io ex_table ex_robjs (VfsState (Names ∅ ∅ 20) ∅ (Bump 1 []) (Fresh 1024 []) ∅) []).

(** A server binds /f and listens, a client connects, the server accepts. *)
Definition after {A B} (d : B) (r : outcome (A * B)) : B := match r with Ok (_, b) => b | _ => d end.
Definition ex_sk1 := after ex_sk (create_socket 1 0 ex_sk).
Definition ex_sk2 := after ex_sk (bind 9 ex_path ex_trie 5000 1024 100 ex_sk1).
Definition ex_sk3 := after ex_sk (listen 1024 ex_sk2).
Definition ex_sk4 := after ex_sk (create_socket 1 0 ex_sk3).
Definition ex_sk5 := after ex_sk (connect 9 ex_path ex_trie 2048 100 ex_sk4).
Definition ex_sk6 := after ex_sk (accept_round 1024 ex_sk5).

Lemma ex_session_view : view ex_sk6 =
  {[ 1024 := Conn SOCKET_STATE_LISTENING NULL []; 2048 := Conn SOCKET_STATE_CONNECTED 3072 []; 3072 := Conn SOCKET_STATE_CONNECTED 2048 [] ]}.
Proof. vm_compute. reflexivity. Qed.

Lemma ex_in_state (st : sk names bump fresh) s xs :
  match socks st !! s with Some x => bool_decide (s_state x ∈ xs) | None => false end = true -> in_state st s xs.
Proof. unfold in_state. destruct (socks st !! s) as [x|]; [|done]. intros E%bool_decide_eq_true. eauto. Qed.

Lemma ex_session_steps : rtc (sock_step 9 ex_path ex_trie 5000) ex_sk ex_sk6.
Proof.
  eapply rtc_l; [apply (StepSocket 9 ex_path ex_trie 5000 ex_sk 1 0 1024 ex_sk1); vm_compute; reflexivity|].
  eapply rtc_l; [apply (StepBind 9 ex_path ex_trie 5000 ex_sk1 1024 100 EOK ex_sk2); vm_compute; reflexivity|].
  eapply rtc_l; [apply (StepListen 9 ex_path ex_trie 5000 ex_sk2 1024 EOK ex_sk3); [apply ex_in_state|]; vm_compute; reflexivity|].
  eapply rtc_l; [apply (StepSocket 9 ex_path ex_trie 5000 ex_sk3 1 0 2048 ex_sk4); vm_compute; reflexivity|].
  eapply rtc_l; [apply (StepConnect 9 ex_path ex_trie 5000 ex_sk4 2048 100 EOK ex_sk5); [apply ex_in_state|]; vm_compute; reflexivity|].
  eapply rtc_l; [apply (StepAccept 9 ex_path ex_trie 5000 ex_sk5 1024 (Some 3072) ex_sk6); vm_compute; reflexivity|]. apply rtc_refl.
Qed.



(** ** Behaviours worth knowing *)

(** A socket that listens on an address and connects to it takes its own lock
    twice. *)
Lemma connect_self_deadlock : connect 9 ex_path ex_trie 1024 100 ex_sk3 = Panic.
Proof. vm_compute. reflexivity. Qed.

(** Nothing stops a connected socket from connecting again: its peer then has a
    peer that is not its own. *)
Definition ex_sk7 := after ex_sk (connect 9 ex_path ex_trie 2048 100 ex_sk6).
Definition ex_sk8 := after ex_sk (accept_round 1024 ex_sk7).

Lemma reconnect_breaks_peers : view ex_sk8 =
  {[ 1024 := Conn SOCKET_STATE_LISTENING NULL []; 2048 := Conn SOCKET_STATE_CONNECTED 4096 [];
     3072 := Conn SOCKET_STATE_CONNECTED 2048 []; 4096 := Conn SOCKET_STATE_CONNECTED 2048 [] ]}.
Proof. vm_compute. reflexivity. Qed.

(** Two connects in a row link the same node twice. *)
Lemma connect_twice_corrupts : connect 9 ex_path ex_trie 2048 100 ex_sk5 = Fault.
Proof. vm_compute. reflexivity. Qed.

(** A socket system call on a full table reports success with a descriptor that
    is not open. *)
Definition ex_full : sk names bump fresh := set_sio (set_table (Table 500 [900]) (sio ex_sk)) ex_sk.

Lemma socket_full_table : fst <$> syscall_socket AF_UNIX 1 0 ex_full = Ok (SysRet 1 EOK).
Proof. vm_compute. reflexivity. Qed.
