(* ===== verification/Syscalls.v ===== *)
(** * Memory system calls (kernel/src/syscalls/mem.c)

    [mmap], on the resource table of the process (Resource.v) and its address
    space (Vmm.v). *)
From stdpp Require Import base gmap list fin_maps.
From Stdlib Require Import ZArith Lia.
From S2P Require Import Prelude Interfaces Nodes Vmm Resource.

Definition MAP_ANON : Z := 0x20.

Section mem.
Context {M K V W S K' : Type} `{PageMap M} `{ObjectAllocator K} `{Files V} (HHDM : Z).

(** [prot] and the other bits of [flags] are not passed on. *)
Definition syscall_mmap (i : io W S K') (a : vmm_addr_space_t) (addr length prot flags fd offset : Z) (st : vstate M K V) :
    outcome (sys_ret_t * vmm_addr_space_t * vstate M K V) :=
  r ← (if Z.land flags MAP_ANON =? 0 then
         res ← get_resource fd i;
         match res with
         | None => Ok None
         | Some (_, r) => if r_node r =? NULL then Ok None else Ok (Some (r_node r, offset))
         end
       else Ok (Some (NULL, 0)));
  match r with
  | None => Ok (SysRet 0 EBADF, a, st)
  | Some (vn, off) =>
      '(v, a, st) ← vmm_mmap HHDM a addr length 0 (Z.lor VMM_MAP_ANON VMM_MAP_PRIVATE) vn off st;
      Ok (SysRet v EOK, a, st)
  end.

(** An anonymous mapping whose hint is free is made there, without populating it:
    one segment more, nothing else changes. *)
Lemma syscall_mmap_anon (i : io W S K') a addr n prot fd offset st U :
  oa_state (objs st) U -> addr mod ARCH_PAGE_GRAN = 0 -> n mod ARCH_PAGE_GRAN = 0 ->
  vmm_check_collision a addr n = false -> vmm_is_in_bounds a addr n = true ->
  syscall_mmap i a addr n prot MAP_ANON fd offset st = Panic \/
  exists o k, syscall_mmap i a addr n prot MAP_ANON fd offset st =
    Ok (SysRet addr EOK, vmm_insert_seg a (Seg o VMM_SEG_VNODE addr n 0 (Z.lor VMM_MAP_ANON VMM_MAP_PRIVATE) NULL 0), set_objs k st) /\ o ∉ U.
Proof.
  intros Hk Ha Hn Hc Hb. unfold syscall_mmap. change (Z.land MAP_ANON MAP_ANON =? 0) with false. go. unfold vmm_mmap.
  rewrite Ha, Hn, Hc, Hb. go. cbn [Z.eqb andb orb negb xorb].
  change (xorb (has_flag (Z.lor VMM_MAP_ANON VMM_MAP_PRIVATE) VMM_MAP_PRIVATE) (has_flag (Z.lor VMM_MAP_ANON VMM_MAP_PRIVATE) VMM_MAP_SHARED)) with true.
  change (xorb (has_flag (Z.lor VMM_MAP_ANON VMM_MAP_PRIVATE) VMM_MAP_ANON) (negb (NULL =? NULL))) with true. go.
  destruct (obj_alloc_spec _ U sizeof_seg Hk) as [E|(o & k & E & _ & Ho & _)]; [unfold sizeof_seg; lia|left; by run E|right].
  run E. change (negb (has_flag (Z.lor VMM_MAP_ANON VMM_MAP_PRIVATE) VMM_MAP_POPULATE)) with true. go. eexists _, _. split; [reflexivity|done].
Qed.

(** The flags always say anonymous: mapping a file fails an assertion of
    [vmm_mmap]. *)
Lemma mmap_file_panics (i : io W S K') a addr n prot flags fd offset st p r :
  Z.land flags MAP_ANON = 0 -> get_resource fd i = Ok (Some (p, r)) -> r_node r <> NULL ->
  addr mod ARCH_PAGE_GRAN = 0 -> n mod ARCH_PAGE_GRAN = 0 ->
  syscall_mmap i a addr n prot flags fd offset st = Panic.
Proof.
  intros Hf Hr Hn Ha Hl. unfold syscall_mmap. rewrite Hf. change (0 =? 0) with true. cbn iota. run Hr. rewrite (proj2 (Z.eqb_neq _ _) Hn). go.
  unfold vmm_mmap. rewrite Ha, Hl, (proj2 (Z.eqb_neq _ _) Hn). reflexivity.
Qed.
End mem.
