(* ===== verification/Sync.v ===== *)
(** * Spin locks (kernel/src/common/sync/spinlock.c)

    Processors that use one spin lock, as a step relation: every access of the
    code to the lock or to the interrupt flag is a step of its own, and an
    interrupt may come between any two steps of a processor whose interrupts are
    enabled.  The interrupt handler runs on top of the interrupted code and may
    take the lock as well.  Memory is sequentially consistent, which is what the
    acquire and release orders give for a single location. *)
From stdpp Require Import base list relations.
From Stdlib Require Import ZArith Lia.
From S2P Require Import Prelude.

(** [prev_int_state] is written by the holder only. *)
Record spinlock_t := Spinlock { lock : bool; prev_int_state : bool }.

Definition SPINLOCK_INIT : spinlock_t := Spinlock false false.

Definition DEADLOCK_LIMIT : Z := 3000000.

(** Where a thread of control stands.  [prim] tells [spinlock_primitive_acquire]
    and [spinlock_primitive_release] from the other two; [cnt] is
    [deadlock_cnt], [prev] the local [prev_int_state] of [spinlock_release]. *)
Inductive at_t :=
| Outside                          (* holds nothing and wants nothing *)
| TestAndSet (prim : bool) (cnt : Z)
| Load (prim : bool) (cnt : Z)     (* the inner loop *)
| SaveInt                          (* the lock is taken *)
| MaskInt
| Critical (prim : bool)           (* the acquire has returned *)
| Clear (prim prev : bool)         (* the release has read the state *)
| Restore (prev : bool)            (* the lock is given back *)
| Panicked.

(** A thread of control on a processor, with the interrupt flag at the time it
    called the acquire. *)
Record frame := Frame { at_ : at_t; int_at_call : bool }.

Record cpu := Cpu { int_enabled : bool; frames : list frame }.

(** One access of [spinlock_acquire] or [spinlock_release], given the flag of the
    processor: the next place, the flag, the lock. *)
Definition lock_step (a : at_t) (intf : bool) (l : spinlock_t) : option (at_t * bool * spinlock_t) :=
  match a with
  | Outside | Critical _ | Panicked => None
  | TestAndSet prim cnt =>
      if lock l then Some (Load prim cnt, intf, l)
      else Some ((if prim then Critical true else SaveInt), intf, Spinlock true (prev_int_state l))
  | Load prim cnt =>
      if lock l then Some ((if cnt >=? DEADLOCK_LIMIT then Panicked else Load prim (u64 (cnt + 1))), intf, l)
      else Some (TestAndSet prim cnt, intf, l)
  | SaveInt => Some (MaskInt, intf, Spinlock (lock l) intf)
  | MaskInt => Some (Critical false, false, l)
  | Clear prim prev => Some ((if prim then Outside else Restore prev), intf, Spinlock false (prev_int_state l))
  | Restore prev => Some (Outside, (if prev then true else intf), l)
  end.

(** The calls a thread of control makes. *)
Definition call_step (prim : bool) (a : at_t) (l : spinlock_t) : option at_t :=
  match a with
  | Outside => Some (TestAndSet prim 0)
  | Critical prim => Some (Clear prim (prev_int_state l))
  | _ => None
  end.

(** A step of a processor: its running thread of control makes an access or a
    call, an interrupt comes in, or the handler returns.  The processor clears
    the flag when it enters a handler and sets it when the handler returns. *)
Inductive cpu_step : cpu -> spinlock_t -> cpu -> spinlock_t -> Prop :=
| StepLock f fs a i i' l l' :
    lock_step (at_ f) i l = Some (a, i', l') ->
    cpu_step (Cpu i (f :: fs)) l (Cpu i' (Frame a (int_at_call f) :: fs)) l'
| StepCall prim f fs a i l :
    call_step prim (at_ f) l = Some a ->
    cpu_step (Cpu i (f :: fs)) l (Cpu i (Frame a (match at_ f with Outside => i | _ => int_at_call f end) :: fs)) l
| StepInterrupt f fs l :
    cpu_step (Cpu true (f :: fs)) l (Cpu false (Frame Outside false :: f :: fs)) l
| StepReturn b i f fs l :
    cpu_step (Cpu i (Frame Outside b :: f :: fs)) l (Cpu true (f :: fs)) l.

Record machine := Machine { the_lock : spinlock_t; cpus : list cpu }.

Inductive step : machine -> machine -> Prop :=
| Step l cs i c c' l' :
    cs !! i = Some c -> cpu_step c l c' l' -> step (Machine l cs) (Machine l' (<[i := c']> cs)).

(** Every processor starts outside the lock. *)
Definition initial (s : machine) : Prop :=
  the_lock s = SPINLOCK_INIT /\
  Forall (fun c => exists b, frames c = [Frame Outside b]) (cpus s).

Definition reachable (s : machine) : Prop := exists s0, initial s0 /\ rtc step s0 s.

(** ** The invariant *)

(** Between the test-and-set that took the lock and the store that gives it back. *)
Definition holding (a : at_t) : bool :=
  match a with
  | SaveInt | MaskInt | Critical _ | Clear _ _ => true
  | _ => false
  end.

Definition holders (c : cpu) : nat := length (filter (fun f => holding (at_ f) = true) (frames c)).
Definition total (cs : list cpu) : nat := sum_list (holders <$> cs).

(** What the running thread of control knows of the flag and of the lock. *)
Definition top_ok (l : spinlock_t) (i : bool) (f : frame) : Prop :=
  match at_ f with
  | TestAndSet false _ | Load false _ | SaveInt => i = int_at_call f
  | MaskInt => i = int_at_call f /\ prev_int_state l = int_at_call f
  | Critical false => i = false /\ prev_int_state l = int_at_call f
  | Clear false prev => i = false /\ prev = int_at_call f
  | Restore prev => i = false /\ prev = int_at_call f
  | _ => True
  end.

(** Interrupted threads of control had interrupts enabled. *)
Definition cpu_ok (l : spinlock_t) (c : cpu) : Prop :=
  match frames c with
  | [] => False
  | f :: fs => top_ok l (int_enabled c) f /\ Forall (top_ok l true) fs
  end.

Definition machine_ok (s : machine) : Prop :=
  total (cpus s) = Nat.b2n (lock (the_lock s)) /\ Forall (cpu_ok (the_lock s)) (cpus s).

Lemma total_cons x cs : total (x :: cs) = (holders x + total cs)%nat.
Proof. done. Qed.

Lemma total_insert cs i c c' : cs !! i = Some c -> (total (<[i := c']> cs) + holders c = total cs + holders c')%nat.
Proof.
  revert i. induction cs as [|x cs IH]; intros [|i] E; cbn in E; simplify_eq; simpl (<[_:=_]> _); rewrite !total_cons; [lia|].
  specialize (IH _ E). lia.
Qed.

Lemma total_one cs i c : cs !! i = Some c -> (holders c <= total cs)%nat.
Proof.
  revert i. induction cs as [|x cs IH]; intros [|i] E; cbn in E; simplify_eq; rewrite !total_cons; [lia|].
  specialize (IH _ E). lia.
Qed.

Lemma total_other cs i j c d : cs !! i = Some c -> cs !! j = Some d -> i <> j -> (holders c + holders d <= total cs)%nat.
Proof.
  revert i j. induction cs as [|x cs IH]; intros [|i] [|j] Ei Ej Hij; cbn in Ei, Ej; simplify_eq; rewrite total_cons.
  - pose proof (total_one _ _ _ Ej). lia.
  - pose proof (total_one _ _ _ Ei). lia.
  - specialize (IH i j Ei Ej ltac:(congruence)). lia.
Qed.

Lemma holders_cons i f fs : holders (Cpu i (f :: fs)) = (Nat.b2n (holding (at_ f)) + holders (Cpu i fs))%nat.
Proof. unfold holders. simpl. rewrite filter_cons. case_decide as E; destruct (holding (at_ f)); done. Qed.

Lemma holders_int i j fs : holders (Cpu i fs) = holders (Cpu j fs).
Proof. done. Qed.

(** The invariant of a thread of control that does not hold the lock does not
    depend on the lock. *)
Lemma top_ok_free l l' i f : holding (at_ f) = false -> top_ok l i f -> top_ok l' i f.
Proof. destruct f as [[| | | | | | | |] ?]; simpl; done. Qed.

Lemma frames_ok_free l l' fs i : holders (Cpu i fs) = 0%nat -> Forall (top_ok l true) fs -> Forall (top_ok l' true) fs.
Proof.
  induction fs as [|f fs IH]; intros Hh; [done|]. rewrite holders_cons in Hh. rewrite !Forall_cons. intros [Hf Hfs].
  split; [|apply IH; [lia|done]]. apply (top_ok_free l); [destruct (holding (at_ f)); [simpl in Hh; lia|done]|done].
Qed.

Lemma cpu_ok_free l l' c : holders c = 0%nat -> cpu_ok l c -> cpu_ok l' c.
Proof.
  destruct c as [i [|f fs]]; [done|]. rewrite holders_cons. unfold cpu_ok. simpl. intros Hh [Hf Hfs].
  split; [apply (top_ok_free l); [destruct (holding (at_ f)); [simpl in Hh; lia|done]|done]|].
  apply (frames_ok_free l l' fs i); [lia|done].
Qed.

(** ** Preservation *)

(** A step of one processor keeps the count of holders in step with the lock. *)
Lemma cpu_step_holders c l c' l' : cpu_step c l c' l' ->
  (holders c <= Nat.b2n (lock l))%nat -> (holders c' + Nat.b2n (lock l) = holders c + Nat.b2n (lock l'))%nat.
Proof.
  intros [f fs a i i' m m' E|prim f fs a i m E|f fs m|b i f fs m] Hh; rewrite ?holders_cons in *.
  - rewrite (holders_int i' i). destruct f as [p s], m as [b q]. simpl in *.
    destruct p; simpl in *; try done; repeat case_match; simplify_eq/=; try lia; destruct b; simpl in *; lia.
  - destruct f as [p s]. simpl in *. destruct p; simplify_eq/=; lia.
  - simpl. rewrite (holders_int false true). lia.
  - simpl. rewrite (holders_int true i). lia.
Qed.

(** And it keeps what its threads of control know, as long as the lock has at
    most one holder there. *)
Lemma cpu_step_ok c l c' l' : cpu_step c l c' l' -> (holders c <= Nat.b2n (lock l))%nat -> cpu_ok l c -> cpu_ok l' c'.
Proof.
  intros [f fs a i i' m m' E|prim f fs a i m E|f fs m|b i f fs m] Hh; unfold cpu_ok; simpl.
  - intros [Hf Hfs]. rewrite holders_cons in Hh.
    assert (m' = m \/ holders (Cpu i fs) = 0%nat) as Hm.
    { destruct f as [p s], m as [b q]. simpl in *. destruct p, b; simpl in *; repeat case_match; simplify_eq/=; auto; right; lia. }
    split; [|destruct Hm as [->|Hm]; [done|]; by apply (frames_ok_free m _ fs i)].
    clear Hm Hfs Hh. destruct f as [p s], m as [b q]. unfold top_ok in *. simpl in *.
    destruct p; simpl in *; repeat case_match; simplify_eq/=; intuition congruence.
  - intros [Hf Hfs]. split; [|done]. destruct f as [p s], m as [b q]. unfold top_ok in *. simpl in *. destruct p; simplify_eq/=; repeat case_match; intuition congruence.
  - intros [Hf Hfs]. split; [done|]. by constructor.
  - intros [_ Hfs]. by apply Forall_cons in Hfs.
Qed.

(** Only a holder changes a lock that is taken. *)
Lemma cpu_step_lock c l c' l' : cpu_step c l c' l' -> l' = l \/ lock l = false \/ (0 < holders c)%nat.
Proof.
  intros [f fs a i i' m m' E|prim f fs a i m E|f fs m|b i f fs m]; auto. rewrite holders_cons.
  destruct f as [p s], m as [b q]. simpl in *. destruct p, b; simpl in *; repeat case_match; simplify_eq/=; auto; right; right; lia.
Qed.

Lemma step_ok s s' : step s s' -> machine_ok s -> machine_ok s'.
Proof.
  intros [l cs i c c' l' Hi Hs] [Ht Hok]. simpl in *.
  assert (holders c <= Nat.b2n (lock l))%nat as Hh by (rewrite <- Ht; by eapply total_one).
  pose proof (cpu_step_holders _ _ _ _ Hs Hh) as E. pose proof (total_insert cs i c c' Hi) as Et.
  split; simpl; [lia|]. apply Forall_lookup. intros j d Hj.
  destruct (decide (j = i)) as [->|Hne].
  - rewrite list_lookup_insert_eq in Hj by (by eapply lookup_lt_Some). injection Hj as <-.
    eapply cpu_step_ok; [exact Hs|exact Hh|]. by eapply Forall_lookup_1 in Hok.
  - rewrite list_lookup_insert_ne in Hj by done. pose proof (Forall_lookup_1 _ _ _ _ Hok Hj) as Hd.
    pose proof (total_other cs i j c d Hi Hj ltac:(done)) as Ho.
    destruct (cpu_step_lock _ _ _ _ Hs) as [->|[Hl|Hl]]; [done|..];
      (apply (cpu_ok_free l); [destruct (lock l); simpl in *; (lia || congruence)|done]).
Qed.

Lemma initial_ok s : initial s -> machine_ok s.
Proof.
  destruct s as [l cs]. intros [E Hcs]. simpl in *. subst l. split; simpl.
  - induction Hcs as [|c cs [b Hc] _ IH]; [done|]. rewrite total_cons, IH. unfold holders. by rewrite Hc.
  - eapply Forall_impl; [exact Hcs|]. intros c [b Hc]. unfold cpu_ok. rewrite Hc. by split.
Qed.

Lemma reachable_ok s : reachable s -> machine_ok s.
Proof.
  intros (s0 & H0 & Hs). apply initial_ok in H0. induction Hs as [|s s1 s2 H1 _ IH]; [done|].
  apply IH. by eapply step_ok.
Qed.

(** Thread of control [j] of processor [i]. *)
Definition thread_at (s : machine) (i j : nat) : option frame := c ← cpus s !! i; frames c !! j.

Lemma two_holders c j k f g : frames c !! j = Some f -> frames c !! k = Some g -> j <> k ->
  holding (at_ f) = true -> holding (at_ g) = true -> (2 <= holders c)%nat.
Proof.
  destruct c as [i fs]. simpl. revert j k. induction fs as [|x fs IH]; intros [|j] [|k] Hj Hk Hne Hf Hg; simplify_eq/=; try done; rewrite holders_cons.
  - rewrite Hf. assert (1 <= holders (Cpu i fs))%nat; [|simpl; lia]. apply list_elem_of_lookup_2 in Hk. unfold holders. simpl.
    destruct (filter _ _) eqn:E; [|simpl; lia]. exfalso. assert (g ∈ filter (fun f => holding (at_ f) = true) fs) as Hin by (by apply list_elem_of_filter).
    rewrite E in Hin. by apply elem_of_nil in Hin.
  - rewrite Hg. assert (1 <= holders (Cpu i fs))%nat; [|simpl; lia]. apply list_elem_of_lookup_2 in Hj. unfold holders. simpl.
    destruct (filter _ _) eqn:E; [|simpl; lia]. exfalso. assert (f ∈ filter (fun f => holding (at_ f) = true) fs) as Hin by (by apply list_elem_of_filter).
    rewrite E in Hin. by apply elem_of_nil in Hin.
  - specialize (IH j k Hj Hk ltac:(congruence) Hf Hg). lia.
Qed.

(** C7: in every reachable state at most one thread of control, on all processors
    and including interrupt handlers, is between the test-and-set that took the
    lock and the store that gives it back, and the lock is set exactly then:
    spin locks exclude each other, whichever pair of functions takes them. *)
Theorem spinlock_mutual_exclusion (s : machine) (i i' j j' : nat) (f g : frame) :
  reachable s -> thread_at s i j = Some f -> thread_at s i' j' = Some g ->
  holding (at_ f) = true -> holding (at_ g) = true ->
  lock (the_lock s) = true /\ i = i' /\ j = j'.
Proof.
  intros [Ht _]%reachable_ok (c & Hi & Hf)%bind_Some (d & Hi' & Hg)%bind_Some Ef Eg.
  assert (total (cpus s) <= 1)%nat as H1 by (rewrite Ht; destruct (lock (the_lock s)); simpl; lia).
  assert (forall e k h, frames e !! k = Some h -> holding (at_ h) = true -> (1 <= holders e)%nat) as Hone.
  { intros [b fs] k h Hk Hh. simpl in Hk. revert k Hk. induction fs as [|x fs IH]; intros [|k] Hk; simplify_eq/=; rewrite holders_cons.
    - rewrite Hh. simpl. lia.
    - specialize (IH _ Hk). lia. }
  pose proof (Hone _ _ _ Hf Ef). pose proof (Hone _ _ _ Hg Eg). pose proof (total_one _ _ _ Hi).
  split; [destruct (lock (the_lock s)); [done|simpl in Ht; lia]|].
  assert (i = i') as <-.
  { destruct (decide (i = i')) as [|Hne]; [done|]. pose proof (total_other _ _ _ _ _ Hi Hi' Hne). lia. }
  split; [done|]. rewrite Hi in Hi'. injection Hi' as <-.
  destruct (decide (j = j')) as [|Hne]; [done|]. pose proof (two_holders _ _ _ _ _ Hf Hg Hne Ef Eg). lia.
Qed.

(** Code between [spinlock_acquire] and [spinlock_release] runs with interrupts
    masked, and the release that follows sets the interrupt flag of the
    processor to what it was when the acquire was called: the state saved in the
    lock is that of its holder. *)
Theorem spinlock_restores_interrupts (s : machine) (i : nat) (c : cpu) (f : frame) (fs : list frame) :
  reachable s -> cpus s !! i = Some c -> frames c = f :: fs ->
  (at_ f = Critical false -> int_enabled c = false) /\
  (forall prev a i' l, at_ f = Restore prev -> lock_step (at_ f) (int_enabled c) (the_lock s) = Some (a, i', l) ->
     a = Outside /\ i' = int_at_call f).
Proof.
  intros [_ Hok]%reachable_ok Hi Hf. pose proof (Forall_lookup_1 _ _ _ _ Hok Hi) as Hc. unfold cpu_ok in Hc. rewrite Hf in Hc.
  destruct Hc as [Ht _], f as [p b]. unfold top_ok in Ht. simpl in *. split.
  - intros ->. apply Ht.
  - intros prev a i' l ->. simpl. destruct Ht as [-> ->]. destruct b; intros; simplify_eq; done.
Qed.

(** ** An interrupt between the test-and-set and the mask *)

(** The interrupted code holds the lock, its handler wants it. *)
Definition handler_at (a : at_t) : machine :=
  Machine (Spinlock true false) [Cpu false [Frame a false; Frame SaveInt true]].

Definition waiting (a : at_t) : Prop :=
  match a with TestAndSet _ _ | Load _ _ | Panicked => True | _ => False end.

Lemma handler_step a s : waiting a -> step (handler_at a) s -> exists a', s = handler_at a' /\ waiting a'.
Proof.
  intros Ha Hs. inversion Hs as [l cs [|i] c c' l' Hi Hc]; subst; simplify_eq/=.
  inversion Hc; subst; simplify_eq/=.
  - destruct a as [|p n|p n| | | | | |]; try done; simplify_eq/=; [by exists (Load p n)|].
    destruct (n >=? DEADLOCK_LIMIT); simplify_eq/=; eexists; (split; [reflexivity|done]).
  - by destruct a.
  - done.
Qed.

Lemma one_cpu c l c' l' : cpu_step c l c' l' -> step (Machine l [c]) (Machine l' [c']).
Proof. intros Hc. exact (Step l [c] 0 c c' l' eq_refl Hc). Qed.

Lemma handler_panics n : 0 <= n <= DEADLOCK_LIMIT -> rtc step (handler_at (Load false n)) (handler_at Panicked).
Proof.
  intros [H0 Hn]. unfold DEADLOCK_LIMIT in *. remember (Z.to_nat (3000000 - n)) as k eqn:Ek.
  assert (forall a, lock_step (Load false n) false (Spinlock true false) = Some (a, false, Spinlock true false) ->
    step (handler_at (Load false n)) (handler_at a)) as Hstep.
  { intros a E. unfold handler_at. apply one_cpu. by apply (StepLock (Frame (Load false n) false)). }
  revert n H0 Hn Ek Hstep. induction k as [|k IH]; intros n H0 Hn Ek Hstep.
  - assert (n = 3000000) as -> by lia. eapply rtc_l; [by apply Hstep|]. apply rtc_refl.
  - eapply rtc_l; [apply Hstep; simpl; unfold DEADLOCK_LIMIT; rewrite Z.geb_leb; destruct (Z.leb_spec 3000000 n); [lia|reflexivity]|].
    rewrite u64_small by lia. apply IH; try lia.
    intros a E. unfold handler_at. apply one_cpu. by apply (StepLock (Frame (Load false (n + 1)) false)).
Qed.

(** [spinlock_acquire] masks interrupts only after it has taken the lock: an
    interrupt that comes in between and takes the same lock waits for the code
    it interrupted, until the deadlock counter panics. *)
Lemma interrupt_deadlock : exists s, reachable s /\
  (forall s', rtc step s s' -> exists a, s' = handler_at a /\ waiting a) /\ rtc step s (handler_at Panicked).
Proof.
  exists (handler_at (TestAndSet false 0)). split; [|split].
  - exists (Machine SPINLOCK_INIT [Cpu true [Frame Outside true]]). split; [split; [done|repeat constructor; by exists true]|].
    eapply rtc_l; [apply one_cpu; by eapply (StepCall false)|].
    eapply rtc_l; [apply one_cpu; by eapply StepLock|].
    eapply rtc_l; [apply one_cpu; by eapply StepInterrupt|].
    eapply rtc_l; [apply one_cpu; by eapply (StepCall false)|]. apply rtc_refl.
  - intros s' Hs. remember (handler_at (TestAndSet false 0)) as s eqn:E.
    assert (exists a, s = handler_at a /\ waiting a) as Ha by (by exists (TestAndSet false 0)). clear E.
    induction Hs as [|s s1 s2 H1 _ IH]; [done|]. destruct Ha as (a & -> & Ha). apply IH. by eapply handler_step.
  - eapply rtc_l; [apply one_cpu; by apply (StepLock (Frame (TestAndSet false 0) false))|].
    apply handler_panics. unfold DEADLOCK_LIMIT. lia.
Qed.

(** ** A run of two processors *)

(** The first has the lock, the second waits for it. *)
Definition ex_machine : machine :=
  Machine (Spinlock true true) [Cpu false [Frame (Critical false) true]; Cpu true [Frame (Load false 0) true]].

Definition ex_released : machine :=
  Machine (Spinlock false true) [Cpu false [Frame (Restore true) true]; Cpu true [Frame (Load false 0) true]].

Lemma ex_machine_reachable : reachable ex_machine.
Proof.
  exists (Machine SPINLOCK_INIT [Cpu true [Frame Outside true]; Cpu true [Frame Outside true]]). split.
  { split; [done|]. repeat constructor; by exists true. }
  eapply rtc_l; [eapply (Step _ _ 0); [reflexivity|by eapply (StepCall false)]|].
  eapply rtc_l; [eapply (Step _ _ 1); [reflexivity|by eapply (StepCall false)]|].
  eapply rtc_l; [eapply (Step _ _ 0); [reflexivity|by eapply StepLock]|].
  eapply rtc_l; [eapply (Step _ _ 1); [reflexivity|by eapply StepLock]|].
  eapply rtc_l; [eapply (Step _ _ 0); [reflexivity|by eapply StepLock]|].
  eapply rtc_l; [eapply (Step _ _ 0); [reflexivity|by eapply StepLock]|]. apply rtc_refl.
Qed.

Lemma ex_released_reachable : reachable ex_released.
Proof.
  destruct ex_machine_reachable as (s0 & H0 & Hs). exists s0. split; [done|]. etrans; [exact Hs|].
  eapply rtc_l; [eapply (Step _ _ 0); [reflexivity|by eapply (StepCall false)]|].
  eapply rtc_l; [eapply (Step _ _ 0); [reflexivity|by eapply StepLock]|]. apply rtc_refl.
Qed.

Lemma spinlock_mutual_exclusion_witness :
  thread_at ex_machine 0 0 = Some (Frame (Critical false) true) /\ lock (the_lock ex_machine) = true.
Proof.
  split; [reflexivity|].
  destruct (spinlock_mutual_exclusion ex_machine 0 0 0 0 (Frame (Critical false) true) (Frame (Critical false) true)) as [E _];
    [apply ex_machine_reachable|reflexivity|reflexivity|reflexivity|reflexivity|exact E].
Defined.

Lemma spinlock_restores_interrupts_witness :
  lock_step (Restore true) false (Spinlock false true) = Some (Outside, true, Spinlock false true) /\
  (Outside = Outside /\ true = int_at_call (Frame (Restore true) true)).
Proof.
  split; [reflexivity|].
  destruct (spinlock_restores_interrupts ex_released 0 (Cpu false [Frame (Restore true) true]) (Frame (Restore true) true) []
              ex_released_reachable eq_refl eq_refl) as [_ E].
  exact (E true Outside true (Spinlock false true) eq_refl eq_refl).
Defined.
