(* ===== verification/Mutex.v ===== *)
(** * Mutexes (kernel/src/common/sync/mutex.c)

    Threads that use one mutex, as a step relation with one step per atomic
    access.  The spin lock inside the mutex is a flag (Sync.v shows that it
    excludes); [sched_yield] is a point where other threads run.  The slow path
    of [mutex_release] computes a thread from the address of the head pointer of
    the wait queue, which is no list node: the last section follows it at the
    level of pointers.  In the step relation it is the undefined state
    [Crashed]. *)
From stdpp Require Import base gmap list fin_maps relations.
From Stdlib Require Import ZArith Lia.
From S2P Require Import Prelude Lists.

Inductive mutex_state_t := MUTEX_STATE_UNLOCKED | MUTEX_STATE_LOCKED | MUTEX_STATE_CONTESTED.

#[export] Instance mutex_state_eq_dec : EqDecision mutex_state_t.
Proof. solve_decision. Defined.

Definition SPIN_COUNT : nat := 10.

(** [wait_queue]: the threads whose [list_node_mutex] it links. *)
Record mutex_t := Mutex { m_lock : bool; m_state : mutex_state_t; wait_queue : list nat }.

Definition MUTEX_INIT : mutex_t := Mutex false MUTEX_STATE_UNLOCKED [].

(** Where a thread stands. *)
Inductive mpc :=
| MOutside
| MTry (n : nat)                  (* the attempts of the fast path and of the loop *)
| MTakeLock                       (* spinlock_acquire of the slow path *)
| MExchange
| MAppend
| MDropLock                       (* spinlock_primitive_release *)
| MBlocked                        (* sched_yield(THREAD_STATE_BLOCKED) *)
| MStoreLocked
| MDone                           (* spinlock_release of the slow path *)
| MOwner                          (* mutex_acquire has returned *)
| MRelease                        (* the compare-exchange of mutex_release *)
| MReleaseLock (seen : mutex_state_t)
| MReleaseSlow (seen : mutex_state_t).

(** A step of thread [t]: its next place and the mutex; [None] where it cannot
    go on.  [spurious] is a failure of the weak compare-exchange. *)
Definition mutex_step (t : nat) (spurious : bool) (a : mpc) (m : mutex_t) : option (mpc * mutex_t) :=
  match a with
  | MOutside => Some (MTry 0, m)
  | MTry n =>
      if negb spurious && bool_decide (m_state m = MUTEX_STATE_UNLOCKED) then
        Some (MOwner, Mutex (m_lock m) MUTEX_STATE_LOCKED (wait_queue m))
      else Some (if decide (n < SPIN_COUNT)%nat then MTry (S n) else MTakeLock, m)
  | MTakeLock => if m_lock m then None else Some (MExchange, Mutex true (m_state m) (wait_queue m))
  | MExchange =>
      Some (if decide (m_state m = MUTEX_STATE_UNLOCKED) then MStoreLocked else MAppend, Mutex (m_lock m) MUTEX_STATE_CONTESTED (wait_queue m))
  | MAppend => Some (MDropLock, Mutex (m_lock m) (m_state m) (wait_queue m ++ [t]))
  | MDropLock => Some (MBlocked, Mutex false (m_state m) (wait_queue m))
  | MBlocked => None
  | MStoreLocked => Some (MDone, Mutex (m_lock m) MUTEX_STATE_LOCKED (wait_queue m))
  | MDone => Some (MOwner, Mutex false (m_state m) (wait_queue m))
  | MOwner => Some (MRelease, m)
  | MRelease =>
      if decide (m_state m = MUTEX_STATE_LOCKED) then Some (MOutside, Mutex (m_lock m) MUTEX_STATE_UNLOCKED (wait_queue m))
      else Some (MReleaseLock (m_state m), m)
  | MReleaseLock seen => if m_lock m then None else Some (MReleaseSlow seen, Mutex true (m_state m) (wait_queue m))
  | MReleaseSlow seen => None
  end.

(** The two assertions at the start of the slow release. *)
Definition release_asserts (seen : mutex_state_t) (m : mutex_t) : bool :=
  bool_decide (seen = MUTEX_STATE_CONTESTED) && negb (bool_decide (wait_queue m = [])).

Inductive system := Running (m : mutex_t) (ts : list mpc) | Crashed.

Inductive mstep : system -> system -> Prop :=
| MStep t spurious m ts a a' m' :
    ts !! t = Some a -> mutex_step t spurious a m = Some (a', m') -> mstep (Running m ts) (Running m' (<[t := a']> ts))
| MCrash t m ts seen : ts !! t = Some (MReleaseSlow seen) -> mstep (Running m ts) Crashed.

Definition mutex_reachable (s : system) : Prop := exists n, rtc mstep (Running MUTEX_INIT (replicate n MOutside)) s.

(** ** The invariant *)

(** From the access that took the mutex to the one that gives it back. *)
Definition owns (a : mpc) : bool :=
  match a with
  | MStoreLocked | MDone | MOwner | MRelease | MReleaseLock _ | MReleaseSlow _ => true
  | _ => false
  end.

(** Between taking the spin lock and giving it back. *)
Definition in_lock (a : mpc) : bool :=
  match a with
  | MExchange | MAppend | MDropLock | MStoreLocked | MDone | MReleaseSlow _ => true
  | _ => false
  end.

Definition count (p : mpc -> bool) (ts : list mpc) : nat := length (filter (fun a => p a = true) ts).

(** What a place says of the mutex. *)
Definition place_ok (m : mutex_t) (a : mpc) : Prop :=
  match a with
  | MAppend => m_state m = MUTEX_STATE_CONTESTED
  | MStoreLocked => wait_queue m = []
  | MReleaseLock seen | MReleaseSlow seen => seen = MUTEX_STATE_CONTESTED /\ m_state m = MUTEX_STATE_CONTESTED
  | _ => True
  end.

Record mutex_ok (m : mutex_t) (ts : list mpc) : Prop := {
  mo_owner : count owns ts = Nat.b2n (negb (bool_decide (m_state m = MUTEX_STATE_UNLOCKED)));
  mo_lock : count in_lock ts = Nat.b2n (m_lock m);
  mo_queue : wait_queue m <> [] -> m_state m = MUTEX_STATE_CONTESTED;
  mo_waits : m_state m = MUTEX_STATE_CONTESTED -> wait_queue m <> [] \/ exists t a, ts !! t = Some a /\ (a = MStoreLocked \/ a = MAppend);
  mo_places : forall t a, ts !! t = Some a -> place_ok m a
}.

Lemma count_cons p a ts : count p (a :: ts) = (Nat.b2n (p a) + count p ts)%nat.
Proof. unfold count. rewrite filter_cons. case_decide as E; destruct (p a); done. Qed.

Lemma count_insert p ts t a a' : ts !! t = Some a -> (count p (<[t := a']> ts) + Nat.b2n (p a) = count p ts + Nat.b2n (p a'))%nat.
Proof.
  revert t. induction ts as [|x ts IH]; intros [|t] E; cbn in E; simplify_eq; simpl (<[_:=_]> _); rewrite !count_cons; [lia|].
  specialize (IH _ E). lia.
Qed.

Lemma count_one p ts t a : ts !! t = Some a -> p a = true -> (1 <= count p ts)%nat.
Proof.
  revert t. induction ts as [|x ts IH]; intros [|t] E Hp; cbn in E; simplify_eq; rewrite count_cons; [rewrite Hp; simpl; lia|].
  specialize (IH _ E Hp). lia.
Qed.

Lemma count_two p ts t u a b : ts !! t = Some a -> ts !! u = Some b -> t <> u -> p a = true -> p b = true -> (2 <= count p ts)%nat.
Proof.
  revert t u. induction ts as [|x ts IH]; intros [|t] [|u] Et Eu Hne Ha Hb; cbn in Et, Eu; simplify_eq; rewrite count_cons.
  - rewrite Ha. pose proof (count_one p ts u b Eu Hb). simpl. lia.
  - rewrite Hb. pose proof (count_one p ts t a Et Ha). simpl. lia.
  - specialize (IH t u Et Eu ltac:(congruence) Ha Hb). lia.
Qed.

(** Other threads keep what they know. *)
Lemma other_places m ts t spurious a a' m' u b : mutex_ok m ts -> ts !! t = Some a -> mutex_step t spurious a m = Some (a', m') ->
  ts !! u = Some b -> t <> u -> place_ok m' b.
Proof.
  intros Hok Ht Hs Hu Hne. pose proof (mo_places _ _ Hok u b Hu) as Hb. pose proof (mo_places _ _ Hok t a Ht) as Ha.
  assert (owns a = true -> owns b = true -> False) as Ho.
  { intros E1 E2. pose proof (count_two owns ts t u a b Ht Hu Hne E1 E2). pose proof (mo_owner _ _ Hok). destruct (negb _); simpl in *; lia. }
  assert (in_lock a = true -> in_lock b = true -> False) as Hl.
  { intros E1 E2. pose proof (count_two in_lock ts t u a b Ht Hu Hne E1 E2). pose proof (mo_lock _ _ Hok). destruct (m_lock m); simpl in *; lia. }
  clear Hok Ht Hu. destruct m as [lk ms q].
  destruct b; cbn in Hb |- *; try exact I; destruct a, ms, spurious; cbn in Hs, Ha, Ho, Hl; repeat case_match; simplify_eq/=; first [done | exfalso; by auto | by destruct Hb | idtac].
Qed.

Lemma mutex_step_ok m ts t spurious a a' m' : mutex_ok m ts -> ts !! t = Some a -> mutex_step t spurious a m = Some (a', m') ->
  mutex_ok m' (<[t := a']> ts).
Proof.
  intros Hok Ht Hs. pose proof (lookup_lt_Some _ _ _ Ht) as Hlt. pose proof (mo_places _ _ Hok t a Ht) as Ha.
  pose proof (count_insert owns ts t a a' Ht) as Eo. pose proof (count_insert in_lock ts t a a' Ht) as El.
  pose proof (mo_owner _ _ Hok) as Ho. pose proof (mo_lock _ _ Hok) as Hk. pose proof (count_one owns ts t a Ht) as Ho1.
  pose proof (mo_queue _ _ Hok) as Hq. pose proof (count_one in_lock ts t a Ht) as Hk1.
  split.
  - clear Hok Ht El Hk Hlt Hk1 Hq. destruct m as [lk ms q]. destruct a, ms, spurious; cbn in *; repeat case_match; simplify_eq/=; first [lia | specialize (Ho1 eq_refl); lia | by destruct Ha].
  - clear Hok Ht Eo Ho Hlt Ho1 Hq. destruct m as [lk ms q]. destruct a, lk; cbn in *; repeat case_match; simplify_eq/=; first [lia | specialize (Hk1 eq_refl); lia].
  - clear Hok Ht Eo El Hlt. destruct m as [lk ms q]. destruct a, ms, spurious; cbn in *; repeat case_match; simplify_eq/=; first [exact Hq | done | by intros; specialize (Hq ltac:(done)) | idtac].
  - intros Hc. pose proof (mo_waits _ _ Hok) as Hw.
    assert (a <> MStoreLocked -> a <> MAppend -> m_state m = MUTEX_STATE_CONTESTED -> wait_queue m' = wait_queue m ->
      wait_queue m' <> [] \/ exists u b, <[t := a']> ts !! u = Some b /\ (b = MStoreLocked \/ b = MAppend)) as Hkeep.
    { intros H1 H2 H3 H4. rewrite H4. destruct (Hw H3) as [?|(u & b & Hu & Hb)]; [by left|right]. exists u, b. split; [|done].
      rewrite list_lookup_insert_ne; [done|]. intros ->. simplify_eq. by destruct Hb. }
    destruct a; cbn in Hs; repeat case_match; simplify_eq/=; try (apply Hkeep; done); try done.
    + right. exists t, MStoreLocked. rewrite list_lookup_insert_eq by done. auto.
    + right. exists t, MAppend. rewrite list_lookup_insert_eq by done. auto.
    + left. by destruct (wait_queue m).
  - intros u b Hu. destruct (decide (u = t)) as [->|Hne].
    + rewrite list_lookup_insert_eq in Hu by done. injection Hu as <-. clear Hok Ht Eo El Hk Hlt Hk1. destruct m as [lk ms q].
      destruct a, ms; cbn in *; repeat case_match; simplify_eq/=; try done; [|specialize (Ho1 eq_refl); lia].
      destruct q; [done|]. by specialize (Hq ltac:(done)).
    + rewrite list_lookup_insert_ne in Hu by done. exact (other_places m ts t spurious a a' m' u b Hok Ht Hs Hu ltac:(congruence)).
Qed.

Lemma count_outside p n : p MOutside = false -> count p (replicate n MOutside) = 0%nat.
Proof. intros Hp. induction n as [|n IH]; [done|]. cbn [replicate]. by rewrite count_cons, Hp, IH. Qed.

Lemma mutex_reachable_ok m ts : mutex_reachable (Running m ts) -> mutex_ok m ts.
Proof.
  intros (n & Hs). remember (Running MUTEX_INIT (replicate n MOutside)) as s0 eqn:E0. remember (Running m ts) as s1 eqn:E1.
  assert (forall m ts, s0 = Running m ts -> mutex_ok m ts) as H0.
  { intros m0 ts0 E. rewrite E0 in E. injection E as <- <-. split; [by rewrite count_outside|by rewrite count_outside|done|done|].
    intros t a [-> _]%lookup_replicate. done. }
  clear E0. revert m ts E1. induction Hs as [s|s s' s'' Hs _ IH]; intros m ts ->; [by apply H0|]. apply IH; [|done].
  intros m' ts' ->. inversion Hs; subst. eapply mutex_step_ok; [by apply H0|done|done].
Qed.


(** Thread 0 owns the mutex, thread 1 waits for it. *)
Definition ex_mutex : mutex_t := Mutex false MUTEX_STATE_CONTESTED [1%nat].

Lemma ex_tries n m ts : ts !! 1%nat = Some (MTry 0) -> m_state m <> MUTEX_STATE_UNLOCKED -> (n <= 10)%nat ->
  rtc mstep (Running m ts) (Running m (<[1%nat := MTry n]> ts)).
Proof.
  intros Ht Hst. induction n as [|n IH]; intros Hn.
  - rewrite list_insert_id by done. apply rtc_refl.
  - eapply rtc_r; [apply IH; lia|]. pose proof (lookup_lt_Some _ _ _ Ht).
    rewrite <- (list_insert_insert_eq ts 1%nat (MTry (S n)) (MTry n)).
    apply (MStep 1%nat false m _ (MTry n) (MTry (S n)) m); [by apply list_lookup_insert_eq|]. cbn. rewrite bool_decide_false by done. cbn.
    destruct (decide (n < SPIN_COUNT)%nat) as [|Hge]; [done|]. unfold SPIN_COUNT in Hge. lia.
Qed.

Lemma ex_mutex_reachable : mutex_reachable (Running ex_mutex [MOwner; MBlocked]).
Proof.
  exists 2%nat. cbn [replicate].
  eapply rtc_l; [apply (MStep 0 false _ _ MOutside (MTry 0) MUTEX_INIT); reflexivity|].
  eapply rtc_l; [apply (MStep 0 false _ _ (MTry 0) MOwner (Mutex false MUTEX_STATE_LOCKED [])); reflexivity|].
  eapply rtc_l; [apply (MStep 1 false _ _ MOutside (MTry 0) (Mutex false MUTEX_STATE_LOCKED [])); reflexivity|]. cbn [insert list_insert].
  etrans; [apply (ex_tries 10); [reflexivity|done|lia]|].
  eapply rtc_l; [apply (MStep 1 false _ _ (MTry 10) MTakeLock (Mutex false MUTEX_STATE_LOCKED [])); reflexivity|].
  eapply rtc_l; [apply (MStep 1 false _ _ MTakeLock MExchange (Mutex true MUTEX_STATE_LOCKED [])); reflexivity|].
  eapply rtc_l; [apply (MStep 1 false _ _ MExchange MAppend (Mutex true MUTEX_STATE_CONTESTED [])); reflexivity|].
  eapply rtc_l; [apply (MStep 1 false _ _ MAppend MDropLock (Mutex true MUTEX_STATE_CONTESTED [1%nat])); reflexivity|].
  eapply rtc_l; [apply (MStep 1 false _ _ MDropLock MBlocked ex_mutex); reflexivity|]. apply rtc_refl.
Qed.


(** ** The slow release, on pointers *)

(** [wait_queue.head] and [wait_queue.tail] lie next to each other: taken as a
    list node, the address of [head] has them for its [prev] and [next]. *)
Definition release_remove (head_addr : Z) (l : list_t) (h : nodes) : outcome (list_t * nodes) :=
  list_remove l (<[head_addr := LNode (head l) (tail l)]> h) head_addr.

(** With one waiting thread, whose node is [w], the node is linked to itself and
    stays the head of a queue of length 0: nobody is woken, and [list_is_empty]
    panics on the queue. *)
Lemma release_corrupts head_addr w n h : head_addr <> NULL -> w <> NULL -> head_addr <> w -> h !! w = Some n ->
  exists l' h', release_remove head_addr (MkList 1 w w) h = Ok (l', h') /\ h' !! w = Some (LNode w w) /\ list_is_empty l' = Panic.
Proof.
  intros Ha Hw Hne Hn. unfold release_remove, list_remove. rewrite (proj2 (Z.eqb_neq head_addr NULL) Ha). go. cbn [head tail].
  rewrite lookup_insert_eq. go. cbn [prev next]. rewrite (proj2 (Z.eqb_neq w NULL) Hw). cbn [negb].
  unfold set_next at 1. rewrite lookup_insert_ne, Hn by done. go. rewrite lookup_insert_ne, lookup_insert_eq by done. go. cbn [prev next].
  rewrite (proj2 (Z.eqb_neq w NULL) Hw). cbn [negb]. unfold set_prev. rewrite lookup_insert_eq. go. rewrite !lookup_insert_ne, lookup_insert_eq by done. go.
  eexists _, _. split; [reflexivity|]. split; [apply lookup_insert_eq|]. cbn [head tail prev next length_].
  rewrite (proj2 (Z.eqb_neq w head_addr)) by congruence. unfold list_is_empty. cbn [head length_]. rewrite (proj2 (Z.eqb_neq w NULL) Hw). reflexivity.
Qed.
