(* ===== verification/Sched.v ===== *)
(** * Threads and scheduling (kernel/src/sys/sched.c, thread.h, reaper.c, smp.h)

    The run queue and the queue of the reaper link threads through the same
    node, [list_node_sched]; both are kept as sequences of threads, and linking
    a node that is linked already is undefined.  Every processor has a register
    with its current thread.  [sched_yield] ends in a context switch whose second
    half, [sched_drop] of the thread that was left, runs on the stack of the next
    thread: a processor in between has a thread to drop.  Other processors run
    meanwhile, so the theorems are about interleavings of these halves. *)
From stdpp Require Import base gmap list fin_maps relations.
From Stdlib Require Import ZArith Lia.
From S2P Require Import Prelude.

Inductive thread_status_t :=
| THREAD_STATE_AWAITING_CLEANUP | THREAD_STATE_BLOCKED | THREAD_STATE_READY | THREAD_STATE_RUNNING.

#[export] Instance thread_status_eq_dec : EqDecision thread_status_t.
Proof. solve_decision. Defined.

(** [thread_space] is [parent_proc->addr_space]. *)
Record thread_t := Thread {
  status : thread_status_t; parent_proc : Z; thread_space : Z; assigned_core : Z; t_ref_count : Z
}.

Record smp_cpu_core_t := Core { idle_thread : Z }.

(** What the machine keeps per processor: the thread register, the interrupt
    flag, the loaded address space, the time of the armed timer, and the thread a
    context switch is about to drop. *)
Record cpu_t := Cpu { thread_reg : Z; int_on : bool; loaded : Z; timer : option Z; dropping : option Z }.

Record sched := Sched {
  g_thread_list : list Z; threads_queue : list Z; threads : gmap Z thread_t; cores : gmap Z smp_cpu_core_t; cpus : list cpu_t
}.

Definition set_run q s := Sched q (threads_queue s) (threads s) (cores s) (cpus s).
Definition set_reap q s := Sched (g_thread_list s) q (threads s) (cores s) (cpus s).
Definition set_threads ts s := Sched (g_thread_list s) (threads_queue s) ts (cores s) (cpus s).
Definition set_cpus cs s := Sched (g_thread_list s) (threads_queue s) (threads s) (cores s) cs.

Definition set_status x t := Thread x (parent_proc t) (thread_space t) (assigned_core t) (t_ref_count t).
Definition set_core c t := Thread (status t) (parent_proc t) (thread_space t) c (t_ref_count t).
Definition set_ref_count n t := Thread (status t) (parent_proc t) (thread_space t) (assigned_core t) n.

(** An assignment to fields of the thread at [t], or of processor [c]. *)
Definition with_thread (t : Z) (f : thread_t -> thread_t) s : outcome sched :=
  x ← deref (threads s !! t); Ok (set_threads (<[t := f x]> (threads s)) s).

Definition with_cpu (c : nat) (f : cpu_t -> cpu_t) s : outcome sched :=
  x ← deref (cpus s !! c); Ok (set_cpus (<[c := f x]> (cpus s)) s).

Definition arch_cpu_int_mask (x : cpu_t) := Cpu (thread_reg x) false (loaded x) (timer x) (dropping x).
Definition arch_cpu_int_unmask (x : cpu_t) := Cpu (thread_reg x) true (loaded x) (timer x) (dropping x).
Definition arch_timer_stop (x : cpu_t) := Cpu (thread_reg x) (int_on x) (loaded x) None (dropping x).
Definition arch_timer_oneshoot (us : Z) (x : cpu_t) := Cpu (thread_reg x) (int_on x) (loaded x) (Some us) (dropping x).
Definition vmm_load_addr_space (a : Z) (x : cpu_t) := Cpu (thread_reg x) (int_on x) a (timer x) (dropping x).
Definition arch_cpu_write_thread_reg (t : Z) (x : cpu_t) := Cpu t (int_on x) (loaded x) (timer x) (dropping x).
Definition set_dropping (d : option Z) (x : cpu_t) := Cpu (thread_reg x) (int_on x) (loaded x) (timer x) d.

Definition thread_ref (t : Z) s : outcome sched := with_thread t (fun x => set_ref_count (u64 (t_ref_count x + 1)) x) s.
Definition thread_unref (t : Z) s : outcome sched := with_thread t (fun x => set_ref_count (u64 (t_ref_count x - 1)) x) s.

Definition sched_get_curr_thread (c : nat) s : outcome Z := x ← deref (cpus s !! c); Ok (thread_reg x).

(** [sched_get_curr_thread()->assigned_core->idle_thread] *)
Definition curr_idle (c : nat) s : outcome Z :=
  curr ← sched_get_curr_thread c s;
  t ← deref (threads s !! curr);
  core ← deref (cores s !! assigned_core t);
  Ok (idle_thread core).

Definition sched_next (c : nat) s : outcome (Z * sched) :=
  match g_thread_list s with
  | t :: q => s ← thread_ref t (set_run q s); Ok (t, s)
  | [] => t ← curr_idle c s; Ok (t, s)
  end.

Definition linked (t : Z) s : Prop := t ∈ g_thread_list s ++ threads_queue s.

#[export] Instance linked_dec t s : Decision (linked t s).
Proof. unfold linked. apply _. Defined.

Definition sched_enqueue (t : Z) s : outcome sched :=
  if decide (linked t s) then Fault else thread_ref t (set_run (g_thread_list s ++ [t]) s).

Definition reaper_enqueue_thread (t : Z) s : outcome sched :=
  if decide (linked t s) then Fault
  else deref (threads s !! t);; Ok (set_reap (threads_queue s ++ [t]) s).

(** The assertions on the other states are of [true]. *)
Definition sched_drop (c : nat) (t : Z) s : outcome sched :=
  idle ← curr_idle c s;
  if t =? idle then Ok s
  else
    x ← deref (threads s !! t);
    match status x with
    | THREAD_STATE_AWAITING_CLEANUP => reaper_enqueue_thread t s
    | THREAD_STATE_BLOCKED => Ok s
    | THREAD_STATE_READY => sched_enqueue t s
    | THREAD_STATE_RUNNING => Ok s
    end.

Definition SLICE_US : Z := 5 * 1000.

(** [sched_yield] up to the context switch; the result tells whether it
    switches. *)
Definition sched_yield (c : nat) (st : thread_status_t) s : outcome (bool * sched) :=
  s ← with_cpu c (fun x => arch_timer_stop (arch_cpu_int_mask x)) s;
  curr ← sched_get_curr_thread c s;
  '(next, s) ← sched_next c s;
  s ← with_thread next (set_status THREAD_STATE_RUNNING) s;
  s ← with_cpu c (arch_timer_oneshoot SLICE_US) s;
  if curr =? next then Ok (false, s)
  else
    x ← deref (threads s !! curr);
    s ← with_thread next (set_core (assigned_core x)) s;
    s ← with_thread curr (fun x => set_status st (set_core NULL x)) s;
    n ← deref (threads s !! next);
    s ← with_cpu c (fun x => set_dropping (Some curr) (arch_cpu_write_thread_reg next (vmm_load_addr_space (thread_space n) x))) s;
    Ok (true, s).

(** The rest of the context switch, on the stack of the next thread. *)
Definition finish_switch (c : nat) s : outcome sched :=
  x ← deref (cpus s !! c);
  match dropping x with
  | None => Fault
  | Some t =>
      s ← sched_drop c t s;
      with_cpu c (fun x => arch_cpu_int_unmask (set_dropping None x)) s
  end.

Definition sched_preempt (c : nat) s := sched_yield c THREAD_STATE_READY s.

(** ** Where threads are *)

(** A thread is current on a processor, about to be dropped by one, in the run
    queue or in the queue of the reaper; other threads are blocked or new. *)
Definition held (x : cpu_t) : list Z := thread_reg x :: option_list (dropping x).
Definition places (s : sched) : list Z := g_thread_list s ++ threads_queue s ++ (cpus s ≫= held).

(** The idle thread of processor [c], whose core structure is at [cs !! c]. *)
Definition idle_of (cs : list Z) (s : sched) (c : nat) : option Z :=
  a ← cs !! c; core ← cores s !! a; Some (idle_thread core).

Record sched_ok (cs : list Z) (s : sched) : Prop := {
  sc_nodup : NoDup (places s);
  sc_threads : forall t, t ∈ places s -> is_Some (threads s !! t);
  sc_core : forall c x, cpus s !! c = Some x -> exists t i, threads s !! thread_reg x = Some t /\ cs !! c = Some (assigned_core t) /\
    idle_of cs s c = Some i /\ is_Some (threads s !! i);
  sc_idle : forall c i, idle_of cs s c = Some i -> i ∉ g_thread_list s /\ i ∉ threads_queue s /\
    forall c' x, cpus s !! c' = Some x -> i ∈ held x -> c' = c;
  sc_idle_inj : forall c d i, idle_of cs s c = Some i -> idle_of cs s d = Some i -> c = d
}.

Lemma cpus_split (l : list cpu_t) c x : l !! c = Some x -> l ≫= held ≡ₚ held x ++ (delete c l ≫= held).
Proof. intros E. rewrite (delete_Permutation l c x E) at 1. by rewrite bind_cons. Qed.

Lemma delete_insert_same {A} (l : list A) i y : delete i (<[i := y]> l) = delete i l.
Proof. revert i. induction l as [|x l IH]; intros [|i]; simpl; [done..|]. by rewrite IH. Qed.

Lemma cpus_update (l : list cpu_t) c x y : l !! c = Some x -> <[c := y]> l ≫= held ≡ₚ held y ++ (delete c l ≫= held).
Proof.
  intros E. pose proof (lookup_lt_Some _ _ _ E) as Hl. rewrite (cpus_split _ c y) by (by apply list_lookup_insert_eq).
  by rewrite delete_insert_same.
Qed.

Lemma with_thread_ok t f s x : threads s !! t = Some x -> with_thread t f s = Ok (set_threads (<[t := f x]> (threads s)) s).
Proof. intros E. unfold with_thread. by rewrite E. Qed.

Lemma with_cpu_ok c f s x : cpus s !! c = Some x -> with_cpu c f s = Ok (set_cpus (<[c := f x]> (cpus s)) s).
Proof. intros E. unfold with_cpu. by rewrite E. Qed.

Lemma cpu_in_places s c x : cpus s !! c = Some x -> thread_reg x ∈ places s.
Proof.
  intros E. unfold places. apply elem_of_app. right. apply elem_of_app. right. rewrite (cpus_split _ c x E). simpl. left.
Qed.

(** The thread [sched_next] picks. *)
Definition pick (s : sched) (idle : Z) : Z := match g_thread_list s with t :: _ => t | [] => idle end.

Lemma sched_next_ok cs s c x : sched_ok cs s -> cpus s !! c = Some x ->
  exists i ts, idle_of cs s c = Some i /\ sched_next c s = Ok (pick s i, set_run (tail (g_thread_list s)) (set_threads ts s)) /\
    (forall t, status <$> ts !! t = status <$> threads s !! t) /\ (forall t, assigned_core <$> ts !! t = assigned_core <$> threads s !! t) /\
    is_Some (threads s !! pick s i).
Proof.
  intros Hok Hx. destruct (sc_core _ _ Hok c x Hx) as (t & i & Ht & Hc & Hi & Hii). unfold sched_next, pick.
  exists i. destruct (g_thread_list s) as [|r q] eqn:Eq.
  - exists (threads s). split; [done|]. split; [|by repeat split].
    unfold curr_idle, sched_get_curr_thread. run Hx. run Ht. unfold idle_of in Hi. apply bind_Some in Hi as (a & Ha & Hi). apply bind_Some in Hi as (co & Hco & Hi).
    rewrite Hc in Ha. injection Ha as <-. run Hco. injection Hi as ->. destruct s. simpl in *. by subst.
  - destruct (sc_threads _ _ Hok r) as [y Hy]; [unfold places; rewrite Eq; left|]. unfold thread_ref. rewrite (with_thread_ok r _ (set_run q s) y Hy). go.
    exists (<[r := set_ref_count (u64 (t_ref_count y + 1)) y]> (threads s)). split; [done|]. split; [reflexivity|]. split; [|split; [|done]].
    + intros k. destruct (decide (k = r)) as [->|]; [by rewrite lookup_insert_eq, Hy|by rewrite lookup_insert_ne].
    + intros k. destruct (decide (k = r)) as [->|]; [by rewrite lookup_insert_eq, Hy|by rewrite lookup_insert_ne].
Qed.

Lemma list_insert_cases {A} (l : list A) i j x y : <[i := x]> l !! j = Some y -> (i = j /\ y = x) \/ (i <> j /\ l !! j = Some y).
Proof.
  destruct (decide (i = j)) as [->|]; [|rewrite list_lookup_insert_ne by done; auto]. intros E.
  destruct (decide (j < length l)%nat).
  - rewrite list_lookup_insert_eq in E by done. left. by simplify_eq.
  - rewrite list_insert_ge in E by lia. apply lookup_lt_Some in E. lia.
Qed.

(** Nothing depends on the flag and the timer of a processor. *)
Lemma sched_ok_cpu cs s c x x' : sched_ok cs s -> cpus s !! c = Some x -> held x' = held x -> sched_ok cs (set_cpus (<[c := x']> (cpus s)) s).
Proof.
  intros [Hn Ht Hc Hi Hj] Hx Hh. assert (places (set_cpus (<[c := x']> (cpus s)) s) ≡ₚ places s) as Hp.
  { unfold places. cbn [g_thread_list threads_queue cpus set_cpus]. by rewrite (cpus_update _ c x x' Hx), (cpus_split _ c x Hx), Hh. }
  assert (thread_reg x' = thread_reg x) as Hr by (unfold held in Hh; congruence).
  split.
  - by rewrite Hp.
  - intros t. rewrite Hp. apply Ht.
  - intros d y Hy. cbn in Hy. apply list_insert_cases in Hy as [[<- ->]|[_ Hy]]; [rewrite Hr; by apply Hc|by apply Hc].
  - intros d i Hd. destruct (Hi d i Hd) as (H1 & H2 & H3). split; [done|]. split; [done|]. intros e y Hy Hin. cbn in Hy.
    apply list_insert_cases in Hy as [[<- ->]|[_ Hy]]; [rewrite Hh in Hin|]; eauto.
  - exact Hj.
Qed.

(** What [sched_yield] does on a processor that is not in a switch. *)
Lemma sched_yield_ok cs s c x st : sched_ok cs s -> cpus s !! c = Some x -> dropping x = None ->
  exists i b s' x', idle_of cs s c = Some i /\ sched_yield c st s = Ok (b, s') /\
    g_thread_list s' = tail (g_thread_list s) /\ threads_queue s' = threads_queue s /\ cores s' = cores s /\
    cpus s' = <[c := x']> (cpus s) /\ thread_reg x' = pick s i /\ int_on x' = false /\ timer x' = Some SLICE_US /\
    b = negb (thread_reg x =? pick s i) /\ dropping x' = (if thread_reg x =? pick s i then None else Some (thread_reg x)) /\
    (forall t, is_Some (threads s !! t) -> is_Some (threads s' !! t)) /\
    (forall t, t <> thread_reg x -> t <> pick s i -> assigned_core <$> threads s' !! t = assigned_core <$> threads s !! t) /\
    (exists y z, threads s' !! pick s i = Some y /\ threads s !! thread_reg x = Some z /\ status y = THREAD_STATE_RUNNING /\ assigned_core y = assigned_core z) /\
    (b = true -> status <$> threads s' !! thread_reg x = Some st).
Proof.
  intros Hok Hx Hd. unfold sched_yield. rewrite (with_cpu_ok c _ s x Hx). go.
  set (s1 := set_cpus (<[c := arch_timer_stop (arch_cpu_int_mask x)]> (cpus s)) s).
  pose proof (lookup_lt_Some _ _ _ Hx) as Hl.
  assert (cpus s1 !! c = Some (arch_timer_stop (arch_cpu_int_mask x))) as Hx1 by (by apply list_lookup_insert_eq).
  unfold sched_get_curr_thread at 1. run Hx1. change (thread_reg (arch_timer_stop (arch_cpu_int_mask x))) with (thread_reg x).
  assert (sched_ok cs s1) as Hok1 by (by apply (sched_ok_cpu cs s c x)).
  destruct (sched_next_ok cs s1 c _ Hok1 Hx1) as (i & ts & Hi & En & Hst & Has & Hp). run En.
  change (pick s1 i) with (pick s i) in *. change (threads s1) with (threads s) in *. change (g_thread_list s1) with (g_thread_list s).
  destruct (sc_core _ _ Hok c x Hx) as (z & i' & Hz & _).
  assert (forall t, is_Some (threads s !! t) -> is_Some (ts !! t)) as Hdom.
  { intros t [y Hy]. specialize (Hst t). rewrite Hy in Hst. destruct (ts !! t); [eauto|done]. }
  destruct (Hdom _ Hp) as [y Hy]. destruct (Hdom (thread_reg x)) as [u Hu]; [eauto|].
  assert (assigned_core u = assigned_core z) as Hcore. { specialize (Has (thread_reg x)). rewrite Hu, Hz in Has. by injection Has. }
  rewrite (with_thread_ok (pick s i) _ _ y) by exact Hy. go. erewrite with_cpu_ok by exact Hx1. go.
  destruct (Z.eqb_spec (thread_reg x) (pick s i)) as [Heq|Hne].
  - eexists i, false, _, _. split; [exact Hi|]. split; [reflexivity|]. cbn [g_thread_list threads_queue cores cpus threads set_run set_threads set_cpus].
    split; [done|]. split; [done|]. split; [done|]. split; [unfold s1; cbn [cpus set_cpus]; apply list_insert_insert_eq|]. split; [done|]. split; [done|].
    rewrite (proj2 (Z.eqb_eq _ _) Heq). split; [done|]. split; [done|]. split; [exact Hd|].
    split; [|split; [|split; [|done]]].
    + intros t Ht. destruct (decide (t = pick s i)) as [->|]; [rewrite lookup_insert_eq; eauto|rewrite lookup_insert_ne by done; auto].
    + intros t _ Ht. rewrite lookup_insert_ne by done. apply Has.
    + exists (set_status THREAD_STATE_RUNNING y), z. rewrite lookup_insert_eq. split; [done|]. split; [done|]. split; [done|].
      rewrite Heq in Hu. rewrite Hu in Hy. by injection Hy as <-.
  - cbn [threads set_run set_threads set_cpus]. rewrite lookup_insert_ne by done. run Hu.
    erewrite (with_thread_ok (pick s i)) by (cbn [threads set_run set_threads set_cpus]; apply lookup_insert_eq). go.
    erewrite (with_thread_ok (thread_reg x)) by (cbn [threads set_run set_threads set_cpus]; rewrite !lookup_insert_ne by done; exact Hu). go.
    cbn [threads set_run set_threads set_cpus]. rewrite lookup_insert_ne, lookup_insert_eq by done. go.
    erewrite with_cpu_ok by (cbn [cpus set_run set_threads set_cpus]; apply list_lookup_insert_eq; unfold s1; cbn [cpus set_cpus]; by rewrite length_insert). go.
    eexists i, true, _, _. split; [exact Hi|]. split; [reflexivity|]. cbn [g_thread_list threads_queue cores cpus threads set_run set_threads set_cpus].
    split; [done|]. split; [done|]. split; [done|]. split; [unfold s1; cbn [cpus set_cpus]; by rewrite !list_insert_insert_eq|]. split; [done|]. split; [done|].
    rewrite (proj2 (Z.eqb_neq _ _) Hne). split; [done|]. split; [done|]. split; [done|]. split; [|split; [|split]].
    + intros t Ht. apply Hdom in Ht. destruct (decide (t = thread_reg x)) as [->|]; [rewrite lookup_insert_eq; eauto|].
      rewrite lookup_insert_ne by done. destruct (decide (t = pick s i)) as [->|]; [rewrite lookup_insert_eq; eauto|by rewrite !lookup_insert_ne].
    + intros t Ht1 Ht2. rewrite !lookup_insert_ne by done. apply Has.
    + eexists _, z. rewrite lookup_insert_ne, lookup_insert_eq by done. by repeat split.
    + intros _. by rewrite lookup_insert_eq.
Qed.

(** ** Preservation *)

Lemma held_disjoint cs s c d x y t : sched_ok cs s -> cpus s !! c = Some x -> cpus s !! d = Some y -> t ∈ held x -> t ∈ held y -> c = d.
Proof.
  intros Hok Hx Hy Htx Hty. destruct (decide (c = d)) as [|Hne]; [done|exfalso].
  pose proof (sc_nodup _ _ Hok) as Hn. unfold places in Hn. rewrite (cpus_split _ c x Hx) in Hn.
  apply NoDup_app in Hn as (_ & _ & Hn). apply NoDup_app in Hn as (_ & _ & Hn). apply NoDup_app in Hn as (_ & Hn & _).
  apply (Hn t Htx). apply list_elem_of_bind. exists y. split; [done|]. apply list_elem_of_lookup.
  destruct (decide (d < c)%nat) as [Hlt|Hge].
  - exists d. by rewrite list_lookup_delete_lt.
  - exists (d - 1)%nat. rewrite list_lookup_delete_ge by lia. by replace (Datatypes.S (d - 1)) with d by lia.
Qed.

Lemma queued_not_held cs s c x t : sched_ok cs s -> cpus s !! c = Some x -> t ∈ held x -> t ∉ g_thread_list s /\ t ∉ threads_queue s.
Proof.
  intros Hok Hx Ht. pose proof (sc_nodup _ _ Hok) as Hn. unfold places in Hn.
  assert (t ∈ cpus s ≫= held) as Hin by (rewrite (cpus_split _ c x Hx); apply elem_of_app; by left).
  apply NoDup_app in Hn as (_ & H1 & Hn). apply NoDup_app in Hn as (_ & H2 & _).
  split; intros Hq; [by eapply (H1 t Hq), elem_of_app; right|by eapply (H2 t Hq)].
Qed.

(** The idle thread of a processor that runs another thread is nowhere. *)
Lemma idle_nowhere cs s c x i : sched_ok cs s -> cpus s !! c = Some x -> idle_of cs s c = Some i -> i ∉ held x -> i ∉ places s.
Proof.
  intros Hok Hx Hi Hne Hin. destruct (sc_idle _ _ Hok c i Hi) as (H1 & H2 & H3). unfold places in Hin.
  apply elem_of_app in Hin as [?|Hin]; [done|]. apply elem_of_app in Hin as [?|Hin]; [done|].
  apply list_elem_of_bind in Hin as (y & Hy & [d Hd]%list_elem_of_lookup). pose proof (H3 d y Hd Hy) as ->. congruence.
Qed.

Lemma sched_yield_preserves cs s c x st b s' : sched_ok cs s -> cpus s !! c = Some x -> dropping x = None ->
  sched_yield c st s = Ok (b, s') -> sched_ok cs s'.
Proof.
  intros Hok Hx Hd E.
  destruct (sched_yield_ok cs s c x st Hok Hx Hd) as (i & b' & s2 & x' & Hi & E2 & Eq & Er & Ec & Ecp & Ereg & _ & _ & _ & Edr & Hdom & Has & (y & z & Hy & Hz & _ & Hyz) & _).
  rewrite E in E2. injection E2 as <- <-. pose proof (lookup_lt_Some _ _ _ Hx) as Hl.
  assert (held x = [thread_reg x]) as Hhx by (unfold held; by rewrite Hd).
  assert (forall d, idle_of cs s' d = idle_of cs s d) as Hidle by (intros d; unfold idle_of; by rewrite Ec).
  set (r := thread_reg x) in *. set (p := pick s i) in *.
  assert (r = p -> g_thread_list s = []) as Hempty.
  { intros Hrp. destruct (g_thread_list s) as [|t q] eqn:Egl; [done|]. unfold p, pick in Hrp. rewrite Egl in Hrp.
    destruct (queued_not_held cs s c x r Hok Hx) as [Hq _]; [rewrite Hhx; left|]. rewrite Egl, Hrp in Hq. by destruct Hq; left. }
  assert (held x' = p :: (if r =? p then [] else [r])) as Hh by (unfold held; rewrite Ereg, Edr; by destruct (r =? p)).
  set (rest := delete c (cpus s) ≫= held).
  assert (places s' ≡ₚ tail (g_thread_list s) ++ threads_queue s ++ held x' ++ rest) as Hp'.
  { unfold places. by rewrite Eq, Er, Ecp, (cpus_update _ c x x' Hx). }
  assert (places s ≡ₚ g_thread_list s ++ threads_queue s ++ [r] ++ rest) as Hp0.
  { unfold places. by rewrite (cpus_split _ c x Hx), Hhx. }
  assert (exists e, places s' ≡ₚ e ++ places s /\ NoDup (e ++ places s) /\ (forall t, t ∈ e -> is_Some (threads s !! t))) as (e & Hp & Hnd & Hth).
  { pose proof (sc_nodup _ _ Hok) as Hn. destruct (Z.eqb_spec r p) as [Hrp|Hrp].
    - exists []. rewrite Hp', Hp0, Hh, (Hempty Hrp), Hrp. split; [done|]. split; [|set_solver]. rewrite Hp0, (Hempty Hrp), Hrp in Hn. done.
    - destruct (g_thread_list s) as [|t q] eqn:Egl.
      + assert (p = i) as Hpi by (unfold p, pick; by rewrite Egl). exists [i]. rewrite Hp', Hp0, Hh, Hpi. split; [simpl; solve_Permutation|]. split.
        * rewrite <- Hp0. simpl. constructor; [|done]. apply (idle_nowhere cs s c x i Hok Hx Hi). rewrite Hhx.
          intros Hir%list_elem_of_singleton. congruence.
        * intros t ->%list_elem_of_singleton. destruct (sc_core _ _ Hok c x Hx) as (? & i' & _ & _ & Hi' & ?). by simplify_eq.
      + exists []. assert (p = t) as Hpt by (unfold p, pick; by rewrite Egl). rewrite Hp', Hp0, Hh, Hpt. split; [simpl; solve_Permutation|].
        split; [by rewrite <- Hp0|set_solver]. }
  assert (forall d v, cpus s !! d = Some v -> c <> d -> thread_reg v <> r /\ thread_reg v <> p) as Hother.
  { intros d v Hv Hcd. split.
    - intros Hr. apply Hcd. apply (held_disjoint cs s c d x v r Hok Hx Hv); [rewrite Hhx; left|]. rewrite <- Hr. left.
    - intros Hr. unfold p, pick in Hr. destruct (g_thread_list s) as [|t q] eqn:Egl.
      + apply Hcd. symmetry. apply (proj2 (proj2 (sc_idle _ _ Hok c i Hi)) d v Hv). rewrite <- Hr. left.
      + destruct (queued_not_held cs s d v t Hok Hv) as [Hq _]; [rewrite <- Hr; left|]. rewrite Egl in Hq. by destruct Hq; left. }
  split.
  - by rewrite Hp.
  - intros t. rewrite Hp. intros [Ht|Ht]%elem_of_app; apply Hdom; [by apply Hth|by apply (sc_threads _ _ Hok)].
  - intros d v Hv. rewrite Ecp in Hv. rewrite Hidle. apply list_insert_cases in Hv as [[<- ->]|[Hcd Hv]].
    + rewrite Ereg. destruct (sc_core _ _ Hok c x Hx) as (t & i' & Ht & Hcc & Hi' & Hi'').
      exists y, i'. rewrite Hyz. simplify_eq. split; [done|]. split; [|split; [done|by apply Hdom]]. rewrite Hcc. fold r in Ht. by simplify_eq.
    + destruct (sc_core _ _ Hok d v Hv) as (t & i' & Ht & Hcc & Hi' & Hi''). destruct (Hother d v Hv Hcd) as [H1 H2].
      specialize (Has _ H1 H2). rewrite Ht in Has. apply fmap_Some in Has as (t' & Ht' & Ha). exists t', i'. rewrite <- Ha.
      split; [done|]. split; [done|]. split; [done|by apply Hdom].
  - intros d j. rewrite Hidle. intros Hj. destruct (sc_idle _ _ Hok d j Hj) as (H1 & H2 & H3). rewrite Eq, Er.
    split; [intros Hin; apply H1; by destruct (g_thread_list s); [|right]|]. split; [done|]. intros c' v Hv Hin. rewrite Ecp in Hv.
    apply list_insert_cases in Hv as [[<- ->]|[_ Hv]]; [|by eapply H3]. rewrite Hh in Hin.
    assert (j = p \/ j = r) as [->| ->] by (destruct (r =? p); set_solver).
    + unfold p, pick in Hj, H1. destruct (g_thread_list s) as [|t q] eqn:Egl; [by apply (sc_idle_inj _ _ Hok c d i)|]. by destruct H1; left.
    + apply (H3 c x Hx). rewrite Hhx. left.
  - intros c1 d1 j. rewrite !Hidle. apply (sc_idle_inj _ _ Hok).
Qed.

(** A processor that drops a thread, after the thread went where [q'] and [w']
    say. *)
Lemma drop_preserves cs s c x t s1 q' w' : sched_ok cs s -> cpus s !! c = Some x -> dropping x = Some t ->
  g_thread_list s1 = g_thread_list s ++ q' -> threads_queue s1 = threads_queue s ++ w' -> cores s1 = cores s -> cpus s1 = cpus s ->
  (forall k, assigned_core <$> threads s1 !! k = assigned_core <$> threads s !! k) ->
  (q' = [] \/ q' = [t] /\ w' = [] /\ idle_of cs s c <> Some t) -> (w' = [] \/ w' = [t] /\ q' = [] /\ idle_of cs s c <> Some t) ->
  sched_ok cs (set_cpus (<[c := arch_cpu_int_unmask (set_dropping None x)]> (cpus s)) s1).
Proof.
  intros Hok Hx Hd Eq Ew Ec Ecp Has Hq Hw. set (x' := arch_cpu_int_unmask (set_dropping None x)).
  set (s' := set_cpus (<[c := x']> (cpus s)) s1). set (rest := delete c (cpus s) ≫= held).
  assert (forall d, idle_of cs s' d = idle_of cs s d) as Hidle by (intros d; unfold idle_of; cbn; by rewrite Ec).
  assert (forall k, is_Some (threads s !! k) -> is_Some (threads s1 !! k)) as Hdom.
  { intros k [y Hy]. specialize (Has k). rewrite Hy in Has. apply fmap_Some in Has as (y' & ? & _). eauto. }
  assert (held x = [thread_reg x; t]) as Hhx by (unfold held; by rewrite Hd).
  assert (places s ≡ₚ t :: g_thread_list s ++ threads_queue s ++ [thread_reg x] ++ rest) as Hp0.
  { unfold places. rewrite (cpus_split _ c x Hx), Hhx. fold rest. simpl. solve_Permutation. }
  assert (places s' ≡ₚ q' ++ w' ++ g_thread_list s ++ threads_queue s ++ [thread_reg x] ++ rest) as Hp'.
  { unfold places, s'. cbn [g_thread_list threads_queue cpus set_cpus]. rewrite Eq, Ew, (cpus_update _ c x x' Hx). fold rest.
    change (held x') with [thread_reg x]. solve_Permutation. }
  pose proof (sc_nodup _ _ Hok) as Hn. rewrite Hp0 in Hn.
  assert (NoDup (places s') /\ places s' ⊆ places s) as [Hn' Hsub].
  { rewrite Hp'. apply NoDup_cons in Hn as [Hn1 Hn2]. destruct Hq as [->|(-> & -> & _)]; [destruct Hw as [->|(-> & _ & _)]|]; simpl.
    - split; [done|]. intros k Hk. rewrite Hp0. by right.
    - split; [by constructor|]. intros k Hk. by rewrite Hp0.
    - split; [by constructor|]. intros k Hk. by rewrite Hp0. }
  assert (forall d i, idle_of cs s d = Some i -> i = t -> d = c) as Hit.
  { intros d i Hi ->. symmetry. apply (proj2 (proj2 (sc_idle _ _ Hok d t Hi)) c x Hx). rewrite Hhx. set_solver. }
  split.
  - done.
  - intros k Hk. apply Hdom, (sc_threads _ _ Hok). by apply Hsub.
  - intros d v Hv. rewrite Hidle. cbn in Hv. assert (exists v0, cpus s !! d = Some v0 /\ thread_reg v = thread_reg v0) as (v0 & Hv0 & ->).
    { apply list_insert_cases in Hv as [[<- ->]|[_ Hv]]; eauto. }
    destruct (sc_core _ _ Hok d v0 Hv0) as (y & i & Hy & Hcc & Hi & Hii). specialize (Has (thread_reg v0)). rewrite Hy in Has.
    apply fmap_Some in Has as (y' & Hy' & Ha). exists y', i. rewrite <- Ha. split; [done|]. split; [done|]. split; [done|by apply Hdom].
  - intros d j. rewrite Hidle. intros Hj. destruct (sc_idle _ _ Hok d j Hj) as (H1 & H2 & H3). cbn. rewrite Eq, Ew.
    assert (idle_of cs s c <> Some t -> j <> t) as Hjt. { intros Hne ->. apply Hne. by rewrite <- (Hit d t Hj eq_refl). }
    split; [|split].
    + rewrite elem_of_app. intros [?|Hin]; [done|]. destruct Hq as [->|(-> & _ & Hne)]; [set_solver|]. apply Hjt in Hne. set_solver.
    + rewrite elem_of_app. intros [?|Hin]; [done|]. destruct Hw as [->|(-> & _ & Hne)]; [set_solver|]. apply Hjt in Hne. set_solver.
    + intros c' v Hv Hin. apply list_insert_cases in Hv as [[<- ->]|[_ Hv]]; [|by eapply H3]. apply (H3 c x Hx). rewrite Hhx.
      change (held x') with [thread_reg x] in Hin. set_solver.
  - intros c1 d1 j. rewrite !Hidle. apply (sc_idle_inj _ _ Hok).
Qed.

Lemma curr_idle_ok cs s c x : sched_ok cs s -> cpus s !! c = Some x -> exists i, idle_of cs s c = Some i /\ curr_idle c s = Ok i.
Proof.
  intros Hok Hx. destruct (sc_core _ _ Hok c x Hx) as (t & i & Ht & Hc & Hi & _). exists i. split; [done|].
  unfold curr_idle, sched_get_curr_thread. run Hx. run Ht. unfold idle_of in Hi. apply bind_Some in Hi as (a & Ha & Hi).
  apply bind_Some in Hi as (co & Hco & Hi). rewrite Hc in Ha. injection Ha as <-. run Hco. by injection Hi as ->.
Qed.

Lemma thread_ref_ok t s y : threads s !! t = Some y ->
  thread_ref t s = Ok (set_threads (<[t := set_ref_count (u64 (t_ref_count y + 1)) y]> (threads s)) s) /\
  forall k, assigned_core <$> (<[t := set_ref_count (u64 (t_ref_count y + 1)) y]> (threads s)) !! k = assigned_core <$> threads s !! k.
Proof.
  intros Hy. split; [unfold thread_ref; by rewrite (with_thread_ok t _ s y Hy)|]. intros k.
  destruct (decide (k = t)) as [->|]; [by rewrite lookup_insert_eq, Hy|by rewrite lookup_insert_ne].
Qed.

(** The second half of a switch: the thread that was left goes where its state
    says. *)
Lemma finish_switch_ok cs s c x t y : sched_ok cs s -> cpus s !! c = Some x -> dropping x = Some t -> threads s !! t = Some y ->
  exists s', finish_switch c s = Ok s' /\ sched_ok cs s' /\
    (exists x', cpus s' !! c = Some x' /\ thread_reg x' = thread_reg x /\ dropping x' = None /\ int_on x' = true) /\
    (if decide (idle_of cs s c = Some t) then g_thread_list s' = g_thread_list s /\ threads_queue s' = threads_queue s
     else match status y with
          | THREAD_STATE_READY => g_thread_list s' = g_thread_list s ++ [t] /\ threads_queue s' = threads_queue s
          | THREAD_STATE_AWAITING_CLEANUP => g_thread_list s' = g_thread_list s /\ threads_queue s' = threads_queue s ++ [t]
          | _ => g_thread_list s' = g_thread_list s /\ threads_queue s' = threads_queue s
          end).
Proof.
  intros Hok Hx Hd Hy. unfold finish_switch, sched_drop. run Hx. rewrite Hd.
  destruct (curr_idle_ok cs s c x Hok Hx) as (i & Hi & Ei). run Ei. rewrite Hi.
  pose proof (lookup_lt_Some _ _ _ Hx) as Hl.
  assert (~ linked t s) as Hnl.
  { unfold linked. rewrite elem_of_app. destruct (queued_not_held cs s c x t Hok Hx) as [? ?]; [unfold held; rewrite Hd; set_solver|]. tauto. }
  assert (forall q, <[c := q]> (cpus s) !! c = Some q) as Hc by (intros q; by apply list_lookup_insert_eq).
  assert (forall s1, cpus s1 = cpus s -> with_cpu c (fun x => arch_cpu_int_unmask (set_dropping None x)) s1 =
    Ok (set_cpus (<[c := arch_cpu_int_unmask (set_dropping None x)]> (cpus s)) s1)) as Hfin.
  { intros s1 E. rewrite (with_cpu_ok c _ s1 x) by (by rewrite E). by rewrite E. }
  assert (forall v, idle_of cs s c = Some v -> v <> t -> idle_of cs s c <> Some t) as Hne by congruence.
  destruct (Z.eqb_spec t i) as [->|Hti].
  - go. rewrite Hfin by done. eexists. split; [reflexivity|].
    split; [apply (drop_preserves cs s c x i s [] []); rewrite ?app_nil_r; auto|]. split; [|by rewrite decide_True]. eexists. cbn. rewrite Hc. done.
  - run Hy. destruct (status y) eqn:Est.
    + unfold reaper_enqueue_thread. rewrite decide_False by done. run Hy. go. rewrite Hfin by done. eexists. split; [reflexivity|].
      split; [apply (drop_preserves cs s c x t _ [] [t]); rewrite ?app_nil_r; auto; right; rewrite Hi; repeat split; congruence|].
      split; [|by rewrite decide_False by congruence]. eexists. cbn. rewrite Hc. done.
    + go. rewrite Hfin by done. eexists. split; [reflexivity|].
      split; [apply (drop_preserves cs s c x t s [] []); rewrite ?app_nil_r; auto|]. split; [|by rewrite decide_False by congruence]. eexists. cbn. rewrite Hc. done.
    + unfold sched_enqueue. rewrite decide_False by done. destruct (thread_ref_ok t (set_run (g_thread_list s ++ [t]) s) y Hy) as [Er Ha]. run Er.
      go. rewrite Hfin by done. eexists. split; [reflexivity|].
      split; [apply (drop_preserves cs s c x t _ [t] []); rewrite ?app_nil_r; auto; right; rewrite Hi; repeat split; congruence|].
      split; [|by rewrite decide_False by congruence]. eexists. cbn. rewrite Hc. done.
    + go. rewrite Hfin by done. eexists. split; [reflexivity|].
      split; [apply (drop_preserves cs s c x t s [] []); rewrite ?app_nil_r; auto|]. split; [|by rewrite decide_False by congruence]. eexists. cbn. rewrite Hc. done.
Qed.

(** ** Runs of the processors *)

(** A processor yields, finishes a switch, or a thread that is blocked or new is
    made ready.  The label is the thread taken from the run queue. *)
Inductive sstep (cs : list Z) : sched -> option Z -> sched -> Prop :=
| SYield c x st b s s' :
    cpus s !! c = Some x -> dropping x = None -> sched_yield c st s = Ok (b, s') -> sstep cs s (head (g_thread_list s)) s'
| SFinish c s s' : finish_switch c s = Ok s' -> sstep cs s None s'
| SWake t s s' :
    t ∉ places s -> (forall c, idle_of cs s c <> Some t) -> sched_enqueue t s = Ok s' -> sstep cs s None s'.

(** Runs, with the threads dispatched from the run queue in order. *)
Inductive runs (cs : list Z) : sched -> list Z -> sched -> Prop :=
| RunsNil s : runs cs s [] s
| RunsStep s l s' es s'' : sstep cs s l s' -> runs cs s' es s'' -> runs cs s (option_list l ++ es) s''.

Lemma finish_switch_inv cs s c s' : sched_ok cs s -> finish_switch c s = Ok s' ->
  exists x t y, cpus s !! c = Some x /\ dropping x = Some t /\ threads s !! t = Some y.
Proof.
  intros Hok E. unfold finish_switch in E. apply bind_Ok in E as (x & Hx & E). apply deref_Ok in Hx.
  destruct (dropping x) as [t|] eqn:Hd; [|done]. destruct (sc_threads _ _ Hok t) as [y Hy]; [|by exists x, t, y].
  unfold places. do 2 (apply elem_of_app; right). rewrite (cpus_split _ c x Hx). apply elem_of_app. left. unfold held. rewrite Hd. set_solver.
Qed.

Lemma sched_enqueue_preserves cs s t s' : sched_ok cs s -> t ∉ places s -> (forall c, idle_of cs s c <> Some t) -> sched_enqueue t s = Ok s' ->
  sched_ok cs s' /\ g_thread_list s' = g_thread_list s ++ [t].
Proof.
  intros Hok Hp Hi E. unfold sched_enqueue in E. case_decide; [done|].
  unfold thread_ref, with_thread in E. apply bind_Ok in E as (y & Hy & E). apply deref_Ok in Hy. cbn in Hy. injection E as <-.
  destruct (thread_ref_ok t s y Hy) as [_ Ha].
  assert (forall k, is_Some (threads s !! k) -> is_Some ((<[t := set_ref_count (u64 (t_ref_count y + 1)) y]> (threads s)) !! k)) as Hdom.
  { intros k [v Hv]. specialize (Ha k). rewrite Hv in Ha. apply fmap_Some in Ha as (v' & ? & _). eauto. }
  split; [|done]. set (s' := set_threads _ _).
  assert (places s' ≡ₚ t :: places s) as Hpl.
  { unfold places, s'. cbn [g_thread_list threads_queue cpus set_threads set_run]. solve_Permutation. }
  split.
  - rewrite Hpl. constructor; [done|apply Hok].
  - intros k. rewrite Hpl. intros [->|Hk]%elem_of_cons; apply Hdom; [eauto|by apply (sc_threads _ _ Hok)].
  - intros c x Hx. destruct (sc_core _ _ Hok c x Hx) as (v & i & Hv & Hc & Hii & Hit). specialize (Ha (thread_reg x)). rewrite Hv in Ha.
    apply fmap_Some in Ha as (v' & Hv' & Hva). exists v', i. rewrite <- Hva. split; [done|]. split; [done|]. split; [done|by apply Hdom].
  - intros c i Hci. destruct (sc_idle _ _ Hok c i Hci) as (H1 & H2 & H3). split; [|by split]. cbn. rewrite elem_of_app, list_elem_of_singleton.
    intros [?| ->]; [done|]. by apply (Hi c).
  - apply (sc_idle_inj _ _ Hok).
Qed.

Lemma sstep_ok cs s l s' : sched_ok cs s -> sstep cs s l s' ->
  sched_ok cs s' /\ exists added, option_list l ++ g_thread_list s' = g_thread_list s ++ added.
Proof.
  intros Hok Hs. destruct Hs as [c x st b s s' Hx Hd E|c s s' E|t s s' Hp Hi E].
  - split; [by eapply sched_yield_preserves|]. exists [].
    destruct (sched_yield_ok cs s c x st Hok Hx Hd) as (i & b' & s2 & x' & Hi & E2 & Eq & _). rewrite E in E2. injection E2 as <- <-.
    rewrite Eq, app_nil_r. by destruct (g_thread_list s).
  - destruct (finish_switch_inv cs s c s' Hok E) as (x & t & y & Hx & Hd & Hy).
    destruct (finish_switch_ok cs s c x t y Hok Hx Hd Hy) as (s2 & E2 & Hok' & _ & Hq). rewrite E in E2. injection E2 as <-. split; [done|].
    case_decide; [exists []|destruct (status y); [exists []|exists []|exists [t]|exists []]]; destruct Hq as [-> _]; by rewrite ?app_nil_r.
  - destruct (sched_enqueue_preserves cs s t s' Hok Hp Hi E) as [Hok' ->]. split; [done|]. by exists [t].
Qed.

Lemma runs_ok cs s es s' : runs cs s es s' -> sched_ok cs s ->
  sched_ok cs s' /\ exists added, es ++ g_thread_list s' = g_thread_list s ++ added.
Proof.
  induction 1 as [s|s l s1 es s2 Hs _ IH]; intros Hok; [split; [done|]; exists []; by rewrite app_nil_r|].
  destruct (sstep_ok cs s l s1 Hok Hs) as (Hok1 & a1 & E1). destruct (IH Hok1) as (Hok2 & a2 & E2). split; [done|].
  exists (a1 ++ a2). by rewrite <- app_assoc, E2, app_assoc, E1, <- app_assoc.
Qed.

(** C3: in every run of the processors, whatever the interleaving of their yields
    and context switches, no thread is current on two processors, a current
    thread is neither in the run queue nor with the reaper, no thread is queued
    twice, and no step is undefined: [sched_yield] returns on every processor
    that is not in a switch, and a switch that has begun can be finished. *)
Theorem sched_exclusive (cs : list Z) (s s' : sched) (es : list Z) :
  sched_ok cs s -> runs cs s es s' ->
  (forall c d x y, cpus s' !! c = Some x -> cpus s' !! d = Some y -> thread_reg x = thread_reg y -> c = d) /\
  (forall c x, cpus s' !! c = Some x -> thread_reg x ∉ g_thread_list s' /\ thread_reg x ∉ threads_queue s') /\
  NoDup (g_thread_list s' ++ threads_queue s') /\
  (forall c x st, cpus s' !! c = Some x -> dropping x = None -> returns (sched_yield c st s')) /\
  (forall c x, cpus s' !! c = Some x -> dropping x <> None -> returns (finish_switch c s')).
Proof.
  intros Hok Hr. destruct (runs_ok cs s es s' Hr Hok) as [Hok' _]. split; [|split; [|split; [|split]]].
  - intros c d x y Hx Hy E. apply (held_disjoint cs s' c d x y (thread_reg x) Hok' Hx Hy); [left|rewrite E; left].
  - intros c x Hx. apply (queued_not_held cs s' c x _ Hok' Hx). left.
  - pose proof (sc_nodup _ _ Hok') as Hn. unfold places in Hn. rewrite app_assoc in Hn. by apply NoDup_app in Hn as [? _].
  - intros c x st Hx Hd. destruct (sched_yield_ok cs s' c x st Hok' Hx Hd) as (i & b & s2 & x' & _ & E & _). by exists (b, s2).
  - intros c x Hx Hd. destruct (dropping x) as [t|] eqn:Ed; [|done]. destruct (sc_threads _ _ Hok' t) as [y Hy].
    { unfold places. do 2 (apply elem_of_app; right). rewrite (cpus_split _ c x Hx). apply elem_of_app. left. unfold held. rewrite Ed. set_solver. }
    destruct (finish_switch_ok cs s' c x t y Hok' Hx Ed Hy) as (s2 & E & _). by exists s2.
Qed.


(** ** Concrete runs *)

(** Two processors that run their idle threads, two threads that are ready. *)
Definition ex_thread (core : Z) (refs : Z) : thread_t := Thread THREAD_STATE_READY 1 2 core refs.
Definition ex_cpu (t : Z) : cpu_t := Cpu t true 0 None None.
Definition ex_cores : list Z := [10; 20].
Definition ex_sched : sched :=
  Sched [300; 400] [] {[ 100 := ex_thread 10 0; 200 := ex_thread 20 0; 300 := ex_thread NULL 1; 400 := ex_thread NULL 1 ]}
    {[ 10 := Core 100; 20 := Core 200 ]} [ex_cpu 100; ex_cpu 200].

Lemma ex_idle c i : idle_of ex_cores ex_sched c = Some i -> (c = 0%nat /\ i = 100) \/ (c = 1%nat /\ i = 200).
Proof. intros (a & Ha & E)%bind_Some. destruct c as [|[|c]]; simplify_eq/=; vm_compute in E; simplify_eq; auto. Qed.

Lemma ex_sched_ok : sched_ok ex_cores ex_sched.
Proof.
  split.
  - apply (bool_decide_unpack _). vm_compute. exact I.
  - intros t Ht. assert (t ∈ [300; 400; 100; 200]) as Hin by exact Ht. set_unfold. destruct Hin as [->|[->|[->|[->|[]]]]]; by eexists.
  - intros [|[|c]] x Hx; simplify_eq/=; eexists _, _; (split; [reflexivity|]; split; [reflexivity|]; split; [reflexivity|by eexists]).
  - intros c i [[-> ->]|[-> ->]]%ex_idle; (split; [cbn; set_solver|]; split; [cbn; set_solver|]); intros [|[|d]] x Hx Hin; simplify_eq/=; set_solver.
  - intros c d i [[-> ->]|[-> ->]]%ex_idle [[-> Hj]|[-> Hj]]%ex_idle; done.
Qed.

(** Both processors begin a switch before either finishes it. *)
Definition then_ {A} (m : outcome (A * sched)) (f : sched -> outcome sched) : sched :=
  match m with Ok (_, s) => match f s with Ok s => s | _ => s end | _ => ex_sched end.
Definition ex_s1 : sched := then_ (sched_yield 0 THREAD_STATE_READY ex_sched) (fun s => Ok s).
Definition ex_s2 : sched := then_ (sched_yield 1 THREAD_STATE_READY ex_s1) (fun s => Ok s).
Definition ex_s3 : sched := then_ (Ok (tt, ex_s2)) (finish_switch 1).

Lemma ex_runs : runs ex_cores ex_sched [300; 400] ex_s3.
Proof.
  apply (RunsStep ex_cores ex_sched (Some 300) ex_s1 [400]); [eapply (SYield ex_cores 0 _ THREAD_STATE_READY true); vm_compute; reflexivity|].
  apply (RunsStep ex_cores ex_s1 (Some 400) ex_s2 []); [eapply (SYield ex_cores 1 _ THREAD_STATE_READY true); vm_compute; reflexivity|].
  apply (RunsStep ex_cores ex_s2 None ex_s3 []); [apply (SFinish ex_cores 1); vm_compute; reflexivity|constructor].
Qed.

Lemma sched_exclusive_witness : runs ex_cores ex_sched [300; 400] ex_s3 /\ returns (finish_switch 0 ex_s3).
Proof.
  split; [apply ex_runs|].
  destruct (sched_exclusive ex_cores ex_sched ex_s3 [300; 400] ex_sched_ok ex_runs) as (_ & _ & _ & _ & E).
  apply (E 0%nat (Cpu 300 false 2 (Some 5000) (Some 100))); [vm_compute; reflexivity|discriminate].
Defined.


(** ** Behaviours worth knowing *)

(** An idle processor that finds nothing to run returns from [sched_yield] with
    its interrupts masked: only the path through the context switch unmasks them. *)
Lemma yield_leaves_masked :
  (fun r => (r.1, int_on <$> cpus r.2 !! 0%nat)) <$> sched_yield 0 THREAD_STATE_READY (set_run [] ex_sched) = Ok (false, Some false).
Proof. vm_compute. reflexivity. Qed.

(** Every time a thread is queued and dispatched its reference count grows by
    two; nothing counts down, so the reaper never finds it at zero. *)
Lemma dispatch_leaks_refs s t y q : g_thread_list s = [] -> ~ linked t s -> threads s !! t = Some y -> forall c s1 s2,
  sched_enqueue t s = Ok s1 -> g_thread_list s1 = t :: q -> sched_next c s1 = Ok (t, s2) ->
  t_ref_count <$> threads s2 !! t = Some (u64 (t_ref_count y + 2)).
Proof.
  intros Hq Hl Hy c s1 s2 E1 Hq1 E2. unfold sched_enqueue in E1. rewrite decide_False in E1 by done.
  rewrite (proj1 (thread_ref_ok t (set_run _ s) y Hy)) in E1. injection E1 as <-. unfold sched_next in E2. rewrite Hq1 in E2.
  unfold thread_ref, with_thread in E2. cbn [threads set_run set_threads] in E2. rewrite lookup_insert_eq in E2. cbn in E2. injection E2 as <-.
  cbn. rewrite lookup_insert_eq. cbn. f_equal. unfold u64. rewrite Z.add_mod_idemp_l by lia. f_equal. lia.
Qed.

(** A thread dropped in the state RUNNING is forgotten: the assertion that
    should catch it is of [true]. *)
Lemma drop_running_forgets :
  (fun s => g_thread_list s ++ threads_queue s) <$>
    (r ← sched_yield 0 THREAD_STATE_READY ex_sched; s ← finish_switch 0 r.2;
     r ← sched_yield 0 THREAD_STATE_RUNNING s; finish_switch 0 r.2) = Ok [].
Proof. vm_compute. reflexivity. Qed.
