(* ===== verification/Proc.v ===== *)
(** * Processes and threads (kernel/src/sys/proc.c, thread.c, reaper.c,
    arch/x86_64/thread.c, arch/x86_64/abi/stack.c)

    Creation of processes and threads, with the initial stacks and the memory of
    the floating point state, and the pass of the reaper over its queue.  The
    state is that of the virtual memory manager plus the tables of processes and
    threads by address. *)
From stdpp Require Import base gmap list fin_maps.
From Stdlib Require Import ZArith Lia.
From S2P Require Import Prelude Lists Interfaces Pmm Kmem Vmm Resource Sched.

Definition ARCH_USER_MIN_VIRT : Z := 0.
Definition ARCH_USER_MAX_VIRT : Z := 0x00007FFFFFFFFFFF.

(** arch/thread.h *)
Record arch_thread_context_t := Context { self : Z; rsp : Z; kernel_stack : Z; syscall_stack : Z; fpu_area : Z; fs : Z; gs : Z }.

Inductive proc_type_t := PROC_KERNEL | PROC_USER.

(** [new_t] adds the fields of [thread_t] that Sched.v does not need. *)
Record new_t := NewThread { t_id : Z; context : arch_thread_context_t; base_thread : thread_t }.

Record proc_t := Proc { p_id : Z; p_type : proc_type_t; p_space : Z; p_threads : list Z; p_table : resource_table_t; p_ref_count : Z }.

Definition sizeof_thread : Z := 144.
Definition sizeof_proc : Z := 152.
Definition sizeof_init_stack_kernel : Z := 128.
Definition sizeof_init_stack_user : Z := 144.

(** Offsets of the list nodes in [thread_t]. *)
Definition OFF_list_node_sched : Z := 88.
Definition OFF_list_node_proc : Z := 104.
Definition OFF_list_node_mutex : Z := 120.

(** The structures on a new stack: fifteen registers that are zero, then what
    the first return pops. *)
Definition init_stack_kernel (entry : Z) : list Z := zeroes 120 ++ le64 entry.
Definition init_stack_user (userspace_init entry user_stack : Z) : list Z :=
  zeroes 120 ++ le64 userspace_init ++ le64 entry ++ le64 user_stack.

Record psys (M K V : Type) := PSys {
  pv : vstate M K V; spaces : gmap Z vmm_addr_space_t; procs : gmap Z proc_t; g_proc_list : list Z;
  pthreads : gmap Z new_t; g_last_pid : Z; g_last_tid : Z; g_thread_count : Z
}.
Arguments PSys {M K V}. Arguments pv {M K V}. Arguments spaces {M K V}. Arguments procs {M K V}. Arguments g_proc_list {M K V}.
Arguments pthreads {M K V}. Arguments g_last_pid {M K V}. Arguments g_last_tid {M K V}. Arguments g_thread_count {M K V}.

(** [g_last_id++] on an int. *)
Definition next_id (n : Z) : outcome Z := if n <? 2 ^ 31 - 1 then Ok (n + 1) else Fault.

Section proc.
Context {M K V : Type} `{PageMap M} `{ObjectAllocator K} `{Files V} (HHDM : Z).
(** The size of the floating point state, the state of a fresh thread, and the
    addresses of the assembly entry and of the kernel's address space. *)
Context (fpu_area_size : Z) (fpu_image : list Z) (userspace_init g_vmm_kernel_addr_space : Z).
Implicit Types st : psys M K V.

Definition set_pv v st : psys M K V := PSys v (spaces st) (procs st) (g_proc_list st) (pthreads st) (g_last_pid st) (g_last_tid st) (g_thread_count st).
Definition set_spaces x st : psys M K V := PSys (pv st) x (procs st) (g_proc_list st) (pthreads st) (g_last_pid st) (g_last_tid st) (g_thread_count st).
Definition set_procs x st : psys M K V := PSys (pv st) (spaces st) x (g_proc_list st) (pthreads st) (g_last_pid st) (g_last_tid st) (g_thread_count st).
Definition set_proc_list x st : psys M K V := PSys (pv st) (spaces st) (procs st) x (pthreads st) (g_last_pid st) (g_last_tid st) (g_thread_count st).
Definition set_pthreads x st : psys M K V := PSys (pv st) (spaces st) (procs st) (g_proc_list st) x (g_last_pid st) (g_last_tid st) (g_thread_count st).
Definition set_last_pid x st : psys M K V := PSys (pv st) (spaces st) (procs st) (g_proc_list st) (pthreads st) x (g_last_tid st) (g_thread_count st).
Definition set_counts i n st : psys M K V := PSys (pv st) (spaces st) (procs st) (g_proc_list st) (pthreads st) (g_last_pid st) i n.

(** The stack of a user thread: the arguments are not written to it. *)
Definition x86_64_abi_stack_setup (space stack_size : Z) st : outcome (Z * psys M K V) :=
  a ← deref (spaces st !! space);
  '(ptr, a, v) ← vmm_mmap HHDM a 0 stack_size VMM_PROT_FULL
                   (Z.lor VMM_MAP_ANON (Z.lor VMM_MAP_POPULATE VMM_MAP_PRIVATE)) NULL 0 (pv st);
  let st := set_spaces (<[space := a]> (spaces st)) (set_pv v st) in
  ASSERT (negb (ptr =? VMM_MAP_FAILED));;
  Ok (Z.land (u64 (ptr + stack_size - 1)) (u64 (Z.lnot 0xF)), st).

(** A page of the kernel: [(uptr)pmm_alloc(0) + HHDM]. *)
Definition kernel_page (v : vstate M K V) : outcome (Z * vstate M K V) :=
  '(p, m) ← pm_alloc (vm v); Ok (u64 (p + HHDM), set_vm m v).

(** The order of the block for the floating point state. *)
Definition fpu_order : outcome Z :=
  o ← pmm_pagecount_to_order (CEIL fpu_area_size ARCH_PAGE_GRAN); Ok (o / ARCH_PAGE_GRAN).

(** [curr_fpu]: the area of the current thread and what the processor saves
    there, once all processors run.  Blocks of other orders than 0 are not asked
    for (fpu_order_zero below). *)
Definition arch_thread_context_init (t proc_space : Z) (user : bool) (entry : Z) (curr_fpu : option (Z * list Z)) st :
    outcome (arch_thread_context_t * psys M K V) :=
  '(page, v) ← kernel_page (pv st);
  let st := set_pv v st in
  let kstack := u64 (page + ARCH_PAGE_GRAN) in
  '(sp, st) ←
    (if negb user then
       let sp := u64 (kstack - sizeof_init_stack_kernel) in
       v ← kwrite HHDM sp (init_stack_kernel entry) (pv st);
       Ok (sp, set_pv v st)
     else
       let sp := Z.land (u64 (kstack - sizeof_init_stack_kernel)) (u64 (Z.lnot 0xF)) in
       '(ustack, st) ← x86_64_abi_stack_setup proc_space (ARCH_PAGE_GRAN * 8) st;
       v ← kwrite HHDM sp (init_stack_user userspace_init entry ustack) (pv st);
       Ok (sp, set_pv v st));
  order ← fpu_order;
  '(area, v) ← (if order =? 0 then kernel_page (pv st) else Fault);
  v ← kwrite HHDM area (zeroes fpu_area_size) v;
  v ← (match curr_fpu with Some (a, bs) => kwrite HHDM a bs v | None => Ok v end);
  v ← kwrite HHDM area fpu_image v;
  Ok (Context t sp kstack 0 area 0 0, set_pv v st).

Definition thread_new (parent_proc entry : Z) (curr_fpu : option (Z * list Z)) st : outcome (Z * psys M K V) :=
  ASSERT (negb (parent_proc =? NULL));;
  '(t, k) ← obj_alloc sizeof_thread (objs (pv st));
  let st := set_pv (set_objs k (pv st)) st in
  last ← next_id (g_last_tid st);
  let id := g_last_tid st in
  p ← deref (procs st !! parent_proc);
  '(ctx, st) ← arch_thread_context_init t (p_space p) (match p_type p with PROC_USER => true | PROC_KERNEL => false end) entry curr_fpu st;
  p ← deref (procs st !! parent_proc);
  Ok (t, set_counts last (u64 (g_thread_count st + 1))
       (set_procs (<[parent_proc := Proc (p_id p) (p_type p) (p_space p) (p_threads p ++ [t]) (p_table p) (p_ref_count p)]> (procs st))
       (set_pthreads (<[t := NewThread id ctx (Thread THREAD_STATE_AWAITING_CLEANUP parent_proc (p_space p) NULL 0)]> (pthreads st)) st))).

Definition RESOURCES_AT_START : nat := 16.

Definition proc_new (type : proc_type_t) st : outcome (Z * psys M K V) :=
  '(p, k) ← obj_alloc sizeof_proc (objs (pv st));
  let st := set_pv (set_objs k (pv st)) st in
  last ← next_id (g_last_pid st);
  let id := g_last_pid st in
  '(space, st) ←
    (match type with
     | PROC_KERNEL => Ok (g_vmm_kernel_addr_space, st)
     | PROC_USER =>
         '(o, a, v) ← vmm_new_addr_space ARCH_USER_MIN_VIRT ARCH_USER_MAX_VIRT (pv st);
         Ok (o, set_spaces (<[o := a]> (spaces st)) (set_pv v st))
     end);
  '(table, k) ← resource_table_expand resource_table_new RESOURCES_AT_START (objs (pv st));
  let st := set_pv (set_objs k (pv st)) st in
  Ok (p, set_last_pid last (set_proc_list (g_proc_list st ++ [p]) (set_procs (<[p := Proc id type space [] table 0]> (procs st)) st))).

(** The loop of [proc_find_id]. *)
Fixpoint find_pid (ps : list Z) (id : Z) (procs : gmap Z proc_t) : outcome Z :=
  match ps with
  | [] => Ok NULL
  | p :: ps => x ← deref (procs !! p); if p_id x =? id then Ok p else find_pid ps id procs
  end.

Definition proc_find_id (id : Z) st : outcome Z := find_pid (g_proc_list st) id (procs st).

(** One pass of [reaper_main] over the nodes of its queue, which are the
    [list_node_sched] of threads: the thread is computed from the node as if it
    were a [list_node_proc]. *)
Fixpoint reaper_pass (nodes : list Z) st : outcome (psys M K V) :=
  match nodes with
  | [] => Ok st
  | n :: nodes =>
      let t := n - OFF_list_node_proc in
      x ← deref (pthreads st !! t);
      if negb (t_ref_count (base_thread x) =? 0) then reaper_pass nodes st
      else
        let pp := parent_proc (base_thread x) in
        p ← deref (procs st !! pp);
        ts ← seq_remove t (p_threads p);
        k ← obj_free t (objs (pv st));
        reaper_pass nodes
          (set_pv (set_objs k (pv st)) (set_procs (<[pp := Proc (p_id p) (p_type p) (p_space p) ts (p_table p) (p_ref_count p)]> (procs st)) st))
  end.

(** The thread [reaper_init] hands to [sched_enqueue]: the first of a new
    process. *)
Definition reaper_init (reaper_main : Z) st : outcome (Z * psys M K V) :=
  '(p, st) ← proc_new PROC_KERNEL st;
  thread_new p reaper_main None st.
End proc.

(** ** Floating point state and initial stacks *)

(** The division happens after the order was taken of the size in bytes: the
    order is 0 whatever the size. *)
Lemma fpu_order_zero size o : fpu_order size = Ok o -> o = 0.
Proof.
  unfold fpu_order, pmm_pagecount_to_order. intros E. apply bind_Ok in E as (p & Ep & E). injection E as <-. apply Z.div_small.
  destruct (_ =? 1); [injection Ep as <-; done|]. apply bind_Ok in Ep as (c & _ & Ep). injection Ep as <-.
  pose proof (Z.mod_pos_bound (64 - c) (2 ^ 8) ltac:(lia)). unfold u8, ARCH_PAGE_GRAN. lia.
Qed.

Lemma fpu_order_ok size : 0 < size <= ARCH_PAGE_GRAN -> fpu_order size = Ok 0.
Proof.
  intros Hs. unfold fpu_order, CEIL, ARCH_PAGE_GRAN in *.
  assert (u64 (u64 (u64 (size + 4096) - 1) / 4096 * 4096) = 4096) as ->.
  { rewrite (u64_small (size + 4096)) by lia. rewrite (u64_small (size + 4096 - 1)) by lia.
    assert ((size + 4096 - 1) / 4096 = 1) as -> by dlia. done. }
  reflexivity.
Qed.

Lemma le64_length v : length (le64 v) = 8%nat.
Proof. done. Qed.

(** The stack of a new user thread is as large as that of a kernel thread, but
    the structure stored at its top is 16 bytes larger: it runs over the end of
    the page. *)
Lemma user_init_stack_overflows userspace_init entry ustack kstack :
  sizeof_init_stack_kernel <= kstack < 2 ^ 64 -> (ARCH_PAGE_GRAN | kstack) ->
  Z.land (u64 (kstack - sizeof_init_stack_kernel)) (u64 (Z.lnot 0xF)) + Z.of_nat (length (init_stack_user userspace_init entry ustack)) = kstack + 16.
Proof.
  intros Hk [q Hq]. unfold sizeof_init_stack_kernel in *. rewrite u64_small by lia.
  assert (Z.land (kstack - 128) (u64 (Z.lnot 15)) = kstack - 128) as ->.
  { replace (u64 (Z.lnot 15)) with (Z.lnot 15 mod 2 ^ 64) by done. rewrite <- (Z.land_ones _ 64) by lia. rewrite Z.land_assoc, Z.land_ones by lia.
    rewrite <- Z.ldiff_land. change 15 with (Z.ones 4). rewrite Z.ldiff_ones_r by lia. rewrite Z.shiftl_mul_pow2, Z.shiftr_div_pow2 by lia.
    unfold ARCH_PAGE_GRAN in Hq. change (2 ^ 4) with 16. rewrite Z.mod_small by dlia. dlia. }
  unfold init_stack_user. rewrite !length_app, !le64_length. unfold zeroes. rewrite length_replicate. lia.
Qed.

(** ** Process table *)

Section table.
Context {M K V : Type} `{PageMap M} `{ObjectAllocator K} `{Files V} (kernel_space : Z).
Implicit Types st : psys M K V.

(** Every listed process exists, its identifier was handed out and is its own. *)
Record procs_ok st (U R D : gset Z) : Prop := {
  po_heap : oa_state (objs (pv st)) U;
  po_map : pm_state (vm (pv st)) R D;
  po_dom : dom (procs st) ⊆ U;
  po_list : forall p, p ∈ g_proc_list st -> exists x, procs st !! p = Some x /\ 0 <= p_id x < g_last_pid st;
  po_ids : forall p q x y, p ∈ g_proc_list st -> q ∈ g_proc_list st -> procs st !! p = Some x -> procs st !! q = Some y -> p_id x = p_id y -> p = q;
  po_null : procs st !! NULL = None;
  po_last : 0 <= g_last_pid st
}.

Lemma find_pid_ext ps id (m1 m2 : gmap Z proc_t) : (forall p, p ∈ ps -> m1 !! p = m2 !! p) -> find_pid ps id m1 = find_pid ps id m2.
Proof.
  induction ps as [|p ps IH]; intros Heq; [done|]. cbn [find_pid]. rewrite (Heq p) by left. destruct (m2 !! p) as [x|]; [|done]. go.
  destruct (p_id x =? id); [done|]. apply IH. intros q Hq. apply Heq. by right.
Qed.

Lemma find_pid_app ps p x id (m : gmap Z proc_t) : (forall q, q ∈ ps -> exists y, m !! q = Some y) -> (forall q, q ∈ ps -> q <> NULL) -> m !! p = Some x ->
  find_pid (ps ++ [p]) id m = (r ← find_pid ps id m; if r =? NULL then Ok (if p_id x =? id then p else NULL) else Ok r).
Proof.
  intros Hps Hn Hp. induction ps as [|q ps IH]; cbn [find_pid app].
  - run Hp. go. by destruct (p_id x =? id).
  - destruct (Hps q) as [y Hy]; [left|]. run Hy. destruct (p_id y =? id) eqn:E.
    + go. by rewrite (proj2 (Z.eqb_neq q NULL) (Hn q ltac:(left))).
    + apply IH; intros; [apply Hps|apply Hn]; by right.
Qed.

Lemma find_pid_result ps id (m : gmap Z proc_t) : (forall q, q ∈ ps -> exists y, m !! q = Some y) -> exists r, find_pid ps id m = Ok r /\
  (r = NULL \/ r ∈ ps /\ exists x, m !! r = Some x /\ p_id x = id).
Proof.
  intros Hps. induction ps as [|q ps IH]; cbn [find_pid]; [exists NULL; auto|].
  destruct (Hps q) as [y Hy]; [left|]. run Hy. destruct (Z.eqb_spec (p_id y) id) as [E|E].
  - exists q. split; [done|]. right. split; [left|eauto].
  - destruct IH as (r & Er & Hr); [intros; apply Hps; by right|]. exists r. split; [done|]. destruct Hr as [->|[Hin Hx]]; [by left|]. right. split; [by right|done].
Qed.

(** The address space of a new process. *)
Lemma new_space_ok type st U R D : oa_state (objs (pv st)) U -> pm_state (vm (pv st)) R D ->
  (match type with
   | PROC_KERNEL => Ok (kernel_space, st)
   | PROC_USER => '(o, a, v) ← vmm_new_addr_space ARCH_USER_MIN_VIRT ARCH_USER_MAX_VIRT (pv st); Ok (o, set_spaces (<[o := a]> (spaces st)) (set_pv v st))
   end) = Panic \/
  exists o st' U' R', (match type with
   | PROC_KERNEL => Ok (kernel_space, st)
   | PROC_USER => '(o, a, v) ← vmm_new_addr_space ARCH_USER_MIN_VIRT ARCH_USER_MAX_VIRT (pv st); Ok (o, set_spaces (<[o := a]> (spaces st)) (set_pv v st))
   end) = Ok (o, st') /\ oa_state (objs (pv st')) U' /\ pm_state (vm (pv st')) R' D /\ U ⊆ U' /\
    procs st' = procs st /\ g_proc_list st' = g_proc_list st /\ g_last_pid st' = g_last_pid st /\
    match type with
    | PROC_KERNEL => o = kernel_space
    | PROC_USER => exists r, spaces st' !! o = Some (AddrSpace [] ARCH_USER_MIN_VIRT ARCH_USER_MAX_VIRT r) /\ r ∉ R /\ o ∉ U
    end.
Proof.
  intros Hk Hm. destruct type; [right; exists kernel_space, st, U, R; by repeat split|].
  unfold vmm_new_addr_space.
  destruct (obj_alloc_spec _ U sizeof_addr_space Hk) as [E|(o & k & E & Hk' & Ho & _)]; [unfold sizeof_addr_space; lia|left; by run E|]. run E.
  destruct (pm_new_spec _ R D Hm) as [E2|(r & m & E2 & Hm' & Hr & _)]; [left; by run E2|right]. run E2.
  eexists o, _, _, _. split; [reflexivity|]. cbn. split; [exact Hk'|]. split; [exact Hm'|]. split; [set_solver|].
  split; [done|]. split; [done|]. split; [done|]. exists r. by rewrite lookup_insert_eq.
Qed.

Lemma proc_new_ok type st U R D : procs_ok st U R D -> g_last_pid st < 2 ^ 31 - 1 ->
  proc_new kernel_space type st = Panic \/
  exists p st' U' R' x, proc_new kernel_space type st = Ok (p, st') /\ procs_ok st' U' R' D /\ p ∉ U /\ p <> NULL /\
    g_proc_list st' = g_proc_list st ++ [p] /\ procs st' = <[p := x]> (procs st) /\
    p_id x = g_last_pid st /\ p_type x = type /\ p_threads x = [] /\ fd_view (p_table x) ∅ = replicate 16 None /\
    (type = PROC_USER -> exists r, spaces st' !! p_space x = Some (AddrSpace [] ARCH_USER_MIN_VIRT ARCH_USER_MAX_VIRT r) /\ r ∉ R).
Proof.
  intros [Hk Hm Hd Hl Hi Hnull Hn] Hmax. unfold proc_new.
  destruct (obj_alloc_spec _ U sizeof_proc Hk) as [E|(p & k & E & Hk' & Hp & Hpr)]; [unfold sizeof_proc; lia|left; by run E|]. run E.
  cbn [g_last_pid set_pv]. unfold next_id. rewrite (proj2 (Z.ltb_lt _ _) Hmax). go.
  destruct (new_space_ok type (set_pv (set_objs k (pv st)) st) ({[p]} ∪ U) R D Hk' Hm) as [E2|(o & st1 & U1 & R1 & E2 & Hk1 & Hm1 & HU & Ep & El & Eg & Ho)];
    [left; by run E2|]. run E2.
  destruct (resource_table_expand_ok resource_table_new ∅ (objs (pv st1)) U1 RESOURCES_AT_START) as [E3|(tb & k2 & U2 & E3 & Ht & Hk2 & HU2 & Hv)].
  { split; intros i *; cbn; rewrite lookup_nil; done. } { exact Hk1. } { by left. } { vm_compute. discriminate. } { intros i. cbn. by rewrite lookup_nil. }
  { left; by run E3. }
  right. run E3. cbn [procs g_proc_list set_pv] in Ep, El |- *. rewrite Ep, El.
  assert (p <> NULL) as Hpn by (unfold NULL; lia).
  assert (p ∉ g_proc_list st) as Hpl. { intros (x & Hx & _)%Hl. apply Hp, Hd. by eapply elem_of_dom_2. }
  eexists p, _, U2, R1, _. split; [reflexivity|]. split; [|split; [done|]; split; [done|]; split; [done|]; split; [done|]; split; [done|]; split; [done|]; split; [done|]; split; [exact Hv|]].
  2: { intros ->. destruct Ho as (r & Hr & HrR & _). by exists r. }
  assert (forall q x, q ∈ g_proc_list st -> <[p := x]> (procs st) !! q = procs st !! q) as Hold.
  { intros q x Hq. apply lookup_insert_ne. intros ->. done. }
  split; cbn [pv objs vm set_objs set_pv procs g_proc_list g_last_pid set_procs set_proc_list set_last_pid].
  - exact Hk2.
  - exact Hm1.
  - rewrite dom_insert. intros q Hq. apply HU2.
    + apply HU. set_solver.
    + cbn. intros ->. apply elem_of_union in Hq as [Hq|Hq]; [set_solver|]. apply elem_of_dom in Hq as [x Hx]. congruence.
  - intros q [Hq| ->%list_elem_of_singleton]%elem_of_app.
    + destruct (Hl q Hq) as (x & Hx & Hid). exists x. rewrite Hold by done. split; [done|lia].
    + eexists. rewrite lookup_insert_eq. split; [done|]. cbn. lia.
  - intros q r x y [Hq| ->%list_elem_of_singleton]%elem_of_app [Hr| ->%list_elem_of_singleton]%elem_of_app; [| | |done].
    + rewrite !Hold by done. by apply Hi.
    + rewrite Hold, lookup_insert_eq by done. intros Hx Hy E'. destruct (Hl q Hq) as (x' & Hx' & Hid). simplify_eq/=. lia.
    + rewrite (Hold r), lookup_insert_eq by done. intros Hx Hy E'. destruct (Hl r Hr) as (x' & Hx' & Hid). simplify_eq/=. lia.
  - by rewrite lookup_insert_ne.
  - lia.
Qed.

(** [proc_new] runs out of memory or adds one process to the list, with an
    identifier no other process has and 16 descriptors, none open, in an empty
    address space of its own if it is a user process; [proc_find_id] then finds
    it under its identifier and the other processes as before. *)
Theorem proc_new_correct type st U R D : procs_ok st U R D -> g_last_pid st < 2 ^ 31 - 1 ->
  proc_new kernel_space type st = Panic \/
  exists p st' U' R' x, proc_new kernel_space type st = Ok (p, st') /\ procs_ok st' U' R' D /\ procs st' !! p = Some x /\
    p ∉ g_proc_list st /\ proc_find_id (p_id x) st' = Ok p /\ p_id x = g_last_pid st /\
    (forall id, id <> p_id x -> proc_find_id id st' = proc_find_id id st) /\
    p_type x = type /\ p_threads x = [] /\ fd_view (p_table x) ∅ = replicate 16 None /\
    (type = PROC_USER -> exists r, spaces st' !! p_space x = Some (AddrSpace [] ARCH_USER_MIN_VIRT ARCH_USER_MAX_VIRT r) /\ r ∉ R).
Proof.
  intros Hok Hmax. destruct (proc_new_ok type st U R D Hok Hmax) as [E|(p & st' & U' & R' & x & E & Hok' & Hp & Hpn & El & Ep & Hid & Hty & Hth & Hv & Hu)];
    [by left|right]. exists p, st', U', R', x. split; [done|]. split; [done|]. split; [by rewrite Ep, lookup_insert_eq|].
  destruct Hok as [_ _ Hd Hl Hi Hnull _].
  assert (p ∉ g_proc_list st) as Hpl. { intros (y & Hy & _)%Hl. apply Hp, Hd. by eapply elem_of_dom_2. }
  assert (forall q, q ∈ g_proc_list st -> procs st' !! q = procs st !! q) as Hold.
  { intros q Hq. rewrite Ep. apply lookup_insert_ne. intros ->. done. }
  assert (forall id, proc_find_id id st' = (r ← proc_find_id id st; if r =? NULL then Ok (if p_id x =? id then p else NULL) else Ok r)) as Hfind.
  { intros id. unfold proc_find_id. rewrite El, (find_pid_app _ p x).
    - by rewrite (find_pid_ext _ id (procs st') (procs st)).
    - intros q Hq. rewrite Hold by done. destruct (Hl q Hq) as (y & ? & _). eauto.
    - intros q Hq ->. destruct (Hl _ Hq) as (y & ? & _). congruence.
    - by rewrite Ep, lookup_insert_eq. }
  assert (forall id, exists r, proc_find_id id st = Ok r /\ (r = NULL \/ r ∈ g_proc_list st /\ exists x, procs st !! r = Some x /\ p_id x = id)) as Hres.
  { intros id. apply find_pid_result. intros q Hq. destruct (Hl q Hq) as (y & ? & _). eauto. }
  split; [done|]. split; [|split; [done|split; [|done]]].
  - rewrite Hfind. destruct (Hres (p_id x)) as (r & -> & Hr). go. destruct Hr as [->|(Hr & y & Hy & Hyid)]; [by rewrite !Z.eqb_refl|].
    destruct (Hl r Hr) as (y' & Hy' & Hlt). simplify_eq. lia.
  - intros id Hne. rewrite Hfind. destruct (Hres id) as (r & -> & Hr). go. rewrite (proj2 (Z.eqb_neq (p_id x) id)) by congruence.
    destruct (Z.eqb_spec r NULL) as [->|]; done.
Qed.
End table.

(** ** New threads *)

Section threads.
Context {M K V : Type} `{PageMap M} `{ObjectAllocator K} `{Files V} (HHDM : Z) (HH : hhdm_ok HHDM) (Htop : HHDM + 2 ^ 46 < 2 ^ 64).
Context (fpu_area_size : Z) (fpu_image : list Z) (userspace_init : Z).
Context (Hfpu : 0 < fpu_area_size <= ARCH_PAGE_GRAN) (Himg : Z.of_nat (length fpu_image) <= fpu_area_size).
Implicit Types st : psys M K V.

Lemma kernel_page_ok (v : vstate M K V) R D : pm_state (vm v) R D ->
  kernel_page HHDM v = Panic \/
  exists f m, kernel_page HHDM v = Ok (f + HHDM, set_vm m v) /\ pm_state m R ({[f]} ∪ D) /\ f ∉ D /\ phys_page f.
Proof using HH.
  intros Hm. unfold kernel_page. destruct (pm_alloc_spec _ R D Hm) as [E|(f & m & E & Hm' & Hf & Hp & _)]; run E; [by left|right].
  exists f, m. destruct (frame_u64 HHDM HH f Hp) as [-> _]. done.
Qed.

(** Bytes of one page are not disturbed by writes to another. *)
Lemma other_page (m : mem) f g o bs cs : phys_page f -> phys_page g -> f <> g -> 0 <= o -> o + Z.of_nat (length bs) <= ARCH_PAGE_GRAN ->
  Z.of_nat (length cs) <= ARCH_PAGE_GRAN ->
  bytes_at m (f + HHDM + o) bs -> bytes_at (write_bytes m (g + HHDM) cs) (f + HHDM + o) bs.
Proof.
  intros Hf Hg Hne Ho Hbs Hcs Hb i b Hi. pose proof (lookup_lt_Some _ _ _ Hi). rewrite write_bytes_out; [by apply Hb|].
  destruct Hf as (_ & _ & [a Ha]), Hg as (_ & _ & [c Hc]). unfold ARCH_PAGE_GRAN in *. subst. assert (a < c \/ c < a) by lia. lia.
Qed.

Lemma context_init_kernel t space entry st R D : pm_state (vm (pv st)) R D ->
  arch_thread_context_init HHDM fpu_area_size fpu_image userspace_init t space false entry None st = Panic \/
  exists ctx v f g, arch_thread_context_init HHDM fpu_area_size fpu_image userspace_init t space false entry None st = Ok (ctx, set_pv v st) /\
    f ∉ D /\ g ∉ D /\ f <> g /\ phys_page f /\ phys_page g /\ pm_state (vm v) R ({[g]} ∪ ({[f]} ∪ D)) /\ objs v = objs (pv st) /\ self ctx = t /\
    kernel_stack ctx = f + HHDM + ARCH_PAGE_GRAN /\ rsp ctx = kernel_stack ctx - 128 /\
    bytes_at (vmem v) (rsp ctx) (zeroes 120 ++ le64 entry) /\ fpu_area ctx = g + HHDM /\ bytes_at (vmem v) (g + HHDM) fpu_image.
Proof using HH Htop Hfpu Himg.
  intros Hm. unfold arch_thread_context_init. destruct (kernel_page_ok (pv st) R D Hm) as [E|(f & m & E & Hm1 & Hf & Hpf)]; [left; by run E|]. run E.
  assert (u64 (f + HHDM + ARCH_PAGE_GRAN) = f + HHDM + ARCH_PAGE_GRAN /\ u64 (f + HHDM + ARCH_PAGE_GRAN - sizeof_init_stack_kernel) = f + HHDM + 3968) as [-> ->].
  { destruct Hpf as (? & ? & [a Ha]), HH as (? & ? & [b Hb]). unfold sizeof_init_stack_kernel, ARCH_PAGE_GRAN in *.
    assert (f + HHDM + 4096 < 2 ^ 64) by lia. rewrite !u64_small by lia. lia. }
  assert (HHDM <= f + HHDM + 3968) by (destruct Hpf; lia). cbn [negb]. rewrite kwrite_ok by done. go. rewrite fpu_order_ok by done. go.
  cbn [pv set_pv]. destruct (kernel_page_ok (set_vmem (write_bytes (vmem (set_vm m (pv st))) (f + HHDM + 3968) (init_stack_kernel entry)) (set_vm m (pv st))) R ({[f]} ∪ D) Hm1)
    as [E2|(g & m2 & E2 & Hm2 & Hg & Hpg)]; [left; cbn [Z.eqb]; by run E2|right]. cbn [Z.eqb]. run E2.
  assert (HHDM <= g + HHDM) by (destruct Hpg; lia). rewrite !kwrite_ok by done. go. rewrite kwrite_ok by done. go.
  assert (f <> g) as Hfg by (clear - Hg; set_solver). assert (g ∉ D) as HgD by (clear - Hg; set_solver).
  eexists _, _, f, g. split; [reflexivity|]. split; [done|]. split; [done|]. split; [done|]. split; [done|]. split; [done|]. split; [exact Hm2|].
  split; [done|]. split; [done|]. split; [done|]. split; [unfold kernel_stack, rsp, ARCH_PAGE_GRAN; lia|]. cbn [rsp vmem set_vmem set_vm fpu_area]. split; [|split; [done|apply write_bytes_at]].
  assert (Z.of_nat (length (zeroes fpu_area_size)) = fpu_area_size) as Hz by (apply zeroes_len; lia).
  assert (3968 + Z.of_nat (length (init_stack_kernel entry)) <= ARCH_PAGE_GRAN) as Hlen by (vm_compute; discriminate).
  apply other_page; try done; [lia|]. apply other_page; try done; [lia|]. apply write_bytes_at.
Qed.

(** A new thread of a kernel process: [thread_new] runs out of memory or
    returns a thread with the next identifier, last in the list of its process,
    whose stack is a page of its own prepared for the first context switch: from
    the saved stack pointer there are the fifteen registers, zero, and then the
    entry point, up to the end of the page; its floating point state is the
    initial one, in another page. *)
Theorem thread_new_kernel p x entry st U R D : procs_ok st U R D -> p <> NULL -> procs st !! p = Some x -> p_type x = PROC_KERNEL ->
  g_last_tid st < 2 ^ 31 - 1 ->
  thread_new HHDM fpu_area_size fpu_image userspace_init p entry None st = Panic \/
  exists t st' th f g, thread_new HHDM fpu_area_size fpu_image userspace_init p entry None st = Ok (t, st') /\ t ∉ U /\
    pthreads st' = <[t := th]> (pthreads st) /\ t_id th = g_last_tid st /\ parent_proc (base_thread th) = p /\
    p_threads <$> procs st' !! p = Some (p_threads x ++ [t]) /\ g_thread_count st' = u64 (g_thread_count st + 1) /\
    f ∉ D /\ g ∉ D /\ f <> g /\ phys_page f /\ phys_page g /\
    kernel_stack (context th) = f + HHDM + ARCH_PAGE_GRAN /\ rsp (context th) + 128 = kernel_stack (context th) /\
    bytes_at (vmem (pv st')) (rsp (context th)) (zeroes 120 ++ le64 entry) /\
    fpu_area (context th) = g + HHDM /\ bytes_at (vmem (pv st')) (fpu_area (context th)) fpu_image.
Proof using HH Htop Hfpu Himg.
  intros Hok Hpn Hx Hty Hmax. unfold thread_new. rewrite (proj2 (Z.eqb_neq p NULL) Hpn). go.
  destruct (obj_alloc_spec _ U sizeof_thread (po_heap _ _ _ _ Hok)) as [E|(t & k & E & _ & Ht & _)]; [unfold sizeof_thread; lia|left; by run E|]. run E.
  cbn [g_last_tid set_pv procs]. unfold next_id. rewrite (proj2 (Z.ltb_lt _ _) Hmax). go. run Hx. rewrite Hty.
  destruct (context_init_kernel t (p_space x) entry (set_pv (set_objs k (pv st)) st) R D (po_map _ _ _ _ Hok))
    as [E2|(ctx & v & f & g & E2 & Hf & Hg & Hfg & Hpf & Hpg & _ & _ & _ & Hk & Hr & Hb & Ha & Hi)]; [left; by run E2|right]. run E2.
  cbn [procs set_pv]. run Hx. eexists t, _, _, f, g. split; [reflexivity|]. split; [done|]. split; [reflexivity|].
  cbn [procs pthreads g_thread_count g_last_tid pv set_counts set_procs set_pthreads set_pv t_id base_thread parent_proc context].
  split; [done|]. split; [done|]. split; [by rewrite lookup_insert_eq|]. split; [done|]. split; [done|]. split; [done|]. split; [done|]. split; [done|].
  split; [done|]. split; [exact Hk|]. split; [rewrite Hr; lia|]. split; [exact Hb|]. split; [exact Ha|]. rewrite Ha. exact Hi.
Qed.
End threads.

(** ** Concrete runs *)

Definition ex_proc : proc_t := Proc 0 PROC_KERNEL 1 [] resource_table_new 0.
Definition ex_psys : psys (PageTables.tstate bump) fresh rofiles := PSys ex_vm ∅ {[ 64 := ex_proc ]} [64] ∅ 1 0 0.

Lemma ex_procs_ok : procs_ok ex_psys {[64]} {[Ptm.ex_root]} ∅.
Proof.
  split.
  - intros o ->%elem_of_singleton. reflexivity.
  - apply ex_x86_state.
  - cbn [procs ex_psys]. rewrite dom_singleton. done.
  - intros p ->%list_elem_of_singleton. exists ex_proc. split; [apply lookup_singleton_eq|cbn; lia].
  - intros p q x y ->%list_elem_of_singleton ->%list_elem_of_singleton. done.
  - apply lookup_singleton_ne. discriminate.
  - cbn. lia.
Qed.

Lemma proc_new_correct_witness :
  proc_new 1 PROC_KERNEL ex_psys = Panic \/
  exists p st', proc_new 1 PROC_KERNEL ex_psys = Ok (p, st') /\ proc_find_id 1 st' = Ok p.
Proof.
  destruct (proc_new_correct 1 PROC_KERNEL ex_psys {[64]} {[Ptm.ex_root]} ∅ ex_procs_ok) as [E|(p & st' & U' & R' & x & E & _ & _ & _ & Hf & Hid & _)];
    [cbn; lia|left; exact E|right]. exists p, st'. split; [exact E|]. rewrite Hid in Hf. exact Hf.
Defined.

Lemma thread_new_kernel_witness :
  thread_new ex_HH 512 [] 0 64 0xFFFFFFFF80001000 None ex_psys = Panic \/
  exists t st' th, thread_new ex_HH 512 [] 0 64 0xFFFFFFFF80001000 None ex_psys = Ok (t, st') /\ pthreads st' = <[t := th]> ∅ /\
    bytes_at (vmem (pv st')) (rsp (context th)) (zeroes 120 ++ le64 0xFFFFFFFF80001000).
Proof.
  destruct (thread_new_kernel ex_HH ex_hhdm eq_refl 512 [] 0 ltac:(unfold ARCH_PAGE_GRAN; lia) ltac:(simpl; lia) 64 ex_proc 0xFFFFFFFF80001000 ex_psys {[64]} {[Ptm.ex_root]} ∅ ex_procs_ok)
    as [E|(t & st' & th & f & g & E & _ & Ep & _ & _ & _ & _ & _ & _ & _ & _ & _ & _ & _ & Hb & _)].
  - discriminate.
  - apply lookup_singleton_eq.
  - reflexivity.
  - cbn. lia.
  - left. exact E.
  - right. exists t, st', th. split; [exact E|]. split; [exact Ep|exact Hb].
Defined.

(** ** Behaviours worth knowing *)

(** The reaper takes its nodes for [list_node_proc]: it looks for the thread 16
    bytes before the one that was queued. *)
Lemma reaper_misreads {M K V : Type} `{PageMap M} `{ObjectAllocator K} `{Files V} (st : psys M K V) t ns :
  pthreads st !! (t - 16) = None -> reaper_pass ((t + OFF_list_node_sched) :: ns) st = Fault.
Proof.
  intros E. cbn [reaper_pass]. replace (t + OFF_list_node_sched - OFF_list_node_proc) with (t - 16) by (unfold OFF_list_node_sched, OFF_list_node_proc; lia).
  by rewrite E.
Qed.
