(* ===== verification/Ksym.v ===== *)
(** * Kernel symbols (kernel/src/sys/ksym.c, tools/ksym.c)

    The table of the kernel's symbols is written by the build tool from the
    output of nm and searched by the module loader.  A record is the address in
    eight bytes and the name with its terminator, with no padding. *)
From stdpp Require Import base gmap list fin_maps.
From Stdlib Require Import ZArith Lia.
From S2P Require Import Prelude Strings.

(** ** Writing the table *)

Definition NAME_LEN : Z := 256.

(** The loop of the tool over the lines that [fscanf] parses: address and name.
    [%s] stores the terminator too and knows no bound. *)
Fixpoint dump (lines : list (Z * list Z)) : outcome (list Z) :=
  match lines with
  | [] => Ok []
  | (addr, name) :: lines =>
      (if Z.of_nat (length name) + 1 <=? NAME_LEN then Ok tt else Fault);;
      out ← dump lines;
      Ok (le64 addr ++ name ++ [0] ++ out)
  end.

(** ** Searching it *)

Definition load_u64 (m : mem) (p : Z) : outcome Z := bs ← kread m p 8; Ok (le_value bs).

Definition ksym_resolve_symbol (fuel sfuel : nat) (m : mem) (ksym_data ksym_size name : Z) : outcome Z :=
  loop fuel (fun p =>
    if p <? ksym_data + ksym_size then
      c ← strcmp sfuel m name (p + 8);
      if c =? 0 then a ← load_u64 m p; Ok (inr a)
      else n ← strlen sfuel m (p + 8); Ok (inl (p + (8 + n + 1)))
    else Ok (inr 0)) ksym_data.

(** The bootloader's modules: path, address and size. *)
Definition KERNEL_SYMBOLS : list Z :=
  [47; 107; 101; 114; 110; 101; 108; 95; 115; 121; 109; 98; 111; 108; 115; 46; 98; 105; 110].

Fixpoint ksym_load_symbols (modules : list (list Z * Z * Z)) : outcome (Z * Z) :=
  match modules with
  | [] => Panic
  | (path, address, size) :: modules =>
      if bool_decide (path = KERNEL_SYMBOLS)
      then if address =? NULL then Panic else Ok (address, size)
      else ksym_load_symbols modules
  end.

(** ** The table as a map *)

(** The address of the first line with this name. *)
Fixpoint lookup_symbol (lines : list (Z * list Z)) (name : list Z) : option Z :=
  match lines with
  | [] => None
  | (a, x) :: lines => if bool_decide (x = name) then Some a else lookup_symbol lines name
  end.

Lemma lookup_symbol_elem lines name a : NoDup (lines.*2) -> (a, name) ∈ lines -> lookup_symbol lines name = Some a.
Proof.
  induction lines as [|[b x] lines IH]; intros Hd Hin; [by apply not_elem_of_nil in Hin|].
  apply NoDup_cons in Hd as [Hx Hd]. apply elem_of_cons in Hin as [E|Hin]; simpl.
  - injection E as -> ->. by rewrite bool_decide_true.
  - rewrite bool_decide_false; [by apply IH|]. intros ->. apply Hx. apply list_elem_of_fmap. by exists (a, name).
Qed.

Definition line_ok (l : Z * list Z) : Prop := 0 <= l.1 < 2 ^ 64 /\ Forall (fun b => b <> 0) l.2.

Lemma dump_cons addr name lines out : dump ((addr, name) :: lines) = Ok out ->
  exists rest, out = le64 addr ++ name ++ [0] ++ rest /\ dump lines = Ok rest /\ Z.of_nat (length name) < NAME_LEN.
Proof.
  cbn [dump]. intros E. apply bind_Ok in E as ([] & Hl & E). apply bind_Ok in E as (rest & Er & E). injection E as <-.
  exists rest. split; [done|]. split; [done|]. destruct (Z.leb_spec (Z.of_nat (length name) + 1) NAME_LEN); [lia|done].
Qed.

(** The search from a record on, with enough fuel for the records left. *)
Lemma resolve_from lines : forall out fuel sfuel m p stop name s,
  dump lines = Ok out -> Forall line_ok lines -> bytes_at m p out -> stop = p + Z.of_nat (length out) ->
  cstr m name s -> (length lines < fuel)%nat -> (length s < sfuel)%nat -> (Z.to_nat NAME_LEN <= sfuel)%nat ->
  loop fuel (fun p =>
    if p <? stop then
      c ← strcmp sfuel m name (p + 8);
      if c =? 0 then a ← load_u64 m p; Ok (inr a)
      else n ← strlen sfuel m (p + 8); Ok (inl (p + (8 + n + 1)))
    else Ok (inr 0)) p = Ok (default 0 (lookup_symbol lines s)).
Proof.
  induction lines as [|[addr x] lines IH]; intros out [|fuel] sfuel m p stop name s Hd Hok Hb Hstop Hs Hf Hsf Hnf; simpl in Hf; try lia.
  - injection Hd as <-. apply loop_exit. simpl in Hstop. by rewrite (proj2 (Z.ltb_ge p stop)) by lia.
  - apply dump_cons in Hd as (rest & -> & Hd & Hx). apply Forall_cons in Hok as [[Ha Hnz] Hok].
    apply bytes_at_app in Hb as [Haddr Hb]. unfold le64 in Hb. rewrite le_bytes_length in Hb. change (Z.of_nat 8) with 8 in Hb.
    rewrite app_assoc in Hb. apply bytes_at_app in Hb as [Hname Hrest].
    assert (Hc : cstr m (p + 8) x) by (by split).
    rewrite !length_app in Hstop. unfold le64 in Hstop. rewrite le_bytes_length in Hstop. simpl length in Hstop.
    rewrite loop_unfold, (proj2 (Z.ltb_lt p stop)) by lia.
    rewrite (strcmp_from s x) by done. go.
    destruct (Z.eqb_spec (cmp_bytes s x) 0) as [E|E].
    + apply (cmp_bytes_eq s x (proj2 Hs) Hnz) in E as <-. unfold load_u64. rewrite <- (le_bytes_length 8 addr) at 1.
      rewrite (kread_ok m p (le_bytes _ addr)) by done. go.
      rewrite le_bytes_value, Z.mod_small by (simpl in *; lia). simpl. by rewrite bool_decide_true.
    + rewrite (strlen_ok x) by (done || unfold NAME_LEN in *; lia). go.
      simpl lookup_symbol. rewrite bool_decide_false by (intros ->; apply E; by apply cmp_bytes_eq).
      rewrite length_app in Hrest. simpl length in Hrest.
      replace (p + (8 + Z.of_nat (length x) + 1)) with (p + 8 + Z.of_nat (length x + 1)) by lia.
      apply (IH rest); (done || lia).
Qed.

(** C31: the symbol table the build tool writes is the one the kernel reads.  For
    lines with 64-bit addresses and names without a NUL, and a tool that did not
    overrun its buffer, [ksym_resolve_symbol] on the bytes it wrote gives the
    address of the first line with the name asked for, and 0 if there is none;
    with distinct names each symbol resolves to its own address.  One unit of
    fuel per record and one for the end is enough. *)
Theorem ksym_roundtrip lines out m ksym_data name s :
  dump lines = Ok out -> Forall line_ok lines -> bytes_at m ksym_data out -> cstr m name s -> Z.of_nat (length s) < NAME_LEN ->
  ksym_resolve_symbol (S (length lines)) (Z.to_nat NAME_LEN) m ksym_data (Z.of_nat (length out)) name =
    Ok (default 0 (lookup_symbol lines s)) /\
  (NoDup (lines.*2) -> forall a, (a, s) ∈ lines ->
     ksym_resolve_symbol (S (length lines)) (Z.to_nat NAME_LEN) m ksym_data (Z.of_nat (length out)) name = Ok a).
Proof.
  intros Hd Hok Hb Hs Hl.
  assert (E : ksym_resolve_symbol (S (length lines)) (Z.to_nat NAME_LEN) m ksym_data (Z.of_nat (length out)) name =
    Ok (default 0 (lookup_symbol lines s))).
  { apply (resolve_from lines out); (done || lia). }
  split; [done|]. intros Hnd a Ha. by rewrite E, (lookup_symbol_elem lines s a).
Qed.

(** ** Concrete instances *)

(** Two symbols, [heap_alloc]-like short names [ab] and [b]. *)
Definition ex_lines : list (Z * list Z) := [(0xFFFFFFFF80001000, [97; 98]); (0xFFFFFFFF80002000, [98])].
Definition ex_table : list Z := match dump ex_lines with Ok out => out | _ => [] end.
Definition ex_symbols : mem := write_bytes (write_bytes ∅ 0x1000 ex_table) 0x2000 [98; 0].

Lemma ksym_roundtrip_witness :
  ksym_resolve_symbol 3 256 ex_symbols 0x1000 (Z.of_nat (length ex_table)) 0x2000 = Ok 0xFFFFFFFF80002000.
Proof.
  refine (proj2 (ksym_roundtrip ex_lines ex_table ex_symbols 0x1000 0x2000 [98] _ _ _ _ _) _ _ _).
  - vm_compute. reflexivity.
  - repeat constructor; simpl; lia.
  - unfold ex_symbols. intros i b Hi. pose proof (lookup_lt_Some _ _ _ Hi) as Hlt. change (length ex_table) with 21%nat in Hlt.
    rewrite write_bytes_out by (left; lia). by apply write_bytes_at.
  - split; [apply write_bytes_at|]. repeat constructor. lia.
  - reflexivity.
  - apply NoDup_cons. split; [|apply NoDup_singleton]. intros E%list_elem_of_singleton. discriminate E.
  - right. left.
Defined.

(** A name as long as the tool's buffer overruns it. *)
Lemma dump_overrun : dump [(0, replicate 256 97)] = Fault.
Proof. reflexivity. Qed.
