(* ===== verification/Elf.v ===== *)
(** * ELF files (kernel/src/common/elf.h, elf.c)

    The packed structures of an object file as the loaders overlay them on the
    bytes they read, and the check every file passes before it is loaded. *)
From stdpp Require Import base gmap list fin_maps.
From Stdlib Require Import ZArith Lia.
From S2P Require Import Prelude.

(** ** The structures *)

Record Elf64_Ehdr := Ehdr {
  e_ident : list Z; e_type : Z; e_machine : Z; e_version : Z; e_entry : Z; e_phoff : Z; e_shoff : Z; e_flags : Z;
  e_ehsize : Z; e_phentsize : Z; e_phnum : Z; e_shentsize : Z; e_shnum : Z; e_shstrndx : Z
}.

Record Elf64_Shdr := Shdr {
  sh_name : Z; sh_type : Z; sh_flags : Z; sh_addr : Z; sh_offset : Z; sh_size : Z; sh_link : Z; sh_info : Z;
  sh_addralign : Z; sh_entsize : Z
}.

Record Elf64_Sym := Sym { st_name : Z; st_info : Z; st_other : Z; st_shndx : Z; st_value : Z; st_size : Z }.

Record Elf64_Rela := Rela { r_offset : Z; r_info : Z; r_addend : Z }.

Record Elf64_Phdr := Phdr {
  p_type : Z; p_flags : Z; p_offset : Z; p_vaddr : Z; p_paddr : Z; p_filesz : Z; p_memsz : Z; p_align : Z
}.

Definition sizeof_Ehdr : Z := 64.
Definition sizeof_Shdr : Z := 64.
Definition sizeof_Sym : Z := 24.
Definition sizeof_Rela : Z := 24.
Definition sizeof_Phdr : Z := 56.

Definition EI_CLASS : nat := 4.
Definition EI_DATA : nat := 5.
Definition EI_VERSION : nat := 6.
Definition ELFCLASS64 : Z := 2.
Definition ELFDATA2LSB : Z := 1.
Definition EV_CURRENT : Z := 1.
Definition ET_REL : Z := 1.
Definition ET_EXEC : Z := 2.
Definition EM_x86_64 : Z := 0x3E.
Definition EM_AARCH64 : Z := 0xB7.
Definition SHT_PROGBITS : Z := 1.
Definition SHT_SYMTAB : Z := 2.
Definition SHT_RELA : Z := 4.
Definition SHT_NOBITS : Z := 8.
Definition SHF_ALLOC : Z := 2.
Definition SHN_UNDEF : Z := 0.
Definition SHN_ABS : Z := 0xFFF1.
Definition SHN_COMMON : Z := 0xFFF2.
Definition PT_LOAD : Z := 1.
Definition R_X86_64_64 : Z := 1.
Definition R_X86_64_PC32 : Z := 2.
Definition R_X86_64_PLT32 : Z := 4.
Definition R_X86_64_32 : Z := 10.
Definition R_X86_64_32S : Z := 11.
Definition R_X86_64_PC64 : Z := 24.
Definition ELF64_R_SYM (i : Z) : Z := Z.shiftr i 32.
Definition ELF64_R_TYPE (i : Z) : Z := Z.land i 0xFFFFFFFF.

(** ** The structures in memory *)

(** [n] bytes at offset [off], as an integer. *)
Definition field (bs : list Z) (off n : nat) : Z := le_value (take n (drop off bs)).

Definition Ehdr_of (bs : list Z) : Elf64_Ehdr :=
  Ehdr (take 16 bs) (field bs 16 2) (field bs 18 2) (field bs 20 4) (field bs 24 8) (field bs 32 8) (field bs 40 8) (field bs 48 4)
    (field bs 52 2) (field bs 54 2) (field bs 56 2) (field bs 58 2) (field bs 60 2) (field bs 62 2).

Definition Shdr_of (bs : list Z) : Elf64_Shdr :=
  Shdr (field bs 0 4) (field bs 4 4) (field bs 8 8) (field bs 16 8) (field bs 24 8) (field bs 32 8) (field bs 40 4) (field bs 44 4)
    (field bs 48 8) (field bs 56 8).

Definition Sym_of (bs : list Z) : Elf64_Sym :=
  Sym (field bs 0 4) (field bs 4 1) (field bs 5 1) (field bs 6 2) (field bs 8 8) (field bs 16 8).

Definition Rela_of (bs : list Z) : Elf64_Rela := Rela (field bs 0 8) (field bs 8 8) (i64 (field bs 16 8)).

Definition Phdr_of (bs : list Z) : Elf64_Phdr :=
  Phdr (field bs 0 4) (field bs 4 4) (field bs 8 8) (field bs 16 8) (field bs 24 8) (field bs 32 8) (field bs 40 8) (field bs 48 8).

(** ** Compatibility *)

Definition ELFMAG : list Z := [0x7F; 69; 76; 70].

(** [machine] is the constant of the target the kernel is built for. *)
Definition elf_check_compatibility (machine : Z) (hdr : Elf64_Ehdr) : bool :=
  if negb (bool_decide (take 4 (e_ident hdr) = ELFMAG)) then false
  else
    let ret := true in
    let ret := if negb (nth EI_CLASS (e_ident hdr) 0 =? ELFCLASS64) then false else ret in
    let ret := if negb (nth EI_DATA (e_ident hdr) 0 =? ELFDATA2LSB) then false else ret in
    let ret := if negb (e_machine hdr =? machine) then false else ret in
    let ret := if negb (nth EI_VERSION (e_ident hdr) 0 =? EV_CURRENT) then false else ret in
    ret.

(** ** The layout as the format defines it: the fields in order *)

Definition Ehdr_bytes (h : Elf64_Ehdr) : list Z :=
  e_ident h ++ le_bytes 2 (e_type h) ++ le_bytes 2 (e_machine h) ++ le_bytes 4 (e_version h) ++ le64 (e_entry h) ++
  le64 (e_phoff h) ++ le64 (e_shoff h) ++ le_bytes 4 (e_flags h) ++ le_bytes 2 (e_ehsize h) ++ le_bytes 2 (e_phentsize h) ++
  le_bytes 2 (e_phnum h) ++ le_bytes 2 (e_shentsize h) ++ le_bytes 2 (e_shnum h) ++ le_bytes 2 (e_shstrndx h).

Definition Shdr_bytes (s : Elf64_Shdr) : list Z :=
  le_bytes 4 (sh_name s) ++ le_bytes 4 (sh_type s) ++ le64 (sh_flags s) ++ le64 (sh_addr s) ++ le64 (sh_offset s) ++ le64 (sh_size s) ++
  le_bytes 4 (sh_link s) ++ le_bytes 4 (sh_info s) ++ le64 (sh_addralign s) ++ le64 (sh_entsize s).

Definition Sym_bytes (s : Elf64_Sym) : list Z :=
  le_bytes 4 (st_name s) ++ le_bytes 1 (st_info s) ++ le_bytes 1 (st_other s) ++ le_bytes 2 (st_shndx s) ++ le64 (st_value s) ++ le64 (st_size s).

Definition Rela_bytes (r : Elf64_Rela) : list Z := le64 (r_offset r) ++ le64 (r_info r) ++ le64 (r_addend r).

Definition Phdr_bytes (p : Elf64_Phdr) : list Z :=
  le_bytes 4 (p_type p) ++ le_bytes 4 (p_flags p) ++ le64 (p_offset p) ++ le64 (p_vaddr p) ++ le64 (p_paddr p) ++ le64 (p_filesz p) ++
  le64 (p_memsz p) ++ le64 (p_align p).

(** Fields within their widths. *)
Definition uint (n : nat) (v : Z) : Prop := 0 <= v < 2 ^ (8 * Z.of_nat n).

Definition Ehdr_ok (h : Elf64_Ehdr) : Prop :=
  length (e_ident h) = 16%nat /\ uint 2 (e_type h) /\ uint 2 (e_machine h) /\ uint 4 (e_version h) /\ uint 8 (e_entry h) /\
  uint 8 (e_phoff h) /\ uint 8 (e_shoff h) /\ uint 4 (e_flags h) /\ uint 2 (e_ehsize h) /\ uint 2 (e_phentsize h) /\
  uint 2 (e_phnum h) /\ uint 2 (e_shentsize h) /\ uint 2 (e_shnum h) /\ uint 2 (e_shstrndx h).

Definition Shdr_ok (s : Elf64_Shdr) : Prop :=
  uint 4 (sh_name s) /\ uint 4 (sh_type s) /\ uint 8 (sh_flags s) /\ uint 8 (sh_addr s) /\ uint 8 (sh_offset s) /\ uint 8 (sh_size s) /\
  uint 4 (sh_link s) /\ uint 4 (sh_info s) /\ uint 8 (sh_addralign s) /\ uint 8 (sh_entsize s).

Definition Sym_ok (s : Elf64_Sym) : Prop :=
  uint 4 (st_name s) /\ uint 1 (st_info s) /\ uint 1 (st_other s) /\ uint 2 (st_shndx s) /\ uint 8 (st_value s) /\ uint 8 (st_size s).

Definition Rela_ok (r : Elf64_Rela) : Prop := uint 8 (r_offset r) /\ uint 8 (r_info r) /\ - 2 ^ 63 <= r_addend r < 2 ^ 63.

Definition Phdr_ok (p : Elf64_Phdr) : Prop :=
  uint 4 (p_type p) /\ uint 4 (p_flags p) /\ uint 8 (p_offset p) /\ uint 8 (p_vaddr p) /\ uint 8 (p_paddr p) /\ uint 8 (p_filesz p) /\
  uint 8 (p_memsz p) /\ uint 8 (p_align p).

Lemma uint_value n v : uint n v -> le_value (le_bytes n v) = v.
Proof. intros Hv. rewrite le_bytes_value. by apply Z.mod_small. Qed.

(** A field of a concatenation of integers computes to the bytes of one of
    them. *)
Ltac solve_fields := f_equal; match goal with H : uint ?n ?v |- _ = ?v => exact (uint_value n v H) end.

Lemma Shdr_roundtrip s : Shdr_ok s -> Shdr_of (Shdr_bytes s) = s.
Proof. destruct s. unfold Shdr_ok, Shdr_of, Shdr_bytes. simpl. intros. destruct_and!. solve_fields. Qed.

Lemma Sym_roundtrip s : Sym_ok s -> Sym_of (Sym_bytes s) = s.
Proof. destruct s. unfold Sym_ok, Sym_of, Sym_bytes. simpl. intros. destruct_and!. solve_fields. Qed.

Lemma Phdr_roundtrip p : Phdr_ok p -> Phdr_of (Phdr_bytes p) = p.
Proof. destruct p. unfold Phdr_ok, Phdr_of, Phdr_bytes. simpl. intros. destruct_and!. solve_fields. Qed.

Lemma i64_signed v : - 2 ^ 63 <= v < 2 ^ 63 -> i64 (v mod 2 ^ 64) = v.
Proof. intros Hv. unfold i64. rewrite Zplus_mod_idemp_l, Z.mod_small by lia. lia. Qed.

Lemma Rela_roundtrip r : Rela_ok r -> Rela_of (Rela_bytes r) = r.
Proof.
  destruct r as [o i a]. unfold Rela_ok, Rela_of, Rela_bytes. simpl. intros (Ho & Hi & Ha).
  f_equal; [exact (uint_value 8 o Ho)|exact (uint_value 8 i Hi)|]. etrans; [|by apply i64_signed].
  f_equal. exact (le_bytes_value 8 a).
Qed.

Lemma Ehdr_roundtrip h : Ehdr_ok h -> Ehdr_of (Ehdr_bytes h) = h.
Proof.
  destruct h as [id]. unfold Ehdr_ok, Ehdr_of, Ehdr_bytes. simpl. intros (Hl & H). destruct_and!.
  do 16 (destruct id as [|? id]; [discriminate Hl|]). destruct id; [|discriminate Hl]. f_equal; solve_fields.
Qed.

Lemma elf_check_spec machine h :
  elf_check_compatibility machine h = true <->
  take 4 (e_ident h) = ELFMAG /\ nth EI_CLASS (e_ident h) 0 = ELFCLASS64 /\ nth EI_DATA (e_ident h) 0 = ELFDATA2LSB /\
  e_machine h = machine /\ nth EI_VERSION (e_ident h) 0 = EV_CURRENT.
Proof.
  unfold elf_check_compatibility. case_bool_decide as Hm; simpl; [|naive_solver].
  destruct (Z.eqb_spec (nth EI_CLASS (e_ident h) 0) ELFCLASS64), (Z.eqb_spec (nth EI_DATA (e_ident h) 0) ELFDATA2LSB),
    (Z.eqb_spec (e_machine h) machine), (Z.eqb_spec (nth EI_VERSION (e_ident h) 0) EV_CURRENT); simpl; naive_solver.
Qed.

Lemma Sym_length s : length (Sym_bytes s) = 24%nat.
Proof. done. Qed.

Lemma Shdr_length s : length (Shdr_bytes s) = 64%nat.
Proof. done. Qed.

Lemma Rela_length r : length (Rela_bytes r) = 24%nat.
Proof. done. Qed.

Lemma Phdr_length p : length (Phdr_bytes p) = 56%nat.
Proof. done. Qed.

Lemma Ehdr_length h : Ehdr_ok h -> length (Ehdr_bytes h) = 64%nat.
Proof. intros [Hl _]. unfold Ehdr_bytes. rewrite length_app, Hl. done. Qed.
