(* ===== verification/Module.v ===== *)
(** * Kernel modules (kernel/src/sys/module.c)

    Loading a relocatable object file into the kernel: sections are given memory
    of the kernel's address space, symbols are resolved against the kernel and
    against the sections, relocations are written.  The tables of the file live
    in the kernel's memory at the addresses the heap returned; the memory of the
    sections is written through the kernel's page tables. *)
From stdpp Require Import base gmap list fin_maps.
From Stdlib Require Import ZArith Lia.
From S2P Require Import Prelude Interfaces Strings Kmem PageTables Ptm Vmm Ksym Elf.

(** The spinlock is not used. *)
Record module_t := Mod { install : Z; destroy : Z; name : Z; version : Z; description : Z; author : Z }.

Definition sizeof_module : Z := 56.

Definition INSTALL : list Z := [95; 95; 109; 111; 100; 117; 108; 101; 95; 105; 110; 115; 116; 97; 108; 108].
Definition DESTROY : list Z := [95; 95; 109; 111; 100; 117; 108; 101; 95; 100; 101; 115; 116; 114; 111; 121].
Definition NAME : list Z := [95; 95; 109; 111; 100; 117; 108; 101; 95; 110; 97; 109; 101].
Definition VERSION : list Z := [95; 95; 109; 111; 100; 117; 108; 101; 95; 118; 101; 114; 115; 105; 111; 110].
Definition DESCRIPTION : list Z := [95; 95; 109; 111; 100; 117; 108; 101; 95; 100; 101; 115; 99; 114; 105; 112; 116; 105; 111; 110].
Definition AUTHOR : list Z := [95; 95; 109; 111; 100; 117; 108; 101; 95; 97; 117; 116; 104; 111; 114].

Definition module_fetch_modinfo (m : module_t) (sym_name : list Z) (sym_val : Z) : module_t :=
  if bool_decide (sym_name = INSTALL) then Mod sym_val (destroy m) (name m) (version m) (description m) (author m)
  else if bool_decide (sym_name = DESTROY) then Mod (install m) sym_val (name m) (version m) (description m) (author m)
  else if bool_decide (sym_name = NAME) then Mod (install m) (destroy m) sym_val (version m) (description m) (author m)
  else if bool_decide (sym_name = VERSION) then Mod (install m) (destroy m) (name m) sym_val (description m) (author m)
  else if bool_decide (sym_name = DESCRIPTION) then Mod (install m) (destroy m) (name m) (version m) sym_val (author m)
  else if bool_decide (sym_name = AUTHOR) then Mod (install m) (destroy m) (name m) (version m) (description m) sym_val
  else m.

Section module.
Context {M K V : Type} `{PageMap M} `{ObjectAllocator K} `{Files V} (HHDM : Z).
(** [file->ops->read] of the file that is loaded: offset and size to the status
    and the bytes stored; [*count] is their number.  [kernel] is the file's
    architecture constant; [ksym_data], [ksym_size] the symbol table. *)
Context (ops_read : Z -> Z -> V -> outcome (Z * list Z * V)) (machine ksym_data ksym_size : Z).
Implicit Types st : vstate M K V.

(** [file->ops->read(file, off, p, n, &count)] into the kernel's memory. *)
Definition read_into (p off n : Z) st : outcome (vstate M K V) :=
  '(_, bs, f) ← ops_read off n (files st); kwrite HHDM p bs (set_files f st).

(** Bytes written at a virtual address of the address space [root]. *)
Fixpoint virt_write (root v : Z) (bs : list Z) st : outcome (vstate M K V) :=
  match bs with
  | [] => Ok st
  | b :: bs =>
      p ← pm_virt_to_phys root v (vm st);
      if p =? BAD_ADDRESS then Fault
      else st ← kwrite HHDM (u64 (p + HHDM)) [b] st; virt_write root (u64 (v + 1)) bs st
  end.

(** Memory for a section. *)
Definition section_mem (a : vmm_addr_space_t) (size : Z) st : outcome (Z * vmm_addr_space_t * vstate M K V) :=
  vmm_mmap HHDM a 0 (CEIL size ARCH_PAGE_GRAN) VMM_PROT_FULL (Z.lor VMM_MAP_ANON (Z.lor VMM_MAP_POPULATE VMM_MAP_PRIVATE)) NULL 0 st.

(** The loop over the section headers; [n] of them are left. *)
Fixpoint load_sections (n : nat) (i : Z) (ehdr : Elf64_Ehdr) (shdr section_addr : Z) (a : vmm_addr_space_t) st :
    outcome (vmm_addr_space_t * vstate M K V) :=
  match n with
  | O => Ok (a, st)
  | S n =>
      st ← read_into (shdr + i * sizeof_Shdr) (u64 (e_shoff ehdr + e_shentsize ehdr * i)) sizeof_Shdr st;
      raw ← kread (vmem st) (shdr + i * sizeof_Shdr) (Z.to_nat sizeof_Shdr);
      let section := Shdr_of raw in
      if (sh_size section =? 0) || (Z.land (sh_flags section) SHF_ALLOC =? 0) then load_sections n (i + 1) ehdr shdr section_addr a st
      else if sh_type section =? SHT_PROGBITS then
        '(mem, a, st) ← section_mem a (sh_size section) st;
        '(_, bs, f) ← ops_read (sh_offset section) (sh_size section) (files st);
        st ← virt_write (ptm_map a) mem bs (set_files f st);
        st ← kwrite HHDM (section_addr + 8 * i) (le64 mem) st;
        load_sections n (i + 1) ehdr shdr section_addr a st
      else if sh_type section =? SHT_NOBITS then
        '(mem, a, st) ← section_mem a (sh_size section) st;
        st ← virt_write (ptm_map a) mem (zeroes (sh_size section)) st;
        st ← kwrite HHDM (section_addr + 8 * i) (le64 mem) st;
        load_sections n (i + 1) ehdr shdr section_addr a st
      else load_sections n (i + 1) ehdr shdr section_addr a st
  end.

(** The address of the last header of a symbol table. *)
Fixpoint find_symtab (n : nat) (i shdr symtab_hdr : Z) st : outcome Z :=
  match n with
  | O => Ok symtab_hdr
  | S n =>
      raw ← kread (vmem st) (shdr + i * sizeof_Shdr) (Z.to_nat sizeof_Shdr);
      find_symtab n (i + 1) shdr (if sh_type (Shdr_of raw) =? SHT_SYMTAB then shdr + i * sizeof_Shdr else symtab_hdr) st
  end.

(** The loop over the symbols; [None] is the return on a symbol that is not
    found. *)
Fixpoint resolve_symbols (n : nat) (fuel sfuel : nat) (i symtab entsize strtab section_addr : Z) (module : module_t) st :
    outcome (option module_t * vstate M K V) :=
  match n with
  | O => Ok (Some module, st)
  | S n =>
      let sym := symtab + i * entsize in
      raw ← kread (vmem st) sym (Z.to_nat sizeof_Sym);
      let s := Sym_of raw in
      let sym_name := strtab + st_name s in
      if st_shndx s =? SHN_UNDEF then
        v ← ksym_resolve_symbol fuel sfuel (vmem st) ksym_data ksym_size sym_name;
        st ← kwrite HHDM (sym + 8) (le64 v) st;
        if v =? 0 then Ok (None, st) else resolve_symbols n fuel sfuel (i + 1) symtab entsize strtab section_addr module st
      else if st_shndx s =? SHN_ABS then resolve_symbols n fuel sfuel (i + 1) symtab entsize strtab section_addr module st
      else if st_shndx s =? SHN_COMMON then resolve_symbols n fuel sfuel (i + 1) symtab entsize strtab section_addr module st
      else
        base ← load_u64 (vmem st) (section_addr + 8 * st_shndx s);
        let v := u64 (st_value s + base) in
        st ← kwrite HHDM (sym + 8) (le64 v) st;
        x ← read_cstr sfuel (vmem st) sym_name;
        resolve_symbols n fuel sfuel (i + 1) symtab entsize strtab section_addr (module_fetch_modinfo module x v) st
  end.

(** Value and width of a relocation at [addr]. *)
Definition reloc_value (type value addr : Z) : option (Z * nat) :=
  if type =? R_X86_64_64 then Some (value, 8%nat)
  else if (type =? R_X86_64_PC32) || (type =? R_X86_64_PLT32) then Some (u64 (value - addr), 4%nat)
  else if (type =? R_X86_64_32) || (type =? R_X86_64_32S) then Some (value, 4%nat)
  else if type =? R_X86_64_PC64 then Some (u64 (value - addr), 8%nat)
  else None.

(** One entry of a relocation section; [false]: of an unsupported type. *)
Definition relocate (root section_addr info symtab entsize : Z) (rela : Elf64_Rela) st : outcome (bool * vstate M K V) :=
  base ← load_u64 (vmem st) (section_addr + 8 * info);
  sv ← load_u64 (vmem st) (symtab + ELF64_R_SYM (r_info rela) * entsize + 8);
  let addr := u64 (base + r_offset rela) in
  match reloc_value (ELF64_R_TYPE (r_info rela)) (u64 (sv + r_addend rela)) addr with
  | None => Ok (false, st)
  | Some (value, reloc_size) => st ← virt_write root addr (take reloc_size (le64 value)) st; Ok (true, st)
  end.

(** The entries of a section, in an array at [entries]. *)
Fixpoint relocate_entries (n : nat) (j entries root section_addr info symtab entsize : Z) st : outcome (bool * vstate M K V) :=
  match n with
  | O => Ok (true, st)
  | S n =>
      raw ← kread (vmem st) (entries + j * sizeof_Rela) (Z.to_nat sizeof_Rela);
      '(ok, st) ← relocate root section_addr info symtab entsize (Rela_of raw) st;
      if (ok : bool) then relocate_entries n (j + 1) entries root section_addr info symtab entsize st else Ok (false, st)
  end.

(** [x / y] of unsigned integers. *)
Definition udiv (x y : Z) : outcome Z := if y =? 0 then Fault else Ok (x / y).

(** The relocation sections.  [frame] is where the stack holds the array of the
    entries. *)
Fixpoint relocate_sections (n : nat) (i shdr frame root section_addr symtab entsize : Z) st : outcome (bool * vstate M K V) :=
  match n with
  | O => Ok (true, st)
  | S n =>
      raw ← kread (vmem st) (shdr + i * sizeof_Shdr) (Z.to_nat sizeof_Shdr);
      let section := Shdr_of raw in
      if negb (sh_type section =? SHT_RELA) then relocate_sections n (i + 1) shdr frame root section_addr symtab entsize st
      else
        count ← udiv (sh_size section) (sh_entsize section);
        st ← read_into frame (sh_offset section) (sh_size section) st;
        '(ok, st) ← relocate_entries (Z.to_nat count) 0 frame root section_addr (sh_info section) symtab entsize st;
        if (ok : bool) then relocate_sections n (i + 1) shdr frame root section_addr symtab entsize st else Ok (false, st)
  end.

(** What the return frees of the buffers allocated so far, the last first. *)
Fixpoint cleanup (objs' : list Z) st : outcome (vstate M K V) :=
  match objs' with
  | [] => Ok st
  | o :: os => k ← obj_free o (objs st); cleanup os (set_objs k st)
  end.

Definition heap_object (size : Z) st : outcome (Z * vstate M K V) :=
  '(o, k) ← obj_alloc size (objs st); Ok (o, set_objs k st).

(** Symbols, modinfo and relocations, once both tables are in memory. *)
Definition link_module (fuel sfuel : nat) (ehdr : Elf64_Ehdr) (symtab_hdr : Elf64_Shdr) (shdr section_addr symtab strtab frame root : Z)
    (garbage : module_t) st : outcome (option module_t * vstate M K V) :=
  sym_count ← udiv (sh_size symtab_hdr) (sh_entsize symtab_hdr);
  '(module, st) ← resolve_symbols (Z.to_nat (sym_count - 1)) fuel sfuel 1 symtab (sh_entsize symtab_hdr) strtab section_addr garbage st;
  match module with
  | None => Ok (None, st)
  | Some module =>
      if (install module =? NULL) || (destroy module =? NULL) then Ok (None, st)
      else
        '(ok, st) ← relocate_sections (Z.to_nat (e_shnum ehdr)) 0 shdr frame root section_addr symtab (sh_entsize symtab_hdr) st;
        Ok (if (ok : bool) then Some module else None, st)
  end.

(** [garbage] is what the stack holds where the local [module] is. *)
Definition module_load (fuel sfuel : nat) (garbage : module_t) (frame : Z) (a : vmm_addr_space_t) st :
    outcome (option (Z * module_t) * vmm_addr_space_t * vstate M K V) :=
  '(status, bs, f) ← ops_read 0 sizeof_Ehdr (files st);
  let st := set_files f st in
  if (status <? 0) || negb (Z.of_nat (length bs) =? sizeof_Ehdr) then Ok (None, a, st)
  else
    let ehdr := Ehdr_of bs in
    if negb (elf_check_compatibility machine ehdr) then Ok (None, a, st)
    else if negb (e_type ehdr =? ET_REL) then Ok (None, a, st)
    else
      '(shdr, st) ← heap_object (e_shnum ehdr * sizeof_Shdr) st;
      '(section_addr, st) ← heap_object (e_shnum ehdr * 8) st;
      '(a, st) ← load_sections (Z.to_nat (e_shnum ehdr)) 0 ehdr shdr section_addr a st;
      hdr ← find_symtab (Z.to_nat (e_shnum ehdr)) 0 shdr NULL st;
      if hdr =? NULL then st ← cleanup [section_addr; shdr] st; Ok (None, a, st)
      else
        raw ← kread (vmem st) hdr (Z.to_nat sizeof_Shdr);
        let symtab_hdr := Shdr_of raw in
        '(symtab, st) ← heap_object (sh_size symtab_hdr) st;
        st ← read_into symtab (sh_offset symtab_hdr) (sh_size symtab_hdr) st;
        raw ← kread (vmem st) (shdr + sh_link symtab_hdr * sizeof_Shdr) (Z.to_nat sizeof_Shdr);
        let strtab_hdr := Shdr_of raw in
        '(strtab, st) ← heap_object (sh_size strtab_hdr) st;
        st ← read_into strtab (sh_offset strtab_hdr) (sh_size strtab_hdr) st;
        '(module, st) ← link_module fuel sfuel ehdr symtab_hdr shdr section_addr symtab strtab frame (ptm_map a) garbage st;
        match module with
        | None => st ← cleanup [strtab; symtab; section_addr; shdr] st; Ok (None, a, st)
        | Some module =>
            '(ret, st) ← heap_object sizeof_module st;
            st ← cleanup [strtab; symtab; section_addr; shdr] st;
            Ok (Some (ret, module), a, st)
        end.
End module.

(** ** Symbols *)

Definition set_value (s : Elf64_Sym) (v : Z) : Elf64_Sym := Sym (st_name s) (st_info s) (st_other s) (st_shndx s) v (st_size s).

(** What a symbol is linked to: the kernel's symbol of its name if it is
    undefined, itself if it is absolute or common, its section otherwise. *)
Definition link_symbol (lines : list (Z * list Z)) (sections : list Z) (s : Elf64_Sym) (x : list Z) : option Elf64_Sym :=
  if st_shndx s =? SHN_UNDEF then
    match lookup_symbol lines x with
    | Some v => if v =? 0 then None else Some (set_value s v)
    | None => None
    end
  else if (st_shndx s =? SHN_ABS) || (st_shndx s =? SHN_COMMON) then Some s
  else Some (set_value s (u64 (st_value s + nth (Z.to_nat (st_shndx s)) sections 0))).

Definition is_defined (s : Elf64_Sym) : bool :=
  negb ((st_shndx s =? SHN_UNDEF) || (st_shndx s =? SHN_ABS) || (st_shndx s =? SHN_COMMON)).

(** The symbols linked in order, with what they set in the module; [None] if one
    of them is not found. *)
Fixpoint link_symbols (lines : list (Z * list Z)) (sections : list Z) (syms : list (Elf64_Sym * list Z)) (m : module_t) :
    option (list Elf64_Sym * module_t) :=
  match syms with
  | [] => Some ([], m)
  | (s, x) :: syms =>
      s' ← link_symbol lines sections s x;
      '(l, m) ← link_symbols lines sections syms (if is_defined s then module_fetch_modinfo m x (st_value s') else m);
      Some (s' :: l, m)
  end.

Lemma Sym_bytes_set s v : Sym_bytes (set_value s v) = take 8 (Sym_bytes s) ++ le64 v ++ drop 16 (Sym_bytes s).
Proof. done. Qed.

Section symbols.
Context {M K V : Type} `{PageMap M} `{ObjectAllocator K} `{Files V} (HHDM : Z).
Context (ksym_data symtab strtab section_addr : Z) (lines : list (Z * list Z)) (out sections : list Z) (table : list (Elf64_Sym * list Z)).
Implicit Types st : vstate M K V.

(** Bytes outside the symbol table. *)
Definition clear_of_table (p : Z) (n : nat) : Prop := p + Z.of_nat n <= symtab \/ symtab + 24 * (1 + Z.of_nat (length table)) <= p.

(** Where everything is: the kernel's symbols, the addresses of the sections and
    the names, away from the symbol table (which begins with the null symbol). *)
Record link_layout : Prop := {
  ll_table : HHDM <= symtab;
  ll_dump : dump lines = Ok out /\ Forall line_ok lines /\ clear_of_table ksym_data (length out);
  ll_sections : Forall (uint 8) sections /\ clear_of_table section_addr (8 * length sections);
  ll_syms : forall s x, (s, x) ∈ table -> Sym_ok s /\ Z.of_nat (length x) < NAME_LEN /\
    clear_of_table (strtab + st_name s) (length x + 1) /\ (is_defined s = true -> st_shndx s < Z.of_nat (length sections))
}.

Record link_memory (m : mem) : Prop := {
  lm_dump : bytes_at m ksym_data out;
  lm_sections : bytes_at m section_addr (concat (le64 <$> sections));
  lm_names : forall s x, (s, x) ∈ table -> cstr m (strtab + st_name s) x
}.

Lemma link_memory_agree m m' : link_layout -> (forall x, ~ symtab <= x < symtab + 24 * (1 + Z.of_nat (length table)) -> m' !! x = m !! x) ->
  link_memory m -> link_memory m'.
Proof.
  intros [Ht (_ & _ & Hd) [_ Hs] Hx] Hm [Ld Ls Ln]. unfold clear_of_table in *.
  split; [by eapply bytes_at_agree| |].
  - eapply bytes_at_agree; [done| |done]. by rewrite (concat_length _ 8) by done.
  - intros s x Hin. destruct (Ln s x Hin) as [Hb Hnz]. destruct (Hx s x Hin) as (_ & _ & Hc & _). split; [|done].
    eapply bytes_at_agree; [done| |done]. by rewrite length_app.
Qed.

Lemma load_section m i x : link_memory m -> Forall (uint 8) sections -> sections !! i = Some x ->
  load_u64 m (section_addr + 8 * Z.of_nat i) = Ok x.
Proof.
  intros Hm Hu Hi. unfold load_u64. pose proof (bytes_at_slice _ _ _ (8 * i) 8 (lm_sections _ Hm)) as Hb.
  rewrite (concat_lookup le64 8 sections i x) in Hb by done. replace (section_addr + 8 * Z.of_nat i) with (section_addr + Z.of_nat (8 * i)) by lia.
  rewrite (kread_ok _ _ (le64 x) Hb : kread m (section_addr + Z.of_nat (8 * i)) 8 = _). go. f_equal.
  apply (uint_value 8). by eapply Forall_lookup_1.
Qed.

(** One symbol's value replaced in memory. *)
Lemma kwrite_value st p s v : HHDM <= p -> bytes_at (vmem st) p (Sym_bytes s) ->
  exists st', kwrite HHDM (p + 8) (le64 v) st = Ok st' /\ bytes_at (vmem st') p (Sym_bytes (set_value s v)) /\
    (forall x, ~ p <= x < p + 24 -> vmem st' !! x = vmem st !! x) /\ vm st' = vm st /\ objs st' = objs st /\ files st' = files st.
Proof.
  intros Hp Hb. exists (set_vmem (write_bytes (vmem st) (p + 8) (le64 v)) st). split; [|split; [|split; [|done]]].
  - unfold kwrite. change (le64 v) with (v mod 256 :: le_bytes 7 (v / 256)). by rewrite (proj2 (Z.ltb_ge _ _)) by lia.
  - rewrite Sym_bytes_set. pose proof (bytes_at_slice _ _ _ 0 8 Hb) as H8. pose proof (bytes_at_slice _ _ _ 16 8 Hb) as H16.
    rewrite Z.add_0_r in H8. cbn [vmem set_vmem]. apply bytes_at_app. split; [|apply bytes_at_app; split].
    + intros i b Hi. pose proof (lookup_lt_Some _ _ _ Hi) as Hl. change (i < 8)%nat in Hl. rewrite write_bytes_out by lia. by apply H8.
    + change (Z.of_nat (length (take 8 (Sym_bytes s)))) with 8. apply write_bytes_at.
    + change (Z.of_nat (length (take 8 (Sym_bytes s)))) with 8. change (Z.of_nat (length (le64 v))) with 8.
      intros i b Hi. pose proof (lookup_lt_Some _ _ _ Hi) as Hl. change (i < 8)%nat in Hl.
      rewrite write_bytes_out by (change (Z.of_nat (length (le64 v))) with 8; lia).
      replace (p + 8 + 8 + Z.of_nat i) with (p + Z.of_nat 16 + Z.of_nat i) by lia. by apply H16.
  - intros x Hx. apply write_bytes_out. change (Z.of_nat (length (le64 v))) with 8. lia.
Qed.

Definition others st st' (lo hi : Z) : Prop :=
  (forall x, ~ lo <= x < hi -> vmem st' !! x = vmem st !! x) /\ vm st' = vm st /\ objs st' = objs st /\ files st' = files st.

Lemma others_refl st lo hi : others st st lo hi.
Proof. done. Qed.

Lemma others_trans st1 st2 st3 lo hi lo1 hi1 lo2 hi2 : lo <= lo1 -> hi1 <= hi -> lo <= lo2 -> hi2 <= hi ->
  others st1 st2 lo1 hi1 -> others st2 st3 lo2 hi2 -> others st1 st3 lo hi.
Proof.
  intros ???? (Hm & Hv & Ho & Hf) (Hm' & Hv' & Ho' & Hf'). split; [|by rewrite Hv', Ho', Hf'].
  intros x Hx. rewrite Hm' by lia. apply Hm. lia.
Qed.

Lemma resolve_step n fuel sfuel i s x m0 st : link_layout -> link_memory (vmem st) -> (s, x) ∈ table -> 1 <= i ->
  (length lines < fuel)%nat -> (Z.to_nat NAME_LEN <= sfuel)%nat -> bytes_at (vmem st) (symtab + i * 24) (Sym_bytes s) ->
  i <= Z.of_nat (length table) ->
  let run n := resolve_symbols HHDM ksym_data (Z.of_nat (length out)) n fuel sfuel in
  exists st', others st st' (symtab + i * 24) (symtab + i * 24 + 24) /\
  match link_symbol lines sections s x with
  | None => run (S n) i symtab 24 strtab section_addr m0 st = Ok (None, st')
  | Some s' => bytes_at (vmem st') (symtab + i * 24) (Sym_bytes s') /\
      run (S n) i symtab 24 strtab section_addr m0 st =
      run n (i + 1) symtab 24 strtab section_addr (if is_defined s then module_fetch_modinfo m0 x (st_value s') else m0) st'
  end.
Proof.
  intros HL Hm Hin Hi Hf Hsf Hb Hit run. destruct (ll_syms HL s x Hin) as (Hok & Hlen & Hclr & Hdef).
  pose proof (lm_names _ Hm s x Hin) as Hx. pose proof (ll_table HL) as Ht. destruct (ll_dump HL) as (Hd & Hlok & _).
  unfold run. cbn [resolve_symbols]. change (Z.to_nat sizeof_Sym) with 24%nat.
  rewrite (kread_ok _ _ (Sym_bytes s) Hb : kread (vmem st) _ 24 = _). go. rewrite (Sym_roundtrip s Hok).
  unfold link_symbol, is_defined. destruct (Z.eqb_spec (st_shndx s) SHN_UNDEF) as [_|Hu].
  - unfold ksym_resolve_symbol. rewrite (resolve_from lines out _ _ _ _ _ _ x) by (done || apply Hm || unfold NAME_LEN in *; lia). go.
    destruct (kwrite_value st (symtab + i * 24) s (default 0 (lookup_symbol lines x))) as (st' & E & Hb' & Hst'); [lia|done|].
    exists st'. split; [done|]. run E. destruct (lookup_symbol lines x) as [v|]; simpl; [|done].
    by destruct (Z.eqb_spec v 0).
  - destruct (Z.eqb_spec (st_shndx s) SHN_ABS) as [_|Ha]; [by exists st|].
    destruct (Z.eqb_spec (st_shndx s) SHN_COMMON) as [_|Hc]; [by exists st|]. simpl orb. cbn iota.
    assert (st_shndx s < Z.of_nat (length sections)) as Hlt.
    { apply Hdef. unfold is_defined. by rewrite !(proj2 (Z.eqb_neq _ _)). }
    assert (0 <= st_shndx s) as Hge by (destruct Hok as (_ & _ & _ & [? _] & _); done).
    destruct (lookup_lt_is_Some_2 sections (Z.to_nat (st_shndx s)) ltac:(lia)) as [b Hbs].
    pose proof (load_section _ _ _ Hm (proj1 (ll_sections HL)) Hbs) as El. rewrite Z2Nat.id in El by done. run El.
    rewrite (nth_lookup_Some _ _ _ _ Hbs).
    destruct (kwrite_value st (symtab + i * 24) s (u64 (st_value s + b))) as (st' & E & Hb' & Hst'); [lia|done|].
    exists st'. split; [done|]. run E. rewrite (read_cstr_ok _ _ x); [done| |lia]. apply (link_memory_agree (vmem st)); [done| |done|done].
    intros y Hy. apply Hst'. lia.
Qed.

(** The loop from symbol [i] on. *)
Lemma resolve_ok fuel sfuel : link_layout -> (length lines < fuel)%nat -> (Z.to_nat NAME_LEN <= sfuel)%nat -> forall rest pre i st m0,
  table = pre ++ rest -> i = 1 + Z.of_nat (length pre) -> link_memory (vmem st) ->
  bytes_at (vmem st) (symtab + i * 24) (concat (Sym_bytes <$> rest.*1)) ->
  exists st', others st st' (symtab + i * 24) (symtab + 24 * (1 + Z.of_nat (length table))) /\
  match link_symbols lines sections rest m0 with
  | None => resolve_symbols HHDM ksym_data (Z.of_nat (length out)) (length rest) fuel sfuel i symtab 24 strtab section_addr m0 st = Ok (None, st')
  | Some (l, m) => bytes_at (vmem st') (symtab + i * 24) (concat (Sym_bytes <$> l)) /\
      resolve_symbols HHDM ksym_data (Z.of_nat (length out)) (length rest) fuel sfuel i symtab 24 strtab section_addr m0 st = Ok (Some m, st')
  end.
Proof.
  intros HL Hf Hsf. induction rest as [|[s x] rest IH]; intros pre i st m0 Ht Hi Hm Hb.
  - exists st. split; [apply others_refl|]. split; [|done]. apply bytes_at_nil.
  - rewrite fmap_cons, fmap_cons in Hb. cbn [concat] in Hb. apply bytes_at_app in Hb as [Hs Hb]. rewrite Sym_length in Hb.
    assert (Hlen : Z.of_nat (length table) = Z.of_nat (length pre) + 1 + Z.of_nat (length rest)) by (rewrite Ht, length_app; simpl; lia).
    destruct (resolve_step (length rest) fuel sfuel i s x m0 st HL Hm) as (st1 & Hst1 & Hstep); try done; try lia.
    { rewrite Ht. set_solver. }
    cbn [length link_symbols]. destruct (link_symbol lines sections s x) as [s'|]; cbn [mbind option_bind].
    2: { exists st1. split; [|done]. destruct Hst1 as [Ho ?]. split; [|done]. intros y Hy. apply Ho. lia. }
    destruct Hstep as [Hs' ->].
    destruct (IH (pre ++ [(s, x)]) (i + 1) st1 (if is_defined s then module_fetch_modinfo m0 x (st_value s') else m0)) as (st2 & Hst2 & H2).
    + by rewrite <- app_assoc.
    + rewrite length_app. simpl. lia.
    + apply (link_memory_agree (vmem st)); [done| |done]. intros y Hy. apply Hst1. lia.
    + eapply bytes_at_agree; [apply Hst1|right; lia|]. by replace (symtab + (i + 1) * 24) with (symtab + i * 24 + Z.of_nat 24) by lia.
    + exists st2. split; [eapply others_trans; [..|exact Hst1|exact Hst2]; lia|].
      destruct (link_symbols lines sections rest _) as [[l m]|]; cbn [mbind option_bind]; [|done].
      destruct H2 as [Hl ->]. split; [|done]. rewrite fmap_cons. cbn [concat]. apply bytes_at_app. rewrite Sym_length. split.
      * eapply bytes_at_agree; [apply Hst2| |done]. rewrite Sym_length. lia.
      * by replace (symtab + i * 24 + Z.of_nat 24) with (symtab + (i + 1) * 24) by lia.
Qed.
End symbols.

(** ** Relocations *)

Section relocations.
Context {M K V : Type} `{PageMap M} `{ObjectAllocator K} `{Files V} (HHDM : Z).
Context (root : Z).
Implicit Types st : vstate M K V.

(** Where the kernel's memory holds the byte of a virtual address, and the
    byte. *)
Definition kphys st (v : Z) : option Z :=
  match pm_virt_to_phys root v (vm st) with
  | Ok p => if p =? BAD_ADDRESS then None else Some (u64 (p + HHDM))
  | _ => None
  end.

Definition kcell st (v : Z) : option Z := x ← kphys st v; vmem st !! x.

(** The bytes at a virtual address. *)
Definition kcells_at st (v : Z) (bs : list Z) : Prop := forall i b, bs !! i = Some b -> kcell st (v + Z.of_nat i) = Some b.

(** Memory of the sections: the virtual addresses [lo] to [hi] are mapped, no two
    to the same byte, and to none of [tables]. *)
Record window st (lo hi : Z) (tables : Z -> Prop) : Prop := {
  win_range : 0 <= lo /\ hi < 2 ^ 64;
  win_mapped : forall v, lo <= v < hi -> exists x, kphys st v = Some x /\ HHDM <= x /\ ~ tables x;
  win_inj : forall v w x, lo <= v < hi -> lo <= w < hi -> kphys st v = Some x -> kphys st w = Some x -> v = w
}.

Lemma kphys_vm st st' v : vm st' = vm st -> kphys st' v = kphys st v.
Proof. intros E. unfold kphys. by rewrite E. Qed.

Lemma window_vm st st' lo hi tables : vm st' = vm st -> window st lo hi tables -> window st' lo hi tables.
Proof.
  intros E [Hr Hm Hi]. split; [done| |].
  - intros v Hv. rewrite (kphys_vm st) by done. by apply Hm.
  - intros v w x. rewrite !(kphys_vm st st') by done. apply Hi.
Qed.

(** What a write to the window leaves alone. *)
Definition wrote st st' (lo hi : Z) (tables : Z -> Prop) (v n : Z) : Prop :=
  vm st' = vm st /\ objs st' = objs st /\ files st' = files st /\ (forall x, tables x -> vmem st' !! x = vmem st !! x) /\
  (forall w, lo <= w < hi -> ~ v <= w < v + n -> kcell st' w = kcell st w).

Lemma wrote_refl st lo hi tables v : wrote st st lo hi tables v 0.
Proof. done. Qed.

Lemma wrote_trans st1 st2 st3 lo hi tables v n v' n' b e : wrote st1 st2 lo hi tables v n -> wrote st2 st3 lo hi tables v' n' ->
  b <= v -> v + n <= e -> b <= v' -> v' + n' <= e -> wrote st1 st3 lo hi tables b (e - b).
Proof.
  intros (Hv & Ho & Hf & Ht & Hk) (Hv' & Ho' & Hf' & Ht' & Hk') ????. unfold wrote. rewrite Hv', Ho', Hf'. repeat split; try done.
  - intros x Hx. rewrite Ht' by done. by apply Ht.
  - intros w Hw Hn. rewrite Hk' by lia. apply Hk; lia.
Qed.

Lemma store_byte st lo hi tables v b : window st lo hi tables -> lo <= v < hi ->
  exists st', virt_write HHDM root v [b] st = Ok st' /\ kcell st' v = Some b /\ wrote st st' lo hi tables v 1.
Proof.
  intros [Hr Hm Hi] Hv. destruct (Hm v Hv) as (x & Hx & Hge & Hnt). pose proof Hx as Ex. unfold kphys in Ex.
  destruct (pm_virt_to_phys root v (vm st)) as [p| | |] eqn:Ep; try done. destruct (Z.eqb_spec p BAD_ADDRESS) as [|Hp]; [done|]. injection Ex as Ex.
  exists (set_vmem (write_bytes (vmem st) x [b]) st). split; [|split; [|split; [done|split; [done|split; [done|split]]]]].
  - cbn [virt_write]. run Ep. rewrite (proj2 (Z.eqb_neq _ _) Hp), Ex. unfold kwrite. by rewrite (proj2 (Z.ltb_ge _ _)) by lia.
  - unfold kcell. rewrite (kphys_vm st), Hx by done. cbn [mbind option_bind vmem set_vmem write_bytes]. apply lookup_insert_eq.
  - intros y Hy. cbn [vmem set_vmem write_bytes]. apply lookup_insert_ne. congruence.
  - intros w Hw Hne. unfold kcell. rewrite (kphys_vm st) by done. destruct (kphys st w) as [y|] eqn:Ey; [|done].
    cbn [mbind option_bind vmem set_vmem write_bytes]. apply lookup_insert_ne. intros ->. assert (v = w) by (eapply Hi; done). lia.
Qed.

Lemma virt_write_ok lo hi tables bs : forall v st, window st lo hi tables -> lo <= v -> v + Z.of_nat (length bs) <= hi ->
  exists st', virt_write HHDM root v bs st = Ok st' /\ kcells_at st' v bs /\ wrote st st' lo hi tables v (Z.of_nat (length bs)).
Proof.
  induction bs as [|b bs IH]; intros v st Hw Hlo Hhi.
  - exists st. split; [done|]. split; [done|]. apply wrote_refl.
  - simpl length in Hhi. destruct (store_byte st lo hi tables v b Hw) as (st1 & E1 & Hb & Hw1); [lia|].
    destruct (IH (v + 1) st1) as (st2 & E2 & Hbs & Hw2); [by apply (window_vm st), Hw; apply Hw1|lia|lia|].
    exists st2. split; [|split].
    + cbn [virt_write] in *. destruct (pm_virt_to_phys root v (vm st)) as [p| | |]; try discriminate E1. go. go. cbn [mbind outcome_bind] in E1.
      destruct (p =? BAD_ADDRESS); [discriminate E1|]. destruct (kwrite HHDM _ [b] st) as [st0| | |]; try discriminate E1.
      injection E1 as ->. go. rewrite u64_small by (destruct Hw as [[? ?] _ _]; lia). done.
    + intros [|i] c Hi; simpl in Hi.
      * injection Hi as <-. rewrite Z.add_0_r. rewrite <- Hb. apply Hw2; lia.
      * apply Hbs in Hi. by replace (v + Z.of_nat (S i)) with (v + 1 + Z.of_nat i) by lia.
    + replace (Z.of_nat (length (b :: bs))) with (v + Z.of_nat (length (b :: bs)) - v) by lia.
      eapply wrote_trans; [exact Hw1|exact Hw2|simpl length; lia..].
Qed.

Context (entries section_addr info symtab base : Z) (sval : Z -> Z).

Definition place (r : Elf64_Rela) : Z := base + r_offset r.

(** The bytes a relocation writes. *)
Definition reloc_bytes (r : Elf64_Rela) : option (list Z) :=
  '(v, n) ← reloc_value (ELF64_R_TYPE (r_info r)) (u64 (sval (ELF64_R_SYM (r_info r)) + r_addend r)) (place r); Some (take n (le64 v)).

Lemma reloc_bytes_length r bs : reloc_bytes r = Some bs -> length bs = 4%nat \/ length bs = 8%nat.
Proof.
  unfold reloc_bytes, reloc_value. intros E. repeat case_match; simplify_eq/=; (by left) || (by right).
Qed.

(** The tables the relocations are read from. *)
Record reloc_memory (rs : list Elf64_Rela) (m : mem) : Prop := {
  rm_entries : bytes_at m entries (concat (Rela_bytes <$> rs));
  rm_base : bytes_at m (section_addr + 8 * info) (le64 base);
  rm_syms : forall r, r ∈ rs -> bytes_at m (symtab + ELF64_R_SYM (r_info r) * 24 + 8) (le64 (sval (ELF64_R_SYM (r_info r))))
}.

Definition covers (tables : Z -> Prop) (p : Z) (n : nat) : Prop := forall x, p <= x < p + Z.of_nat n -> tables x.

Record reloc_layout (rs : list Elf64_Rela) (lo hi : Z) (tables : Z -> Prop) : Prop := {
  rl_entries : covers tables entries (24 * length rs);
  rl_base : uint 8 base /\ covers tables (section_addr + 8 * info) 8;
  rl_syms : forall r, r ∈ rs -> covers tables (symtab + ELF64_R_SYM (r_info r) * 24 + 8) 8 /\ uint 8 (sval (ELF64_R_SYM (r_info r)));
  rl_places : forall r, r ∈ rs -> Rela_ok r /\ exists bs, reloc_bytes r = Some bs /\ lo <= place r /\ place r + Z.of_nat (length bs) <= hi
}.

Lemma covers_agree m m' (tables : Z -> Prop) p bs : (forall x, tables x -> m' !! x = m !! x) -> covers tables p (length bs) ->
  bytes_at m p bs -> bytes_at m' p bs.
Proof. intros Hm Hc Hb i b Hi. pose proof (lookup_lt_Some _ _ _ Hi). rewrite Hm by (apply Hc; lia). by apply Hb. Qed.

Lemma reloc_memory_agree rs lo hi tables m m' : reloc_layout rs lo hi tables -> (forall x, tables x -> m' !! x = m !! x) ->
  reloc_memory rs m -> reloc_memory rs m'.
Proof.
  intros [Le [_ Lb] Ls _] Hm [Me Mb Ms]. split.
  - eapply covers_agree; [done| |done]. by rewrite (concat_length _ 24) by done.
  - by eapply covers_agree.
  - intros r Hr. eapply covers_agree; [done| |by apply Ms]. by apply Ls.
Qed.

Lemma load_u64_ok m p v : uint 8 v -> bytes_at m p (le64 v) -> load_u64 m p = Ok v.
Proof. intros Hv Hb. unfold load_u64. rewrite (kread_ok _ _ (le64 v) Hb : kread m p 8 = _). go. f_equal. by apply (uint_value 8). Qed.

Lemma relocate_ok rs lo hi tables r bs st : reloc_layout rs lo hi tables -> reloc_memory rs (vmem st) -> window st lo hi tables -> r ∈ rs ->
  reloc_bytes r = Some bs ->
  exists st', relocate HHDM root section_addr info symtab 24 r st = Ok (true, st') /\ kcells_at st' (place r) bs /\
    wrote st st' lo hi tables (place r) (Z.of_nat (length bs)).
Proof.
  intros HL HM HW Hr Hbs. destruct (rl_places _ _ _ _ HL r Hr) as (_ & bs' & Hbs' & Hlo & Hhi). rewrite Hbs in Hbs'. injection Hbs' as <-.
  destruct (virt_write_ok lo hi tables bs (place r) st HW Hlo Hhi) as (st' & E & Hk & Hwr). exists st'. split; [|done].
  unfold relocate. rewrite (load_u64_ok _ (section_addr + 8 * info) base (proj1 (rl_base _ _ _ _ HL)) (rm_base _ _ HM)). go.
  rewrite (load_u64_ok _ _ _ (proj2 (rl_syms _ _ _ _ HL r Hr)) (rm_syms _ _ HM r Hr)). go.
  assert (u64 (base + r_offset r) = place r) as -> by (apply u64_small; destruct HW as [[? ?] _ _]; lia).
  unfold reloc_bytes in Hbs. destruct (reloc_value _ _ _) as [[v n]|]; [|done]. injection Hbs as <-. by run E.
Qed.

(** No two relocations write the same byte. *)
Definition apart (r r' : Elf64_Rela) : Prop := forall bs bs', reloc_bytes r = Some bs -> reloc_bytes r' = Some bs' ->
  place r + Z.of_nat (length bs) <= place r' \/ place r' + Z.of_nat (length bs') <= place r.

(** Addresses no relocation of [rs] writes. *)
Definition untouched (rs : list Elf64_Rela) (w : Z) : Prop := forall r bs, r ∈ rs -> reloc_bytes r = Some bs -> ~ place r <= w < place r + Z.of_nat (length bs).

Lemma ford_pairs_cons {A} (R : A -> A -> Prop) x l : ForallOrdPairs R (x :: l) -> Forall (R x) l /\ ForallOrdPairs R l.
Proof. by inversion 1. Qed.

Lemma relocate_entries_ok rs lo hi tables : reloc_layout rs lo hi tables -> forall rest pre st j,
  rs = pre ++ rest -> j = Z.of_nat (length pre) -> ForallOrdPairs apart rest -> reloc_memory rs (vmem st) -> window st lo hi tables ->
  exists st', relocate_entries HHDM (length rest) j entries root section_addr info symtab 24 st = Ok (true, st') /\
    (forall r bs, r ∈ rest -> reloc_bytes r = Some bs -> kcells_at st' (place r) bs) /\
    vm st' = vm st /\ objs st' = objs st /\ files st' = files st /\ (forall x, tables x -> vmem st' !! x = vmem st !! x) /\
    (forall w, lo <= w < hi -> untouched rest w -> kcell st' w = kcell st w).
Proof.
  intros HL. induction rest as [|r rest IH]; intros pre st j Hrs Hj Hap HM HW.
  { exists st. split; [done|]. split; [|done]. intros r bs Hr. by apply not_elem_of_nil in Hr. }
  destruct (ford_pairs_cons _ _ _ Hap) as [Hr Hap']. clear Hap. assert (Hin : r ∈ rs) by (rewrite Hrs; set_solver).
  destruct (rl_places _ _ _ _ HL r Hin) as (Hok & bs & Hbs & Hlo & Hhi).
  destruct (relocate_ok rs lo hi tables r bs st HL HM HW Hin Hbs) as (st1 & E1 & Hk1 & Hv1 & Ho1 & Hf1 & Ht1 & Hw1).
  destruct (IH (pre ++ [r]) st1 (j + 1)) as (st2 & E2 & Hk2 & Hv2 & Ho2 & Hf2 & Ht2 & Hw2).
  { by rewrite <- app_assoc. } { rewrite length_app; simpl; lia. } { exact Hap'. } { by eapply reloc_memory_agree. } { by apply (window_vm st). }
  exists st2. split; [|split; [|split; [congruence|split; [congruence|split; [congruence|split]]]]].
  - cbn [relocate_entries length]. change (Z.to_nat sizeof_Rela) with 24%nat.
    pose proof (bytes_at_slice _ _ _ (24 * length pre) 24 (rm_entries _ _ HM)) as Hb.
    rewrite (concat_lookup Rela_bytes 24 rs (length pre) r) in Hb by (done || rewrite Hrs; by rewrite list_lookup_middle).
    replace (entries + j * sizeof_Rela) with (entries + Z.of_nat (24 * length pre)) by (unfold sizeof_Rela; lia).
    rewrite (kread_ok _ _ (Rela_bytes r) Hb : kread (vmem st) _ 24 = _). go. rewrite (Rela_roundtrip r Hok). by run E1.
  - intros r' bs' [->|Hr']%elem_of_cons Hbs'; [|by apply Hk2]. rewrite Hbs in Hbs'. injection Hbs' as <-.
    intros i b Hi. pose proof (lookup_lt_Some _ _ _ Hi) as Hl. rewrite Hw2; [by apply Hk1|lia|].
    intros r' bs' Hr' Hbs' Hin'. rewrite Forall_forall in Hr. destruct (Hr r' Hr' bs bs' Hbs Hbs'); lia.
  - intros x Hx. by rewrite Ht2, Ht1.
  - intros w Hw Hun. rewrite Hw2; [apply Hw1; [done|]|done|].
    + apply (Hun r bs); [set_solver|done].
    + intros r' bs' Hr'. apply Hun. set_solver.
Qed.
End relocations.

(** ** What relocated code computes *)

(** The operand an instruction or a datum at [P] takes from the bytes stored
    there, by the type of the relocation. *)
Definition operand (type P : Z) (bs : list Z) : Z :=
  if type =? R_X86_64_64 then le_value bs
  else if (type =? R_X86_64_PC32) || (type =? R_X86_64_PLT32) then u64 (P + i32 (le_value bs))
  else if type =? R_X86_64_32 then le_value bs
  else if type =? R_X86_64_32S then u64 (i32 (le_value bs))
  else u64 (P + le_value bs).

(** The values that fit the field of a relocation at [P]. *)
Definition in_reach (type P x : Z) : Prop :=
  if (type =? R_X86_64_PC32) || (type =? R_X86_64_PLT32) then - 2 ^ 31 <= i64 (x - P) < 2 ^ 31
  else if type =? R_X86_64_32 then 0 <= u64 x < 2 ^ 32
  else if type =? R_X86_64_32S then - 2 ^ 31 <= i64 x < 2 ^ 31
  else True.

Lemma u64_i64 y : u64 (i64 y) = u64 y.
Proof. unfold u64, i64. rewrite Zminus_mod_idemp_l. f_equal. lia. Qed.

Lemma i32_low y : - 2 ^ 31 <= i64 y < 2 ^ 31 -> i32 (u64 y mod 2 ^ 32) = i64 y.
Proof.
  intros Hy. rewrite <- u64_i64. unfold u64.
  assert (((i64 y) mod 2 ^ 64) mod 2 ^ 32 = i64 y mod 2 ^ 32) as ->.
  { rewrite <- Znumtheory.Zmod_div_mod; [done|lia|lia|]. by exists (2 ^ 32). }
  unfold i32. rewrite Zplus_mod_idemp_l, Z.mod_small by lia. lia.
Qed.

Lemma le_value_low v : le_value (take 4 (le64 v)) = v mod 2 ^ 32 /\ le_value (take 8 (le64 v)) = u64 v.
Proof. split; [exact (le_bytes_value 4 v)|exact (le_bytes_value 8 v)]. Qed.

Lemma u64_add_l x y : u64 (u64 x + y) = u64 (x + y).
Proof. apply Zplus_mod_idemp_l. Qed.

Lemma u64_add_r x y : u64 (x + u64 y) = u64 (x + y).
Proof. apply Zplus_mod_idemp_r. Qed.

(** A relocation whose value fits makes the place refer to symbol plus addend. *)
Lemma operand_ok base sval r bs : let x := sval (ELF64_R_SYM (r_info r)) + r_addend r in
  reloc_bytes base sval r = Some bs -> in_reach (ELF64_R_TYPE (r_info r)) (place base r) x ->
  operand (ELF64_R_TYPE (r_info r)) (place base r) bs = u64 x.
Proof.
  intros x. unfold reloc_bytes, reloc_value, in_reach, operand. fold x. generalize (ELF64_R_TYPE (r_info r)) (place base r). intros t P.
  destruct (t =? R_X86_64_64) eqn:E1.
  { intros E _. cbn [mbind option_bind] in E; apply (inj Some) in E as <-. rewrite (proj2 (le_value_low _)). apply u64_idemp. }
  destruct ((t =? R_X86_64_PC32) || (t =? R_X86_64_PLT32)) eqn:E2.
  { intros E Hr. cbn [mbind option_bind] in E; apply (inj Some) in E as <-. rewrite (proj1 (le_value_low _)). unfold Z.sub. rewrite u64_add_l.
    rewrite i32_low by done. rewrite <- u64_add_r, u64_i64, u64_add_r. f_equal. lia. }
  destruct (Z.eqb_spec t R_X86_64_32) as [E3|E3]; simpl orb; cbn iota.
  { intros E Hr. cbn [mbind option_bind] in E; apply (inj Some) in E as <-. rewrite (proj1 (le_value_low _)). by apply Z.mod_small. }
  destruct (Z.eqb_spec t R_X86_64_32S) as [E4|E4]; cbn iota.
  { intros E Hr. cbn [mbind option_bind] in E; apply (inj Some) in E as <-. rewrite (proj1 (le_value_low _)), i32_low by done. apply u64_i64. }
  destruct (t =? R_X86_64_PC64); [|done]. intros E _. cbn [mbind option_bind] in E; apply (inj Some) in E as <-. rewrite (proj2 (le_value_low _)).
  rewrite u64_idemp. unfold Z.sub. rewrite u64_add_l, u64_add_r. f_equal. lia.
Qed.

(** ** Properties *)

(** C18: the symbols of a module are linked.  With the symbol table, the names, the
    addresses of the sections and the table of kernel symbols in memory as the
    build tool and the linker lay them out, the loop over the symbols replaces the
    value of every symbol of the table by what [link_symbol] says and collects the
    module's entry points from the defined ones, or gives up exactly when an
    undefined symbol is not one of the kernel's; nothing but the symbol table is
    written, and the fuel is enough. *)
Theorem module_symbols_linked {M K V : Type} `{PageMap M} `{ObjectAllocator K} `{Files V} (HHDM : Z)
    ksym_data symtab strtab section_addr lines out sections table fuel sfuel garbage (st : vstate M K V) :
  link_layout HHDM ksym_data symtab strtab section_addr lines out sections table ->
  link_memory ksym_data strtab section_addr out sections table (vmem st) ->
  bytes_at (vmem st) (symtab + 24) (concat (Sym_bytes <$> table.*1)) ->
  (length lines < fuel)%nat -> (Z.to_nat NAME_LEN <= sfuel)%nat ->
  exists st', vm st' = vm st /\ objs st' = objs st /\ files st' = files st /\
    (forall x, ~ symtab + 24 <= x < symtab + 24 * (1 + Z.of_nat (length table)) -> vmem st' !! x = vmem st !! x) /\
    match link_symbols lines sections table garbage with
    | None =>
        resolve_symbols HHDM ksym_data (Z.of_nat (length out)) (length table) fuel sfuel 1 symtab sizeof_Sym strtab section_addr garbage st = Ok (None, st')
    | Some (linked, m) => bytes_at (vmem st') (symtab + 24) (concat (Sym_bytes <$> linked)) /\
        resolve_symbols HHDM ksym_data (Z.of_nat (length out)) (length table) fuel sfuel 1 symtab sizeof_Sym strtab section_addr garbage st = Ok (Some m, st')
    end.
Proof.
  intros HL HM Hb Hf Hsf. destruct (resolve_ok HHDM _ _ _ _ _ _ _ _ fuel sfuel HL Hf Hsf table [] 1 st garbage) as (st' & (Hm & Hv & Ho & Hfl) & Hr);
    [done|done|done|done|]. by exists st'.
Qed.


(** Files that are not relocatable objects for this machine are refused before
    anything is allocated. *)
Lemma module_load_rejects {M K V : Type} `{PageMap M} `{ObjectAllocator K} `{Files V} (HHDM : Z) ops_read machine ksym_data ksym_size
    fuel sfuel garbage frame a (st : vstate M K V) status bs f :
  ops_read 0 sizeof_Ehdr (files st) = Ok (status, bs, f) ->
  status < 0 \/ Z.of_nat (length bs) <> sizeof_Ehdr \/ elf_check_compatibility machine (Ehdr_of bs) = false \/ e_type (Ehdr_of bs) <> ET_REL ->
  module_load HHDM ops_read machine ksym_data ksym_size fuel sfuel garbage frame a st = Ok (None, a, set_files f st).
Proof.
  intros E Hbad. unfold module_load. run E. destruct (Z.ltb_spec status 0); [done|].
  destruct (Z.eqb_spec (Z.of_nat (length bs)) sizeof_Ehdr); [|done]. cbn [orb negb].
  destruct (elf_check_compatibility machine (Ehdr_of bs)) eqn:Hc; [|done]. cbn [negb].
  destruct (Z.eqb_spec (e_type (Ehdr_of bs)) ET_REL); [|done]. exfalso. destruct Hbad as [?|[?|[?|?]]]; (lia || congruence).
Qed.

(** The local [module] is not initialised: with no symbol that sets them, the
    check of [install] and [destroy] looks at what the stack held. *)
Lemma module_uninitialised lines sections garbage syms :
  Forall (fun s => is_defined s.1 = false) syms -> forall l m, link_symbols lines sections syms garbage = Some (l, m) -> m = garbage.
Proof.
  induction 1 as [|[s x] syms Hs _ IH]; intros l m E; simpl in E; [congruence|]. simpl in Hs. rewrite Hs in E.
  destruct (link_symbol lines sections s x) as [s'|]; [|done]. simpl in E.
  destruct (link_symbols lines sections syms garbage) as [[l' m']|]; [|done]. simpl in E. injection E as <- <-. by eapply IH.
Qed.

(** A call over more than 2 GiB is truncated without an error. *)
Lemma reloc_truncates :
  let type := R_X86_64_PLT32 in let P := 0xFFFF900000000000 in let S := 0xFFFFFFFF80001000 in
  exists v n, reloc_value type S P = Some (v, n) /\ operand type P (take n (le64 v)) <> S.
Proof. eexists _, _. split; [reflexivity|]. vm_compute. discriminate. Qed.

(** ** Concrete instances *)

(** Two symbols after the null one: an undefined one, [b] of Ksym.v, and the
    entry point in section 1. *)
Definition ex_syms : list (Elf64_Sym * list Z) := [(Sym 1 0 0 0 0 0, [98]); (Sym 3 0 0 1 0x10 0, INSTALL)].
Definition ex_sections : list Z := [0; 0xFFFF900000000000].
Definition ex_tab : Z := 2 ^ 63 + 0x1000.
Definition ex_str : Z := 2 ^ 63 + 0x2000.
Definition ex_sec : Z := 2 ^ 63 + 0x3000.
Definition ex_ksyms : Z := 2 ^ 63 + 0x4000.
Definition ex_strings : list Z := [0; 98; 0] ++ INSTALL ++ [0].
Definition ex_modmem : mem :=
  write_bytes (write_bytes (write_bytes (write_bytes ∅ (ex_tab + 24) (concat (Sym_bytes <$> ex_syms.*1))) ex_str ex_strings)
    ex_sec (concat (le64 <$> ex_sections))) ex_ksyms ex_table.
Definition ex_modst : vstate (tstate bump) fresh rofiles := VState ex_tabs (Fresh 4096 []) ex_modmem (RoFiles ∅ ∅).

Lemma module_symbols_linked_witness :
  exists st' m, resolve_symbols ex_HH ex_ksyms (Z.of_nat (length ex_table)) 2 3 256 1 ex_tab sizeof_Sym ex_str ex_sec (Mod 0 0 0 0 0 0) ex_modst
    = Ok (Some m, st') /\ install m = 0xFFFF900000000010 /\
    bytes_at (vmem st') (ex_tab + 24) (Sym_bytes (Sym 1 0 0 0 0xFFFFFFFF80002000 0) ++ Sym_bytes (Sym 3 0 0 1 0xFFFF900000000010 0)).
Proof.
  destruct (module_symbols_linked ex_HH ex_ksyms ex_tab ex_str ex_sec ex_lines ex_table ex_sections ex_syms 3 256 (Mod 0 0 0 0 0 0) ex_modst)
    as (st' & _ & _ & _ & _ & Hr).
  - split.
    + done.
    + split; [vm_compute; reflexivity|]. split; [repeat constructor; simpl; lia|]. right. done.
    + split; [repeat constructor; done|]. right. done.
    + intros s x [E|[E|[]%not_elem_of_nil]%elem_of_cons]%elem_of_cons; injection E as -> ->;
        (split; [repeat split; simpl; lia|split; [reflexivity|split; [right; done|done]]]).
  - split.
    + apply bytes_dec. vm_compute. reflexivity.
    + apply bytes_dec. vm_compute. reflexivity.
    + intros s x [E|[E|[]%not_elem_of_nil]%elem_of_cons]%elem_of_cons; injection E as -> ->;
        (split; [apply bytes_dec; vm_compute; reflexivity|repeat constructor; done]).
  - apply bytes_dec. vm_compute. reflexivity.
  - simpl. lia.
  - reflexivity.
  - destruct Hr as [Hb E]. eexists st', _. split; [exact E|]. split; [reflexivity|exact Hb].
Defined.

(** A section of one call, on a page of the kernel's half. *)
Definition ex_V : Z := 0xFFFF900000000000.
Definition ex_ptm : tstate bump := match pm_map ex_root ex_V 0x7000 ARCH_PAGE_GRAN ex_tabs with Ok t => t | _ => ex_tabs end.
Definition ex_rela : Elf64_Rela := Rela 4 (2 ^ 32 + 2) (- 4).
Definition ex_ents : Z := 2 ^ 63 + 0x5000.
Definition ex_target : Z := 0xFFFF900000001000.
Definition ex_relmem : mem :=
  write_bytes (write_bytes (write_bytes ∅ (ex_tab + 24) (Sym_bytes (Sym 1 0 0 1 ex_target 0))) ex_sec (le64 ex_V)) ex_ents (Rela_bytes ex_rela).
Definition ex_relst : vstate (tstate bump) fresh rofiles := VState ex_ptm (Fresh 4096 []) ex_relmem (RoFiles ∅ ∅).
Definition ex_tables (x : Z) : Prop := ex_tab <= x < 2 ^ 63 + 0x6000.

Lemma ex_bytes_phys : (fun i => kphys ex_HH ex_root ex_relst (ex_V + Z.of_nat i)) <$> seq 0 8 =
  (fun i => Some (2 ^ 63 + 0x7000 + Z.of_nat i)) <$> seq 0 8.
Proof. vm_compute. reflexivity. Qed.

Lemma ex_kphys v : ex_V <= v < ex_V + 8 -> kphys ex_HH ex_root ex_relst v = Some (2 ^ 63 + 0x7000 + (v - ex_V)).
Proof.
  intros Hv. set (n := Z.to_nat (v - ex_V)). pose proof (f_equal (fun l => l !! n) ex_bytes_phys) as E. cbn beta in E.
  rewrite !list_lookup_fmap, lookup_seq_lt in E by (unfold n; lia). cbn [fmap option_fmap option_map] in E. injection E as E.
  unfold n in E. simpl Nat.add in E. rewrite Z2Nat.id in E by lia. by replace (ex_V + (v - ex_V)) with v in E by lia.
Qed.

Lemma ex_window : window ex_HH ex_root ex_relst ex_V (ex_V + 8) ex_tables.
Proof.
  split; [done| |].
  - intros v Hv. eexists. split; [by apply ex_kphys|]. unfold ex_tables, ex_HH, ex_V in *. lia.
  - intros v w x Hv Hw. rewrite !ex_kphys by done. intros [= <-] [= E]. lia.
Qed.

