(* ===== verification/Exec.v ===== *)
(** * Program loading (kernel/src/sys/exec.c)

    Loading an executable into a new process: the program headers are read into
    an object of the heap, each loadable segment gets populated anonymous memory
    and its bytes through a block of the physical memory manager, and the first
    thread is created at the entry point. *)
From stdpp Require Import base gmap list fin_maps.
From Stdlib Require Import ZArith Lia.
From S2P Require Import Prelude Interfaces Pmm Kmem PageTables Ptm Vmm Resource Sched Proc Elf Module.

Definition BUFFER_ORDER : Z := 10.
Definition SEGMENT_FLAGS : Z := Z.lor VMM_MAP_ANON (Z.lor VMM_MAP_POPULATE (Z.lor VMM_MAP_FIXED VMM_MAP_PRIVATE)).

Definition seg_start (ph : Elf64_Phdr) : Z := FLOOR (p_vaddr ph) ARCH_PAGE_GRAN.
Definition seg_end (ph : Elf64_Phdr) : Z := CEIL (u64 (p_vaddr ph + p_memsz ph)) ARCH_PAGE_GRAN.

Section exec.
Context {M K V : Type} `{BlockMap M} `{ObjectAllocator K} `{Files V} (HHDM : Z).
(** [file->ops->read], the constant of the target, and the parameters of the
    creation of threads (Proc.v). *)
Context (ops_read : Z -> Z -> V -> outcome (Z * list Z * V)) (machine : Z).
Context (fpu_area_size : Z) (fpu_image : list Z) (userspace_init g_vmm_kernel_addr_space : Z).
Implicit Types st : psys M K V.
Implicit Types v : vstate M K V.

(** The body of the loop for a loadable segment. *)
Definition load_segment (a : vmm_addr_space_t) (ph : Elf64_Phdr) v : outcome (vmm_addr_space_t * vstate M K V) :=
  let diff := u64 (seg_end ph - seg_start ph) in
  '(_, a, v) ← vmm_mmap HHDM a (seg_start ph) diff VMM_PROT_FULL SEGMENT_FLAGS NULL 0 v;
  ASSERT (p_filesz ph <=? u64 (pmm_order_to_pagecount BUFFER_ORDER * ARCH_PAGE_GRAN));;
  '(buf, m) ← bm_alloc BUFFER_ORDER (vm v);
  v ← read_into HHDM ops_read (u64 (buf + HHDM)) (p_offset ph) (p_filesz ph) (set_vm m v);
  '(_, v) ← vmm_copy_to HHDM a (p_vaddr ph) (u64 (buf + HHDM)) (p_filesz ph) v;
  m ← bm_release buf (vm v);
  Ok (a, set_vm m v).

Definition loadable (ph : Elf64_Phdr) : bool := (p_type ph =? PT_LOAD) && negb (p_memsz ph =? 0).

(** The loop over the program headers, [n] of them from number [i] on. *)
Fixpoint load_segments (n : nat) (i ph_table : Z) (a : vmm_addr_space_t) v : outcome (vmm_addr_space_t * vstate M K V) :=
  match n with
  | O => Ok (a, v)
  | S n =>
      raw ← kread (vmem v) (ph_table + i * sizeof_Phdr) (Z.to_nat sizeof_Phdr);
      '(a, v) ← (if loadable (Phdr_of raw) then load_segment a (Phdr_of raw) v else Ok (a, v));
      load_segments n (i + 1) ph_table a v
  end.

(** The address of the new process, or NULL. *)
Definition exec_load (curr_fpu : option (Z * list Z)) st : outcome (Z * psys M K V) :=
  '(status, bs, f) ← ops_read 0 sizeof_Ehdr (files (pv st));
  let st := set_pv (set_files f (pv st)) st in
  if (status <? 0) || negb (Z.of_nat (length bs) =? sizeof_Ehdr) then Ok (NULL, st)
  else
    let ehdr := Ehdr_of bs in
    if negb (elf_check_compatibility machine ehdr) then Ok (NULL, st)
    else if negb (e_type ehdr =? ET_EXEC) then Ok (NULL, st)
    else
      '(proc, st) ← proc_new g_vmm_kernel_addr_space PROC_USER st;
      '(ph_table, v) ← heap_object (e_phentsize ehdr * e_phnum ehdr) (pv st);
      v ← read_into HHDM ops_read ph_table (e_phoff ehdr) (e_phentsize ehdr * e_phnum ehdr) v;
      p ← deref (procs st !! proc);
      a ← deref (spaces st !! p_space p);
      '(a, v) ← load_segments (Z.to_nat (e_phnum ehdr)) 0 ph_table a v;
      let st := set_spaces (<[p_space p := a]> (spaces st)) (set_pv v st) in
      '(_, st) ← thread_new HHDM fpu_area_size fpu_image userspace_init proc (e_entry ehdr) curr_fpu st;
      k ← obj_free ph_table (objs (pv st));
      Ok (proc, set_pv (set_objs k (pv st)) st).
End exec.

(** ** Segments *)

Lemma seg_bounds ph : 0 <= p_vaddr ph -> 0 < p_memsz ph -> p_vaddr ph + p_memsz ph <= 2 ^ 47 - ARCH_PAGE_GRAN ->
  0 <= seg_start ph <= p_vaddr ph /\ p_vaddr ph + p_memsz ph <= seg_end ph <= 2 ^ 47 /\ (ARCH_PAGE_GRAN | seg_start ph) /\
  (ARCH_PAGE_GRAN | seg_end ph) /\ u64 (seg_end ph - seg_start ph) = seg_end ph - seg_start ph.
Proof.
  intros Hv Hm He. unfold seg_start, seg_end, FLOOR, CEIL, ARCH_PAGE_GRAN in *.
  rewrite (u64_small (p_vaddr ph + p_memsz ph)), (u64_small (p_vaddr ph + p_memsz ph + 4096)), (u64_small (_ - 1)) by lia.
  assert (Hq : p_vaddr ph + p_memsz ph <= (p_vaddr ph + p_memsz ph + 4096 - 1) / 4096 * 4096 <= 2 ^ 47) by dlia.
  rewrite (u64_small ((p_vaddr ph + p_memsz ph + 4096 - 1) / 4096 * 4096)) by lia.
  split; [dlia|]. split; [done|]. split; [by apply Z.divide_factor_r|]. split; [by apply Z.divide_factor_r|]. apply u64_small. dlia.
Qed.

Section segments.
Context {M K V : Type} `{BlockMap M} `{ObjectAllocator K} `{Files V} (HHDM : Z) (HH : hhdm_ok HHDM).
Context (ops_read : Z -> Z -> V -> outcome (Z * list Z * V)) (image : Elf64_Phdr -> list Z).
Implicit Types v : vstate M K V.

(** A segment that can be loaded: a range of the lower half that is free and not
    mapped yet, a part in the file no larger than the part in memory and than the
    buffer, and a file that delivers it. *)
Record seg_fits (a : vmm_addr_space_t) v (ph : Elf64_Phdr) : Prop := {
  sf_range : 0 <= p_vaddr ph /\ 0 < p_memsz ph /\ p_vaddr ph + p_memsz ph <= 2 ^ 47 - ARCH_PAGE_GRAN;
  sf_free : hint_free a (seg_start ph) (seg_end ph - seg_start ph);
  sf_absent : forall x, seg_start ph <= x < seg_end ph -> v2p v (ptm_map a) x = Ok BAD_ADDRESS;
  sf_size : p_filesz ph = Z.of_nat (length (image ph)) /\ p_filesz ph <= p_memsz ph /\ p_filesz ph <= block_size BUFFER_ORDER;
  sf_read : forall f, exists status f', ops_read (p_offset ph) (p_filesz ph) f = Ok (status, image ph, f')
}.

(** A byte of kernel memory that loading leaves alone: it is in no page that may
    be handed out and in none the process maps. *)
Definition kept v (root : Z) (D : gset Z) (x : Z) : Prop :=
  stable HHDM D x /\ forall w f, user_half w -> phys_page f -> v2p v root w = Ok (f + w mod ARCH_PAGE_GRAN) ->
    ~ (f + HHDM <= x < f + HHDM + ARCH_PAGE_GRAN).

Definition new_seg (o : Z) (ph : Elf64_Phdr) : vmm_seg_t :=
  Seg o VMM_SEG_VNODE (seg_start ph) (seg_end ph - seg_start ph) VMM_PROT_FULL SEGMENT_FLAGS NULL 0.

(** The mapping: a new segment, its pages present and zero. *)
Lemma map_segment a v U R D ph : as_ok a -> oa_state (objs v) U -> space_ok v (ptm_map a) R D -> seg_fits a v ph ->
  let call := vmm_mmap HHDM a (seg_start ph) (u64 (seg_end ph - seg_start ph)) VMM_PROT_FULL SEGMENT_FLAGS NULL 0 v in
  call = Panic \/
  exists o v' D', call = Ok (seg_start ph, vmm_insert_seg a (new_seg o ph), v') /\ as_ok (vmm_insert_seg a (new_seg o ph)) /\
    segments (vmm_insert_seg a (new_seg o ph)) ≡ₚ new_seg o ph :: segments a /\
    oa_state (objs v') ({[o]} ∪ U) /\ paged_in HHDM v v' (ptm_map a) R D D' /\
    (forall x, user_half x -> ~ seg_start ph <= x < seg_end ph -> v2p v' (ptm_map a) x = v2p v (ptm_map a) x) /\
    (forall x, seg_start ph <= x < seg_end ph -> v2p v' (ptm_map a) x <> Ok BAD_ADDRESS).
Proof.
  intros HI HU HS [(Hv & Hm & He) Hfree Habs _ _] call. destruct (seg_bounds ph Hv Hm He) as (Hst & Hen & Hds & Hde & Eu).
  unfold call. rewrite Eu. rewrite mmap_unfold; [|done|by apply Z.divide_sub_r|done]. cbv zeta.
  rewrite (proj2 (hint_spec a (seg_start ph) (seg_end ph - seg_start ph) HI ltac:(lia) ltac:(lia) ltac:(lia)) Hfree). cbn [andb].
  destruct (obj_alloc_spec _ U sizeof_seg HU) as [E|(o & k & E & HU' & Ho & _)]; [unfold sizeof_seg; lia| |]; run E; [by left|].
  change (has_flag SEGMENT_FLAGS VMM_MAP_POPULATE) with true. cbn [negb]. fold (new_seg o ph).
  destruct (insert_seg_ok a (new_seg o ph) HI) as [HI' Hperm].
  { destruct Hfree as (? & ? & _). unfold seg_ok. cbn [base len new_seg]. split; [lia|]. split; [lia|]. split; [lia|].
    split; [done|by apply Z.divide_sub_r]. }
  { apply Hfree. }
  change (ptm_map (vmm_insert_seg a (new_seg o ph))) with (ptm_map a).
  destruct (populate_ok HHDM HH (ptm_map a) R (seg_start ph) (seg_end ph - seg_start ph) SEGMENT_FLAGS NULL 0) with
    (fuel := Z.to_nat ((seg_end ph - seg_start ph) / ARCH_PAGE_GRAN)) (i := 0) (st := set_objs k v) (D := D)
    as [E2|(v' & D' & E2 & Hpi & Hob & _ & Hkeep & Hpres)]; try done; try lia.
  - unfold user_half. lia.
  - by apply Z.divide_sub_r.
  - by destruct HS.
  - apply Z.divide_0_r.
  - destruct Hds as [q Eq], Hde as [q' Eq']. rewrite Eq, Eq'. rewrite <- Z.mul_sub_distr_r, Z.div_mul by done.
    unfold ARCH_PAGE_GRAN in *. lia.
  - intros x Hx. rewrite Z.add_0_r in Hx. apply Habs. lia.
  - run E2. by left.
  - run E2. right. exists o, v', D'. split; [done|]. split; [done|]. split; [done|]. split; [by rewrite Hob|]. split; [by destruct Hpi|].
    split; [|intros x Hx; apply Hpres; lia]. intros x Hx Hn. apply (Hkeep x Hx). lia.
Qed.

(** Page tables that translate the same. *)
Lemma space_vm v m root R D : space_ok v root R D -> pm_state m R D ->
  (forall x, pm_virt_to_phys root x m = pm_virt_to_phys root x (vm v)) ->
  space_ok (set_vm m v) root R D /\ forall x, ucontent HHDM (set_vm m v) root x = ucontent HHDM v root x.
Proof.
  intros [Hs Hr Hf Hi] Hm Htr. split.
  - split; [done|done| |]; unfold v2p in *; cbn [vm set_vm].
    + intros x p Hx. rewrite Htr. by apply Hf.
    + intros x w f Hx Hw Hp. rewrite !Htr. by apply Hi.
  - intros x. unfold ucontent, v2p. cbn [vm vmem set_vm]. by rewrite Htr.
Qed.

(** A frame of the process is among its data pages. *)
Lemma frame_in v root R D x f : space_ok v root R D -> user_half x -> phys_page f -> v2p v root x = Ok (f + x mod ARCH_PAGE_GRAN) -> f ∈ D.
Proof.
  intros HS Hx Hp E. destruct (so_frame _ _ _ _ HS x _ Hx E) as (g & Hg & _ & Eg); [by apply frame_not_bad|].
  by assert (f = g) as -> by lia.
Qed.

(** The buffer's addresses, and writing it. *)
Lemma buffer_write v root R D buf bs : space_ok v root R D -> block_at buf BUFFER_ORDER -> block_apart buf BUFFER_ORDER D ->
  Z.of_nat (length bs) <= block_size BUFFER_ORDER -> let p := u64 (buf + HHDM) in let v' := set_vmem (write_bytes (vmem v) p bs) v in
  p = buf + HHDM /\ kwrite HHDM p bs v = Ok v' /\ space_ok v' root R D /\
  (forall x, user_half x -> ucontent HHDM v' root x = ucontent HHDM v root x) /\
  (forall x f, f ∈ D -> f + HHDM <= x < f + HHDM + ARCH_PAGE_GRAN -> ~ p <= x < p + Z.of_nat (length bs)).
Proof.
  intros HS (Hb0 & Hb1 & _) Hap Hl p v'. assert (0 < block_size BUFFER_ORDER) by done. destruct HH as (Hh & Hh' & _).
  assert (Ep : p = buf + HHDM) by (apply u64_small; lia).
  assert (Hout : forall x f, f ∈ D -> f + HHDM <= x < f + HHDM + ARCH_PAGE_GRAN -> ~ p <= x < p + Z.of_nat (length bs)).
  { intros x f Hf Hx Hin. destruct (Hap f Hf); lia. }
  split; [done|]. split; [apply kwrite_ok; lia|]. split; [by destruct HS|]. split; [|done].
  intros x Hx. unfold ucontent. change (v2p v' root x) with (v2p v root x). destruct (v2p v root x) as [q| | |] eqn:Eq; try done.
  destruct (Z.eqb_spec q BAD_ADDRESS) as [|Hne]; [done|]. destruct (so_frame _ _ _ _ HS x q Hx Eq Hne) as (f & Hf & _ & ->).
  apply write_bytes_out. pose proof (mod_page x). pose proof (Hout (f + x mod ARCH_PAGE_GRAN + HHDM) f Hf ltac:(lia)). lia.
Qed.

Definition seg_content (ph : Elf64_Phdr) (x : Z) (old : option Z) : option Z :=
  if decide (p_vaddr ph <= x < p_vaddr ph + p_filesz ph) then image ph !! Z.to_nat (x - p_vaddr ph) else old.

(** The bytes: through the buffer, into pages that are present. *)
Lemma fill_segment a v R D ph : space_ok v (ptm_map a) R D ->
  0 <= p_vaddr ph -> p_vaddr ph + p_filesz ph <= 2 ^ 47 -> p_filesz ph = Z.of_nat (length (image ph)) -> p_filesz ph <= block_size BUFFER_ORDER ->
  (forall f, exists status f', ops_read (p_offset ph) (p_filesz ph) f = Ok (status, image ph, f')) ->
  (forall x, p_vaddr ph <= x < p_vaddr ph + p_filesz ph -> v2p v (ptm_map a) x <> Ok BAD_ADDRESS) ->
  let call := '(buf, m) ← bm_alloc BUFFER_ORDER (vm v);
    v ← read_into HHDM ops_read (u64 (buf + HHDM)) (p_offset ph) (p_filesz ph) (set_vm m v);
    '(_, v) ← vmm_copy_to HHDM a (p_vaddr ph) (u64 (buf + HHDM)) (p_filesz ph) v;
    m ← bm_release buf (vm v);
    Ok (a, set_vm m v) in
  call = Panic \/
  exists v', call = Ok (a, v') /\ space_ok v' (ptm_map a) R D /\ objs v' = objs v /\
    (forall x, v2p v' (ptm_map a) x = v2p v (ptm_map a) x) /\
    (forall x, user_half x -> ucontent HHDM v' (ptm_map a) x = seg_content ph x (ucontent HHDM v (ptm_map a) x)) /\
    (forall x, kept v (ptm_map a) D x -> vmem v' !! x = vmem v !! x).
Proof.
  intros HS Hv He Hsz Hbig Hread Hpres call. pose proof (so_root _ _ _ _ HS) as HR.
  destruct (bm_spec (vm v) R D BUFFER_ORDER (so_state _ _ _ _ HS)) as [E|(buf & m1 & m2 & E & Hm1 & E2 & Hm2 & Htr & Hat & Hap)];
    [done|unfold call; run E; by left|]. right. unfold call. run E.
  destruct (Hread (files (set_vm m1 v))) as (status & f' & Er). unfold read_into. run Er.
  set (v1 := set_files f' (set_vm m1 v)).
  destruct (space_vm v m1 (ptm_map a) R D HS Hm1 (fun x => proj1 (Htr _ x HR))) as [HS1 Hc1].
  assert (HS1' : space_ok v1 (ptm_map a) R D) by (by destruct HS1).
  destruct (buffer_write v1 (ptm_map a) R D buf (image ph) HS1' Hat Hap ltac:(lia)) as (Ep & Ew & HS2 & Hc2 & Hout). cbv zeta in *.
  run Ew. set (p := u64 (buf + HHDM)) in *. set (v2 := set_vmem (write_bytes (vmem v1) p (image ph)) v1) in *.
  assert (Hv2 : forall x, v2p v2 (ptm_map a) x = v2p v (ptm_map a) x) by (intros x; exact (proj1 (Htr _ x HR))).
  destruct (copy_present_ok HHDM HH a R D (p_vaddr ph) (p_filesz ph) Hv He (Z.to_nat (p_filesz ph)) 0 p v2 (image ph))
    as (v3 & E3 & HS3 & Hvm3 & Ho3 & Hf3 & Hm3 & Hc3); try done; try lia.
  { apply write_bytes_at. }
  { intros x Hx. rewrite Hv2. by apply Hpres. }
  { intros j Hj w f Hw Hp Ef Hin. apply (Hout (p + j) f); [|done|lia]. apply (frame_in v2 (ptm_map a) R D w f HS2); [unfold user_half; lia|done|done]. }
  unfold vmm_copy_to. run E3. rewrite Hvm3. change (vm v2) with m1. run E2.
  destruct (space_vm v3 m2 (ptm_map a) R D HS3 Hm2) as [HS4 Hc4].
  { intros x. rewrite Hvm3. change (vm v2) with m1. by rewrite (proj2 (Htr _ x HR)), (proj1 (Htr _ x HR)). }
  exists (set_vm m2 v3). split; [done|]. split; [done|]. split; [done|]. split; [intros x; exact (proj2 (Htr _ x HR))|]. split.
  - intros x Hx. rewrite Hc4, Hc3, Hc2 by done. change (ucontent HHDM v1 (ptm_map a) x) with (ucontent HHDM (set_vm m1 v) (ptm_map a) x).
    rewrite Hc1. unfold seg_content. rewrite Z.add_0_r, <- Hsz. done.
  - intros x [Hstb Hfr]. cbn [vmem set_vm]. rewrite Hm3.
    + apply write_bytes_out. destruct (decide (p <= x < p + Z.of_nat (length (image ph)))) as [Hin|]; [|lia]. exfalso.
      set (f := (x - HHDM) / ARCH_PAGE_GRAN * ARCH_PAGE_GRAN). destruct Hat as (Ha & Hb & [q Eq]).
      assert (Hd : f <= x - HHDM < f + ARCH_PAGE_GRAN) by (unfold f, ARCH_PAGE_GRAN; dlia).
      assert (buf <= f) by (unfold f; rewrite Eq; apply Z.mul_le_mono_nonneg_r; [done|]; apply Z.div_le_lower_bound; lia).
      assert (Hfe : f + ARCH_PAGE_GRAN <= buf + block_size BUFFER_ORDER).
      { change (block_size BUFFER_ORDER) with (1024 * ARCH_PAGE_GRAN) in *. unfold f. rewrite Eq in *. unfold ARCH_PAGE_GRAN in *. dlia. }
      apply (Hstb f).
      * intros Hf. destruct (Hap f Hf); lia.
      * split; [lia|]. split; [lia|]. apply Z.divide_factor_r.
      * lia.
    + intros w f Hw Hp Ef. rewrite Hv2 in Ef. apply (Hfr w f); [unfold user_half; lia|done|done].
Qed.

Lemma kept_paged v v' root R D D' x : paged_in HHDM v v' root R D D' -> kept v root D x -> vmem v' !! x = vmem v !! x /\ kept v' root D' x.
Proof.
  intros Hpi [Hs Hf]. split; [by apply (pi_mem _ _ _ _ _ _ _ Hpi)|]. split; [eapply stable_weaken; [apply Hpi|done]|].
  intros w f Hw Hp Ew. destruct (pi_map _ _ _ _ _ _ _ Hpi w Hw) as [E|(_ & g & Hg & Hpg & E)].
  - apply (Hf w f); [done|done|congruence].
  - rewrite E in Ew. injection Ew as Ew. assert (f = g) as -> by lia. by apply Hs.
Qed.

Lemma load_segment_ok a v U R D ph : as_ok a -> oa_state (objs v) U -> space_ok v (ptm_map a) R D -> seg_fits a v ph ->
  load_segment HHDM ops_read a ph v = Panic \/
  exists o v' D', let a' := vmm_insert_seg a (new_seg o ph) in load_segment HHDM ops_read a ph v = Ok (a', v') /\ as_ok a' /\
    segments a' ≡ₚ new_seg o ph :: segments a /\ oa_state (objs v') ({[o]} ∪ U) /\ space_ok v' (ptm_map a) R D' /\ D ⊆ D' /\
    (forall x, user_half x -> ~ seg_start ph <= x < seg_end ph -> v2p v' (ptm_map a) x = v2p v (ptm_map a) x) /\
    (forall x, user_half x -> ucontent HHDM v' (ptm_map a) x = seg_content ph x (ucontent HHDM v (ptm_map a) x)) /\
    (forall x, kept v (ptm_map a) D x -> vmem v' !! x = vmem v !! x /\ kept v' (ptm_map a) D' x).
Proof.
  intros HI HU HS Hfit. pose proof Hfit as [(Hv & Hm & He) _ _ (Hsz & Hle & Hbig) Hread].
  destruct (seg_bounds ph Hv Hm He) as (Hst & Hen & _). unfold load_segment. cbv zeta.
  destruct (map_segment a v U R D ph HI HU HS Hfit) as [E|(o & v1 & D1 & E & HI1 & Hperm & HU1 & Hpi & Hkeep & Hpres)]; run E; [by left|].
  assert (u64 (pmm_order_to_pagecount BUFFER_ORDER * ARCH_PAGE_GRAN) = block_size BUFFER_ORDER) as -> by done.
  rewrite (proj2 (Z.leb_le _ _) Hbig). go. set (a' := vmm_insert_seg a (new_seg o ph)) in *.
  destruct (fill_segment a' v1 R D1 ph (pi_space _ _ _ _ _ _ _ Hpi) Hv ltac:(unfold ARCH_PAGE_GRAN in *; lia) Hsz Hbig Hread)
    as [E2|(v2 & E2 & HS2 & Ho2 & Hv2 & Hc2 & Hk2)]; [intros x Hx; apply Hpres; lia|by left|right].
  exists o, v2, D1. split; [exact E2|]. split; [done|]. split; [done|]. split; [by rewrite Ho2|]. split; [done|]. split; [apply Hpi|].
  change (ptm_map a') with (ptm_map a) in *. split; [intros x Hx Hn; rewrite Hv2; by apply Hkeep|]. split.
  - intros x Hx. rewrite Hc2 by done. by rewrite (pi_content _ _ _ _ _ _ _ Hpi x Hx).
  - intros x Hx. destruct (kept_paged v v1 (ptm_map a) R D D1 x Hpi Hx) as [Hm1 Hx1]. split; [rewrite Hk2 by done; done|].
    destruct Hx1 as [Hs1 Hf1]. split; [done|]. intros w f Hw Hp. rewrite Hv2. by apply Hf1.
Qed.

(** Segments with no page in common. *)
Definition seg_apart (ph ph' : Elf64_Phdr) : Prop := loadable ph = true -> loadable ph' = true ->
  seg_end ph <= seg_start ph' \/ seg_end ph' <= seg_start ph.

(** Loading one segment leaves room for the others. *)
Lemma seg_fits_next a o v v' ph ph' : seg_fits a v ph -> seg_fits a v ph' -> seg_end ph <= seg_start ph' \/ seg_end ph' <= seg_start ph ->
  (forall x, user_half x -> ~ seg_start ph <= x < seg_end ph -> v2p v' (ptm_map a) x = v2p v (ptm_map a) x) ->
  segments (vmm_insert_seg a (new_seg o ph)) ≡ₚ new_seg o ph :: segments a -> seg_fits (vmm_insert_seg a (new_seg o ph)) v' ph'.
Proof.
  intros _ [Hr (Hlo & Hhi & Hfree) Habs Hsz Hread] Hap Hv2 Hperm. destruct Hr as (Hv & Hm & He). pose proof (seg_bounds ph' Hv Hm He) as (Hb & Hb' & _).
  split; [done| | |done|done].
  - split; [done|]. split; [done|]. unfold free_range. rewrite Hperm. constructor; [|done].
    unfold clear_of. cbn [base len new_seg]. lia.
  - intros x Hx. change (ptm_map (vmm_insert_seg a (new_seg o ph))) with (ptm_map a). rewrite Hv2 by (unfold user_half; lia). by apply Habs.
Qed.

(** What the loop has to read: the headers, in memory that loading leaves alone. *)
Record table_ok v (root : Z) (D : gset Z) (ph_table : Z) (phs : list Elf64_Phdr) : Prop := {
  to_headers : Forall Phdr_ok phs;
  to_bytes : bytes_at (vmem v) ph_table (concat (Phdr_bytes <$> phs));
  to_kept : forall j, 0 <= j < 56 * Z.of_nat (length phs) -> kept v root D (ph_table + j)
}.

Lemma table_ok_next v v' root D D' ph_table phs : table_ok v root D ph_table phs ->
  (forall x, kept v root D x -> vmem v' !! x = vmem v !! x /\ kept v' root D' x) -> table_ok v' root D' ph_table phs.
Proof.
  intros [Hok Hb Hk] Hx. split; [done| |intros j Hj; by apply Hx, Hk]. intros j b Hj. pose proof (lookup_lt_Some _ _ _ Hj) as Hl.
  rewrite (concat_length _ 56) in Hl by done. rewrite (proj1 (Hx (ph_table + Z.of_nat j) (Hk (Z.of_nat j) ltac:(lia)))). by apply Hb.
Qed.

Definition loaded v v' (root : Z) (phs : list Elf64_Phdr) : Prop :=
  (forall ph x, ph ∈ phs -> loadable ph = true -> seg_start ph <= x < seg_end ph -> ucontent HHDM v' root x = seg_content ph x (Some 0)) /\
  (forall x, user_half x -> (forall ph, ph ∈ phs -> loadable ph = true -> ~ seg_start ph <= x < seg_end ph) ->
     ucontent HHDM v' root x = ucontent HHDM v root x).

Lemma absent_zero v root x : v2p v root x = Ok BAD_ADDRESS -> ucontent HHDM v root x = Some 0.
Proof. intros E. unfold ucontent. by rewrite E, Z.eqb_refl. Qed.

Lemma load_segments_ok ph_table phs R : forall rest pre a v U D i,
  phs = pre ++ rest -> i = Z.of_nat (length pre) -> as_ok a -> oa_state (objs v) U -> space_ok v (ptm_map a) R D ->
  table_ok v (ptm_map a) D ph_table phs -> ForallOrdPairs seg_apart rest -> (forall ph, ph ∈ rest -> loadable ph = true -> seg_fits a v ph) ->
  load_segments HHDM ops_read (length rest) i ph_table a v = Panic \/
  exists a' v' D', load_segments HHDM ops_read (length rest) i ph_table a v = Ok (a', v') /\ as_ok a' /\ ptm_map a' = ptm_map a /\
    space_ok v' (ptm_map a) R D' /\ D ⊆ D' /\ loaded v v' (ptm_map a) rest.
Proof.
  induction rest as [|ph rest IH]; intros pre a v U D i Hphs Hi HI HU HS HT Hap Hfit.
  { right. exists a, v, D. split; [done|]. split; [done|]. split; [done|]. split; [done|]. split; [done|]. split; [|done].
    intros ph x Hin. by apply not_elem_of_nil in Hin. }
  destruct (ford_pairs_cons _ _ _ Hap) as [Hph Hap'].
  assert (Hraw : kread (vmem v) (ph_table + i * sizeof_Phdr) (Z.to_nat sizeof_Phdr) = Ok (Phdr_bytes ph)).
  { pose proof (bytes_at_slice _ _ _ (56 * length pre) 56 (to_bytes _ _ _ _ _ HT)) as Hb.
    rewrite (concat_lookup Phdr_bytes 56 phs (length pre) ph) in Hb by (done || rewrite Hphs; by rewrite list_lookup_middle).
    replace (ph_table + i * sizeof_Phdr) with (ph_table + Z.of_nat (56 * length pre)) by (unfold sizeof_Phdr; lia). exact (kread_ok _ _ _ Hb). }
  assert (Phdr_of (Phdr_bytes ph) = ph) as Hof.
  { apply Phdr_roundtrip. pose proof (to_headers _ _ _ _ _ HT) as Hok. rewrite Forall_forall in Hok. apply Hok. rewrite Hphs. clear. set_solver. }
  cbn [load_segments length]. run Hraw. rewrite Hof.
  assert (Hnext : phs = (pre ++ [ph]) ++ rest) by (by rewrite <- app_assoc).
  assert (Hi' : i + 1 = Z.of_nat (length (pre ++ [ph]))) by (rewrite length_app; simpl; lia).
  destruct (loadable ph) eqn:Hld; go.
  - destruct (load_segment_ok a v U R D ph HI HU HS) as [E|(o & v1 & D1 & E & HI1 & Hperm & HU1 & HS1 & Hsub & Hv1 & Hc1 & Hk1)];
      [apply Hfit; [clear; set_solver|done]|run E; by left|]. cbv zeta in *. run E.
    destruct (IH (pre ++ [ph]) (vmm_insert_seg a (new_seg o ph)) v1 ({[o]} ∪ U) D1 (i + 1)) as [E2|(a2 & v2 & D2 & E2 & HI2 & Hpm2 & HS2 & Hsub2 & Hin2 & Hout2)];
      try done.
    + by eapply table_ok_next.
    + intros ph' Hin Hl'. rewrite Forall_forall in Hph. eapply (seg_fits_next a o v v1 ph ph'); [apply Hfit; [clear; set_solver|done]|..|done|done].
      * apply Hfit; [clear - Hin; set_solver|done].
      * by apply Hph.
    + by left.
    + right. change (ptm_map (vmm_insert_seg a (new_seg o ph))) with (ptm_map a) in *. exists a2, v2, D2.
      split; [done|]. split; [done|]. split; [done|]. split; [done|]. split; [by etrans|].
      assert (Hfp : seg_fits a v ph) by (apply Hfit; [clear; set_solver|done]).
      destruct (sf_range _ _ _ Hfp) as (? & ? & ?). pose proof (seg_bounds ph ltac:(done) ltac:(done) ltac:(done)) as (? & ? & _). split.
      * intros ph' x [->|Hin]%elem_of_cons Hl' Hx; [|by apply Hin2]. rewrite Hout2; [|unfold user_half; lia|].
        -- rewrite Hc1 by (unfold user_half; lia). by rewrite (absent_zero v) by (by apply (sf_absent _ _ _ Hfp)).
        -- intros ph'' Hin Hl'' Hx''. rewrite Forall_forall in Hph. destruct (Hph ph'' Hin Hld Hl''); lia.
      * intros x Hx Hno. rewrite Hout2; [|done|intros ph' Hin; apply Hno; clear - Hin; set_solver]. rewrite Hc1 by done.
        unfold seg_content. rewrite decide_False; [done|]. destruct (sf_size _ _ _ Hfp) as (_ & ? & _).
        pose proof (Hno ph ltac:(clear; set_solver) Hld). lia.
  - destruct (IH (pre ++ [ph]) a v U D (i + 1)) as [E2|(a2 & v2 & D2 & E2 & HI2 & Hpm2 & HS2 & Hsub2 & Hin2 & Hout2)]; try done.
    + intros ph' Hin. apply Hfit. clear - Hin. set_solver.
    + by left.
    + right. exists a2, v2, D2. split; [done|]. split; [done|]. split; [done|]. split; [done|]. split; [done|]. split.
      * intros ph' x [->|Hin]%elem_of_cons Hl'; [congruence|by apply Hin2].
      * intros x Hx Hno. apply Hout2; [done|]. intros ph' Hin. apply Hno. clear - Hin. set_solver.
Qed.
End segments.

(** ** Properties *)


(** Files that are not executables for this machine are refused before a process
    is created. *)
Lemma exec_load_rejects {M K V : Type} `{BlockMap M} `{ObjectAllocator K} `{Files V} (HHDM : Z) ops_read machine
    fpu_area_size fpu_image userspace_init kernel_space curr_fpu (st : psys M K V) status bs f :
  ops_read 0 sizeof_Ehdr (files (pv st)) = Ok (status, bs, f) ->
  status < 0 \/ Z.of_nat (length bs) <> sizeof_Ehdr \/ elf_check_compatibility machine (Ehdr_of bs) = false \/ e_type (Ehdr_of bs) <> ET_EXEC ->
  exec_load HHDM ops_read machine fpu_area_size fpu_image userspace_init kernel_space curr_fpu st = Ok (NULL, set_pv (set_files f (pv st)) st).
Proof.
  intros E Hbad. unfold exec_load. run E. destruct (Z.ltb_spec status 0); [done|].
  destruct (Z.eqb_spec (Z.of_nat (length bs)) sizeof_Ehdr); [|done]. cbn [orb negb].
  destruct (elf_check_compatibility machine (Ehdr_of bs)) eqn:Hc; [|done]. cbn [negb].
  destruct (Z.eqb_spec (e_type (Ehdr_of bs)) ET_EXEC); [|done]. exfalso. destruct Hbad as [?|[?|[?|?]]]; (lia || congruence).
Qed.

(** ** Findings *)

(** The result of [vmm_mmap] is not looked at: when the range of a segment is
    taken, the segment is not mapped and its bytes are copied all the same. *)
Lemma exec_ignores_failed_mapping {M K V : Type} `{BlockMap M} `{ObjectAllocator K} `{Files V} (HHDM : Z) ops_read a ph (v : vstate M K V) :
  as_ok a -> 0 <= p_vaddr ph -> 0 < p_memsz ph -> p_vaddr ph + p_memsz ph <= 2 ^ 47 - ARCH_PAGE_GRAN ->
  ~ hint_free a (seg_start ph) (seg_end ph - seg_start ph) -> p_filesz ph <= block_size BUFFER_ORDER ->
  load_segment HHDM ops_read a ph v =
    ('(buf, m) ← bm_alloc BUFFER_ORDER (vm v);
     v ← read_into HHDM ops_read (u64 (buf + HHDM)) (p_offset ph) (p_filesz ph) (set_vm m v);
     '(_, v) ← vmm_copy_to HHDM a (p_vaddr ph) (u64 (buf + HHDM)) (p_filesz ph) v;
     m ← bm_release buf (vm v);
     Ok (a, set_vm m v)).
Proof.
  intros HI Hv Hm He Hn Hsz. destruct (seg_bounds ph Hv Hm He) as (Hst & Hen & Hds & Hde & Eu).
  unfold load_segment. rewrite Eu, mmap_unfold; [|done|by apply Z.divide_sub_r|done]. cbv zeta.
  pose proof (hint_spec a (seg_start ph) (seg_end ph - seg_start ph) HI ltac:(lia) ltac:(lia) ltac:(lia)) as Hs.
  destruct (vmm_check_collision _ _ _ || _); [|by destruct Hn; apply Hs]. go.
  assert (u64 (pmm_order_to_pagecount BUFFER_ORDER * ARCH_PAGE_GRAN) = block_size BUFFER_ORDER) as -> by done.
  by rewrite (proj2 (Z.leb_le _ _) Hsz).
Qed.

(** The stack of a program goes to address 0: the hint is 0 and addresses from 0
    on are in bounds, so null pointers point into the stack. *)
Lemma user_stack_at_null {M K V : Type} `{PageMap M} `{ObjectAllocator K} `{Files V} (HHDM : Z) space a (st st' : psys M K V) sp :
  spaces st !! space = Some a -> as_ok a -> hint_free a 0 (ARCH_PAGE_GRAN * 8) ->
  x86_64_abi_stack_setup HHDM space (ARCH_PAGE_GRAN * 8) st = Ok (sp, st') -> sp = 0x7FF0.
Proof.
  intros Ha HI Hf. unfold x86_64_abi_stack_setup. run Ha. rewrite mmap_unfold; [|by apply Z.divide_0_r|by exists 8|done]. cbv zeta.
  rewrite (proj2 (hint_spec a 0 (ARCH_PAGE_GRAN * 8) HI ltac:(done) ltac:(done) ltac:(done)) Hf). cbn [andb].
  intros E. apply bind_Ok in E as ([[ptr a'] v] & E1 & E). apply bind_Ok in E1 as ([o k] & _ & E1).
  change (has_flag (Z.lor VMM_MAP_ANON (Z.lor VMM_MAP_POPULATE VMM_MAP_PRIVATE)) VMM_MAP_POPULATE) with true in E1. cbn [negb] in E1.
  apply bind_Ok in E1 as (v' & _ & E1). injection E1 as <- _ _. apply bind_Ok in E as (? & _ & E). by injection E as <- _.
Qed.

(** ** A concrete program *)

#[export] Instance ex_block_map : BlockMap (tstate bump) := x86_block_map ex_HH ex_hhdm ex_higher.

(** One segment of 32 bytes, three of them in the file; the headers lie outside
    the direct map. *)
Definition ex_ph : Elf64_Phdr := Phdr PT_LOAD 5 0x1000 0x400010 0x400010 3 32 0x1000.
Definition ex_user : vmm_addr_space_t := AddrSpace [] ARCH_USER_MIN_VIRT ARCH_USER_MAX_VIRT ex_root.
Definition ex_exec : vstate (tstate bump) fresh rofiles :=
  VState ex_tabs (Fresh 4096 []) (write_bytes ∅ ex_buf (Phdr_bytes ex_ph)) (RoFiles ∅ ∅).
Definition ex_read (off n : Z) (f : rofiles) : outcome (Z * list Z * rofiles) := Ok (0, [1; 2; 3], f).

