(* ===== verification/Boot.v ===== *)
(** * Loading modules and programs at boot (kernel/src/main.c)

    After the components are set up, [kernel_main] goes through two directories
    of the initial ram disk: every file of /modules is linked into the kernel and
    installed, every file of /usr/bin becomes a process whose thread is queued.
    Both loops are the same walk with a different body; against it stands the
    plain iteration over the files of the directory. *)
From stdpp Require Import base gmap list fin_maps.
From Stdlib Require Import ZArith Lia.
From S2P Require Import Prelude Interfaces Strings Vmm Nodes Vfs Initrd Sched Proc Elf Module Exec.

(** ** The operations of the ram disk

    [ustar_file_ops] has no [close], which [vfs_close] checks, and none of the
    operations that change files. *)
Section ops.
Context {S K : Type} `{ObjectAllocator K}.

#[export] Instance initrd_ops : VnodeOps (Nodes.fs S K) := {|
  vo_open vn name w := initrd_open vn name w;
  vo_close vn w := Ok (EOK, w);
  vo_read vn off count w := '(status, bs) ← initrd_read vn off count w; Ok (status, bs, w);
  vo_write vn off bs w := Fault;
  vo_create vn name t w := Fault;
  vo_ioctl vn op arg w := Fault;
  vo_name vn w := n ← deref (nodes w !! vn); Ok (vn_name n);
  vo_size vn w := n ← deref (nodes w !! vn); Ok (vn_size n);
  vo_type vn w := n ← deref (nodes w !! vn); Ok (vn_type n)
|}.

(** [VN_RELE] of a node that has no cached pages: the kernel reads these files
    through their operations, not through the cache. *)
Definition VN_RELE (vn : Z) (w : Nodes.fs S K) : outcome (Nodes.fs S K) :=
  n ← deref (nodes w !! vn);
  let r := u64 (ref_count n - 1) in
  let w := set_nodes (<[vn := set_refs r n]> (nodes w)) w in
  if r =? 0 then '(_, w) ← vo_close vn w; Ok w else Ok w.
End ops.

(** ** The walk through a directory *)
Section walk.
Context {S K X : Type} `{ObjectAllocator K}.
(** The state of the kernel, with the file system in it, and what is done with a
    file. *)
Context (get : X -> Nodes.fs S K) (put : Nodes.fs S K -> X -> X) (body : Z -> X -> outcome X).

(** [while (dir->ops->list(dir, &idx, &name), name)] *)
Fixpoint load_files (fuel : nat) (dir idx : Z) (x : X) : outcome X :=
  match fuel with
  | O => NoFuel
  | Datatypes.S fuel =>
      '(_, name, idx) ← initrd_list dir idx (get x);
      match name with
      | None => Ok x
      | Some name =>
          '(_, file, w) ← vo_open dir name (get x);
          x ← body file (put w x);
          w ← VN_RELE file (get x);
          load_files fuel dir idx (put w x)
      end
  end.

(** The whole block: [path] is the address of the string. *)
Definition load_directory (fuel : nat) (m : mem) (g_trie_root : trie_node_t) (path : Z) (x : X) : outcome X :=
  '(_, dir, w) ← vfs_open fuel m g_trie_root path (get x);
  if dir =? NULL then Panic
  else
    t ← vo_type dir w;
    if negb (bool_decide (t = VNODE_DIR)) then Panic
    else
      x ← load_files fuel dir 0 (put w x);
      w ← VN_RELE dir (get x);
      Ok (put w x).

(** What the walk is for: the body once for every file, held meanwhile. *)
Fixpoint each_file (files : list Z) (x : X) : outcome X :=
  match files with
  | [] => Ok x
  | c :: files =>
      w ← VN_HOLD c (get x);
      x ← body c (put w x);
      w ← VN_RELE c (get x);
      each_file files (put w x)
  end.

Context (get_put : forall w x, get (put w x) = w).

(** A directory that can be walked: the files are there, their names differ,
    their addresses are not the two special values of the hint. *)
Record walkable (dir : Z) (cs : list Z) (w : Nodes.fs S K) : Prop := {
  wk_dir : exists n, nodes w !! dir = Some n /\ vn_type n = VNODE_DIR /\ children_of n = Ok cs;
  wk_files c : c ∈ cs -> c <> 0 /\ c <> HINT_END /\ c <> dir /\ exists n, nodes w !! c = Some n /\ 0 <= ref_count n < 2 ^ 64 - 1;
  wk_nodup : NoDup cs;
  wk_names : NoDup (name_of w <$> cs);
}.

(** The body reads files and leaves the tree alone. *)
Definition keeps_tree (cs : list Z) : Prop := forall c x x', c ∈ cs -> body c x = Ok x' -> nodes (get x') = nodes (get x).

Lemma hold_release c (w : Nodes.fs S K) n : nodes w !! c = Some n -> 0 <= ref_count n < 2 ^ 64 - 1 ->
  exists w', VN_HOLD c w = Ok w' /\ nodes w' = <[c := set_refs (ref_count n + 1) n]> (nodes w) /\
    forall v : Nodes.fs S K, nodes v = nodes w' -> exists v', VN_RELE c v = Ok v' /\ nodes v' = nodes w.
Proof.
  intros Hn Hr. unfold VN_HOLD. run Hn. rewrite u64_small by lia. eexists. split; [reflexivity|]. split; [reflexivity|].
  intros v Hv. unfold VN_RELE. rewrite Hv. cbn [nodes set_nodes]. rewrite lookup_insert_eq. go. cbn [ref_count set_refs].
  rewrite u64_small by lia. replace (ref_count n + 1 - 1) with (ref_count n) by lia.
  assert (<[c := set_refs (ref_count n) (set_refs (ref_count n + 1) n)]> (nodes v) = nodes w) as E.
  { rewrite Hv. cbn [nodes set_nodes]. rewrite insert_insert_eq. replace (set_refs (ref_count n) (set_refs (ref_count n + 1) n)) with n by (by destruct n).
    by apply insert_id. }
  destruct (ref_count n =? 0); cbn [vo_close initrd_ops]; go; eexists; (split; [reflexivity|by rewrite Hv in E]).
Qed.

(** Opening a file of the directory by its name gives that file. *)
Lemma open_child dir pre c post (w : Nodes.fs S K) : walkable dir (pre ++ c :: post) w ->
  initrd_open dir (name_of w c) w = (w' ← VN_HOLD c w; Ok (EOK, c, w')).
Proof.
  intros [(n & Hn & Ht & Hcs) Hfiles Hnd Hnm]. unfold initrd_open, open_in. run Hn. rewrite bool_decide_true by done. cbn [negb]. run Hcs.
  assert (Forall (fun c => is_Some (nodes w !! c)) (pre ++ c :: post)) as Hall.
  { apply Forall_forall. intros d Hd. destruct (Hfiles d Hd) as (_ & _ & _ & m & Hm & _). by exists m. }
  destruct (find_name_ok w (pre ++ c :: post) (name_of w c) Hall) as ([d|] & E & Hr); rewrite E; go.
  - destruct Hr as (pre' & post' & Es & En & _). assert (d = c) as ->; [|done].
    assert (d ∈ pre ++ c :: post) as Hd by (rewrite Es; apply elem_of_app; right; apply list_elem_of_here).
    apply list_elem_of_lookup in Hd as [i Hi]. assert ((pre ++ c :: post) !! length pre = Some c) as Hc by apply list_lookup_middle, eq_refl.
    assert (i = length pre) as ->; [|congruence]. apply (NoDup_lookup _ i (length pre) (name_of w c) Hnm); rewrite list_lookup_fmap; [by rewrite Hi; cbn; rewrite En|by rewrite Hc].
  - exfalso. apply (proj1 (Forall_forall _ _) Hr c); [apply elem_of_app; right; apply list_elem_of_here|done].
Qed.

(** The hint behind a file leads to the next one. *)
Lemma list_next dir pre c post (w : Nodes.fs S K) : walkable dir (pre ++ c :: post) w ->
  initrd_list dir c w = match post with d :: _ => Ok (EOK, Some (name_of w d), d) | [] => Ok (EOK, None, HINT_END) end.
Proof.
  intros [(n & Hn & Ht & Hcs) Hfiles Hnd _]. unfold initrd_list, list_in. run Hn. rewrite bool_decide_true by done. cbn [negb].
  destruct (Hfiles c ltac:(apply elem_of_app; right; apply list_elem_of_here)) as (H0 & H1 & _).
  rewrite (proj2 (Z.eqb_neq c _) H1). run Hcs. rewrite (proj2 (Z.eqb_neq c _) H0).
  apply NoDup_app in Hnd as (_ & Hnot & _). rewrite next_sibling_ok; [|intros Hc; apply (Hnot c Hc), list_elem_of_here]. go.
  destruct post as [|d post]; cbn [head]; [done|]. destruct (Hfiles d) as (_ & _ & _ & m & Hm & _).
  { apply elem_of_app. right. apply list_elem_of_further, list_elem_of_here. }
  unfold name_of. by run Hm.
Qed.

Lemma list_first dir cs (w : Nodes.fs S K) : walkable dir cs w ->
  initrd_list dir 0 w = match cs with d :: _ => Ok (EOK, Some (name_of w d), d) | [] => Ok (EOK, None, HINT_END) end.
Proof.
  intros [(n & Hn & Ht & Hcs) Hfiles Hnd _]. unfold initrd_list, list_in. run Hn. rewrite bool_decide_true by done. cbn [negb].
  change (0 =? HINT_END) with false. run Hcs. change (0 =? 0) with true. go.
  destruct cs as [|d cs]; cbn [head]; [done|]. destruct (Hfiles d) as (_ & _ & _ & m & Hm & _); [apply list_elem_of_here|]. unfold name_of. by run Hm.
Qed.

Lemma walkable_nodes dir cs (w w' : Nodes.fs S K) : nodes w' = nodes w -> walkable dir cs w -> walkable dir cs w'.
Proof.
  intros E [Hd Hf Hnd Hnm]. split; [by rewrite E| |done|].
  - intros c Hc. rewrite E. by apply Hf.
  - replace (name_of w' <$> cs) with (name_of w <$> cs); [done|]. apply list_fmap_ext. intros i c _. unfold name_of. by rewrite E.
Qed.

(** From a file on, the walk is the iteration over the files that are left. *)
Lemma walk_from dir pre post fuel x idx : walkable dir (pre ++ post) (get x) -> keeps_tree (pre ++ post) -> (length post < fuel)%nat ->
  initrd_list dir idx (get x) = match post with d :: _ => Ok (EOK, Some (name_of (get x) d), d) | [] => Ok (EOK, None, HINT_END) end ->
  load_files fuel dir idx x = each_file post x /\ forall x', each_file post x = Ok x' -> nodes (get x') = nodes (get x).
Proof using get_put.
  revert pre fuel x idx. induction post as [|c post IH]; intros pre fuel x idx Hwk Hkeep Hf Hl.
  - destruct fuel as [|fuel]; [cbn in Hf; lia|]. cbn [load_files each_file]. run Hl. split; [done|]. by intros x' [= <-].
  - destruct fuel as [|fuel]; [cbn in Hf; lia|]. cbn [load_files each_file]. run Hl. cbn [vo_open initrd_ops]. rewrite (open_child dir pre c post _ Hwk).
    assert (c ∈ pre ++ c :: post) as Hc by (apply elem_of_app; right; apply list_elem_of_here).
    destruct (wk_files _ _ _ Hwk c Hc) as (_ & _ & _ & n & Hn & Hr). destruct (hold_release c (get x) n Hn Hr) as (w' & E & Ew & Hrel).
    run E. destruct (body c (put w' x)) as [x1| | |] eqn:Eb; go; [|by split..].
    destruct (Hrel (get x1)) as (w1 & E1 & Ew1); [rewrite (Hkeep _ _ _ Hc Eb), get_put; done|]. run E1.
    assert (nodes (get (put w1 x1)) = nodes (get x)) as Es by (by rewrite get_put).
    assert (walkable dir ((pre ++ [c]) ++ post) (get (put w1 x1))) as Hwk1.
    { rewrite <- app_assoc. by apply (walkable_nodes dir _ (get x)). }
    destruct (IH (pre ++ [c]) fuel (put w1 x1) c Hwk1) as [E2 H2].
    { by rewrite <- app_assoc. } { cbn in Hf. lia. }
    { rewrite <- app_assoc in Hwk1. by apply (list_next dir pre c post). }
    split; [done|]. intros x' Hx'. by rewrite (H2 x' Hx').
Qed.


End walk.

(** ** Loading does not touch the file system

    Programs are mapped as anonymous private memory: no page of theirs comes from
    a file, neither when it is mapped nor when it is faulted in. *)
Definition anon (s : vmm_seg_t) : Prop := has_flag (flags s) VMM_MAP_ANON = true /\ has_flag (flags s) VMM_MAP_PRIVATE = true.

Section files.
Context {M K V : Type} `{BlockMap M} `{ObjectAllocator K} `{Files V} (HHDM : Z).
Implicit Types st : psys M K V.
Implicit Types v : vstate M K V.

Lemma kwrite_files p bs v v' : kwrite HHDM p bs v = Ok v' -> files v' = files v.
Proof. intros E. by apply (kwrite_same HHDM) in E as (_ & _ & ?). Qed.

Lemma map_private_files root virt fl vn off v v' : has_flag fl VMM_MAP_ANON = true -> map_private HHDM root virt fl vn off v = Ok v' ->
  files v' = files v.
Proof.
  intros Hf E. unfold map_private in E. rewrite Hf in E. apply bind_Ok in E as ([phys m] & _ & E). apply bind_Ok in E as (m' & _ & E).
  exact (kwrite_files _ _ _ _ E).
Qed.

Lemma populate_files fuel root virt n fl vn off i v v' : has_flag fl VMM_MAP_ANON = true -> has_flag fl VMM_MAP_PRIVATE = true ->
  populate HHDM fuel root virt n fl vn off i v = Ok v' -> files v' = files v.
Proof.
  intros Ha Hp. revert i v. induction fuel as [|fuel IH]; intros i v E; cbn [populate] in E; (destruct (i <? n); [|by injection E as <-]); [done|].
  rewrite Hp in E. apply bind_Ok in E as (v1 & E1 & E). rewrite (IH _ _ E). by eapply map_private_files.
Qed.

Lemma mmap_files a virt n prot fl vn off v r a' v' : has_flag fl VMM_MAP_ANON = true -> has_flag fl VMM_MAP_PRIVATE = true -> Forall anon (segments a) ->
  vmm_mmap HHDM a virt n prot fl vn off v = Ok (r, a', v') -> files v' = files v /\ Forall anon (segments a').
Proof.
  intros Ha Hp Hs E. unfold vmm_mmap in E. do 3 (apply bind_Ok in E as (? & _ & E)). destruct (_ && has_flag fl VMM_MAP_FIXED); [by injection E as _ <- <-|].
  apply bind_Ok in E as ([o k] & _ & E).
  assert (forall x, Forall anon (segments (vmm_insert_seg a (Seg o VMM_SEG_VNODE x n prot fl vn off)))) as Hs'.
  { intros y. cbn [vmm_insert_seg set_segments segments]. rewrite <- (take_drop (insert_pos y (segments a)) (segments a)) in Hs.
    apply Forall_app in Hs as [H1' H2']. apply Forall_app. split; [done|]. by constructor. }
  destruct (has_flag fl VMM_MAP_POPULATE); cbn [negb] in E.
  - apply bind_Ok in E as (v1 & E1 & E). injection E as _ <- <-. split; [|apply Hs']. by rewrite (populate_files _ _ _ _ _ _ _ _ _ _ Ha Hp E1).
  - injection E as _ <- <-. by split.
Qed.

Lemma fault_in_files a addr v p v' : Forall anon (segments a) -> fault_in HHDM a addr v = Ok (p, v') -> files v' = files v.
Proof.
  intros Hs E. unfold fault_in in E. apply bind_Ok in E as (q & _ & E). destruct (q =? BAD_ADDRESS); [|by injection E as _ <-].
  apply bind_Ok in E as ([b v1] & E1 & E). apply bind_Ok in E as (q' & _ & E). destruct (q' =? BAD_ADDRESS); [done|]. injection E as _ <-.
  unfold vmm_pagefault_handler in E1. destruct (vmm_addr_to_seg a addr) as [s|] eqn:Es; [|by injection E1 as _ <-].
  apply find_some in Es as [Hin _]. apply list_elem_of_In in Hin. destruct (proj1 (Forall_forall _ _) Hs _ Hin) as [Ha Hp].
  destruct (seg_type s); [|done]. rewrite Hp in E1. apply bind_Ok in E1 as (v2 & E2 & E1). injection E1 as _ <-. by eapply map_private_files.
Qed.

Lemma copy_files fuel a dest src count i v n v' : Forall anon (segments a) -> copy_loop HHDM fuel a dest src count i v = Ok (n, v') -> files v' = files v.
Proof.
  intros Hs. revert src i v. induction fuel as [|fuel IH]; intros src i v E; cbn [copy_loop] in E; (destruct (i <? count); [|by injection E as _ <-]); [done|].
  apply bind_Ok in E as ([p v1] & E1 & E). apply bind_Ok in E as (bs & _ & E). apply bind_Ok in E as (v2 & E2 & E).
  rewrite (IH _ _ _ E), (kwrite_files _ _ _ _ E2). by eapply fault_in_files.
Qed.

Lemma stack_files space size st sp st' : (forall a, spaces st !! space = Some a -> Forall anon (segments a)) ->
  x86_64_abi_stack_setup HHDM space size st = Ok (sp, st') -> files (pv st') = files (pv st).
Proof.
  intros Hs E. unfold x86_64_abi_stack_setup in E. apply bind_Ok in E as (a & Ea & E). apply deref_Ok in Ea. apply bind_Ok in E as ([[p a'] v] & E1 & E).
  apply bind_Ok in E as (u & _ & E). injection E as _ <-. cbn [pv set_spaces set_pv]. by eapply mmap_files; [| |apply Hs|exact E1].
Qed.

Lemma kernel_page_files v p v' : kernel_page HHDM v = Ok (p, v') -> files v' = files v.
Proof. intros E. unfold kernel_page in E. apply bind_Ok in E as ([q m] & _ & E). by injection E as _ <-. Qed.

Lemma context_files size image init t space user entry fpu st ctx st' : (forall a, spaces st !! space = Some a -> Forall anon (segments a)) ->
  arch_thread_context_init HHDM size image init t space user entry fpu st = Ok (ctx, st') -> files (pv st') = files (pv st).
Proof.
  intros Hs E. unfold arch_thread_context_init in E. apply bind_Ok in E as ([page v1] & E1 & E). apply bind_Ok in E as ([sp st1] & E2 & E).
  apply bind_Ok in E as (order & _ & E). apply bind_Ok in E as ([area v2] & E3 & E). apply bind_Ok in E as (v3 & E4 & E).
  apply bind_Ok in E as (v4 & E5 & E). apply bind_Ok in E as (v5 & E6 & E). injection E as _ <-. cbn [pv set_pv].
  assert (files v2 = files (pv st1)) as E3'. { destruct (order =? 0); [|done]. by eapply kernel_page_files. }
  assert (files v4 = files v3) as E5'. { destruct fpu as [[x bs]|]; [by eapply kwrite_files|by injection E5 as <-]. }
  rewrite (kwrite_files _ _ _ _ E6), E5', (kwrite_files _ _ _ _ E4), E3'. clear - E1 E2 Hs. apply kernel_page_files in E1.
  destruct user; cbn [negb] in E2.
  - apply bind_Ok in E2 as ([us st2] & E3 & E2). apply bind_Ok in E2 as (v6 & E4 & E2). injection E2 as _ <-. cbn [pv set_pv].
    rewrite (kwrite_files _ _ _ _ E4). rewrite (stack_files space _ (set_pv v1 st) _ _ Hs E3). done.
  - apply bind_Ok in E2 as (v6 & E4 & E2). injection E2 as _ <-. cbn [pv set_pv]. by rewrite (kwrite_files _ _ _ _ E4).
Qed.

Lemma thread_new_files size image init proc entry fpu st t st' :
  (forall p a, procs st !! proc = Some p -> spaces st !! p_space p = Some a -> Forall anon (segments a)) ->
  thread_new HHDM size image init proc entry fpu st = Ok (t, st') -> files (pv st') = files (pv st).
Proof.
  intros Hs E. unfold thread_new in E. apply bind_Ok in E as (u & _ & E). apply bind_Ok in E as ([t' k] & _ & E). apply bind_Ok in E as (l & _ & E).
  apply bind_Ok in E as (p & Ep & E). apply deref_Ok in Ep. apply bind_Ok in E as ([ctx st1] & E1 & E). apply bind_Ok in E as (p' & _ & E). injection E as _ <-.
  cbn [pv set_counts set_procs set_pthreads]. rewrite (context_files _ _ _ _ _ _ _ _ (set_pv (set_objs k (pv st)) st) _ _ (fun a => Hs p a Ep) E1). done.
Qed.

(** A new process of a program has an address space of its own, without
    segments. *)
Lemma proc_new_files kernel st p st' : proc_new kernel PROC_USER st = Ok (p, st') ->
  files (pv st') = files (pv st) /\ exists x a, procs st' !! p = Some x /\ spaces st' !! p_space x = Some a /\ segments a = [].
Proof.
  intros E. unfold proc_new in E. apply bind_Ok in E as ([q k] & _ & E). apply bind_Ok in E as (l & _ & E). apply bind_Ok in E as ([space st1] & E1 & E).
  apply bind_Ok in E as ([tbl k'] & _ & E). injection E as <- <-. apply bind_Ok in E1 as ([[o a] v] & E2 & E1). injection E1 as <- <-.
  unfold vmm_new_addr_space in E2. apply bind_Ok in E2 as ([o' k2] & _ & E2). apply bind_Ok in E2 as ([r m] & _ & E2). injection E2 as <- <- <-.
  cbn [pv set_last_pid set_proc_list set_procs set_pv spaces procs set_spaces files set_objs]. split; [done|].
  eexists _, _. split; [apply lookup_insert_eq|]. cbn [p_space]. split; [apply lookup_insert_eq|]. done.
Qed.

Context (ops_read : Z -> Z -> V -> outcome (Z * list Z * V)).
(** Reading does not change the files. *)
Context (read_same : forall off n f status bs f', ops_read off n f = Ok (status, bs, f') -> f' = f).

Lemma read_into_files p off n v v' : read_into HHDM ops_read p off n v = Ok v' -> files v' = files v.
Proof using read_same.
  intros E. unfold read_into in E. apply bind_Ok in E as ([[s bs] f] & E1 & E). apply read_same in E1 as ->. by rewrite (kwrite_files _ _ _ _ E).
Qed.

Lemma load_segments_files n i table a v a' v' : Forall anon (segments a) -> load_segments HHDM ops_read n i table a v = Ok (a', v') ->
  files v' = files v /\ Forall anon (segments a').
Proof using read_same.
  revert i a v. induction n as [|n IH]; intros i a v Hs E; cbn [load_segments] in E; [by injection E as <- <-|].
  apply bind_Ok in E as (raw & _ & E). apply bind_Ok in E as ([a1 v1] & E1 & E).
  assert (files v1 = files v /\ Forall anon (segments a1)) as [Hf Hs1]; [|destruct (IH _ _ _ Hs1 E) as [-> ?]; by rewrite Hf].
  clear E. destruct (loadable (Phdr_of raw)); [|by injection E1 as <- <-]. unfold load_segment in E1.
  apply bind_Ok in E1 as ([[r a2] v2] & E2 & E1). apply bind_Ok in E1 as (u & _ & E1). apply bind_Ok in E1 as ([buf m] & _ & E1).
  apply bind_Ok in E1 as (v3 & E3 & E1). apply bind_Ok in E1 as ([c v4] & E4 & E1). apply bind_Ok in E1 as (m' & _ & E1). injection E1 as <- <-.
  destruct (mmap_files _ _ _ _ SEGMENT_FLAGS _ _ _ _ _ _ eq_refl eq_refl Hs E2) as [Ef Hs2]. split; [|done]. cbn [files set_vm].
  rewrite (copy_files _ _ _ _ _ _ _ _ _ Hs2 E4), (read_into_files _ _ _ _ _ E3). done.
Qed.

Lemma exec_load_files machine size image init kernel fpu st p st' :
  exec_load HHDM ops_read machine size image init kernel fpu st = Ok (p, st') -> files (pv st') = files (pv st).
Proof using read_same.
  intros E. unfold exec_load in E. apply bind_Ok in E as ([[status bs] f] & E1 & E). apply read_same in E1 as ->.
  destruct (_ || _); [by injection E as _ <-|]. destruct (negb _); [by injection E as _ <-|]. destruct (negb _); [by injection E as _ <-|].
  apply bind_Ok in E as ([proc st1] & E2 & E). apply bind_Ok in E as ([table v1] & E3 & E). apply bind_Ok in E as (v2 & E4 & E).
  apply bind_Ok in E as (x & Ex & E). apply deref_Ok in Ex. apply bind_Ok in E as (a & Ea & E). apply deref_Ok in Ea.
  apply bind_Ok in E as ([a' v3] & E5 & E). apply bind_Ok in E as ([t st2] & E6 & E). apply bind_Ok in E as (k & _ & E). injection E as _ <-.
  destruct (proc_new_files _ _ _ _ E2) as (Ef & x' & a0 & Hx' & Ha0 & Hnil). rewrite Ex in Hx'. injection Hx' as <-. rewrite Ea in Ha0. injection Ha0 as <-.
  destruct (load_segments_files _ _ _ _ _ _ _ ltac:(rewrite Hnil; constructor) E5) as [Ef5 Hs5].
  unfold heap_object in E3. apply bind_Ok in E3 as ([o k3] & _ & E3). injection E3 as _ <-.
  cbn [pv set_pv files set_objs]. rewrite (thread_new_files _ _ _ _ _ _ (set_spaces (<[p_space x := a']> (spaces st1)) (set_pv v3 st1)) _ _) with (2 := E6).
  - cbn [pv set_spaces set_pv]. rewrite Ef5, (read_into_files _ _ _ _ _ E4). exact Ef.
  - intros y b Hy Hb. cbn [procs spaces set_spaces set_pv] in Hy, Hb. rewrite Ex in Hy. injection Hy as <-. rewrite lookup_insert_eq in Hb. by injection Hb as <-.
Qed.
End files.

(** ** The two directories *)
Section boot.
Context {M K S F : Type} `{BlockMap M} `{ObjectAllocator K} `{ObjectAllocator F} `{Files (Nodes.fs S F)} (HHDM : Z).
Context (machine fpu_area_size : Z) (fpu_image : list Z) (userspace_init g_vmm_kernel_addr_space : Z).

(** *** Programs: the processes and the scheduler *)

Abbreviation psys' := (psys M K (Nodes.fs S F)).

Definition get_files (x : psys' * sched) : Nodes.fs S F := files (pv x.1).
Definition put_files (w : Nodes.fs S F) (x : psys' * sched) : psys' * sched := (set_pv (set_files w (pv x.1)) x.1, x.2).

(** [exec_load] and [sched_enqueue] of the first thread of the process; the
    scheduler's record of the thread is the one [thread_new] made. *)
Definition load_program (file : Z) (x : psys' * sched) : outcome (psys' * sched) :=
  '(proc, ps) ← exec_load HHDM (vo_read file) machine fpu_area_size fpu_image userspace_init g_vmm_kernel_addr_space None x.1;
  p ← deref (procs ps !! proc);
  t ← deref (head (p_threads p));
  n ← deref (pthreads ps !! t);
  s ← sched_enqueue t (set_threads (<[t := base_thread n]> (threads x.2)) x.2);
  Ok (ps, s).

Definition load_programs (fuel : nat) (m : mem) (g_trie_root : trie_node_t) (usr_bin : Z) (x : psys' * sched) : outcome (psys' * sched) :=
  load_directory get_files put_files load_program fuel m g_trie_root usr_bin x.

(** *** Modules: the kernel's address space and memory *)

Abbreviation mstate := (vmm_addr_space_t * vstate M K (Nodes.fs S F))%type.

(** The symbols of the kernel, the stack of [module_load], and what a function
    of a module does when it is called. *)
Context (ksym_data ksym_size frame : Z) (garbage : module_t) (call : Z -> mstate -> outcome mstate).

Definition get_mfiles (x : mstate) : Nodes.fs S F := files x.2.
Definition put_mfiles (w : Nodes.fs S F) (x : mstate) : mstate := (x.1, set_files w x.2).

Definition load_module (fuel : nat) (file : Z) (x : mstate) : outcome mstate :=
  '(ret, a, v) ← module_load HHDM (vo_read file) machine ksym_data ksym_size fuel fuel garbage frame x.1 x.2;
  match ret with
  | Some (_, md) => call (install md) (a, v)
  | None => Fault
  end.

Definition load_modules (fuel : nat) (m : mem) (g_trie_root : trie_node_t) (modules : Z) (x : mstate) : outcome mstate :=
  load_directory get_mfiles put_mfiles (load_module fuel) fuel m g_trie_root modules x.

(** *** Programs are loaded *)

Lemma initrd_read_same file off n (w : Nodes.fs S F) status bs w' : vo_read file off n w = Ok (status, bs, w') -> w' = w.
Proof. intros E. cbn [vo_read initrd_ops] in E. apply bind_Ok in E as ([s b] & _ & E). by injection E as _ _ <-. Qed.

Lemma load_program_keeps cs : keeps_tree get_files load_program cs.
Proof.
  intros c x x' _ E. unfold load_program in E. apply bind_Ok in E as ([proc ps] & E1 & E). do 4 (apply bind_Ok in E as (? & _ & E)). injection E as <-.
  unfold get_files. cbn [fst]. by rewrite (exec_load_files HHDM (vo_read c) (initrd_read_same c) _ _ _ _ _ _ _ _ _ E1).
Qed.

(** Every program adds its thread to the end of the queue. *)
Lemma program_queued c x x' : load_program c x = Ok x' ->
  exists t n, g_thread_list x'.2 = g_thread_list x.2 ++ [t] /\ pthreads x'.1 !! t = Some n /\ ~ linked t x.2.
Proof.
  intros E. unfold load_program in E. apply bind_Ok in E as ([proc ps] & _ & E). apply bind_Ok in E as (p & _ & E). apply bind_Ok in E as (t & _ & E).
  apply bind_Ok in E as (n & En & E). apply deref_Ok in En. apply bind_Ok in E as (s & Es & E). injection E as <-. exists t, n. cbn [fst snd].
  unfold sched_enqueue in Es. destruct (decide _) as [|Hn]; [done|]. unfold thread_ref in Es. apply bind_Ok in Es as (th & _ & Es). injection Es as <-.
  split; [done|]. split; [done|]. exact Hn.
Qed.

Lemma linked_queue t s : t ∈ g_thread_list s -> linked t s.
Proof. intros Ht. unfold linked. apply elem_of_app. by left. Qed.

Lemma each_program_queued cs x x' : each_file get_files put_files load_program cs x = Ok x' ->
  exists ts, length ts = length cs /\ g_thread_list x'.2 = g_thread_list x.2 ++ ts /\ NoDup ts /\ (forall t, t ∈ ts -> t ∉ g_thread_list x.2).
Proof.
  revert x. induction cs as [|c cs IH]; intros x E; cbn [each_file] in E.
  - injection E as <-. exists []. rewrite app_nil_r. split_and!; [done|done|constructor|]. intros t Ht. by apply not_elem_of_nil in Ht.
  - apply bind_Ok in E as (w & _ & E). apply bind_Ok in E as (x1 & E1 & E). apply bind_Ok in E as (w1 & _ & E).
    destruct (program_queued c _ _ E1) as (t & n & Hq & _ & Hn). destruct (IH _ E) as (ts & Hl & Hq' & Hnd & Hnew). cbn [put_files snd] in *.
    exists (t :: ts). rewrite Hq', Hq, <- app_assoc. split_and!; [cbn; by rewrite Hl|done| |].
    + constructor; [|done]. intros Ht. apply (Hnew t Ht). rewrite Hq. apply elem_of_app. right. by apply list_elem_of_singleton.
    + intros u [->|Hu]%elem_of_cons; [intros Hin; by apply Hn, linked_queue|]. intros Hin. apply (Hnew u Hu). rewrite Hq. apply elem_of_app. by left.
Qed.

(** C20: the loop over /usr/bin loads every program once.  On a directory whose
    files have different names, listing, opening, loading, queueing and releasing
    is the plain iteration over the files in the order of the archive, whatever
    it does; when it ends, the tree with its reference counts is as before and
    the queue has grown by one new thread per file. *)
Theorem boot_programs_queued x dir cs fuel : walkable dir cs (get_files x) -> (length cs < fuel)%nat ->
  load_files get_files put_files load_program fuel dir 0 x = each_file get_files put_files load_program cs x /\
  forall x', each_file get_files put_files load_program cs x = Ok x' -> nodes (get_files x') = nodes (get_files x) /\
    exists ts, length ts = length cs /\ g_thread_list x'.2 = g_thread_list x.2 ++ ts /\ NoDup ts /\ (forall t, t ∈ ts -> t ∉ g_thread_list x.2).
Proof.
  intros Hw Hf. destruct (walk_from get_files put_files load_program (fun _ _ => eq_refl) dir [] cs fuel x 0 Hw (load_program_keeps cs) Hf) as [E Hn].
  { by apply list_first. }
  split; [done|]. intros x' Ex. split; [by apply Hn|by apply (each_program_queued cs)].
Qed.

(** A file of /usr/bin that is no program, or of /modules that is no module,
    stops the start of the kernel: the null result is dereferenced. *)
Lemma bad_program_faults file x ps : procs ps !! NULL = None ->
  exec_load HHDM (vo_read file) machine fpu_area_size fpu_image userspace_init g_vmm_kernel_addr_space None x.1 = Ok (NULL, ps) ->
  load_program file x = Fault.
Proof. intros Hn E. unfold load_program. run E. by run Hn. Qed.

Lemma bad_module_faults fuel file x a v :
  module_load HHDM (vo_read file) machine ksym_data ksym_size fuel fuel garbage frame x.1 x.2 = Ok (None, a, v) -> load_module fuel file x = Fault.
Proof. intros E. unfold load_module. by run E. Qed.
End boot.

(** ** A concrete ram disk

    Two copies of a program of one segment in the directory at 500. *)
#[export, program] Instance ex_no_cache : Files (Nodes.fs unit fresh) := {|
  f_read vn off count w := Ok ([], w);
  f_find_page vn off w := Ok None;
  f_insert_page vn off p w := Ok w;
  f_release vn w := Ok w
|}.
Next Obligation. intros vn off count v bs v' Hc E. injection E as <- _. exact Hc. Qed.

Definition ex_ident : list Z := [127; 69; 76; 70; 2; 1; 1; 0; 0; 0; 0; 0; 0; 0; 0; 0].
Definition ex_elf : list Z :=
  Ehdr_bytes (Ehdr ex_ident ET_EXEC EM_x86_64 1 0x400000 64 0 0 64 56 1 0 0 0) ++ Phdr_bytes (Phdr PT_LOAD 5 120 0x400000 0x400000 3 32 0x1000) ++ [1; 2; 3].

Definition ex_initrd : Nodes.fs unit fresh :=
  Fs (<[500 := Vnode [98] VNODE_DIR 0 ustar_file_ops 1 (InitrdNode [501; 502] 0)]>
     (<[501 := Vnode [97] VNODE_REG 123 ustar_file_ops 0 (InitrdNode [] 1000)]>
     (<[502 := Vnode [99] VNODE_REG 123 ustar_file_ops 0 (InitrdNode [] 1000)]> ∅)))
    (write_bytes ∅ 1000 ex_elf) tt (Fresh 4096 []).

Definition ex_boot : psys (PageTables.tstate bump) fresh (Nodes.fs unit fresh) * sched :=
  (PSys (VState Ptm.ex_tabs (Fresh (Kmem.ex_HH + 2 ^ 40) []) ∅ ex_initrd) ∅ ∅ [] ∅ 1 0 0, Sched [] [] ∅ ∅ []).

Definition ex_load := load_program (M := PageTables.tstate bump) (S := unit) (K := fresh) (F := fresh) Kmem.ex_HH EM_x86_64 512 [] 0x1000 1.

(** Both programs are loaded and queued, in order. *)
Lemma ex_boot_runs : match load_files get_files put_files ex_load 3 500 0 ex_boot with
  | Ok x => bool_decide (length (g_thread_list x.2) = 2%nat) && bool_decide (length (g_proc_list x.1) = 2%nat)
  | _ => false
  end = true.
Proof. vm_compute. reflexivity. Qed.

Lemma ex_walkable : walkable 500 [501; 502] (get_files ex_boot).
Proof.
  split.
  - eexists. split; [reflexivity|]. by split.
  - intros c Hc. apply list_elem_of_In in Hc. destruct Hc as [<-|[<-|[]]]; (split; [done|]; split; [done|]; split; [done|]; eexists; split; [reflexivity|cbn; lia]).
  - apply (bool_decide_unpack (NoDup [501; 502])). reflexivity.
  - apply (bool_decide_unpack (NoDup [[97]; [99]])). reflexivity.
Qed.

Lemma boot_programs_queued_witness :
  load_files get_files put_files ex_load 3 500 0 ex_boot = each_file get_files put_files ex_load [501; 502] ex_boot.
Proof.
  apply (boot_programs_queued Kmem.ex_HH EM_x86_64 512 [] 0x1000 1 ex_boot 500 [501; 502] 3 ex_walkable). cbn. lia.
Defined.
