(* ===== verification/Archive.v ===== *)
(** * The archive becomes a tree (kernel/src/fs/initrd.c)

    What [initrd_init] makes of a USTAR archive in memory, from its bytes to open
    files: every entry of the archive is found under its path, with the type,
    size and contents the archive has for it.  Names are changed in place on the
    way, and directories are held and never released; the trees are compared
    without reference counts. *)
From stdpp Require Import base gmap list fin_maps.
From Stdlib Require Import ZArith Lia.
From S2P Require Import Prelude Interfaces Strings Nodes Vfs Initrd Boot.

(** ** Paths *)

Record comp_ok (c : list Z) : Prop := {
  co_nonempty : c <> [];
  co_nonzero : Forall (fun b => b <> 0) c;
  co_slash : first_index SLASH c = None;
  co_length : Z.of_nat (length c) < VFS_MAX_NAME_LEN;
}.

Fixpoint join (cs : list (list Z)) : list Z :=
  match cs with
  | [] => []
  | [c] => c
  | c :: cs => c ++ SLASH :: join cs
  end.

Lemma join_cons c d cs : join (c :: d :: cs) = c ++ SLASH :: join (d :: cs).
Proof. done. Qed.

Lemma join_snoc cs c : cs <> [] -> join (cs ++ [c]) = join cs ++ SLASH :: c.
Proof.
  induction cs as [|d cs IH]; [done|]. intros _. destruct cs as [|e cs]; [done|]. change ((d :: e :: cs) ++ [c]) with (d :: (e :: cs) ++ [c]).
  change (join (d :: (e :: cs) ++ [c])) with (d ++ SLASH :: join ((e :: cs) ++ [c])). rewrite IH by done. rewrite join_cons, <-app_assoc. done.
Qed.

Lemma first_index_slash c s : first_index SLASH c = None -> first_index SLASH (c ++ SLASH :: s) = Some (length c).
Proof.
  induction c as [|b c IH]; cbn [first_index app length]; [done|]. destruct (schar b =? SLASH); [done|].
  destruct (first_index SLASH c); [done|]. intros _. by rewrite IH.
Qed.

Lemma last_index_none c : first_index SLASH c = None -> last_index SLASH c = None.
Proof.
  induction c as [|b c IH]; cbn [first_index last_index]; [done|]. destruct (schar b =? SLASH); [done|].
  destruct (first_index SLASH c); [done|]. intros _. by rewrite IH.
Qed.

Lemma last_index_slash x c : first_index SLASH c = None -> last_index SLASH (x ++ SLASH :: c) = Some (length x).
Proof.
  intros Hc. induction x as [|b x IH]; cbn [app last_index length]; [by rewrite (last_index_none c Hc)|]. by rewrite IH.
Qed.

Lemma join_nonzero cs : Forall comp_ok cs -> Forall (fun b => b <> 0) (join cs).
Proof.
  induction cs as [|c cs IH]; [done|]. intros [Hc Hcs]%Forall_cons. destruct cs as [|d cs]; [apply Hc|]. rewrite join_cons.
  apply Forall_app_2; [apply Hc|]. apply Forall_cons_2; [done|by apply IH].
Qed.

(** ** Trees without reference counts *)

Definition same_node (n n' : vnode_t) : Prop := set_refs 0 n = set_refs 0 n'.
Definition same_tree (ns ns' : gmap Z vnode_t) : Prop := set_refs 0 <$> ns = set_refs 0 <$> ns'.

#[export] Instance same_tree_equiv : Equivalence same_tree.
Proof. split; unfold same_tree; [intros ns; done|intros ns ns'; done|intros a b c; congruence]. Qed.

Lemma same_tree_lookup ns ns' a n : same_tree ns ns' -> ns !! a = Some n -> exists n', ns' !! a = Some n' /\ same_node n n'.
Proof.
  intros Hs Hn. assert ((set_refs 0 <$> ns) !! a = Some (set_refs 0 n)) as H by (by rewrite lookup_fmap, Hn). rewrite Hs, lookup_fmap in H.
  destruct (ns' !! a) as [n'|] eqn:E; [|done]. injection H as H. exists n'. split; [done|]. unfold same_node, set_refs in *. congruence.
Qed.

Lemma same_node_fields n n' : same_node n n' ->
  vn_name n' = vn_name n /\ vn_type n' = vn_type n /\ vn_size n' = vn_size n /\ body n' = body n.
Proof. intros [= H1 H2 H3 H4 H5]. by rewrite H1, H2, H3, H5. Qed.

Lemma same_tree_hold a n r ns : ns !! a = Some n -> same_tree ns (<[a := set_refs r n]> ns).
Proof.
  intros Hn. unfold same_tree. rewrite fmap_insert. symmetry. apply insert_id. by rewrite lookup_fmap, Hn.
Qed.

(** Only the names of the nodes matter to a search. *)
Definition keeps_names (ns ns' : gmap Z vnode_t) : Prop :=
  forall a n, ns !! a = Some n -> exists n', ns' !! a = Some n' /\ vn_name n' = vn_name n.

Lemma find_name_keeps ns ns' cs c r : keeps_names ns ns' -> find_name cs c ns = Ok r -> find_name cs c ns' = Ok r.
Proof.
  intros Hs. induction cs as [|a cs IH]; cbn [find_name]; [done|]. intros E. apply bind_Ok in E as (n & En & E). apply deref_Ok in En.
  destruct (Hs _ _ En) as (n' & En' & Hn'). run En'. rewrite Hn'. case_bool_decide; [done|by apply IH].
Qed.

Lemma same_keeps ns ns' : same_tree ns ns' -> keeps_names ns ns'.
Proof. intros Hs a n Hn. destruct (same_tree_lookup _ _ _ _ Hs Hn) as (n' & Hn' & (? & _)%same_node_fields). eauto. Qed.

Lemma subset_keeps ns ns' : ns ⊆ ns' -> keeps_names ns ns'.
Proof. intros Hs a n Hn. exists n. split; [by eapply lookup_weaken|done]. Qed.

Lemma find_name_app cs l c ns r : find_name cs c ns = Ok r -> find_name (cs ++ l) c ns = match r with Some e => Ok (Some e) | None => find_name l c ns end.
Proof.
  induction cs as [|a cs IH]; cbn [find_name app]; [by intros [= <-]|]. intros E. apply bind_Ok in E as (n & -> & E). go.
  case_bool_decide; [by injection E as <-|by apply IH].
Qed.

(** The node that a path leads to from a directory. *)
Inductive resolves (ns : gmap Z vnode_t) : Z -> list (list Z) -> Z -> Prop :=
| res_nil d : resolves ns d [] d
| res_cons d n kids data c cs e v : ns !! d = Some n -> vn_type n = VNODE_DIR -> body n = InitrdNode kids data ->
    find_name kids c ns = Ok (Some e) -> resolves ns e cs v -> resolves ns d (c :: cs) v.

Lemma resolves_mono ns ns' d cs v : ns ⊆ ns' -> resolves ns d cs v -> resolves ns' d cs v.
Proof.
  intros Hs H. induction H as [|d n kids data c cs e v Hn Ht Hb Hf _ IH]; [constructor|].
  eapply res_cons; [by eapply lookup_weaken|done|done|eapply find_name_keeps; [by apply subset_keeps|done]|done].
Qed.

#[export] Instance resolves_proper : Proper (same_tree ==> eq ==> eq ==> eq ==> impl) resolves.
Proof.
  intros ns ns' Hs d ? <- cs ? <- v ? <- H. induction H as [|d n kids data c cs e v Hn Ht Hb Hf _ IH]; [constructor|].
  destruct (same_tree_lookup _ _ _ _ Hs Hn) as (n' & Hn' & Hsn). destruct (same_node_fields _ _ Hsn) as (_ & Ht' & _ & Hb').
  eapply res_cons; [exact Hn'|congruence|by rewrite Hb'|eapply find_name_keeps; [by apply same_keeps|done]|done].
Qed.

Section archive.
Context {S K : Type} `{ObjectAllocator K}.
Implicit Types st : Nodes.fs S K.

Lemma find_name_Some cs c ns e : find_name cs c ns = Ok (Some e) -> exists n, ns !! e = Some n /\ vn_name n = c /\ e ∈ cs.
Proof.
  induction cs as [|a cs IH]; cbn [find_name]; [done|]. intros E. apply bind_Ok in E as (n & En & E). apply deref_Ok in En.
  case_bool_decide as Hc; [|destruct (IH E) as (n' & ? & ? & ?); exists n'; split; [done|]; split; [done|by right]].
  injection E as <-. exists n. split; [done|]. split; [done|by left].
Qed.

(** Opening an entry of a directory holds it. *)
Lemma open_found d n kids data c e st : nodes st !! d = Some n -> vn_type n = VNODE_DIR -> body n = InitrdNode kids data ->
  find_name kids c (nodes st) = Ok (Some e) ->
  exists st', initrd_open d c st = Ok (EOK, e, st') /\ same_tree (nodes st) (nodes st') /\ fmem st' = fmem st /\ fobjs st' = fobjs st.
Proof.
  intros Hn Ht Hb Hf. unfold initrd_open, open_in. run Hn. rewrite Ht. cbn [negb bool_decide]. rewrite bool_decide_eq_true_2 by done. cbn [negb].
  unfold children_of. rewrite Hb. go. run Hf. destruct (find_name_Some _ _ _ _ Hf) as (x & Hx & _). unfold VN_HOLD. run Hx.
  eexists. split; [reflexivity|]. split; [by apply same_tree_hold|done].
Qed.

Lemma open_missing d n kids data c st : nodes st !! d = Some n -> vn_type n = VNODE_DIR -> body n = InitrdNode kids data ->
  find_name kids c (nodes st) = Ok None -> initrd_open d c st = Ok (ENOENT, NULL, st).
Proof.
  intros Hn Ht Hb Hf. unfold initrd_open, open_in. run Hn. rewrite Ht. rewrite bool_decide_eq_true_2 by done. cbn [negb].
  unfold children_of. rewrite Hb. go. by run Hf.
Qed.

(** The walk of [process_entry] ends at the directory of the entry. *)
Lemma find_parent_ok pre name : Forall comp_ok (pre ++ [name]) -> forall fuel sfuel curr p st d n kids data,
  cstr (fmem st) p (join (pre ++ [name])) -> 0 < p -> (length (join (pre ++ [name])) < sfuel)%nat -> (length pre < fuel)%nat ->
  resolves (nodes st) curr pre d -> nodes st !! d = Some n -> vn_type n = VNODE_DIR -> body n = InitrdNode kids data ->
  find_name kids name (nodes st) = Ok None ->
  exists st', find_parent fuel sfuel curr p st = Ok (d, st') /\ same_tree (nodes st) (nodes st') /\ fobjs st' = fobjs st /\
    (forall a, a < p \/ p + Z.of_nat (length (join (pre ++ [name]))) <= a -> fmem st' !! a = fmem st !! a).
Proof.
  induction pre as [|c pre IH]; intros Hok fuel sfuel curr p st d n kids data Hstr Hp Hsf Hf Hres Hn Ht Hb Hnone; (destruct fuel as [|fuel]; [cbn in Hf; lia|]).
  - inversion Hres; subst. cbn [app join] in *. apply Forall_singleton in Hok as [Hne Hnz Hsl Hlen]. cbn [find_parent].
    destruct name as [|b name]; [done|]. pose proof Hstr as (Hb0 & Hbn & _)%cstr_cons. rewrite (load_Ok _ _ _ Hb0). go. rewrite (proj2 (Z.eqb_neq b 0) Hbn).
    rewrite (strchr_ok _ _ _ _ _ Hstr Hsf), Hsl. go. cbn [ptr_at]. change (NULL =? NULL) with true. cbn [negb]. go.
    assert (set_fmem (fmem st) st = st) as -> by (by destruct st). rewrite (read_cstr_ok _ _ _ _ Hstr Hsf). go.
    rewrite (open_missing d n kids data _ st) by done. go. change (ENOENT =? EOK) with false. cbv iota. exists st. split; [done|]. split; [done|]. done.
  - inversion Hres as [|? n1 kids1 data1 ? ? e ? Hn1 Ht1 Hb1 Hf1 Hres1]; subst. change ((c :: pre) ++ [name]) with (c :: pre ++ [name]) in *.
    destruct (pre ++ [name]) as [|d1 rest] eqn:Erest; [by destruct pre|]. rewrite join_cons in *. apply Forall_cons in Hok as [[Hne Hnz Hsl Hlen] Hok].
    rewrite length_app in *. cbn [length] in *. cbn [find_parent].
    assert (exists b c', c = b :: c' /\ b <> 0) as (b & c' & Ec & Hb0) by (destruct c as [|b c']; [done|]; apply Forall_cons in Hnz as [? _]; eauto).
    assert (load (fmem st) p = Ok b) as ->.
    { rewrite Ec in Hstr. cbn [app] in Hstr. apply cstr_cons in Hstr as (Hx & _). by apply load_Ok. }
    go. rewrite (proj2 (Z.eqb_neq b 0) Hb0). rewrite (strchr_ok _ _ _ _ _ Hstr) by (rewrite length_app; cbn [length]; lia). rewrite first_index_slash by done. go.
    cbn [ptr_at]. set (q := p + Z.of_nat (length c)). rewrite (proj2 (Z.eqb_neq q NULL)) by (unfold q, NULL; lia). cbn [negb].
    pose proof Hstr as [Hbytes Hnz']. rewrite <-app_assoc in Hbytes. pose proof Hbytes as [Hbc Hbr]%bytes_at_app. cbn [app] in Hbr. fold q in Hbr.
    pose proof Hbr as [Hslash Hbr']%bytes_at_cons. unfold store. run Hslash. set (m1 := <[q := 0]> (fmem st)).
    assert (cstr m1 p c) as Hc1.
    { split; [|done]. apply bytes_at_app. split; [apply bytes_at_insert; [unfold q; lia|done]|]. apply bytes_at_cons. split; [apply lookup_insert_eq|apply bytes_at_nil]. }
    rewrite (read_cstr_ok m1 p c) by (done || lia). go.
    destruct (open_found curr n1 kids1 data1 c e (set_fmem m1 st)) as (st1 & E1 & Hs1 & Hm1 & Ho1); [done..|]. rewrite E1. go. change (EOK =? EOK) with true. cbv iota.
    cbn [nodes fmem set_fmem fobjs] in *. replace (p + Z.of_nat (length c) + 1) with (q + 1) by (unfold q; lia).
    destruct (same_tree_lookup _ _ _ _ Hs1 Hn) as (n' & Hn' & Hsn). destruct (same_node_fields _ _ Hsn) as (_ & Ht' & _ & Hb').
    destruct (IH Hok fuel sfuel e (q + 1) st1 d n' kids data) as (st2 & E2 & Hs2 & Ho2 & Hm2).
    + split; [|apply Forall_app in Hnz' as [_ [_ ?]%Forall_cons]; done]. rewrite Hm1. apply bytes_at_insert; [lia|done].
    + unfold q. lia.
    + lia.
    + lia.
    + by rewrite <-Hs1.
    + done.
    + congruence.
    + by rewrite Hb'.
    + eapply find_name_keeps; [by apply same_keeps|done].
    + exists st2. split; [done|]. split; [by etrans|]. split; [congruence|]. intros a Ha. rewrite Hm2 by (unfold q in *; lia). rewrite Hm1. apply lookup_insert_ne. unfold q. lia.
Qed.

(** *** Entries *)

(** An entry of an archive: the name in the header, the path it stands for, its
    type and contents. *)
Record entry := Entry { e_raw : list Z; e_dir : list (list Z); e_name : list Z; e_type : vnode_type_t; e_content : list Z }.

Definition type_char (t : vnode_type_t) : Z :=
  match t with VNODE_REG => USTAR_REG | VNODE_DIR => USTAR_DIR | VNODE_FIFO => USTAR_FIFO | VNODE_CHAR => USTAR_CHAR | VNODE_BLOCK => USTAR_BLOCK | VNODE_SOCKET => 0 end.

Record entry_ok (e : entry) : Prop := {
  eo_path : Forall comp_ok (e_dir e ++ [e_name e]);
  eo_norm : strip (norm false (e_raw e)) = join (e_dir e ++ [e_name e]);
  eo_raw : (length (e_raw e) < 100)%nat;
  eo_type : e_type e <> VNODE_SOCKET;
  eo_size : Z.of_nat (length (e_content e)) < 2 ^ 31;
}.

(** The entry is in memory at [hdr], as the archiver writes it. *)
Record entry_at (m : mem) (hdr : Z) (e : entry) : Prop := {
  ea_name : cstr m (hdr + HDR_filename) (e_raw e);
  ea_size : bytes_at m (hdr + HDR_size) (octal 11 (Z.of_nat (length (e_content e))) ++ [0]);
  ea_type : m !! (hdr + HDR_type) = Some (type_char (e_type e));
  ea_magic : cstr m (hdr + HDR_magic) USTAR_MAGIC;
  ea_content : bytes_at m (hdr + 512) (e_content e);
}.

(** All nodes but the root, which is static, are objects in use. *)
Context (root : Z).

Record tree_ok st (U : gset Z) : Prop := {
  to_heap : oa_state (fobjs st) U;
  to_dom a : is_Some (nodes st !! a) -> a = root \/ a ∈ U;
  to_null : nodes st !! NULL = None;
}.

Context (Hroot : forall k U size o k', oa_state k U -> obj_alloc size k = Ok (o, k') -> o <> root).

Lemma entry_type_char t : t <> VNODE_SOCKET -> entry_type (type_char t) = Ok t.
Proof. by destruct t. Qed.

Definition new_node (hdr : Z) (e : entry) : vnode_t :=
  Vnode (e_name e) (e_type e) (Z.of_nat (length (e_content e))) ustar_file_ops 0 (InitrdNode [] (hdr + 512)).

(** What remains of the name after the last slash. *)
Lemma last_component m p cs c fuel : Forall comp_ok (cs ++ [c]) -> 0 < p -> cstr m p (join (cs ++ [c])) -> (length (join (cs ++ [c])) < fuel)%nat ->
  exists q, strrchr fuel m p SLASH = Ok q /\ read_cstr fuel m (if negb (q =? NULL) then q + 1 else p) = Ok c.
Proof.
  intros Hok Hp Hs Hf. rewrite (strrchr_ok _ _ _ _ _ Hs Hf). eexists. split; [reflexivity|]. apply Forall_app in Hok as [_ [Hne Hnz Hsl _]%Forall_singleton].
  destruct cs as [|d cs].
  - cbn [app join] in *. rewrite (last_index_none c Hsl). cbn [ptr_at]. by apply read_cstr_ok.
  - rewrite join_snoc in * by done. rewrite last_index_slash by done. cbn [ptr_at]. rewrite (proj2 (Z.eqb_neq _ NULL)) by (unfold NULL; lia). cbn [negb].
    rewrite length_app in Hf. cbn [length] in Hf. apply read_cstr_ok; [|lia]. destruct Hs as [Hs _]. split; [|done]. rewrite <-app_assoc in Hs.
    apply bytes_at_app in Hs as [_ Hs]. cbn [app] in Hs. by apply bytes_at_cons in Hs as [_ Hs].
Qed.

Lemma path_short cs c : Forall comp_ok (cs ++ [c]) -> (length cs < length (join (cs ++ [c])))%nat.
Proof.
  induction cs as [|d cs IH]; intros Hok; [apply Forall_singleton in Hok as [Hne _ _ _]; cbn; destruct c; [done|cbn; lia]|].
  change ((d :: cs) ++ [c]) with (d :: cs ++ [c]) in *. apply Forall_cons in Hok as [_ Hok]. specialize (IH Hok).
  destruct (cs ++ [c]) as [|x l] eqn:E; [by destruct cs|]. rewrite join_cons, length_app. cbn [length] in *. lia.
Qed.

(** The header as far as it is read after the name was changed. *)
Lemma entry_agree m m' hdr e : (forall a, a < hdr \/ hdr + 100 <= a -> m' !! a = m !! a) -> entry_at m hdr e ->
  bytes_at m' (hdr + HDR_size) (octal 11 (Z.of_nat (length (e_content e))) ++ [0]) /\
  m' !! (hdr + HDR_type) = Some (type_char (e_type e)) /\ bytes_at m' (hdr + 512) (e_content e).
Proof.
  intros Ha [_ Hs Ht _ Hc]. unfold HDR_size, HDR_type in *. split_and!.
  - intros i b Hi. rewrite Ha by lia. by apply Hs.
  - rewrite Ha by lia. done.
  - intros i b Hi. rewrite Ha by lia. by apply Hc.
Qed.

(** Adding an entry: a new node, last in its directory. *)
Lemma process_entry_ok fuel hdr e st U d n kids data : entry_ok e -> entry_at (fmem st) hdr e -> 0 < hdr -> hdr + 512 < 2 ^ 64 -> tree_ok st U ->
  resolves (nodes st) root (e_dir e) d -> nodes st !! d = Some n -> vn_type n = VNODE_DIR -> body n = InitrdNode kids data ->
  find_name kids (e_name e) (nodes st) = Ok None -> (100 <= fuel)%nat ->
  process_entry fuel root hdr st = Panic \/
  exists o st', process_entry fuel root hdr st = Ok st' /\ nodes st !! o = None /\ 0 < o /\ oa_state (fobjs st') ({[o]} ∪ U) /\
    same_tree (nodes st') (<[d := with_children (kids ++ [o]) n]> (<[o := new_node hdr e]> (nodes st))) /\
    (forall a, a < hdr \/ hdr + 100 <= a -> fmem st' !! a = fmem st !! a).
Proof.
  intros [Hpath Hnorm Hraw Hty Hsz] Hat Hh1 Hh2 [Hheap Hdom _] Hres Hn Ht Hb Hnone Hf. unfold process_entry. set (p := hdr + HDR_filename).
  assert (p = hdr) as Ep by (unfold p, HDR_filename; lia). pose proof (ea_name _ _ _ Hat) as Hstr. fold p in Hstr.
  destruct (path_normalize_correct fuel (fmem st) p p (e_raw e)) as (m1 & E1 & Hs1 & Hm1);
    [done|by apply cstr_mapped|left; lia|lia|]. rewrite E1. go. rewrite Hnorm in Hs1. set (s := join (e_dir e ++ [e_name e])) in *.
  assert (length s <= length (e_raw e))%nat as Hls.
  { rewrite <-Hnorm. pose proof (norm_length false (e_raw e)). unfold strip. case_match; [rewrite length_take|]; lia. }
  assert (forall a, a < hdr \/ hdr + 100 <= a -> m1 !! a = fmem st !! a) as Hm1' by (intros a Ha; apply Hm1; lia).
  destruct (obj_alloc_spec (fobjs st) U sizeof_initrd_node Hheap) as [E2|(o & k & E2 & Hk & Ho & Hopos & _)]; [unfold sizeof_initrd_node; lia|run E2; by left|]. run E2.
  assert (nodes st !! o = None) as Hno.
  { destruct (nodes st !! o) eqn:E; [|done]. destruct (Hdom o) as [->|Hu]; [eauto|by apply (Hroot _ _ _ _ _ Hheap) in E2|done]. }
  assert (length s < fuel)%nat as Hsf by lia.
  destruct (last_component m1 p (e_dir e) (e_name e) fuel Hpath ltac:(lia) Hs1 Hsf) as (q & E3 & E4). rewrite E3. go. rewrite E4. go.
  pose proof Hpath as [_ [_ _ _ Hlen]%Forall_singleton]%Forall_app. unfold copy_name. rewrite (proj2 (Z.ltb_lt _ _) Hlen). go.
  destruct (entry_agree _ m1 hdr e Hm1' Hat) as (Hsize & Htype & _). rewrite (load_Ok _ _ _ Htype). go. rewrite (entry_type_char _ Hty). go.
  rewrite (ustar_field_roundtrip m1 _ (Z.of_nat (length (e_content e)))) by (done || (split; [lia|]; etrans; [exact Hsz|vm_compute; done])). go.
  rewrite (u64_small (hdr + 512)) by lia. fold (new_node hdr e). cbn [nodes set_fobjs set_fmem].
  set (st1 := set_nodes (<[o := new_node hdr e]> (nodes st)) (set_fobjs k (set_fmem m1 st))).
  assert (nodes st ⊆ nodes st1) as Hsub by (by apply insert_subseteq). assert (d <> o) as Hdo by congruence.
  destruct (find_parent_ok (e_dir e) (e_name e) Hpath fuel fuel root p st1 d n kids data) as (st2 & E5 & Hs2 & Ho2 & Hm2); try done.
  { lia. }
  { apply path_short in Hpath. fold s in Hpath. lia. }
  { by eapply resolves_mono. }
  { by eapply lookup_weaken. }
  { eapply find_name_keeps; [by apply subset_keeps|done]. }
  run E5. destruct (same_tree_lookup _ _ d n Hs2) as (n2 & Hn2 & Hsn); [by eapply lookup_weaken|]. run Hn2.
  destruct (same_node_fields _ _ Hsn) as (Hnm & Hty2 & Hsz2 & Hb2). unfold children_of. rewrite Hb2, Hb. go. right.
  exists o. eexists. split; [reflexivity|]. cbn [nodes fmem fobjs set_nodes]. split; [done|]. split; [done|]. split; [by rewrite Ho2|]. split.
  - unfold same_tree. rewrite !fmap_insert. unfold same_tree in Hs2. rewrite <-Hs2. cbn [nodes st1 set_nodes]. rewrite fmap_insert. f_equal.
    unfold with_children, set_body, set_refs. cbn. rewrite Hb2, Hb. unfold same_node, set_refs in Hsn. injection Hsn as H1 H2 H3 H4 H5. by rewrite H1, H2, H3, H4.
  - intros a Ha. fold s in Hm2. rewrite Hm2 by lia. cbn [fmem st1 set_nodes set_fobjs set_fmem]. by apply Hm1'.
Qed.

(** *** The shape of the tree

    [M] maps the paths there are to their nodes; the tree has exactly these. *)
Abbreviation path := (list (list Z)).

Record shape (ns : gmap Z vnode_t) (M : gmap path Z) : Prop := {
  sh_root : M !! [] = Some root;
  sh_inj p q v : M !! p = Some v -> M !! q = Some v -> p = q;
  sh_dir p c v : M !! (p ++ [c]) = Some v -> exists w n, M !! p = Some w /\ ns !! w = Some n /\ vn_type n = VNODE_DIR;
  sh_kids p v : M !! p = Some v -> exists n kids data, ns !! v = Some n /\ body n = InitrdNode kids data /\
    forall c, find_name kids c ns = Ok (M !! (p ++ [c]));
}.

Lemma shape_same ns ns' M : same_tree ns ns' -> shape ns M -> shape ns' M.
Proof.
  intros Hs [Hr Hi Hd Hk]. split; [done|done| |].
  - intros p c v Hv. destruct (Hd p c v Hv) as (w & n & Hw & Hn & Ht). destruct (same_tree_lookup _ _ _ _ Hs Hn) as (n' & Hn' & (_ & Ht' & _)%same_node_fields).
    exists w, n'. split_and!; [done|done|congruence].
  - intros p v Hv. destruct (Hk p v Hv) as (n & kids & data & Hn & Hb & Hf). destruct (same_tree_lookup _ _ _ _ Hs Hn) as (n' & Hn' & (_ & _ & _ & Hb')%same_node_fields).
    exists n', kids, data. split_and!; [done|congruence|]. intros c. eapply find_name_keeps; [by apply same_keeps|apply Hf].
Qed.

(** Paths of the map resolve. *)
Lemma shape_resolves ns M cs : shape ns M -> forall p v w, M !! p = Some v -> M !! (p ++ cs) = Some w -> resolves ns v cs w.
Proof.
  intros Hsh. induction cs as [|c cs IH]; intros p v w Hv Hw.
  - rewrite app_nil_r in Hw. assert (v = w) as -> by congruence. constructor.
  - replace (p ++ c :: cs) with ((p ++ [c]) ++ cs) in Hw by (by rewrite <-app_assoc).
    assert (is_Some (M !! (p ++ [c]))) as [x Hx].
    { clear IH Hv. revert w Hw. induction cs as [|d cs IHc] using rev_ind; intros w Hw; [rewrite app_nil_r in Hw; eauto|].
      rewrite app_assoc in Hw. destruct (sh_dir _ _ Hsh _ _ _ Hw) as (y & _ & Hy & _). by eapply IHc. }
    destruct (sh_dir _ _ Hsh _ _ _ Hx) as (v' & n' & Hv' & Hn' & Ht). assert (v' = v) as -> by congruence.
    destruct (sh_kids _ _ Hsh _ _ Hv) as (n & kids & data & Hn & Hb & Hf). assert (n' = n) as -> by congruence.
    eapply res_cons; [done|done|done|by rewrite Hf, Hx|]. by apply (IH (p ++ [c])).
Qed.

(** A new entry in a directory of the tree. *)
Lemma shape_add ns M dir d n kids data name o x : shape ns M -> M !! dir = Some d -> ns !! d = Some n -> vn_type n = VNODE_DIR ->
  body n = InitrdNode kids data -> M !! (dir ++ [name]) = None -> ns !! o = None -> vn_name x = name -> (exists dat, body x = InitrdNode [] dat) ->
  shape (<[d := with_children (kids ++ [o]) n]> (<[o := x]> ns)) (<[dir ++ [name] := o]> M).
Proof.
  intros Hsh Hd Hn Ht Hb Hnew Ho Hname (dat & Hxb). pose proof Hsh as [Hr Hi Hdir Hk]. set (ns' := <[d := _]> _).
  assert (d <> o) as Hdo by congruence.
  assert (keeps_names ns ns') as Hkeep.
  { intros a na Ha. unfold ns'. destruct (decide (a = d)) as [->|Had].
    - rewrite lookup_insert_eq. eexists. split; [done|]. by assert (na = n) as -> by congruence.
    - rewrite lookup_insert_ne, lookup_insert_ne by congruence. eauto. }
  assert (forall p v, M !! p = Some v -> v <> o) as Hold.
  { intros p v Hv ->. destruct (Hk _ _ Hv) as (? & ? & ? & Hx & _). congruence. }
  assert (forall p, p ++ [name] <> []) as Hnil by (intros p Hp; by destruct p).
  split.
  - rewrite lookup_insert_ne by apply Hnil. done.
  - intros p q v [[<- <-]|[Hp Hpv]]%lookup_insert_Some [[<- Hqv]|[Hq Hqv]]%lookup_insert_Some; [done|by apply Hold in Hqv|subst; by apply Hold in Hpv|by eapply Hi].
  - intros p c v [[Hpc <-]|[Hpc Hv]]%lookup_insert_Some.
    + apply app_inj_tail in Hpc as [<- <-]. exists d, (with_children (kids ++ [o]) n). rewrite lookup_insert_ne by (intros E; apply (f_equal length) in E; rewrite length_app in E; cbn in E; lia).
      split; [done|]. split; [apply lookup_insert_eq|]. done.
    + destruct (Hdir p c v Hv) as (w & nw & Hw & Hnw & Htw). exists w. destruct (decide (w = d)) as [->|Hwd].
      * exists (with_children (kids ++ [o]) n). rewrite lookup_insert_ne by congruence. split; [done|]. split; [apply lookup_insert_eq|]. done.
      * exists nw. rewrite lookup_insert_ne by congruence. split; [done|]. unfold ns'. rewrite !lookup_insert_ne by congruence. done.
  - intros p v [[<- <-]|[Hp Hv]]%lookup_insert_Some.
    + exists x, [], dat. unfold ns'. rewrite lookup_insert_ne, lookup_insert_eq by done. split_and!; [done|done|]. intros c. cbn [find_name]. f_equal. symmetry.
      rewrite lookup_insert_ne by (intros E; apply (f_equal length) in E; rewrite !length_app in E; cbn in E; lia).
      destruct (M !! ((dir ++ [name]) ++ [c])) eqn:E; [|done]. destruct (Hdir _ _ _ E) as (? & ? & ? & _). congruence.
    + destruct (Hk p v Hv) as (nv & ks & dt & Hnv & Hbv & Hf). destruct (decide (v = d)) as [->|Hvd].
      * assert (p = dir) as -> by (by eapply Hi). assert (nv = n) as -> by congruence. assert (ks = kids /\ dt = data) as [-> ->] by (rewrite Hb in Hbv; by injection Hbv as <- <-).
        exists (with_children (kids ++ [o]) n), (kids ++ [o]), data. split; [apply lookup_insert_eq|]. split; [unfold with_children; cbn; by rewrite Hb|].
        intros c. rewrite (find_name_app _ _ _ _ (M !! (dir ++ [c]))) by (eapply find_name_keeps; [done|apply Hf]).
        destruct (decide (c = name)) as [->|Hc].
        -- rewrite Hnew, lookup_insert_eq. cbn [find_name]. unfold ns'. rewrite lookup_insert_ne, lookup_insert_eq by done. go. by rewrite bool_decide_eq_true_2.
        -- rewrite lookup_insert_ne by (intros E; apply app_inj_tail in E as [_ ->]; done). destruct (M !! (dir ++ [c])); [done|]. cbn [find_name].
           unfold ns'. rewrite lookup_insert_ne, lookup_insert_eq by done. go. by rewrite bool_decide_eq_false_2 by congruence.
      * exists nv, ks, dt. assert (v <> o) by (by eapply Hold). unfold ns' at 1. rewrite !lookup_insert_ne by congruence. split_and!; [done|done|]. intros c.
        rewrite lookup_insert_ne; [eapply find_name_keeps; [done|apply Hf]|]. intros E. apply app_inj_tail in E as [-> _]. congruence.
Qed.

(** *** The whole archive *)

Definition e_path (e : entry) : path := e_dir e ++ [e_name e].
Definition next_hdr (hdr : Z) (e : entry) : Z := hdr + 512 * ((Z.of_nat (length (e_content e)) + 511) / 512 + 1).

(** The entries from [hdr] on, ended by two blocks without a magic. *)
Fixpoint archive_at (m : mem) (hdr : Z) (es : list entry) : Prop :=
  match es with
  | [] => m !! (hdr + HDR_magic) = Some 0 /\ m !! (hdr + 512 + HDR_magic) = Some 0
  | e :: es => entry_at m hdr e /\ archive_at m (next_hdr hdr e) es
  end.

Fixpoint places (hdr : Z) (es : list entry) : list (Z * entry) :=
  match es with [] => [] | e :: es => (hdr, e) :: places (next_hdr hdr e) es end.

Fixpoint archive_end (hdr : Z) (es : list entry) : Z :=
  match es with [] => hdr | e :: es => archive_end (next_hdr hdr e) es end.

(** Every entry comes after its directory, and none twice. *)
Fixpoint ordered (dirs seen : gset path) (es : list entry) : Prop :=
  match es with
  | [] => True
  | e :: es => e_dir e ∈ dirs /\ e_path e ∉ seen /\
      ordered (if bool_decide (e_type e = VNODE_DIR) then {[e_path e]} ∪ dirs else dirs) ({[e_path e]} ∪ seen) es
  end.

(** The entry at [hdr] is in the tree. *)
Definition located st (M : gmap path Z) (hdr : Z) (e : entry) : Prop := exists v n kids,
  M !! e_path e = Some v /\ nodes st !! v = Some n /\ vn_name n = e_name e /\ vn_type n = e_type e /\
  vn_size n = Z.of_nat (length (e_content e)) /\ body n = InitrdNode kids (hdr + 512) /\ bytes_at (fmem st) (hdr + 512) (e_content e).

Lemma next_hdr_bounds hdr e : hdr + 512 + Z.of_nat (length (e_content e)) <= next_hdr hdr e /\ hdr + 512 <= next_hdr hdr e.
Proof. unfold next_hdr. dlia. Qed.

Lemma archive_end_ge hdr es : hdr <= archive_end hdr es.
Proof. revert hdr. induction es as [|e es IH]; intros hdr; cbn [archive_end]; [lia|]. pose proof (next_hdr_bounds hdr e). specialize (IH (next_hdr hdr e)). lia. Qed.

(** What is read of the archive from [hdr] on lies there. *)
Lemma archive_agree m m' es : forall hdr, (forall a, hdr <= a -> m' !! a = m !! a) -> archive_at m hdr es -> archive_at m' hdr es.
Proof.
  induction es as [|e es IH]; intros hdr Ha; cbn [archive_at].
  - unfold HDR_magic. intros [H1 H2]. rewrite !Ha by lia. done.
  - intros [Hat Hes]. pose proof (next_hdr_bounds hdr e). split; [|apply IH; [intros a Hx; apply Ha; lia|done]].
    unfold HDR_filename, HDR_size, HDR_type, HDR_magic in *. destruct Hat as [[H1 H1'] H2 H3 [H4 H4'] H5]. unfold HDR_filename, HDR_size, HDR_type, HDR_magic in *.
    split; unfold HDR_filename, HDR_size, HDR_type, HDR_magic.
    + split; [|done]. intros i b Hi. rewrite Ha by lia. by apply H1.
    + intros i b Hi. rewrite Ha by lia. by apply H2.
    + by rewrite Ha by lia.
    + split; [|done]. intros i b Hi. rewrite Ha by lia. by apply H4.
    + intros i b Hi. rewrite Ha by lia. by apply H5.
Qed.

(** The step of the loop to the next header. *)
Lemma next_hdr_code hdr e : 0 <= hdr -> next_hdr hdr e < 2 ^ 64 -> Z.of_nat (length (e_content e)) < 2 ^ 31 ->
  u64 (hdr + u32 ((u32 (u32 (u32 (Z.of_nat (length (e_content e))) + 512) - 1) / 512 + 1) * 512)) = next_hdr hdr e.
Proof.
  intros Hh Hn Hl. set (n := Z.of_nat (length (e_content e))) in *. assert (0 <= n) by lia. unfold u32.
  rewrite (Z.mod_small n), (Z.mod_small (n + 512)), (Z.mod_small (n + 512 - 1)) by lia. replace (n + 512 - 1) with (n + 511) by lia.
  rewrite (Z.mod_small (_ * _)) by dlia. unfold next_hdr in *. fold n in Hn |- *. replace (512 * ((n + 511) / 512 + 1)) with (((n + 511) / 512 + 1) * 512) in * by lia.
  apply u64_small. dlia.
Qed.

(** The tree after an entry was added: nodes keep all but their children. *)
Definition added st st' (d o : Z) (x : vnode_t) : Prop := exists n kids data,
  nodes st !! d = Some n /\ body n = InitrdNode kids data /\ nodes st !! o = None /\
  same_tree (nodes st') (<[d := with_children (kids ++ [o]) n]> (<[o := x]> (nodes st))).

Lemma added_old st st' d o x v nv : added st st' d o x -> nodes st !! v = Some nv ->
  exists n2, nodes st' !! v = Some n2 /\ vn_name n2 = vn_name nv /\ vn_type n2 = vn_type nv /\ vn_size n2 = vn_size nv /\
    forall ks dt, body nv = InitrdNode ks dt -> exists ks', body n2 = InitrdNode ks' dt.
Proof.
  intros (n & kids & data & Hd & Hb & Ho & Hs) Hv. symmetry in Hs.
  destruct (decide (v = d)) as [->|Hvd].
  - destruct (same_tree_lookup _ _ d _ Hs (lookup_insert_eq _ _ _)) as (n2 & Hn2 & (F1 & F2 & F3 & F4)%same_node_fields). assert (nv = n) as -> by congruence.
    exists n2. split_and!; [done..|]. intros ks dt E. exists (kids ++ [o]). rewrite F4. unfold with_children. cbn. by rewrite E.
  - destruct (same_tree_lookup _ _ v nv Hs) as (n2 & Hn2 & (F1 & F2 & F3 & F4)%same_node_fields); [by rewrite !lookup_insert_ne by congruence|].
    exists n2. split_and!; [done..|]. intros ks dt E. exists ks. congruence.
Qed.

Lemma added_new st st' d o x : added st st' d o x -> exists n2, nodes st' !! o = Some n2 /\ same_node x n2.
Proof.
  intros (n & kids & data & Hd & Hb & Ho & Hs). symmetry in Hs. apply (same_tree_lookup _ _ o x Hs). rewrite lookup_insert_ne by congruence. apply lookup_insert_eq.
Qed.

Lemma located_step st st' M M' d o x hdr h e : located st M h e -> M ⊆ M' -> added st st' d o x ->
  (forall a, a < hdr -> fmem st' !! a = fmem st !! a) -> h + 512 + Z.of_nat (length (e_content e)) <= hdr -> located st' M' h e.
Proof.
  intros (v & nv & ks & Hv & Hnv & H1 & H2 & H3 & H4 & H5) HM Hadd Hm Hh. destruct (added_old _ _ _ _ _ _ _ Hadd Hnv) as (n2 & Hn2 & F1 & F2 & F3 & F4).
  destruct (F4 _ _ H4) as (ks' & F5). exists v, n2, ks'. split; [by eapply lookup_weaken|]. split; [done|]. split_and!; [congruence..|].
  intros i b Hi. rewrite Hm; [by apply H5|]. apply lookup_lt_Some in Hi. lia.
Qed.

(** The directories there are. *)
Definition dirs_ok st (M : gmap path Z) (dirs : gset path) : Prop :=
  forall p, p ∈ dirs -> exists v n, M !! p = Some v /\ nodes st !! v = Some n /\ vn_type n = VNODE_DIR.

(** One entry: it is placed, and what was placed stays. *)
Lemma entry_placed (fuel : nat) (hdr : Z) (e : entry) st (U : gset Z) (M : gmap path Z) (dirs seen : gset path) : entry_ok e -> entry_at (fmem st) hdr e -> 0 < hdr -> hdr + 512 < 2 ^ 64 -> tree_ok st U -> shape (nodes st) M ->
  dirs_ok st M dirs -> (forall p, is_Some (M !! p) -> p = [] \/ p ∈ seen) -> e_dir e ∈ dirs -> e_path e ∉ seen -> (100 <= fuel)%nat ->
  process_entry fuel root hdr st = Panic \/
  exists d o st', process_entry fuel root hdr st = Ok st' /\ added st st' d o (new_node hdr e) /\ tree_ok st' ({[o]} ∪ U) /\
    M !! e_path e = None /\ shape (nodes st') (<[e_path e := o]> M) /\ (forall a, a < hdr \/ hdr + 100 <= a -> fmem st' !! a = fmem st !! a).
Proof.
  intros Hok Hat Hh1 Hh2 Hto Hsh Hdirs Hseen Hdir Hnew Hf. destruct (Hdirs _ Hdir) as (d & n & Hd & Hn & Ht).
  destruct (sh_kids _ _ Hsh _ _ Hd) as (n' & kids & data & Hn' & Hb & Hfind). assert (n' = n) as -> by congruence.
  assert (M !! e_path e = None) as HM.
  { destruct (M !! e_path e) eqn:E; [|done]. destruct (Hseen (e_path e)) as [Hp|?]; [eauto| |done]. unfold e_path in Hp. by destruct (e_dir e). }
  destruct (process_entry_ok fuel hdr e st U d n kids data) as [E|(o & st' & E & Ho & Hopos & Hheap & Hs & Hm)]; try done; [|by rewrite Hfind; f_equal|by left|].
  { apply (shape_resolves _ M (e_dir e) Hsh []); [apply Hsh|done]. }
  right. exists d, o, st'. assert (added st st' d o (new_node hdr e)) as Hadd by (by exists n, kids, data). split; [done|]. split; [done|]. split.
  { split; [done| |].
    2: { destruct (nodes st' !! NULL) as [na|] eqn:Ha; [|done]. exfalso. destruct (same_tree_lookup _ _ _ _ Hs Ha) as (nb & Hb' & _).
      apply lookup_insert_Some in Hb' as [[-> _]|[_ Hb']]; [by rewrite (to_null _ _ Hto) in Hn|].
      apply lookup_insert_Some in Hb' as [[-> _]|[_ Hb']]; [by unfold NULL in Hopos|by rewrite (to_null _ _ Hto) in Hb']. }
    intros a [na Ha]. destruct (same_tree_lookup _ _ _ _ Hs Ha) as (nb & Hb' & _).
    apply lookup_insert_Some in Hb' as [[<- _]|[_ Hb']]; [destruct (to_dom _ _ Hto d) as [?|?]; [eauto|by left|right; set_solver]|].
    apply lookup_insert_Some in Hb' as [[<- _]|[_ Hb']]; [right; set_solver|]. destruct (to_dom _ _ Hto a) as [?|?]; [eauto|by left|right; set_solver]. }
  split; [done|]. split; [|done]. eapply shape_same; [symmetry; exact Hs|]. eapply shape_add; try done. by eexists.
Qed.

(** The check at the top of the loop. *)
Lemma magic_at m hdr e : entry_at m hdr e -> load m (hdr + HDR_magic) = Ok 117 /\ forall fuel, (100 <= fuel)%nat -> read_cstr fuel m (hdr + HDR_magic) = Ok USTAR_MAGIC.
Proof.
  intros Hat. pose proof (ea_magic _ _ _ Hat) as Hm. split; [|intros fuel Hf; apply read_cstr_ok; [done|cbn; lia]].
  destruct Hm as [Hm _]. apply bytes_at_cons in Hm as [Hm _]. by apply load_Ok.
Qed.

Lemma read_archive_ok (es : list entry) : forall (fuel sfuel : nat) (hdr : Z) st (U : gset Z) (M : gmap path Z) (dirs seen : gset path) (before : list (Z * entry)),
  Forall entry_ok es -> archive_at (fmem st) hdr es -> 0 < hdr -> archive_end hdr es + 1024 <= 2 ^ 64 -> tree_ok st U -> shape (nodes st) M ->
  dirs_ok st M dirs -> (forall p, is_Some (M !! p) -> p = [] \/ p ∈ seen) -> ordered dirs seen es ->
  (forall h e, (h, e) ∈ before -> located st M h e /\ h + 512 + Z.of_nat (length (e_content e)) <= hdr) -> (length es < fuel)%nat -> (100 <= sfuel)%nat ->
  read_archive fuel sfuel root hdr st = Panic \/
  exists st' M', read_archive fuel sfuel root hdr st = Ok st' /\ shape (nodes st') M' /\ nodes st' !! NULL = None /\
    (forall a, a < hdr \/ archive_end hdr es <= a -> fmem st' !! a = fmem st !! a) /\ forall h e, (h, e) ∈ before ++ places hdr es -> located st' M' h e.
Proof using Hroot.
  induction es as [|e es IH]; intros fuel sfuel hdr st U M dirs seen before Hok Hat Hh Hend Hto Hsh Hdirs Hseen Hord Hbefore Hf Hsf;
    (destruct fuel as [|fuel]; [cbn in Hf; lia|]); cbn [read_archive archive_at places archive_end ordered length] in *.
  - destruct Hat as [H1 H2]. rewrite (load_Ok _ _ _ H1). go. change (0 =? 0) with true. cbv iota. rewrite (load_Ok _ _ _ H2). go. change (0 =? 0) with true. cbv iota.
    right. exists st, M. split; [done|]. split; [done|]. split; [apply Hto|]. split; [done|]. intros h e Hin. rewrite app_nil_r in Hin. by apply Hbefore.
  - apply Forall_cons in Hok as [Hoke Hok]. destruct Hat as [Hat Hes]. destruct Hord as (Hdir & Hnew & Hord).
    pose proof (next_hdr_bounds hdr e) as [Hn1 Hn2]. pose proof (archive_end_ge (next_hdr hdr e) es) as Hge.
    destruct (magic_at _ _ _ Hat) as [Em Ec]. rewrite Em. go. change (117 =? 0) with false. cbv iota. go. rewrite (Ec sfuel Hsf). go.
    rewrite bool_decide_eq_true_2 by done. cbn [negb].
    destruct (entry_placed sfuel hdr e st U M dirs seen Hoke Hat Hh ltac:(lia) Hto Hsh Hdirs Hseen Hdir Hnew Hsf) as [E|(d & o & st1 & E & Hadd & Hto1 & HM & Hsh1 & Hm)];
      [rewrite E; by left|]. rewrite E. go.
    destruct (entry_agree _ (fmem st1) hdr e Hm Hat) as (Hsize & _ & Hcont). pose proof (eo_size _ Hoke) as Hsz.
    rewrite (ustar_field_roundtrip (fmem st1) _ (Z.of_nat (length (e_content e)))) by (done || (split; [lia|]; etrans; [exact Hsz|vm_compute; done])). go.
    rewrite next_hdr_code by (done || lia).
    assert (M ⊆ <[e_path e := o]> M) as HMsub by (by apply insert_subseteq).
    assert (located st1 (<[e_path e := o]> M) hdr e) as Hloc.
    { destruct (added_new _ _ _ _ _ Hadd) as (n2 & Hn & (F1 & F2 & F3 & F4)%same_node_fields). exists o, n2, []. split; [apply lookup_insert_eq|]. done. }
    destruct (IH fuel sfuel (next_hdr hdr e) st1 ({[o]} ∪ U) (<[e_path e := o]> M)
      (if bool_decide (e_type e = VNODE_DIR) then {[e_path e]} ∪ dirs else dirs) ({[e_path e]} ∪ seen) (before ++ [(hdr, e)])) as [E2|(st2 & M2 & E2 & Hsh2 & Hnull2 & Hm2 & Hall)];
      [done| |lia|done|done|done| | |done| |lia|done|by left|].
    + eapply archive_agree; [|exact Hes]. intros a Ha. apply Hm. lia.
    + intros p Hp. assert (p ∈ dirs \/ (p = e_path e /\ e_type e = VNODE_DIR)) as [Hp'|[-> Ht]] by (case_bool_decide; set_solver).
      * destruct (Hdirs p Hp') as (v & n & Hv & Hn & Ht). destruct (added_old _ _ _ _ _ _ _ Hadd Hn) as (n2 & Hn' & _ & Ht2 & _). exists v, n2.
        split; [by eapply lookup_weaken|]. split; [done|congruence].
      * destruct Hloc as (v & n & kids & Hv & Hn & _ & Ht2 & _). exists v, n. split_and!; [done|done|congruence].
    + intros p [v [[<- _]|[_ Hv]]%lookup_insert_Some]; [right; set_solver|]. destruct (Hseen p) as [?|?]; [eauto|by left|right; set_solver].
    + intros h e' [Hin|Hin%list_elem_of_singleton]%elem_of_app.
      * destruct (Hbefore h e' Hin) as [Hl Hb]. split; [|lia]. eapply located_step; [exact Hl|done|exact Hadd|intros a Ha; apply Hm; by left|done].
      * injection Hin as -> ->. split; [done|lia].
    + right. exists st2, M2. split; [done|]. split; [done|]. split; [done|]. split; [intros a Ha; rewrite Hm2, Hm by lia; done|]. intros h e' Hin. apply Hall. rewrite <-app_assoc. exact Hin.
Qed.

(** *** Opening and reading *)

Lemma same_null ns ns' a : same_tree ns ns' -> ns !! a = None -> ns' !! a = None.
Proof. intros Hs Hn. destruct (ns' !! a) eqn:E; [|done]. symmetry in Hs. destruct (same_tree_lookup _ _ _ _ Hs E) as (? & ? & _). congruence. Qed.

Lemma resolves_walks ns d cs v : resolves ns d cs v -> forall w : Nodes.fs S K, same_tree ns (nodes w) -> nodes w !! NULL = None ->
  exists w' : Nodes.fs S K, walks d cs w v w' /\ same_tree ns (nodes w') /\ fmem w' = fmem w.
Proof.
  induction 1 as [|d n kids data c cs e v Hn Ht Hb Hf Hr IH]; intros w Hs Hnull.
  - exists w. split; [constructor|done].
  - destruct (same_tree_lookup _ _ _ _ Hs Hn) as (n' & Hn' & (_ & Ht' & _ & Hb')%same_node_fields).
    assert (find_name kids c (nodes w) = Ok (Some e)) as Hf' by (eapply find_name_keeps; [by apply same_keeps|done]).
    destruct (open_found d n' kids data c e w) as (w1 & E1 & Hs1 & Hm1 & _); [done|congruence|congruence|done|].
    destruct (find_name_Some _ _ _ _ Hf') as (ne & He & Hnm & _). destruct (same_tree_lookup _ _ _ _ Hs1 He) as (ne' & He' & (Hnm' & _)%same_node_fields).
    destruct (IH w1) as (w' & Hw & Hs' & Hm'); [by etrans|by eapply same_null|]. exists w'. split; [|split; [done|congruence]].
    eapply walks_cons; [exact E1|intros ->; congruence| |exact Hw]. cbn [vo_name initrd_ops]. run He'. by rewrite Hnm', Hnm.
Qed.

(** The absolute path of an entry. *)
Fixpoint abs_path (cs : path) : list Z := match cs with [] => [] | c :: cs => SLASH :: c ++ abs_path cs end.

Lemma abs_path_of cs n c : Forall comp_ok (c :: cs) -> path_of (c :: cs) (replicate n SLASH ++ c ++ abs_path cs).
Proof.
  revert c n. induction cs as [|d cs IH]; intros c n [[Hne _ Hsl _] Hok]%Forall_cons;
    (assert (head c <> Some SLASH) by (destruct c as [|b c]; [done|]; intros [= ->]; done)); apply path_cons; try done; [constructor|by left| |by right].
  apply (IH d 1%nat Hok).
Qed.

(** With the ram disk mounted at the root and nothing else, every path is its. *)
Lemma root_mountpoint fuel m p c cs vn cm : Forall comp_ok (c :: cs) -> cstr m p (abs_path (c :: cs)) -> (length (abs_path (c :: cs)) < fuel)%nat ->
  vfs_get_mountpoint fuel m (Trie cm vn []) p = Ok (p + 1, vn) /\ cstr m (p + 1) (c ++ abs_path cs).
Proof.
  intros [[Hne _ Hsl _] _]%Forall_cons Hs Hf. unfold vfs_get_mountpoint. destruct fuel as [|fuel]; [lia|]. cbn [get_mountpoint abs_path] in *.
  pose proof Hs as (Hc & _ & Hs1)%cstr_cons. rewrite (load_Ok _ _ _ Hc). go. change (SLASH =? 0) with false. cbv iota.
  destruct (skip_slashes_ok _ _ _ (Datatypes.S fuel) Hs Hf) as [E Hd]. cbn [drop_slashes] in E, Hd. change (SLASH =? SLASH) with true in *. cbv iota in *.
  assert (drop_slashes (c ++ abs_path cs) = c ++ abs_path cs) as Edrop.
  { destruct c as [|b c]; [done|]. cbn [app drop_slashes]. destruct (Z.eqb_spec b SLASH) as [->|]; done. }
  rewrite Edrop in E, Hd. cbn [length] in E, Hd. replace (Z.of_nat (Datatypes.S (length (c ++ abs_path cs)) - length (c ++ abs_path cs))) with 1 in E, Hd by lia.
  rewrite E. go. cbn [length] in Hf. rewrite (read_cstr_ok _ _ _ _ Hd) by lia. go. done.
Qed.

Lemma root_mounted fuel m garbage vn slash : cstr m slash [SLASH] -> (1 < fuel)%nat -> vfs_mount_vnode fuel m garbage vfs_init vn slash = Ok (Trie [SLASH] vn []).
Proof.
  intros Hs Hf. unfold vfs_mount_vnode. destruct fuel as [|fuel]; [lia|]. cbn [mount_from]. pose proof Hs as (Hc & _ & Hs1)%cstr_cons. rewrite (load_Ok _ _ _ Hc). go.
  change (SLASH =? 0) with false. cbv iota. destruct (skip_slashes_ok _ _ _ (Datatypes.S fuel) Hs ltac:(cbn; lia)) as [-> Hd]. go.
  change (drop_slashes [SLASH]) with (@nil Z) in *. rewrite (read_cstr_ok _ _ _ (Datatypes.S fuel) Hd) by (cbn; lia). go. by rewrite bool_decide_eq_true_2.
Qed.

Lemma vfs_open_entry fuel m p (w : Nodes.fs S K) M cs v cm : nodes w !! NULL = None -> shape (nodes w) M -> root <> NULL -> M !! cs = Some v -> cs <> [] ->
  Forall comp_ok cs -> cstr m p (abs_path cs) -> (length (abs_path cs) < fuel)%nat ->
  exists w' : Nodes.fs S K, vfs_open fuel m (Trie cm root []) p w = Ok (EOK, v, w') /\ same_tree (nodes w) (nodes w') /\ fmem w' = fmem w.
Proof.
  intros Hnull Hsh Hr Hv Hne Hok Hs Hf. destruct cs as [|c cs]; [done|]. destruct (root_mountpoint fuel m p c cs root cm Hok Hs Hf) as [Em Hs'].
  destruct (resolves_walks (nodes w) root (c :: cs) v) with (w := w) as (w' & Hw & Hst & Hm); [|done|done|].
  { apply (shape_resolves _ M (c :: cs) Hsh []); [apply Hsh|done]. }
  exists w'. split; [|done]. unfold vfs_open. rewrite Em. go. rewrite (proj2 (Z.eqb_neq root NULL)) by done. go. cbn [abs_path length] in Hf.
  rewrite (open_loop_ok fuel m (c :: cs) (c ++ abs_path cs) (abs_path_of cs 0 c Hok) fuel root (p + 1) w v w'); [done|done|done|lia|lia|done].
Qed.

Lemma places_in es : forall hdr h e, (h, e) ∈ places hdr es -> e ∈ es /\ hdr <= h /\ h + 512 + Z.of_nat (length (e_content e)) <= archive_end hdr es.
Proof.
  induction es as [|x es IH]; intros hdr h e Hin; cbn [places archive_end] in *; [by apply not_elem_of_nil in Hin|]. pose proof (next_hdr_bounds hdr x).
  apply elem_of_cons in Hin as [[= -> ->]|Hin].
  - pose proof (archive_end_ge (next_hdr hdr x) es). split; [by left|lia].
  - destruct (IH _ _ _ Hin) as (He & H1 & H2). split; [by right|lia].
Qed.

Lemma start_shape : shape (<[root := initrd_root_node]> (∅ : gmap Z vnode_t)) {[ [] := root ]}.
Proof.
  split.
  - apply lookup_singleton_eq.
  - intros p q v [<- _]%lookup_singleton_Some [<- _]%lookup_singleton_Some. done.
  - intros p c v [E _]%lookup_singleton_Some. by destruct p.
  - intros p v [<- <-]%lookup_singleton_Some. exists initrd_root_node, [], NULL. split; [apply lookup_insert_eq|]. split; [done|]. intros c. cbn [find_name app].
    by rewrite lookup_singleton_ne.
Qed.
End archive.

Definition INITRD_PATH : list Z := [47; 105; 110; 105; 116; 114; 100; 46; 116; 97; 114].

(** C30: what is in the archive is found in the file system.  For an archive in
    memory whose directories come before their contents, [initrd_init] reads it to
    its end, or stops for want of memory.  Afterwards every entry, opened under its
    absolute path through the virtual file system, is a node with the type and
    size the archive has for it, and reading any range of it gives exactly those
    bytes of the archive. *)
Theorem initrd_files_found {S K : Type} `{ObjectAllocator K} (root slash hdr : Z) garbage modules i nm (st : Nodes.fs S K) (U : gset Z) (es : list entry) (fuel : nat) :
  (forall k U size o k', oa_state k U -> obj_alloc size k = Ok (o, k') -> o <> root) -> root <> NULL ->
  list_find (fun x => x.1 = INITRD_PATH) modules = Some (i, (nm, hdr)) -> nodes st = ∅ -> oa_state (fobjs st) U ->
  Forall entry_ok es -> ordered {[ [] ]} ∅ es -> archive_at (fmem st) hdr es -> 0 < hdr -> archive_end hdr es + 1024 <= 2 ^ 64 ->
  cstr (fmem st) slash [SLASH] -> slash + 2 <= hdr \/ archive_end hdr es <= slash -> (length es < fuel)%nat -> (100 <= fuel)%nat ->
  initrd_init fuel garbage vfs_init modules root slash st = Panic \/
  exists t st', initrd_init fuel garbage vfs_init modules root slash st = Ok (t, st') /\
    forall h e, (h, e) ∈ places hdr es -> forall m p, cstr m p (abs_path (e_path e)) -> (length (abs_path (e_path e)) < fuel)%nat ->
      exists v n st'', vfs_open fuel m t p st' = Ok (EOK, v, st'') /\ nodes st'' !! v = Some n /\ vn_type n = e_type e /\
        vn_size n = Z.of_nat (length (e_content e)) /\
        forall offset size, 0 <= offset -> 0 <= size -> offset + size < 2 ^ 64 ->
          initrd_read v offset size st'' = Ok (EOK, take (Z.to_nat size) (drop (Z.to_nat offset) (e_content e))).
Proof.
  intros Hroot Hrn Hfind Hns Hheap Hok Hord Hat Hh Hend Hslash Hsl Hf1 Hf2. unfold initrd_init. fold INITRD_PATH. rewrite Hfind, Hns.
  set (st0 := set_nodes _ st).
  destruct (read_archive_ok root Hroot es fuel fuel hdr st0 U {[ [] := root ]} {[ [] ]} ∅ []) as [E|(st' & M' & E & Hsh & Hnull & Hfr & Hall)]; try done.
  - split; [done| |]; cbn [nodes st0 set_nodes].
    + intros a [x [[<- _]|[_ Hx]]%lookup_insert_Some]; [by left|]. by rewrite lookup_empty in Hx.
    + rewrite lookup_insert_ne by done. apply lookup_empty.
  - apply start_shape.
  - intros p ->%elem_of_singleton. exists root, initrd_root_node. split; [apply lookup_singleton_eq|]. split; [apply lookup_insert_eq|done].
  - intros p [v [<- _]%lookup_singleton_Some]. by left.
  - intros h e Hin. by apply not_elem_of_nil in Hin.
  - rewrite E. by left.
  - rewrite E. go. rewrite root_mounted; [|split; [|apply Hslash]|lia].
    2: { intros j b Hj. rewrite Hfr; [by apply Hslash|]. apply lookup_lt_Some in Hj. cbn in Hj. lia. }
    go. right. exists (Trie [SLASH] root []), st'. split; [done|]. intros h e Hin m p Hp Hfp.
    destruct (Hall h e Hin) as (v & n & kids & Hv & Hn & _ & Ht & Hsz & Hb & Hc). destruct (places_in _ _ _ _ Hin) as (He & Hh1 & Hh2).
    pose proof (proj1 (Forall_forall _ _) Hok e He) as Hoke.
    destruct (vfs_open_entry root fuel m p st' M' (e_path e) v [SLASH]) as (st'' & Eo & Hs & Hm); try done; [unfold e_path; by destruct (e_dir e)|apply Hoke|].
    destruct (same_tree_lookup _ _ _ _ Hs Hn) as (n' & Hn' & (_ & F2 & F3 & F4)%same_node_fields). exists v, n', st''. split; [done|]. split; [done|].
    split; [congruence|]. split; [congruence|]. intros offset size H1 H2 H3. pose proof (eo_size _ Hoke).
    apply (initrd_read_correct st'' v n' kids (h + 512) (e_content e)); try done; try congruence; try lia; by rewrite Hm.
Qed.

(** *** An archive of a directory and a file in it *)

(** Objects from [0x1000] on, the root node being elsewhere. *)
Program Definition high_objects : ObjectAllocator fresh := {|
  obj_alloc := obj_alloc;
  obj_free := obj_free;
  oa_state k U := 0x1000 <= next_obj k /\ oa_state k U
|}.
Next Obligation.
  intros k U size [Hk HU] Hs. destruct (obj_alloc_spec k U size HU Hs) as [E|(o & k' & E & HU' & Ho)]; [by left|]. right. exists o, k'.
  split_and!; try done; try apply Ho. cbn in E. destruct (_ && _); [|done]. injection E as <- <-. cbn. lia.
Qed.
Next Obligation.
  intros k U o [Hk HU] Ho. destruct (obj_free_spec k U o HU Ho) as (k' & E & HU'). exists k'. split_and!; try done. cbn in E. by injection E as <-.
Qed.

(** "./d/" and "./d/f" with three bytes. *)
Definition ex_entries : list entry :=
  [Entry [46; 47; 100; 47] [] [100] VNODE_DIR []; Entry [46; 47; 100; 47; 102] [[100]] [102] VNODE_REG [65; 66; 67]].

Definition put_entry (hdr : Z) (e : entry) (m : mem) : mem :=
  write_bytes (write_bytes (write_bytes (write_bytes (write_bytes m (hdr + HDR_filename) (e_raw e ++ [0]))
    (hdr + HDR_size) (octal 11 (Z.of_nat (length (e_content e))) ++ [0])) (hdr + HDR_type) [type_char (e_type e)])
    (hdr + HDR_magic) (USTAR_MAGIC ++ [0])) (hdr + 512) (e_content e).

Definition ex_bytes : mem :=
  fold_right (fun x => put_entry x.1 x.2) (write_bytes (write_bytes (write_bytes ∅ 0x100 [47; 0]) (0x10600 + HDR_magic) [0]) (0x10800 + HDR_magic) [0])
    (places 0x10000 ex_entries).

Definition ex_path : mem := write_bytes ∅ 0x100 [47; 100; 47; 102; 0].
Definition ex_modules : list (list Z * Z) := [([47], 0x9000); (INITRD_PATH, 0x10000)].
Definition ex_start := @initrd_init unit fresh high_objects 200 [] vfs_init ex_modules 500 0x100 (Fs ∅ ex_bytes tt (Fresh 0x1000 [])).

Lemma cstr_dec m p bs : bool_decide (kread m p (length (bs ++ [0])) = Ok (bs ++ [0])) = true -> forallb (fun b => negb (b =? 0)) bs = true -> cstr m p bs.
Proof.
  intros Hb Hz. split; [by apply bytes_dec|]. apply List.Forall_forall. intros b Hin. apply forallb_forall with (x := b) in Hz; [|done].
  by destruct (Z.eqb_spec b 0).
Qed.

Ltac computed := first [apply cstr_dec; vm_compute; reflexivity | apply bytes_dec; vm_compute; reflexivity | vm_compute; reflexivity].

Lemma ex_entries_at : archive_at ex_bytes 0x10000 ex_entries.
Proof. cbn [archive_at ex_entries]. split; [constructor; computed|]. split; [constructor; computed|]. split; computed. Qed.

Lemma ex_entries_ok : Forall entry_ok ex_entries.
Proof. repeat constructor; done. Qed.

Lemma initrd_files_found_witness : exists t st', ex_start = Ok (t, st') /\ exists v n st'', vfs_open 200 ex_path t 0x100 st' = Ok (EOK, v, st'') /\
  nodes st'' !! v = Some n /\ vn_type n = VNODE_REG /\ initrd_read v 1 10 st'' = Ok (EOK, [66; 67]).
Proof.
  destruct (@initrd_files_found unit fresh high_objects 500 0x100 0x10000 [] ex_modules 1 INITRD_PATH (Fs ∅ ex_bytes tt (Fresh 0x1000 [])) ∅ ex_entries 200)
    as [E|(t & st' & E & Hall)].
  - intros k U size o k' [Hk _] E. cbn in E. destruct (_ && _); [|done]. injection E as <- _. lia.
  - discriminate.
  - vm_compute. reflexivity.
  - reflexivity.
  - split; [done|]. intros o Ho. by apply not_elem_of_empty in Ho.
  - apply ex_entries_ok.
  - cbn. set_solver.
  - apply ex_entries_at.
  - lia.
  - vm_compute. discriminate.
  - computed.
  - left. lia.
  - cbn. lia.
  - apply Nat.leb_le. reflexivity.
  - vm_compute in E. discriminate E.
  - exists t, st'. split; [exact E|].
    destruct (Hall 0x10200 (Entry [46; 47; 100; 47; 102] [[100]] [102] VNODE_REG [65; 66; 67])) with (m := ex_path) (p := 0x100) as (v & n & st2 & E1 & E2 & E3 & _ & Hr).
    + right. by left.
    + computed.
    + cbn. lia.
    + exists v, n, st2. split; [exact E1|]. split; [exact E2|]. split; [exact E3|]. rewrite Hr; [reflexivity|lia|lia|lia].
Defined.

(** ** Behaviours worth knowing *)

(** Placing an entry holds the directories on its path and releases none of them:
    after the start the directory counts a reference that nobody has. *)
Lemma directories_stay_held : match ex_start with
  | Ok (_, st) => match nodes st !! 0x1000 with Some d => bool_decide (vn_name d = [100]) && (ref_count d =? 1) | None => false end
  | _ => false
  end = true.
Proof. vm_compute. reflexivity. Qed.
