(* ===== verification/Devices.v ===== *)
(** * Devices (kernel/src/dev/device.c, pci.c, block.c, char.c, acpi/acpi.c)

    Buses with their devices and drivers, the lookup of ACPI tables in memory,
    the enumeration of PCI functions, block and character devices.  The callbacks
    of a driver are parameters, by the address of the driver. *)
From stdpp Require Import base gmap list fin_maps.
From Stdlib Require Import ZArith Lia.
From S2P Require Import Prelude Interfaces Strings Ksym Elf.

(** ** Buses *)

Record bus_t := Bus { b_name : list Z; devices : list Z; drivers : list Z }.
Record device_t := Device { d_name : list Z; hardware_data : Z; driver : Z; driver_data : Z }.

(** [probes]: the driver has a [probe_device]. *)
Record driver_t := Driver { dr_name : list Z; probes : bool }.

Record dsys (K : Type) := DSys {
  dmem : mem; dobjs : K; devs : gmap Z device_t; drvs : gmap Z driver_t; buses : gmap Z bus_t; g_buses : list Z
}.
Arguments DSys {K}. Arguments dmem {K}. Arguments dobjs {K}. Arguments devs {K}. Arguments drvs {K}. Arguments buses {K}. Arguments g_buses {K}.

Definition sizeof_device : Z := 72.
Definition sizeof_bus : Z := 80.
Definition DEVICE_NAME_LEN : Z := 32.

(** [for] over the elements of a list. *)
Fixpoint for_each {A S : Type} (l : list A) (body : A -> S -> outcome S) (s : S) : outcome S :=
  match l with
  | [] => Ok s
  | x :: l => s ← body x s; for_each l body s
  end.

Section devices.
Context {K : Type} `{ObjectAllocator K} (HHDM : Z).
Context (probe_device : Z -> Z -> dsys K -> outcome (bool * dsys K)) (setup_device : Z -> Z -> dsys K -> outcome (dsys K)).
Implicit Types st : dsys K.

Definition set_dobjs k st : dsys K := DSys (dmem st) k (devs st) (drvs st) (buses st) (g_buses st).
Definition set_devs x st : dsys K := DSys (dmem st) (dobjs st) x (drvs st) (buses st) (g_buses st).
Definition set_buses x st : dsys K := DSys (dmem st) (dobjs st) (devs st) (drvs st) x (g_buses st).
Definition set_g_buses x st : dsys K := DSys (dmem st) (dobjs st) (devs st) (drvs st) (buses st) x.

Definition bus_init (bus : Z) (name : list Z) st : outcome (dsys K) :=
  '(_, k) ← obj_alloc (Z.of_nat (length name) + 1) (dobjs st);
  Ok (set_buses (<[bus := Bus name [] []]> (buses st)) (set_dobjs k st)).

Definition bus_register (bus : Z) st : dsys K := set_g_buses (g_buses st ++ [bus]) st.

Fixpoint find_bus (l : list Z) (name : list Z) st : outcome Z :=
  match l with
  | [] => Ok NULL
  | p :: l => b ← deref (buses st !! p); if bool_decide (b_name b = name) then Ok p else find_bus l name st
  end.

Definition bus_lookup (name : list Z) st : outcome Z := find_bus (g_buses st) name st.

(** The drivers offered a new device, up to the first that wants it. *)
Fixpoint offer (drvl : list Z) (dev : Z) st : outcome (dsys K) :=
  match drvl with
  | [] => Ok st
  | drv :: drvl =>
      d ← deref (drvs st !! drv);
      if negb (probes d) then Ok st
      else '(wants, st) ← probe_device drv dev st; if (wants : bool) then Ok st else offer drvl dev st
  end.

Definition bus_register_device (bus dev : Z) st : outcome (dsys K) :=
  b ← deref (buses st !! bus);
  let st := set_buses (<[bus := Bus (b_name b) (devices b ++ [dev]) (drivers b)]> (buses st)) st in
  d ← deref (devs st !! dev);
  if driver d =? NULL then offer (drivers b) dev st else Ok st.

(** The body of the loop of [bus_register_driver]. *)
Definition try_device (drv dev : Z) st : outcome (dsys K) :=
  d ← deref (devs st !! dev);
  if negb (driver d =? NULL) then Ok st
  else
    r ← deref (drvs st !! drv);
    if negb (probes r) then Ok st
    else '(wants, st) ← probe_device drv dev st; if (wants : bool) then setup_device drv dev st else Ok st.

Definition bus_register_driver (bus drv : Z) st : outcome (dsys K) :=
  b ← deref (buses st !! bus);
  let st := set_buses (<[bus := Bus (b_name b) (devices b) (drivers b ++ [drv])]> (buses st)) st in
  for_each (devices b) (try_device drv) st.

(** ** ACPI tables *)

Definition sizeof_sdt : Z := 36.
Definition load_u32 (m : mem) (p : Z) : outcome Z := bs ← kread m p 4; Ok (le_value bs).

(** [response]: the answer of the boot loader, an address or NULL.  Root table
    and whether its pointers are of 64 bits. *)
Definition acpi_init (response : option Z) (m : mem) : outcome (option (Z * bool)) :=
  match response with
  | None => Ok None
  | Some sdp =>
      if sdp =? NULL then Ok None
      else
        revision ← load m (sdp + 15);
        if revision <? 2 then a ← load_u32 m (sdp + 16); Ok (Some (u64 (a + HHDM), false))
        else a ← load_u64 m (sdp + 24); Ok (Some (u64 (a + HHDM), true))
  end.

(** The loop of [acpi_lookup] from entry [i] on, [n] entries left. *)
Fixpoint lookup_from (n : nat) (i : Z) (m : mem) (root_sdt : Z) (extended : bool) (signature : Z) : outcome Z :=
  match n with
  | O => Ok NULL
  | S n =>
      a ← (if extended then load_u64 m (root_sdt + sizeof_sdt + i * 8) else load_u32 m (root_sdt + sizeof_sdt + i * 4));
      let sdt := u64 (a + HHDM) in
      c ← strncmp m sdt signature 4;
      if c =? 0 then Ok sdt else lookup_from n (i + 1) m root_sdt extended signature
  end.

Definition acpi_lookup (m : mem) (root : option (Z * bool)) (signature : Z) : outcome Z :=
  match root with
  | None => Panic
  | Some (root_sdt, extended) =>
      len ← load_u32 m (root_sdt + 4);
      let entries := i32 (u64 (len - sizeof_sdt) / (if extended then 8 else 4)) in
      lookup_from (Z.to_nat entries) 0 m root_sdt extended signature
  end.

(** ** PCI *)

Record pci_header_common_t := PciHeader { vendor_id : Z; device_id : Z; prog_if : Z; subclass : Z; class_ : Z }.

Definition pci_header_of (bs : list Z) : pci_header_common_t :=
  PciHeader (field bs 0 2) (field bs 2 2) (field bs 9 1) (field bs 10 1) (field bs 11 1).

Definition pci_address (base bus dev func : Z) : Z :=
  u64 (HHDM + base + Z.lor (Z.lor (Z.shiftl bus 20) (Z.shiftl dev 15)) (Z.shiftl func 12)).

(** [%0nX]: [n] upper-case digits; the values printed have at most [n]. *)
Definition hex_digit (d : Z) : Z := if d <? 10 then 48 + d else 55 + d.
Fixpoint hex (n : nat) (v : Z) : list Z :=
  match n with O => [] | S n => hex n (v / 16) ++ [hex_digit (v mod 16)] end.

Definition pci_name (h : pci_header_common_t) : list Z :=
  hex 4 (vendor_id h) ++ [58] ++ hex 4 (device_id h) ++ [45] ++ hex 2 (class_ h) ++ [58] ++ hex 2 (subclass h) ++ [58] ++ hex 2 (prog_if h).

(** The body of the loops over the functions. *)
Definition pci_function (bus_pci pci_hdr : Z) st : outcome (dsys K) :=
  raw ← kread (dmem st) pci_hdr 16;
  let h := pci_header_of raw in
  if vendor_id h =? 0xFFFF then Ok st
  else
    '(dev, k) ← obj_alloc sizeof_device (dobjs st);
    '(_, k) ← obj_alloc DEVICE_NAME_LEN k;
    (if Z.of_nat (length (pci_name h)) + 1 <=? DEVICE_NAME_LEN then Ok tt else Fault);;
    bus_register_device bus_pci dev (set_devs (<[dev := Device (pci_name h) pci_hdr NULL NULL]> (devs st)) (set_dobjs k st)).

(** [x], [x + 1], ..., [y]. *)
Definition upto (x y : Z) : list Z := seqZ x (y - x + 1).

(** One segment of the MCFG table: base address, first and last bus. *)
Definition pci_segment (bus_pci : Z) (seg : Z * Z * Z) st : outcome (dsys K) :=
  let '(base, bus_start, bus_end) := seg in
  for_each (upto bus_start bus_end) (fun bus =>
    for_each (upto 0 31) (fun dev =>
      for_each (upto 0 7) (fun func => pci_function bus_pci (pci_address base bus dev func)))) st.

Definition sizeof_mcfg : Z := 44.

Definition load_segment_entry (m : mem) (mcfg i : Z) : outcome (Z * Z * Z) :=
  raw ← kread m (mcfg + sizeof_mcfg + i * 16) 16;
  Ok (field raw 0 8, field raw 10 1, field raw 11 1).

(** The segments, [n] of them from number [i] on. *)
Fixpoint pci_segments (n : nat) (i mcfg bus_pci : Z) st : outcome (dsys K) :=
  match n with
  | O => Ok st
  | S n => seg ← load_segment_entry (dmem st) mcfg i; st ← pci_segment bus_pci seg st; pci_segments n (i + 1) mcfg bus_pci st
  end.

Definition PCI_NAME : list Z := [112; 99; 105].

(** [mcfg_sig] is where the constant [MCFG] is. *)
Definition pci_init (root : option (Z * bool)) (mcfg_sig : Z) st : outcome (dsys K) :=
  mcfg ← acpi_lookup (dmem st) root mcfg_sig;
  if mcfg =? NULL then Ok st
  else
    '(bus_pci, k) ← obj_alloc sizeof_bus (dobjs st);
    st ← bus_init bus_pci PCI_NAME (set_dobjs k st);
    let st := bus_register bus_pci st in
    len ← load_u32 (dmem st) (mcfg + 4);
    pci_segments (Z.to_nat (u64 (len - sizeof_mcfg) / 16)) 0 mcfg bus_pci st.
End devices.

(** ** Block and character devices *)

Inductive block_device_type := BLOCK_DEVICE_DRIVE | BLOCK_DEVICE_PARTITION.

Record block_device_t := Block {
  bl_name : option (list Z); bl_type : block_device_type; partitions : list Z; bl_parent : Z; lba_offset : Z; sector_size : Z;
  sector_count : Z; bl_read : Z; bl_write : Z; bl_ioctl : Z; bl_data : Z
}.

Record char_device_t := Char { ch_name : option (list Z); ch_data : Z; ch_read : Z; ch_write : Z; ch_ioctl : Z }.

Definition sizeof_block_device : Z := 136.
Definition sizeof_char_device : Z := 72.

Record bsys (K : Type) := BSys {
  bobjs : K; blocks : gmap Z block_device_t; g_drive_list : list Z; chars : gmap Z char_device_t; g_char_list : list Z
}.
Arguments BSys {K}. Arguments bobjs {K}. Arguments blocks {K}. Arguments g_drive_list {K}. Arguments chars {K}. Arguments g_char_list {K}.

Section block.
Context {K : Type} `{ObjectAllocator K} (block_device_ioctl char_device_ioctl : Z).
Implicit Types st : bsys K.

(** [strdup(name)]; a NULL name stays NULL. *)
Definition dup_name (name : option (list Z)) (k : K) : outcome K :=
  match name with
  | None => Ok k
  | Some s => '(_, k) ← obj_alloc (Z.of_nat (length s) + 1) k; Ok k
  end.

(** The assignment is to [*dev], the drive, and the list is that of the drive. *)
Definition add_partition (dev : Z) (name : option (list Z)) (lba n : Z) st : outcome (bsys K) :=
  '(part, k) ← obj_alloc sizeof_block_device (bobjs st);
  k ← dup_name name k;
  d ← deref (blocks st !! dev);
  let d := Block name BLOCK_DEVICE_DRIVE [] dev lba (sector_size d) n (bl_read d) (bl_write d) block_device_ioctl (bl_data d) in
  let d := Block (bl_name d) (bl_type d) (partitions d ++ [part]) (bl_parent d) (lba_offset d) (sector_size d) (sector_count d)
             (bl_read d) (bl_write d) (bl_ioctl d) (bl_data d) in
  Ok (BSys k (<[dev := d]> (blocks st)) (g_drive_list st) (chars st) (g_char_list st)).

Definition block_device_register_drive (name : option (list Z)) (ssize scount read write data : Z) st : outcome (bsys K) :=
  '(dev, k) ← obj_alloc sizeof_block_device (bobjs st);
  k ← dup_name name k;
  let d := Block name BLOCK_DEVICE_DRIVE [] NULL 0 ssize scount read write block_device_ioctl data in
  Ok (BSys k (<[dev := d]> (blocks st)) (g_drive_list st ++ [dev]) (chars st) (g_char_list st)).

Definition char_device_register_drive (name : option (list Z)) (read write data : Z) st : outcome (bsys K) :=
  '(dev, k) ← obj_alloc sizeof_char_device (bobjs st);
  k ← dup_name name k;
  Ok (BSys k (blocks st) (g_drive_list st) (<[dev := Char name data read write char_device_ioctl]> (chars st)) (g_char_list st ++ [dev])).

(** The scan of the partition table: the first sector is read to the address of
    the variable that points to the buffer, 8 bytes that hold it, and the rest
    follows the pointer this leaves; nothing is defined from there on. *)
Definition read_part_table (dev : Z) st : outcome (Z * bsys K) :=
  d ← deref (blocks st !! dev);
  match bl_type d with
  | BLOCK_DEVICE_PARTITION => Ok (-1, st)
  | BLOCK_DEVICE_DRIVE =>
      if (bl_read d =? NULL) || (bl_write d =? NULL) || (bl_ioctl d =? NULL) then Panic
      else '(mbr_hdr, k) ← obj_alloc (sector_size d) (bobjs st); Fault
  end.

Definition BLKRRPART : Z := 0x1000.
Definition BLKGETSIZE : Z := 0x1001.
Definition BLKGETSIZE64 : Z := 0x1002.
Definition BLKSSZGET : Z := 0x1003.
Definition BLK_EINVAL : Z := 40.

(** [args] is a pointer to the result. *)
Definition answer (args : Z) (bs : list Z) (m : mem) st : outcome (Z * mem * bsys K) :=
  if args =? NULL then Ok (-1, m, st) else _ ← kread m args (length bs); Ok (0, write_bytes m args bs, st).

Definition block_ioctl (dev request args : Z) (m : mem) st : outcome (Z * mem * bsys K) :=
  if request =? BLKRRPART then '(r, st) ← read_part_table dev st; Ok (r, m, st)
  else
    d ← deref (blocks st !! dev);
    if request =? BLKGETSIZE then answer args (le_bytes 4 (u32 (sector_count d))) m st
    else if request =? BLKGETSIZE64 then answer args (le_bytes 8 (u64 (sector_count d * sector_size d))) m st
    else if request =? BLKSSZGET then answer args (le_bytes 4 (u32 (sector_size d))) m st
    else Ok (BLK_EINVAL, m, st).

(** The size in bytes is reported exactly when it fits in 64 bits. *)
Lemma block_size64 dev args m st d : blocks st !! dev = Some d -> args <> NULL -> mapped m args 8 -> 0 <= sector_count d * sector_size d < 2 ^ 64 ->
  exists m', block_ioctl dev BLKGETSIZE64 args m st = Ok (0, m', st) /\ load_u64 m' args = Ok (sector_count d * sector_size d) /\
    (forall a, ~ args <= a < args + 8 -> m' !! a = m !! a).
Proof.
  intros Hd Ha Hm Hs. unfold block_ioctl. change (BLKGETSIZE64 =? BLKRRPART) with false. run Hd. change (BLKGETSIZE64 =? BLKGETSIZE) with false.
  change (BLKGETSIZE64 =? BLKGETSIZE64) with true. cbv iota. unfold answer. rewrite (proj2 (Z.eqb_neq _ _) Ha), u64_small by done.
  rewrite le_bytes_length. destruct (kread_total _ _ _ Hm) as (bs & E & _). run E. eexists. split; [reflexivity|]. split.
  - unfold load_u64. rewrite (kread_ok _ _ _ (write_bytes_at m args (le_bytes 8 (sector_count d * sector_size d))) : kread _ args 8 = _). go.
    f_equal. rewrite le_bytes_value. by apply Z.mod_small.
  - intros a Hx. apply write_bytes_out. rewrite le_bytes_length. lia.
Qed.

(** Scanning the partitions of a drive never returns. *)
Lemma partition_scan_undefined dev st d : blocks st !! dev = Some d -> bl_type d = BLOCK_DEVICE_DRIVE ->
  read_part_table dev st = Panic \/ read_part_table dev st = Fault \/ read_part_table dev st = NoFuel.
Proof. intros Hd Ht. unfold read_part_table. run Hd. rewrite Ht. destruct (_ || _); [tauto|]. destruct (obj_alloc _ _) as [[]| | |]; tauto. Qed.

(** A partition is stored over its drive: afterwards the drive has the offset and
    size of the partition, is its own parent, and has lost its other partitions;
    the new object stays uninitialised. *)
Lemma add_partition_overwrites dev name lba n st st' d : blocks st !! dev = Some d -> add_partition dev name lba n st = Ok st' ->
  exists d' part, blocks st' !! dev = Some d' /\ lba_offset d' = lba /\ sector_count d' = n /\ bl_parent d' = dev /\ partitions d' = [part] /\
    (part <> dev -> blocks st' !! part = blocks st !! part).
Proof.
  intros Hd E. unfold add_partition in E. apply bind_Ok in E as ([part k] & _ & E). apply bind_Ok in E as (k' & _ & E). rewrite Hd in E.
  cbn [mbind outcome_bind deref] in E. injection E as <-. eexists _, part. split; [apply lookup_insert_eq|]. do 4 (split; [done|]).
  intros Hne. by apply lookup_insert_ne.
Qed.
End block.

(** ** ACPI lookup finds the first table *)

Lemma strncmp_bytes m x : forall y s1 s2, bytes_at m s1 x -> bytes_at m s2 y -> length x = length y -> Forall (fun b => b <> 0) x ->
  exists d, strncmp_from (length x) m s1 s2 = Ok d /\ (d = 0 <-> x = y).
Proof.
  induction x as [|a x IH]; intros [|b y] s1 s2 Hx Hy Hl Hnz; try discriminate Hl; [by exists 0|].
  apply bytes_at_cons in Hx as [Hx Hxs]. apply bytes_at_cons in Hy as [Hy Hys]. apply Forall_cons in Hnz as [Ha Hnz].
  cbn [length strncmp_from]. unfold load. run Hx. rewrite (proj2 (Z.eqb_neq a 0) Ha). run Hy. destruct (Z.eqb_spec a b) as [->|Hne].
  - destruct (IH y (s1 + 1) (s2 + 1) Hxs Hys ltac:(by injection Hl) Hnz) as (d & -> & Hd). exists d. split; [done|]. rewrite Hd. naive_solver.
  - exists (a - b). split; [done|]. split; [lia|naive_solver].
Qed.

Section acpi.
Context (HHDM : Z) (m : mem) (signature : Z) (key : list Z).
Implicit Types t : Z * list Z.

(** A table by its physical address and its signature. *)
Definition sdt_ok (w : nat) t : Prop :=
  uint w t.1 /\ length t.2 = 4%nat /\ Forall (fun b => b <> 0) t.2 /\ bytes_at m (u64 (t.1 + HHDM)) t.2.

Fixpoint first_table (ts : list (Z * list Z)) : Z :=
  match ts with [] => NULL | t :: ts => if bool_decide (t.2 = key) then u64 (t.1 + HHDM) else first_table ts end.

Lemma load_u32_ok p v : uint 4 v -> bytes_at m p (le_bytes 4 v) -> load_u32 m p = Ok v.
Proof. intros Hv Hb. unfold load_u32. rewrite (kread_ok _ _ (le_bytes 4 v) Hb : kread m p 4 = _). go. f_equal. by apply uint_value. Qed.

Lemma lookup_from_ok root (extended : bool) ts : length key = 4%nat -> bytes_at m signature key -> forall rest pre i,
  let w := if extended then 8%nat else 4%nat in
  ts = pre ++ rest -> i = Z.of_nat (length pre) -> Forall (sdt_ok w) rest ->
  bytes_at m (root + sizeof_sdt) (concat (le_bytes w <$> ts.*1)) ->
  lookup_from HHDM (length rest) i m root extended signature = Ok (first_table rest).
Proof.
  intros Hk Hkey. induction rest as [|t rest IH]; intros pre i w Hts Hi Hok Hb; [done|].
  apply Forall_cons in Hok as [(Hu & Hl & Hnz & Ht) Hok]. cbn [lookup_from length first_table].
  pose proof (bytes_at_slice _ _ _ (w * length pre) w Hb) as Hp.
  rewrite (concat_lookup (le_bytes w) w (ts.*1) (length pre) t.1) in Hp;
    [|intros; apply le_bytes_length|rewrite Hts, fmap_app, lookup_app_r by (by rewrite length_fmap); by rewrite length_fmap, Nat.sub_diag].
  assert ((if extended then load_u64 m (root + sizeof_sdt + i * 8) else load_u32 m (root + sizeof_sdt + i * 4)) = Ok t.1) as ->.
  { unfold w in *. destruct extended.
    - unfold load_u64. replace (root + sizeof_sdt + i * 8) with (root + sizeof_sdt + Z.of_nat (8 * length pre)) by lia.
      rewrite (kread_ok _ _ (le_bytes 8 t.1) Hp : kread m _ 8 = _). go. f_equal. by apply uint_value.
    - replace (root + sizeof_sdt + i * 4) with (root + sizeof_sdt + Z.of_nat (4 * length pre)) by lia. by apply load_u32_ok. }
  go. unfold strncmp. change (Z.to_nat 4) with 4%nat. rewrite <- Hl.
  destruct (strncmp_bytes m t.2 key (u64 (t.1 + HHDM)) signature Ht Hkey ltac:(by rewrite Hl, Hk) Hnz) as (d & -> & Hd). go.
  destruct (Z.eqb_spec d 0) as [E|E].
  - by rewrite bool_decide_true by (by apply Hd).
  - rewrite bool_decide_false by (by intros ?%Hd). apply (IH (pre ++ [t])); try done; [by rewrite <- app_assoc|].
    rewrite length_app. simpl. lia.
Qed.

Lemma acpi_lookup_ok root (extended : bool) ts : let w := if extended then 8%nat else 4%nat in
  length key = 4%nat -> bytes_at m signature key -> Forall (sdt_ok w) ts -> sizeof_sdt + Z.of_nat (w * length ts) < 2 ^ 31 ->
  bytes_at m (root + 4) (le_bytes 4 (sizeof_sdt + Z.of_nat (w * length ts))) ->
  bytes_at m (root + sizeof_sdt) (concat (le_bytes w <$> ts.*1)) ->
  acpi_lookup HHDM m (Some (root, extended)) signature = Ok (first_table ts).
Proof.
  intros w Hk Hkey Hok Hsz Hlen Hb. unfold acpi_lookup. rewrite (load_u32_ok (root + 4) (sizeof_sdt + Z.of_nat (w * length ts)) ltac:(unfold uint, sizeof_sdt in *; lia) Hlen). go.
  assert (i32 (u64 (sizeof_sdt + Z.of_nat (w * length ts) - sizeof_sdt) / (if extended then 8 else 4)) = Z.of_nat (length ts)) as ->.
  { unfold w, sizeof_sdt in *. rewrite u64_small by lia. unfold i32. destruct extended.
    - replace (_ / 8) with (Z.of_nat (length ts)) by dlia. rewrite Z.mod_small by lia. lia.
    - replace (_ / 4) with (Z.of_nat (length ts)) by dlia. rewrite Z.mod_small by lia. lia. }
  rewrite Nat2Z.id. by apply (lookup_from_ok root extended ts Hk Hkey ts []).
Qed.
End acpi.

(** ** Drivers *)

Lemma for_each_app {A S : Type} (l1 l2 : list A) (f : A -> S -> outcome S) s :
  for_each (l1 ++ l2) f s = (s ← for_each l1 f s; for_each l2 f s).
Proof. revert s. induction l1 as [|x l1 IH]; intros s; [done|]. simpl. destruct (f x s); [|done..]. apply IH. Qed.

Lemma for_each_bind {A B S : Type} (l : list A) (g : A -> list B) (f : B -> S -> outcome S) s :
  for_each l (fun x => for_each (g x) f) s = for_each (l ≫= g) f s.
Proof.
  revert s. induction l as [|x l IH]; intros s; [done|]. rewrite bind_cons, for_each_app. simpl.
  destruct (for_each (g x) f s); [|done..]. apply IH.
Qed.

Lemma for_each_ext {A S : Type} (l : list A) (f g : A -> S -> outcome S) s : (forall x s, f x s = g x s) -> for_each l f s = for_each l g s.
Proof. intros Hfg. revert s. induction l as [|x l IH]; intros s; [done|]. simpl. rewrite Hfg. destruct (g x s); [|done..]. apply IH. Qed.

Section drivers.
Context {K : Type} `{ObjectAllocator K}.
Context (probe_device : Z -> Z -> dsys K -> outcome (bool * dsys K)) (setup_device : Z -> Z -> dsys K -> outcome (dsys K)).
Implicit Types st : dsys K.
(** What the bus relies on: [probe_device] only looks at the device and
    [setup_device] does not touch the tables of devices and drivers. *)
Context (accepts : Z -> device_t -> bool).
Context (Hprobe : forall drv dev st d, devs st !! dev = Some d -> probe_device drv dev st = Ok (accepts drv d, st)).
Context (Hsetup : forall drv dev st st', setup_device drv dev st = Ok st' -> devs st' = devs st /\ drvs st' = drvs st).

Definition wanted (drv : Z) st (dev : Z) : bool :=
  match devs st !! dev, drvs st !! drv with
  | Some d, Some r => (driver d =? NULL) && probes r && accepts drv d
  | _, _ => false
  end.

Lemma try_devices_ok drv l : forall st, is_Some (drvs st !! drv) -> Forall (fun dev => is_Some (devs st !! dev)) l ->
  for_each l (try_device probe_device setup_device drv) st = for_each (List.filter (wanted drv st) l) (setup_device drv) st.
Proof using Hprobe Hsetup.
  induction l as [|dev l IH]; intros st [r Hr] Hl; [done|]. apply Forall_cons in Hl as [[d Hd] Hl].
  assert (Hw : wanted drv st dev = (driver d =? NULL) && probes r && accepts drv d) by (unfold wanted; by rewrite Hd, Hr).
  cbn [List.filter for_each]. rewrite Hw. unfold try_device. run Hd. destruct (driver d =? NULL); cbn [negb andb]; [|go; by apply IH].
  run Hr. destruct (probes r); cbn [negb andb]; [|go; by apply IH]. rewrite (Hprobe drv dev st d Hd). go.
  destruct (accepts drv d); [|go; by apply IH]. cbn [for_each]. destruct (setup_device drv dev st) as [st'| | |] eqn:Es; [|done..]. go.
  destruct (Hsetup _ _ _ _ Es) as [Ed Er]. rewrite IH; [|by rewrite Er|by rewrite Ed]. f_equal. apply List.filter_ext. intros x.
  unfold wanted. by rewrite Ed, Er.
Qed.

Lemma register_driver_ok bus drv st b : buses st !! bus = Some b -> is_Some (drvs st !! drv) ->
  Forall (fun dev => is_Some (devs st !! dev)) (devices b) ->
  bus_register_driver probe_device setup_device bus drv st =
  for_each (List.filter (wanted drv st) (devices b)) (setup_device drv)
    (set_buses (<[bus := Bus (b_name b) (devices b) (drivers b ++ [drv])]> (buses st)) st).
Proof using Hprobe Hsetup. intros Hb Hr Hl. unfold bus_register_driver. run Hb. by rewrite try_devices_ok. Qed.

(** A device that is registered after its driver is probed but not set up. *)
Lemma offer_only_probes drvl dev d : forall st, devs st !! dev = Some d -> Forall (fun drv => is_Some (drvs st !! drv)) drvl ->
  offer probe_device drvl dev st = Ok st.
Proof using Hprobe.
  induction drvl as [|drv drvl IH]; intros st Hd Hl; [done|]. apply Forall_cons in Hl as [[r Hr] Hl]. cbn [offer]. run Hr.
  destruct (probes r); [|done]. cbn [negb]. rewrite (Hprobe drv dev st d Hd). go. destruct (accepts drv d); [done|]. by apply IH.
Qed.

Lemma late_device_not_set_up bus dev st b d : buses st !! bus = Some b -> devs st !! dev = Some d ->
  Forall (fun drv => is_Some (drvs st !! drv)) (drivers b) ->
  bus_register_device probe_device bus dev st =
  Ok (set_buses (<[bus := Bus (b_name b) (devices b ++ [dev]) (drivers b)]> (buses st)) st).
Proof using Hprobe.
  intros Hb Hd Hl. unfold bus_register_device. run Hb. cbn [devs set_buses]. run Hd. destruct (driver d =? NULL); [|done].
  by apply (offer_only_probes _ _ d).
Qed.
End drivers.

(** ** Enumeration of PCI functions *)

(** The addresses of the functions of a segment, in the order of the loops. *)
Definition pci_functions (HHDM base bus_start bus_end : Z) : list Z :=
  bus ← upto bus_start bus_end; dev ← upto 0 31; func ← upto 0 7; [pci_address HHDM base bus dev func].

Lemma elem_of_upto x a b : x ∈ upto a b <-> a <= x <= b.
Proof. unfold upto. rewrite elem_of_seqZ. lia. Qed.

Lemma bits_above v k n : 0 <= v < 2 ^ k -> 0 <= k <= n -> Z.testbit v n = false.
Proof. intros Hv Hk. rewrite <- (Z.mod_small v (2 ^ k)) by done. apply Z.mod_pow2_bits_high. lia. Qed.

Lemma pci_address_sum HHDM base bus dev func : 0 <= HHDM -> 0 <= base -> HHDM + base + 2 ^ 28 <= 2 ^ 64 -> 0 <= bus < 256 -> 0 <= dev < 32 -> 0 <= func < 8 ->
  pci_address HHDM base bus dev func = HHDM + base + bus * 2 ^ 20 + dev * 2 ^ 15 + func * 2 ^ 12.
Proof.
  intros ?? Hb Hbus Hdev Hfunc. unfold pci_address.
  assert (Z.lor (Z.lor (Z.shiftl bus 20) (Z.shiftl dev 15)) (Z.shiftl func 12) = bus * 2 ^ 20 + dev * 2 ^ 15 + func * 2 ^ 12) as ->.
  { rewrite <- !Z.add_nocarry_lor.
    - rewrite !Z.shiftl_mul_pow2 by lia. done.
    - apply Z.bits_inj'. intros n Hn. rewrite Z.land_spec, !Z.shiftl_spec, Z.bits_0 by lia. apply andb_false_iff.
      destruct (Z.ltb_spec n 20); [left; apply Z.testbit_neg_r; lia|right]. apply (bits_above _ 5); lia.
    - apply Z.bits_inj'. intros n Hn. rewrite Z.land_spec, Z.lor_spec, !Z.shiftl_spec, Z.bits_0 by lia. apply andb_false_iff.
      destruct (Z.ltb_spec n 15).
      + left. rewrite !Z.testbit_neg_r by lia. done.
      + right. apply (bits_above _ 3); lia. }
  rewrite u64_small by lia. lia.
Qed.

Lemma pci_functions_nodup HHDM base bus_start bus_end : 0 <= HHDM -> 0 <= base -> HHDM + base + 2 ^ 28 <= 2 ^ 64 -> 0 <= bus_start -> bus_end < 256 ->
  NoDup (pci_functions HHDM base bus_start bus_end).
Proof.
  intros ?? Hb Hs He. unfold pci_functions. apply NoDup_bind; [| |apply NoDup_seqZ].
  - intros b1 b2 y Hb1%elem_of_upto Hb2%elem_of_upto. rewrite !list_elem_of_bind.
    intros (d1 & (f1 & Hy1 & Hf1%elem_of_upto)%list_elem_of_bind & Hd1%elem_of_upto) (d2 & (f2 & Hy2 & Hf2%elem_of_upto)%list_elem_of_bind & Hd2%elem_of_upto).
    apply list_elem_of_singleton in Hy1, Hy2. rewrite Hy1 in Hy2. rewrite !pci_address_sum in Hy2 by lia. lia.
  - intros b Hbb%elem_of_upto. apply NoDup_bind; [| |apply NoDup_seqZ].
    + intros d1 d2 y Hd1%elem_of_upto Hd2%elem_of_upto. rewrite !list_elem_of_bind.
      intros (f1 & Hy1 & Hf1%elem_of_upto) (f2 & Hy2 & Hf2%elem_of_upto).
      apply list_elem_of_singleton in Hy1, Hy2. rewrite Hy1 in Hy2. rewrite !pci_address_sum in Hy2 by lia. lia.
    + intros d Hd%elem_of_upto. apply NoDup_bind; [| |apply NoDup_seqZ].
      * intros f1 f2 y Hf1%elem_of_upto Hf2%elem_of_upto. rewrite !list_elem_of_singleton. intros Hy1 Hy2.
        rewrite Hy1 in Hy2. rewrite !pci_address_sum in Hy2 by lia. lia.
      * intros f _. apply NoDup_singleton.
Qed.

Lemma hex_length n v : length (hex n v) = n.
Proof. revert v. induction n as [|n IH]; intros v; simpl; [done|]. rewrite length_app, IH. simpl. lia. Qed.

Lemma pci_name_length h : length (pci_name h) = 18%nat.
Proof. unfold pci_name. by rewrite !length_app, !hex_length. Qed.

Lemma Forall2_in_l {A B} (P Q : A -> B -> Prop) l k : Forall2 P l k -> (forall x y, x ∈ l -> P x y -> Q x y) -> Forall2 Q l k.
Proof.
  induction 1 as [|x y l k Hxy _ IH]; intros HQ; constructor; [apply HQ; [by left|done]|]. apply IH. intros a b Ha. apply HQ. by right.
Qed.

Section pci.
Context {K : Type} `{ObjectAllocator K} (probe_device : Z -> Z -> dsys K -> outcome (bool * dsys K)).
Context (m : mem) (hdr : Z -> list Z).
Implicit Types st : dsys K.

Definition is_present (a : Z) : bool := negb (vendor_id (pci_header_of (hdr a)) =? 0xFFFF).
Definition pci_device (a : Z) : device_t := Device (pci_name (pci_header_of (hdr a))) a NULL NULL.

(** A bus without drivers after the devices [ds] for the functions [l] were
    added. *)
Record scanned (bus : Z) (b : bus_t) st st' (U : gset Z) (l ds : list Z) : Prop := {
  sc_mem : dmem st' = m;
  sc_bus : buses st' = <[bus := Bus (b_name b) (devices b ++ ds) []]> (buses st);
  sc_devs : Forall2 (fun dev a => devs st' !! dev = Some (pci_device a)) ds (List.filter is_present l);
  sc_new : NoDup ds /\ forall dev, dev ∈ ds -> dev ∉ U;
  sc_old : forall dev, dev ∉ ds -> devs st' !! dev = devs st !! dev;
  sc_rest : drvs st' = drvs st /\ g_buses st' = g_buses st
}.

Lemma pci_function_ok bus b a st U : buses st !! bus = Some b -> drivers b = [] -> oa_state (dobjs st) U -> dmem st = m ->
  kread m a 16 = Ok (hdr a) ->
  pci_function probe_device bus a st = Panic \/
  exists st' ds U', pci_function probe_device bus a st = Ok st' /\ oa_state (dobjs st') U' /\ U ⊆ U' /\ (forall dev, dev ∈ ds -> dev ∈ U') /\
    scanned bus b st st' U [a] ds.
Proof.
  intros Hb Hdr HU Hm Ha. unfold pci_function. rewrite Hm. run Ha. destruct (Z.eqb_spec (vendor_id (pci_header_of (hdr a))) 0xFFFF) as [E|E].
  - right. exists st, [], U. split; [done|]. split; [done|]. split; [done|]. split; [intros dev Hd; by apply not_elem_of_nil in Hd|].
    split; [done| | | |done|done].
    + rewrite app_nil_r. rewrite insert_id; [done|]. rewrite Hb. by destruct b; simplify_eq/=.
    + simpl. unfold is_present. rewrite (proj2 (Z.eqb_eq _ _) E). constructor.
    + split; [constructor|]. intros dev Hd. by apply not_elem_of_nil in Hd.
  - destruct (obj_alloc_spec _ U sizeof_device HU) as [E1|(o & k & E1 & HU1 & Ho & _)]; [unfold sizeof_device; lia|run E1; by left|]. run E1.
    destruct (obj_alloc_spec k _ DEVICE_NAME_LEN HU1) as [E2|(o2 & k2 & E2 & HU2 & Ho2 & _)]; [unfold DEVICE_NAME_LEN; lia|run E2; by left|]. run E2.
    rewrite pci_name_length. go. right. unfold bus_register_device. cbn [buses set_devs set_dobjs]. run Hb.
    cbn [devs set_buses set_devs set_dobjs]. rewrite lookup_insert_eq. go. cbn [driver]. rewrite Hdr. cbn [offer].
    eexists _, [o], _. split; [reflexivity|]. split; [exact HU2|]. split; [clear; set_solver|].
    split; [intros dev ->%list_elem_of_singleton; clear; set_solver|]. split; [done|done| | | |done].
    + simpl. unfold is_present. rewrite (proj2 (Z.eqb_neq _ _) E). cbn [negb]. constructor; [|constructor].
      cbn [devs set_buses set_devs set_dobjs]. apply lookup_insert_eq.
    + split; [apply NoDup_singleton|]. by intros dev ->%list_elem_of_singleton.
    + intros dev Hd. cbn [devs set_buses set_devs set_dobjs]. apply lookup_insert_ne. intros ->. apply Hd. by apply list_elem_of_singleton.
Qed.

Lemma scan_ok bus l : forall b st U, buses st !! bus = Some b -> drivers b = [] -> oa_state (dobjs st) U -> dmem st = m ->
  (forall a, a ∈ l -> kread m a 16 = Ok (hdr a)) ->
  for_each l (pci_function probe_device bus) st = Panic \/
  exists st' ds U', for_each l (pci_function probe_device bus) st = Ok st' /\ oa_state (dobjs st') U' /\ U ⊆ U' /\ (forall dev, dev ∈ ds -> dev ∈ U') /\
    scanned bus b st st' U l ds.
Proof.
  induction l as [|a l IH]; intros b st U Hb Hdr HU Hm Hl.
  - right. exists st, [], U. split; [done|]. split; [done|]. split; [done|]. split; [intros dev Hd; by apply not_elem_of_nil in Hd|].
    split; [done| |constructor| |done|done].
    + rewrite app_nil_r. rewrite insert_id; [done|]. rewrite Hb. by destruct b; simplify_eq/=.
    + split; [constructor|]. intros dev Hd. by apply not_elem_of_nil in Hd.
  - cbn [for_each]. destruct (pci_function_ok bus b a st U Hb Hdr HU Hm) as [E|(st1 & ds1 & U1 & E & HU1 & Hsub1 & Hds1 & [Hm1 Hb1 Hd1 [Hn1 Hf1] Ho1 [Hr1 Hg1]])];
      [apply Hl; by left|run E; by left|]. run E.
    destruct (IH (Bus (b_name b) (devices b ++ ds1) []) st1 U1) as [E2|(st2 & ds2 & U2 & E2 & HU2 & Hsub2 & Hds2 & [Hm2 Hb2 Hd2 [Hn2 Hf2] Ho2 [Hr2 Hg2]])].
    { rewrite Hb1. apply lookup_insert_eq. } { done. } { done. } { done. } { intros x Hx. apply Hl. by right. } { by left. }
    assert (Hsep : forall dev, dev ∈ ds1 -> dev ∉ ds2) by (intros dev H1 H2; by apply (Hf2 dev H2), Hds1).
    right. exists st2, (ds1 ++ ds2), U2. split; [done|]. split; [done|]. split; [by etrans|]. split.
    { intros dev [Hd|Hd]%elem_of_app; [by apply Hsub2, Hds1|by apply Hds2]. }
    split; [done| | | | |by rewrite Hr2, Hg2].
    + rewrite Hb2, Hb1, insert_insert_eq. cbn [b_name devices]. by rewrite app_assoc.
    + replace (List.filter is_present (a :: l)) with (List.filter is_present [a] ++ List.filter is_present l) by (simpl; by destruct (is_present a)).
      apply Forall2_app; [|done]. eapply Forall2_in_l; [exact Hd1|].
      intros dev x Hdev Hx. rewrite Ho2 by (by apply Hsep). done.
    + split; [apply NoDup_app; by split_and!|]. intros dev [Hd|Hd]%elem_of_app; [by apply Hf1|]. intros HdU. by apply (Hf2 dev Hd), Hsub1.
    + intros dev Hd. rewrite elem_of_app in Hd. rewrite Ho2, Ho1; [done|tauto|tauto].
Qed.
End pci.

Lemma pci_segment_flat {K : Type} `{ObjectAllocator K} HHDM probe_device bus base bus_start bus_end (st : dsys K) :
  pci_segment HHDM probe_device bus (base, bus_start, bus_end) st =
  for_each (pci_functions HHDM base bus_start bus_end) (pci_function probe_device bus) st.
Proof.
  unfold pci_segment, pci_functions. rewrite <- for_each_bind. apply for_each_ext. intros b s. rewrite <- for_each_bind. apply for_each_ext.
  intros d s'. rewrite <- for_each_bind. apply for_each_ext. intros f s''. simpl. by destruct (pci_function probe_device bus _ s'').
Qed.

(** ** Properties *)

(** [acpi_lookup] on a root table in memory, with pointers of 32 or 64 bits,
    gives the address in the direct map of the first table with the signature,
    and NULL if there is none. *)
Theorem acpi_lookup_correct HHDM m root (extended : bool) signature key ts : let w := if extended then 8%nat else 4%nat in
  length key = 4%nat -> bytes_at m signature key -> Forall (sdt_ok HHDM m w) ts -> sizeof_sdt + Z.of_nat (w * length ts) < 2 ^ 31 ->
  bytes_at m (root + 4) (le_bytes 4 (sizeof_sdt + Z.of_nat (w * length ts))) ->
  bytes_at m (root + sizeof_sdt) (concat (le_bytes w <$> ts.*1)) ->
  acpi_lookup HHDM m (Some (root, extended)) signature = Ok (first_table HHDM key ts).
Proof. apply acpi_lookup_ok. Qed.

(** [bus_register_driver] sets up exactly the devices of the bus that have no
    driver and that the driver accepts, in the order they were registered, and
    adds the driver to the bus. *)
Theorem register_driver_sets_up {K : Type} `{ObjectAllocator K} probe_device setup_device accepts bus drv (st : dsys K) b :
  (forall drv dev st d, devs st !! dev = Some d -> probe_device drv dev st = Ok (accepts drv d, st)) ->
  (forall drv dev st st', setup_device drv dev st = Ok st' -> devs st' = devs st /\ drvs st' = drvs st) ->
  buses st !! bus = Some b -> is_Some (drvs st !! drv) -> Forall (fun dev => is_Some (devs st !! dev)) (devices b) ->
  bus_register_driver probe_device setup_device bus drv st =
  for_each (List.filter (wanted accepts drv st) (devices b)) (setup_device drv)
    (set_buses (<[bus := Bus (b_name b) (devices b) (drivers b ++ [drv])]> (buses st)) st).
Proof. intros Hp Hs. by apply register_driver_ok. Qed.

(** The PCI scan of a segment registers one device for every function whose
    header is present, and no other, in the order of the loops: no function is
    visited twice, devices are fresh objects named after their headers, and the
    rest of the state does not change.  It stops the kernel only for lack of
    memory. *)
Theorem pci_segment_enumerates {K : Type} `{ObjectAllocator K} HHDM probe_device m hdr bus b base bus_start bus_end (st : dsys K) U :
  0 <= HHDM -> 0 <= base -> HHDM + base + 2 ^ 28 <= 2 ^ 64 -> 0 <= bus_start -> bus_end < 256 ->
  buses st !! bus = Some b -> drivers b = [] -> oa_state (dobjs st) U -> dmem st = m ->
  (forall a, a ∈ pci_functions HHDM base bus_start bus_end -> kread m a 16 = Ok (hdr a)) ->
  NoDup (pci_functions HHDM base bus_start bus_end) /\
  (pci_segment HHDM probe_device bus (base, bus_start, bus_end) st = Panic \/
   exists st' ds, pci_segment HHDM probe_device bus (base, bus_start, bus_end) st = Ok st' /\
     scanned m hdr bus b st st' U (pci_functions HHDM base bus_start bus_end) ds).
Proof.
  intros ??? Hs He Hb Hdr HU Hm Hread. split; [by apply pci_functions_nodup|]. rewrite pci_segment_flat.
  destruct (scan_ok probe_device m hdr bus _ b st U Hb Hdr HU Hm Hread) as [E|(st' & ds & U' & E & _ & _ & _ & Hsc)]; [by left|right; eauto].
Qed.

(** ** Concrete instances *)

Definition ex_root32 : mem :=
  write_bytes (write_bytes (write_bytes (write_bytes (write_bytes ∅ 0x1004 (le_bytes 4 44)) 0x1024 (le_bytes 4 0x2000 ++ le_bytes 4 0x3000))
    0x2000 [70; 65; 67; 80]) 0x3000 [77; 67; 70; 71]) 0x5000 [77; 67; 70; 71].

Lemma acpi_lookup_correct_witness : acpi_lookup 0 ex_root32 (Some (0x1000, false)) 0x5000 = Ok 0x3000.
Proof.
  refine (acpi_lookup_correct 0 ex_root32 0x1000 false 0x5000 [77; 67; 70; 71] [(0x2000, [70; 65; 67; 80]); (0x3000, [77; 67; 70; 71])] _ _ _ _ _ _).
  - reflexivity.
  - apply bytes_dec. vm_compute. reflexivity.
  - repeat (constructor; [split; [split; vm_compute; (reflexivity || discriminate)|split; [reflexivity|split;
      [repeat constructor; discriminate|apply bytes_dec; vm_compute; reflexivity]]]|]). constructor.
  - vm_compute. reflexivity.
  - apply bytes_dec. vm_compute. reflexivity.
  - apply bytes_dec. vm_compute. reflexivity.
Defined.

Definition ex_dev (h : Z) : device_t := Device [] h NULL NULL.
Definition ex_dsys : dsys fresh :=
  DSys ∅ (Fresh 4096 []) {[ 8 := ex_dev 1; 16 := ex_dev 2 ]} {[ 32 := Driver [] true ]} {[ 64 := Bus PCI_NAME [8; 16] [] ]} [64].
Definition ex_accepts (drv : Z) (d : device_t) : bool := hardware_data d =? 2.
Definition ex_probe (drv dev : Z) (st : dsys fresh) : outcome (bool * dsys fresh) := d ← deref (devs st !! dev); Ok (ex_accepts drv d, st).
Definition ex_setup (drv dev : Z) (st : dsys fresh) : outcome (dsys fresh) :=
  Ok (DSys (<[dev := drv]> (dmem st)) (dobjs st) (devs st) (drvs st) (buses st) (g_buses st)).

Lemma register_driver_sets_up_witness :
  exists st', bus_register_driver ex_probe ex_setup 64 32 ex_dsys = Ok st' /\ dmem st' = {[ 16 := 32 ]}.
Proof.
  eexists. split.
  - refine (eq_trans (register_driver_sets_up ex_probe ex_setup ex_accepts 64 32 ex_dsys (Bus PCI_NAME [8; 16] []) _ _ _ _ _) _).
    + intros drv dev st d Hd. unfold ex_probe. by rewrite Hd.
    + intros drv dev st st' E. injection E as <-. done.
    + reflexivity.
    + by exists (Driver [] true).
    + repeat constructor; eexists; reflexivity.
    + reflexivity.
  - reflexivity.
Defined.

(** One bus with the first function present only. *)
Definition ex_header (a : Z) : list Z := if a =? 0x100000 then [0x86; 0x80; 1; 0; 0; 0; 0; 0; 0; 1; 6; 1; 0; 0; 0; 0] else replicate 16 255.
Definition ex_config : mem := foldr (fun a m => write_bytes m a (ex_header a)) ∅ (pci_functions 0 0x100000 0 0).
Definition ex_pci : dsys fresh := DSys ex_config (Fresh 4096 []) ∅ ∅ {[ 64 := Bus PCI_NAME [] [] ]} [64].

Lemma ex_config_reads : forallb (fun a => bool_decide (kread ex_config a 16 = Ok (ex_header a))) (pci_functions 0 0x100000 0 0) = true.
Proof. vm_compute. reflexivity. Qed.

Lemma pci_segment_enumerates_witness :
  pci_segment 0 ex_probe 64 (0x100000, 0, 0) ex_pci = Panic \/
  exists st' dev, pci_segment 0 ex_probe 64 (0x100000, 0, 0) ex_pci = Ok st' /\
    devs st' !! dev = Some (Device (pci_name (PciHeader 0x8086 1 1 6 1)) 0x100000 NULL NULL).
Proof.
  destruct (pci_segment_enumerates 0 ex_probe ex_config ex_header 64 (Bus PCI_NAME [] []) 0x100000 0 0 ex_pci ∅)
    as (_ & [E|(st' & ds & E & [_ _ Hd _ _ _])]).
  - discriminate.
  - discriminate.
  - vm_compute. discriminate.
  - discriminate.
  - reflexivity.
  - reflexivity.
  - reflexivity.
  - intros o Ho. by apply not_elem_of_empty in Ho.
  - reflexivity.
  - intros a Ha%list_elem_of_In. pose proof ex_config_reads as Hc. rewrite forallb_forall in Hc. apply Hc in Ha. by apply bool_decide_eq_true in Ha.
  - left. exact E.
  - right. assert (Ef : List.filter (is_present ex_header) (pci_functions 0 0x100000 0 0) = [0x100000]) by (vm_compute; reflexivity).
    rewrite Ef in Hd. inversion Hd as [|dev x ds' l' Hx]. subst. exists st', dev. split; [exact E|exact Hx].
Defined.
