(* ===== verification/X86.v ===== *)
(** * Descriptor tables and registers of the processor (kernel/src/arch/x86_64)

    tables/gdt.c, tables/idt.c, tables/tss.c, msr.h, syscall.c, cpuid.c, fpu.c,
    cpu.c, init.c, int.c and the number check of syscall.asm.  The tables are
    bytes in memory; what the processor makes of them (segment descriptors, gates,
    the task state, the selectors of SYSCALL and SYSRET) is written down from the
    processor's manual as decoders, and the theorems say that it finds what the
    code meant. *)
From stdpp Require Import base gmap list fin_maps.
From Stdlib Require Import ZArith Lia.
From S2P Require Import Prelude Strings Interfaces Kmem PageTables Vmm Sched Proc.

(** ** tables/gdt.c and tables/gdt.h *)

Definition ACCESS_PRESENT : Z := Z.shiftl 1 7.
Definition ACCESS_DPL (DPL : Z) : Z := Z.shiftl (Z.land DPL 3) 5.
Definition ACCESS_TYPE_TSS : Z := 9.
Definition ACCESS_TYPE_CODE (CONFORM READ : Z) : Z :=
  Z.lor (Z.lor (Z.lor (Z.shiftl 1 4) (Z.shiftl 1 3)) (Z.shiftl CONFORM 2)) (Z.shiftl READ 1).
Definition ACCESS_TYPE_DATA (DIRECTION WRITE : Z) : Z :=
  Z.lor (Z.lor (Z.shiftl 1 4) (Z.shiftl DIRECTION 2)) (Z.shiftl WRITE 1).
Definition FLAG_LONG : Z := Z.shiftl 1 5.
Definition FLAG_SYSTEM_AVL : Z := Z.shiftl 1 4.

Definition X86_64_GDT_SELECTOR_CODE64_RING0 : Z := Z.shiftl 1 3.
Definition X86_64_GDT_SELECTOR_DATA64_RING0 : Z := Z.shiftl 2 3.
Definition X86_64_GDT_SELECTOR_DATA64_RING3 : Z := Z.lor (Z.shiftl 3 3) 3.
Definition X86_64_GDT_SELECTOR_CODE64_RING3 : Z := Z.lor (Z.shiftl 4 3) 3.

Record gdt_entry_t := GdtEntry { g_limit : Z; base_low : Z; base_mid : Z; access : Z; g_flags : Z; base_high : Z }.
Record gdt_system_entry_t := GdtSystemEntry { gdt_entry : gdt_entry_t; base_ext : Z; g_rsv : Z }.

(** The bytes of the packed structures. *)
Definition gdt_entry_bytes (e : gdt_entry_t) : list Z :=
  le_bytes 2 (g_limit e) ++ le_bytes 2 (base_low e) ++ le_bytes 1 (base_mid e) ++ le_bytes 1 (access e) ++
  le_bytes 1 (g_flags e) ++ le_bytes 1 (base_high e).
Definition gdt_system_entry_bytes (e : gdt_system_entry_t) : list Z :=
  gdt_entry_bytes (gdt_entry e) ++ le_bytes 4 (base_ext e) ++ le_bytes 4 (g_rsv e).

Definition zero_entry : gdt_entry_t := GdtEntry 0 0 0 0 0 0.

Definition g_gdt : list gdt_entry_t := [
  zero_entry;
  GdtEntry 0 0 0 (Z.lor (Z.lor ACCESS_PRESENT (ACCESS_DPL 0)) (ACCESS_TYPE_CODE 0 1)) FLAG_LONG 0;
  GdtEntry 0 0 0 (Z.lor (Z.lor ACCESS_PRESENT (ACCESS_DPL 0)) (ACCESS_TYPE_DATA 0 1)) 0 0;
  GdtEntry 0 0 0 (Z.lor (Z.lor ACCESS_PRESENT (ACCESS_DPL 3)) (ACCESS_TYPE_DATA 0 1)) 0 0;
  GdtEntry 0 0 0 (Z.lor (Z.lor ACCESS_PRESENT (ACCESS_DPL 3)) (ACCESS_TYPE_CODE 0 1)) FLAG_LONG 0;
  zero_entry;
  zero_entry ].

Definition gdt_bytes : list Z := concat (gdt_entry_bytes <$> g_gdt).
Definition sizeof_gdt : Z := 56.
Definition sizeof_tss : Z := 104.

(** *** Descriptors as the processor reads them *)

Inductive segment := SegNull | SegCode (dpl : Z) (long : bool) | SegData (dpl : Z) (writable : bool) | SegTss (busy : bool) (base limit : Z) | SegOther.

(** A descriptor from eight bytes, or sixteen for system descriptors: access
    byte at 5, flags at 6, base in 2, 3, 4, 7 and 8 to 11, limit in 0, 1 and the
    low half of 6. *)
Definition descriptor (bs : list Z) : segment :=
  let b := fun i => default 0 (bs !! i) in
  let acc := b 5%nat in
  if negb (Z.testbit acc 7) then SegNull
  else if Z.testbit acc 4 then
    if Z.testbit acc 3 then SegCode (Z.land (Z.shiftr acc 5) 3) (Z.testbit (b 6%nat) 5)
    else SegData (Z.land (Z.shiftr acc 5) 3) (Z.testbit acc 1)
  else
    let base := le_value [b 2%nat; b 3%nat; b 4%nat; b 7%nat; b 8%nat; b 9%nat; b 10%nat; b 11%nat] in
    let limit := le_value [b 0%nat; b 1%nat; Z.land (b 6%nat) 15] in
    if Z.land acc 15 =? 9 then SegTss false base limit
    else if Z.land acc 15 =? 11 then SegTss true base limit
    else SegOther.

(** The descriptor that a selector names in the table at [gdt]. *)
Definition segment_of (m : mem) (gdt sel : Z) : outcome segment :=
  let p := gdt + 8 * Z.shiftr sel 3 in
  bs ← kread m p 8;
  match descriptor bs with
  | SegTss _ _ _ => bs ← kread m p 16; Ok (descriptor bs)
  | s => Ok s
  end.

(** LTR loads an available task state segment and marks it busy; anything else
    is a general protection fault. *)
Definition ltr (m : mem) (gdt sel : Z) : outcome (mem * (Z * Z)) :=
  s ← segment_of m gdt sel;
  match s with
  | SegTss false base limit =>
      acc ← load m (gdt + 8 * Z.shiftr sel 3 + 5);
      m ← store m (gdt + 8 * Z.shiftr sel 3 + 5) (Z.lor acc 2);
      Ok (m, (base, limit))
  | _ => Fault
  end.

(** A structure assigned at [p]; its bytes are mapped. *)
Definition put (m : mem) (p : Z) (bs : list Z) : outcome mem :=
  _ ← kread m p (length bs); Ok (write_bytes m p bs).

(** The table register after [gdt_load], and the segment registers it loads. *)
Record table_regs := TableRegs { gdtr : Z * Z; cs : Z; ss : Z }.

Definition x86_64_gdt_load (gdt : Z) : table_regs :=
  TableRegs (u16 (sizeof_gdt - 1), gdt) X86_64_GDT_SELECTOR_CODE64_RING0 X86_64_GDT_SELECTOR_DATA64_RING0.

Definition tss_descriptor (tss : Z) : gdt_system_entry_t :=
  GdtSystemEntry
    (GdtEntry (u16 sizeof_tss) (u16 tss) (u8 (Z.shiftr tss 16)) (Z.lor ACCESS_PRESENT ACCESS_TYPE_TSS)
       (Z.lor FLAG_SYSTEM_AVL (Z.land (Z.shiftr sizeof_tss 16) 15)) (u8 (Z.shiftr tss 24)))
    (u32 (Z.shiftr tss 32)) 0.

Definition tss_segment : Z := sizeof_gdt - 16.

(** [g_gdt] is at [gdt]; the task register is the base and limit it caches. *)
Definition x86_64_gdt_load_tss (gdt tss : Z) (m : mem) : outcome (mem * (Z * Z)) :=
  '(_, m) ← memset m tss 0 sizeof_tss;
  m ← put m (gdt + tss_segment) (gdt_system_entry_bytes (tss_descriptor tss));
  ltr m gdt tss_segment.

(** tables/tss.c: the two halves of the stack pointer of ring 0. *)
Definition OFF_rsp0 : Z := 4.
Definition OFF_iomap_base : Z := 102.

Definition x86_64_tss_set_rsp0 (tss stack_pointer : Z) (m : mem) : outcome mem :=
  m ← put m (tss + OFF_rsp0) (le_bytes 4 (u32 stack_pointer));
  put m (tss + OFF_rsp0 + 4) (le_bytes 4 (u32 (Z.shiftr stack_pointer 32))).

(** The stack the processor takes for an interrupt from ring 3. *)
Definition rsp0 (m : mem) (tss : Z) : outcome Z := bs ← kread m (tss + 4) 8; Ok (le_value bs).

(** An access to a port from ring 3: the bit of the port in the map at
    [iomap_base], of which the processor reads two bytes within the limit. *)
Definition port_allowed (m : mem) (tr : Z * Z) (port : Z) : outcome bool :=
  let '(tss, limit) := tr in
  bs ← kread m (tss + OFF_iomap_base) 2;
  let at_ := le_value bs + port / 8 in
  if limit <? at_ + 1 then Ok false
  else b ← load m (tss + at_); Ok (negb (Z.testbit b (port mod 8))).

(** ** tables/idt.c *)

Record idt_entry_t := IdtEntry { isr_low : Z; kernel_cs : Z; ist : Z; i_flags : Z; isr_mid : Z; isr_high : Z; i_rsv : Z }.

Definition idt_entry_bytes (e : idt_entry_t) : list Z :=
  le_bytes 2 (isr_low e) ++ le_bytes 2 (kernel_cs e) ++ le_bytes 1 (ist e) ++ le_bytes 1 (i_flags e) ++
  le_bytes 2 (isr_mid e) ++ le_bytes 4 (isr_high e) ++ le_bytes 4 (i_rsv e).

Definition idt_gate (isr : Z) : idt_entry_t :=
  IdtEntry (Z.land isr 0xFFFF) X86_64_GDT_SELECTOR_CODE64_RING0 0 0x8E (Z.land (Z.shiftr isr 16) 0xFFFF)
    (Z.land (Z.shiftr isr 32) 0xFFFFFFFF) 0.

(** The loop over the 256 gates; [i] counts up to 256. *)
Fixpoint idt_loop (todo : nat) (i : nat) (idt : Z) (arch_int_stub_table : list Z) (m : mem) : outcome mem :=
  match todo with
  | O => Ok m
  | S todo =>
      isr ← deref (arch_int_stub_table !! i);
      m ← put m (idt + 16 * Z.of_nat i) (idt_entry_bytes (idt_gate isr));
      idt_loop todo (S i) idt arch_int_stub_table m
  end.

Definition x86_64_idt_make (idt : Z) (arch_int_stub_table : list Z) (m : mem) : outcome mem :=
  idt_loop 256 0 idt arch_int_stub_table m.

Definition sizeof_idt : Z := 4096.
Definition x86_64_idt_load (idt : Z) : Z * Z := (u16 (sizeof_idt - 1), idt).

(** A gate as the processor reads it: present, privilege level, kind (14 is an
    interrupt gate), selector, stack table index and address. *)
Record gate := Gate { present : bool; gate_dpl : Z; gate_type : Z; gate_sel : Z; gate_ist : Z; offset : Z }.

Definition gate_of (m : mem) (idtr : Z * Z) (vector : Z) : outcome gate :=
  let '(limit, idt) := idtr in
  if limit <? 16 * vector + 15 then Fault
  else
    bs ← kread m (idt + 16 * vector) 16;
    let b := fun i => default 0 (bs !! i) in
    Ok (Gate (Z.testbit (b 5%nat) 7) (Z.land (Z.shiftr (b 5%nat) 5) 3) (Z.land (b 5%nat) 15) (le_value [b 2%nat; b 3%nat])
          (Z.land (b 4%nat) 7) (le_value [b 0%nat; b 1%nat; b 6%nat; b 7%nat; b 8%nat; b 9%nat; b 10%nat; b 11%nat])).

(** *** The tables the processor finds *)

Lemma put_ok m p bs : mapped m p (length bs) -> put m p bs = Ok (write_bytes m p bs).
Proof. intros Hm. unfold put. destruct (kread_total _ _ _ Hm) as (cs & E & _ & _). by run E. Qed.

(** The bytes of an address, in the pieces the structures keep them in. *)
Lemma address_bytes a : 0 <= a < 2 ^ 64 ->
  le_value [a mod 256; a / 256 mod 256; a / 65536 mod 256; a / 16777216 mod 256; a / 4294967296 mod 256;
            a / 1099511627776 mod 256; a / 281474976710656 mod 256; a / 72057594037927936 mod 256] = a.
Proof.
  intros Ha. transitivity (le_value (le_bytes 8 a)); [|rewrite le_bytes_value; by apply Z.mod_small].
  unfold le_bytes. rewrite !Z.div_div by lia. done.
Qed.

Lemma tss_descriptor_bytes tss : gdt_system_entry_bytes (tss_descriptor tss) =
  [104; 0; tss mod 256; tss / 256 mod 256; tss / 65536 mod 256; 137; 16; tss / 16777216 mod 256;
   tss / 4294967296 mod 256; tss / 1099511627776 mod 256; tss / 281474976710656 mod 256; tss / 72057594037927936 mod 256; 0; 0; 0; 0].
Proof.
  unfold gdt_system_entry_bytes, gdt_entry_bytes, tss_descriptor, u8, u16, u32.
  cbn [gdt_entry base_ext g_rsv g_limit base_low base_mid access g_flags base_high app le_bytes].
  rewrite !Z.shiftr_div_pow2 by lia. repeat (apply (f_equal2 cons); [first [reflexivity | dlia]|]). reflexivity.
Qed.

(** The descriptor with the access byte [acc] as the processor reads it. *)
Lemma segment_of_tss m gdt tss (busy : bool) : 0 <= tss < 2 ^ 64 ->
  bytes_at m (gdt + tss_segment) (<[5%nat := if busy then 139 else 137]> (gdt_system_entry_bytes (tss_descriptor tss))) ->
  segment_of m gdt tss_segment = Ok (SegTss busy tss 104).
Proof.
  intros Ht Hb. rewrite tss_descriptor_bytes in Hb. cbn [insert list_insert] in Hb.
  pose proof (kread_ok _ _ _ Hb) as E16. pose proof (kread_ok _ _ _ (bytes_at_slice _ _ _ 0 8 Hb)) as E8.
  rewrite Z.add_0_r in E8. cbn [take drop length] in E8, E16.
  unfold segment_of. change (8 * Z.shiftr tss_segment 3) with tss_segment. run E8.
  match goal with |- context [descriptor ?l] => assert (exists b, descriptor l = SegTss busy b 104) as [b Eb]
    by (destruct busy; eexists; reflexivity) end.
  rewrite Eb. run E16. unfold descriptor. cbn [default lookup list_lookup from_option id].
  rewrite address_bytes by done. by destruct busy.
Qed.

Lemma segment_of_read m gdt sel i s : Z.shiftr sel 3 = Z.of_nat i -> bytes_at m gdt (take 40 gdt_bytes) -> (i < 5)%nat ->
  descriptor (take 8 (drop (8 * i) gdt_bytes)) = s -> match s with SegTss _ _ _ => False | _ => True end -> segment_of m gdt sel = Ok s.
Proof.
  intros Ei Hb Hi Hs Hn. assert (bytes_at m (gdt + 8 * Z.shiftr sel 3) (take 8 (drop (8 * i) gdt_bytes))) as Hb'.
  { apply (bytes_at_slice _ _ _ (8 * i) 8) in Hb. rewrite Ei. replace (8 * Z.of_nat i) with (Z.of_nat (8 * i)) by lia.
    replace (take 8 (drop (8 * i) gdt_bytes)) with (take 8 (drop (8 * i) (take 40 gdt_bytes))); [done|].
    do 5 (destruct i as [|i]; [reflexivity|]). lia. }
  apply kread_ok in Hb'. replace (length (take 8 (drop (8 * i) gdt_bytes))) with 8%nat in Hb'
    by (do 5 (destruct i as [|i]; [reflexivity|]); lia).
  unfold segment_of. run Hb'. rewrite Hs. by destruct s.
Qed.

(** Each selector names a present descriptor of its kind and privilege level;
    code is 64-bit. *)
Definition segments_typed (m : mem) (gdt : Z) : Prop :=
  segment_of m gdt X86_64_GDT_SELECTOR_CODE64_RING0 = Ok (SegCode 0 true) /\
  segment_of m gdt X86_64_GDT_SELECTOR_DATA64_RING0 = Ok (SegData 0 true) /\
  segment_of m gdt X86_64_GDT_SELECTOR_DATA64_RING3 = Ok (SegData 3 true) /\
  segment_of m gdt X86_64_GDT_SELECTOR_CODE64_RING3 = Ok (SegCode 3 true).

Lemma gdt_segments m gdt : bytes_at m gdt (take 40 gdt_bytes) -> segments_typed m gdt.
Proof.
  intros Hb. unfold segments_typed. split_and!.
  - by eapply (segment_of_read m gdt _ 1); [reflexivity|done|lia|reflexivity|].
  - by eapply (segment_of_read m gdt _ 2); [reflexivity|done|lia|reflexivity|].
  - by eapply (segment_of_read m gdt _ 3); [reflexivity|done|lia|reflexivity|].
  - by eapply (segment_of_read m gdt _ 4); [reflexivity|done|lia|reflexivity|].
Qed.

(** LTR on the descriptor just written. *)
Lemma ltr_tss m gdt tss : 0 <= tss < 2 ^ 64 ->
  bytes_at m (gdt + tss_segment) (gdt_system_entry_bytes (tss_descriptor tss)) ->
  ltr m gdt tss_segment = Ok (<[gdt + 45 := 139]> m, (tss, 104)).
Proof.
  intros Ht Hb. unfold ltr. run (segment_of_tss m gdt tss false Ht).
  - assert (m !! (gdt + 45) = Some 137) as E5.
    { rewrite tss_descriptor_bytes in Hb. specialize (Hb 5%nat 137 eq_refl). unfold tss_segment, sizeof_gdt in Hb.
      by replace (gdt + (56 - 16) + Z.of_nat 5) with (gdt + 45) in Hb by lia. }
    change (8 * Z.shiftr tss_segment 3) with 40. replace (gdt + 40 + 5) with (gdt + 45) by lia.
    unfold load, store. run E5. reflexivity.
  - by rewrite tss_descriptor_bytes in *.
Qed.

Definition apart (p n q k : Z) : Prop := p + n <= q \/ q + k <= p.

Lemma gdt_load_tss_ok m gdt tss :
  0 <= tss < 2 ^ 64 -> mapped m tss 104 -> bytes_at m gdt (take 40 gdt_bytes) -> mapped m (gdt + 40) 16 -> apart tss 104 gdt 56 ->
  exists m', x86_64_gdt_load_tss gdt tss m = Ok (m', (tss, 104)) /\ bytes_at m' tss (zeroes 104) /\
    bytes_at m' gdt (take 40 gdt_bytes) /\ segment_of m' gdt tss_segment = Ok (SegTss true tss 104) /\
    (forall a, ~ tss <= a < tss + 104 -> ~ gdt + 40 <= a < gdt + 56 -> m' !! a = m !! a).
Proof.
  intros Ht Hm Hg Hs Ha. unfold apart in Ha. set (m1 := write_bytes m tss (zeroes 104)).
  set (m2 := write_bytes m1 (gdt + 40) (gdt_system_entry_bytes (tss_descriptor tss))).
  assert (length (gdt_system_entry_bytes (tss_descriptor tss)) = 16%nat) as Hl by (by rewrite tss_descriptor_bytes).
  assert (length (zeroes 104) = 104%nat) as Hz by done. assert (length (take 40 gdt_bytes) = 40%nat) as Hgl by done.
  assert (bytes_at m2 (gdt + 40) (gdt_system_entry_bytes (tss_descriptor tss))) as Hb2 by apply write_bytes_at.
  exists (<[gdt + 45 := 139]> m2). split_and!.
  - unfold x86_64_gdt_load_tss, memset. change (Z.to_nat sizeof_tss) with 104%nat. run (fill_spec 104 m tss 0 Hm).
    change (replicate 104 (u8 0)) with (zeroes 104). fold m1.
    run put_ok; [|rewrite Hl; by apply mapped_write_bytes]. by apply ltr_tss.
  - apply bytes_at_insert; [rewrite Hz; lia|]. intros i b Hi. pose proof (lookup_lt_Some _ _ _ Hi).
    unfold m2. rewrite write_bytes_out by (rewrite Hl; lia). by apply write_bytes_at.
  - apply bytes_at_insert; [rewrite Hgl; lia|]. intros i b Hi. pose proof (lookup_lt_Some _ _ _ Hi).
    unfold m2. rewrite write_bytes_out by (rewrite Hl; lia). unfold m1. rewrite write_bytes_out by (rewrite Hz; lia). by apply Hg.
  - assert (bytes_at (<[gdt + 45 := 139]> m2) (gdt + 40) (<[5%nat := 139]> (gdt_system_entry_bytes (tss_descriptor tss)))) as Hb3.
    { intros i b Hi. destruct (decide (i = 5%nat)) as [->|Hne].
      - rewrite list_lookup_insert_eq in Hi by (rewrite Hl; lia). injection Hi as <-.
        replace (gdt + 40 + Z.of_nat 5) with (gdt + 45) by lia. apply lookup_insert_eq.
      - rewrite list_lookup_insert_ne in Hi by done. rewrite lookup_insert_ne by lia. by apply Hb2. }
    by apply (segment_of_tss _ _ _ true).
  - intros a H1 H2. rewrite lookup_insert_ne by lia. unfold m2. rewrite write_bytes_out by (rewrite Hl; lia).
    unfold m1. by rewrite write_bytes_out by (rewrite Hz; lia).
Qed.

(** The halves of the stack pointer are the eight bytes the processor reads. *)
Lemma tss_set_rsp0_ok m tss sp : 0 <= sp < 2 ^ 64 -> mapped m (tss + 4) 8 ->
  x86_64_tss_set_rsp0 tss sp m = Ok (write_bytes m (tss + 4) (le64 sp)).
Proof.
  intros Hsp Hm. assert (le64 sp = le_bytes 4 (u32 sp) ++ le_bytes 4 (u32 (Z.shiftr sp 32))) as Hb.
  { unfold le64, u32. rewrite Z.shiftr_div_pow2 by lia. cbn [le_bytes app].
    repeat (apply (f_equal2 cons); [first [reflexivity | dlia]|]). reflexivity. }
  unfold x86_64_tss_set_rsp0, OFF_rsp0. run put_ok.
  - rewrite put_ok; [|apply mapped_write_bytes; intros i Hi; cbn in Hi; specialize (Hm (4 + i)%nat ltac:(lia));
      by replace (tss + 4 + 4 + Z.of_nat i) with (tss + 4 + Z.of_nat (4 + i)) by lia].
    rewrite Hb, write_bytes_app, le_bytes_length. done.
  - intros i Hi. rewrite le_bytes_length in Hi. apply Hm. lia.
Qed.

Lemma rsp0_read m tss sp : 0 <= sp < 2 ^ 64 -> rsp0 (write_bytes m (tss + 4) (le64 sp)) tss = Ok sp.
Proof.
  intros Hsp. unfold rsp0. pose proof (kread_ok _ _ _ (write_bytes_at m (tss + 4) (le64 sp))) as E.
  rewrite (le_bytes_length 8) in E. run E. unfold le64. rewrite le_bytes_value. f_equal. by apply Z.mod_small.
Qed.

(** Loading a task state segment works for every address: the processor's
    task register gets the address, the whole segment is zero, the code and data
    descriptors stay typed as the selectors say and nothing else is written; the
    stack pointer set afterwards is the one the processor takes for interrupts
    from user mode. *)
Theorem tss_loaded m gdt tss sp :
  0 <= tss < 2 ^ 64 -> mapped m tss 104 -> bytes_at m gdt (take 40 gdt_bytes) -> mapped m (gdt + 40) 16 -> apart tss 104 gdt 56 ->
  0 <= sp < 2 ^ 64 ->
  exists m' m'', x86_64_gdt_load_tss gdt tss m = Ok (m', (tss, 104)) /\ x86_64_tss_set_rsp0 tss sp m' = Ok m'' /\
    bytes_at m' tss (zeroes 104) /\ segments_typed m'' gdt /\ segment_of m'' gdt tss_segment = Ok (SegTss true tss 104) /\
    rsp0 m'' tss = Ok sp /\
    (forall a, ~ tss <= a < tss + 104 -> ~ gdt + 40 <= a < gdt + 56 -> m'' !! a = m !! a).
Proof.
  intros Ht Hm Hg Hs Ha Hsp. destruct (gdt_load_tss_ok _ _ _ Ht Hm Hg Hs Ha) as (m' & E & Hz & Hg' & Hseg & Hout).
  exists m', (write_bytes m' (tss + 4) (le64 sp)). assert (length (le64 sp) = 8%nat) as Hl by apply le_bytes_length. unfold apart in Ha.
  split_and!; [done| |done| | |by apply rsp0_read|].
  - apply tss_set_rsp0_ok; [done|]. apply bytes_mapped in Hz. intros i Hi. specialize (Hz (4 + i)%nat).
    replace (tss + 4 + Z.of_nat i) with (tss + Z.of_nat (4 + i)) by lia. apply Hz. change (length (zeroes 104)) with 104%nat. lia.
  - apply gdt_segments. apply (bytes_at_agree m' _ _ _ (tss + 4) (tss + 12)); [intros x Hx; apply write_bytes_out; lia|cbn; lia|done].
  - rewrite <- Hseg. unfold segment_of. change (8 * Z.shiftr tss_segment 3) with 40. rewrite !(kread_agree m' (write_bytes _ _ _)); [done|..];
      intros i Hi; apply write_bytes_out; lia.
  - intros a H1 H2. rewrite write_bytes_out by lia. by apply Hout.
Qed.

(** The permission map of ports lies at offset 0 of the segment, and it is
    zero: once a stack pointer is set, the ports 96 to 831, those of disks
    among them, are open to programs. *)
Lemma ports_open_to_programs m tss sp port : bytes_at m tss (zeroes 104) -> 96 <= port < 832 ->
  port_allowed (write_bytes m (tss + 4) (le64 sp)) (tss, 104) port = Ok true.
Proof.
  intros Hz Hp. assert (length (le64 sp) = 8%nat) as Hl by apply le_bytes_length.
  assert (forall i, (12 <= i < 104)%nat -> write_bytes m (tss + 4) (le64 sp) !! (tss + Z.of_nat i) = Some 0) as Hb.
  { intros i Hi. rewrite write_bytes_out by lia. apply Hz. apply lookup_replicate. split; [done|lia]. }
  unfold port_allowed, OFF_iomap_base. cbn [kread]. unfold load.
  change (tss + 102) with (tss + Z.of_nat 102). rewrite (Hb 102%nat ltac:(lia)). go.
  replace (tss + Z.of_nat 102 + 1) with (tss + Z.of_nat 103) by lia. rewrite (Hb 103%nat ltac:(lia)). go.
  change (le_value [0; 0]) with 0. rewrite Z.add_0_l. rewrite (proj2 (Z.ltb_ge 104 (port / 8 + 1))) by dlia.
  rewrite <- (Z2Nat.id (port / 8)) by dlia. rewrite Hb by dlia. go. by rewrite Z.bits_0.
Qed.

Lemma idt_gate_bytes isr : idt_entry_bytes (idt_gate isr) =
  [isr mod 256; isr / 256 mod 256; 8; 0; 0; 142; isr / 65536 mod 256; isr / 16777216 mod 256; isr / 4294967296 mod 256;
   isr / 1099511627776 mod 256; isr / 281474976710656 mod 256; isr / 72057594037927936 mod 256; 0; 0; 0; 0].
Proof.
  unfold idt_entry_bytes, idt_gate. cbn [isr_low kernel_cs ist i_flags isr_mid isr_high i_rsv app le_bytes].
  change 0xFFFF with (Z.ones 16). change 0xFFFFFFFF with (Z.ones 32). rewrite !Z.land_ones, !Z.shiftr_div_pow2 by lia.
  repeat (apply (f_equal2 cons); [first [reflexivity | dlia]|]). reflexivity.
Qed.

Lemma idt_gate_length isr : length (idt_entry_bytes (idt_gate isr)) = 16%nat.
Proof. by rewrite idt_gate_bytes. Qed.

Lemma idt_loop_ok idt l pre m : mapped m (idt + 16 * Z.of_nat (length pre)) (16 * length l) ->
  idt_loop (length l) (length pre) idt (pre ++ l) m =
  Ok (write_bytes m (idt + 16 * Z.of_nat (length pre)) (concat ((fun isr => idt_entry_bytes (idt_gate isr)) <$> l))).
Proof.
  revert pre m. induction l as [|isr l IH]; intros pre m Hm; [done|]. cbn [idt_loop length].
  rewrite list_lookup_middle by done. go. run put_ok.
  - specialize (IH (pre ++ [isr])). rewrite <- app_assoc in IH. rewrite length_app in IH. cbn [length app] in IH.
    replace (S (length pre)) with (length pre + 1)%nat by lia. rewrite IH.
    + rewrite fmap_cons. cbn [concat]. rewrite write_bytes_app, idt_gate_length. do 2 f_equal. lia.
    + apply mapped_write_bytes. intros i Hi. specialize (Hm (16 + i)%nat ltac:(cbn [length]; lia)).
      by replace (idt + 16 * Z.of_nat (length pre + 1) + Z.of_nat i) with (idt + 16 * Z.of_nat (length pre) + Z.of_nat (16 + i)) by lia.
  - rewrite idt_gate_length. intros i Hi. apply Hm. cbn [length]. lia.
Qed.

Lemma idt_make_ok idt stubs m : mapped m idt 4096 -> length stubs = 256%nat -> Forall (fun isr => 0 <= isr < 2 ^ 64) stubs ->
  exists m', x86_64_idt_make idt stubs m = Ok m' /\
    (forall i isr, stubs !! i = Some isr -> gate_of m' (x86_64_idt_load idt) (Z.of_nat i) = Ok (Gate true 0 14 X86_64_GDT_SELECTOR_CODE64_RING0 0 isr)) /\
    (forall a, ~ idt <= a < idt + 4096 -> m' !! a = m !! a).
Proof.
  intros Hm Hl Hr. set (bs := concat ((fun isr => idt_entry_bytes (idt_gate isr)) <$> stubs)).
  assert (length bs = 4096%nat) as Hbs by (unfold bs; rewrite (concat_length _ 16) by apply idt_gate_length; lia).
  exists (write_bytes m idt bs). split_and!.
  - pose proof (idt_loop_ok idt stubs [] m) as E. cbn [length app Z.of_nat] in E. rewrite Z.add_0_r, Hl in E. by apply E.
  - intros i isr Hi. pose proof (lookup_lt_Some _ _ _ Hi). rewrite Forall_lookup in Hr. specialize (Hr _ _ Hi).
    pose proof (bytes_at_slice _ _ _ (16 * i) 16 (write_bytes_at m idt bs)) as Hb. unfold bs in Hb at 2.
    rewrite (concat_lookup _ 16 stubs i isr idt_gate_length Hi) in Hb. apply kread_ok in Hb. rewrite idt_gate_length, idt_gate_bytes in Hb.
    unfold gate_of, x86_64_idt_load, sizeof_idt. rewrite (proj2 (Z.ltb_ge _ _)) by (change (u16 (4096 - 1)) with 4095; lia).
    replace (16 * Z.of_nat i) with (Z.of_nat (16 * i)) by lia. run Hb. cbn [default lookup list_lookup from_option id].
    rewrite address_bytes by done. reflexivity.
  - intros a Ha. apply write_bytes_out. lia.
Qed.

(** ** msr.h and syscall.c

    The model specific registers are 64 bits each; a register that the processor
    does not have faults. *)

Definition X86_64_MSR_APIC_BASE : Z := 0x1B.
Definition X86_64_MSR_EFER : Z := 0xC0000080.
Definition X86_64_MSR_STAR : Z := 0xC0000081.
Definition X86_64_MSR_LSTAR : Z := 0xC0000082.
Definition X86_64_MSR_SFMASK : Z := 0xC0000084.
Definition X86_64_MSR_FS_BASE : Z := 0xC0000100.
Definition X86_64_MSR_GS_BASE : Z := 0xC0000101.
Definition X86_64_MSR_KERNEL_GS_BASE : Z := 0xC0000102.

Abbreviation msrs := (gmap Z Z).

(** RDMSR gives the halves in EDX and EAX, WRMSR takes them from there. *)
Definition rdmsr (r : msrs) (msr : Z) : outcome (Z * Z) := v ← deref (r !! msr); Ok (u32 v, Z.shiftr v 32).
Definition wrmsr (r : msrs) (msr low high : Z) : outcome msrs := deref (r !! msr);; Ok (<[msr := low + 2 ^ 32 * high]> r).

Definition x86_64_msr_read (r : msrs) (msr : Z) : outcome Z :=
  '(low, high) ← rdmsr r msr; Ok (Z.lor (Z.shiftl high 32) low).
Definition x86_64_msr_write (r : msrs) (msr value : Z) : outcome msrs :=
  wrmsr r msr (u32 value) (u32 (Z.shiftr value 32)).

Definition x86_64_syscall_init (arch_syscall_entry : Z) (r : msrs) : outcome msrs :=
  efer ← x86_64_msr_read r X86_64_MSR_EFER;
  r ← x86_64_msr_write r X86_64_MSR_EFER (Z.lor efer 1);
  r ← x86_64_msr_write r X86_64_MSR_STAR
        (Z.lor (Z.shiftl (X86_64_GDT_SELECTOR_DATA64_RING3 - 8) 48) (Z.shiftl X86_64_GDT_SELECTOR_CODE64_RING0 32));
  r ← x86_64_msr_write r X86_64_MSR_LSTAR arch_syscall_entry;
  sfmask ← x86_64_msr_read r X86_64_MSR_SFMASK;
  x86_64_msr_write r X86_64_MSR_SFMASK (Z.lor sfmask (Z.shiftl 1 9)).

Definition arch_syscall_tcb_set (ptr : Z) (r : msrs) : outcome msrs := x86_64_msr_write r X86_64_MSR_FS_BASE ptr.
Definition arch_cpu_write_thread_reg (t : Z) (r : msrs) : outcome msrs := x86_64_msr_write r X86_64_MSR_GS_BASE t.

(** What SYSCALL and SYSRET make of the registers: the selectors of code and
    stack, the flags that stay, the address. *)
Definition syscall_selectors (star : Z) : Z * Z :=
  let s := Z.land (Z.shiftr star 32) 0xFFFF in (Z.land s 0xFFFC, s + 8).
Definition sysret_selectors (star : Z) : Z * Z :=
  let s := Z.land (Z.shiftr star 48) 0xFFFF in (Z.lor (s + 16) 3, Z.lor (s + 8) 3).
Definition syscall_flags (rflags sfmask : Z) : Z := Z.ldiff rflags sfmask.
Definition RFLAGS_IF : Z := 9.

Lemma halves_lor n v : 0 <= n -> 0 <= v -> Z.lor (Z.shiftl (Z.shiftr v n) n) (v mod 2 ^ n) = v.
Proof.
  intros Hn Hv. rewrite <- Z.land_ones by lia. apply Z.bits_inj'. intros i Hi.
  rewrite Z.lor_spec, Z.land_spec, Z.shiftl_spec by lia. destruct (Z.ltb_spec i n).
  - rewrite (Z.testbit_neg_r _ (i - n)) by lia. rewrite Z.ones_spec_low by lia. by rewrite andb_true_r.
  - rewrite Z.shiftr_spec by lia. rewrite Z.ones_spec_high by lia. rewrite andb_false_r, orb_false_r. f_equal. lia.
Qed.

Lemma msr_read_ok r msr v : r !! msr = Some v -> 0 <= v -> x86_64_msr_read r msr = Ok v.
Proof. intros E Hv. unfold x86_64_msr_read, rdmsr. run E. unfold u32. by rewrite halves_lor. Qed.

Lemma msr_write_ok r msr v : is_Some (r !! msr) -> 0 <= v < 2 ^ 64 -> x86_64_msr_write r msr v = Ok (<[msr := v]> r).
Proof.
  intros [w E] Hv. unfold x86_64_msr_write, wrmsr. run E. do 2 f_equal. unfold u32. rewrite Z.shiftr_div_pow2 by lia. dlia.
Qed.

Lemma lor_lt v b n : 0 <= n -> 0 <= v < 2 ^ n -> 0 <= b < 2 ^ n -> 0 <= Z.lor v b < 2 ^ n.
Proof.
  intros Hn Hv Hb. rewrite <- (Z.mod_small v (2 ^ n)), <- (Z.mod_small b (2 ^ n)) by lia.
  rewrite <- !Z.land_ones, <- Z.land_lor_distr_l, Z.land_ones by lia. apply Z.mod_pos_bound. lia.
Qed.

Lemma syscall_init_ok r entry efer sfmask : r !! X86_64_MSR_EFER = Some efer -> r !! X86_64_MSR_SFMASK = Some sfmask ->
  is_Some (r !! X86_64_MSR_STAR) -> is_Some (r !! X86_64_MSR_LSTAR) ->
  0 <= efer < 2 ^ 64 -> 0 <= sfmask < 2 ^ 64 -> 0 <= entry < 2 ^ 64 ->
  x86_64_syscall_init entry r = Ok
    (<[X86_64_MSR_SFMASK := Z.lor sfmask 512]> (<[X86_64_MSR_LSTAR := entry]>
    (<[X86_64_MSR_STAR := 0x0013000800000000]> (<[X86_64_MSR_EFER := Z.lor efer 1]> r)))).
Proof.
  intros He Hf Hs Hl Re Rf Rl. unfold x86_64_syscall_init. run (msr_read_ok _ _ _ He); [|lia].
  run msr_write_ok; [|by eexists|apply (lor_lt _ _ 64); lia].
  run msr_write_ok; [|by rewrite lookup_insert_ne|done].
  run msr_write_ok; [|by rewrite !lookup_insert_ne|done].
  run (msr_read_ok _ _ sfmask); [|by rewrite !lookup_insert_ne|lia].
  rewrite msr_write_ok; [reflexivity|rewrite !lookup_insert_ne by done; by eexists|apply (lor_lt _ _ 64); [lia|lia|done]].
Qed.

(** C21: the entries into the kernel are well typed.  With the tables as built,
    every one of the 256 interrupt gates leads to its stub through a 64-bit code
    descriptor of ring 0, with interrupts off; SYSCALL enters at the given
    address with code and data of ring 0 and interrupts off, SYSRET leaves with
    code and data of ring 3; the other bits of the registers are kept. *)
Theorem x86_entries_typed m gdt idt stubs r entry efer sfmask :
  bytes_at m gdt (take 40 gdt_bytes) -> mapped m idt 4096 -> apart gdt 56 idt 4096 ->
  length stubs = 256%nat -> Forall (fun isr => 0 <= isr < 2 ^ 64) stubs ->
  r !! X86_64_MSR_EFER = Some efer -> r !! X86_64_MSR_SFMASK = Some sfmask ->
  is_Some (r !! X86_64_MSR_STAR) -> is_Some (r !! X86_64_MSR_LSTAR) ->
  0 <= efer < 2 ^ 64 -> 0 <= sfmask < 2 ^ 64 -> 0 <= entry < 2 ^ 64 ->
  exists m' r' star, x86_64_idt_make idt stubs m = Ok m' /\ x86_64_syscall_init entry r = Ok r' /\
    (forall i isr, stubs !! i = Some isr -> exists g, gate_of m' (x86_64_idt_load idt) (Z.of_nat i) = Ok g /\
       offset g = isr /\ present g = true /\ gate_dpl g = 0 /\ gate_type g = 14 /\ segment_of m' gdt (gate_sel g) = Ok (SegCode 0 true)) /\
    r' !! X86_64_MSR_STAR = Some star /\ r' !! X86_64_MSR_LSTAR = Some entry /\
    segment_of m' gdt (syscall_selectors star).1 = Ok (SegCode 0 true) /\ segment_of m' gdt (syscall_selectors star).2 = Ok (SegData 0 true) /\
    segment_of m' gdt (sysret_selectors star).1 = Ok (SegCode 3 true) /\ segment_of m' gdt (sysret_selectors star).2 = Ok (SegData 3 true) /\
    (exists f, r' !! X86_64_MSR_SFMASK = Some f /\ forall rflags, Z.testbit (syscall_flags rflags f) RFLAGS_IF = false) /\
    r' !! X86_64_MSR_EFER = Some (Z.lor efer 1).
Proof.
  intros Hg Hm Ha Hl Hr He Hf Hs Hlst Re Rf Rl. destruct (idt_make_ok idt stubs m Hm Hl Hr) as (m' & E & Hgates & Hout).
  unfold apart in Ha. assert (segments_typed m' gdt) as (S1 & S2 & S3 & S4).
  { apply gdt_segments. apply (bytes_at_agree m _ _ _ idt (idt + 4096) Hout); [cbn; lia|done]. }
  eexists m', _, 0x0013000800000000. split_and!; [done|by apply (syscall_init_ok _ _ efer sfmask)| | | |done|done|done|done| |].
  - intros i isr Hi. eexists. split; [by apply Hgates|]. done.
  - rewrite !lookup_insert_ne by done. apply lookup_insert_eq.
  - rewrite lookup_insert_ne by done. apply lookup_insert_eq.
  - exists (Z.lor sfmask 512). rewrite lookup_insert_eq. split; [done|]. intros rflags. unfold syscall_flags, RFLAGS_IF.
    rewrite Z.ldiff_spec, Z.lor_spec. change (Z.testbit 512 9) with true. by rewrite orb_true_r, andb_false_r.
  - rewrite !lookup_insert_ne by done. apply lookup_insert_eq.
Qed.

(** The check of the number in syscall.asm compares it with the length of the
    table as signed integers; [None]: an invalid call. *)
Definition syscall_lookup (m : mem) (syscall_table syscall_table_length rax : Z) : outcome (option Z) :=
  if i64 syscall_table_length <=? i64 rax then Ok None
  else
    bs ← kread m (u64 (syscall_table + rax * 8)) 8;
    if le_value bs =? 0 then Ok None else Ok (Some (le_value bs)).

(** Numbers in the table are looked up in it, the larger positive ones are
    refused. *)
Lemma syscall_lookup_ok m table entries i f : bytes_at m table (concat (le64 <$> entries)) ->
  0 <= table -> table + 8 * Z.of_nat (length entries) < 2 ^ 63 -> Forall (fun e => 0 <= e < 2 ^ 64) entries ->
  entries !! i = Some f ->
  syscall_lookup m table (Z.of_nat (length entries)) (Z.of_nat i) = Ok (if f =? 0 then None else Some f).
Proof.
  intros Hb H0 Ht Hr Hi. pose proof (lookup_lt_Some _ _ _ Hi). rewrite Forall_lookup in Hr. specialize (Hr _ _ Hi).
  unfold syscall_lookup, i64. rewrite !Z.mod_small by lia. rewrite (proj2 (Z.leb_gt _ _)) by lia.
  rewrite u64_small by lia. apply (bytes_at_slice _ _ _ (8 * i) 8) in Hb.
  rewrite (concat_lookup le64 8 entries i f (le_bytes_length 8) Hi) in Hb. apply kread_ok in Hb. unfold le64 in Hb.
  rewrite le_bytes_length in Hb. replace (Z.of_nat i * 8) with (Z.of_nat (8 * i)) by lia. run Hb.
  rewrite le_bytes_value. rewrite Z.mod_small by (change (8 * Z.of_nat 8) with 64; lia). by destruct (f =? 0).
Qed.

(** A negative number passes the check: the function is taken from memory
    before the table, or wherever the product wraps to. *)
Lemma syscall_negative_number m table len fn k : 0 < len < 2 ^ 62 -> 0 < k <= 2 ^ 60 -> 8 * k <= table < 2 ^ 63 ->
  bytes_at m (table - 8 * k) (le64 fn) -> 0 < fn < 2 ^ 64 ->
  syscall_lookup m table len (2 ^ 64 - k) = Ok (Some fn).
Proof.
  intros Hl Hk Ht Hb Hf. unfold syscall_lookup, i64. rewrite (Z.mod_small (len + 2 ^ 63)) by lia.
  assert ((2 ^ 64 - k + 2 ^ 63) mod 2 ^ 64 = 2 ^ 63 - k) as -> by dlia. rewrite (proj2 (Z.leb_gt _ _)) by lia.
  assert (u64 (table + (2 ^ 64 - k) * 8) = table - 8 * k) as -> by (unfold u64; dlia).
  apply kread_ok in Hb. unfold le64 in Hb. rewrite le_bytes_length in Hb. run Hb.
  rewrite le_bytes_value, Z.mod_small by (change (8 * Z.of_nat 8) with 64; lia). by rewrite (proj2 (Z.eqb_neq fn 0)) by lia.
Qed.

(** syscalls/proc.c: the calls give a value and an error; [syscall_exit] does not
    come back to its caller. *)
Definition syscall_tcb (ptr : Z) (r : msrs) : outcome (Z * Z * msrs) := r ← arch_syscall_tcb_set ptr r; Ok (0, 0, r).
Definition syscall_exit (c : nat) (s : sched) : outcome (bool * sched) := sched_yield c THREAD_STATE_AWAITING_CLEANUP s.

Lemma syscall_tcb_ok ptr r : is_Some (r !! X86_64_MSR_FS_BASE) -> 0 <= ptr < 2 ^ 64 ->
  syscall_tcb ptr r = Ok (0, 0, <[X86_64_MSR_FS_BASE := ptr]> r).
Proof. intros Hr Hp. unfold syscall_tcb, arch_syscall_tcb_set. by run (msr_write_ok r X86_64_MSR_FS_BASE ptr Hr Hp). Qed.

(** The thread that exits goes to the reaper when the switch is finished. *)
Lemma exit_awaits_cleanup c s s' x : cpus s !! c = Some x -> syscall_exit c s = Ok (true, s') ->
  status <$> threads s' !! thread_reg x = Some THREAD_STATE_AWAITING_CLEANUP.
Proof.
  intros Hx E. unfold syscall_exit, sched_yield in E. apply bind_Ok in E as (s1 & E1 & E). apply bind_Ok in E as (curr & Ec & E).
  assert (curr = thread_reg x) as ->.
  { unfold with_cpu in E1. rewrite Hx in E1. cbn [deref mbind outcome_bind] in E1. injection E1 as <-. unfold sched_get_curr_thread in Ec. cbn [cpus set_cpus] in Ec.
    rewrite list_lookup_insert_eq in Ec by (by eapply lookup_lt_Some). cbn [deref mbind outcome_bind] in Ec. by injection Ec as <-. }
  apply bind_Ok in E as ([next s2] & _ & E). apply bind_Ok in E as (s3 & _ & E). apply bind_Ok in E as (s4 & _ & E).
  destruct (_ =? _); [done|]. apply bind_Ok in E as (y & _ & E). apply bind_Ok in E as (s5 & _ & E). apply bind_Ok in E as (s6 & E6 & E).
  apply bind_Ok in E as (n & _ & E). apply bind_Ok in E as (s7 & E7 & E). injection E as <-.
  assert (threads s7 = threads s6) as -> by (unfold with_cpu in E7; destruct (cpus s6 !! c); [injection E7 as <-; done|done]).
  unfold with_thread in E6. destruct (threads s5 !! thread_reg x) as [z|]; [|done]. injection E6 as <-. cbn [threads set_threads]. by rewrite lookup_insert_eq.
Qed.

(** ** cpuid.c and fpu.c *)

Inductive cpuid_reg := ECX | EDX.
Record x86_64_cpuid_feature_t := Feature { f_reg : cpuid_reg; f_offset : Z }.
Record x86_64_cpuid_response_t := Response { r_eax : Z; r_ebx : Z; r_ecx : Z; r_edx : Z }.

Definition X86_64_CPUID_FEATURE_FXSR : x86_64_cpuid_feature_t := Feature EDX 24.
Definition X86_64_CPUID_FEATURE_XSAVE : x86_64_cpuid_feature_t := Feature ECX 26.
Definition X86_64_CPUID_FEATURE_AVX : x86_64_cpuid_feature_t := Feature ECX 28.

(** The registers that the functions change. *)
Record control := Control { cr0 : Z; cr4 : Z; xcr0 : Z }.
Inductive fpu_insn := FXSAVE | XSAVE.

Section fpu.
(** The CPUID instruction, on EAX and ECX. *)
Context (cpuid : Z -> Z -> x86_64_cpuid_response_t).

Definition x86_64_cpuid_check_feature (feature : x86_64_cpuid_feature_t) : bool :=
  let value := match f_reg feature with ECX => r_ecx (cpuid 1 0) | EDX => r_edx (cpuid 1 0) end in
  negb (Z.land value (u32 (Z.shiftl 1 (f_offset feature))) =? 0).

Definition x86_64_cpuid_get_reg (eax ecx : Z) : x86_64_cpuid_response_t := cpuid eax ecx.

(** The size of the area and the pair of instructions that save and restore. *)
Definition x86_64_fpu_init : outcome (Z * fpu_insn) :=
  if negb (x86_64_cpuid_check_feature X86_64_CPUID_FEATURE_FXSR) then Panic
  else if x86_64_cpuid_check_feature X86_64_CPUID_FEATURE_XSAVE then Ok (r_ecx (x86_64_cpuid_get_reg 0xD 0), XSAVE)
  else Ok (512, FXSAVE).

(** XSETBV accepts only states with the x87 bit, and AVX only with SSE; it and
    XSAVE need CR4.OSXSAVE. *)
Definition xsetbv (value : Z) (c : control) : outcome control :=
  if Z.testbit (cr4 c) 18 && Z.testbit value 0 && implb (Z.testbit value 2) (Z.testbit value 1) then Ok (Control (cr0 c) (cr4 c) value)
  else Fault.

Definition x86_64_fpu_init_cpu (c : control) : outcome control :=
  let v := Z.land (cr0 c) (u64 (Z.lnot (Z.shiftl 1 2))) in
  let v := Z.lor v (Z.shiftl 1 1) in
  let c := Control v (cr4 c) (xcr0 c) in
  let v := Z.lor (cr4 c) (Z.shiftl 1 9) in
  let v := Z.lor v (Z.shiftl 1 10) in
  let c := Control (cr0 c) v (xcr0 c) in
  if x86_64_cpuid_check_feature X86_64_CPUID_FEATURE_XSAVE then
    let c := Control (cr0 c) (Z.lor (cr4 c) (Z.shiftl 1 18)) (xcr0 c) in
    let x := Z.lor (Z.lor 0 (Z.shiftl 1 0)) (Z.shiftl 1 1) in
    let x := if x86_64_cpuid_check_feature X86_64_CPUID_FEATURE_AVX then Z.lor x (Z.shiftl 1 2) else x in
    xsetbv x c
  else Ok c.

(** The floating point unit is switched on without a fault: emulation off,
    monitoring and the SSE bits on, no other bit of CR0 and CR4 changed but
    CR4.OSXSAVE; where XSAVE is used, it is enabled, with AVX exactly when the
    processor has it. *)
Lemma fpu_init_cpu_ok c : 0 <= cr0 c < 2 ^ 64 -> 0 <= cr4 c ->
  exists c', x86_64_fpu_init_cpu c = Ok c' /\
    (forall i, 0 <= i -> Z.testbit (cr0 c') i = (if i =? 2 then false else if i =? 1 then true else Z.testbit (cr0 c) i)) /\
    (forall i, 0 <= i -> Z.testbit (cr4 c') i =
       ((i =? 9) || (i =? 10) || ((i =? 18) && x86_64_cpuid_check_feature X86_64_CPUID_FEATURE_XSAVE) || Z.testbit (cr4 c) i)) /\
    (forall n, x86_64_fpu_init = Ok (n, XSAVE) ->
       xcr0 c' = if x86_64_cpuid_check_feature X86_64_CPUID_FEATURE_AVX then 7 else 3).
Proof.
  intros H0 H4. unfold x86_64_fpu_init_cpu, x86_64_fpu_init. cbn [cr0 cr4 xcr0].
  set (xs := x86_64_cpuid_check_feature X86_64_CPUID_FEATURE_XSAVE). set (av := x86_64_cpuid_check_feature X86_64_CPUID_FEATURE_AVX).
  assert (forall i, 0 <= i -> Z.testbit (Z.lor (Z.land (cr0 c) (u64 (Z.lnot (Z.shiftl 1 2)))) (Z.shiftl 1 1)) i =
    (if i =? 2 then false else if i =? 1 then true else Z.testbit (cr0 c) i)) as Hcr0.
  { intros i Hi. rewrite Z.lor_spec, Z.land_spec. unfold u64. change (Z.shiftl 1 2) with (2 ^ 2). change (Z.shiftl 1 1) with (2 ^ 1).
    rewrite Z.pow2_bits_eqb by lia. rewrite <- (Z.mod_small (cr0 c) (2 ^ 64)) by lia.
    destruct (Z.ltb_spec i 64).
    - rewrite !Z.mod_pow2_bits_low by lia. rewrite Z.lnot_spec, Z.pow2_bits_eqb by lia.
      destruct (Z.eqb_spec 2 i), (Z.eqb_spec i 2), (Z.eqb_spec 1 i), (Z.eqb_spec i 1); try lia; simpl; rewrite ?andb_false_r, ?andb_true_r, ?orb_true_r, ?orb_false_r; done.
    - rewrite !Z.mod_pow2_bits_high by lia. rewrite (proj2 (Z.eqb_neq i 2)), (proj2 (Z.eqb_neq i 1)), (proj2 (Z.eqb_neq 1 i)) by lia. done. }
  assert (forall i, 0 <= i -> Z.testbit (Z.lor (Z.lor (cr4 c) (Z.shiftl 1 9)) (Z.shiftl 1 10)) i = ((i =? 9) || (i =? 10) || Z.testbit (cr4 c) i)) as Hcr4.
  { intros i Hi. rewrite !Z.lor_spec. change (Z.shiftl 1 9) with (2 ^ 9). change (Z.shiftl 1 10) with (2 ^ 10). rewrite !Z.pow2_bits_eqb by lia.
    rewrite (Z.eqb_sym 9 i), (Z.eqb_sym 10 i). destruct (i =? 9), (i =? 10), (Z.testbit (cr4 c) i); done. }
  destruct xs.
  - exists (Control (Z.lor (Z.land (cr0 c) (u64 (Z.lnot (Z.shiftl 1 2)))) (Z.shiftl 1 1))
      (Z.lor (Z.lor (Z.lor (cr4 c) (Z.shiftl 1 9)) (Z.shiftl 1 10)) (Z.shiftl 1 18)) (if av then 7 else 3)). split_and!; [|done| |].
    + unfold xsetbv. cbn [cr0 cr4]. rewrite Z.lor_spec. change (Z.testbit (Z.shiftl 1 18) 18) with true. rewrite orb_true_r. by destruct av.
    + intros i Hi. cbn [cr4]. rewrite Z.lor_spec, Hcr4 by lia. change (Z.shiftl 1 18) with (2 ^ 18). rewrite Z.pow2_bits_eqb by lia.
      rewrite (Z.eqb_sym 18 i). destruct (i =? 9), (i =? 10), (i =? 18), (Z.testbit (cr4 c) i); done.
    + done.
  - eexists. split_and!; [done|done| |].
    + intros i Hi. cbn [cr4]. rewrite Hcr4 by lia. by rewrite andb_false_r, orb_false_r.
    + intros n E. by destruct (negb _).
Qed.
End fpu.

(** ** int.c

    [in_service]: the vectors that the local interrupt controller has delivered
    and that are not yet acknowledged, the newest (of the highest priority)
    first. *)
Record isys (M K V : Type) := ISys { ips : psys M K V; handlers : list Z; in_service : list Z }.
Arguments ISys {M K V}. Arguments ips {M K V}. Arguments handlers {M K V}. Arguments in_service {M K V}.

Definition PAGE_FAULT : Z := 14.

Section interrupts.
Context {M K V : Type} `{PageMap M} `{ObjectAllocator K} `{Files V} (HHDM : Z).
(** What a call of a registered function does. *)
Context (call : Z -> isys M K V -> outcome (isys M K V)).
Implicit Types st : isys M K V.

Definition x86_64_lapic_send_eoi st : isys M K V := ISys (ips st) (handlers st) (tl (in_service st)).

(** The fault is handled in the address space of the process of the current
    thread, [thread_reg]; [cr2] is the address. *)
Definition page_fault (thread_reg cr2 : Z) st : outcome (bool * isys M K V) :=
  t ← deref (pthreads (ips st) !! thread_reg);
  p ← deref (procs (ips st) !! parent_proc (base_thread t));
  a ← deref (spaces (ips st) !! p_space p);
  '(handled, v) ← vmm_pagefault_handler HHDM a cr2 (pv (ips st));
  Ok (handled, ISys (set_pv v (ips st)) (handlers st) (in_service st)).

(** An exception that nobody handles halts the processor. *)
Definition arch_int_handler (thread_reg cr2 int_no : Z) st : outcome (isys M K V) :=
  st ← (if int_no <? 32 then
          '(handled, st) ← (if int_no =? PAGE_FAULT then page_fault thread_reg cr2 st else Ok (false, st));
          if (handled : bool) then Ok st else Panic
        else
          h ← deref (handlers st !! Z.to_nat int_no);
          if h =? NULL then Ok st else call h st);
  Ok (x86_64_lapic_send_eoi st).

Definition set_handler (i h : Z) st : outcome (isys M K V) :=
  deref (handlers st !! Z.to_nat i);; Ok (ISys (ips st) (<[Z.to_nat i := h]> (handlers st)) (in_service st)).

Definition arch_int_register_exception_handler (exception handler : Z) st : outcome (isys M K V) := set_handler exception handler st.
Definition arch_int_register_irq_handler (irq handler : Z) st : outcome (isys M K V) := set_handler (u32 (32 + irq)) handler st.

(** The controller delivers [vector]. *)
Definition deliver (thread_reg vector : Z) st : outcome (isys M K V) :=
  arch_int_handler thread_reg 0 vector (ISys (ips st) (handlers st) (vector :: in_service st)).

(** A handler keeps the table if it registers nothing, and the acknowledgements
    of what it interrupts. *)
Definition well_behaved (h : Z) : Prop :=
  forall st st', call h st = Ok st' -> handlers st' = handlers st /\ in_service st' = in_service st.

Lemma register_irq_ok st irq h : length (handlers st) = 256%nat -> 0 <= irq < 224 ->
  exists st', arch_int_register_irq_handler irq h st = Ok st' /\ ips st' = ips st /\ in_service st' = in_service st /\
    length (handlers st') = 256%nat /\ handlers st' !! Z.to_nat (32 + irq) = Some h /\
    (forall i, i <> Z.to_nat (32 + irq) -> handlers st' !! i = handlers st !! i).
Proof.
  intros Hl Hi. unfold arch_int_register_irq_handler, set_handler, u32. rewrite Z.mod_small by lia.
  destruct (lookup_lt_is_Some_2 (handlers st) (Z.to_nat (32 + irq)) ltac:(lia)) as [o Ho]. rewrite Ho. go.
  eexists. split; [reflexivity|]. cbn [ips in_service handlers]. rewrite length_insert. split_and!; [done|done|done| |].
  - apply list_lookup_insert_eq. lia.
  - intros i Hne. by apply list_lookup_insert_ne.
Qed.

(** Interrupts reach their handlers.  A function registered for a request
    line below 224 is called, once, for each interrupt on the line's vector, and
    the interrupt is acknowledged after it returns; an interrupt without a
    handler is only acknowledged; registration does not disturb other lines. *)
Theorem irq_dispatch st irq h thread_reg : length (handlers st) = 256%nat -> 0 <= irq < 224 -> h <> NULL -> well_behaved h ->
  exists st', arch_int_register_irq_handler irq h st = Ok st' /\
    (forall st1 st2, handlers st1 = handlers st' ->
       call h (ISys (ips st1) (handlers st1) ((32 + irq) :: in_service st1)) = Ok st2 ->
       deliver thread_reg (32 + irq) st1 = Ok (ISys (ips st2) (handlers st1) (in_service st1))) /\
    (forall v, 32 <= v < 256 -> v <> 32 + irq -> handlers st !! Z.to_nat v = Some NULL -> deliver thread_reg v st' = Ok st').
Proof.
  intros Hl Hi Hh Hw. destruct (register_irq_ok st irq h Hl Hi) as (st' & E & Hp & Hs & Hl' & Hnew & Hold).
  exists st'. split_and!; [done| |].
  - intros st1 st2 Ht Hc. unfold deliver, arch_int_handler. rewrite (proj2 (Z.ltb_ge _ _)) by lia. cbn [handlers]. rewrite Ht, Hnew. go.
    rewrite (proj2 (Z.eqb_neq h NULL)) by done. rewrite Ht in Hc. run Hc. destruct (Hw _ _ Hc) as [Eh Es]. cbn [handlers in_service] in Eh, Es.
    unfold x86_64_lapic_send_eoi. by rewrite Es, Eh.
  - intros v Hv Hne Hnull. unfold deliver, arch_int_handler. rewrite (proj2 (Z.ltb_ge _ _)) by lia. cbn [handlers].
    rewrite Hold by lia. rewrite Hnull. go. unfold x86_64_lapic_send_eoi. cbn [ips handlers in_service tl]. by destruct st'.
Qed.

(** *** Behaviours worth knowing *)

(** Functions registered for exceptions are never called: the result for a
    vector below 32 depends on the table only in that it is kept. *)
Lemma exception_handlers_ignored st exception h st' thread_reg cr2 int_no : int_no < 32 ->
  arch_int_register_exception_handler exception h st = Ok st' ->
  arch_int_handler thread_reg cr2 int_no st' =
  (r ← arch_int_handler thread_reg cr2 int_no st; Ok (ISys (ips r) (handlers st') (in_service r))).
Proof.
  intros Hn E. unfold arch_int_register_exception_handler, set_handler in E. destruct (handlers st !! _); [|done]. injection E as <-.
  unfold arch_int_handler. rewrite (proj2 (Z.ltb_lt _ _)) by lia. destruct (int_no =? PAGE_FAULT); [|done].
  unfold page_fault. cbn [ips handlers in_service].
  destruct (pthreads (ips st) !! thread_reg) as [t|]; [|done]. go. destruct (procs (ips st) !! _) as [p|]; [|done]. go.
  destruct (spaces (ips st) !! _) as [a|]; [|done]. go. destruct (vmm_pagefault_handler _ _ _ _) as [[[] v]| | |]; done.
Qed.

(** An exception other than a page fault halts the processor, also when a
    program caused it. *)
Lemma exception_halts st thread_reg cr2 int_no : int_no < 32 -> int_no <> PAGE_FAULT ->
  arch_int_handler thread_reg cr2 int_no st = Panic.
Proof.
  intros Hn Hp. unfold arch_int_handler. rewrite (proj2 (Z.ltb_lt _ _)) by lia. by rewrite (proj2 (Z.eqb_neq _ _)).
Qed.

(** A page fault that is handled acknowledges an interrupt although it is none:
    the one that was being served is taken for finished. *)
Lemma page_fault_acknowledges st thread_reg cr2 st1 : page_fault thread_reg cr2 st = Ok (true, st1) ->
  arch_int_handler thread_reg cr2 PAGE_FAULT st = Ok (ISys (ips st1) (handlers st1) (tl (in_service st1))).
Proof. intros E. unfold arch_int_handler. cbn [Z.ltb Z.eqb PAGE_FAULT]. change (14 <? 32) with true. cbv iota. by run E. Qed.

(** Lines from 224 on are outside the table. *)
Lemma register_irq_out_of_bounds st irq h : length (handlers st) = 256%nat -> 224 <= irq < 2 ^ 32 - 32 ->
  arch_int_register_irq_handler irq h st = Fault.
Proof.
  intros Hl Hi. unfold arch_int_register_irq_handler, set_handler, u32. rewrite Z.mod_small by lia.
  by rewrite (lookup_ge_None_2 (handlers st)) by lia.
Qed.
End interrupts.

(** ** Concrete runs *)

Definition ex_gdt_mem : mem := write_bytes (write_bytes ∅ 0x2000 (replicate 104 255)) 0x1000 gdt_bytes.
Definition ex_idt_mem : mem := write_bytes ex_gdt_mem 0x4000 (replicate 4096 255).
Definition ex_msrs : msrs := {[ X86_64_MSR_EFER := 0x500; X86_64_MSR_STAR := 0; X86_64_MSR_LSTAR := 0; X86_64_MSR_SFMASK := 0x300 ]}.
Definition ex_stubs : list Z := (fun i => 0xFFFFFFFF80001000 + 16 * i) <$> seqZ 0 256.

Lemma ex_gdt_table : bytes_at ex_gdt_mem 0x1000 gdt_bytes.
Proof. apply write_bytes_at. Qed.

Lemma tss_loaded_witness : exists m' m'', x86_64_gdt_load_tss 0x1000 0x2000 ex_gdt_mem = Ok (m', (0x2000, 104)) /\
  x86_64_tss_set_rsp0 0x2000 0xFFFF800000123000 m' = Ok m'' /\ rsp0 m'' 0x2000 = Ok 0xFFFF800000123000.
Proof.
  destruct (tss_loaded ex_gdt_mem 0x1000 0x2000 0xFFFF800000123000) as (m' & m'' & E1 & E2 & _ & _ & _ & E3 & _).
  - lia.
  - apply mapped_write_bytes. exact (bytes_mapped _ _ _ (write_bytes_at ∅ 0x2000 (replicate 104 255))).
  - exact (bytes_at_slice _ _ _ 0 40 ex_gdt_table).
  - exact (bytes_mapped _ _ _ (bytes_at_slice _ _ _ 40 16 ex_gdt_table)).
  - right. lia.
  - lia.
  - exists m', m''. split; [exact E1|split; [exact E2|exact E3]].
Defined.

Lemma x86_entries_typed_witness : exists m', x86_64_idt_make 0x4000 ex_stubs ex_idt_mem = Ok m' /\
  exists g, gate_of m' (x86_64_idt_load 0x4000) 14 = Ok g /\ offset g = 0xFFFFFFFF800010E0.
Proof.
  destruct (x86_entries_typed ex_idt_mem 0x1000 0x4000 ex_stubs ex_msrs 0xFFFFFFFF80009000 0x500 0x300) as (m' & _ & _ & E & _ & Hg & _);
    try reflexivity; try lia.
  - apply (bytes_at_agree ex_gdt_mem _ _ _ 0x4000 0x5000); [intros x Hx; apply write_bytes_out; rewrite length_replicate; lia|left; cbn; lia|].
    exact (bytes_at_slice _ _ _ 0 40 ex_gdt_table).
  - rewrite <- (length_replicate 4096 255). apply bytes_mapped, write_bytes_at.
  - left. lia.
  - apply Forall_fmap, Forall_seqZ. intros x Hx. unfold compose. lia.
  - by eexists.
  - by eexists.
  - exists m'. split; [exact E|]. destruct (Hg 14%nat 0xFFFFFFFF800010E0 eq_refl) as (g & Eg & Eo & _). exists g. split; [exact Eg|exact Eo].
Defined.

Definition ex_isys : isys (tstate bump) fresh rofiles := ISys ex_psys (replicate 256 NULL) [].
(** A handler that changes nothing. *)
Definition ex_call (h : Z) (st : isys (tstate bump) fresh rofiles) : outcome (isys (PageTables.tstate bump) fresh rofiles) := Ok st.

Lemma irq_dispatch_witness : exists st', arch_int_register_irq_handler 1 0x5000 ex_isys = Ok st' /\
  deliver ex_HH ex_call 64 33 st' = Ok st' /\ deliver ex_HH ex_call 64 40 st' = Ok st'.
Proof.
  destruct (irq_dispatch ex_HH ex_call ex_isys 1 0x5000 64) as (st' & E & Hcall & Hother).
  - reflexivity.
  - lia.
  - discriminate.
  - intros st st' Ec. injection Ec as <-. split; reflexivity.
  - exists st'. split; [exact E|]. split.
    + assert (ISys (ips st') (handlers st') (in_service st') = st') as Est by (destruct st'; reflexivity).
      rewrite <- Est at 2. exact (Hcall st' _ eq_refl eq_refl).
    + apply Hother; [lia|lia|reflexivity].
Defined.
