(* ===== verification/Switch.v ===== *)
(** * Context switches (kernel/src/arch/x86_64/thread.c and sched.asm)

    The processor's registers, the saved contexts of the threads and the memory
    of their stacks and floating point areas.  [arch_thread_context_switch] is
    followed to its last instruction, through the assembly that saves registers
    on one stack and takes them from another.  Against it stands the view in which
    every thread has registers of its own: a switch changes which thread runs and
    nothing in any view, so a thread resumes as it was suspended whatever runs
    meanwhile. *)
From stdpp Require Import base gmap list fin_maps.
From Stdlib Require Import ZArith Lia.
From S2P Require Import Prelude Strings Interfaces Vmm Sched Proc X86.

(** The processor and the memory.  [regs]: the fifteen general registers other
    than the stack pointer, in the order of the structure for new stacks (R15 to
    RAX); [fpu]: the image of the floating point state. *)
Record machine := Machine {
  regs : list Z; m_rsp : Z; rip : Z; fpu : list Z; m_msrs : msrs; m_int : bool;
  mmem : mem; contexts : gmap Z arch_thread_context_t
}.

Definition set_mmem m st := Machine (regs st) (m_rsp st) (rip st) (fpu st) (m_msrs st) (m_int st) m (contexts st).
Definition set_msrs r st := Machine (regs st) (m_rsp st) (rip st) (fpu st) r (m_int st) (mmem st) (contexts st).
Definition set_fpu f st := Machine (regs st) (m_rsp st) (rip st) f (m_msrs st) (m_int st) (mmem st) (contexts st).
Definition set_contexts c st := Machine (regs st) (m_rsp st) (rip st) (fpu st) (m_msrs st) (m_int st) (mmem st) c.

Definition set_rsp v c := Context (self c) v (kernel_stack c) (syscall_stack c) (fpu_area c) (fs c) (gs c).
Definition set_gs v c := Context (self c) (rsp c) (kernel_stack c) (syscall_stack c) (fpu_area c) (fs c) v.
Definition set_fs v c := Context (self c) (rsp c) (kernel_stack c) (syscall_stack c) (fpu_area c) v (gs c).

Definition push (v : Z) (sm : Z * mem) : outcome (Z * mem) :=
  let '(sp, m) := sm in m ← put m (sp - 8) (le64 v); Ok (sp - 8, m).
Fixpoint push_all (vs : list Z) (sm : Z * mem) : outcome (Z * mem) :=
  match vs with [] => Ok sm | v :: vs => sm ← push v sm; push_all vs sm end.

Definition pop (sp : Z) (m : mem) : outcome (Z * Z) := bs ← kread m sp 8; Ok (le_value bs, sp + 8).
Fixpoint pop_all (n : nat) (sp : Z) (m : mem) : outcome (list Z * Z) :=
  match n with
  | O => Ok ([], sp)
  | S n => '(v, sp) ← pop sp m; '(vs, sp) ← pop_all n sp m; Ok (v :: vs, sp)
  end.

Section switch.
(** The size of the floating point area and the effect of [sched_drop] on
    memory, called with the stack pointer [sp]. *)
Context (fpu_area_size : nat) (sched_drop : Z -> Z -> mem -> outcome mem).

(** [g_x86_64_fpu_save] and [g_x86_64_fpu_restore]. *)
Definition fpu_save (area : Z) (st : machine) : outcome machine := m ← put (mmem st) area (fpu st); Ok (set_mmem m st).
Definition fpu_restore (area : Z) (st : machine) : outcome machine := f ← kread (mmem st) area fpu_area_size; Ok (set_fpu f st).

(** sched.asm: the call pushes the return address, RAX to R15 follow; from the
    other stack R15 to RAX are taken back and the address returned to. *)
Definition x86_64_sched_context_switch (curr next : Z) (st : machine) : outcome machine :=
  sm ← push (rip st) (m_rsp st, mmem st);
  '(sp, m) ← push_all (rev (regs st)) sm;
  c ← deref (contexts st !! curr);
  let cs := <[curr := set_rsp sp c]> (contexts st) in
  n ← deref (cs !! next);
  '(sp, m) ← push next (rsp n, m);
  m ← sched_drop curr sp m;
  '(_, sp) ← pop sp m;
  '(vs, sp) ← pop_all 15 sp m;
  '(ra, sp) ← pop sp m;
  Ok (Machine vs sp ra (fpu st) (m_msrs st) true m cs).

Definition arch_thread_context_switch (tss curr next : Z) (st : machine) : outcome machine :=
  c ← deref (contexts st !! curr);
  st ← fpu_save (fpu_area c) st;
  n ← deref (contexts st !! next);
  st ← fpu_restore (fpu_area n) st;
  g ← x86_64_msr_read (m_msrs st) X86_64_MSR_KERNEL_GS_BASE;
  let st := set_contexts (<[curr := set_gs g c]> (contexts st)) st in
  f ← x86_64_msr_read (m_msrs st) X86_64_MSR_FS_BASE;
  let st := set_contexts (<[curr := set_fs f (set_gs g c)]> (contexts st)) st in
  n ← deref (contexts st !! next);
  r ← x86_64_msr_write (m_msrs st) X86_64_MSR_KERNEL_GS_BASE (gs n);
  r ← x86_64_msr_write r X86_64_MSR_FS_BASE (fs n);
  let st := set_msrs r st in
  m ← x86_64_tss_set_rsp0 tss (kernel_stack n) (mmem st);
  x86_64_sched_context_switch curr next (set_mmem m st).

(** ** Threads with registers of their own *)

Record view := View { v_regs : list Z; v_rip : Z; v_rsp : Z; v_fpu : list Z; v_fs : Z; v_gs : Z }.

Definition word (v : Z) : Prop := 0 <= v < 2 ^ 64.

(** The view of the thread that runs. *)
Definition running (st : machine) (v : view) : Prop :=
  v = View (regs st) (rip st) (m_rsp st) (fpu st) (v_fs v) (v_gs v) /\
  m_msrs st !! X86_64_MSR_FS_BASE = Some (v_fs v) /\ m_msrs st !! X86_64_MSR_KERNEL_GS_BASE = Some (v_gs v).

Definition frame (v : view) : list Z := concat (le64 <$> v_regs v ++ [v_rip v]).

Definition view_ok (v : view) : Prop :=
  length (v_regs v) = 15%nat /\ Forall word (v_regs v ++ [v_rip v; v_fs v; v_gs v]) /\ length (v_fpu v) = fpu_area_size.

(** The view of a suspended thread, in its context, its stack and its area. *)
Definition suspended (st : machine) (t : Z) (v : view) : Prop :=
  view_ok v /\ exists c, contexts st !! t = Some c /\
    kernel_stack c - 4096 + 8 <= rsp c /\ rsp c + 128 <= kernel_stack c /\ v_rsp v = rsp c + 128 /\ fs c = v_fs v /\ gs c = v_gs v /\
    bytes_at (mmem st) (rsp c) (frame v) /\ bytes_at (mmem st) (fpu_area c) (v_fpu v).

(** Where the stack (below its end [k]) and the area ([f]) of every thread are;
    they and the stack pointer in the task state segment are apart. *)
Context (tss : Z) (places : gmap Z (Z * Z)).

Record places_ok : Prop := {
  pl_word t k f : places !! t = Some (k, f) -> word k;
  pl_stacks t k f t' k' f' : places !! t = Some (k, f) -> places !! t' = Some (k', f') -> t <> t' -> apart (k - 4096) 4096 (k' - 4096) 4096;
  pl_areas t k f t' k' f' : places !! t = Some (k, f) -> places !! t' = Some (k', f') -> t <> t' ->
    apart f (Z.of_nat fpu_area_size) f' (Z.of_nat fpu_area_size);
  pl_mixed t k f t' k' f' : places !! t = Some (k, f) -> places !! t' = Some (k', f') -> apart (k - 4096) 4096 f' (Z.of_nat fpu_area_size);
  pl_tss t k f : places !! t = Some (k, f) -> apart (k - 4096) 4096 (tss + 4) 8 /\ apart f (Z.of_nat fpu_area_size) (tss + 4) 8;
}.

(** The addresses that [sched_drop], running below [sp] on the stack of [next],
    must leave alone. *)
Definition protected (next sp a : Z) : Prop :=
  tss + 4 <= a < tss + 12 \/
  exists t k f, places !! t = Some (k, f) /\ ((k - 4096 <= a < k /\ (t = next -> sp <= a)) \/ f <= a < f + Z.of_nat fpu_area_size).

Definition drop_safe : Prop := forall curr next k f sp m, places !! next = Some (k, f) -> k - 4096 <= sp <= k ->
  exists m', sched_drop curr sp m = Ok m' /\ (forall a, is_Some (m !! a) -> is_Some (m' !! a)) /\
    (forall a, protected next sp a -> m' !! a = m !! a).

(** The contexts keep their places, which are mapped. *)
Record placed (st : machine) : Prop := {
  ld_places : (fun c => (kernel_stack c, fpu_area c)) <$> contexts st = places;
  ld_tss : mapped (mmem st) (tss + 4) 8;
  ld_stack t k f : places !! t = Some (k, f) -> mapped (mmem st) (k - 4096) 4096;
  ld_area t k f : places !! t = Some (k, f) -> mapped (mmem st) f fpu_area_size;
}.

(** The running thread has room on its stack for the frame and the call. *)
Definition room (st : machine) (curr : Z) : Prop :=
  exists k f, places !! curr = Some (k, f) /\ k - 4096 + 136 <= m_rsp st <= k.

(** *** Stacks *)

Lemma frame_length l : length (concat (le64 <$> l)) = (8 * length l)%nat.
Proof. apply concat_length, (le_bytes_length 8). Qed.

Lemma push_ok v sp m : mapped m (sp - 8) 8 -> push v (sp, m) = Ok (sp - 8, write_bytes m (sp - 8) (le64 v)).
Proof. intros Hm. unfold push. by run put_ok. Qed.

Lemma push_all_ok vs sp m : mapped m (sp - 8 * Z.of_nat (length vs)) (8 * length vs) ->
  push_all vs (sp, m) = Ok (sp - 8 * Z.of_nat (length vs), write_bytes m (sp - 8 * Z.of_nat (length vs)) (concat (le64 <$> rev vs))).
Proof.
  revert sp m. induction vs as [|v vs IH]; intros sp m Hm; [cbn; do 2 f_equal; lia|]. cbn [push_all length] in *.
  run push_ok; [|apply (mapped_sub _ _ _ _ _ Hm); lia].
  rewrite IH; [|apply mapped_write_bytes; apply (mapped_sub _ _ _ _ _ Hm); lia]. cbn [rev]. rewrite fmap_app, concat_app.
  rewrite write_bytes_swap; [|rewrite frame_length, length_rev, (le_bytes_length 8); lia].
  cbn [fmap list_fmap concat]. rewrite app_nil_r, write_bytes_app, frame_length, length_rev.
  replace (sp - 8 - 8 * Z.of_nat (length vs)) with (sp - 8 * Z.of_nat (S (length vs))) by lia.
  do 2 f_equal. f_equal. lia.
Qed.

Lemma pop_ok v sp m : bytes_at m sp (le64 v) -> word v -> pop sp m = Ok (v, sp + 8).
Proof.
  intros Hb Hv. unfold pop. apply kread_ok in Hb. unfold le64 in Hb. rewrite le_bytes_length in Hb. run Hb.
  rewrite le_bytes_value. rewrite Z.mod_small by done. done.
Qed.

Lemma pop_all_ok vs sp m : bytes_at m sp (concat (le64 <$> vs)) -> Forall word vs -> pop_all (length vs) sp m = Ok (vs, sp + 8 * Z.of_nat (length vs)).
Proof.
  revert sp. induction vs as [|v vs IH]; intros sp Hb Hw; [cbn; do 2 f_equal; lia|]. apply Forall_cons in Hw as [Hv Hw].
  rewrite fmap_cons in Hb. cbn [concat] in Hb. apply bytes_at_app in Hb as [Hb1 Hb2]. rewrite (le_bytes_length 8) in Hb2.
  cbn [pop_all length]. run (pop_ok v sp m Hb1 Hv). run (IH (sp + 8) Hb2 Hw). do 2 f_equal. lia.
Qed.

Lemma pop_total sp m : mapped m sp 8 -> exists v, pop sp m = Ok (v, sp + 8).
Proof. intros Hm. destruct (kread_total _ _ _ Hm) as (bs & E & _). exists (le_value bs). unfold pop. by run E. Qed.

Context (Hpl : places_ok) (Hdrop : drop_safe).

Lemma place_of st t c : placed st -> contexts st !! t = Some c -> places !! t = Some (kernel_stack c, fpu_area c).
Proof. intros Hp Hc. by rewrite <- (ld_places _ Hp), lookup_fmap, Hc. Qed.

(** What is protected above the stack pointer of [next] lies outside the word
    below it. *)
Lemma protected_below next k f sp a : places !! next = Some (k, f) -> k - 4096 + 8 <= sp <= k -> protected next sp a ->
  protected next (sp - 8) a /\ ~ sp - 8 <= a < sp.
Proof.
  intros Hn Hsp Ha. split.
  - destruct Ha as [Ha|(t & k' & f' & Ht & Ha)]; [by left|right]. exists t, k', f'. split; [done|].
    destruct Ha as [[Ha Hge]|Ha]; [left; split; [done|]; intros E; specialize (Hge E); lia|by right].
  - intros Hr. destruct Ha as [Ha|(t & k' & f' & Ht & Ha)].
    + destruct (pl_tss Hpl _ _ _ Hn) as [[?|?] _]; lia.
    + destruct Ha as [[Ha Hge]|Ha].
      * destruct (decide (t = next)) as [E|Hne]; [specialize (Hge E); lia|]. destruct (pl_stacks Hpl _ _ _ _ _ _ Ht Hn Hne); lia.
      * destruct (pl_mixed Hpl _ _ _ _ _ _ Hn Ht); lia.
Qed.

(** A thread's own stack from the stack pointer on, and any area. *)
Lemma stack_protected next k f sp a : places !! next = Some (k, f) -> k - 4096 <= sp -> sp <= a < k -> protected next sp a.
Proof. intros Hn Hsp Ha. right. exists next, k, f. split; [done|]. left. split; [lia|]. intros _. lia. Qed.

Lemma sched_switch_ok st curr next c n v : placed st -> room st curr -> curr <> next ->
  contexts st !! curr = Some c -> contexts st !! next = Some n -> length (regs st) = 15%nat ->
  view_ok v -> kernel_stack n - 4096 + 8 <= rsp n -> rsp n + 128 <= kernel_stack n -> bytes_at (mmem st) (rsp n) (frame v) ->
  exists m', x86_64_sched_context_switch curr next st =
      Ok (Machine (v_regs v) (rsp n + 128) (v_rip v) (fpu st) (m_msrs st) true m' (<[curr := set_rsp (m_rsp st - 128) c]> (contexts st))) /\
    (forall a, is_Some (mmem st !! a) -> is_Some (m' !! a)) /\
    bytes_at m' (m_rsp st - 128) (concat (le64 <$> regs st ++ [rip st])) /\
    (forall a, protected next (rsp n) a -> ~ m_rsp st - 128 <= a < m_rsp st -> m' !! a = mmem st !! a).
Proof using Hpl Hdrop.
  intros Hp (k & f & Hk & Hroom) Hne Hc Hn Hl (Hvl & Hvw & _) Hlo Hhi Hb.
  pose proof (place_of _ _ _ Hp Hc) as Hpc. pose proof (place_of _ _ _ Hp Hn) as Hpn. rewrite Hk in Hpc. injection Hpc as -> ->.
  pose proof (pl_stacks Hpl _ _ _ _ _ _ Hk Hpn Hne) as Hap. unfold apart in Hap.
  set (m1 := write_bytes (mmem st) (m_rsp st - 128) (concat (le64 <$> regs st ++ [rip st]))).
  assert (length (concat (le64 <$> regs st ++ [rip st])) = 128%nat) as Hfl by (rewrite frame_length, length_app, Hl; done).
  assert (push_all (rip st :: rev (regs st)) (m_rsp st, mmem st) = Ok (m_rsp st - 128, m1)) as E1.
  { rewrite push_all_ok; cbn [length]; rewrite length_rev, Hl.
    - cbn [rev]. rewrite rev_involutive. reflexivity.
    - apply (mapped_sub _ _ _ _ _ (ld_stack _ Hp _ _ _ Hk)); lia. }
  set (m2 := write_bytes m1 (rsp n - 8) (le64 next)).
  assert (forall a, is_Some (mmem st !! a) -> is_Some (m2 !! a)) as Hs2 by (intros a Ha; by do 2 apply write_bytes_some).
  destruct (Hdrop curr next _ _ (rsp n - 8) m2 Hpn ltac:(lia)) as (m3 & E3 & Hs3 & Hsame).
  assert (forall a, protected next (rsp n) a -> ~ m_rsp st - 128 <= a < m_rsp st -> m3 !! a = mmem st !! a) as Hprot.
  { intros a Ha Hout. destruct (protected_below _ _ _ (rsp n) a Hpn ltac:(lia) Ha) as [Ha' Hb']. rewrite (Hsame _ Ha').
    unfold m2. rewrite write_bytes_out by (rewrite (le_bytes_length 8); lia). unfold m1. by rewrite write_bytes_out by lia. }
  assert (bytes_at m3 (rsp n) (frame v)) as Hb3.
  { apply (bytes_at_same (mmem st)); [|done]. intros a Ha. unfold frame in Ha. rewrite frame_length, length_app, Hvl in Ha. cbn [length] in Ha.
    apply Hprot; [apply (stack_protected _ _ _ _ _ Hpn); lia|]. destruct Hap; lia. }
  exists m3. split_and!; [|by intros a Ha; apply Hs3, Hs2| |done].
  - unfold x86_64_sched_context_switch. cbn [push_all] in E1. apply bind_Ok in E1 as (sm & E0 & E1). run E0. run E1. run Hc.
    rewrite lookup_insert_ne by done. run Hn. run push_ok; [|apply (mapped_sub m1 (kernel_stack n - 4096) 4096); [|lia|lia];
      intros i Hi; apply write_bytes_some, (ld_stack _ Hp _ _ _ Hpn); lia].
    fold m2. run E3. destruct (pop_total (rsp n - 8) m3) as [x Ex].
    { apply (mapped_sub m3 (kernel_stack n - 4096) 4096); [|lia|lia]. intros i Hi. apply Hs3, Hs2, (ld_stack _ Hp _ _ _ Hpn). lia. }
    run Ex. replace (rsp n - 8 + 8) with (rsp n) by lia. unfold frame in Hb3. rewrite fmap_app, concat_app in Hb3.
    apply bytes_at_app in Hb3 as [Hb3 Hb4]. rewrite frame_length, Hvl in Hb4. cbn [fmap list_fmap concat] in Hb4. rewrite app_nil_r in Hb4.
    apply Forall_app in Hvw as [Hvw Hvr]. apply Forall_cons in Hvr as [Hvr _].
    pose proof (pop_all_ok _ _ _ Hb3 Hvw) as E4. rewrite Hvl in E4. run E4.
    change (Z.of_nat (8 * 15)) with (8 * Z.of_nat 15) in Hb4. run (pop_ok _ _ _ Hb4 Hvr). do 2 f_equal. lia.
  - apply (bytes_at_same m1); [|apply write_bytes_at]. intros a Ha. rewrite Hfl in Ha.
    assert (protected next (rsp n - 8) a) as Hpa.
    { right. exists curr, (kernel_stack c), (fpu_area c). split; [done|]. left. split; [lia|]. intros E. by destruct Hne. }
    rewrite (Hsame _ Hpa). unfold m2. apply write_bytes_out. rewrite (le_bytes_length 8). destruct Hap; lia.
Qed.

(** The memory before the assembly: the area of [curr] and the stack pointer of
    interrupts written. *)
Definition saved (st : machine) (c n : arch_thread_context_t) : mem :=
  write_bytes (write_bytes (mmem st) (fpu_area c) (fpu st)) (tss + 4) (le64 (kernel_stack n)).

Lemma saved_same st c n a : ~ fpu_area c <= a < fpu_area c + Z.of_nat (length (fpu st)) -> ~ tss + 4 <= a < tss + 12 ->
  saved st c n !! a = mmem st !! a.
Proof. intros H1 H2. unfold saved. rewrite !write_bytes_out; [done|lia|rewrite (le_bytes_length 8); lia]. Qed.

(** [arch_thread_context_switch] up to the assembly. *)
Lemma switch_prefix st curr next c n v w : placed st -> curr <> next -> running st w -> view_ok w ->
  contexts st !! curr = Some c -> contexts st !! next = Some n -> view_ok v -> fs n = v_fs v -> gs n = v_gs v ->
  bytes_at (mmem st) (fpu_area n) (v_fpu v) ->
  arch_thread_context_switch tss curr next st = x86_64_sched_context_switch curr next
    (Machine (regs st) (m_rsp st) (rip st) (v_fpu v) (<[X86_64_MSR_FS_BASE := v_fs v]> (<[X86_64_MSR_KERNEL_GS_BASE := v_gs v]> (m_msrs st)))
       (m_int st) (saved st c n) (<[curr := set_fs (v_fs w) (set_gs (v_gs w) c)]> (contexts st))).
Proof using Hpl.
  intros Hp Hne (Ew & Hfs & Hgs) (Hwl & Hww & Hwf) Hc Hn (Hvl & Hvw & Hvf) Efs Egs Hb.
  pose proof (place_of _ _ _ Hp Hc) as Hpc. pose proof (place_of _ _ _ Hp Hn) as Hpn.
  assert (v_fpu w = fpu st) as Ef by (rewrite Ew; done). rewrite Ef in Hwf.
  apply Forall_app in Hww as [_ Hww]. apply Forall_cons in Hww as [_ Hww]. apply Forall_cons in Hww as [Hwfs Hww]. apply Forall_cons in Hww as [Hwgs _].
  apply Forall_app in Hvw as [_ Hvw]. apply Forall_cons in Hvw as [_ Hvw]. apply Forall_cons in Hvw as [Hvfs Hvw]. apply Forall_cons in Hvw as [Hvgs _].
  unfold arch_thread_context_switch. run Hc. unfold fpu_save. run put_ok; [|rewrite Hwf; by apply (ld_area _ Hp _ _ _ Hpc)]. cbn [contexts set_mmem]. run Hn.
  pose proof (pl_areas Hpl _ _ _ _ _ _ Hpn Hpc ltac:(done)) as Ha. unfold apart in Ha.
  assert (bytes_at (write_bytes (mmem st) (fpu_area c) (fpu st)) (fpu_area n) (v_fpu v)) as Hb1.
  { apply (bytes_at_same (mmem st)); [|done]. intros a Hx. apply write_bytes_out. lia. }
  apply kread_ok in Hb1. rewrite Hvf in Hb1. unfold fpu_restore. cbn [mmem set_mmem]. run Hb1. cbn [m_msrs set_fpu set_mmem].
  run (msr_read_ok _ _ _ Hgs); [|apply Hwgs]. cbn [m_msrs set_contexts set_fpu set_mmem contexts]. run (msr_read_ok _ _ _ Hfs); [|apply Hwfs].
  cbn [contexts set_contexts set_fpu set_mmem m_msrs]. rewrite insert_insert_eq. rewrite lookup_insert_ne by done. run Hn. rewrite Egs, Efs.
  run msr_write_ok; [|by eexists|apply Hvgs]. run msr_write_ok; [|rewrite lookup_insert_ne by done; by eexists|apply Hvfs].
  cbn [mmem set_msrs set_contexts set_fpu set_mmem]. run tss_set_rsp0_ok; [|apply (pl_word Hpl _ _ _ Hpn)|apply mapped_write_bytes, (ld_tss _ Hp)].
  reflexivity.
Qed.

(** Changing saved registers and writing mapped memory keeps the places. *)
Lemma placed_keep st st' : placed st -> (fun c => (kernel_stack c, fpu_area c)) <$> contexts st' = places ->
  (forall a, is_Some (mmem st !! a) -> is_Some (mmem st' !! a)) -> placed st'.
Proof.
  intros Hp Hc Hm. split; [done|..].
  - intros i Hi. by apply Hm, (ld_tss _ Hp).
  - intros t k f Ht i Hi. by apply Hm, (ld_stack _ Hp _ _ _ Ht).
  - intros t k f Ht i Hi. by apply Hm, (ld_area _ Hp _ _ _ Ht).
Qed.

Lemma placed_insert st curr c c' : placed st -> contexts st !! curr = Some c -> kernel_stack c' = kernel_stack c -> fpu_area c' = fpu_area c ->
  (fun c => (kernel_stack c, fpu_area c)) <$> <[curr := c']> (contexts st) = places.
Proof.
  intros Hp Hc Hk Hf. rewrite fmap_insert, (ld_places _ Hp), Hk, Hf. apply insert_id. by apply (place_of st).
Qed.

(** A suspended thread stays suspended when its context, its stack and its area
    do not change. *)
Lemma suspended_keep st st' t v c : contexts st !! t = Some c -> contexts st' !! t = Some c ->
  (forall a, kernel_stack c - 4096 <= a < kernel_stack c -> mmem st' !! a = mmem st !! a) ->
  (forall a, fpu_area c <= a < fpu_area c + Z.of_nat fpu_area_size -> mmem st' !! a = mmem st !! a) ->
  suspended st t v -> suspended st' t v.
Proof.
  intros Hc Hc' Hs Ha (Hv & c0 & Hc0 & Hlo & Hhi & Hsp & Hfs & Hgs & Hfr & Hf). rewrite Hc in Hc0. injection Hc0 as <-.
  split; [done|]. exists c. split_and!; try done.
  - apply (bytes_at_same (mmem st)); [|done]. intros a Hx. unfold frame in Hx. rewrite frame_length, length_app in Hx. destruct Hv as (Hl & _).
    rewrite Hl in Hx. cbn [length] in Hx. apply Hs. lia.
  - apply (bytes_at_same (mmem st)); [|done]. destruct Hv as (_ & _ & Hl). rewrite Hl. done.
Qed.

Lemma other_protected t k f next sp a : places !! t = Some (k, f) -> t <> next ->
  k - 4096 <= a < k \/ f <= a < f + Z.of_nat fpu_area_size -> protected next sp a.
Proof. intros Ht Hne Ha. right. exists t, k, f. split; [done|]. destruct Ha; [left|by right]. by split. Qed.

Lemma others_keep st st' curr next c n t u : placed st -> contexts st !! curr = Some c ->
  (forall a, protected next (rsp n) a -> ~ m_rsp st - 128 <= a < m_rsp st -> ~ fpu_area c <= a < fpu_area c + Z.of_nat fpu_area_size ->
    ~ tss + 4 <= a < tss + 12 -> mmem st' !! a = mmem st !! a) ->
  kernel_stack c - 4096 + 136 <= m_rsp st -> m_rsp st <= kernel_stack c ->
  contexts st' !! t = contexts st !! t -> t <> curr -> t <> next -> suspended st t u -> suspended st' t u.
Proof using Hpl.
  intros Hp Hc Hsame Hlo Hhi Ht Hnc Hnn Hsus. pose proof Hsus as (_ & ct & Hct & _).
  pose proof (place_of _ _ _ Hp Hct) as Hpt. pose proof (place_of _ _ _ Hp Hc) as Hk. rewrite Hct in Ht.
  apply (suspended_keep st _ t u ct); [done|done| | |done].
  - intros a Ha. pose proof (pl_stacks Hpl _ _ _ _ _ _ Hpt Hk Hnc) as Hs. pose proof (pl_mixed Hpl _ _ _ _ _ _ Hpt Hk) as Hm.
    pose proof (pl_tss Hpl _ _ _ Hpt) as [Hx _]. unfold apart in *.
    apply Hsame; [apply (other_protected _ _ _ _ _ _ Hpt Hnn); by left|clear - Hs Ha Hlo Hhi; lia|clear - Hm Ha; lia|clear - Hx Ha; lia].
  - intros a Ha. pose proof (pl_areas Hpl _ _ _ _ _ _ Hpt Hk Hnc) as Hs. pose proof (pl_mixed Hpl _ _ _ _ _ _ Hk Hpt) as Hm.
    pose proof (pl_tss Hpl _ _ _ Hpt) as [_ Hx]. unfold apart in *.
    apply Hsame; [apply (other_protected _ _ _ _ _ _ Hpt Hnn); by right|clear - Hm Ha Hlo Hhi; lia|clear - Hs Ha; lia|clear - Hx Ha; lia].
Qed.

Lemma context_switch_ok st curr next v w : placed st -> room st curr -> curr <> next -> running st w -> view_ok w -> suspended st next v ->
  exists st', arch_thread_context_switch tss curr next st = Ok st' /\ placed st' /\ running st' v /\ m_int st' = true /\ suspended st' curr w /\
    (forall t u, t <> curr -> t <> next -> suspended st t u -> suspended st' t u) /\
    exists n, contexts st' !! next = Some n /\ rsp0 (mmem st') tss = Ok (kernel_stack n).
Proof using Hpl Hdrop.
  intros Hp Hroom Hne Hrun Hw (Hv & n & Hn & Hlo & Hhi & Hsp & Efs & Egs & Hfr & Hfp).
  pose proof Hroom as (k & f & Hk & Hrm). assert (exists c, contexts st !! curr = Some c) as [c Hc].
  { pose proof Hk as Hk'. rewrite <- (ld_places _ Hp), lookup_fmap in Hk'. destruct (contexts st !! curr); [by eexists|done]. }
  pose proof (place_of _ _ _ Hp Hc) as Hpc. rewrite Hk in Hpc. injection Hpc as -> ->. pose proof (place_of _ _ _ Hp Hn) as Hpn.
  rewrite (switch_prefix st curr next c n v w) by done. destruct Hrun as (Ew & Hfs & Hgs). pose proof Hw as (Hwl & _ & Hwf).
  assert (v_regs w = regs st /\ v_rip w = rip st /\ v_rsp w = m_rsp st /\ v_fpu w = fpu st) as (Er & Ei & Es & Ef) by (rewrite Ew; done).
  rewrite Er in Hwl. rewrite Ef in Hwf.
  pose proof (pl_tss Hpl _ _ _ Hpn) as [Htn _]. pose proof (pl_tss Hpl _ _ _ Hk) as [Htc Hac].
  pose proof (pl_mixed Hpl _ _ _ _ _ _ Hpn Hk) as Hmn. pose proof (pl_stacks Hpl _ _ _ _ _ _ Hk Hpn Hne) as Hst. unfold apart in *.
  match goal with |- exists _, x86_64_sched_context_switch _ _ ?s = _ /\ _ => set (st1 := s) end.
  assert (placed st1) as Hp1.
  { apply (placed_keep st); [done|by apply (placed_insert _ _ _ _ Hp Hc)|]. intros a Ha. by do 2 apply write_bytes_some. }
  destruct (sched_switch_ok st1 curr next (set_fs (v_fs w) (set_gs (v_gs w) c)) n v) as (m' & E & Hsome & Hfrm & Hprot); try done.
  { apply lookup_insert_eq. }
  { cbn [contexts st1]. by rewrite lookup_insert_ne. }
  { apply (bytes_at_same (mmem st)); [|done]. intros a Ha. unfold frame in Ha. rewrite frame_length, length_app in Ha. destruct Hv as (Hl & _).
    rewrite Hl in Ha. cbn [length] in Ha. apply saved_same; lia. }
  assert (forall a, protected next (rsp n) a -> ~ m_rsp st - 128 <= a < m_rsp st -> ~ fpu_area c <= a < fpu_area c + Z.of_nat fpu_area_size ->
    ~ tss + 4 <= a < tss + 12 -> m' !! a = mmem st !! a) as Hsame.
  { intros a H1 H2 H3 H4. rewrite (Hprot a H1 H2). apply saved_same; [by rewrite Hwf|done]. }
  cbn [contexts m_rsp fpu m_msrs st1] in E, Hprot, Hfrm. rewrite insert_insert_eq in E. eexists. split; [exact E|]. split_and!.
  - apply (placed_keep st); [done|by apply (placed_insert _ _ _ _ Hp Hc)|]. intros a Ha. apply Hsome. by do 2 apply write_bytes_some.
  - split; [rewrite <- Hsp; by destruct v|]. cbn [m_msrs]. split; [apply lookup_insert_eq|]. rewrite lookup_insert_ne by done. apply lookup_insert_eq.
  - done.
  - split; [done|]. eexists. split; [cbn [contexts]; apply lookup_insert_eq|]. cbn [kernel_stack set_rsp set_fs set_gs rsp fs gs fpu_area mmem].
    split_and!; [lia|lia|lia|done|done|unfold frame; by rewrite Er, Ei|]. rewrite Ef. apply (bytes_at_same (saved st c n)).
    + intros a Ha. rewrite Hwf in Ha. apply Hprot; [apply (other_protected _ _ _ _ _ _ Hk Hne); by right|].
      pose proof (pl_mixed Hpl _ _ _ _ _ _ Hk Hk) as [|]; lia.
    + apply (bytes_at_same (write_bytes (mmem st) (fpu_area c) (fpu st))); [|apply write_bytes_at].
      intros a Ha. apply write_bytes_out. rewrite (le_bytes_length 8). lia.
  - intros t u Htc' Htn' Hsus. apply (others_keep st _ curr next c n); try done; [lia|lia|]. cbn [contexts]. by rewrite lookup_insert_ne.
  - exists n. cbn [contexts mmem]. rewrite lookup_insert_ne by done. split; [done|].
    rewrite <- (rsp0_read (write_bytes (mmem st) (fpu_area c) (fpu st)) tss (kernel_stack n)) by apply (pl_word Hpl _ _ _ Hpn).
    unfold rsp0. rewrite (kread_agree (saved st c n) m'); [done|]. intros a Ha. apply Hprot; [left; lia|lia].
Qed.

(** ** Executions

    A thread runs: it may change the registers, its own stack and area and its
    saved context, and memory that belongs to no thread.  Or it switches. *)
Inductive sw_step : machine * Z -> machine * Z -> Prop :=
| sw_run st st' curr w :
    placed st' -> room st' curr -> running st' w -> view_ok w ->
    (forall t, t <> curr -> contexts st' !! t = contexts st !! t) ->
    (forall t k f a, places !! t = Some (k, f) -> t <> curr ->
       k - 4096 <= a < k \/ f <= a < f + Z.of_nat fpu_area_size -> mmem st' !! a = mmem st !! a) ->
    sw_step (st, curr) (st', curr)
| sw_switch st st' curr next :
    curr <> next -> is_Some (places !! next) -> arch_thread_context_switch tss curr next st = Ok st' -> sw_step (st, curr) (st', next).

(** Executions in which [t] does not run. *)
Inductive away (t : Z) : machine * Z -> machine * Z -> Prop :=
| away_refl x : away t x x
| away_step x y z : sw_step x y -> y.2 <> t -> away t y z -> away t x z.

(** Every thread but the running one is suspended with some view. *)
Record threads_ok (st : machine) (curr : Z) : Prop := {
  th_placed : placed st;
  th_room : room st curr;
  th_running : exists w, running st w /\ view_ok w;
  th_others t : is_Some (places !! t) -> t <> curr -> exists v, suspended st t v;
}.

Lemma suspended_place st t v : placed st -> suspended st t v -> exists k f, places !! t = Some (k, f).
Proof. intros Hp (_ & c & Hc & _). exists (kernel_stack c), (fpu_area c). by apply (place_of st). Qed.

Lemma switch_threads_ok st curr next : threads_ok st curr -> curr <> next -> is_Some (places !! next) ->
  exists st', arch_thread_context_switch tss curr next st = Ok st' /\ threads_ok st' next /\
    (forall t v, t <> curr -> t <> next -> suspended st t v -> suspended st' t v).
Proof using Hpl Hdrop.
  intros [Hp Hroom (w & Hrun & Hw) Hoth] Hne Hnext. destruct (Hoth next Hnext (not_eq_sym Hne)) as [v Hv].
  destruct (context_switch_ok st curr next v w Hp Hroom Hne Hrun Hw Hv) as (st' & E & Hp' & Hrun' & _ & Hsus & Hkeep & n & Hn & _).
  exists st'. split; [done|]. split; [|done]. split; [done| | |].
  - destruct Hv as (_ & n0 & Hn0 & Hlo & Hhi & Hsp & _). exists (kernel_stack n0), (fpu_area n0). split; [by apply (place_of st)|].
    destruct Hrun' as (Ev & _). assert (m_rsp st' = v_rsp v) as -> by (rewrite Ev; done). lia.
  - exists v. split; [done|]. by destruct Hv.
  - intros t Ht Htn. destruct (decide (t = curr)) as [->|Htc]; [by exists w|]. destruct (Hoth t Ht Htc) as [u Hu]. exists u. by apply Hkeep.
Qed.

Lemma step_threads_ok x y : sw_step x y -> threads_ok x.1 x.2 ->
  threads_ok y.1 y.2 /\ (forall t v, t <> x.2 -> t <> y.2 -> suspended x.1 t v -> suspended y.1 t v).
Proof using Hpl Hdrop.
  intros [st st' curr w Hp' Hroom' Hrun' Hw Hctx Hmem|st st' curr next Hne Hnext E] Hok; cbn [fst snd] in *.
  - assert (forall t v, t <> curr -> suspended st t v -> suspended st' t v) as Hkeep.
    { intros t v Ht Hv. pose proof Hv as (_ & c & Hc & _). pose proof (place_of _ _ _ (th_placed _ _ Hok) Hc) as Hpt.
      apply (suspended_keep st _ t v c); [done|by rewrite Hctx| | |done]; intros a Ha; apply (Hmem _ _ _ _ Hpt Ht); tauto. }
    split; [|by intros t v Ht _; apply Hkeep]. split; [done|done|by exists w|]. intros t Ht Htc.
    destruct (th_others _ _ Hok t Ht Htc) as [v Hv]. exists v. by apply Hkeep.
  - destruct (switch_threads_ok st curr next Hok Hne Hnext) as (st'' & E' & Hok' & Hkeep). rewrite E in E'. injection E' as <-. done.
Qed.

End switch.

(** A new kernel thread is suspended at its entry with registers of zero: the
    stack that [thread_new] prepares is a frame. *)
Lemma new_thread_suspended n st t c entry image : contexts st !! t = Some c -> rsp c + 128 = kernel_stack c -> fs c = 0 -> gs c = 0 -> word entry ->
  bytes_at (mmem st) (rsp c) (zeroes 120 ++ le64 entry) -> length image = n -> bytes_at (mmem st) (fpu_area c) image ->
  suspended n st t (View (replicate 15 0) entry (kernel_stack c) image 0 0).
Proof.
  intros Hc Hr Hf Hg He Hb Hl Hi. split.
  - split_and!; [done| |done]. repeat (apply Forall_cons; split; [unfold word; lia|]). repeat (apply Forall_cons; split; [done|]). done.
  - exists c. cbn [v_rsp v_fs v_gs v_fpu]. split_and!; try done; lia.
Qed.

(** ** Concrete runs *)

Definition ex_tss_at : Z := 0xC000.
Definition ex_places : gmap Z (Z * Z) := {[ 1 := (0x5000, 0x7000); 2 := (0x9000, 0xB000) ]}.
Definition ex_ram : mem := write_bytes ∅ 0x4000 (replicate (Z.to_nat 0x9000) 0).
Definition ex_machine : machine :=
  Machine (replicate 15 7) 0x4F00 0xFFFFFFFF80000000 (replicate 16 9) {[ X86_64_MSR_FS_BASE := 5; X86_64_MSR_KERNEL_GS_BASE := 6 ]} false
    (write_bytes ex_ram (0x9000 - 128) (zeroes 120 ++ le64 0xFFFFFFFF80001234))
    {[ 1 := Context 1 0 0x5000 0 0x7000 0 0; 2 := Context 2 (0x9000 - 128) 0x9000 0 0xB000 0 0 ]}.
Definition ex_drop (curr sp : Z) (m : mem) : outcome mem := Ok m.

Lemma ex_places_inv t k f : ex_places !! t = Some (k, f) -> (t = 1 /\ k = 0x5000 /\ f = 0x7000) \/ (t = 2 /\ k = 0x9000 /\ f = 0xB000).
Proof.
  unfold ex_places. intros [[<- E]|[Hne E]]%lookup_insert_Some; [injection E as <- <-; tauto|].
  apply lookup_singleton_Some in E as [<- E]. injection E as <- <-. tauto.
Qed.

Lemma ex_places_ok : places_ok 16 ex_tss_at ex_places.
Proof.
  unfold ex_tss_at. split; intros *; repeat (intros [(-> & -> & ->)|(-> & -> & ->)]%ex_places_inv); unfold apart, word; lia.
Qed.

Lemma ex_drop_safe : drop_safe 16 ex_drop ex_tss_at ex_places.
Proof. intros curr next k f sp m _ _. exists m. split; [reflexivity|]. split; [intros a Ha; exact Ha|reflexivity]. Qed.

Lemma ex_mapped p n : 0x4000 <= p -> p + Z.of_nat n <= 0xD000 -> mapped (mmem ex_machine) p n.
Proof.
  intros Hp Hn. apply mapped_write_bytes. apply (mapped_sub _ 0x4000 (Z.to_nat 0x9000)); [|lia|lia].
  rewrite <- (length_replicate (Z.to_nat 0x9000) 0). apply bytes_mapped, write_bytes_at.
Qed.

Lemma ex_new : suspended 16 ex_machine 2 (View (replicate 15 0) 0xFFFFFFFF80001234 0x9000 (replicate 16 0) 0 0).
Proof.
  apply (new_thread_suspended 16 ex_machine 2 (Context 2 (0x9000 - 128) 0x9000 0 0xB000 0 0)); try reflexivity.
  - split; lia.
  - apply write_bytes_at.
  - apply (bytes_at_same ex_ram).
    + intros a Ha. change (length (replicate 16 0)) with 16%nat in Ha. cbn [fpu_area] in Ha. apply write_bytes_out. right. change (length (zeroes 120 ++ le64 0xFFFFFFFF80001234)) with 128%nat. lia.
    + intros i b Hi. apply lookup_replicate in Hi as [-> Hi]. unfold ex_ram. cbn [fpu_area].
      replace (0xB000 + Z.of_nat i) with (0x4000 + Z.of_nat (Z.to_nat 0x7000 + i)) by lia. apply write_bytes_at.
      apply lookup_replicate. split; [reflexivity|lia].
Qed.

Lemma ex_threads_ok : threads_ok 16 ex_tss_at ex_places ex_machine 1.
Proof.
  split.
  - split; [reflexivity|apply ex_mapped; unfold ex_tss_at; lia|..]; intros t k f [(-> & -> & ->)|(-> & -> & ->)]%ex_places_inv; apply ex_mapped; lia.
  - exists 0x5000, 0x7000. split; [reflexivity|]. cbn [m_rsp ex_machine]. lia.
  - exists (View (replicate 15 7) 0xFFFFFFFF80000000 0x4F00 (replicate 16 9) 5 6). split; [split; [reflexivity|split; reflexivity]|].
    split; [reflexivity|]. split; [|reflexivity]. repeat (apply Forall_cons; split; [split; cbn; lia|]). apply Forall_nil_2.
  - intros t [[k f] [(-> & -> & ->)|(-> & -> & ->)]%ex_places_inv] Hne; [destruct Hne; reflexivity|]. eexists. exact ex_new.
Qed.

