(* ===== verification/Entry.v ===== *)
(** * Between programs and the kernel (kernel/src/arch/x86_64/syscall.asm,
    tables/idt.asm, userspace.S, syscalls/syscall.c)

    The three pieces of assembly at the border, instruction by instruction on a
    processor with its registers: the start of a program, the system call entry
    and the stub of interrupts.  The instructions that change the ring (SYSCALL,
    SYSRET, interrupt delivery, IRETQ, SWAPGS) are written from the processor's
    manual; the C functions that the assembly calls are a parameter that keeps to
    the System V calling convention. *)
From stdpp Require Import base gmap list fin_maps.
From Stdlib Require Import ZArith Lia.
From S2P Require Import Prelude Strings Interfaces Vmm Sched Proc X86 Switch.

(** ** The processor

    [cregs]: R15 to RAX, as in the structures of the kernel. *)
Record cpu := Cpu {
  cregs : list Z; c_rsp : Z; c_rip : Z; rflags : Z; c_cs : Z; c_ss : Z; c_msrs : msrs; c_mem : mem
}.

Definition R15 : nat := 0.
Definition R14 : nat := 1.
Definition R13 : nat := 2.
Definition R12 : nat := 3.
Definition R11 : nat := 4.
Definition R10 : nat := 5.
Definition R9 : nat := 6.
Definition R8 : nat := 7.
Definition RDI : nat := 8.
Definition RSI : nat := 9.
Definition RBP : nat := 10.
Definition RDX : nat := 11.
Definition RCX : nat := 12.
Definition RBX : nat := 13.
Definition RAX : nat := 14.

Definition reg (c : cpu) (i : nat) : Z := cregs c !!! i.
Definition set_reg (i : nat) (v : Z) (c : cpu) : cpu :=
  Cpu (<[i := v]> (cregs c)) (c_rsp c) (c_rip c) (rflags c) (c_cs c) (c_ss c) (c_msrs c) (c_mem c).
Definition set_cregs (l : list Z) (c : cpu) : cpu := Cpu l (c_rsp c) (c_rip c) (rflags c) (c_cs c) (c_ss c) (c_msrs c) (c_mem c).
Definition set_stack (sp : Z) (m : mem) (c : cpu) : cpu := Cpu (cregs c) sp (c_rip c) (rflags c) (c_cs c) (c_ss c) (c_msrs c) m.
Definition set_cmsrs (r : msrs) (c : cpu) : cpu := Cpu (cregs c) (c_rsp c) (c_rip c) (rflags c) (c_cs c) (c_ss c) r (c_mem c).
Definition set_rflags (f : Z) (c : cpu) : cpu := Cpu (cregs c) (c_rsp c) (c_rip c) f (c_cs c) (c_ss c) (c_msrs c) (c_mem c).

Definition cpush (v : Z) (c : cpu) : outcome cpu := '(sp, m) ← push v (c_rsp c, c_mem c); Ok (set_stack sp m c).
Definition cpush_all (vs : list Z) (c : cpu) : outcome cpu := '(sp, m) ← push_all vs (c_rsp c, c_mem c); Ok (set_stack sp m c).
Definition cpop (c : cpu) : outcome (Z * cpu) := '(v, sp) ← pop (c_rsp c) (c_mem c); Ok (v, set_stack sp (c_mem c) c).
Definition cpop_all (n : nat) (c : cpu) : outcome (list Z * cpu) :=
  '(vs, sp) ← pop_all n (c_rsp c) (c_mem c); Ok (vs, set_stack sp (c_mem c) c).

Definition load (m : mem) (p : Z) : outcome Z := bs ← kread m p 8; Ok (le_value bs).

Definition swapgs (c : cpu) : outcome cpu :=
  g ← deref (c_msrs c !! X86_64_MSR_GS_BASE); k ← deref (c_msrs c !! X86_64_MSR_KERNEL_GS_BASE);
  Ok (set_cmsrs (<[X86_64_MSR_GS_BASE := k]> (<[X86_64_MSR_KERNEL_GS_BASE := g]> (c_msrs c))) c).

Definition canonical (a : Z) : bool := (a <? 2 ^ 47) || (2 ^ 64 - 2 ^ 47 <=? a).

(** SYSCALL, with the address of the next instruction in [c_rip]. *)
Definition syscall_insn (c : cpu) : outcome cpu :=
  star ← deref (c_msrs c !! X86_64_MSR_STAR); lstar ← deref (c_msrs c !! X86_64_MSR_LSTAR);
  sfmask ← deref (c_msrs c !! X86_64_MSR_SFMASK);
  Ok (Cpu (<[RCX := c_rip c]> (<[R11 := rflags c]> (cregs c))) (c_rsp c) lstar (syscall_flags (rflags c) sfmask)
        (syscall_selectors star).1 (syscall_selectors star).2 (c_msrs c) (c_mem c)).

(** The flags SYSRET takes from R11: RF, VM and reserved bits are 0, bit 1 is 1. *)
Definition sysret_flags (r11 : Z) : Z := Z.lor (Z.land r11 0x3C7FD7) 2.

Definition sysret (c : cpu) : outcome cpu :=
  star ← deref (c_msrs c !! X86_64_MSR_STAR);
  if canonical (reg c RCX) then
    Ok (Cpu (cregs c) (c_rsp c) (reg c RCX) (sysret_flags (reg c R11)) (sysret_selectors star).1 (sysret_selectors star).2 (c_msrs c) (c_mem c))
  else Fault.

(** Ring of the code that runs. *)
Definition user (cs : Z) : bool := negb (Z.land cs 3 =? 0).

Definition pushes_error (vector : Z) : bool := existsb (Z.eqb vector) [8; 10; 11; 12; 13; 14; 17; 21; 29; 30].

(** Interrupt gates clear TF, IF, NT, RF and VM. *)
Definition gate_flags (f : Z) : Z := Z.ldiff f 0x34300.

(** Delivery of [vector] with error code [err] through [g]: the stack of the task
    state segment when the ring changes, aligned to 16 bytes in any case. *)
Definition deliver_int (tss : Z) (g : gate) (vector err : Z) (c : cpu) : outcome cpu :=
  top ← (if user (c_cs c) then rsp0 (c_mem c) tss else Ok (c_rsp c));
  '(sp, m) ← push_all ([c_ss c; c_rsp c; rflags c; c_cs c; c_rip c] ++ (if pushes_error vector then [err] else [])) (FLOOR top 16, c_mem c);
  Ok (Cpu (cregs c) sp (offset g) (gate_flags (rflags c)) (gate_sel g) (if user (c_cs c) then 0 else c_ss c) (c_msrs c) m).

Definition iretq (c : cpu) : outcome cpu :=
  '(vs, _) ← pop_all 5 (c_rsp c) (c_mem c);
  match vs with
  | [rip; cs; fl; sp; ss] => Ok (Cpu (cregs c) sp rip fl cs ss (c_msrs c) (c_mem c))
  | _ => Fault
  end.

(** ** The assembly *)

Definition KERNEL_STACK_OFFSET : Z := 16.
Definition USER_STACK_OFFSET : Z := 24.

(** The registers that the system call entry saves, in the order of the pushes. *)
Definition saved_regs : list nat := [RBX; RCX; RBP; RSI; RDI; R8; R9; R10; R11; R12; R13; R14; R15].

Definition pop_into (idx : list nat) (vs : list Z) (c : cpu) : cpu :=
  set_cregs (foldl (fun l '(i, v) => <[i := v]> l) (cregs c) (zip idx vs)) c.

Section assembly.
(** The C function at an address, from its call to its return. *)
Context (func : Z -> cpu -> outcome cpu).

(** The way in: the kernel's GS, the two stack pointers, the registers. *)
Definition syscall_enter (c : cpu) : outcome cpu :=
  c ← swapgs c;
  g ← deref (c_msrs c !! X86_64_MSR_GS_BASE);
  m ← put (c_mem c) (g + USER_STACK_OFFSET) (le64 (c_rsp c));
  sp ← load m (g + KERNEL_STACK_OFFSET);
  cpush_all (reg c <$> saved_regs) (set_stack sp m c).

(** The way out, from the label [.invalid_syscall] on. *)
Definition syscall_leave (c : cpu) : outcome cpu :=
  '(vs, c) ← cpop_all 13 c;
  let c := pop_into (rev saved_regs) vs c in
  g ← deref (c_msrs c !! X86_64_MSR_GS_BASE);
  sp ← load (c_mem c) (g + USER_STACK_OFFSET);
  c ← swapgs (set_stack sp (c_mem c) c);
  sysret c.

Definition arch_syscall_entry (syscall_table syscall_table_length : Z) (c : cpu) : outcome cpu :=
  c ← syscall_enter c;
  f ← syscall_lookup (c_mem c) syscall_table syscall_table_length (reg c RAX);
  c ← match f with
      | Some f => func f (set_reg RCX (reg c R10) (set_reg RAX f c))
      | None => Ok (if i64 syscall_table_length <=? i64 (reg c RAX) then c else set_reg RAX 0 c)
      end;
  syscall_leave c.

Definition x86_64_thread_userspace_init (c : cpu) : outcome cpu :=
  '(entry, c) ← cpop c;
  let c := set_reg RCX entry c in
  let c := set_rflags (Z.ldiff (rflags c) 512) c in
  c ← swapgs c;
  '(sp, c) ← cpop c;
  let c := set_stack sp (c_mem c) (set_reg RAX sp c) in
  let c := set_cregs (imap (fun i v => if (i =? RCX)%nat || (i =? R11)%nat then v else 0) (cregs c)) c in
  sysret (set_reg R11 (Z.lor (Z.shiftl 1 9) (Z.shiftl 1 1)) c).

(** idt.asm: the second argument of the macro ISR. *)
Definition isr_error_code (n : Z) : bool := existsb (Z.eqb n) [8; 10; 11; 12; 13; 14; 17; 21; 24; 28; 29; 30].

Definition SWAPGS_CONDITIONAL (c : cpu) : outcome cpu :=
  v ← load (c_mem c) (c_rsp c + 24);
  if Z.land v 3 =? 0 then Ok c else swapgs c.

Definition isr_stub (arch_int_handler : Z) (c : cpu) : outcome cpu :=
  let c := set_rflags (Z.ldiff (rflags c) 1024) c in
  c ← SWAPGS_CONDITIONAL c;
  c ← cpush_all (rev (cregs c)) c;
  let c := set_reg RDI (c_rsp c) (set_reg RBP 0 c) in
  c ← func arch_int_handler c;
  '(vs, c) ← cpop_all 15 c;
  c ← SWAPGS_CONDITIONAL (set_cregs vs c);
  iretq (set_stack (c_rsp c + 16) (c_mem c) c).

Definition isr (arch_int_handler n : Z) (c : cpu) : outcome cpu :=
  c ← (if isr_error_code n then Ok c else cpush 0 c);
  c ← cpush n c;
  isr_stub arch_int_handler c.

End assembly.

(** syscalls/syscall.c: the functions in the order of their numbers. *)
Inductive syscall :=
| SYS_accept | SYS_bind | SYS_close | SYS_connect | SYS_debug_log | SYS_exit | SYS_getpeername | SYS_getsockname | SYS_ioctl | SYS_listen
| SYS_mmap | SYS_open | SYS_read | SYS_recv | SYS_seek | SYS_send | SYS_shutdown | SYS_socket | SYS_tcb | SYS_write.

Definition syscall_table : list syscall := [
  SYS_accept; SYS_bind; SYS_close; SYS_connect; SYS_debug_log; SYS_exit; SYS_getpeername; SYS_getsockname; SYS_ioctl; SYS_listen;
  SYS_mmap; SYS_open; SYS_read; SYS_recv; SYS_seek; SYS_send; SYS_shutdown; SYS_socket; SYS_tcb; SYS_write].

#[export] Instance syscall_eq_dec : EqDecision syscall.
Proof. solve_decision. Defined.

(** ** Programs and threads

    A program of the thread at [t], whose kernel stack ends at [k], between two
    instructions: ring 3, the thread behind the kernel's GS, its structure and
    its stack in memory, the registers of [x86_64_syscall_init], the table of
    system calls. *)
Section programs.
Context (func : Z -> cpu -> outcome cpu) (addr_of : syscall -> Z) (table lstar sfmask t k : Z).

Definition table_bytes : list Z := concat (le64 <$> (addr_of <$> syscall_table)).

Record layout_ok : Prop := {
  ly_words : word k /\ word sfmask /\ Forall (fun s => 0 < addr_of s < 2 ^ 64) syscall_table;
  ly_table : 0 <= table /\ table + 160 < 2 ^ 63;
  ly_stack : apart (t + 16) 16 (k - 4096) 4096 /\ apart table 160 (k - 4096) 4096 /\ apart table 160 (t + 16) 16;
  ly_if : Z.testbit sfmask RFLAGS_IF = true;
}.

Record kernel_memory (m : mem) : Prop := {
  km_kstack : bytes_at m (t + 16) (le64 k);
  km_ustack : mapped m (t + 24) 8;
  km_stack : mapped m (k - 4096) 4096;
  km_table : bytes_at m table table_bytes;
}.

Record syscall_msrs (r : msrs) : Prop := {
  sm_star : r !! X86_64_MSR_STAR = Some 0x0013000800000000;
  sm_lstar : r !! X86_64_MSR_LSTAR = Some lstar;
  sm_sfmask : r !! X86_64_MSR_SFMASK = Some sfmask;
}.

Definition regs_ok (c : cpu) : Prop := length (cregs c) = 15%nat /\ Forall word (cregs c).

Record in_program (c : cpu) : Prop := {
  ip_regs : regs_ok c;
  ip_words : word (c_rsp c) /\ word (c_rip c) /\ word (rflags c);
  ip_flags : sysret_flags (rflags c) = rflags c;
  ip_rip : canonical (c_rip c) = true;
  ip_cs : c_cs c = X86_64_GDT_SELECTOR_CODE64_RING3 /\ c_ss c = X86_64_GDT_SELECTOR_DATA64_RING3;
  ip_gs : is_Some (c_msrs c !! X86_64_MSR_GS_BASE);
  ip_kgs : c_msrs c !! X86_64_MSR_KERNEL_GS_BASE = Some t;
  ip_msrs : syscall_msrs (c_msrs c);
  ip_mem : kernel_memory (c_mem c);
}.

(** The System V convention, for a call with the stack pointer [c_rsp c] on the
    stack of the thread: the stack pointer and the callee-saved registers come
    back, memory from the stack pointer on, the two stack pointers in the thread
    and the table are kept, as are the registers of the ring change. *)
Definition callee_saved : list nat := [RBX; RBP; R12; R13; R14; R15].

Definition convention (f : Z) : Prop := forall c, regs_ok c -> k - 4096 + 2048 <= c_rsp c <= k -> mapped (c_mem c) (k - 4096) 4096 ->
  exists c', func f c = Ok c' /\ regs_ok c' /\ c_rsp c' = c_rsp c /\ (forall i, i ∈ callee_saved -> reg c' i = reg c i) /\
    c_cs c' = c_cs c /\ c_ss c' = c_ss c /\ (forall r, r <> X86_64_MSR_FS_BASE -> c_msrs c' !! r = c_msrs c !! r) /\
    (forall a, is_Some (c_mem c !! a) -> is_Some (c_mem c' !! a)) /\
    (forall a, c_rsp c <= a < k \/ t + 16 <= a < t + 32 \/ table <= a < table + 160 -> c_mem c' !! a = c_mem c !! a).

Lemma load_ok m p v : bytes_at m p (le64 v) -> word v -> load m p = Ok v.
Proof.
  intros Hb Hv. unfold load. apply kread_ok in Hb. unfold le64 in Hb. rewrite le_bytes_length in Hb. run Hb.
  rewrite le_bytes_value. by rewrite Z.mod_small by apply Hv.
Qed.

Lemma swapgs_ok c g kg : c_msrs c !! X86_64_MSR_GS_BASE = Some g -> c_msrs c !! X86_64_MSR_KERNEL_GS_BASE = Some kg ->
  swapgs c = Ok (set_cmsrs (<[X86_64_MSR_GS_BASE := kg]> (<[X86_64_MSR_KERNEL_GS_BASE := g]> (c_msrs c))) c).
Proof. intros Hg Hk. unfold swapgs. run Hg. by run Hk. Qed.

Lemma cpush_all_ok vs c : mapped (c_mem c) (c_rsp c - 8 * Z.of_nat (length vs)) (8 * length vs) ->
  cpush_all vs c = Ok (set_stack (c_rsp c - 8 * Z.of_nat (length vs))
    (write_bytes (c_mem c) (c_rsp c - 8 * Z.of_nat (length vs)) (concat (le64 <$> rev vs))) c).
Proof. intros Hm. unfold cpush_all. by run push_all_ok. Qed.

Lemma cpop_all_ok vs c : bytes_at (c_mem c) (c_rsp c) (concat (le64 <$> vs)) -> Forall word vs ->
  cpop_all (length vs) c = Ok (vs, set_stack (c_rsp c + 8 * Z.of_nat (length vs)) (c_mem c) c).
Proof. intros Hb Hw. unfold cpop_all. by run (pop_all_ok vs (c_rsp c) (c_mem c) Hb Hw). Qed.

Lemma reg_word c i : regs_ok c -> word (reg c i).
Proof.
  intros [Hl Hw]. unfold reg. destruct (decide (i < 15)%nat) as [Hi|Hi].
  - destruct (lookup_lt_is_Some_2 (cregs c) i ltac:(lia)) as [v Ev]. rewrite (list_lookup_total_correct _ _ _ Ev).
    by apply (Forall_lookup_1 _ _ _ _ Hw Ev).
  - rewrite list_lookup_total_alt, lookup_ge_None_2 by lia. done.
Qed.

Lemma regs_ok_set c i v : regs_ok c -> word v -> regs_ok (set_reg i v c).
Proof. intros [Hl Hw] Hv. split; cbn [cregs set_reg]; [by rewrite length_insert|by apply Forall_insert]. Qed.

(** The table, looked up with the number of a call. *)
Lemma lookup_call m n s : layout_ok -> bytes_at m table table_bytes -> syscall_table !! n = Some s ->
  syscall_lookup m table 20 (Z.of_nat n) = Ok (Some (addr_of s)).
Proof.
  intros [(_ & _ & Hw) (Ht0 & Ht) _ _] Hb Hn. pose proof (proj1 (Forall_lookup _ _) Hw _ _ Hn) as Hs. cbn beta in Hs.
  change 20 with (Z.of_nat (length (addr_of <$> syscall_table))).
  rewrite (syscall_lookup_ok m table _ n (addr_of s)); [|done|done|exact Ht| |by rewrite list_lookup_fmap, Hn].
  - by rewrite (proj2 (Z.eqb_neq (addr_of s) 0)) by lia.
  - apply Forall_fmap. apply (Forall_impl _ _ _ Hw). cbn. lia.
Qed.

Lemma regs_15 (l : list Z) : length l = 15%nat ->
  exists a0 a1 a2 a3 a4 a5 a6 a7 a8 a9 a10 a11 a12 a13 a14, l = [a0; a1; a2; a3; a4; a5; a6; a7; a8; a9; a10; a11; a12; a13; a14].
Proof.
  intros Hl. do 15 (destruct l as [|? l]; [discriminate Hl|]). destruct l; [|discriminate Hl]. by repeat eexists.
Qed.

(** The pops put the saved registers back; RAX and RDX are those of the callee. *)
Lemma pop_into_saved (l l' : list Z) c : length l = 15%nat -> cregs c = l' -> length l' = 15%nat ->
  cregs (pop_into (rev saved_regs) (rev ((fun i => l !!! i) <$> saved_regs)) c) = <[RDX := l' !!! RDX]> (<[RAX := l' !!! RAX]> l).
Proof.
  intros Hl E Hl'. unfold pop_into. cbn [cregs set_cregs]. rewrite E.
  destruct (regs_15 l Hl) as (? & ? & ? & ? & ? & ? & ? & ? & ? & ? & ? & ? & ? & ? & ? & ->).
  destruct (regs_15 l' Hl') as (? & ? & ? & ? & ? & ? & ? & ? & ? & ? & ? & ? & ? & ? & ? & ->). reflexivity.
Qed.

(** Memory when the registers are saved. *)
Definition entered (c : cpu) : mem :=
  write_bytes (write_bytes (c_mem c) (t + 24) (le64 (c_rsp c))) (k - 104)
    (concat (le64 <$> rev ((fun i => <[RCX := c_rip c]> (<[R11 := rflags c]> (cregs c)) !!! i) <$> saved_regs))).

Lemma entered_same c a : ~ t + 24 <= a < t + 32 -> ~ k - 104 <= a < k -> entered c !! a = c_mem c !! a.
Proof.
  intros H1 H2. unfold entered. rewrite !write_bytes_out; [done|rewrite (le_bytes_length 8); lia|]. rewrite frame_length. cbn. lia.
Qed.

Lemma entered_some c a : is_Some (c_mem c !! a) -> is_Some (entered c !! a).
Proof. intros Ha. by do 2 apply write_bytes_some. Qed.

(** What SYSCALL leaves: the state at the entry of the kernel. *)
Definition after_syscall (c : cpu) : cpu :=
  Cpu (<[RCX := c_rip c]> (<[R11 := rflags c]> (cregs c))) (c_rsp c) lstar (syscall_flags (rflags c) sfmask)
    X86_64_GDT_SELECTOR_CODE64_RING0 X86_64_GDT_SELECTOR_DATA64_RING0 (c_msrs c) (c_mem c).

Lemma syscall_insn_ok c : syscall_msrs (c_msrs c) -> syscall_insn c = Ok (after_syscall c).
Proof. intros [Hs Hl Hf]. unfold syscall_insn. run Hs. run Hl. by run Hf. Qed.


(** The state in which the number of the call is looked at. *)
Definition at_kernel (c : cpu) (ug : Z) : cpu :=
  Cpu (cregs (after_syscall c)) (k - 104) lstar (rflags (after_syscall c)) X86_64_GDT_SELECTOR_CODE64_RING0 X86_64_GDT_SELECTOR_DATA64_RING0
    (<[X86_64_MSR_GS_BASE := t]> (<[X86_64_MSR_KERNEL_GS_BASE := ug]> (c_msrs c))) (entered c).

Lemma after_regs_ok c : in_program c -> regs_ok (after_syscall c).
Proof.
  intros H. destruct (ip_regs _ H) as [Hl Hw], (ip_words _ H) as (_ & Hr & Hf). split; cbn [after_syscall cregs].
  - by rewrite !length_insert.
  - apply Forall_insert; [by apply Forall_insert|done].
Qed.

Lemma syscall_enter_ok c ug : layout_ok -> in_program c -> c_msrs c !! X86_64_MSR_GS_BASE = Some ug ->
  syscall_enter (after_syscall c) = Ok (at_kernel c ug).
Proof.
  intros [(Hk & _) _ (Ha & _) _] H Hug. pose proof (ip_mem _ H) as [Hks Hus Hst _]. unfold apart in Ha.
  unfold syscall_enter. run (swapgs_ok (after_syscall c) ug t Hug (ip_kgs _ H)). cbn [c_msrs set_cmsrs]. rewrite lookup_insert_eq. go.
  cbn [c_mem c_rsp set_cmsrs after_syscall]. change USER_STACK_OFFSET with 24. run put_ok; [|exact Hus].
  set (m1 := write_bytes (c_mem c) (t + 24) (le64 (c_rsp c))). change KERNEL_STACK_OFFSET with 16. run (load_ok m1 (t + 16) k); [|..|exact Hk].
  - rewrite cpush_all_ok; [reflexivity|]. cbn [c_mem c_rsp set_stack length fmap list_fmap saved_regs].
    apply (mapped_sub _ (k - 4096) 4096); [by apply mapped_write_bytes|lia|lia].
  - apply (bytes_at_same (c_mem c)); [|exact Hks]. intros a Hx. rewrite (le_bytes_length 8) in Hx. apply write_bytes_out. lia.
Qed.

(** The kernel is left as it was entered when the saved registers, the user's
    stack pointer and the registers of the ring change are still there. *)
Lemma syscall_leave_ok c ug c2 : in_program c -> c_msrs c !! X86_64_MSR_GS_BASE = Some ug -> regs_ok c2 -> c_rsp c2 = k - 104 ->
  (forall r, r <> X86_64_MSR_FS_BASE -> c_msrs c2 !! r = c_msrs (at_kernel c ug) !! r) ->
  (forall a, k - 104 <= a < k \/ t + 24 <= a < t + 32 -> c_mem c2 !! a = entered c !! a) -> apart (t + 16) 16 (k - 4096) 4096 ->
  syscall_leave c2 = Ok (Cpu (<[RDX := reg c2 RDX]> (<[RAX := reg c2 RAX]> (cregs (after_syscall c)))) (c_rsp c) (c_rip c) (rflags c)
    (c_cs c) (c_ss c) (<[X86_64_MSR_GS_BASE := ug]> (<[X86_64_MSR_KERNEL_GS_BASE := t]> (c_msrs c2))) (c_mem c2)).
Proof.
  intros H Hug [Hl2 Hw2] Hsp Hr Hm Ha. destruct (after_regs_ok c H) as [Hl Hw]. destruct (ip_words _ H) as (Hws & _).
  unfold apart in Ha. unfold syscall_leave.
  set (vs := rev ((fun i => cregs (after_syscall c) !!! i) <$> saved_regs)).
  assert (bytes_at (c_mem c2) (c_rsp c2) (concat (le64 <$> vs))) as Hb.
  { rewrite Hsp. apply (bytes_at_same (entered c)); [|apply write_bytes_at]. intros a Hx. rewrite frame_length in Hx. cbn in Hx. apply Hm. lia. }
  assert (Forall word vs) as Hvs.
  { apply Forall_rev, Forall_fmap, Forall_forall. intros i _. by apply (reg_word (after_syscall c)). }
  change 13%nat with (length vs). run (cpop_all_ok vs c2 Hb Hvs).
  match goal with |- context [pop_into _ _ ?x] => set (c3 := x) end.
  pose proof (pop_into_saved _ (cregs c2) c3 Hl eq_refl Hl2) as Er. fold vs in Er.
  set (c4 := pop_into (rev saved_regs) vs c3) in *.
  assert (c_msrs c4 !! X86_64_MSR_GS_BASE = Some t) as Hg by (change (c_msrs c4) with (c_msrs c2); rewrite Hr by done; apply lookup_insert_eq).
  assert (c_msrs c4 !! X86_64_MSR_KERNEL_GS_BASE = Some ug) as Hkg.
  { change (c_msrs c4) with (c_msrs c2). rewrite Hr by done. cbn [at_kernel c_msrs]. rewrite lookup_insert_ne by done. apply lookup_insert_eq. }
  run Hg. change USER_STACK_OFFSET with 24. change (c_mem c4) with (c_mem c2). run (load_ok (c_mem c2) (t + 24) (c_rsp c)); [|..|exact Hws].
  - run (swapgs_ok (set_stack (c_rsp c) (c_mem c2) c4) t ug Hg Hkg). unfold sysret, reg. cbn [c_msrs set_cmsrs set_stack cregs c_rsp c_mem].
    rewrite !lookup_insert_ne by done. change (c_msrs c4) with (c_msrs c2). rewrite Hr by done.
    cbn [at_kernel c_msrs]. rewrite !lookup_insert_ne by done. run (sm_star _ (ip_msrs _ H)). rewrite Er.
    cbn [after_syscall cregs] in Hl |- *. rewrite !length_insert in Hl. destruct (regs_15 _ Hl) as (? & ? & ? & ? & ? & ? & ? & ? & ? & ? & ? & ? & ? & ? & ? & El).
    rewrite El. cbn -[sysret_flags sysret_selectors canonical]. rewrite (ip_rip _ H), (ip_flags _ H). destruct (ip_cs _ H) as [-> ->]. reflexivity.
  - apply (bytes_at_same (entered c)); [intros a Hx; rewrite (le_bytes_length 8) in Hx; apply Hm; lia|].
    apply (bytes_at_same (write_bytes (c_mem c) (t + 24) (le64 (c_rsp c)))); [|apply write_bytes_at].
    intros a Hx. rewrite (le_bytes_length 8) in Hx. apply write_bytes_out. rewrite frame_length. cbn. lia.
Qed.

(** The program goes on as one: nothing it relies on has changed. *)
Lemma in_program_again c ug c2 : layout_ok -> in_program c -> regs_ok c2 ->
  (forall r, r <> X86_64_MSR_FS_BASE -> c_msrs c2 !! r = c_msrs (at_kernel c ug) !! r) ->
  (forall a, is_Some (entered c !! a) -> is_Some (c_mem c2 !! a)) ->
  (forall a, t + 16 <= a < t + 32 \/ table <= a < table + 160 -> c_mem c2 !! a = entered c !! a) ->
  in_program (Cpu (<[RDX := reg c2 RDX]> (<[RAX := reg c2 RAX]> (cregs (after_syscall c)))) (c_rsp c) (c_rip c) (rflags c)
    (c_cs c) (c_ss c) (<[X86_64_MSR_GS_BASE := ug]> (<[X86_64_MSR_KERNEL_GS_BASE := t]> (c_msrs c2))) (c_mem c2)).
Proof.
  intros [_ _ (Ha1 & Ha2 & Ha3) _] H H2 Hr Hs Hm. unfold apart in Ha1, Ha2, Ha3.
  assert (forall a, t + 16 <= a < t + 24 \/ table <= a < table + 160 -> c_mem c2 !! a = c_mem c !! a) as Hsame.
  { intros a Hx. rewrite Hm by lia. apply entered_same; lia. }
  pose proof (ip_mem _ H) as [Hks Hus Hst Htb].
  split; cbn [cregs c_rsp c_rip rflags c_cs c_ss c_msrs c_mem]; try apply H.
  - destruct (after_regs_ok c H) as [Hl Hw]. split; cbn [cregs]; [by rewrite !length_insert|].
    apply Forall_insert; [apply Forall_insert; [done|]|]; by apply reg_word.
  - rewrite lookup_insert_eq. by eexists.
  - rewrite lookup_insert_ne by done. apply lookup_insert_eq.
  - split; rewrite !lookup_insert_ne by done; rewrite Hr by done; cbn [at_kernel c_msrs]; rewrite !lookup_insert_ne by done; apply (ip_msrs _ H).
  - split.
    + apply (bytes_at_same (c_mem c)); [|done]. intros a Hx. rewrite (le_bytes_length 8) in Hx. apply Hsame. lia.
    + intros i Hi. by apply Hs, entered_some, Hus.
    + intros i Hi. by apply Hs, entered_some, Hst.
    + apply (bytes_at_same (c_mem c)); [|done]. intros a Hx. unfold table_bytes in Hx. rewrite frame_length, length_fmap in Hx. apply Hsame. cbn in Hx. lia.
Qed.

(** C16: a system call runs the function of its number, with the arguments of the
    program, in ring 0 with interrupts off on the kernel stack of the thread, and
    gives the program back: at the next instruction, with its own stack pointer,
    flags, ring and GS and all registers as they were but RAX and RDX, the value
    and the error of the call, and RCX and R11, which SYSCALL takes.  The program
    can then call again. *)
Theorem syscall_roundtrip c n s : layout_ok -> in_program c -> syscall_table !! n = Some s -> reg c RAX = Z.of_nat n -> convention (addr_of s) ->
  exists c0 c1 c2 c', syscall_insn c = Ok c0 /\ arch_syscall_entry func table 20 c0 = Ok c' /\
    func (addr_of s) c1 = Ok c2 /\ reg c1 <$> [RDI; RSI; RDX; RCX; R8; R9] = reg c <$> [RDI; RSI; RDX; R10; R8; R9] /\
    c_cs c1 = X86_64_GDT_SELECTOR_CODE64_RING0 /\ Z.testbit (rflags c1) RFLAGS_IF = false /\
    c_msrs c1 !! X86_64_MSR_GS_BASE = Some t /\ c_rsp c1 = k - 104 /\
    cregs c' = <[RDX := reg c2 RDX]> (<[RAX := reg c2 RAX]> (<[RCX := c_rip c]> (<[R11 := rflags c]> (cregs c)))) /\
    c_rip c' = c_rip c /\ c_rsp c' = c_rsp c /\ rflags c' = rflags c /\ c_cs c' = c_cs c /\ c_ss c' = c_ss c /\
    c_msrs c' !! X86_64_MSR_GS_BASE = c_msrs c !! X86_64_MSR_GS_BASE /\ in_program c'.
Proof.
  intros Hly H Hn Ha Hcv. destruct (ip_gs _ H) as [ug Hug]. destruct (after_regs_ok c H) as [Hl Hw].
  pose proof Hly as [(_ & Hsf & Htw) _ (Ha1 & Ha2 & Ha3) Hif]. pose proof (proj1 (Forall_lookup _ _) Htw _ _ Hn) as Hs. cbn beta in Hs. unfold apart in Ha2.
  pose proof (lookup_call (entered c) n s Hly) as Elk. 
  set (c1 := set_reg RCX (reg (at_kernel c ug) R10) (set_reg RAX (addr_of s) (at_kernel c ug))).
  assert (regs_ok c1) as Hc1. { apply regs_ok_set; [apply regs_ok_set; [by split|unfold word; lia]|by apply reg_word; split]. }
  destruct (Hcv c1 Hc1) as (c2 & E2 & Hc2 & Hsp & _ & _ & _ & Hr & Hsome & Hm).
  { cbn. lia. } { intros i Hi. by apply entered_some, (km_stack _ (ip_mem _ H)). }
  exists (after_syscall c), c1, c2. eexists. split; [apply syscall_insn_ok, (ip_msrs _ H)|].
  assert (reg (at_kernel c ug) RAX = Z.of_nat n) as Erax.
  { rewrite <- Ha. unfold reg. cbn [at_kernel cregs after_syscall]. by rewrite !list_lookup_total_insert_ne by done. }
  split; [|split; [exact E2|]].
  - unfold arch_syscall_entry. run (syscall_enter_ok c ug Hly H Hug). cbn [c_mem at_kernel]. rewrite Erax. run Elk; [|..|exact Hn].
    + fold c1. run E2. apply (syscall_leave_ok c ug); try done. intros a Hx. apply Hm. cbn. lia.
    + apply (bytes_at_same (c_mem c)); [|apply (ip_mem _ H)]. intros a Hx. unfold table_bytes in Hx. rewrite frame_length, length_fmap in Hx. cbn in Hx.
      unfold apart in Ha3. apply entered_same; lia.
  - split_and!; try done.
    + destruct (ip_regs _ H) as [Hl0 _]. destruct (regs_15 _ Hl0) as (? & ? & ? & ? & ? & ? & ? & ? & ? & ? & ? & ? & ? & ? & ? & El).
      unfold c1, reg. cbn [set_reg cregs at_kernel after_syscall]. rewrite El. reflexivity.
    + change (rflags c1) with (Z.ldiff (rflags c) sfmask). by rewrite Z.ldiff_spec, Hif, andb_false_r.
    + apply lookup_insert_eq.
    + cbn [c_msrs]. by rewrite lookup_insert_eq.
    + apply in_program_again; try done. intros a Hx. apply Hm. cbn. lia.
Qed.

(** The stack is not aligned to 16 bytes when the function is called, as the
    convention named in the comment asks for: thirteen registers are saved. *)
Lemma syscall_stack_misaligned c ug : k mod 4096 = 0 -> c_rsp (at_kernel c ug) mod 16 = 8.
Proof. intros Hk. cbn. dlia. Qed.

(** A number behind the table is ignored: no error is reported, RAX still holds
    the number and RDX what the program had there. *)
Lemma syscall_invalid_silent c n : layout_ok -> in_program c -> reg c RAX = n -> 20 <= n < 2 ^ 63 ->
  exists c', arch_syscall_entry func table 20 (after_syscall c) = Ok c' /\ reg c' RAX = n /\ reg c' RDX = reg c RDX.
Proof.
  intros Hly H Ha Hn. destruct (ip_gs _ H) as [ug Hug]. destruct (after_regs_ok c H) as [Hl Hw]. pose proof Hly as [_ _ (Ha1 & _) _].
  assert (reg (at_kernel c ug) RAX = n) as Erax.
  { rewrite <- Ha. unfold reg. cbn [at_kernel cregs after_syscall]. by rewrite !list_lookup_total_insert_ne by done. }
  assert (i64 20 <=? i64 n = true) as Hcmp.
  { unfold i64. rewrite !Z.mod_small by lia. apply Z.leb_le. lia. }
  eexists. unfold arch_syscall_entry. run (syscall_enter_ok c ug Hly H Hug). rewrite Erax. unfold syscall_lookup. rewrite Hcmp. go.
  split; [apply (syscall_leave_ok c ug); try done|]. unfold reg in *. cbn [cregs]. cbn [after_syscall cregs at_kernel] in Hl, Erax.
  split; [rewrite list_lookup_total_insert_ne by done; by rewrite list_lookup_total_insert_eq by (cbn [after_syscall cregs]; rewrite Hl; by apply Nat.ltb_lt)|].
  rewrite list_lookup_total_insert_eq by (rewrite length_insert; cbn [after_syscall cregs]; rewrite Hl; by apply Nat.ltb_lt).
  cbn [at_kernel after_syscall cregs]. by rewrite !list_lookup_total_insert_ne by done.
Qed.

(** A new thread of a program starts in it.  With the entry and the stack of
    the program on the kernel stack, [x86_64_thread_userspace_init] ends in ring 3
    at the entry, on that stack, with interrupts on, the registers zero but for
    the two that SYSRET uses, the program's GS and the thread behind SWAPGS: the
    state from which system calls come back. *)
Theorem program_starts c entry stack ug : layout_ok -> regs_ok c -> word entry -> canonical entry = true -> word stack ->
  bytes_at (c_mem c) (c_rsp c) (le64 entry) -> bytes_at (c_mem c) (c_rsp c + 8) (le64 stack) ->
  c_msrs c !! X86_64_MSR_GS_BASE = Some t -> c_msrs c !! X86_64_MSR_KERNEL_GS_BASE = Some ug ->
  syscall_msrs (c_msrs c) -> kernel_memory (c_mem c) ->
  exists c', x86_64_thread_userspace_init c = Ok c' /\ in_program c' /\ c_rip c' = entry /\ c_rsp c' = stack /\
    Z.testbit (rflags c') RFLAGS_IF = true /\ c_msrs c' !! X86_64_MSR_GS_BASE = Some ug /\
    (forall i, (i < 15)%nat -> i <> RCX -> i <> R11 -> reg c' i = 0) /\ c_mem c' = c_mem c.
Proof.
  intros Hly [Hl Hw] He Hcan Hs Hb1 Hb2 Hg Hkg Hms Hkm. unfold x86_64_thread_userspace_init, cpop. run (pop_ok entry _ _ Hb1 He).
  run (swapgs_ok _ t ug); [|exact Hg|exact Hkg]. cbn [c_rsp c_mem set_stack set_cmsrs set_rflags set_reg]. run (pop_ok stack _ _ Hb2 Hs).
  unfold sysret. cbn [c_msrs set_reg set_cregs set_stack set_cmsrs set_rflags cregs c_rsp c_mem rflags c_cs c_ss c_rip]. rewrite !lookup_insert_ne by done. run (sm_star _ Hms).
  destruct (regs_15 _ Hl) as (? & ? & ? & ? & ? & ? & ? & ? & ? & ? & ? & ? & ? & ? & ? & El).
  rewrite El. cbn -[canonical sysret_flags sysret_selectors]. rewrite Hcan. eexists. split; [reflexivity|].
  split; [|split_and!; try done; [apply lookup_insert_eq|]].
  - split; try done; cbn [c_msrs c_mem cregs].
    + split; [done|]. cbn [cregs]. repeat (apply Forall_cons; split; [done|]). by apply Forall_nil.
    + rewrite lookup_insert_eq. by eexists.
    + rewrite lookup_insert_ne by done. apply lookup_insert_eq.
    + split; rewrite !lookup_insert_ne by done; apply Hms.
  - intros i Hi H1 H2. unfold reg. cbn [cregs]. do 15 (destruct i as [|i]; [done|]). lia.
Qed.

End programs.

(** ** Interrupts

    The structure [cpu_state_t] that the stub leaves for the handler. *)
Definition cpu_state (c : cpu) (n e : Z) : list Z := cregs c ++ [n; e; c_rip c; c_cs c; rflags c; c_rsp c; c_ss c].

Section interrupts.
Context (func : Z -> cpu -> outcome cpu) (tss t k : Z).

(** The thread at [t] can be interrupted: in a program, whose kernel stack ends
    at [k], or in the kernel. *)
Record interruptible (c : cpu) : Prop := {
  ir_regs : regs_ok c;
  ir_words : Forall word [c_rip c; c_cs c; rflags c; c_rsp c; c_ss c];
  ir_gs : if user (c_cs c) then c_msrs c !! X86_64_MSR_KERNEL_GS_BASE = Some t /\ is_Some (c_msrs c !! X86_64_MSR_GS_BASE)
          else c_msrs c !! X86_64_MSR_GS_BASE = Some t /\ is_Some (c_msrs c !! X86_64_MSR_KERNEL_GS_BASE);
  ir_tss : bytes_at (c_mem c) (tss + 4) (le64 k) /\ word k;
}.

(** The end of the stack that is used, and the place of the structure. *)
Definition int_top (c : cpu) : Z := FLOOR (if user (c_cs c) then k else c_rsp c) 16.
Definition int_frame (c : cpu) : Z := int_top c - 176.

(** The handler keeps to the convention on the stack at [sp] and does not write
    to the structure or to GS. *)
Definition handler_safe (h sp : Z) : Prop := forall c, c_rsp c = sp -> mapped (c_mem c) sp 176 ->
  exists c', func h c = Ok c' /\ c_rsp c' = sp /\
    (forall r, r = X86_64_MSR_GS_BASE \/ r = X86_64_MSR_KERNEL_GS_BASE -> c_msrs c' !! r = c_msrs c !! r) /\
    (forall a, sp <= a < sp + 176 -> c_mem c' !! a = c_mem c !! a).

Lemma push_all_app xs ys sm : push_all (xs ++ ys) sm = sm ← push_all xs sm; push_all ys sm.
Proof.
  revert sm. induction xs as [|x xs IH]; intros sm; [done|]. cbn [app push_all]. destruct (push x sm) as [sm'| | |]; [|done..]. apply IH.
Qed.

Lemma cpush_one v c : cpush v c = cpush_all [v] c.
Proof. unfold cpush, cpush_all. cbn [push_all]. by destruct (push v (c_rsp c, c_mem c)) as [[]| | |]. Qed.

Lemma cpush_all_app xs ys c : cpush_all (xs ++ ys) c = c ← cpush_all xs c; cpush_all ys c.
Proof.
  unfold cpush_all. rewrite push_all_app. destruct (push_all xs (c_rsp c, c_mem c)) as [[sp m]| | |]; [|done..]. go. cbn [c_rsp c_mem set_stack].
  by destruct (push_all ys (sp, m)) as [[]| | |].
Qed.

(** Delivery and the first pushes leave the same seven words for every vector. *)
Definition stub_entry (g : gate) (n e : Z) (c : cpu) : cpu :=
  Cpu (cregs c) (int_top c - 56) (offset g) (gate_flags (rflags c)) (gate_sel g) (if user (c_cs c) then 0 else c_ss c) (c_msrs c)
    (write_bytes (c_mem c) (int_top c - 56) (concat (le64 <$> [n; e; c_rip c; c_cs c; rflags c; c_rsp c; c_ss c]))).

Lemma deliver_stub g h n err c : interruptible c -> mapped (c_mem c) (int_frame c) 176 -> isr_error_code n = pushes_error n ->
  exists c0, deliver_int tss g n err c = Ok c0 /\
    isr func h n c0 = isr_stub func h (stub_entry g n (if pushes_error n then err else 0) c).
Proof.
  intros H Hm He. unfold deliver_int, isr.
  assert ((if user (c_cs c) then rsp0 (c_mem c) tss else Ok (c_rsp c)) = Ok (if user (c_cs c) then k else c_rsp c)) as ->.
  { destruct (user (c_cs c)); [|done]. destruct (ir_tss _ H) as [Hb Hk]. exact (load_ok _ _ _ Hb Hk). }
  go. fold (int_top c). set (e := if pushes_error n then err else 0). unfold int_frame in Hm.
  set (pre := [c_ss c; c_rsp c; rflags c; c_cs c; c_rip c] ++ (if pushes_error n then [err] else [])).
  set (c1 := Cpu (cregs c) (int_top c) (offset g) (gate_flags (rflags c)) (gate_sel g) (if user (c_cs c) then 0 else c_ss c) (c_msrs c) (c_mem c)).
  set (post := (if isr_error_code n then [] else [0]) ++ [n]).
  assert (pre ++ post = [c_ss c; c_rsp c; rflags c; c_cs c; c_rip c; e; n]) as Epp.
  { unfold pre, post, e. rewrite He. by destruct (pushes_error n). }
  assert (cpush_all (pre ++ post) c1 = Ok (stub_entry g n e c)) as E.
  { rewrite Epp, cpush_all_ok; [reflexivity|]. apply (mapped_sub _ _ _ _ _ Hm); cbn; lia. }
  rewrite cpush_all_app in E. destruct (cpush_all pre c1) as [c2| | |] eqn:E1; [|discriminate E..]. cbn [mbind outcome_bind] in E.
  exists c2. split.
  - unfold cpush_all in E1. cbn [c1 c_rsp c_mem] in E1. destruct (push_all pre (int_top c, c_mem c)) as [[sp m]| | |]; [|discriminate E1..].
    cbn [mbind outcome_bind] in E1 |- *. injection E1 as <-. reflexivity.
  - unfold post in E. destruct (isr_error_code n).
    + go. rewrite cpush_one. cbn [app] in E. by run E.
    + rewrite cpush_all_app in E. rewrite cpush_one. destruct (cpush_all [0] c2) as [c3| | |]; [|discriminate E..]. cbn [mbind outcome_bind] in E |- *.
      rewrite cpush_one. by run E.
Qed.

Lemma words_at m p l (i : nat) v : bytes_at m p (concat (le64 <$> l)) -> l !! i = Some v -> bytes_at m (p + 8 * Z.of_nat i) (le64 v).
Proof.
  intros Hb Hi. apply (bytes_at_slice _ _ _ (8 * i) 8) in Hb. rewrite (concat_lookup le64 8 l i v (le_bytes_length 8) Hi) in Hb.
  by replace (p + 8 * Z.of_nat i) with (p + Z.of_nat (8 * i)) by lia.
Qed.

(** The conditional SWAPGS, with the seven words at the stack pointer. *)
Lemma swapgs_conditional_ok c cs : bytes_at (c_mem c) (c_rsp c + 24) (le64 cs) -> word cs ->
  SWAPGS_CONDITIONAL c = if user cs then swapgs c else Ok c.
Proof. intros Hb Hw. unfold SWAPGS_CONDITIONAL, user. run (load_ok _ _ _ Hb Hw). by destruct (Z.land cs 3 =? 0). Qed.

(** The state in which the handler is called. *)
Definition at_handler (g : gate) (n e : Z) (r : msrs) (c : cpu) : cpu :=
  Cpu (<[RDI := int_frame c]> (<[RBP := 0]> (cregs c))) (int_frame c) (offset g) (Z.ldiff (gate_flags (rflags c)) 1024) (gate_sel g)
    (if user (c_cs c) then 0 else c_ss c) r (write_bytes (c_mem c) (int_frame c) (concat (le64 <$> cpu_state c n e))).

(** The part of the stub before the call, as what follows it sees it; [other]:
    the GS of the program, whether it was swapped or was behind already. *)
Lemma stub_to_handler g h n e c : interruptible c -> mapped (c_mem c) (int_frame c) 176 ->
  exists r, r !! X86_64_MSR_GS_BASE = Some t /\
    (forall x, x <> X86_64_MSR_GS_BASE -> x <> X86_64_MSR_KERNEL_GS_BASE -> r !! x = c_msrs c !! x) /\
    (if user (c_cs c) then r !! X86_64_MSR_KERNEL_GS_BASE = c_msrs c !! X86_64_MSR_GS_BASE
     else r !! X86_64_MSR_KERNEL_GS_BASE = c_msrs c !! X86_64_MSR_KERNEL_GS_BASE) /\
    isr_stub func h (stub_entry g n e c) =
      (c ← func h (at_handler g n e r c);
       '(vs, c) ← cpop_all 15 c;
       c ← SWAPGS_CONDITIONAL (set_cregs vs c);
       iretq (set_stack (c_rsp c + 16) (c_mem c) c)).
Proof.
  intros H Hm. pose proof (ir_regs _ H) as [Hl Hw]. pose proof (ir_gs _ H) as Hgs. unfold isr_stub.
  assert (bytes_at (c_mem (stub_entry g n e c)) (int_top c - 56 + 24) (le64 (c_cs c))) as Hb.
  { apply (words_at _ (int_top c - 56) [n; e; c_rip c; c_cs c; rflags c; c_rsp c; c_ss c] 3); [apply write_bytes_at|reflexivity]. }
  pose proof (Forall_lookup_1 _ _ 1 _ (ir_words _ H) eq_refl) as Hcs.
  set (c3 := set_rflags (Z.ldiff (rflags (stub_entry g n e c)) 1024) (stub_entry g n e c)).
  assert (exists r, SWAPGS_CONDITIONAL c3 = Ok (set_cmsrs r c3) /\ r !! X86_64_MSR_GS_BASE = Some t /\
      (forall x, x <> X86_64_MSR_GS_BASE -> x <> X86_64_MSR_KERNEL_GS_BASE -> r !! x = c_msrs c !! x) /\
      (if user (c_cs c) then r !! X86_64_MSR_KERNEL_GS_BASE = c_msrs c !! X86_64_MSR_GS_BASE
       else r !! X86_64_MSR_KERNEL_GS_BASE = c_msrs c !! X86_64_MSR_KERNEL_GS_BASE)) as (r & Es & Hr & Hx & Hk).
  { rewrite (swapgs_conditional_ok c3 (c_cs c) Hb Hcs). destruct (user (c_cs c)).
    - destruct Hgs as [Hkg [ug Hug]]. rewrite (swapgs_ok c3 ug t Hug Hkg). eexists. split; [reflexivity|]. cbn [c3 c_msrs set_rflags stub_entry].
      split_and!; [apply lookup_insert_eq|intros x H1 H2; by rewrite !lookup_insert_ne by done|]. rewrite lookup_insert_ne by done. by rewrite lookup_insert_eq, Hug.
    - exists (c_msrs c). by destruct Hgs. }
  exists r. split_and!; try done. run Es. run cpush_all_ok.
  - match goal with |- (func h ?x ≫= _) = _ => replace x with (at_handler g n e r c); [reflexivity|] end.
    unfold at_handler, set_reg, set_stack, set_cmsrs, c3, set_rflags, stub_entry. cbn [cregs c_rsp c_rip rflags c_cs c_ss c_msrs c_mem].
    rewrite length_rev, Hl, rev_involutive. change (8 * Z.of_nat 15) with 120. unfold int_frame. replace (int_top c - 56 - 120) with (int_top c - 176) by lia.
    f_equal. unfold cpu_state. rewrite fmap_app, concat_app, write_bytes_app, frame_length, Hl.
    replace (int_top c - 176 + Z.of_nat (8 * 15)) with (int_top c - 56) by lia. symmetry. apply write_bytes_swap.
    rewrite !frame_length, Hl. cbn [length]. lia.
  - rewrite length_rev. cbn [c_mem c_rsp cregs set_cmsrs c3 set_rflags stub_entry]. rewrite Hl. apply mapped_write_bytes. unfold int_frame in Hm.
    apply (mapped_sub _ _ _ _ _ Hm); lia.
Qed.

(** The part after the call: everything comes from the structure. *)
Lemma stub_return n e c c2 (r : msrs) : interruptible c -> word n -> word e -> c_rsp c2 = int_frame c ->
  bytes_at (c_mem c2) (int_frame c) (concat (le64 <$> cpu_state c n e)) ->
  (forall x, x = X86_64_MSR_GS_BASE \/ x = X86_64_MSR_KERNEL_GS_BASE -> c_msrs c2 !! x = r !! x) -> r !! X86_64_MSR_GS_BASE = Some t ->
  (if user (c_cs c) then r !! X86_64_MSR_KERNEL_GS_BASE = c_msrs c !! X86_64_MSR_GS_BASE
   else r !! X86_64_MSR_KERNEL_GS_BASE = c_msrs c !! X86_64_MSR_KERNEL_GS_BASE) ->
  exists r', ('(vs, c) ← cpop_all 15 c2; c ← SWAPGS_CONDITIONAL (set_cregs vs c); iretq (set_stack (c_rsp c + 16) (c_mem c) c)) =
      Ok (Cpu (cregs c) (c_rsp c) (c_rip c) (rflags c) (c_cs c) (c_ss c) r' (c_mem c2)) /\
    r' !! X86_64_MSR_GS_BASE = c_msrs c !! X86_64_MSR_GS_BASE /\ r' !! X86_64_MSR_KERNEL_GS_BASE = c_msrs c !! X86_64_MSR_KERNEL_GS_BASE.
Proof.
  intros H Hn He Hsp Hb Hr Ht Hk. pose proof (ir_regs _ H) as [Hl Hw]. pose proof (ir_gs _ H) as Hgs. pose proof (ir_words _ H) as Hws.
  unfold cpu_state in Hb. rewrite fmap_app, concat_app in Hb. apply bytes_at_app in Hb as [Hb1 Hb2]. rewrite frame_length, Hl in Hb2.
  replace (int_frame c + Z.of_nat (8 * 15)) with (int_frame c + 120) in Hb2 by lia. rewrite <- Hsp in Hb1.
  pose proof (cpop_all_ok (cregs c) c2 Hb1 Hw) as Ep. rewrite Hl in Ep. run Ep. rewrite Hsp. change (8 * Z.of_nat 15) with 120.
  set (c3 := set_cregs (cregs c) (set_stack (int_frame c + 120) (c_mem c2) c2)).
  assert (exists r', SWAPGS_CONDITIONAL c3 = Ok (set_cmsrs r' c3) /\
    r' !! X86_64_MSR_GS_BASE = c_msrs c !! X86_64_MSR_GS_BASE /\ r' !! X86_64_MSR_KERNEL_GS_BASE = c_msrs c !! X86_64_MSR_KERNEL_GS_BASE) as (r' & Es & Hg & Hkg).
  { rewrite (swapgs_conditional_ok c3 (c_cs c)); [|exact (words_at _ _ _ 3 (c_cs c) Hb2 eq_refl)|exact (Forall_lookup_1 _ _ 1 _ Hws eq_refl)].
    pose proof (Hr _ (or_introl eq_refl)) as H1. pose proof (Hr _ (or_intror eq_refl)) as H2. rewrite Ht in H1. destruct (user (c_cs c)).
    - destruct Hgs as [Hkg [ug Hug]]. rewrite Hk, Hug in H2. rewrite (swapgs_ok c3 t ug H1 H2). eexists. split; [reflexivity|].
      rewrite lookup_insert_eq, lookup_insert_ne, lookup_insert_eq, Hug, Hkg by done. done.
    - destruct Hgs as [Hg _]. exists (c_msrs c2). split; [reflexivity|]. by rewrite H1, H2, Hg, Hk. }
  exists r'. split; [|done]. run Es. unfold iretq. cbn [c_rsp c_mem set_stack set_cmsrs c3 set_cregs].
  change (concat (le64 <$> [n; e; c_rip c; c_cs c; rflags c; c_rsp c; c_ss c])) with
    (concat (le64 <$> [n; e]) ++ concat (le64 <$> [c_rip c; c_cs c; rflags c; c_rsp c; c_ss c])) in Hb2.
  apply bytes_at_app in Hb2 as [_ Hb2]. rewrite frame_length in Hb2.
  replace (int_frame c + 120 + Z.of_nat (8 * length [n; e])) with (int_frame c + 120 + 16) in Hb2 by (cbn [length]; lia).
  pose proof (pop_all_ok _ _ _ Hb2 Hws) as E5. cbn [length] in E5. by run E5.
Qed.

(** C17: an interrupt is invisible to what it interrupts.  From a program or from
    the kernel, for any vector but 24 and 28 (see below), the stub calls the handler with the structure
    that describes the interrupted state, on an aligned stack, with the thread in
    GS, interrupts and the direction flag off; when the handler is done, all
    registers, the stack, the flags, the rings and both GS are as before, and
    memory is as the handler left it. *)
Theorem interrupt_transparent c g h n err : interruptible c -> mapped (c_mem c) (int_frame c) 176 ->
  0 <= n < 256 -> n <> 24 -> n <> 28 -> word err -> handler_safe h (int_frame c) ->
  exists c0 c1 c2 c', deliver_int tss g n err c = Ok c0 /\ isr func h n c0 = Ok c' /\ func h c1 = Ok c2 /\
    reg c1 RDI = int_frame c /\ bytes_at (c_mem c1) (int_frame c) (concat (le64 <$> cpu_state c n (if pushes_error n then err else 0))) /\
    c_rsp c1 mod 16 = 0 /\ c_msrs c1 !! X86_64_MSR_GS_BASE = Some t /\ Z.testbit (rflags c1) RFLAGS_IF = false /\ Z.testbit (rflags c1) 10 = false /\
    cregs c' = cregs c /\ c_rsp c' = c_rsp c /\ c_rip c' = c_rip c /\ rflags c' = rflags c /\ c_cs c' = c_cs c /\ c_ss c' = c_ss c /\
    c_msrs c' !! X86_64_MSR_GS_BASE = c_msrs c !! X86_64_MSR_GS_BASE /\
    c_msrs c' !! X86_64_MSR_KERNEL_GS_BASE = c_msrs c !! X86_64_MSR_KERNEL_GS_BASE /\ c_mem c' = c_mem c2.
Proof.
  intros H Hm Hn Hn1 Hn2 Herr Hh. set (e := if pushes_error n then err else 0). assert (word e) as He by (unfold e; by destruct (pushes_error n)).
  destruct (deliver_stub g h n err c H Hm) as (c0 & E0 & E1).
  { unfold isr_error_code, pushes_error. cbn [existsb]. by rewrite (proj2 (Z.eqb_neq n 24) Hn1), (proj2 (Z.eqb_neq n 28) Hn2). }
  fold e in E1. destruct (stub_to_handler g h n e c H Hm) as (r & Hr & _ & Hk & E2).
  pose proof (ir_regs _ H) as [Hl Hw].
  destruct (Hh (at_handler g n e r c) eq_refl) as (c2 & E3 & Hsp & Hrs & Hmem); [by apply mapped_write_bytes|].
  destruct (stub_return n e c c2 r H) as (r' & E4 & Hg & Hkg); try done; [unfold word; lia| |].
  { apply (bytes_at_same (c_mem (at_handler g n e r c))); [|apply write_bytes_at]. intros a Ha.
    rewrite frame_length in Ha. unfold cpu_state in Ha. rewrite length_app, Hl in Ha. apply Hmem. cbn in Ha. lia. }
  exists c0, (at_handler g n e r c), c2. eexists. split; [exact E0|]. split; [rewrite E1, E2; run E3; exact E4|]. split; [exact E3|].
  cbn [at_handler c_mem c_rsp c_msrs cregs rflags c_rip c_cs c_ss]. split_and!; try done.
  - unfold reg. cbn [cregs]. apply list_lookup_total_insert_eq. rewrite length_insert, Hl. by apply Nat.ltb_lt.
  - apply write_bytes_at.
  - unfold int_frame, int_top, FLOOR. dlia.
  - rewrite Z.ldiff_spec. unfold gate_flags. rewrite Z.ldiff_spec. change (Z.testbit 0x34300 RFLAGS_IF) with true. by rewrite andb_false_r.
  - rewrite Z.ldiff_spec. change (Z.testbit 1024 10) with true. apply andb_false_r.
Qed.

(** Vectors 24 and 28 are taken for exceptions with an error code, which the
    processor does not push for them: the stub pushes one word less. *)
Lemma no_error_code_pushed n : isr_error_code n = true -> pushes_error n = false -> n = 24 \/ n = 28.
Proof.
  unfold isr_error_code, pushes_error. cbn [existsb]. rewrite !orb_true_iff, !orb_false_iff, !Z.eqb_eq, !Z.eqb_neq. lia.
Qed.

End interrupts.

(** ** Concrete runs *)

Definition ex_addr (s : syscall) : Z := 4096.
Definition ex_func (f : Z) (c : cpu) : outcome cpu := Ok (set_reg RAX 7 (set_reg RDX 0 c)).
Definition ex_kmem : mem :=
  write_bytes (write_bytes (write_bytes (write_bytes ∅ 4096 (zeroes 4096)) 116 (le64 8192 ++ zeroes 8)) 200 (table_bytes ex_addr))
    8176 (le64 0x400000 ++ le64 0x7FF000).
Definition ex_msrs (g kg : Z) : msrs :=
  <[X86_64_MSR_GS_BASE := g]> (<[X86_64_MSR_KERNEL_GS_BASE := kg]> (<[X86_64_MSR_STAR := 0x0013000800000000]>
    (<[X86_64_MSR_LSTAR := 0x8000]> (<[X86_64_MSR_SFMASK := 512]> ∅)))).
Definition ex_program (rax : Z) : cpu :=
  Cpu (replicate 14 1 ++ [rax]) 0x7FF000 0x400002 0x202 X86_64_GDT_SELECTOR_CODE64_RING3 X86_64_GDT_SELECTOR_DATA64_RING3 (ex_msrs 0 100) ex_kmem.

Lemma ex_layout : layout_ok ex_addr 200 512 100 8192.
Proof.
  split; unfold word, apart; [|lia|lia|reflexivity]. split; [lia|]. split; [lia|].
  apply Forall_forall. intros s _. unfold ex_addr. lia.
Qed.

Lemma ex_kernel_memory : kernel_memory ex_addr 200 100 8192 ex_kmem.
Proof.
  split; unfold ex_kmem.
  - generalize (write_bytes ∅ 4096 (zeroes 4096)) as m. intros m. apply (bytes_at_same (write_bytes m 116 (le64 8192 ++ zeroes 8))).
    + intros a Ha. rewrite (le_bytes_length 8) in Ha. rewrite write_bytes_out by lia. apply write_bytes_out. change (length (table_bytes ex_addr)) with 160%nat. lia.
    + exact (proj1 (proj1 (bytes_at_app _ 116 (le64 8192) (zeroes 8)) (write_bytes_at _ 116 _))).
  - do 2 apply mapped_write_bytes. rewrite write_bytes_app. intros i Hi. exact (bytes_mapped _ _ _ (write_bytes_at _ 124 (zeroes 8)) i Hi).
  - do 3 apply mapped_write_bytes. intros i Hi. exact (bytes_mapped _ _ _ (write_bytes_at ∅ 4096 (zeroes 4096)) i Hi).
  - apply (bytes_at_same (write_bytes (write_bytes (write_bytes ∅ 4096 (zeroes 4096)) 116 (le64 8192 ++ zeroes 8)) 200 (table_bytes ex_addr)));
      [|apply write_bytes_at]. intros a Ha. unfold table_bytes in Ha. rewrite frame_length in Ha. cbn in Ha. apply write_bytes_out. cbn. lia.
Qed.

Lemma ex_words (l : list Z) : forallb (fun v => (0 <=? v) && (v <? 2 ^ 64)) l = true -> Forall word l.
Proof. intros H. apply Forall_forall. intros v Hv. apply list_elem_of_In in Hv. pose proof (proj1 (forallb_forall _ _) H _ Hv) as Hx. cbn beta in Hx. unfold word. lia. Qed.

Lemma ex_in_program : in_program ex_addr 200 0x8000 512 100 8192 (ex_program 4).
Proof.
  split; [split; [reflexivity|by apply ex_words]|unfold word; cbn; lia|reflexivity|reflexivity|done| |reflexivity|split; reflexivity|exact ex_kernel_memory].
  cbn [c_msrs ex_program]. by eexists.
Qed.

Lemma ex_convention : convention ex_func 200 100 8192 4096.
Proof.
  intros c Hc Hs Hm. eexists. split; [reflexivity|]. split; [by repeat apply regs_ok_set|]. split; [done|]. split; [|done].
  intros i Hi. unfold reg. cbn [cregs set_reg]. apply list_elem_of_In in Hi. cbn in Hi.
  repeat (destruct Hi as [<-|Hi]; [by rewrite !list_lookup_total_insert_ne|]). destruct Hi.
Qed.

(** The system call [debug_log] of the program. *)
Lemma syscall_roundtrip_witness : exists c0 c',
  syscall_insn (ex_program 4) = Ok c0 /\ arch_syscall_entry ex_func 200 20 c0 = Ok c' /\ c_rip c' = 0x400002.
Proof.
  destruct (syscall_roundtrip ex_func ex_addr 200 0x8000 512 100 8192 (ex_program 4) 4 SYS_debug_log ex_layout ex_in_program eq_refl eq_refl ex_convention)
    as (c0 & c1 & c2 & c' & E0 & E & _ & _ & _ & _ & _ & _ & _ & Hrip & _).
  exists c0, c'. by split_and!.
Defined.

Definition ex_new_thread : cpu :=
  Cpu (replicate 15 9) 8176 0x9000 0x202 X86_64_GDT_SELECTOR_CODE64_RING0 X86_64_GDT_SELECTOR_DATA64_RING0 (ex_msrs 100 0) ex_kmem.

Lemma program_starts_witness : exists c', x86_64_thread_userspace_init ex_new_thread = Ok c' /\ c_rip c' = 0x400000 /\ c_rsp c' = 0x7FF000.
Proof.
  destruct (program_starts ex_addr 200 0x8000 512 100 8192 ex_new_thread 0x400000 0x7FF000 0 ex_layout) as (c' & E & _ & H1 & H2 & _).
  - split; [reflexivity|by apply ex_words].
  - unfold word. lia.
  - reflexivity.
  - unfold word. lia.
  - apply (proj1 (bytes_at_app _ _ _ (le64 0x7FF000))). exact (write_bytes_at _ 8176 _).
  - exact (proj2 (proj1 (bytes_at_app _ 8176 (le64 0x400000) (le64 0x7FF000)) (write_bytes_at _ 8176 _))).
  - reflexivity.
  - reflexivity.
  - split; reflexivity.
  - exact ex_kernel_memory.
  - exists c'. by split_and!.
Defined.

(** The timer interrupts the program; its kernel stack is the one at 8192. *)
Definition ex_interrupted : cpu :=
  Cpu (replicate 15 5) 0x7FF000 0x400002 0x202 X86_64_GDT_SELECTOR_CODE64_RING3 X86_64_GDT_SELECTOR_DATA64_RING3 (ex_msrs 0 100)
    (write_bytes ex_kmem 404 (le64 8192)).

Lemma interrupt_transparent_witness : exists c0 c',
  deliver_int 400 (Gate true 0 14 8 0 0xA000) 32 0 ex_interrupted = Ok c0 /\ isr ex_func 0xB000 32 c0 = Ok c' /\ cregs c' = replicate 15 5.
Proof.
  destruct (interrupt_transparent ex_func 400 100 8192 ex_interrupted (Gate true 0 14 8 0 0xA000) 0xB000 32 0) as (c0 & c1 & c2 & c' & E0 & E & _ & _ & _ & _ & _ & _ & _ & Hr & _).
  - split; [split; [reflexivity|by apply ex_words]|by apply ex_words|split; [reflexivity|by eexists]|split; [apply write_bytes_at|unfold word; lia]].
  - change (int_frame 8192 ex_interrupted) with 8016. cbn [c_mem ex_interrupted]. apply mapped_write_bytes.
    apply (mapped_sub _ 4096 4096); [apply (km_stack _ _ _ _ _ ex_kernel_memory)|lia|lia].
  - lia.
  - lia.
  - lia.
  - unfold word. lia.
  - intros c Hc Hm. eexists. split; [reflexivity|]. by split_and!.
  - exists c0, c'. by split_and!.
Defined.
