(* ===== verification/Apic.v ===== *)
(** * Interrupt controllers and timers (kernel/src/arch/x86_64/devices)

    ioapic.c, lapic.c, pit.c and pic.c.  The tables of the firmware are bytes in
    memory; the registers of the devices are the state that their ports and
    windows select.  The theorems follow an interrupt line from the firmware's
    tables to the entry of the controller, and the calibration of the timer. *)
From stdpp Require Import base gmap list fin_maps.
From Stdlib Require Import ZArith Lia.
From S2P Require Import Prelude Strings Elf Ksym Module Devices X86.

(** ** ioapic.c: the firmware's table *)

Definition sizeof_madt : Z := 44.
Definition SO_FLAG_POLARITY_LOW : Z := 3.
Definition SO_FLAG_POLARITY_HIGH : Z := 1.
Definition SO_TRIGGER_EDGE : Z := 4.
Definition SO_TRIGGER_LEVEL : Z := 12.
Definition MADT_TYPE_IOAPIC : Z := 1.
Definition MADT_TYPE_SOURCE_OVERRIDE : Z := 2.
Definition IOREDTBL (N : Z) : Z := 0x10 + 2 * N.

(** One element of [g_irq_redirection_table]. *)
Record redirection := Redirection { r_dest : Z; r_flags : Z }.

(** [g_ioapic_base] and [g_irq_redirection_table]. *)
Record ioapic := Ioapic { g_ioapic_base : Z; g_irq_redirection_table : list redirection }.

Definition ioapic_start : ioapic := Ioapic 0 ((fun i => Redirection i 0) <$> seqZ 0 16).

Definition load_u16 (m : mem) (p : Z) : outcome Z := bs ← kread m p 2; Ok (le_value bs).

Section ioapic.
Context (HHDM : Z).

(** One entry at [ptr], whose type byte is [type]. *)
Definition madt_entry (m : mem) (ptr type : Z) (st : ioapic) : outcome ioapic :=
  if type =? MADT_TYPE_IOAPIC then
    a ← load_u32 m (ptr + 4);
    Ok (Ioapic (u64 (a + HHDM)) (g_irq_redirection_table st))
  else if type =? MADT_TYPE_SOURCE_OVERRIDE then
    source ← load m (ptr + 3);
    gsi ← load_u32 m (ptr + 4);
    flags ← load_u16 m (ptr + 8);
    deref (g_irq_redirection_table st !! Z.to_nat source);;
    Ok (Ioapic (g_ioapic_base st) (<[Z.to_nat source := Redirection (u16 gsi) flags]> (g_irq_redirection_table st)))
  else Ok st.

Definition madt_loop (fuel : nat) (m : mem) (end_ : Z) : Z * ioapic -> outcome ioapic :=
  loop fuel (fun '(ptr, st) =>
    if ptr <? end_ then
      type ← load m ptr;
      length ← load m (ptr + 1);
      st ← madt_entry m ptr type st;
      Ok (inl (ptr + length, st))
    else Ok (inr st)).

(** [sig] is the address of the string "APIC"; the fuel is the length of the
    table, and every entry has two bytes or more. *)
Definition x86_64_ioapic_init (m : mem) (root : option (Z * bool)) (sig : Z) (st : ioapic) : outcome ioapic :=
  madt ← acpi_lookup HHDM m root sig;
  if madt =? NULL then Panic
  else
    len ← load_u32 m (madt + 4);
    st ← madt_loop (S (Z.to_nat len)) m (madt + len) (madt + sizeof_madt, st);
    if g_ioapic_base st =? 0 then Panic else Ok st.
End ioapic.

(** ** ioapic.c: the controller

    The select register chooses the register behind the window; both are 32
    bits wide and the selection is the low byte. *)
Record ioapic_dev := IoapicDev { sel : Z; win : gmap Z Z }.

Definition IOREGSEL : Z := 0.
Definition IOWIN : Z := 0x10.

(** A write of a device register at an offset from its base. *)
Definition ioapic_store (offset data : Z) (d : ioapic_dev) : ioapic_dev :=
  if offset =? IOREGSEL then IoapicDev (u8 data) (win d)
  else if offset =? IOWIN then IoapicDev (sel d) (<[sel d := u32 data]> (win d))
  else d.

Definition ioapic_write (reg data : Z) (d : ioapic_dev) : ioapic_dev := ioapic_store IOWIN data (ioapic_store IOREGSEL reg d).
Definition ioapic_read (reg : Z) (d : ioapic_dev) : Z * ioapic_dev :=
  let d := ioapic_store IOREGSEL reg d in (default 0 (win d !! sel d), d).

(** The bit fields, lowest first. *)
Record ioapic_redirect_t := Redirect {
  vector : Z; delivery_mode : Z; dest_mode : Z; delivery_status : Z; pin_polarity : Z; remote_irr : Z; trigger_mode : Z; mask : Z;
  destination : Z
}.

Definition redirect_value (e : ioapic_redirect_t) : Z :=
  vector e + 2 ^ 8 * (delivery_mode e + 2 ^ 3 * (dest_mode e + 2 * (delivery_status e + 2 * (pin_polarity e + 2 * (remote_irr e +
  2 * (trigger_mode e + 2 * (mask e + 2 * (2 ^ 39 * destination e)))))))).

Definition x86_64_ioapic_map_gsi (gsi lapic_id : Z) (low_polarity trigger : bool) (vec : Z) (d : ioapic_dev) : ioapic_dev :=
  let entry := Redirect vec 0 0 0 (if low_polarity then 1 else 0) 0 (if trigger then 1 else 0) 0 lapic_id in
  let low := u32 (redirect_value entry) in
  let high := u32 (Z.shiftr (redirect_value entry) 32) in
  let d := ioapic_write (IOREDTBL gsi) low d in
  ioapic_write (IOREDTBL gsi + 1) high d.

Definition x86_64_ioapic_map_legacy_irq (st : ioapic) (irq lapic_id : Z) (fallback_low_polarity fallback_trigger_mode : bool) (vec : Z)
    (d : ioapic_dev) : outcome ioapic_dev :=
  if irq <? 16 then
    r ← deref (g_irq_redirection_table st !! Z.to_nat irq);
    let p := Z.land (r_flags r) 3 in
    let low := if p =? SO_FLAG_POLARITY_LOW then true else if p =? SO_FLAG_POLARITY_HIGH then false else fallback_low_polarity in
    let t := Z.land (r_flags r) 12 in
    let trig := if t =? SO_TRIGGER_EDGE then false else if t =? SO_TRIGGER_LEVEL then true else fallback_trigger_mode in
    Ok (x86_64_ioapic_map_gsi (u8 (r_dest r)) lapic_id low trig vec d)
  else Ok (x86_64_ioapic_map_gsi irq lapic_id fallback_low_polarity fallback_trigger_mode vec d).

(** What the controller makes of the two registers of a line: vector, low
    polarity, level triggered, masked, destination; the fixed modes are 0. *)
Record route := Route { rt_vector : Z; rt_modes : Z; rt_low : bool; rt_level : bool; rt_masked : bool; rt_dest : Z }.

Definition route_of (d : ioapic_dev) (gsi : Z) : option route :=
  match win d !! IOREDTBL gsi, win d !! (IOREDTBL gsi + 1) with
  | Some low, Some high =>
      Some (Route (low mod 2 ^ 8) (low / 2 ^ 8 mod 2 ^ 4) (Z.testbit low 13) (Z.testbit low 15) (Z.testbit low 16) (high / 2 ^ 24))
  | _, _ => None
  end.

Lemma map_gsi_routes gsi lapic_id low trig vec d : 0 <= gsi < 120 -> 0 <= lapic_id < 256 -> 0 <= vec < 256 ->
  let d' := x86_64_ioapic_map_gsi gsi lapic_id low trig vec d in
  route_of d' gsi = Some (Route vec 0 low trig false lapic_id) /\
  (forall g, 0 <= g < 120 -> g <> gsi -> route_of d' g = route_of d g).
Proof.
  intros Hg Hl Hv d'. assert (win d' = <[IOREDTBL gsi + 1 := lapic_id * 2 ^ 24]> (<[IOREDTBL gsi :=
    vec + (if low then 2 ^ 13 else 0) + (if trig then 2 ^ 15 else 0)]> (win d))) as Ew.
  { unfold d', x86_64_ioapic_map_gsi, ioapic_write, ioapic_store, redirect_value, IOREDTBL.
    cbn [Z.eqb Pos.eqb IOREGSEL IOWIN win sel vector delivery_mode dest_mode delivery_status pin_polarity remote_irr trigger_mode mask destination].
    rewrite Z.shiftr_div_pow2 by lia. unfold u8, u32. rewrite (Z.mod_small (16 + 2 * gsi)), (Z.mod_small (16 + 2 * gsi + 1)), !Z.mod_mod by lia.
    match goal with |- <[_ := ?h mod _]> (<[_ := ?l mod _]> _) = _ => assert (h mod 2 ^ 32 = lapic_id * 2 ^ 24) as ->;
      [|assert (l mod 2 ^ 32 = vec + (if low then 2 ^ 13 else 0) + (if trig then 2 ^ 15 else 0)) as ->; [|done]] end; destruct low, trig; dlia. }
  unfold route_of. rewrite Ew. unfold IOREDTBL. split.
  - rewrite lookup_insert_ne by lia. rewrite !lookup_insert_eq. do 2 f_equal.
    + destruct low, trig; dlia.
    + destruct low, trig; dlia.
    + rewrite Z.testbit_odd, Z.shiftr_div_pow2 by lia. destruct low, trig; [replace (_ / _) with 5 by dlia|replace (_ / _) with 1 by dlia|replace (_ / _) with 4 by dlia|replace (_ / _) with 0 by dlia]; done.
    + rewrite Z.testbit_odd, Z.shiftr_div_pow2 by lia. destruct low, trig; [replace (_ / _) with 1 by dlia|replace (_ / _) with 0 by dlia|replace (_ / _) with 1 by dlia|replace (_ / _) with 0 by dlia]; done.
    + rewrite Z.testbit_odd, Z.shiftr_div_pow2 by lia. replace (_ / _) with 0 by (destruct low, trig; dlia). done.
    + dlia.
  - intros g Hg' Hne. by rewrite !lookup_insert_ne by lia.
Qed.

(** ** The firmware's table as a list of entries *)

Inductive madt_item := MIoapic (id addr gsi_base : Z) | MOverride (bus source gsi flags : Z) | MOther (type : Z) (payload : list Z).

Definition madt_bytes (e : madt_item) : list Z :=
  match e with
  | MIoapic id addr gsi_base => [1; 12; id; 0] ++ le_bytes 4 addr ++ le_bytes 4 gsi_base
  | MOverride bus source gsi flags => [2; 10; bus; source] ++ le_bytes 4 gsi ++ le_bytes 2 flags
  | MOther type payload => [type; 2 + Z.of_nat (length payload)] ++ payload
  end.

Definition madt_ok (e : madt_item) : Prop :=
  match e with
  | MIoapic _ addr _ => uint 4 addr
  | MOverride _ source gsi flags => 0 <= source < 16 /\ uint 4 gsi /\ uint 2 flags
  | MOther type _ => type <> MADT_TYPE_IOAPIC /\ type <> MADT_TYPE_SOURCE_OVERRIDE
  end.

Section madt.
Context (HHDM : Z) (m : mem).

Definition apply_item (st : ioapic) (e : madt_item) : ioapic :=
  match e with
  | MIoapic _ addr _ => Ioapic (u64 (addr + HHDM)) (g_irq_redirection_table st)
  | MOverride _ source gsi flags =>
      Ioapic (g_ioapic_base st) (<[Z.to_nat source := Redirection (u16 gsi) flags]> (g_irq_redirection_table st))
  | MOther _ _ => st
  end.

Lemma load_u16_ok p v : uint 2 v -> bytes_at m p (le_bytes 2 v) -> load_u16 m p = Ok v.
Proof. intros Hv Hb. unfold load_u16. rewrite (kread_ok _ _ (le_bytes 2 v) Hb : kread m p 2 = _). go. f_equal. by apply uint_value. Qed.

Lemma apply_item_table st e : length (g_irq_redirection_table st) = 16%nat -> length (g_irq_redirection_table (apply_item st e)) = 16%nat.
Proof. destruct e; cbn; [done|by rewrite length_insert|done]. Qed.

(** One turn of the loop. *)
Lemma madt_item_ok e ptr st : madt_ok e -> length (g_irq_redirection_table st) = 16%nat -> bytes_at m ptr (madt_bytes e) ->
  exists type, load m ptr = Ok type /\ load m (ptr + 1) = Ok (Z.of_nat (length (madt_bytes e))) /\
    madt_entry HHDM m ptr type st = Ok (apply_item st e).
Proof.
  intros Hok Hl Hb. unfold load. destruct e as [id addr gb|bus source gsi flags|type payload]; cbn [madt_bytes madt_ok] in *.
  - apply bytes_at_app in Hb as [Hh Hb]. apply bytes_at_app in Hb as [Ha _]. apply bytes_at_cons in Hh as [H0 Hh]. apply bytes_at_cons in Hh as [H1 _].
    exists 1. rewrite H0, H1. split; [done|]. split; [by rewrite !length_app, !le_bytes_length|]. unfold madt_entry. cbn [Z.eqb Pos.eqb MADT_TYPE_IOAPIC].
    by rewrite (load_u32_ok m (ptr + 4) addr Hok Ha).
  - destruct Hok as (Hs & Hg & Hf). apply bytes_at_app in Hb as [Hh Hb]. apply bytes_at_app in Hb as [Ha Hb]. rewrite le_bytes_length in Hb.
    apply bytes_at_cons in Hh as [H0 Hh]. apply bytes_at_cons in Hh as [H1 Hh]. apply bytes_at_cons in Hh as [_ Hh]. apply bytes_at_cons in Hh as [H3 _].
    exists 2. rewrite H0, H1. split; [done|]. split; [by rewrite !length_app, !le_bytes_length|]. unfold madt_entry.
    change (2 =? MADT_TYPE_IOAPIC) with false. change (2 =? MADT_TYPE_SOURCE_OVERRIDE) with true. cbv iota. unfold load.
    replace (ptr + 1 + 1 + 1) with (ptr + 3) in H3 by lia. run H3. rewrite (load_u32_ok m (ptr + 4) gsi Hg Ha). go.
    change (Z.of_nat (length [2; 10; bus; source])) with 4 in Hb. replace (ptr + 4 + Z.of_nat 4) with (ptr + 8) in Hb by lia.
    rewrite (load_u16_ok (ptr + 8) flags Hf Hb). go.
    destruct (lookup_lt_is_Some_2 (g_irq_redirection_table st) (Z.to_nat source) ltac:(lia)) as [r Hr]. by rewrite Hr.
  - destruct Hok as [Hn1 Hn2]. apply bytes_at_cons in Hb as [H0 Hb]. apply bytes_at_cons in Hb as [H1 _]. exists type. rewrite H0, H1.
    split; [done|]. split; [go; f_equal; cbn [length app]; lia|]. unfold madt_entry. rewrite (proj2 (Z.eqb_neq _ _) Hn1). by rewrite (proj2 (Z.eqb_neq _ _) Hn2).
Qed.

Lemma madt_bytes_long e : (2 <= length (madt_bytes e))%nat.
Proof. destruct e; cbn [madt_bytes]; rewrite !length_app; cbn [length]; lia. Qed.

Lemma madt_loop_ok es ptr st fuel : Forall madt_ok es -> length (g_irq_redirection_table st) = 16%nat ->
  bytes_at m ptr (concat (madt_bytes <$> es)) -> (length (concat (madt_bytes <$> es)) < fuel)%nat ->
  madt_loop HHDM fuel m (ptr + Z.of_nat (length (concat (madt_bytes <$> es)))) (ptr, st) = Ok (foldl apply_item st es).
Proof.
  revert ptr st fuel. induction es as [|e es IH]; intros ptr st fuel Hok Hl Hb Hf; (destruct fuel as [|fuel]; [lia|]).
  - unfold madt_loop. apply loop_exit. cbn [fmap list_fmap concat length]. rewrite (proj2 (Z.ltb_ge _ _)) by lia. done.
  - rewrite fmap_cons in *. cbn [concat] in *. apply bytes_at_app in Hb as [He Hb]. rewrite length_app in *. pose proof (madt_bytes_long e).
    apply Forall_cons in Hok as [Hoke Hok]. destruct (madt_item_ok e ptr st Hoke Hl He) as (type & E0 & E1 & E2).
    unfold madt_loop. erewrite loop_step; [|rewrite (proj2 (Z.ltb_lt _ _)) by lia; run E0; run E1; run E2; reflexivity].
    fold (madt_loop HHDM fuel m (ptr + Z.of_nat (length (madt_bytes e) + length (concat (madt_bytes <$> es))))).
    replace (ptr + Z.of_nat (length (madt_bytes e) + length (concat (madt_bytes <$> es))))
      with (ptr + Z.of_nat (length (madt_bytes e)) + Z.of_nat (length (concat (madt_bytes <$> es)))) by lia.
    rewrite IH; [done|done|by apply apply_item_table|done|lia].
Qed.

Lemma ioapic_init_ok root sig madt es st : acpi_lookup HHDM m root sig = Ok madt -> madt <> NULL -> Forall madt_ok es ->
  length (g_irq_redirection_table st) = 16%nat -> Z.of_nat (length (concat (madt_bytes <$> es))) < 2 ^ 31 ->
  bytes_at m (madt + 4) (le_bytes 4 (sizeof_madt + Z.of_nat (length (concat (madt_bytes <$> es))))) ->
  bytes_at m (madt + sizeof_madt) (concat (madt_bytes <$> es)) ->
  x86_64_ioapic_init HHDM m root sig st =
    let st' := foldl apply_item st es in if g_ioapic_base st' =? 0 then Panic else Ok st'.
Proof.
  intros E Hn Hok Hl Hlen Hb4 Hb. unfold x86_64_ioapic_init, sizeof_madt in *. run E. rewrite (proj2 (Z.eqb_neq _ _) Hn).
  set (n := length (concat (madt_bytes <$> es))) in *. rewrite (load_u32_ok m (madt + 4) (44 + Z.of_nat n)); [|unfold uint; lia|done]. go.
  replace (madt + (44 + Z.of_nat n)) with (madt + 44 + Z.of_nat n) by lia. rewrite (madt_loop_ok es); try done. fold n. lia.
Qed.

(** The override of a line: the last one in the table. *)
Definition override_of (irq : Z) (es : list madt_item) : option (Z * Z) :=
  foldl (fun o e => match e with MOverride _ source gsi flags => if source =? irq then Some (gsi, flags) else o | _ => o end) None es.

Lemma fold_table irq es st r0 : 0 <= irq < 16 -> Forall madt_ok es -> length (g_irq_redirection_table st) = 16%nat ->
  g_irq_redirection_table st !! Z.to_nat irq = Some r0 ->
  g_irq_redirection_table (foldl apply_item st es) !! Z.to_nat irq =
    Some (match override_of irq es with Some (gsi, flags) => Redirection (u16 gsi) flags | None => r0 end).
Proof.
  intros Hi Hok Hl Hr. unfold override_of.
  assert (forall o st, length (g_irq_redirection_table st) = 16%nat ->
    g_irq_redirection_table st !! Z.to_nat irq = Some (match o with Some (gsi, flags) => Redirection (u16 gsi) flags | None => r0 end) ->
    g_irq_redirection_table (foldl apply_item st es) !! Z.to_nat irq = Some (match
      foldl (fun o e => match e with MOverride _ source gsi flags => if source =? irq then Some (gsi, flags) else o | _ => o end) o es with
      Some (gsi, flags) => Redirection (u16 gsi) flags | None => r0 end)) as Hgen; [|by apply (Hgen None)].
  clear Hr st Hl. induction Hok as [|e es He _ IH]; intros o st Hl Hr; [done|]. cbn [foldl]. apply IH; [by apply apply_item_table|].
  destruct e as [| bus source gsi flags|]; cbn [apply_item g_irq_redirection_table] in *; try done. destruct He as [Hs _].
  destruct (Z.eqb_spec source irq) as [->|Hne]; [by rewrite list_lookup_insert_eq by lia|by rewrite list_lookup_insert_ne by lia].
Qed.

Definition low_polarity (flags : Z) (fallback : bool) : bool :=
  match Z.land flags 3 with 3 => true | 1 => false | _ => fallback end.
Definition level_triggered (flags : Z) (fallback : bool) : bool :=
  match Z.land flags 12 with 12 => true | 4 => false | _ => fallback end.
End madt.

(** C24: a legacy interrupt line is routed as the firmware says.  On any
    well-formed table with an I/O controller, [x86_64_ioapic_init] succeeds and
    afterwards each of the sixteen lines is mapped to the input that the last
    override of the line names, or to the input of its own number, with the
    polarity and trigger mode of the override where it gives them, the vector and
    processor asked for, unmasked; no other input changes. *)
Theorem legacy_irq_routed HHDM m root sig madt es irq lapic_id (lowp level : bool) vec d :
  acpi_lookup HHDM m root sig = Ok madt -> madt <> NULL -> Forall madt_ok es -> Z.of_nat (length (concat (madt_bytes <$> es))) < 2 ^ 31 ->
  bytes_at m (madt + 4) (le_bytes 4 (sizeof_madt + Z.of_nat (length (concat (madt_bytes <$> es))))) ->
  bytes_at m (madt + sizeof_madt) (concat (madt_bytes <$> es)) ->
  g_ioapic_base (foldl (apply_item HHDM) ioapic_start es) <> 0 ->
  0 <= irq < 16 -> 0 <= lapic_id < 256 -> 0 <= vec < 256 ->
  let '(gsi, flags) := default (irq, 0) (override_of irq es) in
  0 <= gsi < 120 ->
  exists st d', x86_64_ioapic_init HHDM m root sig ioapic_start = Ok st /\
    x86_64_ioapic_map_legacy_irq st irq lapic_id lowp level vec d = Ok d' /\
    route_of d' gsi = Some (Route vec 0 (low_polarity flags lowp) (level_triggered flags level) false lapic_id) /\
    (forall g, 0 <= g < 120 -> g <> gsi -> route_of d' g = route_of d g).
Proof.
  intros E Hn Hok Hlen Hb4 Hb Hbase Hi Hlp Hv.
  pose proof (ioapic_init_ok HHDM m root sig madt es ioapic_start E Hn Hok eq_refl Hlen Hb4 Hb) as E1. cbv zeta in E1. rewrite (proj2 (Z.eqb_neq _ _) Hbase) in E1.
  pose proof (fold_table HHDM irq es ioapic_start (Redirection irq 0) Hi Hok eq_refl) as Et.
  destruct (default (irq, 0) (override_of irq es)) as [gsi flags] eqn:Ed. intros Hg.
  assert (g_irq_redirection_table (foldl (apply_item HHDM) ioapic_start es) !! Z.to_nat irq = Some (Redirection gsi flags)) as Hr.
  { rewrite Et.
    - destruct (override_of irq es) as [[g f]|]; cbn in Ed; injection Ed as -> ->; [|done]. unfold u16. by rewrite Z.mod_small by lia.
    - unfold ioapic_start. cbn [g_irq_redirection_table]. rewrite list_lookup_fmap, lookup_seqZ_lt by lia. cbn. do 2 f_equal. lia. }
  exists (foldl (apply_item HHDM) ioapic_start es). eexists. split; [done|]. split.
  - unfold x86_64_ioapic_map_legacy_irq. rewrite (proj2 (Z.ltb_lt _ _)) by lia. run Hr. unfold u8. cbn [r_dest r_flags]. rewrite Z.mod_small by lia. reflexivity.
  - replace (low_polarity flags lowp) with (if Z.land flags 3 =? SO_FLAG_POLARITY_LOW then true else if Z.land flags 3 =? SO_FLAG_POLARITY_HIGH then false else lowp).
    + replace (level_triggered flags level) with (if Z.land flags 12 =? SO_TRIGGER_EDGE then false else if Z.land flags 12 =? SO_TRIGGER_LEVEL then true else level);
        [by apply map_gsi_routes|]. unfold level_triggered. by repeat case_match.
    + unfold low_polarity. by repeat case_match.
Qed.

(** *** Behaviours worth knowing *)

(** An entry of length 0 is parsed for ever. *)
Lemma madt_zero_length HHDM m ptr end_ st fuel type : m !! ptr = Some type -> m !! (ptr + 1) = Some 0 -> type <> 1 -> type <> 2 -> ptr < end_ ->
  madt_loop HHDM fuel m end_ (ptr, st) = NoFuel.
Proof.
  intros H0 H1 Hn1 Hn2 Hlt. unfold madt_loop. induction fuel as [|fuel IH]; [done|].
  rewrite (loop_step _ _ _ (ptr, st)); [exact IH|]. rewrite (proj2 (Z.ltb_lt _ _) Hlt). unfold load. run H0. run H1.
  unfold madt_entry, MADT_TYPE_IOAPIC, MADT_TYPE_SOURCE_OVERRIDE. rewrite (proj2 (Z.eqb_neq _ _) Hn1), (proj2 (Z.eqb_neq _ _) Hn2). go. by rewrite Z.add_0_r.
Qed.

(** An override of a line beyond the sixteen is written outside the table. *)
Lemma override_out_of_range HHDM m ptr st source gsi flags : length (g_irq_redirection_table st) = 16%nat -> 16 <= source ->
  load m (ptr + 3) = Ok source -> load_u32 m (ptr + 4) = Ok gsi -> load_u16 m (ptr + 8) = Ok flags ->
  madt_entry HHDM m ptr MADT_TYPE_SOURCE_OVERRIDE st = Fault.
Proof.
  intros Hl Hs E1 E2 E3. unfold madt_entry. change (MADT_TYPE_SOURCE_OVERRIDE =? MADT_TYPE_IOAPIC) with false.
  change (MADT_TYPE_SOURCE_OVERRIDE =? MADT_TYPE_SOURCE_OVERRIDE) with true. cbv iota. run E1. run E2. run E3.
  by rewrite lookup_ge_None_2 by lia.
Qed.

(** With several controllers all inputs are sought on the last one: the first
    input it serves is not looked at. *)
Lemma last_ioapic_wins HHDM st es id addr base base' : g_ioapic_base (foldl (apply_item HHDM) st (es ++ [MIoapic id addr base])) = u64 (addr + HHDM) /\
  foldl (apply_item HHDM) st (es ++ [MIoapic id addr base]) = foldl (apply_item HHDM) st (es ++ [MIoapic id addr base']).
Proof. rewrite !foldl_app. done. Qed.

(** ** pic.c *)

(** The mask registers of the two controllers, by port. *)
Definition PIC_DATA_MASTER : Z := 0x21.
Definition PIC_DATA_SLAVE : Z := 0xA1.

Definition x86_64_pic_disable (outb : Z -> Z -> gmap Z Z -> gmap Z Z) (ports : gmap Z Z) : gmap Z Z :=
  outb PIC_DATA_SLAVE 0xFF (outb PIC_DATA_MASTER 0xFF ports).

(** ** pit.c

    Channel 0 of the timer: the command 0x34 selects writing the low byte, then
    the high byte, of the reload value; a command of 0 latches the counter for
    reading. *)
Definition X86_64_PIT_BASE_FREQ : Z := 1193180.
Definition PIT_DATA_0 : Z := 0x40.
Definition PIT_CMD : Z := 0x43.

Inductive pit_phase := PitIdle | PitLow | PitHigh (low : Z).
Record pit := Pit { phase : pit_phase; reload : Z; latched : list Z; counter : Z }.

Definition x86_64_io_outb (port val : Z) (p : pit) : pit :=
  if port =? PIT_CMD then
    if val =? 0 then Pit (phase p) (reload p) (le_bytes 2 (counter p)) (counter p)
    else if val =? 0x34 then Pit PitLow (reload p) (latched p) (counter p) else p
  else if port =? PIT_DATA_0 then
    match phase p with
    | PitLow => Pit (PitHigh val) (reload p) (latched p) (counter p)
    | PitHigh low => let v := low + 256 * val in Pit PitIdle v (latched p) v
    | PitIdle => p
    end
  else p.

Definition x86_64_io_inb (port : Z) (p : pit) : Z * pit :=
  match latched p with
  | b :: bs => if port =? PIT_DATA_0 then (b, Pit (phase p) (reload p) bs (counter p)) else (0, p)
  | [] => (0, p)
  end.

Definition x86_64_pit_set_reload (reload_value : Z) (p : pit) : pit :=
  let p := x86_64_io_outb PIT_CMD 0x34 p in
  let p := x86_64_io_outb PIT_DATA_0 (u8 reload_value) p in
  x86_64_io_outb PIT_DATA_0 (u8 (Z.shiftr reload_value 8)) p.

Definition x86_64_pit_set_frequency (frequency : Z) (p : pit) : outcome pit :=
  if frequency =? 0 then Fault
  else
    let divisor := u16 (X86_64_PIT_BASE_FREQ / frequency) in
    let divisor := if frequency / 2 <? X86_64_PIT_BASE_FREQ mod frequency then u16 (divisor + 1) else divisor in
    Ok (x86_64_pit_set_reload divisor p).

Definition x86_64_pit_count (p : pit) : Z * pit :=
  let p := x86_64_io_outb PIT_CMD 0 p in
  let '(low, p) := x86_64_io_inb PIT_DATA_0 p in
  let '(high, p) := x86_64_io_inb PIT_DATA_0 p in
  (Z.lor (Z.shiftl high 8) low, p).

Lemma pit_set_reload_ok v p : 0 <= v < 2 ^ 16 -> reload (x86_64_pit_set_reload v p) = v /\ counter (x86_64_pit_set_reload v p) = v.
Proof.
  intros Hv. assert (u8 v + 256 * u8 (Z.shiftr v 8) = v) as E by (unfold u8; rewrite Z.shiftr_div_pow2 by lia; dlia).
  unfold x86_64_pit_set_reload, x86_64_io_outb. change (PIT_CMD =? PIT_CMD) with true. change (PIT_DATA_0 =? PIT_CMD) with false.
  change (PIT_DATA_0 =? PIT_DATA_0) with true. change (52 =? 0) with false. change (52 =? 52) with true. cbn [phase reload counter]. done.
Qed.

(** The count read back is the counter. *)
Lemma pit_count_ok p : 0 <= counter p < 2 ^ 16 -> (x86_64_pit_count p).1 = counter p.
Proof.
  intros Hc. unfold x86_64_pit_count, x86_64_io_outb. change (PIT_CMD =? PIT_CMD) with true. change (0 =? 0) with true. cbv iota.
  unfold x86_64_io_inb. cbn [latched le_bytes]. change (PIT_DATA_0 =? PIT_DATA_0) with true. cbn [latched fst].
  replace (counter p / 256 mod 256) with (Z.shiftr (counter p) 8) by (rewrite Z.shiftr_div_pow2 by lia; dlia).
  apply (halves_lor 8); lia.
Qed.

(** The timer's frequency.  For every frequency the 16-bit divisor can
    express, the reload value is the divisor nearest to the quotient. *)
Theorem pit_frequency_nearest f p : 19 <= f <= X86_64_PIT_BASE_FREQ ->
  exists p', x86_64_pit_set_frequency f p = Ok p' /\ 0 < reload p' < 2 ^ 16 /\
    2 * Z.abs (reload p' * f - X86_64_PIT_BASE_FREQ) <= f.
Proof.
  unfold X86_64_PIT_BASE_FREQ. intros Hf. unfold x86_64_pit_set_frequency, X86_64_PIT_BASE_FREQ. rewrite (proj2 (Z.eqb_neq f 0)) by lia.
  pose proof (Z.div_mod 1193180 f ltac:(lia)) as Hd. pose proof (Z.mod_pos_bound 1193180 f ltac:(lia)) as Hm.
  set (q := 1193180 / f) in *. set (r := 1193180 mod f) in *.
  assert (1 <= q) as Hq1 by nia. assert (q <= 62798) as Hq2 by nia. unfold u16. rewrite (Z.mod_small q) by lia.
  pose proof (Z.div_mod f 2 ltac:(lia)). pose proof (Z.mod_pos_bound f 2 ltac:(lia)).
  destruct (Z.ltb_spec (f / 2) r); (eexists; split; [reflexivity|]).
  - rewrite (Z.mod_small (q + 1)) by lia. destruct (pit_set_reload_ok (q + 1) p ltac:(lia)) as [-> _]. split; [lia|].
    rewrite Z.abs_eq by nia. nia.
  - destruct (pit_set_reload_ok q p ltac:(lia)) as [-> _]. split; [lia|]. rewrite Z.abs_neq by nia. nia.
Qed.

(** Below 19 Hz the divisor is cut to 16 bits: 18 Hz programs 752, that is
    about 1587 Hz. *)
Lemma pit_frequency_truncated p : reload <$> x86_64_pit_set_frequency 18 p = Ok 752.
Proof. unfold x86_64_pit_set_frequency. destruct p; reflexivity. Qed.

(** ** lapic.c *)

Definition REG_SPURIOUS : Z := 0xF0.
Definition REG_EOI : Z := 0xB0.
Definition REG_ICR0 : Z := 0x300.
Definition REG_ICR1 : Z := 0x310.
Definition REG_TIMER_LVT : Z := 0x320.
Definition REG_TIMER_DIV : Z := 0x3E0.
Definition REG_TIMER_INITIAL_COUNT : Z := 0x380.
Definition ONE_SHOOT : Z := Z.shiftl 0 17.
Definition MASK : Z := Z.shiftl 1 16.

(** The globals and the registers of the controller. *)
Record lapic := Lapic { g_lapic_base : Z; g_lapic_timer_freq : Z; lregs : gmap Z Z }.

Definition lapic_write (reg data : Z) (l : lapic) : lapic :=
  Lapic (g_lapic_base l) (g_lapic_timer_freq l) (<[reg := u32 data]> (lregs l)).

Definition arch_timer_stop (l : lapic) : lapic := lapic_write REG_TIMER_INITIAL_COUNT 0 (lapic_write REG_TIMER_LVT MASK l).

Definition arch_timer_oneshoot (irq us : Z) (l : lapic) : lapic :=
  let l := lapic_write REG_TIMER_LVT MASK l in
  let l := lapic_write REG_TIMER_LVT (Z.lor ONE_SHOOT (u32 (32 + irq))) l in
  let l := lapic_write REG_TIMER_DIV 0 l in
  lapic_write REG_TIMER_INITIAL_COUNT (u64 (us * g_lapic_timer_freq l) / 1000000) l.

Definition x86_64_lapic_ipi (lapic_id vec : Z) (l : lapic) : lapic := lapic_write REG_ICR0 vec (lapic_write REG_ICR1 (u32 (Z.shiftl lapic_id 24)) l).

Section calibration.
(** The readings of the other timer before and after this one counts down from
    [n]. *)
Context (HHDM : Z) (counts : Z -> Z * Z).

Definition UINT16_MAX : Z := 65535.

(** The loop, from [lapic_ticks] on. *)
Fixpoint calibrate (fuel : nat) (lapic_ticks : Z) (l : lapic) : outcome lapic :=
  match fuel with
  | O => NoFuel
  | S fuel =>
      let l := lapic_write REG_TIMER_LVT MASK l in
      let l := lapic_write REG_TIMER_INITIAL_COUNT lapic_ticks l in
      let '(pit_start, pit_end) := counts (u32 lapic_ticks) in
      let l := lapic_write REG_TIMER_LVT MASK l in
      let pit_delta := u16 (pit_start - pit_end) in
      if pit_delta <? UINT16_MAX / 4 then calibrate fuel (u64 (lapic_ticks * 2)) l
      else Ok (Lapic (g_lapic_base l) (u64 (lapic_ticks * X86_64_PIT_BASE_FREQ) / pit_delta) (lregs l))
  end.

Definition x86_64_lapic_init (fuel : nat) (r : msrs) (l : lapic) : outcome lapic :=
  v ← x86_64_msr_read r X86_64_MSR_APIC_BASE;
  let l := Lapic (u64 (Z.land v 0xFFFFFFFFFF000 + HHDM)) (g_lapic_timer_freq l) (lregs l) in
  let l := lapic_write REG_SPURIOUS (Z.lor (Z.shiftl 1 8) 0xFF) l in
  if g_lapic_timer_freq l =? 0 then calibrate fuel 8 (lapic_write REG_TIMER_DIV 0 l) else Ok l.

(** The true frequency is [F]: counting down from [n] takes [e] ticks of the
    other timer, up to one, and its counter goes down by [e]. *)
Definition counts_ok (F : Z) : Prop := forall n, 0 < n < 2 ^ 32 -> exists e, 0 <= e /\
  Z.abs (e * F - n * X86_64_PIT_BASE_FREQ) <= F /\ (e < UINT16_MAX -> u16 ((counts n).1 - (counts n).2) = e).

Definition accurate (F f : Z) : Prop := 16383 * Z.abs (f - F) <= F + 16383.

Lemma quotient_accurate F n e : 0 < F -> 0 < n -> 16383 <= e -> Z.abs (e * F - n * X86_64_PIT_BASE_FREQ) <= F ->
  accurate F (n * X86_64_PIT_BASE_FREQ / e).
Proof.
  unfold accurate. intros HF Hn He Ha. set (nb := n * X86_64_PIT_BASE_FREQ) in *. pose proof (Z.div_mod nb e ltac:(lia)).
  pose proof (Z.mod_pos_bound nb e ltac:(lia)). set (q := nb / e) in *. set (r := nb mod e) in *.
  destruct (Z.le_gt_cases F q).
  - rewrite Z.abs_eq by lia. assert (e * (q - F) <= F) by lia. nia.
  - rewrite Z.abs_neq by lia. assert (e * (F - q) <= F + r) by lia. assert (e * (F - q - 1) <= F) by lia. nia.
Qed.

Lemma calibrate_ok F fuel n l : counts_ok F -> 0 < F <= 10 ^ 10 -> 0 < n -> n * X86_64_PIT_BASE_FREQ <= 32768 * F ->
  16384 * F <= n * 2 ^ Z.of_nat fuel * X86_64_PIT_BASE_FREQ ->
  exists l', calibrate (S fuel) n l = Ok l' /\ accurate F (g_lapic_timer_freq l') /\ g_lapic_base l' = g_lapic_base l.
Proof.
  intros Hc HF. revert n l. induction fuel as [|fuel IH]; intros n l Hn Hub Hlb; unfold X86_64_PIT_BASE_FREQ in *;
    assert (n < 2 ^ 32) as Hn32 by lia; destruct (Hc n ltac:(lia)) as (e & He0 & He & Hd); unfold X86_64_PIT_BASE_FREQ, UINT16_MAX in *;
    assert (e < 65535) as Hlt by nia; specialize (Hd Hlt); remember (S fuel) as fuel1 eqn:Ef || idtac; cbn [calibrate]; unfold u32;
    rewrite (Z.mod_small n) by lia; destruct (counts n) as [s f]; cbn [fst snd] in Hd; rewrite Hd; change (UINT16_MAX / 4) with 16383;
    (destruct (Z.ltb_spec e 16383); [|eexists; split; [reflexivity|]; split; [|reflexivity]; cbn [g_lapic_timer_freq];
      rewrite u64_small by (unfold X86_64_PIT_BASE_FREQ; lia); by apply quotient_accurate; [lia|lia|lia|]]).
  - exfalso. change (2 ^ Z.of_nat 0) with 1 in Hlb. nia.
  - subst fuel1. rewrite u64_small by lia. destruct (IH (n * 2) (lapic_write REG_TIMER_LVT MASK (lapic_write REG_TIMER_INITIAL_COUNT n
      (lapic_write REG_TIMER_LVT MASK l)))) as (l' & E & Ha & Hb); [lia|nia| |by exists l'].
    rewrite Nat2Z.inj_succ, Z.pow_succ_r in Hlb by lia. lia.
Qed.

End calibration.

(** ** Concrete runs *)

(** A controller, the usual override of the timer line and of line 9. *)
Definition ex_madt : list madt_item :=
  [MOther 0 [0; 0; 1; 0; 0; 0]; MIoapic 1 0xFEC00000 0; MOverride 0 0 2 0; MOverride 0 9 20 13].
Definition ex_apic : list Z := [65; 80; 73; 67].
Definition ex_firmware : mem :=
  write_bytes (write_bytes (write_bytes (write_bytes ∅ 0x1004 (le_bytes 4 40)) 0x1024 (le_bytes 4 0x2000)) 0x5000 ex_apic)
    0x2000 (ex_apic ++ le_bytes 4 (sizeof_madt + Z.of_nat (length (concat (madt_bytes <$> ex_madt)))) ++ replicate 36 0 ++ concat (madt_bytes <$> ex_madt)).

Lemma legacy_irq_routed_witness : exists st d',
  x86_64_ioapic_init 0 ex_firmware (Some (0x1000, false)) 0x5000 ioapic_start = Ok st /\
  x86_64_ioapic_map_legacy_irq st 9 0 true false 41 (IoapicDev 0 ∅) = Ok d' /\
  route_of d' 20 = Some (Route 41 0 false true false 0).
Proof.
  destruct (legacy_irq_routed 0 ex_firmware (Some (0x1000, false)) 0x5000 0x2000 ex_madt 9 0 true false 41 (IoapicDev 0 ∅))
    as (st & d' & E1 & E2 & E3 & _).
  - vm_compute. reflexivity.
  - discriminate.
  - unfold ex_madt. do 4 (apply Forall_cons; split; [unfold madt_ok, uint, MADT_TYPE_IOAPIC, MADT_TYPE_SOURCE_OVERRIDE; lia|]). apply Forall_nil_2.
  - vm_compute. reflexivity.
  - apply bytes_dec. vm_compute. reflexivity.
  - apply bytes_dec. vm_compute. reflexivity.
  - discriminate.
  - lia.
  - lia.
  - lia.
  - lia.
  - exists st, d'. split; [exact E1|split; [exact E2|exact E3]].
Defined.

Lemma pit_frequency_nearest_witness : exists p', x86_64_pit_set_frequency 1000 (Pit PitIdle 0 [] 0) = Ok p' /\
  2 * Z.abs (reload p' * 1000 - X86_64_PIT_BASE_FREQ) <= 1000.
Proof.
  destruct (pit_frequency_nearest 1000 (Pit PitIdle 0 [] 0)) as (p' & E & _ & Hn); [unfold X86_64_PIT_BASE_FREQ; lia|].
  exists p'. split; [exact E|exact Hn].
Defined.

(** A timer of 1 GHz beside an ideal one. *)
Definition ex_counts (n : Z) : Z * Z := (65535, 65535 - n * X86_64_PIT_BASE_FREQ / 10 ^ 9).

Lemma ex_counts_ok : counts_ok ex_counts (10 ^ 9).
Proof.
  intros n Hn. exists (n * X86_64_PIT_BASE_FREQ / 10 ^ 9). pose proof (Z.div_mod (n * X86_64_PIT_BASE_FREQ) (10 ^ 9) ltac:(lia)).
  pose proof (Z.mod_pos_bound (n * X86_64_PIT_BASE_FREQ) (10 ^ 9) ltac:(lia)). unfold ex_counts, UINT16_MAX, u16, X86_64_PIT_BASE_FREQ in *.
  split; [apply Z.div_pos; lia|]. split; [lia|]. intros He. cbn [fst snd]. rewrite Z.mod_small; [lia|].
  assert (0 <= n * 1193180 / 10 ^ 9) by (apply Z.div_pos; lia). lia.
Qed.

