(* ===== verification/Smp.v ===== *)
(** * Start of the processors (kernel/src/sys/smp.c)

    The boot loader leaves the other processors waiting for an address to jump
    to; [smp_init] gives them [core_init] and runs it itself.  The processors then
    go through [core_init] in any interleaving: its first part under a spin lock,
    one step here, then the part that is not locked, of which the accesses to the
    shared descriptor table are single steps. *)
From stdpp Require Import base gmap list fin_maps relations.
From Stdlib Require Import ZArith Lia.
From S2P Require Import Prelude Interfaces Kmem PageTables Vmm Sched Proc X86.

(** What the boot loader says of a processor; [goto_set]: it has been given
    [core_init]. *)
Record limine_mp_info := MpInfo { extra_argument : Z; mp_lapic_id : Z; goto_set : bool }.

(** [smp_cpu_core_t]; the list below holds the structures with their addresses. *)
Record cpu_core := CpuCore { core_id : Z; core_idle_thread : Z; core_lapic_id : Z }.
Definition sizeof_cpu_core : Z := 56.

(** The loop of [smp_init] from entry [i] on: the entries with their numbers,
    and the entry of the processor that runs it. *)
Fixpoint mp_loop (i : nat) (bsp_lapic_id : Z) (cpus : list limine_mp_info) (bsp : option nat) : list limine_mp_info * option nat :=
  match cpus with
  | [] => ([], bsp)
  | c :: cpus =>
      let is_bsp := mp_lapic_id c =? bsp_lapic_id in
      let '(rest, b) := mp_loop (S i) bsp_lapic_id cpus (if is_bsp then Some i else bsp) in
      (MpInfo (Z.of_nat i) (mp_lapic_id c) (if is_bsp then goto_set c else true) :: rest, b)
  end.

(** Where a processor is in [core_init]; [CReady]: in the idle loop, with the
    base its task register holds. *)
Inductive cphase := COff | CSpin | CLocked | CUnlocked | CAlloc (tss : Z) | CWritten (tss : Z) | CReady (tr : Z) | CFaulted.

Record smp (M K V : Type) := Smp {
  sps : psys M K V; phases : list cphase; slock : bool; g_smp_cpu_core_list : list (Z * cpu_core);
  g_cores_initialized : Z; g_smp_initialized : bool; gdt_tss : Z * bool
}.
Arguments Smp {M K V}. Arguments sps {M K V}. Arguments phases {M K V}. Arguments slock {M K V}.
Arguments g_smp_cpu_core_list {M K V}. Arguments g_cores_initialized {M K V}. Arguments g_smp_initialized {M K V}. Arguments gdt_tss {M K V}.

Section smp.
Context {M K V : Type} `{PageMap M} `{ObjectAllocator K} `{Files V} (HHDM : Z).
Context (fpu_area_size : Z) (fpu_image : list Z) (userspace_init thread_idle_func : Z).
Context (cpus : list limine_mp_info).
Implicit Types st : smp M K V.

Definition set_phase (i : nat) (p : cphase) st : smp M K V :=
  Smp (sps st) (<[i := p]> (phases st)) (slock st) (g_smp_cpu_core_list st) (g_cores_initialized st) (g_smp_initialized st) (gdt_tss st).
Definition set_slock (b : bool) st : smp M K V :=
  Smp (sps st) (phases st) b (g_smp_cpu_core_list st) (g_cores_initialized st) (g_smp_initialized st) (gdt_tss st).
Definition set_gdt (d : Z * bool) st : smp M K V :=
  Smp (sps st) (phases st) (slock st) (g_smp_cpu_core_list st) (g_cores_initialized st) (g_smp_initialized st) d.
Definition set_sps (p : psys M K V) st : smp M K V :=
  Smp p (phases st) (slock st) (g_smp_cpu_core_list st) (g_cores_initialized st) (g_smp_initialized st) (gdt_tss st).

(** [idle_thread->assigned_core = cpu_core] *)
Definition assign_core (t core : Z) (ps : psys M K V) : outcome (psys M K V) :=
  x ← deref (pthreads ps !! t);
  Ok (set_pthreads (<[t := NewThread (t_id x) (context x) (set_core core (base_thread x))]> (pthreads ps)) ps).

(** [core_init] between acquiring and releasing the lock. *)
Definition core_locked (g_idle_proc : Z) (info : limine_mp_info) st : outcome (smp M K V) :=
  '(idle, ps) ← thread_new HHDM fpu_area_size fpu_image userspace_init g_idle_proc thread_idle_func None (sps st);
  '(core, k) ← obj_alloc sizeof_cpu_core (objs (pv ps));
  ps ← assign_core idle core (set_pv (set_objs k (pv ps)) ps);
  let n := u64 (g_cores_initialized st + 1) in
  Ok (Smp ps (phases st) (slock st)
        (g_smp_cpu_core_list st ++ [(core, CpuCore (u32 (extra_argument info)) idle (u8 (mp_lapic_id info)))]) n (if n =? Z.of_nat (length cpus) then true else g_smp_initialized st) (gdt_tss st)).

(** One step of processor [i]. *)
Definition core_step (g_idle_proc : Z) (i : nat) st : outcome (smp M K V) :=
  p ← deref (phases st !! i);
  match p with
  | COff | CReady _ | CFaulted => Fault
  | CSpin => if slock st then Ok st else Ok (set_phase i CLocked (set_slock true st))
  | CLocked =>
      info ← deref (cpus !! i);
      st ← core_locked g_idle_proc info st;
      Ok (set_phase i CUnlocked (set_slock false st))
  | CUnlocked =>
      '(tss, k) ← obj_alloc sizeof_tss (objs (pv (sps st)));
      Ok (set_phase i (CAlloc tss) (set_sps (set_pv (set_objs k (pv (sps st))) (sps st)) st))
  | CAlloc tss => Ok (set_phase i (CWritten tss) (set_gdt (tss, false) st))
  | CWritten _ =>
      let '(base, busy) := gdt_tss st in
      if (busy : bool) then Ok (set_phase i CFaulted st) else Ok (set_phase i (CReady base) (set_gdt (base, true) st))
  end.
End smp.

(** [smp_init] up to the call of [core_init]: the processors that were given an
    address spin on the lock, and so does the one that runs this. *)
Definition smp_init {M K V : Type} `{PageMap M} `{ObjectAllocator K} (g_vmm_kernel_addr_space : Z)
    (response : option (Z * list limine_mp_info)) (ps : psys M K V) : outcome (Z * list limine_mp_info * smp M K V) :=
  match response with
  | None => Panic
  | Some (bsp_lapic_id, cpus) =>
      '(idle_proc, ps) ← proc_new g_vmm_kernel_addr_space PROC_KERNEL ps;
      let '(infos, bsp) := mp_loop 0 bsp_lapic_id cpus None in
      b ← deref bsp;
      Ok (idle_proc, infos,
          Smp ps (imap (fun i c => if bool_decide (i = b) || goto_set c then CSpin else COff) infos) false [] 0 false (0, false))
  end.

(** ** What holds in every interleaving *)

Definition passed (p : cphase) : bool :=
  match p with COff | CSpin | CLocked => false | _ => true end.

Lemma mp_loop_spec cpus i bsp_id b : let r := mp_loop i bsp_id cpus b in
  length r.1 = length cpus /\
  (forall j c, r.1 !! j = Some c -> extra_argument c = Z.of_nat (i + j) /\ mp_lapic_id <$> cpus !! j = Some (mp_lapic_id c) /\
     (mp_lapic_id c <> bsp_id -> goto_set c = true)) /\
  (forall k, r.2 = Some k -> b = Some k \/ exists j, k = (i + j)%nat /\ mp_lapic_id <$> cpus !! j = Some bsp_id).
Proof.
  revert i b. induction cpus as [|c cpus IH]; intros i b; [cbn; split_and!; [done|done|tauto]|]. cbn [mp_loop].
  specialize (IH (S i) (if mp_lapic_id c =? bsp_id then Some i else b)). destruct (mp_loop _ _ _ _) as [rest k]. cbn [fst snd length] in *.
  destruct IH as (Hl & Hj & Hk). split_and!.
  - by rewrite Hl.
  - intros [|j] x Hx; cbn in Hx |- *.
    + injection Hx as <-. cbn. split; [f_equal; lia|]. split; [done|]. intros Hne. by rewrite (proj2 (Z.eqb_neq _ _) Hne).
    + destruct (Hj j x Hx) as (He & Hm & Hg). rewrite He. split; [f_equal; lia|done].
  - intros k0 Hk0. destruct (Hk k0 Hk0) as [E|(j & -> & Hb)]; [|right; exists (S j); split; [lia|done]].
    destruct (Z.eqb_spec (mp_lapic_id c) bsp_id) as [Eid|]; [injection E as <-; right; exists 0%nat; split; [lia|cbn; by rewrite Eid]|by left].
Qed.

Section starts.
Context {M K V : Type} `{PageMap M} `{ObjectAllocator K} `{Files V} (HHDM : Z).
Context (fpu_area_size : Z) (fpu_image : list Z) (userspace_init thread_idle_func idle_proc : Z) (cpus : list limine_mp_info).
Implicit Types st : smp M K V.

Definition smp_step st st' : Prop :=
  exists i, core_step HHDM fpu_area_size fpu_image userspace_init thread_idle_func cpus idle_proc i st = Ok st'.

Definition ids st : list Z := (fun c => core_id c.2) <$> g_smp_cpu_core_list st.

Record smp_ok st : Prop := {
  so_len : length (phases st) = length cpus;
  so_one i j : phases st !! i = Some CLocked -> phases st !! j = Some CLocked -> i = j;
  so_lock : slock st = true <-> exists i, phases st !! i = Some CLocked;
  so_nodup : NoDup (ids st);
  so_ids x : x ∈ ids st <-> exists i p, x = Z.of_nat i /\ phases st !! i = Some p /\ passed p = true;
  so_count : g_cores_initialized st = Z.of_nat (length (ids st));
  so_flag : g_smp_initialized st = true <-> length (ids st) = length cpus;
}.

Context (Hcpus : forall i c, cpus !! i = Some c -> extra_argument c = Z.of_nat i) (Hmany : Z.of_nat (length cpus) < 2 ^ 32).

Lemma ids_bound st : smp_ok st -> ids st ⊆+ Z.of_nat <$> seq 0 (length cpus).
Proof.
  intros Hok. apply NoDup_submseteq; [apply (so_nodup _ Hok)|]. intros x (i & p & -> & Hp & _)%(so_ids _ Hok).
  apply list_elem_of_fmap. exists i. split; [done|]. apply elem_of_seq. apply lookup_lt_Some in Hp. rewrite (so_len _ Hok) in Hp. lia.
Qed.

(** The flag is set exactly when every processor is past the locked part. *)
Lemma flag_all st : smp_ok st -> g_smp_initialized st = true <-> (forall i p, phases st !! i = Some p -> passed p = true).
Proof.
  intros Hok. pose proof (ids_bound st Hok) as Hsub. rewrite (so_flag _ Hok). split.
  - intros Hl i p Hp. assert (ids st ≡ₚ Z.of_nat <$> seq 0 (length cpus)) as Hperm.
    { apply submseteq_length_Permutation; [done|]. by rewrite length_fmap, length_seq, Hl. }
    assert (Z.of_nat i ∈ ids st) as (j & q & Ej & Hq & Hpass)%(so_ids _ Hok).
    { rewrite Hperm. apply list_elem_of_fmap. exists i. split; [done|]. apply elem_of_seq. apply lookup_lt_Some in Hp. rewrite (so_len _ Hok) in Hp. lia. }
    assert (i = j) as <- by lia. congruence.
  - intros Hall. apply submseteq_length in Hsub. rewrite length_fmap, length_seq in Hsub.
    assert (Z.of_nat <$> seq 0 (length cpus) ⊆+ ids st) as Hsup.
    { apply NoDup_submseteq; [apply (NoDup_fmap_2 _), NoDup_seq|]. intros x (i & -> & Hi)%list_elem_of_fmap. apply elem_of_seq in Hi.
      destruct (lookup_lt_is_Some_2 (phases st) i) as [p Hp]; [rewrite (so_len _ Hok); lia|]. apply (so_ids _ Hok). exists i, p. eauto. }
    apply submseteq_length in Hsup. rewrite length_fmap, length_seq in Hsup. lia.
Qed.

(** A processor moves between phases on the same side of the lock. *)
Lemma smp_ok_phase st st' i p q : smp_ok st -> phases st !! i = Some p -> phases st' = <[i := q]> (phases st) ->
  passed p = passed q -> p <> CLocked -> q <> CLocked -> slock st' = slock st -> g_smp_cpu_core_list st' = g_smp_cpu_core_list st ->
  g_cores_initialized st' = g_cores_initialized st -> g_smp_initialized st' = g_smp_initialized st -> smp_ok st'.
Proof.
  intros Hok Hp Eph Hpass Hpl Hql El Elist Ec Ef. pose proof (lookup_lt_Some _ _ _ Hp) as Hlt.
  assert (forall j x, x = CLocked -> phases st' !! j = Some x <-> phases st !! j = Some x) as Hlk.
  { intros j x ->. rewrite Eph. destruct (decide (i = j)) as [<-|]; [|by rewrite list_lookup_insert_ne].
    rewrite list_lookup_insert_eq by done. rewrite Hp. split; intros E; by injection E. }
  assert (ids st' = ids st) as Eids by (unfold ids; by rewrite Elist).
  split; rewrite ?Eids, ?El, ?Ec, ?Ef.
  - rewrite Eph, length_insert. apply (so_len _ Hok).
  - intros j k Hj Hk. apply (Hlk _ _ eq_refl) in Hj, Hk. by apply (so_one _ Hok).
  - rewrite (so_lock _ Hok). split; intros [j Hj]; exists j; by apply (Hlk _ _ eq_refl).
  - apply (so_nodup _ Hok).
  - intros x. rewrite (so_ids _ Hok). rewrite Eph. split; intros (j & r & -> & Hr & Hps).
    + destruct (decide (i = j)) as [<-|]; [|exists j, r; by rewrite list_lookup_insert_ne].
      exists i, q. rewrite list_lookup_insert_eq by done. split_and!; [done|done|]. rewrite Hp in Hr. injection Hr as <-. congruence.
    + destruct (decide (i = j)) as [<-|]; [|exists j, r; by rewrite list_lookup_insert_ne in Hr].
      rewrite list_lookup_insert_eq in Hr by done. injection Hr as <-. exists i, p. split_and!; [done|done|congruence].
  - apply (so_count _ Hok).
  - apply (so_flag _ Hok).
Qed.

Lemma smp_ok_acquire st i : smp_ok st -> phases st !! i = Some CSpin -> slock st = false -> smp_ok (set_phase i CLocked (set_slock true st)).
Proof.
  intros Hok Hp Hl. pose proof (lookup_lt_Some _ _ _ Hp) as Hlt.
  assert (forall j, phases st !! j <> Some CLocked) as Hno.
  { intros j Hj. assert (slock st = true) as E by (apply (so_lock _ Hok); by exists j). by rewrite Hl in E. }
  destruct Hok as [Hlen Hone Hlock Hnd Hids Hcnt Hflag]. split; cbn [set_phase set_slock phases slock g_smp_cpu_core_list g_cores_initialized g_smp_initialized ids] in *.
  - by rewrite length_insert.
  - assert (forall j, <[i := CLocked]> (phases st) !! j = Some CLocked -> j = i) as Hi.
    { intros j Hj. destruct (decide (i = j)) as [|Hne]; [done|]. rewrite list_lookup_insert_ne in Hj by done. by apply Hno in Hj. }
    intros j k Hj%Hi Hk%Hi. congruence.
  - split; [intros _; exists i; by apply list_lookup_insert_eq|done].
  - done.
  - intros x. change (x ∈ ids st <-> exists j p, x = Z.of_nat j /\ <[i := CLocked]> (phases st) !! j = Some p /\ passed p = true). rewrite Hids.
    split; intros (j & r & -> & Hr & Hps); destruct (decide (i = j)) as [<-|Hne].
    + rewrite Hp in Hr. by injection Hr as <-.
    + exists j, r. by rewrite list_lookup_insert_ne.
    + rewrite list_lookup_insert_eq in Hr by done. by injection Hr as <-.
    + rewrite list_lookup_insert_ne in Hr by done. by exists j, r.
  - done.
  - done.
Qed.

(** The locked part: the processor enters the list, and the lock is free. *)
Lemma smp_ok_release st i info st' : smp_ok st -> phases st !! i = Some CLocked -> cpus !! i = Some info ->
  core_locked HHDM fpu_area_size fpu_image userspace_init thread_idle_func cpus idle_proc info st = Ok st' ->
  smp_ok (set_phase i CUnlocked (set_slock false st')).
Proof using Hcpus Hmany.
  intros Hok Hp Hi E. pose proof (lookup_lt_Some _ _ _ Hp) as Hlt. pose proof (lookup_lt_Some _ _ _ Hi) as Hlc.
  pose proof (submseteq_length _ _ (ids_bound st Hok)) as Hle. rewrite length_fmap, length_seq in Hle.
  unfold core_locked in E. apply bind_Ok in E as ([idle ps] & _ & E). apply bind_Ok in E as ([core k] & _ & E).
  apply bind_Ok in E as (ps' & _ & E). injection E as <-.
  assert (Z.of_nat i ∉ ids st) as Hfresh.
  { intros (j & p & Ej & Hj & Hps)%(so_ids _ Hok). assert (i = j) as <- by lia. rewrite Hp in Hj. by injection Hj as <-. }
  destruct Hok as [Hlen Hone Hlock Hnd Hids Hcnt Hflag].
  match goal with |- smp_ok ?s => assert (ids s = ids st ++ [Z.of_nat i]) as Eids end.
  { unfold ids. cbn [g_smp_cpu_core_list set_phase set_slock]. rewrite fmap_app. cbn [fmap list_fmap snd core_id].
    rewrite (Hcpus i info Hi). unfold u32. by rewrite Z.mod_small by lia. }
  assert (length (ids st) < length cpus)%nat as Hroom.
  { assert (Z.of_nat i :: ids st ⊆+ Z.of_nat <$> seq 0 (length cpus)) as Hs%submseteq_length; [|rewrite length_fmap, length_seq in Hs; cbn in Hs; lia].
    apply NoDup_submseteq; [by apply NoDup_cons|]. intros x [->|Hx]%elem_of_cons.
    - apply list_elem_of_fmap. exists i. split; [done|]. apply elem_of_seq. lia.
    - apply Hids in Hx as (j & p & -> & Hj%lookup_lt_Some & _). apply list_elem_of_fmap. exists j. split; [done|]. apply elem_of_seq. lia. }
  split; rewrite ?Eids; cbn [set_phase set_slock phases slock g_cores_initialized g_smp_initialized].
  - by rewrite length_insert.
  - intros j j' Hj _. destruct (decide (i = j)) as [<-|Hnj]; [rewrite list_lookup_insert_eq in Hj by done; done|].
    rewrite list_lookup_insert_ne in Hj by done. by destruct (Hnj (Hone i j Hp Hj)).
  - split; [done|]. intros [j Hj]. destruct (decide (i = j)) as [<-|Hnj]; [by rewrite list_lookup_insert_eq in Hj by done|].
    rewrite list_lookup_insert_ne in Hj by done. by destruct (Hnj (Hone i j Hp Hj)).
  - apply NoDup_app. split_and!; [done| |apply NoDup_singleton]. intros x Hx ->%list_elem_of_singleton. done.
  - intros x. rewrite elem_of_app, list_elem_of_singleton, Hids. split.
    + intros [(j & r & -> & Hr & Hps)|Ex].
      * exists j, r. split_and!; [done| |done]. destruct (decide (i = j)) as [<-|]; [rewrite Hp in Hr; by injection Hr as <-|by rewrite list_lookup_insert_ne].
      * subst x. exists i, CUnlocked. rewrite list_lookup_insert_eq by done. done.
    + intros (j & r & -> & Hr & Hps). destruct (decide (i = j)) as [<-|]; [by right|]. left. rewrite list_lookup_insert_ne in Hr by done. by exists j, r.
  - rewrite length_app, Hcnt. cbn [length]. rewrite u64_small by lia. lia.
  - rewrite length_app, Hcnt. cbn [length]. rewrite u64_small by lia. destruct (Z.eqb_spec (Z.of_nat (length (ids st)) + 1) (Z.of_nat (length cpus))).
    + split; [lia|done].
    + rewrite Hflag. lia.
Qed.

Lemma smp_step_ok st st' : smp_step st st' -> smp_ok st -> smp_ok st'.
Proof using Hcpus Hmany.
  intros [i E] Hok. unfold core_step in E. destruct (phases st !! i) as [p|] eqn:Hp; [|done]. cbn [deref mbind outcome_bind] in E.
  destruct p as [| | | |tss|tss|tr|]; try done.
  - destruct (slock st) eqn:El; injection E as <-; [done|by apply smp_ok_acquire].
  - destruct (cpus !! i) as [info|] eqn:Hi; [|done]. cbn [deref mbind outcome_bind] in E. apply bind_Ok in E as (st1 & E1 & E). injection E as <-.
    by apply (smp_ok_release st i info).
  - apply bind_Ok in E as ([tss k] & _ & E). injection E as <-. by apply (smp_ok_phase st _ i CUnlocked (CAlloc tss)).
  - injection E as <-. by apply (smp_ok_phase st _ i (CAlloc tss) (CWritten tss)).
  - destruct (gdt_tss st) as [base []]; injection E as <-; [by apply (smp_ok_phase st _ i (CWritten tss) CFaulted)|].
    by apply (smp_ok_phase st _ i (CWritten tss) (CReady base)).
Qed.

Lemma smp_reach_ok st st' : rtc smp_step st st' -> smp_ok st -> smp_ok st'.
Proof using Hcpus Hmany. induction 1 as [|st st1 st' Hs _ IH]; [done|]. intros Hok. by apply IH, (smp_step_ok st). Qed.
End starts.

(** After [smp_init] every processor is on its way, if their identifiers
    differ. *)
Lemma smp_init_ok {M K V : Type} `{PageMap M} `{ObjectAllocator K} kas bsp_id mps (ps : psys M K V) idle infos st :
  smp_init kas (Some (bsp_id, mps)) ps = Ok (idle, infos, st) -> NoDup (mp_lapic_id <$> mps) ->
  length infos = length mps /\ (forall i c, infos !! i = Some c -> extra_argument c = Z.of_nat i) /\ smp_ok infos st /\
  (forall i p, phases st !! i = Some p -> p = CSpin).
Proof.
  intros E Hnd. unfold smp_init in E. apply bind_Ok in E as ([ip ps'] & _ & E). pose proof (mp_loop_spec mps 0 bsp_id None) as Hs.
  destruct (mp_loop 0 bsp_id mps None) as [is_ [b|]]; [|done]. cbn [fst snd deref mbind outcome_bind] in *. injection E as <- <- <-.
  destruct Hs as (Hl & Hinfo & Hk). destruct (Hk b eq_refl) as [|(j & -> & Hj)]; [done|]. cbn [Nat.add] in *. clear Hk.
  assert (forall i p, imap (fun i c => if bool_decide (i = j) || goto_set c then CSpin else COff) is_ !! i = Some p -> p = CSpin) as Hspin.
  { intros i p Hp. rewrite list_lookup_imap in Hp. destruct (is_ !! i) as [c|] eqn:Hc; [|done]. cbn in Hp. injection Hp as <-.
    destruct (Hinfo i c Hc) as (_ & Hid & Hg). case_bool_decide as Hib; [done|]. cbn [orb]. rewrite Hg; [done|]. intros Eid. apply Hib.
    rewrite <- list_lookup_fmap in Hid, Hj. rewrite Eid in Hid. by apply (NoDup_lookup _ _ _ _ Hnd Hid). }
  split_and!; [done|by intros i c Hc; apply (Hinfo i c Hc)| |done].
  assert (0 < length is_)%nat as Hpos.
  { rewrite Hl. destruct (mps !! j) eqn:Ej; [|done]. apply lookup_lt_Some in Ej. lia. }
  split; cbn [phases slock g_smp_cpu_core_list g_cores_initialized g_smp_initialized].
  - by rewrite length_imap.
  - intros i k Hi. by apply Hspin in Hi.
  - split; [done|]. intros [i Hi]. by apply Hspin in Hi.
  - constructor.
  - intros x. split; [by intros ?%elem_of_nil|]. intros (i & p & _ & Hp & Hps). apply Hspin in Hp as ->. done.
  - done.
  - cbn. split; [done|lia].
Qed.


(** *** Behaviours worth knowing *)

(** [arch_cpu_context_init] runs after the lock is released, on the one
    descriptor table all processors share: two processors that reach it together
    can end with one of them on the other's task state and the other with a
    general protection fault, because the descriptor is already busy. *)
Lemma tss_race {M K V : Type} `{PageMap M} `{ObjectAllocator K} `{Files V} HHDM fpu_area_size fpu_image userspace_init thread_idle_func idle cpus
    (st : smp M K V) i j ti tj : i <> j -> phases st !! i = Some (CAlloc ti) -> phases st !! j = Some (CAlloc tj) ->
  exists st', rtc (smp_step HHDM fpu_area_size fpu_image userspace_init thread_idle_func idle cpus) st st' /\
    phases st' !! i = Some (CReady tj) /\ phases st' !! j = Some CFaulted.
Proof.
  intros Hne Hi Hj. pose proof (lookup_lt_Some _ _ _ Hi). pose proof (lookup_lt_Some _ _ _ Hj).
  set (s1 := set_phase i (CWritten ti) (set_gdt (ti, false) st)). set (s2 := set_phase j (CWritten tj) (set_gdt (tj, false) s1)).
  set (s3 := set_phase i (CReady tj) (set_gdt (tj, true) s2)). set (s4 := set_phase j CFaulted s3). exists s4. split_and!.
  - apply (rtc_l _ _ s1); [exists i; unfold core_step; by run Hi|].
    apply (rtc_l _ _ s2); [exists j; unfold core_step, s1; cbn [phases set_phase set_gdt]; rewrite list_lookup_insert_ne by done; by run Hj|].
    apply (rtc_l _ _ s3); [exists i; unfold core_step, s2, s1; cbn [phases set_phase set_gdt gdt_tss];
      rewrite list_lookup_insert_ne by done; by rewrite list_lookup_insert_eq|].
    apply (rtc_l _ _ s4); [|done]. exists j. unfold core_step, s3, s2, s1. cbn [phases set_phase set_gdt gdt_tss].
    rewrite list_lookup_insert_ne by done. by rewrite list_lookup_insert_eq by (by rewrite length_insert).
  - unfold s4, s3, s2, s1. cbn [phases set_phase set_gdt]. rewrite list_lookup_insert_ne by done. by rewrite list_lookup_insert_eq by (by rewrite !length_insert).
  - unfold s4, s3, s2, s1. cbn [phases set_phase set_gdt]. by rewrite list_lookup_insert_eq by (by rewrite !length_insert).
Qed.

(** Without an entry for the processor that runs [smp_init], the variable for it
    is read uninitialised. *)
Lemma smp_init_no_bsp {M K V : Type} `{PageMap M} `{ObjectAllocator K} kas bsp_id mps (ps : psys M K V) p ps' :
  proc_new kas PROC_KERNEL ps = Ok (p, ps') -> Forall (fun c => mp_lapic_id c <> bsp_id) mps ->
  smp_init kas (Some (bsp_id, mps)) ps = Fault.
Proof.
  intros E Hall. unfold smp_init. run E. destruct (mp_loop_spec mps 0 bsp_id None) as (_ & _ & Hk).
  destruct (mp_loop 0 bsp_id mps None) as [is_ [b|]]; [|done]. destruct (Hk b eq_refl) as [|(j & _ & Hj)]; [done|].
  destruct (mps !! j) as [c|] eqn:Ec; [|done]. rewrite Forall_lookup in Hall. apply Hall in Ec. cbn in Hj. by injection Hj.
Qed.

(** ** A concrete run *)

Definition ex_mps : list limine_mp_info := [MpInfo 0 3 false; MpInfo 0 5 false].

Definition ex_started : outcome (Z * list limine_mp_info * smp (PageTables.tstate bump) fresh rofiles) := smp_init 1 (Some (5, ex_mps)) ex_psys.

