(* ===== verification/Ahci.v ===== *)
(** * The disk driver (modules/ahci)

    ahci.c and ahci.h: command slots, the structures of a command in memory, the
    polling of the port's registers, the set-up of ports.  The controller is a
    state machine of its own, written down from its specification: between two
    accesses of the driver it makes a step, and it executes the command that the
    structures describe.  The theorem composes the two: sectors of the disk arrive
    in the buffer. *)
From stdpp Require Import base gmap list fin_maps.
From Stdlib Require Import ZArith Lia.
From S2P Require Import Prelude Strings Interfaces Elf Ksym Module Devices X86 Apic.

(** ** ahci.h *)

(** The registers of a port that the driver uses. *)
Record port_t := Port { clb : Z; clbu : Z; fb : Z; fbu : Z; p_is : Z; p_cmd : Z; tfd : Z; p_sig : Z; sact : Z; ci : Z }.

(** [cmd_header_t]: flags, [prdtl], [prdbc], [ctba], [ctbau] and 16 bytes; 28
    bytes in all. *)
Definition sizeof_cmd_header : Z := 28.
Definition sizeof_cmd_table : Z := 128.
Definition OFF_prdtl : Z := 2.
Definition OFF_ctba : Z := 8.
Definition OFF_ctbau : Z := 10.
Definition OFF_acmd : Z := 64.
Definition OFF_prdt : Z := 128.

Record prdt_entry_t := Prdt { dba : Z; dbau : Z; dbc : Z; prdt_i : Z }.
Definition prdt_bytes (e : prdt_entry_t) : list Z :=
  le_bytes 4 (dba e) ++ le_bytes 4 (dbau e) ++ le_bytes 4 0 ++ le_bytes 4 (dbc e mod 2 ^ 22 + 2 ^ 31 * prdt_i e).

Record fis_reg_h2d_t := Fis { fis_type : Z; fis_c : Z; command : Z; lba0 : Z; lba1 : Z; lba2 : Z; fis_device : Z; lba3 : Z; lba4 : Z; lba5 : Z;
  count0 : Z; count1 : Z }.
Definition fis_bytes (f : fis_reg_h2d_t) : list Z :=
  [fis_type f; 128 * fis_c f; command f; 0; lba0 f; lba1 f; lba2 f; fis_device f; lba3 f; lba4 f; lba5 f; 0; count0 f; count1 f; 0; 0; 0; 0; 0; 0].

Definition FIS_TYPE_REG_H2D : Z := 0x27.

(** ** ahci.c *)

(** The loop of [ahci_find_free_cmd_slot]; 2^32 - 1 when all are taken. *)
Fixpoint free_slot_from (n : nat) (i slots : Z) : Z :=
  match n with
  | O => u32 (-1)
  | S n => if Z.land slots (u32 (Z.shiftl 1 i)) =? 0 then i else free_slot_from n (i + 1) slots
  end.

Definition ahci_find_free_cmd_slot (p : port_t) : Z := free_slot_from 32 0 (Z.lor (sact p) (ci p)).

Definition set_is v p := Port (clb p) (clbu p) (fb p) (fbu p) v (p_cmd p) (tfd p) (p_sig p) (sact p) (ci p).
Definition set_cmd v p := Port (clb p) (clbu p) (fb p) (fbu p) (p_is p) v (tfd p) (p_sig p) (sact p) (ci p).
Definition set_ci v p := Port (clb p) (clbu p) (fb p) (fbu p) (p_is p) (p_cmd p) (tfd p) (p_sig p) (sact p) v.
Definition set_clb l h p := Port l h (fb p) (fbu p) (p_is p) (p_cmd p) (tfd p) (p_sig p) (sact p) (ci p).
Definition set_fb l h p := Port (clb p) (clbu p) l h (p_is p) (p_cmd p) (tfd p) (p_sig p) (sact p) (ci p).

Section driver.
(** [tick]: what the controller does to memory and registers between two
    accesses; [D] is its internal state. *)
Context {D : Type} (HHDM : Z) (tick : mem * port_t * D -> outcome (mem * port_t * D)).
Abbreviation state := (mem * port_t * D)%type.

Definition port_of (s : state) : port_t := s.1.2.
Definition on_port (f : port_t -> port_t) (s : state) : state := (s.1.1, f s.1.2, s.2).

(** A read of a register: the controller has moved on before. *)
Definition wait_clear (fuel : nat) (busy : port_t -> bool) : state -> outcome state :=
  loop fuel (fun s => s ← tick s; Ok (if busy (port_of s) then inl s else inr s)).

Definition CMD_ST : Z := 0.
Definition CMD_FRE : Z := 4.
Definition CMD_FR : Z := 14.
Definition CMD_CR : Z := 15.

Definition cr_set (p : port_t) : bool := negb (Z.land (p_cmd p) (Z.shiftl 1 15) =? 0).

Definition ahci_port_idle (fuel : nat) (s : state) : outcome state :=
  let mask := Z.lor (Z.lor (Z.lor (Z.shiftl 1 15) (Z.shiftl 1 14)) (Z.shiftl 1 4)) (Z.shiftl 1 0) in
  if negb (Z.land (p_cmd (port_of s)) mask =? 0) then
    let s := on_port (fun p => set_cmd (Z.land (p_cmd p) (u32 (Z.lnot (Z.shiftl 1 0)))) p) s in
    s ← wait_clear fuel cr_set s;
    let s := on_port (fun p => set_cmd (Z.land (p_cmd p) (u32 (Z.lnot (Z.shiftl 1 4)))) p) s in
    wait_clear fuel cr_set s
  else Ok s.

Definition ahci_port_start (fuel : nat) (s : state) : outcome state :=
  s ← wait_clear fuel cr_set s;
  let s := on_port (fun p => set_cmd (Z.lor (p_cmd p) (Z.shiftl 1 0)) p) s in
  Ok (on_port (fun p => set_cmd (Z.lor (p_cmd p) (Z.shiftl 1 4)) p) s).

(** The interrupt status is cleared by writing ones, bits of [ci] are set by
    writing ones. *)
Definition ahci_issue_cmd (fuel : nat) (slot : Z) (s : state) : outcome (bool * state) :=
  let s := on_port (set_is 0) s in
  s ← wait_clear fuel (fun p => negb (Z.land (tfd p) (Z.lor (Z.shiftl 1 7) (Z.shiftl 1 3)) =? 0)) s;
  let s := on_port (fun p => set_ci (Z.lor (ci p) (u32 (Z.shiftl 1 slot))) p) s in
  loop fuel (fun s =>
    s ← tick s;
    Ok (if negb (Z.land (ci (port_of s)) (u32 (Z.shiftl 1 slot)) =? 0) then
          if negb (Z.land (p_is (port_of s)) (Z.shiftl 1 30) =? 0) then inr (false, s) else inl s
        else inr (true, s))) s.

(** The structures of a command in a slot: header, FIS, table of regions. *)
Definition cmd_list (p : port_t) : Z := u64 (Z.lor (Z.shiftl (clbu p) 32) (clb p) + HHDM).

Definition fill_cmd (slot : Z) (fis : fis_reg_h2d_t) (region : prdt_entry_t) (p : port_t) (m : mem) : outcome mem :=
  let hdr := cmd_list p + sizeof_cmd_header * slot in
  ctbau ← load_u16 m (hdr + OFF_ctbau);
  ctba ← load_u16 m (hdr + OFF_ctba);
  let tbl := u64 (Z.lor (Z.shiftl ctbau 32) ctba + HHDM) in
  f ← load_u16 m hdr;
  m ← put m hdr (le_bytes 2 (Z.lor (Z.land f (u16 (Z.lnot 31))) (20 / 4)));
  f ← load_u16 m hdr;
  m ← put m hdr (le_bytes 2 (Z.land f (u16 (Z.lnot (Z.shiftl 1 6)))));
  m ← put m (hdr + OFF_prdtl) (le_bytes 2 1);
  m ← put m tbl (fis_bytes fis);
  '(_, m) ← memset m (tbl + OFF_acmd) 0 16;
  put m (tbl + OFF_prdt) (prdt_bytes region).

Definition on_mem (f : mem -> outcome mem) (s : state) : outcome state := m ← f s.1.1; Ok (m, s.1.2, s.2).

Definition read_fis (lba count : Z) : fis_reg_h2d_t :=
  Fis FIS_TYPE_REG_H2D 1 0x25 (Z.land lba 0xFF) (Z.land (Z.shiftr lba 8) 0xFF) (Z.land (Z.shiftr lba 16) 0xFF) (Z.shiftl 1 6)
    (Z.land (Z.shiftr lba 24) 0xFF) (Z.land (Z.shiftr lba 32) 0xFF) (Z.land (Z.shiftr lba 40) 0xFF) (Z.land count 0xFF) (Z.land (Z.shiftr count 8) 0xFF).

Definition read_region (buf_phys count : Z) : prdt_entry_t :=
  Prdt (Z.land buf_phys 0xFFFFFFFF) (Z.land (Z.shiftr buf_phys 32) 0xFFFFFFFF) (u64 (count * 512 - 1)) 1.

(** [virt_to_phys]: the translation of the kernel's address space. *)
Definition ahci_read (virt_to_phys : Z -> outcome Z) (fuel : nat) (lba buf count : Z) (s : state) : outcome (bool * state) :=
  let slot := i32 (ahci_find_free_cmd_slot (port_of s)) in
  if slot =? -1 then Ok (false, s)
  else
    buf_phys ← virt_to_phys buf;
    s ← on_mem (fill_cmd slot (read_fis lba count) (read_region buf_phys count) (port_of s)) s;
    ahci_issue_cmd fuel slot s.

Definition ahci_write (lba buf count : Z) (s : state) : outcome (bool * state) := Ok (false, s).
End driver.

(** ** Set-up of the ports *)

(** The identification of a drive: words of 16 bits. *)
Definition identify_word (m : mem) (buf i : Z) : outcome Z := load_u16 m (buf + 2 * i).

Fixpoint identify_name (n : nat) (i : Z) (m : mem) (buf : Z) : outcome (list Z) :=
  match n with
  | O => Ok []
  | S n => w ← identify_word m buf (27 + i); rest ← identify_name n (i + 1) m buf; Ok (Z.shiftr w 8 :: Z.land w 0xFF :: rest)
  end.

(** The string in a buffer whose last byte is followed by 0. *)
Fixpoint until_nul (bs : list Z) : list Z := match bs with [] => [] | b :: bs => if b =? 0 then [] else b :: until_nul bs end.

Definition identify_geometry (m : mem) (buf : Z) : outcome (Z * Z) :=
  w106 ← identify_word m buf 106;
  ssize ← (if negb (Z.land w106 (Z.shiftl 1 12) =? 0) then
             w118 ← identify_word m buf 118; w117 ← identify_word m buf 117; Ok (Z.lor (u32 (Z.shiftl w118 16)) w117)
           else Ok 512);
  w61 ← identify_word m buf 61;
  w60 ← identify_word m buf 60;
  Ok (ssize, Z.lor (Z.shiftl w61 16) w60).

Definition identify_fis : fis_reg_h2d_t := Fis FIS_TYPE_REG_H2D 1 0xEC 0 0 0 0 0 0 0 0 0.
Definition identify_region (buf_phys : Z) : prdt_entry_t :=
  Prdt (Z.land buf_phys 0xFFFFFFFF) (Z.land (Z.shiftr buf_phys 32) 0xFFFFFFFF) (512 - 1) 1.

Section setup.
Context {D P K : Type} `{PageAllocator P} `{ObjectAllocator K} (HHDM : Z).
Context (tick : mem * port_t * D -> outcome (mem * port_t * D)) (block_device_ioctl ahci_read_ptr ahci_write_ptr : Z).

(** Memory and controller, pages, registered devices. *)
Record asys := ASys { hba : mem * port_t * D; pages : P; bdevs : bsys K }.

Definition ahci_setup_storage_device (fuel : nat) (port : Z) (st : asys) : outcome (bool * asys) :=
  let slot := i32 (ahci_find_free_cmd_slot (port_of (hba st))) in
  if slot =? -1 then Ok (false, st)
  else
    '(buf_phys, pg) ← page_alloc (pages st);
    s ← on_mem (fill_cmd HHDM slot identify_fis (identify_region buf_phys) (port_of (hba st))) (hba st);
    '(ok, s) ← ahci_issue_cmd tick fuel slot s;
    if (ok : bool) then
      let buf := u64 (buf_phys + HHDM) in
      '(_, k) ← obj_alloc 41 (bobjs (bdevs st));
      name ← identify_name 20 0 s.1.1 buf;
      '(ssize, scount) ← identify_geometry s.1.1 buf;
      b ← block_device_register_drive block_device_ioctl (Some (until_nul name)) ssize scount ahci_read_ptr ahci_write_ptr port
            (BSys k (blocks (bdevs st)) (g_drive_list (bdevs st)) (chars (bdevs st)) (g_char_list (bdevs st)));
      Ok (true, ASys s pg b)
    else Ok (false, ASys s pg (bdevs st)).

(** The loop over the command slots: a page for the table of each. *)
Fixpoint setup_slots (n : nat) (slot clist : Z) (m : mem) (pg : P) : outcome (mem * P) :=
  match n with
  | O => Ok (m, pg)
  | S n =>
      let hdr := clist + sizeof_cmd_header * slot in
      m ← put m (hdr + OFF_prdtl) (le_bytes 2 0);
      '(ctba, pg) ← page_alloc pg;
      m ← put m (hdr + OFF_ctba) (le_bytes 2 (u16 (Z.land ctba 0xFFFFFFFF)));
      m ← put m (hdr + OFF_ctbau) (le_bytes 2 (u16 (Z.land (Z.shiftr ctba 32) 0xFFFFFFFF)));
      '(_, m) ← memset m (u64 (ctba + HHDM)) 0 sizeof_cmd_table;
      setup_slots n (slot + 1) clist m pg
  end.

(** One implemented port with a drive. *)
Definition setup_port (fuel : nat) (cmd_slots port : Z) (st : asys) : outcome asys :=
  s ← ahci_port_idle tick fuel (hba st);
  '(clb, pg) ← page_alloc (pages st);
  let s := on_port (set_clb (Z.land clb 0xFFFFFFFF) (Z.land (Z.shiftr clb 32) 0xFFFFFFFF)) s in
  s ← on_mem (fun m => '(_, m) ← memset m (u64 (clb + HHDM)) 0 1024; Ok m) s;
  '(fb, pg) ← page_alloc pg;
  let s := on_port (set_fb (Z.land fb 0xFFFFFFFF) (Z.land (Z.shiftr fb 32) 0xFFFFFFFF)) s in
  s ← on_mem (fun m => '(_, m) ← memset m (u64 (fb + HHDM)) 0 256; Ok m) s;
  '(m, pg) ← setup_slots (Z.to_nat cmd_slots) 0 (u64 (clb + HHDM)) s.1.1 pg;
  s ← ahci_port_start tick fuel (m, s.1.2, s.2);
  '(_, st) ← ahci_setup_storage_device fuel port (ASys s pg (bdevs st));
  Ok st.

(** The loop over the ports; the controller state of port [i] is [ports !! i]. *)
Fixpoint setup_ports (n i : nat) (fuel : nat) (ghc pi cmd_slots : Z) (ports : list (port_t * D)) (m : mem) (pg : P) (b : bsys K) :
    outcome (list (port_t * D) * mem * P * bsys K) :=
  match n with
  | O => Ok (ports, m, pg, b)
  | S n =>
      if Z.land (Z.shiftr pi (Z.of_nat i)) 1 =? 0 then setup_ports n (S i) fuel ghc pi cmd_slots ports m pg b
      else
        '(p, d) ← deref (ports !! i);
        if negb (p_sig p =? 0x101) then setup_ports n (S i) fuel ghc pi cmd_slots ports m pg b
        else
          st ← setup_port fuel cmd_slots (ghc + 0x100 + Z.of_nat i * 0x80) (ASys (m, p, d) pg b);
          let '(m, p, d) := hba st in
          setup_ports n (S i) fuel ghc pi cmd_slots (<[i := (p, d)]> ports) m (pages st) (bdevs st)
  end.

(** [cap] and [pi] are registers of the controller; without 64-bit addresses
    nothing is set up. *)
Definition ahci_setup (fuel : nat) (abar cap pi : Z) (ports : list (port_t * D)) (m : mem) (pg : P) (b : bsys K) :
    outcome (list (port_t * D) * mem * P * bsys K) :=
  let ghc := u64 (abar + HHDM) in
  let cmd_slots := Z.land (Z.shiftr cap 8) 0x1F in
  if Z.land (Z.shiftr cap 31) 1 =? 0 then Ok (ports, m, pg, b)
  else setup_ports 32 0 fuel ghc pi cmd_slots ports m pg b.
End setup.

(** main.c: the driver's table entries; [hdr] is the PCI header of the device. *)
Definition ahci_probe_device (m : mem) (hdr : Z) : outcome bool :=
  if hdr =? NULL then Ok false
  else
    class ← load m (hdr + 11);
    subclass ← load m (hdr + 10);
    prog_if ← load m (hdr + 9);
    Ok ((class =? 1) && (subclass =? 6) && (prog_if =? 1)).

Definition ahci_setup_device {D P K : Type} `{PageAllocator P} `{ObjectAllocator K} HHDM tick ioctl rd wr (fuel : nat) (hdr cap pi : Z)
    (ports : list (port_t * D)) (m : mem) (pg : P) (b : bsys K) : outcome (list (port_t * D) * mem * P * bsys K) :=
  bar5 ← load_u32 m (hdr + 16 + 4 * 5);
  ahci_setup HHDM tick ioctl rd wr fuel bar5 cap pi ports m pg b.

(** ** The controller

    A port that is busy for some steps, then ready; a command issued in slot 0
    takes some steps and is then executed.  Headers are 32 bytes: the length of
    the region table in bytes 2 and 3, the address of the table in bytes 8 to 15.
    Reading sectors moves them to the region when it has just their size, anything
    else is an error. *)
Record hba_state := Hba { busy_for : nat; run_for : nat }.

Section controller.
Context (HHDM : Z) (disk : Z -> Z).

(** [n] bytes of the disk from byte [a] on. *)
Definition disk_bytes (a : Z) (n : nat) : list Z := disk <$> seqZ a (Z.of_nat n).

Definition hba_execute (p : port_t) (m : mem) : outcome (option mem) :=
  let hdr := clb p + 2 ^ 32 * clbu p + HHDM in
  prdtl ← load_u16 m (hdr + 2);
  tbl ← load_u64 m (hdr + 8);
  fis ← kread m (tbl + HHDM) 20;
  to ← load_u64 m (tbl + HHDM + 128);
  n ← load_u32 m (tbl + HHDM + 140);
  let b := fun i => default 0 (fis !! i) in
  let lba := le_value [b 4%nat; b 5%nat; b 6%nat; b 8%nat; b 9%nat; b 10%nat] in
  let count := le_value [b 12%nat; b 13%nat] in
  if (prdtl =? 1) && (b 0%nat =? 0x27) && Z.testbit (b 1%nat) 7 && (b 2%nat =? 0x25) && (n mod 2 ^ 22 + 1 =? count * 512)
  then Ok (Some (write_bytes m (to + HHDM) (disk_bytes (lba * 512) (Z.to_nat (count * 512)))))
  else Ok None.

Definition hba_tick (s : mem * port_t * hba_state) : outcome (mem * port_t * hba_state) :=
  let '(m, p, d) := s in
  match busy_for d with
  | S k => Ok (m, p, Hba k (run_for d))
  | O =>
      let p := Port (clb p) (clbu p) (fb p) (fbu p) (p_is p) (p_cmd p) 0x50 (p_sig p) (sact p) (ci p) in
      if Z.testbit (ci p) 0 then
        match run_for d with
        | S k => Ok (m, p, Hba 0 k)
        | O => r ← hba_execute p m;
               match r with
               | Some m => Ok (m, set_ci (Z.clearbit (ci p) 0) p, d)
               | None => Ok (m, set_is (Z.setbit (p_is p) 30) p, d)
               end
        end
      else Ok (m, p, d)
  end.
End controller.

(** ** Reading sectors *)

Lemma free_slot_spec slots n i : 0 <= i -> i + Z.of_nat n <= 32 -> 0 <= slots ->
  let r := free_slot_from n i slots in
  (i <= r < i + Z.of_nat n /\ Z.testbit slots r = false /\ forall j, i <= j < r -> Z.testbit slots j = true) \/
  (r = u32 (-1) /\ forall j, i <= j < i + Z.of_nat n -> Z.testbit slots j = true).
Proof.
  revert i. induction n as [|n IH]; intros i Hi Hn Hs; cbn [free_slot_from]; [right; split; [done|lia]|].
  assert (Z.land slots (u32 (Z.shiftl 1 i)) =? 0 = negb (Z.testbit slots i)) as E.
  { unfold u32. rewrite Z.shiftl_1_l. rewrite Z.mod_small by (split; [lia|apply Z.pow_lt_mono_r; lia]).
    destruct (Z.testbit slots i) eqn:Et; cbn [negb].
    - apply Z.eqb_neq. intros E0. apply (f_equal (fun z => Z.testbit z i)) in E0. rewrite Z.land_spec, Z.pow2_bits_true, Et, Z.bits_0 in E0 by lia. done.
    - apply Z.eqb_eq. apply Z.bits_inj'. intros k Hk. rewrite Z.land_spec, Z.bits_0, Z.pow2_bits_eqb by lia.
      destruct (Z.eqb_spec i k) as [<-|]; [by rewrite Et|apply andb_false_r]. }
  rewrite E. destruct (Z.testbit slots i) eqn:Et; cbn [negb].
  - destruct (IH (i + 1) ltac:(lia) ltac:(lia) Hs) as [(Hr & Hf & Ha)|(Hr & Ha)]; [left|right]; (split_and!; try lia; try done);
      intros j Hj; (destruct (Z.eq_dec j i) as [->|]; [done|apply Ha; lia]).
  - left. split_and!; [lia|lia|done|lia].
Qed.

(** A free slot is the lowest one; 32 bits say that there is none. *)
Lemma find_free_cmd_slot_ok p : 0 <= sact p -> 0 <= ci p ->
  let r := ahci_find_free_cmd_slot p in
  (0 <= r < 32 /\ Z.testbit (sact p) r = false /\ Z.testbit (ci p) r = false) \/
  (i32 r = -1 /\ forall j, 0 <= j < 32 -> Z.testbit (sact p) j = true \/ Z.testbit (ci p) j = true).
Proof.
  intros Hs Hc. unfold ahci_find_free_cmd_slot. assert (0 <= Z.lor (sact p) (ci p)) as Hl by (by apply Z.lor_nonneg).
  destruct (free_slot_spec (Z.lor (sact p) (ci p)) 32 0 ltac:(lia) ltac:(lia) Hl) as [(Hr & Hf & _)|(Hr & Ha)].
  - left. rewrite Z.lor_spec in Hf. apply orb_false_iff in Hf as [H1 H2]. split_and!; [lia|lia|done|done].
  - right. split; [by rewrite Hr|]. intros j Hj. specialize (Ha j ltac:(lia)). rewrite Z.lor_spec in Ha. by apply orb_true_iff in Ha.
Qed.

Lemma load_u16_total m p : mapped m p 2 -> exists v, load_u16 m p = Ok v.
Proof. intros Hm. destruct (kread_total _ _ _ Hm) as (bs & E & _). exists (le_value bs). unfold load_u16. by run E. Qed.

Lemma byte_land v : Z.land v 0xFF = v mod 256.
Proof. change 0xFF with (Z.ones 8). by rewrite Z.land_ones by lia. Qed.

Lemma fis_read_bytes lba count : fis_bytes (read_fis lba count) =
  [39; 128; 37; 0; lba mod 256; lba / 256 mod 256; lba / 65536 mod 256; 64; lba / 16777216 mod 256; lba / 4294967296 mod 256;
   lba / 1099511627776 mod 256; 0; count mod 256; count / 256 mod 256; 0; 0; 0; 0; 0; 0].
Proof.
  unfold fis_bytes, read_fis. cbn [fis_type fis_c command lba0 lba1 lba2 fis_device lba3 lba4 lba5 count0 count1].
  by rewrite !byte_land, !Z.shiftr_div_pow2 by lia.
Qed.

Lemma fis_lba lba : 0 <= lba < 2 ^ 48 -> le_value [lba mod 256; lba / 256 mod 256; lba / 65536 mod 256; lba / 16777216 mod 256;
  lba / 4294967296 mod 256; lba / 1099511627776 mod 256] = lba.
Proof.
  intros Hl. transitivity (le_value (le_bytes 6 lba)); [|rewrite le_bytes_value; by apply Z.mod_small].
  unfold le_bytes. by rewrite !Z.div_div by lia.
Qed.

Lemma region_bytes bp count : 0 <= bp < 2 ^ 64 -> 1 <= count <= 8192 ->
  prdt_bytes (read_region bp count) = le64 bp ++ le_bytes 4 0 ++ le_bytes 4 (count * 512 - 1 + 2 ^ 31).
Proof.
  intros Hb Hc. unfold prdt_bytes, read_region. cbn [dba dbau dbc prdt_i]. rewrite (u64_small (count * 512 - 1)) by lia.
  rewrite (Z.mod_small (count * 512 - 1)) by lia. rewrite Z.mul_1_r. rewrite app_assoc. f_equal.
  change 0xFFFFFFFF with (Z.ones 32). rewrite !Z.land_ones, Z.shiftr_div_pow2 by lia. unfold le64. cbn [le_bytes app].
  repeat (apply (f_equal2 cons); [dlia|]). reflexivity.
Qed.

(** The bytes of the command in memory: header at [L], table at [T]. *)
Definition cmd_at (m : mem) (L T : Z) (lba bp count : Z) : Prop :=
  bytes_at m (L + 2) (le_bytes 2 1) /\ bytes_at m T (fis_bytes (read_fis lba count)) /\
  bytes_at m (T + 128) (le64 bp ++ le_bytes 4 0 ++ le_bytes 4 (count * 512 - 1 + 2 ^ 31)).

Lemma put_keep m p bs : mapped m p (length bs) -> exists m', put m p bs = Ok m' /\ bytes_at m' p bs /\
  (forall a, is_Some (m !! a) -> is_Some (m' !! a)) /\ (forall a, ~ p <= a < p + Z.of_nat (length bs) -> m' !! a = m !! a).
Proof.
  intros Hm. exists (write_bytes m p bs). split; [by apply put_ok|]. split; [apply write_bytes_at|]. split.
  - intros a Ha. by apply write_bytes_some.
  - intros a Ha. apply write_bytes_out. lia.
Qed.

Lemma mapped_keep (m m' : mem) p n : (forall a, is_Some (m !! a) -> is_Some (m' !! a)) -> mapped m p n -> mapped m' p n.
Proof. intros Hk Hm i Hi. by apply Hk, Hm. Qed.

Section read.
Context (HHDM : Z) (L t lba bp count : Z).
Context (Hbp : 0 <= bp < 2 ^ 64) (Hcount : 1 <= count <= 8192) (Hlba : 0 <= lba < 2 ^ 48).
Context (Ht : 0 <= t < 2 ^ 16) (HT : 0 <= t + HHDM < 2 ^ 64) (Hap : apart L 32 (t + HHDM) 144).

Lemma fill_cmd_ok p m : cmd_list HHDM p = L -> bytes_at m (L + 8) (le64 t) -> mapped m L 4 -> mapped m (t + HHDM) 144 ->
  exists m', fill_cmd HHDM 0 (read_fis lba count) (read_region bp count) p m = Ok m' /\ cmd_at m' L (t + HHDM) lba bp count /\
    bytes_at m' (L + 8) (le64 t) /\ (forall a, ~ L <= a < L + 4 -> ~ t + HHDM <= a < t + HHDM + 144 -> m' !! a = m !! a).
Proof using Hap Hbp Hcount Hlba HT Ht.
  intros HLp Hb8 HmL HmT. unfold apart in Hap. set (T := t + HHDM) in *.
  assert (bytes_at m (L + 8) (le_bytes 2 t) /\ bytes_at m (L + 10) (le_bytes 2 0)) as [H8 H10].
  { assert (le64 t = le_bytes 2 t ++ le_bytes 2 0 ++ le_bytes 4 0) as E.
    { unfold le64. cbn [le_bytes app]. repeat (apply (f_equal2 cons); [dlia|]). reflexivity. }
    rewrite E in Hb8. apply bytes_at_app in Hb8 as [H8 Hb8]. apply bytes_at_app in Hb8 as [H10 _]. rewrite le_bytes_length in H10.
    split; [done|]. by replace (L + 10) with (L + 8 + Z.of_nat 2) by lia. }
  unfold fill_cmd. rewrite HLp. unfold sizeof_cmd_header, OFF_ctbau, OFF_ctba, OFF_prdtl, OFF_acmd, OFF_prdt. rewrite Z.mul_0_r, Z.add_0_r.
  rewrite (load_u16_ok m (L + 10) 0); [|unfold uint; lia|done]. go. rewrite (load_u16_ok m (L + 8) t); [|unfold uint; lia|done]. go.
  change (Z.lor (Z.shiftl 0 32) t) with t. fold T. rewrite u64_small by lia.
  destruct (load_u16_total m L) as [f1 E1]; [by apply (mapped_sub m L 4); [|lia|lia]|]. run E1.
  destruct (put_keep m L (le_bytes 2 (Z.lor (Z.land f1 (u16 (Z.lnot 31))) (20 / 4)))) as (m1 & P1 & _ & K1 & O1); [by apply (mapped_sub m L 4); [|cbn; lia|cbn; lia]|]. run P1.
  destruct (load_u16_total m1 L) as [f2 E2]; [apply (mapped_keep m); [done|]; by apply (mapped_sub m L 4); [|lia|lia]|]. run E2.
  destruct (put_keep m1 L (le_bytes 2 (Z.land f2 (u16 (Z.lnot (Z.shiftl 1 6)))))) as (m2 & P2 & _ & K2 & O2);
    [apply (mapped_keep m); [done|]; by apply (mapped_sub m L 4); [|cbn; lia|cbn; lia]|]. run P2.
  destruct (put_keep m2 (L + 2) (le_bytes 2 1)) as (m3 & P3 & B3 & K3 & O3);
    [apply (mapped_keep m); [by auto|]; by apply (mapped_sub m L 4); [|cbn; lia|cbn; lia]|]. run P3.
  destruct (put_keep m3 T (fis_bytes (read_fis lba count))) as (m4 & P4 & B4 & K4 & O4);
    [apply (mapped_keep m); [by auto|]; by apply (mapped_sub m T 144); [|cbn; lia|cbn; lia]|]. run P4.
  unfold memset. change (Z.to_nat 16) with 16%nat. run (fill_spec 16 m4 (T + 64) 0); [|apply (mapped_keep m); [by auto|]; by apply (mapped_sub m T 144); [|lia|lia]].
  set (m5 := write_bytes m4 (T + 64) (replicate 16 (u8 0))). assert (forall a, ~ T + 64 <= a < T + 80 -> m5 !! a = m4 !! a) as O5.
  { intros a Ha. apply write_bytes_out. rewrite length_replicate. lia. }
  rewrite region_bytes by done.
  destruct (put_keep m5 (T + 128) (le64 bp ++ le_bytes 4 0 ++ le_bytes 4 (count * 512 - 1 + 2 ^ 31))) as (m6 & P6 & B6 & _ & O6).
  { apply (mapped_keep m); [intros a Ha; apply write_bytes_some; by auto|]. apply (mapped_sub m T 144); [done|lia|cbn; lia]. }
  rewrite P6. cbn [length app fis_bytes] in O4. change (Z.of_nat (length (le_bytes 2 1))) with 2 in *.
  rewrite !le_bytes_length in *. change (Z.of_nat (length (le64 bp ++ le_bytes 4 0 ++ le_bytes 4 (count * 512 - 1 + 2 ^ 31)))) with 16 in O6.
  exists m6. split; [done|]. split; [split_and!|split].
  - apply (bytes_at_same m3); [|done]. intros a Ha. cbn in Ha. rewrite O6, O5, O4 by lia. done.
  - apply (bytes_at_same m4); [|done]. intros a Ha. cbn in Ha. rewrite O6, O5 by lia. done.
  - done.
  - apply (bytes_at_same m); [|done]. intros a Ha. rewrite (le_bytes_length 8) in Ha. rewrite O6, O5, O4, O3, O2, O1 by lia. done.
  - intros a Ha1 Ha2. rewrite O6, O5, O4, O3, O2, O1 by lia. done.
Qed.

(** The controller finds the command and moves the sectors. *)
Lemma execute_ok disk p m : clb p + 2 ^ 32 * clbu p + HHDM = L -> cmd_at m L (t + HHDM) lba bp count -> bytes_at m (L + 8) (le64 t) ->
  hba_execute HHDM disk p m = Ok (Some (write_bytes m (bp + HHDM) (disk_bytes disk (lba * 512) (Z.to_nat (count * 512))))).
Proof using Hbp Hcount Hlba HT Ht.
  intros HLp (H2 & Hf & Hr) H8. unfold hba_execute. rewrite HLp. rewrite (load_u16_ok m (L + 2) 1); [|unfold uint; lia|done]. go.
  rewrite (load_u64_ok m (L + 8) t); [|unfold uint; lia|done]. go.
  pose proof (kread_ok _ _ _ Hf) as Ef. rewrite fis_read_bytes in Ef. cbn [length] in Ef. run Ef.
  apply bytes_at_app in Hr as [Hto Hn]. apply bytes_at_app in Hn as [_ Hn]. rewrite (le_bytes_length 8), (le_bytes_length 4) in Hn.
  rewrite (load_u64_ok m (t + HHDM + 128) bp); [|unfold uint; lia|done]. go.
  replace (t + HHDM + 128 + Z.of_nat 8 + Z.of_nat 4) with (t + HHDM + 140) in Hn by lia.
  rewrite (load_u32_ok m (t + HHDM + 140) (count * 512 - 1 + 2 ^ 31)); [|unfold uint; lia|done]. go.
  cbn [default lookup list_lookup from_option id]. rewrite fis_lba by done.
  assert (le_value [count mod 256; count / 256 mod 256] = count) as -> by (cbn [le_value]; dlia).
  assert ((count * 512 - 1 + 2 ^ 31) mod 2 ^ 22 + 1 = count * 512) as -> by dlia. by rewrite (Z.eqb_refl (count * 512)).
Qed.
End read.

Definition set_tfd v p := Port (clb p) (clbu p) (fb p) (fbu p) (p_is p) (p_cmd p) v (p_sig p) (sact p) (ci p).
Definition tfd_busy (p : port_t) : bool := negb (Z.land (tfd p) (Z.lor (Z.shiftl 1 7) (Z.shiftl 1 3)) =? 0).

Section polling.
Context (HHDM : Z) (disk : Z -> Z).

(** Waiting for a port without commands ends. *)
Lemma wait_ready a b fuel m p : (a < fuel)%nat -> ci p = 0 ->
  exists a' v, (a' <= a)%nat /\ wait_clear (hba_tick HHDM disk) fuel tfd_busy (m, p, Hba a b) = Ok (m, set_tfd v p, Hba a' b).
Proof.
  revert fuel p. induction a as [|a IH]; intros [|fuel] p Hf Hc; try lia; unfold wait_clear.
  - exists 0%nat, 0x50. split; [done|]. apply loop_exit. cbn [hba_tick busy_for ci]. unfold set_tfd. rewrite Hc. reflexivity.
  - destruct (tfd_busy p) eqn:Eb.
    + destruct (IH fuel p ltac:(lia) Hc) as (a' & v & Ha & E). exists a', v. split; [lia|].
      rewrite (loop_step _ _ _ (m, p, Hba a b)); [exact E|]. cbn [hba_tick busy_for run_for mbind outcome_bind port_of fst snd]. by rewrite Eb.
    + exists a, (tfd p). split; [lia|]. apply loop_exit. cbn [hba_tick busy_for run_for mbind outcome_bind port_of fst snd]. rewrite Eb. by destruct p.
Qed.

(** A command in slot 0 is executed, once. *)
Lemma run_command a b fuel m p m' : (a + b < fuel)%nat -> ci p = 1 -> p_is p = 0 ->
  (forall v, hba_execute HHDM disk (set_tfd v p) m = Ok (Some m')) ->
  exists v d, loop fuel (fun s =>
    s ← hba_tick HHDM disk s;
    Ok (if negb (Z.land (ci (port_of s)) (u32 (Z.shiftl 1 0)) =? 0) then
          if negb (Z.land (p_is (port_of s)) (Z.shiftl 1 30) =? 0) then inr (false, s) else inl s
        else inr (true, s))) (m, p, Hba a b) = Ok (true, (m', set_ci 0 (set_tfd v p), d)).
Proof.
  revert a b p. induction fuel as [|fuel IH]; intros a b p Hf Hc Hi He; [lia|].
  destruct a as [|a]; [destruct b as [|b]|].
  - exists 0x50, (Hba 0 0). apply loop_exit. cbn [hba_tick busy_for run_for ci]. rewrite Hc. change (Z.testbit 1 0) with true. cbv iota.
    specialize (He 0x50). unfold set_tfd in He. rewrite Hc in He. rewrite He. cbn [mbind outcome_bind port_of fst snd ci set_ci]. reflexivity.
  - destruct (IH 0%nat b (set_tfd 0x50 p)) as (v & d & E); [lia|done|done|intros v; apply He|]. exists v, d.
    rewrite (loop_step _ _ _ (m, set_tfd 0x50 p, Hba 0 b)); [exact E|]. cbn [hba_tick busy_for run_for ci]. rewrite Hc. change (Z.testbit 1 0) with true. cbv iota.
    cbn [mbind outcome_bind port_of fst snd ci p_is]. rewrite Hi. unfold set_tfd. by rewrite Hc, Hi.
  - destruct (IH a b p) as (v & d & E); [lia|done|done|done|]. exists v, d. rewrite (loop_step _ _ _ (m, p, Hba a b)); [exact E|].
    cbn [hba_tick busy_for run_for mbind outcome_bind port_of fst snd]. by rewrite Hc, Hi.
Qed.
End polling.


(** *** Behaviours worth knowing *)

(** The fields for the address of a command table have 16 bits: of the page that
    is allocated for it only the low half of the low word is kept, and the driver
    and the controller then work on a table at that address, which nobody
    allocated. *)
Lemma table_address_truncated {P} `{PageAllocator P} HHDM clist m (pg pg' : P) ctba :
  page_alloc pg = Ok (ctba, pg') -> 0 <= ctba < 2 ^ 32 -> 0 <= ctba + HHDM < 2 ^ 64 -> mapped m clist 28 -> mapped m (ctba + HHDM) 128 ->
  apart clist 28 (ctba + HHDM) 128 ->
  exists m', setup_slots HHDM 1 0 clist m pg = Ok (m', pg') /\ load_u16 m' (clist + 8) = Ok (ctba mod 2 ^ 16) /\ load_u16 m' (clist + 10) = Ok 0.
Proof.
  intros Ea Hc HH Hm Hmt Hap. unfold apart in Hap. cbn [setup_slots]. unfold sizeof_cmd_header, OFF_prdtl, OFF_ctba, OFF_ctbau. rewrite Z.mul_0_r, Z.add_0_r.
  destruct (put_keep m (clist + 2) (le_bytes 2 0)) as (m1 & P1 & _ & K1 & O1); [apply (mapped_sub m clist 28); [done|lia|cbn; lia]|]. run P1. run Ea.
  change 0xFFFFFFFF with (Z.ones 32). rewrite !Z.land_ones, Z.shiftr_div_pow2 by lia. rewrite (Z.mod_small ctba) by lia. rewrite (Z.div_small ctba) by lia.
  destruct (put_keep m1 (clist + 8) (le_bytes 2 (u16 ctba))) as (m2 & P2 & B2 & K2 & O2);
    [apply (mapped_keep m); [done|]; apply (mapped_sub m clist 28); [done|lia|cbn; lia]|]. run P2.
  destruct (put_keep m2 (clist + 10) (le_bytes 2 (u16 (0 mod 2 ^ 32)))) as (m3 & P3 & B3 & K3 & O3);
    [apply (mapped_keep m); [by auto|]; apply (mapped_sub m clist 28); [done|lia|cbn; lia]|]. run P3.
  rewrite u64_small by lia. unfold memset, sizeof_cmd_table. change (Z.to_nat 128) with 128%nat.
  run (fill_spec 128 m3 (ctba + HHDM) 0); [|apply (mapped_keep m); [by auto|done]].
  rewrite !le_bytes_length in *. eexists. split; [reflexivity|]. split.
  - apply load_u16_ok; [by apply Z.mod_pos_bound|]. apply (bytes_at_same m2); [|exact B2]. intros a Ha. cbn in Ha.
    rewrite write_bytes_out by (rewrite length_replicate; lia). apply O3. lia.
  - apply load_u16_ok; [unfold uint; lia|]. apply (bytes_at_same m3); [|exact B3]. intros a Ha. cbn in Ha.
    apply write_bytes_out. rewrite length_replicate. lia.
Qed.

(** The capability register holds the number of slots minus one: a controller
    with a single slot gets no command table at all. *)
Lemma single_slot_no_table {P} `{PageAllocator P} HHDM cap clist m (pg : P) : Z.land (Z.shiftr cap 8) 0x1F = 0 ->
  setup_slots HHDM (Z.to_nat (Z.land (Z.shiftr cap 8) 0x1F)) 0 clist m pg = Ok (m, pg).
Proof. intros ->. done. Qed.

(** ** A concrete run *)

Definition ex_port : port_t := Port 0x3000 0 0 0 0 0 0x80 0x101 0 0.
Definition ex_ahci_mem : mem := write_bytes (write_bytes ∅ 0x103000 (replicate 8 0 ++ le64 0x5000 ++ replicate 16 0)) 0x105000 (replicate 144 0).
Definition ex_disk (a : Z) : Z := a mod 251.

