(* ===== verification/Graphics.v ===== *)
(** * Text on the screen and the log (kernel/src/graphics, common/log.c)

    draw.c, video.c, common/log.c and arch/x86_64/serial.c.  The framebuffer is
    memory; a character is drawn pixel by pixel from the font's bits.  Formatting
    is third-party code: the log takes the string that it produces. *)
From stdpp Require Import base gmap list fin_maps.
From Stdlib Require Import ZArith Lia.
From S2P Require Import Prelude Strings X86.

(** graphics/video.h, font.h *)
Record framebuffer_t := Framebuffer { fb_addr : Z; height : Z; width : Z; pitch : Z; fb_size : Z; bpp : Z }.
Record font_t := Font { f_width : Z; f_height : Z; f_data : list Z }.

(** The first framebuffer of the boot loader: address, width, height, pitch and
    bits per pixel. *)
Definition video_init (response : option (list (Z * Z * Z * Z * Z))) : outcome framebuffer_t :=
  fbs ← deref response;
  b ← deref (fbs !! 0%nat);
  let '(address, w, h, p, bits) := b in
  Ok (Framebuffer address h w p (u64 (u64 (h * p) * bits) / 8) bits).

Definition draw_pixel (fb : framebuffer_t) (x y color : Z) (m : mem) : outcome mem :=
  if (width fb <=? x) || (height fb <=? y) then Ok m
  else put m (u64 (fb_addr fb + y * pitch fb + x * 4)) (le_bytes 4 color).

(** A [char] is signed: as an index it is extended to 64 bits. *)
Definition char_index (c : Z) : Z := if c <? 128 then c else u64 (c - 256).

Definition lit (font : font_t) (c fx fy : Z) : outcome bool :=
  row ← deref (f_data font !! Z.to_nat (u64 (char_index c * f_height font + fy)));
  Ok (Z.testbit row (f_width font - fx - 1)).

(** The two loops, from column [fx] of row [fy] on. *)
Fixpoint draw_row (n : nat) (fx fy : Z) (fb : framebuffer_t) (x y c : Z) (font : font_t) (color : Z) (m : mem) : outcome mem :=
  match n with
  | O => Ok m
  | S n =>
      on ← lit font c fx fy;
      m ← (if (on : bool) then draw_pixel fb (u64 (x + fx)) (u64 (y + fy)) color m else Ok m);
      draw_row n (fx + 1) fy fb x y c font color m
  end.

Fixpoint draw_rows (n : nat) (fy : Z) (fb : framebuffer_t) (x y c : Z) (font : font_t) (color : Z) (m : mem) : outcome mem :=
  match n with
  | O => Ok m
  | S n =>
      m ← draw_row (Z.to_nat (f_width font)) 0 fy fb x y c font color m;
      draw_rows n (fy + 1) fb x y c font color m
  end.

Definition draw_char (fb : framebuffer_t) (x y c : Z) (font : font_t) (color : Z) (m : mem) : outcome mem :=
  draw_rows (Z.to_nat (f_height font)) 0 fb x y c font color m.

(** ** common/log.c *)

(** The screen's memory, the next line and what went out on the serial port. *)
Record log_state := Log { l_mem : mem; g_line : Z; serial : list Z }.

(** The loop over the characters, from character [i] on. *)
Fixpoint draw_chars (cs : list Z) (i : Z) (fb : framebuffer_t) (font : font_t) (line : Z) (m : mem) : outcome mem :=
  match cs with
  | [] => Ok m
  | c :: cs =>
      m ← draw_char fb (u64 (i * f_width font)) (u64 (line * f_height font)) c font 0xFFFFFF m;
      draw_chars cs (i + 1) fb font line m
  end.

(** [s]: what [vsnprintf] leaves in the buffer, at most 255 bytes, none 0.  The
    last byte is looked at, also when there is none. *)
Definition _n_log (fb : framebuffer_t) (font : font_t) (s : list Z) (st : log_state) : outcome log_state :=
  lst ← deref (last s);
  let out := serial st ++ s ++ (if negb (lst =? 10) then [10] else []) in
  per_screen ← (if f_height font =? 0 then Fault else Ok (height fb / f_height font));
  if g_line st <? per_screen then
    m ← draw_chars s 0 fb font (g_line st) (l_mem st);
    Ok (Log m (u64 (g_line st + 1)) out)
  else Ok (Log (l_mem st) (g_line st) out).

(** ** What is drawn *)

Section drawing.
Context (fb : framebuffer_t).

(** Rows of pixels do not overlap, and the framebuffer is mapped and in the
    address space. *)
Record fb_ok (m : mem) : Prop := {
  fb_dims : 0 <= width fb /\ 0 <= height fb /\ 0 <= fb_addr fb;
  fb_pitch : 4 * width fb <= pitch fb;
  fb_top : fb_addr fb + height fb * pitch fb <= 2 ^ 64;
  fb_map a : fb_addr fb <= a < fb_addr fb + height fb * pitch fb -> is_Some (m !! a);
}.

Definition on_screen (p : Z * Z) : Prop := 0 <= p.1 < width fb /\ 0 <= p.2 < height fb.
Definition pixel (p : Z * Z) : Z := fb_addr fb + p.2 * pitch fb + p.1 * 4.

Lemma pixel_inside m p : fb_ok m -> on_screen p -> fb_addr fb <= pixel p /\ pixel p + 4 <= fb_addr fb + height fb * pitch fb.
Proof. intros [(Hw & Hh & Ha) Hp Ht _] [Hx Hy]. unfold pixel. nia. Qed.

Lemma pixel_apart m p q : fb_ok m -> on_screen p -> on_screen q -> p <> q -> pixel p + 4 <= pixel q \/ pixel q + 4 <= pixel p.
Proof.
  intros [(Hw & Hh & Ha) Hp Ht _] [Hx Hy] [Hx' Hy'] Hne. unfold pixel. destruct p as [x y], q as [x' y']. cbn [fst snd] in *.
  destruct (Z.lt_trichotomy y y') as [|[->|]]; [left; nia| |right; nia].
  destruct (Z.lt_trichotomy x x') as [|[->|]]; [left; lia|done|right; lia].
Qed.

(** [m'] is [m] with the pixels of [ps] that are on the screen in [color]. *)
Record drawn (ps : list (Z * Z)) (color : Z) (m m' : mem) : Prop := {
  dr_in p : p ∈ ps -> on_screen p -> bytes_at m' (pixel p) (le_bytes 4 color);
  dr_out p : p ∉ ps -> on_screen p -> forall i, 0 <= i < 4 -> m' !! (pixel p + i) = m !! (pixel p + i);
  dr_frame a : ~ fb_addr fb <= a < fb_addr fb + height fb * pitch fb -> m' !! a = m !! a;
  dr_map a : is_Some (m !! a) -> is_Some (m' !! a);
}.

Lemma drawn_nil color m : drawn [] color m m.
Proof. split; [by intros p ?%elem_of_nil|done..]. Qed.

Lemma drawn_ok ps color m m' : drawn ps color m m' -> fb_ok m -> fb_ok m'.
Proof. intros Hd [H1 H2 H3 H4]. split; [done..|]. intros a Ha. by apply (dr_map _ _ _ _ Hd), H4. Qed.

Lemma drawn_app ps qs color m1 m2 m3 : drawn ps color m1 m2 -> drawn qs color m2 m3 -> drawn (ps ++ qs) color m1 m3.
Proof.
  intros H1 H2. split.
  - intros p Hp Hs. destruct (decide (p ∈ qs)) as [Hq|Hq]; [by apply (dr_in _ _ _ _ H2)|].
    apply elem_of_app in Hp as [Hp|Hp]; [|done]. apply (bytes_at_same m2); [|by apply (dr_in _ _ _ _ H1)].
    intros a Ha. rewrite le_bytes_length in Ha. replace a with (pixel p + (a - pixel p)) by lia. apply (dr_out _ _ _ _ H2); [done|done|lia].
  - intros p Hp Hs i Hi. rewrite elem_of_app in Hp. rewrite (dr_out _ _ _ _ H2) by tauto. apply (dr_out _ _ _ _ H1); tauto.
  - intros a Ha. rewrite (dr_frame _ _ _ _ H2) by done. by apply (dr_frame _ _ _ _ H1).
  - intros a Ha. by apply (dr_map _ _ _ _ H2), (dr_map _ _ _ _ H1).
Qed.

Lemma draw_pixel_ok x y color m : fb_ok m -> 0 <= x -> 0 <= y -> exists m', draw_pixel fb x y color m = Ok m' /\ drawn [(x, y)] color m m'.
Proof.
  intros Hok Hx Hy. unfold draw_pixel. destruct (Z.leb_spec (width fb) x) as [Hw|Hw]; cbn [orb]; [|destruct (Z.leb_spec (height fb) y) as [Hh|Hh]].
  1, 2: exists m; split; [done|]; split; [intros p ->%list_elem_of_singleton [? ?]; cbn [fst snd] in *; lia|done..].
  assert (on_screen (x, y)) as Hs by (unfold on_screen; cbn; lia). pose proof (pixel_inside m _ Hok Hs) as [Hlo Hhi].
  change (fb_addr fb + y * pitch fb + x * 4) with (pixel (x, y)). pose proof (fb_dims _ Hok) as (_ & _ & H0). pose proof (fb_top _ Hok) as Htop.
  rewrite u64_small by lia. exists (write_bytes m (pixel (x, y)) (le_bytes 4 color)). split.
  - apply put_ok. intros i Hi. rewrite le_bytes_length in Hi. apply (fb_map _ Hok). lia.
  - split.
    + intros p ->%list_elem_of_singleton _. apply write_bytes_at.
    + intros p Hp Hsp i Hi. rewrite list_elem_of_singleton in Hp. apply write_bytes_out. rewrite le_bytes_length.
      destruct (pixel_apart m p (x, y) Hok Hsp Hs Hp); lia.
    + intros a Ha. apply write_bytes_out. rewrite le_bytes_length. lia.
    + intros a Ha. by apply write_bytes_some.
Qed.

(** The bit of a glyph at column [fx] of row [fy]. *)
Definition glyph_bit (font : font_t) (c fx fy : Z) : bool :=
  Z.testbit (default 0 (f_data font !! Z.to_nat (c * f_height font + fy))) (f_width font - fx - 1).

Record font_ok (font : font_t) : Prop := {
  fo_dims : 0 <= f_width font < 256 /\ 0 < f_height font < 256;
  fo_data : length (f_data font) = Z.to_nat (256 * f_height font);
}.

Definition row_pixels (font : font_t) (x y c fy fx : Z) (n : nat) : list (Z * Z) :=
  (fun i => (x + i, y + fy)) <$> List.filter (fun i => glyph_bit font c i fy) (seqZ fx (Z.of_nat n)).

Definition rows_pixels (font : font_t) (x y c fy : Z) (n : nat) : list (Z * Z) :=
  concat ((fun j => row_pixels font x y c j 0 (Z.to_nat (f_width font))) <$> seqZ fy (Z.of_nat n)).

Section glyph.
Context (font : font_t) (x y c color : Z) (Hfont : font_ok font) (Hc : 0 <= c < 128) (Hx : 0 <= x < 2 ^ 63) (Hy : 0 <= y < 2 ^ 63).

Lemma lit_ok fx fy : 0 <= fy < f_height font -> lit font c fx fy = Ok (glyph_bit font c fx fy).
Proof using Hfont Hc.
  intros Hfy. destruct Hfont as [[Hw Hh] Hd]. unfold lit, glyph_bit, char_index. rewrite (proj2 (Z.ltb_lt c 128)) by lia.
  rewrite u64_small by nia. destruct (lookup_lt_is_Some_2 (f_data font) (Z.to_nat (c * f_height font + fy))) as [r Hr]; [rewrite Hd; nia|].
  by rewrite Hr.
Qed.

Lemma draw_row_ok n fx fy m : fb_ok m -> 0 <= fy < f_height font -> 0 <= fx -> fx + Z.of_nat n <= f_width font ->
  exists m', draw_row n fx fy fb x y c font color m = Ok m' /\ drawn (row_pixels font x y c fy fx n) color m m'.
Proof using Hfont Hc Hx Hy.
  revert fx m. induction n as [|n IH]; intros fx m Hok Hfy Hfx Hn; [exists m; split; [done|apply drawn_nil]|].
  destruct Hfont as [[Hw Hh] _]. cbn [draw_row]. run (lit_ok fx fy Hfy). unfold row_pixels. rewrite Nat2Z.inj_succ, seqZ_cons by lia.
  replace (Z.pred (Z.succ (Z.of_nat n))) with (Z.of_nat n) by lia. replace (Z.succ fx) with (fx + 1) by lia. cbn [List.filter].
  rewrite !u64_small by lia. destruct (glyph_bit font c fx fy).
  - destruct (draw_pixel_ok (x + fx) (y + fy) color m Hok) as (m1 & E1 & H1); [lia|lia|]. run E1.
    destruct (IH (fx + 1) m1 (drawn_ok _ _ _ _ H1 Hok) Hfy ltac:(lia) ltac:(lia)) as (m2 & E2 & H2). exists m2. split; [done|].
    rewrite fmap_cons. exact (drawn_app [(x + fx, y + fy)] _ _ _ _ _ H1 H2).
  - go. destruct (IH (fx + 1) m Hok Hfy ltac:(lia) ltac:(lia)) as (m2 & E2 & H2). by exists m2.
Qed.

Lemma draw_rows_ok n fy m : fb_ok m -> 0 <= fy -> fy + Z.of_nat n <= f_height font ->
  exists m', draw_rows n fy fb x y c font color m = Ok m' /\ drawn (rows_pixels font x y c fy n) color m m'.
Proof using Hfont Hc Hx Hy.
  revert fy m. induction n as [|n IH]; intros fy m Hok Hfy Hn; [exists m; split; [done|apply drawn_nil]|].
  destruct (draw_row_ok (Z.to_nat (f_width font)) 0 fy m Hok ltac:(lia) ltac:(lia)) as (m1 & E1 & H1); [destruct Hfont; lia|].
  cbn [draw_rows]. run E1. destruct (IH (fy + 1) m1 (drawn_ok _ _ _ _ H1 Hok) ltac:(lia) ltac:(lia)) as (m2 & E2 & H2). exists m2. split; [done|].
  unfold rows_pixels. rewrite Nat2Z.inj_succ, seqZ_cons by lia. replace (Z.pred (Z.succ (Z.of_nat n))) with (Z.of_nat n) by lia.
  replace (Z.succ fy) with (fy + 1) by lia. rewrite fmap_cons. cbn [concat]. exact (drawn_app _ _ _ _ _ _ H1 H2).
Qed.

Lemma draw_char_ok m : fb_ok m -> exists m', draw_char fb x y c font color m = Ok m' /\
  drawn (rows_pixels font x y c 0 (Z.to_nat (f_height font))) color m m'.
Proof using Hfont Hc Hx Hy. intros Hok. apply draw_rows_ok; [done|lia|destruct Hfont; lia]. Qed.

Lemma rows_pixels_spec p : p ∈ rows_pixels font x y c 0 (Z.to_nat (f_height font)) <->
  exists fx fy, p = (x + fx, y + fy) /\ 0 <= fx < f_width font /\ 0 <= fy < f_height font /\ glyph_bit font c fx fy = true.
Proof using Hfont.
  destruct Hfont as [[Hw Hh] _]. unfold rows_pixels, row_pixels. rewrite list_elem_of_In, in_concat. setoid_rewrite <- list_elem_of_In. split.
  - intros (l & (fy & -> & Hfy%elem_of_seqZ)%list_elem_of_fmap & (fx & -> & Hfx)%list_elem_of_fmap).
    apply list_elem_of_In, filter_In in Hfx as [Hfx Hbit]. apply list_elem_of_In, elem_of_seqZ in Hfx. exists fx, fy. split_and!; [done|lia|lia|lia|lia|done].
  - intros (fx & fy & -> & Hfx & Hfy & Hbit). eexists. split; [apply list_elem_of_fmap; exists fy; split; [reflexivity|apply elem_of_seqZ; lia]|].
    apply list_elem_of_fmap. exists fx. split; [done|]. apply list_elem_of_In, filter_In. split; [apply list_elem_of_In, elem_of_seqZ; lia|done].
Qed.
End glyph.

(** A line of text changes the framebuffer only. *)
Lemma draw_chars_ok font s i line m : font_ok font -> Forall (fun c => 0 <= c < 128) s -> 0 <= i -> (i + Z.of_nat (length s)) < 2 ^ 31 ->
  0 <= line * f_height font < 2 ^ 63 -> fb_ok m ->
  exists m', draw_chars s i fb font line m = Ok m' /\ fb_ok m' /\
    (forall a, ~ fb_addr fb <= a < fb_addr fb + height fb * pitch fb -> m' !! a = m !! a).
Proof.
  intros Hf Hs Hi Hn Hl. revert i m Hi Hn. induction Hs as [|c s Hc _ IH]; intros i m Hi Hn Hok; [by exists m|]. cbn [draw_chars length] in *.
  pose proof Hf as [[Hw Hh] _]. rewrite !u64_small by nia.
  destruct (draw_char_ok font (i * f_width font) (line * f_height font) c 0xFFFFFF Hf Hc ltac:(nia) Hl m Hok) as (m1 & E1 & H1). run E1.
  destruct (IH (i + 1) m1 ltac:(lia) ltac:(lia) (drawn_ok _ _ _ _ H1 Hok)) as (m2 & E2 & Hok2 & H2). exists m2. split; [done|]. split; [done|].
  intros a Ha. rewrite H2 by done. by apply (dr_frame _ _ _ _ H1).
Qed.
End drawing.

(** A character is drawn exactly.  At any position, for any 7-bit character
    and font table: every pixel of the screen that the glyph covers with a set bit
    has the colour, every other pixel keeps its bytes, also where the glyph sticks
    out of the screen, and no byte outside the framebuffer is written. *)
Theorem draw_char_exact fb font x y c color m : fb_ok fb m -> font_ok font -> 0 <= c < 128 -> 0 <= x < 2 ^ 63 -> 0 <= y < 2 ^ 63 ->
  exists m', draw_char fb x y c font color m = Ok m' /\
    (forall px py, 0 <= px < width fb -> 0 <= py < height fb ->
       let p := pixel fb (px, py) in
       if bool_decide (0 <= px - x < f_width font /\ 0 <= py - y < f_height font) && glyph_bit font c (px - x) (py - y)
       then bytes_at m' p (le_bytes 4 color) else forall i, 0 <= i < 4 -> m' !! (p + i) = m !! (p + i)) /\
    (forall a, ~ fb_addr fb <= a < fb_addr fb + height fb * pitch fb -> m' !! a = m !! a).
Proof.
  intros Hok Hf Hc Hx Hy. destruct (draw_char_ok fb font x y c color Hf Hc Hx Hy m Hok) as (m' & E & Hd). exists m'. split; [done|].
  split; [|apply (dr_frame _ _ _ _ _ Hd)]. intros px py Hpx Hpy p. assert (on_screen fb (px, py)) as Hs by done.
  case_bool_decide as Hin; cbn [andb]; [destruct (glyph_bit font c (px - x) (py - y)) eqn:Hb|].
  - apply (dr_in _ _ _ _ _ Hd); [|done]. apply rows_pixels_spec; [done|]. exists (px - x), (py - y). split_and!; try tauto. f_equal; lia.
  - apply (dr_out _ _ _ _ _ Hd); [|done]. intros (fx & fy & Ep & _ & _ & Hbit)%rows_pixels_spec; [|done]. injection Ep as -> ->.
    replace (x + fx - x) with fx in Hb by lia. replace (y + fy - y) with fy in Hb by lia. congruence.
  - apply (dr_out _ _ _ _ _ Hd); [|done]. intros (fx & fy & Ep & Hfx & Hfy & _)%rows_pixels_spec; [|done]. injection Ep as -> ->. apply Hin. lia.
Qed.

(** The log of a non-empty line of 7-bit characters: it goes to the serial port
    with one newline at its end, to the screen while there are lines left, and
    nothing but the framebuffer is written. *)
Lemma log_ok fb font s st : fb_ok fb (l_mem st) -> font_ok font -> s <> [] -> Forall (fun c => 0 <= c < 128) s -> (length s <= 255)%nat ->
  0 <= g_line st -> height fb < 2 ^ 62 ->
  exists st', _n_log fb font s st = Ok st' /\ fb_ok fb (l_mem st') /\
    serial st' = serial st ++ s ++ (if bool_decide (last s = Some 10) then [] else [10]) /\
    g_line st' = (if g_line st <? height fb / f_height font then g_line st + 1 else g_line st) /\
    (forall a, ~ fb_addr fb <= a < fb_addr fb + height fb * pitch fb -> l_mem st' !! a = l_mem st !! a).
Proof.
  intros Hok Hf Hne Hs Hl Hg Hh. pose proof Hf as [[Hw Hfh] _]. unfold _n_log. destruct (last s) as [b|] eqn:El; [|by apply last_None in El]. go.
  rewrite (proj2 (Z.eqb_neq (f_height font) 0)) by lia. go.
  assert ((if negb (b =? 10) then [10] else []) = (if bool_decide (Some b = Some 10) then [] else [10])) as Enl.
  { destruct (Z.eqb_spec b 10) as [->|Hb]; [done|]. rewrite bool_decide_false by congruence. done. }
  rewrite Enl. destruct (Z.ltb_spec (g_line st) (height fb / f_height font)) as [Hlt|Hge].
  - assert (g_line st * f_height font <= height fb) as Hlh by (pose proof (Z.mul_div_le (height fb) (f_height font) ltac:(lia)); nia).
    destruct (draw_chars_ok fb font s 0 (g_line st) (l_mem st) Hf Hs ltac:(lia) ltac:(lia) ltac:(nia) Hok) as (m' & E & Hok' & Hfr). run E.
    eexists. split; [reflexivity|]. cbn [l_mem serial g_line]. split; [done|]. split; [done|]. split; [|done]. apply u64_small. nia.
  - eexists. split; [reflexivity|]. done.
Qed.

(** *** Behaviours worth knowing *)

(** An empty string: the byte before the buffer is read. *)
Lemma log_empty fb font st : _n_log fb font [] st = Fault.
Proof. done. Qed.

(** A byte from 128 on is a negative character: the font is read outside its
    table. *)
Lemma char_outside_font fb font x y c color m : font_ok font -> 128 <= c < 256 -> 0 < f_width font -> draw_char fb x y c font color m = Fault.
Proof.
  intros [[Hw Hh] Hd] Hc Hw0. unfold draw_char. destruct (Z.to_nat (f_height font)) as [|n] eqn:En; [lia|]. cbn [draw_rows].
  destruct (Z.to_nat (f_width font)) as [|k] eqn:Ek; [lia|]. cbn [draw_row]. unfold lit, char_index. rewrite (proj2 (Z.ltb_ge c 128)) by lia.
  assert (u64 (u64 (c - 256) * f_height font + 0) = 2 ^ 64 - (256 - c) * f_height font) as ->.
  { unfold u64. rewrite Z.add_0_r, Z.mul_mod_idemp_l by lia. replace ((c - 256) * f_height font) with (2 ^ 64 - (256 - c) * f_height font + (-1) * 2 ^ 64) by lia.
    rewrite Z.mod_add by lia. apply Z.mod_small. nia. }
  rewrite lookup_ge_None_2 by (rewrite Hd; nia). done.
Qed.

(** ** A concrete run *)

Definition ex_font : font_t := Font 8 16 (replicate (Z.to_nat 4096) 0x81).
Definition ex_fb : framebuffer_t := Framebuffer 0x1000 4 10 40 160 32.
Definition ex_screen : mem := write_bytes ∅ 0x1000 (replicate 160 7).

Lemma draw_char_exact_witness : exists m', draw_char ex_fb 3 2 65 ex_font 0xFFFFFF ex_screen = Ok m' /\
  bytes_at m' (pixel ex_fb (3, 2)) (le_bytes 4 0xFFFFFF).
Proof.
  destruct (draw_char_exact ex_fb ex_font 3 2 65 0xFFFFFF ex_screen) as (m' & E & Hp & _).
  - split; [cbn; lia|cbn; lia|cbn; lia|]. intros a Ha. cbn in Ha.
    destruct (bytes_mapped _ _ _ (write_bytes_at ∅ 0x1000 (replicate 160 7)) (Z.to_nat (a - 0x1000))) as [b Hb]; [rewrite length_replicate; lia|].
    exists b. rewrite <- Hb. f_equal. lia.
  - split; [cbn; lia|]. cbn [f_data ex_font f_height]. rewrite length_replicate. reflexivity.
  - lia.
  - lia.
  - lia.
  - exists m'. split; [exact E|]. specialize (Hp 3 2 ltac:(cbn; lia) ltac:(cbn; lia)).
    replace (glyph_bit ex_font 65 (3 - 3) (2 - 2)) with true in Hp; [exact Hp|]. unfold glyph_bit, ex_font. cbn [f_data f_width f_height].
    rewrite lookup_replicate_2 by (apply Z2Nat.inj_lt; lia). reflexivity.
Defined.
