(* ===== verification/Messages.v ===== *)
(** * What the kernel prints (common/log.c, dev/pci.c)

    The users of the formatter of Printf.v.  The names of PCI devices, which
    Devices.v has as hexadecimal digits, are what [sprintf] stores for the format
    of pci.c; a log message goes through the buffer of [_n_log] to the serial
    port and the screen of Graphics.v. *)
From stdpp Require Import base strings gmap list fin_maps.
From Stdlib Require Import ZArith Lia.
From S2P Require Import Prelude Strings Devices Graphics Printf.

(** ** Names of PCI devices *)

(** [%0nX], for a width of one digit. *)
Definition hex_conv (n : Z) : conv := Conv [48] [48 + n] None L_none 88.
Definition pci_format : list directive :=
  [Dir (hex_conv 4); Lit 58; Dir (hex_conv 4); Lit 45; Dir (hex_conv 2); Lit 58; Dir (hex_conv 2); Lit 58; Dir (hex_conv 2)].
Definition pci_args (h : pci_header_common_t) : list Z := [vendor_id h; device_id h; class_ h; subclass h; prog_if h].

(** The format is the one in the code. *)
Lemma pci_format_chars : format_chars pci_format = bytes "%04X:%04X-%02X:%02X:%02X".
Proof. reflexivity. Qed.

Record header_ok (h : pci_header_common_t) : Prop := {
  hdr_vendor : 0 <= vendor_id h < 2 ^ 16;
  hdr_device : 0 <= device_id h < 2 ^ 16;
  hdr_class : 0 <= class_ h < 2 ^ 8;
  hdr_subclass : 0 <= subclass h < 2 ^ 8;
  hdr_prog_if : 0 <= prog_if h < 2 ^ 8;
}.

Lemma hex_digits n v : Forall (is_digit_of 16 true) (hex n v).
Proof.
  revert v. induction n as [|n IH]; intros v; cbn [hex]; [done|]. apply Forall_app_2; [apply IH|]. apply Forall_singleton. exists (v mod 16).
  split; [apply Z.mod_pos_bound; lia|]. unfold hex_digit, digit_char. destruct (v mod 16 <? 10); lia.
Qed.

Lemma hex_number n v : 0 <= v < 16 ^ Z.of_nat n -> number 16 (hex n v) = v.
Proof.
  revert v. induction n as [|n IH]; intros v Hv; [cbn in *; lia|]. rewrite Nat2Z.inj_succ, Z.pow_succ_r in Hv by lia. cbn [hex].
  assert (0 <= v mod 16 < 16) as Hm by (apply Z.mod_pos_bound; lia). rewrite number_snoc, IH by (split; [apply Z.div_pos; lia|apply Z.div_lt_upper_bound; lia]).
  change (hex_digit (v mod 16)) with (if v mod 16 <? 10 then 48 + v mod 16 else 55 + v mod 16).
  replace (if v mod 16 <? 10 then 48 + v mod 16 else 55 + v mod 16) with (digit_char true (v mod 16)) by (unfold digit_char; destruct (v mod 16 <? 10); lia).
  rewrite digit_val_char by done. pose proof (Z.div_mod v 16 ltac:(lia)). lia.
Qed.

Lemma hex_field n ds : Printf.field false 0 (Z.of_nat n) (Z.lor FLAGS_ZEROPAD FLAGS_UPPERCASE) ds = replicate (n - length ds) 48 ++ ds.
Proof.
  unfold Printf.field. change (sign false (Z.lor FLAGS_ZEROPAD FLAGS_UPPERCASE)) with (@nil Z).
  change (flag (Z.lor FLAGS_ZEROPAD FLAGS_UPPERCASE) FLAGS_LEFT) with false. change (flag (Z.lor FLAGS_ZEROPAD FLAGS_UPPERCASE) FLAGS_ZEROPAD) with true.
  cbv beta iota zeta. replace (Z.to_nat (0 - Z.of_nat (length ds))) with 0%nat by lia. cbn [app replicate].
  by replace (Z.to_nat (Z.of_nat n - Z.of_nat (length ds))) with (n - length ds)%nat by lia.
Qed.

(** A value of at most [n] digits prints as its [n] digits. *)
Lemma hex_conv_shows m fuel n v va : (n = 2 \/ n = 4)%nat -> 0 <= v < 16 ^ Z.of_nat n -> shows m fuel (hex_conv (Z.of_nat n)) (v :: va) va (hex n v).
Proof.
  intros Hn Hv. destruct (push_digits_correct 32 16 true ltac:(lia) v []) as (ds & _ & Hnum & _);
    [split; [lia|]; eapply Z.lt_le_trans; [apply Hv|]; apply Z.pow_le_mono_r; lia|done|lia|].
  pose proof (numeral_length 16 true v ds (Z.of_nat n) ltac:(lia) Hnum (proj2 Hv) ltac:(lia)) as Hlen.
  assert (replicate (n - length ds) 48 ++ ds = hex n v) as <-.
  { pose proof Hnum as (Hv' & Hds & _). apply (number_inj 16 true); [lia|by apply Forall_app_2; [apply zeros_digits; lia|]|apply hex_digits| |].
    - rewrite length_app, length_replicate, hex_length. lia.
    - by rewrite number_zeros, hex_number. }
  assert (v < 2 ^ 32) as Hv32 by (destruct Hn as [-> | ->]; cbn in Hv; lia).
  assert (int_arg 88 (int_flags 88 (all_flags (hex_conv (Z.of_nat n)))) v = v) as Ev.
  { change (u32 v = v). apply Z.mod_small. lia. }
  pose proof (shows_int m fuel (hex_conv (Z.of_nat n)) v va ds eq_refl) as H. cbv zeta in H. cbn [cv_spec hex_conv] in H. rewrite Ev in H.
  set (f := int_flags 88 _) in H. assert (f = Z.lor FLAGS_ZEROPAD FLAGS_UPPERCASE) as Ef by done. rewrite Ef in H.
  assert (width_of (hex_conv (Z.of_nat n)) = Z.of_nat n) as Ew by (by destruct Hn as [-> | ->]). rewrite Ew in H.
  replace (v <? 0) with false in H by lia. rewrite Z.abs_eq in H by lia. change (prec_of (hex_conv (Z.of_nat n))) with 0 in H.
  change (shown (Z.lor FLAGS_ZEROPAD FLAGS_UPPERCASE) v ds) with ds in H. rewrite hex_field in H.
  apply H; [|exact Hnum]. split; try done; try lia.
Qed.

Lemma pci_format_text m fuel h : header_ok h -> format_text m fuel pci_format (pci_args h) (pci_name h).
Proof.
  intros [Hv Hd Hc Hs Hp]. assert (conv_ok (hex_conv 4) /\ conv_ok (hex_conv 2)) as [H4 H2] by (split; eval_conv).
  unfold pci_name, pci_format, pci_args. cbn [app]. rewrite <-(app_nil_r (hex 2 (prog_if h))).
  repeat first [eapply (ft_dir m fuel _ _ (_ :: _)); [done|first [by apply (hex_conv_shows m fuel 4); [auto|]|by apply (hex_conv_shows m fuel 2); [auto|]]|]
               |apply ft_lit; [done|done|]|apply ft_nil].
Qed.

(** The name of a device fits its 32 bytes, and is what [sprintf] stores there. *)
Definition pci_set_name (fuel : nat) (name format : Z) (h : pci_header_common_t) (m : mem) : outcome (Z * mem) := sprintf_ fuel name format (pci_args h) m.

(** The name of a PCI device is its vendor, device and class in hexadecimal
    digits of fixed width.  [sprintf] with the format of pci.c stores exactly the
    18 characters of [pci_name] and a terminator in the 32 bytes allocated for
    the name, for every header. *)
Theorem pci_name_printed fuel name format h m : header_ok h -> name <> NULL -> mapped m name (Z.to_nat DEVICE_NAME_LEN) ->
  bytes_at (m0 m name DEVICE_NAME_LEN) format (bytes "%04X:%04X-%02X:%02X:%02X" ++ [0]) -> (fuel > 30)%nat ->
  pci_set_name fuel name format h m = Ok (18, write_bytes m name (pci_name h ++ [0])).
Proof.
  intros Hh Hn Hm Hf Hfuel. unfold pci_set_name. rewrite <-pci_format_chars in Hf. 
  rewrite (sprintf_text fuel name DEVICE_NAME_LEN format (pci_args h) m (pci_name h)); [by rewrite pci_name_length|done|done|rewrite pci_name_length; done|].
  apply (text_ok _ fuel pci_format); [by apply pci_format_text|done|cbn; lia].
Qed.

(** ** Log messages *)

Definition LOG_BUFFER_SIZE : Z := 256.

(** [_n_log], with the formatting: [buf] is the buffer on its stack. *)
Definition log_message (fuel : nat) (buf : Z) (fb : framebuffer_t) (font : font_t) (format : Z) (va : list Z) (st : log_state) : outcome log_state :=
  m ← fill (Z.to_nat LOG_BUFFER_SIZE) (l_mem st) buf 0;
  '(_, m) ← vsnprintf_ fuel buf LOG_BUFFER_SIZE format va m;
  s ← read_cstr (Z.to_nat LOG_BUFFER_SIZE) m buf;
  _n_log fb font s (Log m (g_line st) (serial st)).

Lemma m0_write m buf n bs : Z.of_nat (length bs) <= n -> m0 (write_bytes m buf bs) buf n = m0 m buf n.
Proof.
  intros Hl. apply map_filter_strong_ext. intros a c. split; intros [Ha E]; (split; [done|]); [rewrite write_bytes_out in E by lia|rewrite write_bytes_out by lia]; done.
Qed.

Lemma fb_ok_write fb m p bs : fb_ok fb m -> fb_ok fb (write_bytes m p bs).
Proof. intros [Hd Hp Ht Hm]. split; try done. intros a Ha. apply write_bytes_some, Hm, Ha. Qed.


(** ** Concrete runs *)

Definition ex_pci_mem : mem := write_bytes (write_bytes ∅ 1000 (bytes "%04X:%04X-%02X:%02X:%02X" ++ [0])) 7000 (replicate 32 0xAA).

Lemma pci_name_printed_witness : pci_set_name 100 7000 1000 (PciHeader 0x8086 0x100E 0 0 2) ex_pci_mem =
  Ok (18, write_bytes ex_pci_mem 7000 (bytes "8086:100E-02:00:00" ++ [0])).
Proof.
  apply (pci_name_printed 100 7000 1000 (PciHeader 0x8086 0x100E 0 0 2) ex_pci_mem); [split; cbn; lia|done| |apply bytes_dec; vm_compute; reflexivity|lia].
  apply (bytes_mapped _ _ (replicate 32 0xAA)). apply bytes_dec. vm_compute. reflexivity.
Defined.

(** A screen of one line of text, and a message. *)
Definition ex_log_fb : framebuffer_t := Framebuffer 0x10000 16 20 80 1280 32.
Definition ex_log_mem : mem :=
  write_bytes (write_bytes (write_bytes ∅ 1000 (bytes "irq %d" ++ [0])) 2000 (replicate 256 0xAA)) 0x10000 (replicate 1280 7).

